(* ===== verification/_CoqProject ===== *)
-Q . S2P
Prelude.v
StateResult.v
Locks.v
Retry.v
Pools.v
MessageQueue.v
CallTasks.v
MrSet.v
ListHead.v
StringUtils.v
Options.v
Topology.v
Numa.v
ControlTransport.v
ConfigCenter.v
UtransUtils.v
HostNet.v
Registry.v
UtransSetup.v
Log.v
RdmaTransport.v
Tensor.v
AtensorHeap.v
ShardedOps.v
Messages.v
Discovery.v
Serializer.v
Transfer.v
Distribution.v
Compact.v
PullSystem.v
RemoteWrite.v
RemoteRead.v
Convert.v
TableSetup.v
ReadCorrect.v
InMemory.v
LogSetup.v
PyApi.v
PullStart.v
PullDiscovery.v
Md5Verify.v
ExampleRuns.v
