(* ===== verification/Prelude.v ===== *)
(** * Verification of asystem-astate

    astate moves the weights of a model from the training nodes of a job to its
    inference nodes.  A Python program puts and gets named tensors, or shards of
    them, in a tensor table; a remote table publishes what a trainer puts and
    reads what an inference node gets, over RDMA, once per sequence number.  This
    development is a shallow embedding of the repository in Rocq: the functions of
    the sources as definitions that can be run, and theorems about them.

    This file is the prelude: machine integers, results of code that may
    throw ([Ok], [Throw], and [Undef] for undefined behaviour), tactics, hints and
    lemmas on lists, options and integers.  StateResult.v has the monad of
    operations that change a state and may throw.  All paths below are relative
    to src/src unless they start with python or include.

    ** Parts and files

    The transfer library (utrans, C):
    - MrSet.v: utrans_mr_set.c/.h, the AVL tree of registered regions
      ([avl_insert], [avl_delete_node], [avl_find] and the rotations on a tree type).
    - ListHead.v: list_head.h, the intrusive list on a heap of [next] and [prev]
      fields.
    - UtransUtils.v, HostNet.v: utils.h/.c, utils_helper.h/.c: alignment, packed
      identifiers, strings, NUMA nodes; IP addresses and the block of bytes
      [get_local_ips] returns.
    - Registry.v: utrans.c, [_regist_pub_buf], [utrans_regist_ram],
      [utrans_regist_vram], [utrans_dereg_mem], cut at the lock and the calls of
      UCX, over any region set that keeps the promises of [RegionSetLaws]; MrSet.v
      discharges them.
    - UtransSetup.v: utrans.c, id_hash_map.c: configuration and set-up of a context.
    - Log.v: log.c, log.h, file_utils.c: the log files on a file system.

    Common code (common):
    - Locks.v: lock_utils.h, spin locks as step relations.
    - Retry.v: retry/*: the policies as instances of a class with laws, and
      [RetryUtils::Retry].
    - Pools.v: thread_pool.h; MessageQueue.v: queue_utils.h; both as steps of
      threads between two releases of a mutex.
    - StringUtils.v: string_utils.h and the number conversions of C++;
      Options.v: option.h/.cpp, metric_utils.h, network_utils.h.
    - Topology.v: gpu_topology_manager.h/.cpp; Numa.v: numa_aware_allocator.h.

    Transports and discovery (transport, protocol, discovery):
    - ControlTransport.v: base_transport.h, http_transporter, brpc_transport,
      brpc_transfer_service; RdmaTransport.v: rdma_transporter, over the utrans of
      Registry.v and UtransSetup.v.
    - Messages.v: protocol/messages; Serializer.v: atensor_serializer.
    - ConfigCenter.v: the three config centers; Discovery.v: service_discovery.h,
      tcpstore_discovery, discovery_manager; PullDiscovery.v: how a manager is
      made and destroyed, and a service over it.

    Transfer service (transfer):
    - Transfer.v: tensor_transfer_pull, types.h, [WaitCondition]: the operations
      and handlers of one service on its state; Distribution.v:
      tensor_transfer_utils.cpp; Compact.v: [GetCompactTensorInfos].
    - PullSystem.v: services of all nodes that exchange messages, which may be
      lost, repeated or late, as a step relation whose steps are labelled by what
      safety depends on; PullStart.v: [Start], [Stop] and the delivery of messages.

    Tables (core, include) and Python (python):
    - Tensor.v: atensor.h, sharded_key, core/utils.h as values; AtensorHeap.v: the
      arrays of an [ATensor] on a heap; Convert.v: torch tensors and [ATensor]s.
    - ShardedOps.v: tensor_sharded_ops, the planner of sharded copies.
    - RemoteWrite.v, RemoteRead.v, TableSetup.v: remote_tensor_table, its sender,
      its receiver and its constructor; ReadCorrect.v puts a read together, down to
      the bytes that the transfers leave in the copy bucket; CallTasks.v: a batch
      read and its tasks in two pools of Pools.v.
    - InMemory.v: in_memory_tensor_table, atensor_storage; LogSetup.v: log_utils.h,
      spdlog_utils.h, glog_utils.h, the log a storage sets up.
    - PyApi.v: python/astate; Md5Verify.v and ExampleRuns.v: python/example.

    They meet at interfaces, each a class with its laws: [RegionSetLaws],
    [RetryPolicyLaws], [ConfigCenterLaws], [DataLaws], [CoreTable] and others are
    promises one part of the sources makes to another and have the source's code
    as instances.  What is not in the sources, UCX, CUDA, libnuma, brpc, the HTTP
    library, JsonCpp, c10d's TCPStore, torch, the file system and the sockets, is a
    parameter or a class ([JsonLaws], [TCPStoreLaws], [BrpcLaws], ...) whose laws
    state what is documented of it; every such class has a concrete instance in
    an example.

    ** What the theorems show

    - Registered memory: [mr_set_refines_list], [mr_set_inserts_balanced] (the tree
      refines a sorted list of disjoint regions and is balanced under insertion),
      [registry_no_leak], [regist_outcome] (nothing UCX has mapped is lost under
      any interleaving).
    - Sharded copies: [find_covering_sound] (every operation of a plan is right and
      together they cover the target), [find_covering_iff_covered] (the interval
      check decides that the box of the target is covered),
      [copy_shards_correct] (the copies write every element once, from its place).
    - Reads and writes: [remote_read_correct], [read_layout], [compact_partition],
      [read_within_published], [receive_copies], [small_tensor_cache],
      [reshard_partition], [inference_table_opened]: from the plan of a read to
      the elements in the target, within the memory that was published;
      [timed_out_plan_kept] and [overlapping_shard_lost] (where a read fails).
    - The protocol: [no_write_while_reading] (in every interleaving, with lost
      messages, repeated sends and failed reads, no trainer is past the round that is
      being read, if reads wait for readiness, rounds are completed after reads, and
      handled messages are answered), that these conditions are needed
      ([stale_ready_read], [repeated_ready_read]), and what a readiness that comes
      too early does ([lost_ready_starves]).
    - Messages and discovery: [brpc_send_correct], [messages_delivered],
      [publish_message_roundtrip], [tensor_meta_roundtrip],
      [discovered_peers], [discovery_equivalent], [service_finds_job].
    - Termination and liveness: [retry_correct], [pool_completes],
      [message_queue_correct], [http_config_ends], [wait_times_out].
    - Data and memory: [atensor_memory_safe], [convert_roundtrip],
      [list_head_refines], [local_ips_correct], [allocation_roundtrip],
      [log_retention], [rw_lock_correct], [option_reads_typed],
      [tasks_and_variables].
    - The interface: [python_put_get], [in_memory_put_get], [pull_started],
      [pull_never_starts] (a build with the transfer library of this repository,
      which is not the default, has no service that starts, because [idhm_create]
      is not written) and [md5_check_correct] (the example scripts find every
      difference).
    - The log of a process: [storages_log], [sink_selects], [flush_thread_ends].

    Some theorems state what the code does where it is not what it means to do;
    their comments say so.

    ** Bounds and fuel

    Integers have the width of the source, with [u32], [u64], [i32] and [i64]
    written where C or C++ wraps and [Undef] where signed arithmetic overflows.
    Functions that recurse over data are structural.  Loops that wait or retry
    take fuel and have no result without enough of it.  Where the loop ends, the
    fuel is proved to suffice: the attempts a policy has left for [Retry], the
    timeout over the interval for waits with a timeout, the number of entries
    for walks and sorts.  The HTTP config center is given 30003 rounds, the most
    its timeouts allow.  [WaitConsumed] of Transfer.v has no timeout and may wait
    for ever ([lost_ready_starves]); its fuel is an argument of the theorems.
    Threads are steps: nothing bounds the number of threads, nodes,
    messages or operations in the step relations.

    ** Not modelled

    - Logging: spdlog, glog and gflags, log statements and the macros of
      utrans/log.h; functions that only log (PrintTopology, PrintNodesInfo, LogRemoteTensorMeta,
      LogThroughputStatistic, LogReadingTensorsMeta, print_numa_info) and texts
      made for log lines have no effect a theorem could be about.
    - Calls that only reach hardware or the system: get_cpu_freq and
      is_tsc_available (assembly), malloc_vram, free_vram, get_num_gpus (CUDA),
      cuda_utils.h but for the calls Numa.v uses, the connection callback of the
      UCX listener, which logs and rejects.
    - python/export/export.cpp (pybind11 declarations), python/astate/__init__.py
      and setup.py (imports and packaging), protocol/proto (the declaration that
      brpc generates code from), headers that only declare what is modelled from
      the .cpp files, CMake files and scripts.
    - Real time, memory that is exhausted, the contents of torch's kernels, and
      futures of the thread pools; the tasks of the copy pools run one after the
      other in RemoteWrite.v and RemoteRead.v.
    - get_tensor_info, compare_tensors and summarize_tensors of
      python/astate/utils.py, which format or compare floating-point tensors
      with PyTorch. *)

From Stdlib Require Export ZArith Lia Sorted Permutation.
From stdpp Require Export base tactics list numbers option sets strings countable gmap.

(** ** Machine integers

    A w-bit integer of the source is a [Z]; arithmetic that may wrap is
    followed by the wrap of its type. *)

Declare Scope astate_scope.
Delimit Scope astate_scope with astate.

Definition u64 (x : Z) : Z := (x mod 2 ^ 64)%Z.
Definition u32 (x : Z) : Z := (x mod 2 ^ 32)%Z.
Definition i64 (x : Z) : Z := ((x + 2 ^ 63) mod 2 ^ 64 - 2 ^ 63)%Z.
Definition i32 (x : Z) : Z := ((x + 2 ^ 31) mod 2 ^ 32 - 2 ^ 31)%Z.

Definition in_u64 (x : Z) : Prop := (0 <= x < 2 ^ 64)%Z.
Definition in_u32 (x : Z) : Prop := (0 <= x < 2 ^ 32)%Z.
Definition in_i64 (x : Z) : Prop := (- 2 ^ 63 <= x < 2 ^ 63)%Z.
Definition in_i32 (x : Z) : Prop := (- 2 ^ 31 <= x < 2 ^ 31)%Z.

#[export] Instance in_u64_dec x : Decision (in_u64 x) := _.
#[export] Instance in_u32_dec x : Decision (in_u32 x) := _.
#[export] Instance in_i64_dec x : Decision (in_i64 x) := _.
#[export] Instance in_i32_dec x : Decision (in_i32 x) := _.

(** ** Results of C++ code

    A computation returns, throws an exception (with the fixed part of its
    message), or has undefined behaviour, such as an out-of-range read. *)

Inductive result (A : Type) : Type :=
| Ok (a : A)
| Throw (what : string)
| Undef.
Arguments Ok {A} a.
Arguments Throw {A} what.
Arguments Undef {A}.

#[export] Instance result_ret : MRet result := fun A a => Ok a.
#[export] Instance result_bind : MBind result := fun A B f m =>
  match m with Ok a => f a | Throw e => Throw e | Undef => Undef end.

Definition is_ok {A} (m : result A) : bool :=
  match m with Ok _ => true | _ => false end.

(** [try { m } catch (const std::exception&) { h }] *)
Definition catch {A} (m : result A) (h : string -> result A) : result A :=
  match m with Throw e => h e | _ => m end.

(** [if (c) throw std::runtime_error(what);] *)
Definition throw_if (c : bool) (what : string) : result unit :=
  if c then Throw what else Ok tt.

(** A result of [int64_t] arithmetic: overflow is undefined. *)
Definition chk64 (x : Z) : result Z := if bool_decide (in_i64 x) then Ok x else Undef.

(** A read through [operator[]] or a pointer: undefined out of range. *)
Definition index {A} (l : list A) (i : Z) : result A :=
  if (i <? 0)%Z then Undef
  else match l !! Z.to_nat i with Some x => Ok x | None => Undef end.

(** A write through [operator[]]. *)
Definition index_set {A} (l : list A) (i : Z) (x : A) : result (list A) :=
  if (i <? 0)%Z then Undef
  else if (Z.to_nat i <? length l)%nat then Ok (<[Z.to_nat i := x]> l) else Undef.

(** [for (x : l) body], stopping at the first failure. *)
Fixpoint for_each {A S : Type} (body : A -> S -> result S) (l : list A) (s : S) : result S :=
  match l with
  | [] => Ok s
  | x :: l' => s' ← body x s; for_each body l' s'
  end.

(** Map a fallible function over a list. *)
Fixpoint map_result {A B : Type} (f : A -> result B) (l : list A) : result (list B) :=
  match l with
  | [] => Ok []
  | x :: l' => y ← f x; ys ← map_result f l'; Ok (y :: ys)
  end.

(** ** Tactics *)

(** Case analysis on every boolean comparison of [Z] in the goal. *)
Ltac case_cmp :=
  repeat match goal with
  | |- context [(?a <=? ?b)%Z] => destruct (Z.leb_spec a b)
  | |- context [(?a <? ?b)%Z] => destruct (Z.ltb_spec a b)
  | |- context [(?a =? ?b)%Z] => destruct (Z.eqb_spec a b)
  end.

(** The same on the comparisons of one hypothesis. *)
Ltac case_cmp_in H :=
  repeat match type of H with
  | context [(?a <=? ?b)%Z] => destruct (Z.leb_spec a b)
  | context [(?a <? ?b)%Z] => destruct (Z.ltb_spec a b)
  | context [(?a =? ?b)%Z] => destruct (Z.eqb_spec a b)
  end.

(** Inversion of one successful bind of the option monad. *)
Ltac bind_inv H :=
  match type of H with
  | (?m ≫= _) = Some _ =>
      let E := fresh "E" in
      destruct m eqn:E; cbn [mbind option_bind] in H; [|discriminate H]
  end.

(** Inversion of one successful bind of the result monad. *)
Ltac ok_inv H :=
  match type of H with
  | (?m ≫= _) = Ok _ =>
      let E := fresh "E" in
      destruct m eqn:E; cbn [mbind result_bind] in H; [|discriminate H|discriminate H]
  end.

(** The hint databases of the development: [machine] for the integer
    ranges, [astate] for the invariants of the components. *)
Create HintDb machine.
Create HintDb astate.

(** ** Lemmas on machine integers *)

Lemma u64_small x : in_u64 x -> u64 x = x.
Proof. unfold u64, in_u64. intros. now apply Z.mod_small. Qed.

Lemma u64_range x : in_u64 (u64 x).
Proof. apply Z.mod_pos_bound. lia. Qed.

Lemma u32_small x : in_u32 x -> u32 x = x.
Proof. unfold u32, in_u32. intros. now apply Z.mod_small. Qed.

Lemma u32_range x : in_u32 (u32 x).
Proof. apply Z.mod_pos_bound. lia. Qed.

Lemma i32_small x : in_i32 x -> i32 x = x.
Proof. unfold i32, in_i32. intros. rewrite Z.mod_small; lia. Qed.

Lemma i32_range x : in_i32 (i32 x).
Proof.
  unfold i32, in_i32. pose proof (Z.mod_pos_bound (x + 2 ^ 31) (2 ^ 32)). lia.
Qed.

Lemma i64_small x : in_i64 x -> i64 x = x.
Proof. unfold i64, in_i64. intros. rewrite Z.mod_small; lia. Qed.

Lemma i64_range x : in_i64 (i64 x).
Proof.
  unfold i64, in_i64. pose proof (Z.mod_pos_bound (x + 2 ^ 63) (2 ^ 64)). lia.
Qed.

#[export] Hint Resolve u64_range u32_range i32_range i64_range : machine.

(** ** Step relations *)

(** A property the steps preserve holds in every reachable state. *)
Lemma rtc_invariant {S : Type} (R : relation S) (P : S -> Prop) (x y : S) :
  (forall a b, P a -> R a b -> P b) -> P x -> rtc R x y -> P y.
Proof. intros Hstep Hx H. induction H; eauto. Qed.

(** ** Lemmas on results *)

Lemma throw_if_Ok c what u : throw_if c what = Ok u -> c = false.
Proof. by destruct c. Qed.

Lemma chk64_Ok x y : chk64 x = Ok y -> y = x.
Proof. unfold chk64. case_bool_decide; congruence. Qed.

Lemma chk64_small x : in_i64 x -> chk64 x = Ok x.
Proof. intros. unfold chk64. by rewrite bool_decide_true. Qed.

Lemma index_Ok {A} (l : list A) i x :
  index l i = Ok x <-> (0 <= i)%Z /\ l !! Z.to_nat i = Some x.
Proof.
  unfold index. destruct (Z.ltb_spec i 0); [split; [done|lia]|].
  destruct (l !! Z.to_nat i); naive_solver.
Qed.

Lemma index_nat {A} (l : list A) (i : nat) x : l !! i = Some x -> index l (Z.of_nat i) = Ok x.
Proof. intros. apply index_Ok. rewrite Nat2Z.id. split; [lia|done]. Qed.

Lemma map_result_Ok {A B} (f : A -> result B) l ys :
  map_result f l = Ok ys <-> Forall2 (fun x y => f x = Ok y) l ys.
Proof.
  revert ys. induction l as [|x l IH]; intros ys; cbn.
  - split; [intros [= <-]; constructor|inversion 1; done].
  - split.
    + intros H. ok_inv H. ok_inv H. injection H as <-. constructor; [done|]. by apply IH.
    + inversion 1 as [|? y ? ys' Hy Hys]; subst. rewrite Hy. cbn.
      by rewrite (proj2 (IH _) Hys).
Qed.

Lemma for_each_app {A S} (body : A -> S -> result S) l1 l2 s :
  for_each body (l1 ++ l2) s = (s' ← for_each body l1 s; for_each body l2 s').
Proof.
  revert s. induction l1 as [|x l1 IH]; intros s; cbn; [done|].
  destruct (body x s); cbn; [apply IH|done|done].
Qed.

Lemma index_drop {A} (l : list A) (i : nat) x :
  index l (Z.of_nat i) = Ok x -> drop i l = x :: drop (S i) l.
Proof. intros [_ H]%index_Ok. rewrite Nat2Z.id in H. by apply drop_S. Qed.

Lemma map_result_total {A B} (f : A -> result B) (P : B -> Prop) l :
  (forall x, x ∈ l -> exists y, f x = Ok y /\ P y) -> exists ys, map_result f l = Ok ys /\ Forall P ys.
Proof.
  induction l as [|x l IH]; intros H; [exists []; by split; [|constructor]|].
  destruct (H x) as (y & Ey & Hy); [set_solver|]. destruct IH as (ys & Eys & Hys); [set_solver|].
  exists (y :: ys). cbn. rewrite Ey. cbn. rewrite Eys. split; [done|]. by constructor.
Qed.

Lemma for_each_total {A} (body : A -> result unit) l :
  (forall x, x ∈ l -> body x = Ok ()) -> for_each (fun y _ => body y) l () = Ok ().
Proof.
  induction l as [|x l IH]; intros H; [done|]. cbn. rewrite H by set_solver. cbn. apply IH. set_solver.
Qed.

Lemma for_each_Ok {A} (body : A -> result unit) l u x :
  for_each (fun y _ => body y) l () = Ok u -> x ∈ l -> body x = Ok ().
Proof.
  induction l as [|y l IH]; cbn; [set_solver|]. intros H [->|Hx]%elem_of_cons.
  - ok_inv H. by destruct a.
  - ok_inv H. destruct a. by apply IH.
Qed.

(** ** Lemmas on lists *)

Lemma filter_all {A} (P : A -> Prop) `{forall x, Decision (P x)} l : Forall P l -> filter P l = l.
Proof. induction 1 as [|x l Hx _ IH]; [done|]. by rewrite filter_cons_True, IH. Qed.

Lemma filter_none {A} (P : A -> Prop) `{forall x, Decision (P x)} l : Forall (fun x => ~ P x) l -> filter P l = [].
Proof. induction 1 as [|x l Hx _ IH]; [done|]. by rewrite filter_cons_False. Qed.

Lemma Forall2_elem_l {A B} (P : A -> B -> Prop) l k x :
  Forall2 P l k -> x ∈ l -> exists y, y ∈ k /\ P x y.
Proof.
  intros H (i & Hi)%list_elem_of_lookup. destruct (Forall2_lookup_l _ _ _ _ _ H Hi) as (y & Hy & ?).
  exists y. split; [by eapply list_elem_of_lookup_2|done].
Qed.

Lemma Forall2_elem_r {A B} (P : A -> B -> Prop) l k y :
  Forall2 P l k -> y ∈ k -> exists x, x ∈ l /\ P x y.
Proof.
  intros H (i & Hi)%list_elem_of_lookup. destruct (Forall2_lookup_r _ _ _ _ _ H Hi) as (x & Hx & ?).
  exists x. split; [by eapply list_elem_of_lookup_2|done].
Qed.

Lemma Forall3_rev {A B C} (P : A -> B -> C -> Prop) l k m :
  Forall3 P l k m -> Forall3 P (rev l) (rev k) (rev m).
Proof.
  induction 1; cbn; [constructor|]. apply Forall3_app; [done|]. repeat constructor; done.
Qed.

Lemma Forall3_rev_iff {A B C} (P : A -> B -> C -> Prop) l k m :
  Forall3 P l k m <-> Forall3 P (rev l) (rev k) (rev m).
Proof.
  split; [apply Forall3_rev|]. intros H%Forall3_rev. by rewrite !rev_involutive in H.
Qed.

Lemma Forall3_lengths {A B C} (P : A -> B -> C -> Prop) l k m :
  Forall3 P l k m -> length k = length l /\ length m = length l.
Proof. induction 1; cbn; lia. Qed.

Lemma elem_of_seqZ_0 n r : r ∈ seqZ 0 n <-> (0 <= r < n)%Z.
Proof. rewrite elem_of_seqZ. lia. Qed.

Lemma rev_take_S {A} (l : list A) n x :
  l !! n = Some x -> rev (take (S n) l) = x :: rev (take n l).
Proof. intros H. by rewrite (take_S_r _ _ _ H), rev_app_distr. Qed.

(** ** Lemmas on sorted lists *)

Section Sorted.
Context {A : Type} (R : A -> A -> Prop).

Lemma StronglySorted_cons_iff x (l : list A) :
  StronglySorted R (x :: l) <-> StronglySorted R l /\ Forall (R x) l.
Proof. split; [apply StronglySorted_inv|intros []; now constructor]. Qed.

Lemma StronglySorted_app_iff (l1 l2 : list A) :
  StronglySorted R (l1 ++ l2) <->
  StronglySorted R l1 /\ StronglySorted R l2 /\
  (forall x y, x ∈ l1 -> y ∈ l2 -> R x y).
Proof.
  induction l1 as [|a l1 IH]; cbn.
  - split; [intros H; split_and!; [constructor|done|set_solver]|tauto].
  - rewrite !StronglySorted_cons_iff, IH, Forall_app, !Forall_forall.
    split; intros; destruct_and?; split_and!; try done; intros; set_solver.
Qed.

Lemma StronglySorted_middle (l1 l2 : list A) x :
  StronglySorted R (l1 ++ x :: l2) <->
  StronglySorted R l1 /\ StronglySorted R l2 /\
  (forall y, y ∈ l1 -> R y x) /\ (forall y, y ∈ l2 -> R x y) /\
  (forall y z, y ∈ l1 -> z ∈ l2 -> R y z).
Proof.
  rewrite StronglySorted_app_iff, StronglySorted_cons_iff, Forall_forall.
  split; intros; destruct_and?; split_and!; try done; intros; set_solver.
Qed.
End Sorted.
