(* ===== verification/StateResult.v ===== *)
(** * State and errors

    The monad of the operations that update an object and may throw: a
    computation takes the state and returns a result with the state it
    leaves, also when it throws. *)

From S2P Require Import Prelude.

Definition SR (S A : Type) : Type := S -> result A * S.

#[export] Instance SR_ret {S} : MRet (SR S) := fun A a s => (Ok a, s).
#[export] Instance SR_bind {S} : MBind (SR S) := fun A B f m s =>
  match m s with
  | (Ok a, s') => f a s'
  | (Throw e, s') => (Throw e, s')
  | (Undef, s') => (Undef, s')
  end.

Definition sr_get {S} : SR S S := fun s => (Ok s, s).
Definition sr_modify {S} (f : S -> S) : SR S unit := fun s => (Ok tt, f s).
Definition sr_lift {S A} (r : result A) : SR S A := fun s => (r, s).

(** [try { m } catch (const std::exception& e) { h }] *)
Definition sr_catch {S A} (m : SR S A) (h : string -> SR S A) : SR S A := fun s =>
  match m s with (Throw e, s') => h e s' | r => r end.

(** [catch (const std::exception& e) { throw e; }]: the copy that is thrown
    has the type [std::exception] and its message. *)
Definition rethrow {S A} (m : SR S A) : SR S A :=
  sr_catch m (fun _ => sr_lift (Throw "std::exception")).

Fixpoint sr_for_each {S A B : Type} (body : A -> B -> SR S B) (l : list A) (b : B) : SR S B :=
  match l with
  | [] => mret b
  | x :: l' => b' ← body x b; sr_for_each body l' b'
  end.

(** A computation on one half of the state. *)
Definition on_fst {S1 S2 A} (m : SR S1 A) : SR (S1 * S2) A := fun s =>
  let '(r, s1) := m s.1 in (r, (s1, s.2)).
Definition on_snd {S1 S2 A} (m : SR S2 A) : SR (S1 * S2) A := fun s =>
  let '(r, s2) := m s.2 in (r, (s.1, s2)).

(** Inversion of one successful bind. *)
Lemma sr_bind_Ok {S A B} (m : SR S A) (f : A -> SR S B) s b s' :
  (m ≫= f) s = (Ok b, s') -> exists a s1, m s = (Ok a, s1) /\ f a s1 = (Ok b, s').
Proof. unfold mbind, SR_bind. destruct (m s) as [[a| |] s1]; intros H; [eauto|discriminate..]. Qed.

Ltac sr_open H a s E :=
  apply sr_bind_Ok in H as (a & s & E & H).

(** What a computation keeps, whether it returns or throws. *)
Definition sr_keeps {S A} (P : S -> Prop) (m : SR S A) : Prop := forall s, P s -> P (m s).2.

Lemma sr_keeps_ret {S A} (P : S -> Prop) (a : A) : sr_keeps P (mret a).
Proof. by intros s. Qed.

Lemma sr_keeps_lift {S A} (P : S -> Prop) (r : result A) : sr_keeps P (sr_lift r).
Proof. by intros s. Qed.

Lemma sr_keeps_bind {S A B} (P : S -> Prop) (m : SR S A) (f : A -> SR S B) :
  sr_keeps P m -> (forall a, sr_keeps P (f a)) -> sr_keeps P (m ≫= f).
Proof.
  intros Hm Hf s Hs. specialize (Hm s Hs). unfold mbind, SR_bind.
  destruct (m s) as [[a| |] s1]; cbn in *; [by apply Hf|done..].
Qed.

Lemma sr_keeps_catch {S A} (P : S -> Prop) (m : SR S A) h :
  sr_keeps P m -> (forall e, sr_keeps P (h e)) -> sr_keeps P (sr_catch m h).
Proof.
  intros Hm Hh s Hs. specialize (Hm s Hs). unfold sr_catch.
  destruct (m s) as [[a|e|] s1]; cbn in *; [done|by apply Hh|done].
Qed.

Lemma sr_keeps_for_each {S A B} (P : S -> Prop) (body : A -> B -> SR S B) l b :
  (forall x b, sr_keeps P (body x b)) -> sr_keeps P (sr_for_each body l b).
Proof.
  intros Hb. revert b. induction l as [|x l IH]; intros b; [apply sr_keeps_ret|].
  by apply sr_keeps_bind.
Qed.
