(* ===== verification/Locks.v ===== *)
(** * Spin locks (common/lock_utils.h)

    [SpinLock] and [RWSpinLock] with the guards that take and release them,
    as step relations over the program counters of any number of threads.
    One step is one operation on the atomic variable; the operations on one
    variable have a total order whatever memory order they ask for, and
    [compare_exchange_weak] may fail although the values are equal. *)

From S2P Require Import Prelude.
Local Open Scope Z_scope.

(** ** Operations on the atomic variables *)

(** [atomic_flag]: the old value and the new one. *)
Definition test_and_set (flag : bool) : bool * bool := (flag, true).
Definition clear (flag : bool) : bool := false.

(** [LockRead]: a load, then an exchange of the value loaded. *)
Definition read_may_enter (expected : Z) : bool := 0 <=? expected.
Definition read_exchange (state expected : Z) : option Z :=
  if state =? expected then Some (i32 (expected + 1)) else None.
Definition UnlockRead (state : Z) : Z := i32 (state - 1).

(** [LockWrite]: an exchange of 0 by -1. *)
Definition write_exchange (state : Z) : option Z := if state =? 0 then Some (-1) else None.
Definition UnlockWrite (state : Z) : Z := 0.

(** ** [SpinLock] *)

Module Spin.

(** [Wait]: in the loop of [Lock]; [Held]: the guard is alive. *)
Inductive spin_pc : Type := Idle | Wait | Held.

Inductive spin_step : bool * list spin_pc -> bool * list spin_pc -> Prop :=
| step_start flag ts i : ts !! i = Some Idle -> spin_step (flag, ts) (flag, <[i := Wait]> ts)
| step_enter flag ts i : ts !! i = Some Wait -> (test_and_set flag).1 = false ->
    spin_step (flag, ts) ((test_and_set flag).2, <[i := Held]> ts)
| step_spin flag ts i : ts !! i = Some Wait -> (test_and_set flag).1 = true ->
    spin_step (flag, ts) ((test_and_set flag).2, ts)
| step_leave flag ts i : ts !! i = Some Held -> spin_step (flag, ts) (clear flag, <[i := Idle]> ts).

Definition holds (p : spin_pc) : nat := match p with Held => 1 | _ => 0 end.
Definition holders (ts : list spin_pc) : nat := sum_list_with holds ts.

Definition ok (x : bool * list spin_pc) : Prop := holders x.2 = (if x.1 then 1 else 0)%nat.
End Spin.

(** ** [RWSpinLock] *)

Module RW.

(** [ReadLoop] and [WriteLoop]: at the head of the loop; [ReadCas]: between
    the load and the exchange; [Reading] and [Writing]: the guard is alive. *)
Inductive rw_pc : Type :=
| Idle
| ReadLoop
| ReadCas (expected : Z)
| Reading
| WriteLoop
| Writing.

#[global] Instance rw_pc_eq_dec : EqDecision rw_pc.
Proof. solve_decision. Defined.

Inductive rw_step : Z * list rw_pc -> Z * list rw_pc -> Prop :=
| step_start_read st ts i : ts !! i = Some Idle -> rw_step (st, ts) (st, <[i := ReadLoop]> ts)
| step_start_write st ts i : ts !! i = Some Idle -> rw_step (st, ts) (st, <[i := WriteLoop]> ts)
| step_load st ts i : ts !! i = Some ReadLoop -> read_may_enter st = true ->
    rw_step (st, ts) (st, <[i := ReadCas st]> ts)
| step_read_yield st ts i : ts !! i = Some ReadLoop -> read_may_enter st = false ->
    rw_step (st, ts) (st, ts)
| step_read_enter st st' ts i expected : ts !! i = Some (ReadCas expected) ->
    read_exchange st expected = Some st' -> rw_step (st, ts) (st', <[i := Reading]> ts)
| step_read_retry st ts i expected : ts !! i = Some (ReadCas expected) ->
    rw_step (st, ts) (st, <[i := ReadLoop]> ts)
| step_read_leave st ts i : ts !! i = Some Reading -> rw_step (st, ts) (UnlockRead st, <[i := Idle]> ts)
| step_write_enter st st' ts i : ts !! i = Some WriteLoop -> write_exchange st = Some st' ->
    rw_step (st, ts) (st', <[i := Writing]> ts)
| step_write_yield st ts i : ts !! i = Some WriteLoop -> rw_step (st, ts) (st, ts)
| step_write_leave st ts i : ts !! i = Some Writing ->
    rw_step (st, ts) (UnlockWrite st, <[i := Idle]> ts).

Definition reads (p : rw_pc) : nat := match p with Reading => 1 | _ => 0 end.
Definition writes (p : rw_pc) : nat := match p with Writing => 1 | _ => 0 end.
Definition readers (ts : list rw_pc) : nat := sum_list_with reads ts.
Definition writers (ts : list rw_pc) : nat := sum_list_with writes ts.

(** The state counts the readers, or is -1 for the one writer. *)
Definition ok (x : Z * list rw_pc) : Prop :=
  ((writers x.2 = 0%nat /\ x.1 = Z.of_nat (readers x.2)) \/
   (writers x.2 = 1%nat /\ readers x.2 = 0%nat /\ x.1 = -1)) /\
  Forall (fun p => match p with ReadCas e => 0 <= e | _ => True end) x.2.
End RW.

(** ** Lemmas *)

Lemma sum_insert {A} (f : A -> nat) (l : list A) i x y : l !! i = Some x ->
  (sum_list_with f (<[i := y]> l) + f x = sum_list_with f l + f y)%nat.
Proof.
  revert i. induction l as [|z l IH]; intros [|i] Hi; try done; simpl in *.
  - injection Hi as ->. lia.
  - specialize (IH i Hi). lia.
Qed.

Lemma sum_lookup {A} (f : A -> nat) (l : list A) i x : l !! i = Some x ->
  (f x <= sum_list_with f l)%nat.
Proof.
  revert i. induction l as [|z l IH]; intros [|i] Hi; try done; simpl in *.
  - injection Hi as ->. lia.
  - specialize (IH i Hi). lia.
Qed.

Lemma sum_lookup_two {A} (f : A -> nat) (l : list A) i j x y : i <> j ->
  l !! i = Some x -> l !! j = Some y -> (f x + f y <= sum_list_with f l)%nat.
Proof.
  revert i j. induction l as [|z l IH]; intros [|i] [|j] Hij Hi Hj; try done; simpl in *.
  - injection Hi as ->. pose proof (sum_lookup f l j y Hj). lia.
  - injection Hj as ->. pose proof (sum_lookup f l i x Hi). lia.
  - assert (i <> j) by congruence. specialize (IH i j ltac:(done) Hi Hj). lia.
Qed.

Lemma sum_length {A} (f : A -> nat) (l : list A) : (forall x, f x <= 1)%nat ->
  (sum_list_with f l <= length l)%nat.
Proof. intros Hf. induction l as [|x l IH]; simpl; [lia|]. specialize (Hf x). lia. Qed.

Lemma spin_counts ts i p q : ts !! i = Some p ->
  (Spin.holders (<[i := q]> ts) + Spin.holds p = Spin.holders ts + Spin.holds q)%nat.
Proof. apply sum_insert. Qed.

Lemma spin_ok_step x y : Spin.spin_step x y -> Spin.ok x -> Spin.ok y.
Proof.
  unfold Spin.ok. intros Hs Hok.
  destruct Hs as [flag ts i Hi|flag ts i Hi Hf|flag ts i Hi Hf|flag ts i Hi]; simpl in *.
  - pose proof (spin_counts ts i _ Spin.Wait Hi). simpl in *. lia.
  - subst flag. pose proof (spin_counts ts i _ Spin.Held Hi). simpl in *. lia.
  - by subst flag.
  - pose proof (spin_counts ts i _ Spin.Idle Hi). simpl in *. destruct flag; lia.
Qed.

(** The effect of one thread's move on both counts. *)
Lemma rw_counts ts i p q : ts !! i = Some p ->
  (RW.readers (<[i := q]> ts) + RW.reads p = RW.readers ts + RW.reads q)%nat /\
  (RW.writers (<[i := q]> ts) + RW.writes p = RW.writers ts + RW.writes q)%nat.
Proof. intros Hi. split; by apply sum_insert. Qed.

(** A move that changes the state and a count alike. *)
Lemma rw_ok_move st st' ts i p q : RW.ok (st, ts) -> ts !! i = Some p ->
  match q with RW.ReadCas e => 0 <= e | _ => True end ->
  (RW.writers ts = 0%nat -> st = Z.of_nat (RW.readers ts) -> (RW.writes p <= 0)%nat ->
   (RW.writes q = 0%nat /\ st' = st + Z.of_nat (RW.reads q) - Z.of_nat (RW.reads p)) \/
   (RW.writes q = 1%nat /\ RW.readers ts = 0%nat /\ RW.reads q = 0%nat /\ st' = -1)) ->
  (RW.writers ts = 1%nat -> RW.readers ts = 0%nat -> st = -1 -> (RW.reads p <= 0)%nat ->
   RW.reads q = 0%nat /\ ((RW.writes q = RW.writes p /\ st' = -1) \/
     (RW.writes q = 0%nat /\ RW.writes p = 1%nat /\ st' = 0))) ->
  RW.ok (st', <[i := q]> ts).
Proof.
  intros [Hok Hf] Hi Hq H0 H1. destruct (rw_counts ts i p q Hi) as [Hr Hw].
  pose proof (sum_lookup RW.reads ts i p Hi) as Hrp. pose proof (sum_lookup RW.writes ts i p Hi) as Hwp.
  fold (RW.readers ts) in Hrp. fold (RW.writers ts) in Hwp.
  split; [|by apply Forall_insert]. simpl in *.
  destruct Hok as [[Hw0 Hst]|(Hw1 & Hr0 & Hst)].
  - destruct (H0 Hw0 Hst) as [[? ?]|(? & ? & ? & ?)]; [lia|left|right]; lia.
  - destruct (H1 Hw1 Hr0 Hst) as [? [[? ?]|(? & ? & ?)]]; [lia|right|left]; lia.
Qed.

Lemma rw_ok_step x y : Z.of_nat (length x.2) < 2 ^ 31 -> RW.rw_step x y -> RW.ok x -> RW.ok y.
Proof.
  intros Hlen Hs Hok. assert (forall ts, RW.readers ts <= length ts)%nat as Hr
    by (intros; apply sum_length; intros []; simpl; lia).
  destruct Hs as [st ts i Hi|st ts i Hi|st ts i Hi He|st ts i Hi He|st st' ts i e Hi He
    |st ts i e Hi|st ts i Hi|st st' ts i Hi He|st ts i Hi|st ts i Hi]; simpl in Hlen; try done;
    try (eapply rw_ok_move; [exact Hok|exact Hi|try done|simpl; lia|simpl; lia]; fail).
  - eapply rw_ok_move; [exact Hok|exact Hi|by apply Z.leb_le|simpl; lia|simpl; lia].
  - unfold read_exchange in He. destruct (Z.eqb_spec st e) as [->|]; [|done]. injection He as <-.
    pose proof (proj1 (Forall_lookup _ _) (proj2 Hok) i _ Hi) as Hpos. simpl in Hpos.
    eapply rw_ok_move; [exact Hok|exact Hi|done| |simpl; lia].
    specialize (Hr (<[i := RW.Reading]> ts)). rewrite length_insert in Hr.
    destruct (rw_counts ts i _ RW.Reading Hi) as [Hc _].
    simpl in *. intros _ Hst _. left. rewrite i32_small by (unfold in_i32; lia). lia.
  - assert (RW.reads RW.Reading <= RW.readers ts)%nat as Hone by (by eapply sum_lookup).
    unfold UnlockRead. eapply rw_ok_move; [exact Hok|exact Hi|done| |simpl in *; lia].
    specialize (Hr ts). simpl in *. intros _ Hst _. left.
    rewrite i32_small by (unfold in_i32; lia). lia.
  - unfold write_exchange in He. destruct (Z.eqb_spec st 0) as [->|]; [|done]. injection He as <-.
    eapply rw_ok_move; [exact Hok|exact Hi|done|simpl; lia|simpl; lia].
  - unfold UnlockWrite. eapply rw_ok_move; [exact Hok|exact Hi|done|simpl; lia|simpl; lia].
Qed.

Lemma rw_step_length x y : RW.rw_step x y -> length y.2 = length x.2.
Proof. by destruct 1; simpl; rewrite ?length_insert. Qed.

Lemma sum_repeat {A} (f : A -> nat) x n : f x = 0%nat -> sum_list_with f (repeat x n) = 0%nat.
Proof. intros Hx. induction n as [|n IH]; simpl; lia. Qed.

Lemma rw_reachable n x : Z.of_nat n < 2 ^ 31 -> rtc RW.rw_step (0, repeat RW.Idle n) x ->
  RW.ok x /\ length x.2 = n.
Proof.
  intros Hn Hr.
  assert (forall y, rtc RW.rw_step y x -> RW.ok y -> length y.2 = n -> RW.ok x /\ length x.2 = n) as Hgen.
  { clear Hr. induction 1 as [y|y z x Hz _ IH]; [done|]. intros Hok Hlen. apply IH.
    - eapply rw_ok_step; [by rewrite Hlen|exact Hz|done].
    - by rewrite (rw_step_length _ _ Hz). }
  apply (Hgen _ Hr); [|apply repeat_length]. split.
  - left. simpl. unfold RW.writers, RW.readers. by rewrite !sum_repeat.
  - simpl. clear. induction n; by constructor.
Qed.

(** A thread in front of a critical section, and inside of it. *)
Definition rw_waiting (p : RW.rw_pc) : Prop :=
  match p with RW.ReadLoop | RW.ReadCas _ | RW.WriteLoop => True | _ => False end.
Definition rw_entered (p : RW.rw_pc) : RW.rw_pc :=
  match p with RW.WriteLoop => RW.Writing | _ => RW.Reading end.

Lemma rw_enter_read ts i : ts !! i = Some RW.ReadLoop ->
  rtc RW.rw_step (0, ts) (1, <[i := RW.Reading]> ts).
Proof.
  intros Hi. eapply rtc_l; [by apply (RW.step_load 0 ts i)|]. apply rtc_once.
  rewrite <- (list_insert_insert_eq ts i RW.Reading (RW.ReadCas 0)).
  apply (RW.step_read_enter 0 1 _ i 0); [|done]. apply list_lookup_insert_eq. by eapply lookup_lt_Some.
Qed.

Lemma rw_enter ts i p : ts !! i = Some p -> rw_waiting p ->
  exists st, rtc RW.rw_step (0, ts) (st, <[i := rw_entered p]> ts).
Proof.
  intros Hi Hw. destruct p as [| |e| | |]; try done; simpl.
  - exists 1. by apply rw_enter_read.
  - exists 1. eapply rtc_l; [by eapply (RW.step_read_retry 0 ts i)|].
    rewrite <- (list_insert_insert_eq ts i RW.Reading RW.ReadLoop). apply rw_enter_read.
    apply list_lookup_insert_eq. by eapply lookup_lt_Some.
  - exists (-1). apply rtc_once. by apply RW.step_write_enter.
Qed.

Lemma rw_readers_filter ts : RW.readers ts = length (filter (fun p => p = RW.Reading) ts).
Proof. induction ts as [|[] ts IH]; [done|..]; unfold RW.readers in *; simpl; rewrite ?IH; done. Qed.

Lemma rw_no_writer ts : RW.Writing ∉ ts -> RW.writers ts = 0%nat.
Proof.
  induction ts as [|p ts IH]; [done|]. intros [Hp Hts]%not_elem_of_cons. unfold RW.writers in *. simpl.
  rewrite IH by done. by destruct p.
Qed.

(** C27: the readers-writer lock.  However the steps of fewer than 2^31 threads
    interleave, spurious failures of the exchanges included: two threads hold the lock at
    the same time only if both read; the state is -1 while a thread writes and is
    otherwise the number of the threads that read, which never overflows; and when
    no thread holds it, every thread that waits for it can enter by its own steps
    alone. *)
Theorem rw_lock_correct n st ts :
  Z.of_nat n < 2 ^ 31 -> rtc RW.rw_step (0, repeat RW.Idle n) (st, ts) ->
  (forall i j p q, i <> j -> ts !! i = Some p -> ts !! j = Some q ->
     p = RW.Writing \/ p = RW.Reading -> q = RW.Writing \/ q = RW.Reading ->
     p = RW.Reading /\ q = RW.Reading) /\
  (if decide (RW.Writing ∈ ts) then st = -1
   else st = Z.of_nat (length (filter (fun p => p = RW.Reading) ts)) /\ st < 2 ^ 31) /\
  (RW.Reading ∉ ts -> RW.Writing ∉ ts -> forall i p, ts !! i = Some p -> rw_waiting p ->
     exists st', rtc RW.rw_step (st, ts) (st', <[i := rw_entered p]> ts)).
Proof.
  intros Hn Hr. destruct (rw_reachable n _ Hn Hr) as [[Hok _] Hlen]. simpl in Hok, Hlen. split; [|split].
  - intros i j p q Hij Hi Hj Hp Hq.
    pose proof (sum_lookup_two RW.writes ts i j p q Hij Hi Hj) as Hww.
    pose proof (sum_lookup RW.reads ts i p Hi) as Hri. pose proof (sum_lookup RW.reads ts j q Hj) as Hrj.
    fold (RW.writers ts) in Hww. fold (RW.readers ts) in Hri, Hrj.
    destruct Hp as [-> | ->], Hq as [-> | ->]; simpl in *; split; try done; lia.
  - pose proof (rw_readers_filter ts) as Hf. pose proof (length_filter (fun p => p = RW.Reading) ts).
    case_decide as Hw.
    + apply list_elem_of_lookup in Hw as [i Hi]. pose proof (sum_lookup RW.writes ts i _ Hi) as Hone.
      fold (RW.writers ts) in Hone. simpl in Hone. lia.
    + pose proof (rw_no_writer ts Hw). lia.
  - intros Hnr Hnw i p Hi Hp.
    assert (forall f q, (forall x, x <> q -> f x = 0%nat) -> q ∉ ts -> sum_list_with f ts = 0%nat) as Hzero.
    { intros f q Hf Hq. clear -Hf Hq. induction ts as [|x ts IH]; [done|]. simpl.
      apply not_elem_of_cons in Hq as [Hne Hq]. rewrite Hf, IH by done. done. }
    assert (RW.readers ts = 0%nat) as Er by (apply (Hzero _ RW.Reading); [by intros []|done]).
    pose proof (rw_no_writer ts Hnw) as Ew.
    assert (st = 0) as -> by lia. by apply rw_enter.
Qed.

(** Two readers inside, a writer waiting. *)
Definition rw_demo : list RW.rw_pc := [RW.Reading; RW.Reading; RW.WriteLoop].

Lemma rw_demo_reachable : rtc RW.rw_step (0, repeat RW.Idle 3) (2, rw_demo).
Proof.
  eapply rtc_l; [by apply (RW.step_start_read _ _ 0)|]. eapply rtc_l; [by apply (RW.step_start_write _ _ 2)|].
  eapply rtc_l; [by apply (RW.step_start_read _ _ 1)|]. eapply rtc_l; [by apply (RW.step_load _ _ 0)|].
  eapply rtc_l; [by apply (RW.step_load _ _ 1)|]. eapply rtc_l; [by eapply (RW.step_read_enter _ 1 _ 0 0)|].
  eapply rtc_l; [by apply (RW.step_read_retry _ _ 1 0)|]. eapply rtc_l; [by apply (RW.step_load _ _ 1)|].
  eapply rtc_l; [by eapply (RW.step_read_enter _ 2 _ 1 1)|]. apply rtc_refl.
Qed.

Lemma rw_lock_correct_witness :
  rtc RW.rw_step (0, repeat RW.Idle 3) (2, rw_demo) /\
  (forall i j p q, i <> j -> rw_demo !! i = Some p -> rw_demo !! j = Some q ->
     p = RW.Writing \/ p = RW.Reading -> q = RW.Writing \/ q = RW.Reading ->
     p = RW.Reading /\ q = RW.Reading) /\
  2 = Z.of_nat (length (filter (fun p => p = RW.Reading) rw_demo)).
Proof.
  split; [apply rw_demo_reachable|].
  destruct (rw_lock_correct 3 2 rw_demo ltac:(reflexivity) rw_demo_reachable) as (H1 & H2 & _).
  split; [exact H1|]. apply H2.
Defined.

(** The spin lock: at most one thread holds it, and it is free for a waiting
    thread when none does. *)
Theorem spin_lock_correct n flag ts : rtc Spin.spin_step (false, repeat Spin.Idle n) (flag, ts) ->
  (forall i j, ts !! i = Some Spin.Held -> ts !! j = Some Spin.Held -> i = j) /\
  (Spin.Held ∉ ts -> forall i, ts !! i = Some Spin.Wait ->
     Spin.spin_step (flag, ts) (true, <[i := Spin.Held]> ts)).
Proof.
  intros Hr. assert (Spin.ok (flag, ts)) as Hok.
  { assert (forall x y, rtc Spin.spin_step x y -> Spin.ok x -> Spin.ok y) as Hgen
      by (induction 1; eauto using spin_ok_step).
    apply (Hgen _ _ Hr). by apply sum_repeat. }
  unfold Spin.ok in Hok. simpl in Hok. split.
  - intros i j Hi Hj. destruct (decide (i = j)) as [|Hij]; [done|].
    pose proof (sum_lookup_two Spin.holds ts i j _ _ Hij Hi Hj) as H2. fold (Spin.holders ts) in H2.
    simpl in H2. destruct flag; lia.
  - intros Hnone i Hi. destruct flag; [|by apply Spin.step_enter].
    exfalso. assert (Spin.holders ts = 0%nat); [|lia]. clear -Hnone. unfold Spin.holders.
    induction ts as [|p ts IH]; [done|]. simpl. apply not_elem_of_cons in Hnone as [Hp Hts].
    rewrite IH by done. by destruct p.
Qed.
