(* ===== verification/Retry.v ===== *)
(** * Retries

    common/retry: the policies that decide whether and when an operation is
    tried again, and [RetryUtils::Retry].  The clock is an interface: time is in
    nanoseconds of the steady clock, a sleep takes at least as long as asked for,
    and the operation itself takes time. *)

From Stdlib Require Import QArith.QArith QArith.Qround.
From S2P Require Import Prelude.
Local Open Scope Z_scope.

(** ** The clock *)

Class Clock (W : Type) : Type := {
  now : W -> Z;
  sleep_for : Z -> W -> W;
}.

Class ClockLaws (W : Type) `{Clock W} : Prop := {
  sleep_now d w : now w + Z.max 0 d <= now (sleep_for d w);
}.

(** A duration of milliseconds, and [duration_cast<milliseconds>]. *)
Definition ms (n : Z) : Z := n * 1000000.
Definition to_ms (d : Z) : Z := d ÷ 1000000.

Definition chk32 (x : Z) : result Z := if bool_decide (in_i32 x) then Ok x else Undef.

(** ** The interface of a policy *)

Class RetryPolicy (W P : Type) : Type := {
  GetAttemptCount : P -> Z;
  Attempt : P -> W -> result (bool * P * W);
}.

(** ** Policies *)

Record CountingRetry : Type := MkCountingRetry { cr_max_retries : Z; cr_attempt_count : Z }.

Definition new_CountingRetry (max_retries : Z) : result CountingRetry :=
  _ ← throw_if (max_retries <? 0) "Max retries must be a non-negative number";
  Ok (MkCountingRetry max_retries 0).

Definition CountingRetry_Reset (p : CountingRetry) : CountingRetry := MkCountingRetry (cr_max_retries p) 0.

Definition CountingRetry_Attempt (p : CountingRetry) : result (bool * CountingRetry) :=
  if cr_attempt_count p <=? cr_max_retries p then
    n ← chk32 (cr_attempt_count p + 1); Ok (true, MkCountingRetry (cr_max_retries p) n)
  else Ok (false, p).

Record CountingAndSleepRetryPolicy : Type := MkCountingAndSleep { cs_base : CountingRetry; cs_sleep_ms : Z }.

Record SleepingRetry : Type := MkSleepingRetry { sr_max_retries : Z; sr_attempt_count : Z }.

Definition new_SleepingRetry (max_retries : Z) : result SleepingRetry :=
  _ ← throw_if (max_retries <=? 0) "Max retries must be a positive number";
  Ok (MkSleepingRetry max_retries 0).

Record ExponentialBackoffRetry : Type := MkExponentialBackoff {
  eb_base : SleepingRetry; base_sleep_time_ms : Z; max_sleep_ms : Z;
}.

Definition new_ExponentialBackoffRetry (base_sleep max_sleep max_retries : Z)
    : result ExponentialBackoffRetry :=
  b ← new_SleepingRetry max_retries;
  _ ← throw_if (base_sleep <? 0) "Base must be a positive number, or 0";
  _ ← throw_if (max_sleep <? 0) "Max must be a positive number, or 0";
  Ok (MkExponentialBackoff b base_sleep max_sleep).

(** [std::abs(INT_MIN)] is undefined. *)
Definition SafeAbs (value default_value : Z) : result Z :=
  r ← chk32 (Z.abs value); Ok (if r =? - 2 ^ 31 then default_value else r).

(** The milliseconds to sleep; [draw] is the number [dis(gen)] gives in the
    closed range of its arguments. *)
Definition GetSleepTime (draw : Z -> Z -> Z) (p : ExponentialBackoffRetry) : result Z :=
  let count := sr_attempt_count (eb_base p) in
  if 30 <=? count then Ok (max_sleep_ms p) else
  let lower_bound := 2 ^ count in
  let upper_bound := 2 ^ (count + 1) in
  sleep_ms ← chk32 (base_sleep_time_ms p * draw lower_bound (upper_bound - 1));
  a ← SafeAbs sleep_ms (max_sleep_ms p);
  Ok (Z.min a (max_sleep_ms p)).

(** The time bound policies: [tb_end] is [end_time_]; the two durations are in
    milliseconds. *)
Record ExponentialTimeBoundedRetry : Type := MkExponentialTimeBounded {
  tb_end : Z; tb_attempt_count : Z;
  max_sleep : Z; next_sleep : Z; skip_initial_sleep : bool; sleep_skipped : bool;
}.

Definition new_ExponentialTimeBoundedRetry {W} `{Clock W} (max_duration initial_sleep max_sleep : Z)
    (skip_initial_sleep : bool) (w : W) : ExponentialTimeBoundedRetry :=
  MkExponentialTimeBounded (now w + ms max_duration) 0 max_sleep initial_sleep skip_initial_sleep false.

Record Builder : Type := MkBuilder {
  bd_max_duration : Z; bd_initial_sleep : Z; bd_max_sleep : Z; bd_skip_initial_sleep : bool;
}.

Definition new_Builder : Builder := MkBuilder 0 0 0 false.
Definition WithMaxDuration (d : Z) (b : Builder) : Builder :=
  MkBuilder d (bd_initial_sleep b) (bd_max_sleep b) (bd_skip_initial_sleep b).
Definition WithInitialSleep (d : Z) (b : Builder) : Builder :=
  MkBuilder (bd_max_duration b) d (bd_max_sleep b) (bd_skip_initial_sleep b).
Definition WithMaxSleep (d : Z) (b : Builder) : Builder :=
  MkBuilder (bd_max_duration b) (bd_initial_sleep b) d (bd_skip_initial_sleep b).
Definition WithSkipInitialSleep (b : Builder) : Builder :=
  MkBuilder (bd_max_duration b) (bd_initial_sleep b) (bd_max_sleep b) true.

Definition Build {W} `{Clock W} (b : Builder) (w : W) : ExponentialTimeBoundedRetry :=
  new_ExponentialTimeBoundedRetry (bd_max_duration b) (bd_initial_sleep b) (bd_max_sleep b)
    (bd_skip_initial_sleep b) w.

(** [jitter_ratio] is the number drawn from [0, 0.1); the cast to [int64_t]
    truncates it before the multiplication. *)
Definition ComputeNextWaitTime (jitter_ratio : Q) (p : ExponentialTimeBoundedRetry)
    : result (Z * ExponentialTimeBoundedRetry) :=
  if skip_initial_sleep p && negb (sleep_skipped p) then
    Ok (0, MkExponentialTimeBounded (tb_end p) (tb_attempt_count p) (max_sleep p) (next_sleep p)
             (skip_initial_sleep p) true)
  else
    let next := next_sleep p in
    doubled ← chk64 (next_sleep p * 2);
    let next_sleep' := if max_sleep p <? doubled then max_sleep p else doubled in
    let jitter := Qfloor jitter_ratio * next in
    Ok (next + jitter, MkExponentialTimeBounded (tb_end p) (tb_attempt_count p) (max_sleep p) next_sleep'
                         (skip_initial_sleep p) (sleep_skipped p)).

Record TimeoutRetry : Type := MkTimeoutRetry {
  retry_timeout_ms : Z; to_sleep_ms : Z; start_time : Z; to_attempt_count : Z; first_attempt : bool;
}.

Definition new_TimeoutRetry (retry_timeout_ms sleep_ms : Z) : result TimeoutRetry :=
  _ ← throw_if (retry_timeout_ms <=? 0) "Retry timeout must be a positive number";
  _ ← throw_if (sleep_ms <? 0) "sleep_ms cannot be negative";
  Ok (MkTimeoutRetry retry_timeout_ms sleep_ms 0 0 true).

Section Instances.
Context {W : Type} `{Clock W}.

#[export] Instance CountingRetry_policy : RetryPolicy W CountingRetry := {
  GetAttemptCount := cr_attempt_count;
  Attempt p w := '(b, p') ← CountingRetry_Attempt p; Ok (b, p', w);
}.

#[export] Instance CountingAndSleep_policy : RetryPolicy W CountingAndSleepRetryPolicy := {
  GetAttemptCount p := cr_attempt_count (cs_base p);
  Attempt p w :=
    '(b, base) ← CountingRetry_Attempt (cs_base p);
    let p' := MkCountingAndSleep base (cs_sleep_ms p) in
    if (b : bool) then
      Ok (true, p', if 1 <? cr_attempt_count base then sleep_for (ms (cs_sleep_ms p)) w else w)
    else Ok (false, p', w);
}.

(** The random numbers of the two exponential policies, drawn from the world. *)
Context (draw : W -> Z -> Z -> Z) (jitter_ratio : W -> Q).

Definition with_attempts (p : ExponentialBackoffRetry) (n : Z) : ExponentialBackoffRetry :=
  MkExponentialBackoff (MkSleepingRetry (sr_max_retries (eb_base p)) n) (base_sleep_time_ms p) (max_sleep_ms p).

(** [SleepingRetry::Attempt] with the sleep time of the derived class. *)
Definition SleepingRetry_Attempt (p : ExponentialBackoffRetry) (w : W)
    : result (bool * ExponentialBackoffRetry * W) :=
  let count := sr_attempt_count (eb_base p) in
  if count <=? sr_max_retries (eb_base p) then
    if count =? 0 then Ok (true, with_attempts p 1, w) else
    sleep_time ← GetSleepTime (draw w) p;
    let w' := sleep_for (ms sleep_time) w in
    n ← chk32 (count + 1);
    Ok (true, with_attempts p n, w')
  else Ok (false, p, w).

Definition ExponentialBackoff_policy : RetryPolicy W ExponentialBackoffRetry := {|
  GetAttemptCount p := sr_attempt_count (eb_base p);
  Attempt := SleepingRetry_Attempt;
|}.

Definition count_attempt (p : ExponentialTimeBoundedRetry) : result ExponentialTimeBoundedRetry :=
  n ← chk32 (tb_attempt_count p + 1);
  Ok (MkExponentialTimeBounded (tb_end p) n (max_sleep p) (next_sleep p) (skip_initial_sleep p)
        (sleep_skipped p)).

(** [TimeBoundedRetry::Attempt] with the wait of the derived class; the clock is
    read once. *)
Definition TimeBoundedRetry_Attempt (p : ExponentialTimeBoundedRetry) (w : W)
    : result (bool * ExponentialTimeBoundedRetry * W) :=
  if tb_attempt_count p =? 0 then p' ← count_attempt p; Ok (true, p', w) else
  if tb_end p <=? now w then Ok (false, p, w) else
  '(wait, p1) ← ComputeNextWaitTime (jitter_ratio w) p;
  let wait := if tb_end p <? now w + ms wait then to_ms (tb_end p - now w) else wait in
  let w' := if 0 <? wait then sleep_for (ms wait) w else w in
  p' ← count_attempt p1;
  Ok (true, p', w').

Definition ExponentialTimeBounded_policy : RetryPolicy W ExponentialTimeBoundedRetry := {|
  GetAttemptCount := tb_attempt_count;
  Attempt := TimeBoundedRetry_Attempt;
|}.

Definition TimeoutRetry_Attempt (p : TimeoutRetry) (w : W) : result (bool * TimeoutRetry * W) :=
  if first_attempt p then
    n ← chk32 (to_attempt_count p + 1);
    Ok (true, MkTimeoutRetry (retry_timeout_ms p) (to_sleep_ms p) (now w) n false, w)
  else
    let w' := if 0 <? to_sleep_ms p then sleep_for (ms (to_sleep_ms p)) w else w in
    let elapsed := to_ms (now w' - start_time p) in
    if elapsed <=? retry_timeout_ms p then
      n ← chk32 (to_attempt_count p + 1);
      Ok (true, MkTimeoutRetry (retry_timeout_ms p) (to_sleep_ms p) (start_time p) n false, w')
    else Ok (false, p, w').

Definition Timeout_policy : RetryPolicy W TimeoutRetry := {|
  GetAttemptCount := to_attempt_count;
  Attempt := TimeoutRetry_Attempt;
|}.
End Instances.

(** ** RetryUtils *)

(** What a call of the operation ends with: a value, an exception, or a
    [NonRetryableException]. *)
Inductive outcome (A : Type) : Type :=
| Done (a : A)
| Failed (e : string)
| Fatal (e : string).
Arguments Done {A} a.
Arguments Failed {A} e.
Arguments Fatal {A} e.

(** How [Retry] ends. *)
Inductive retry_result (A : Type) : Type :=
| Returned (a : A)
| Rethrown (e : string)
| NoAttempt.
Arguments Returned {A} a.
Arguments Rethrown {A} e.
Arguments NoAttempt {A}.

Section RetryUtils.
Context {W P A : Type} `{RetryPolicy W P} (func : W -> outcome A * W).

(** The loop; [None] is a loop that has not ended within the fuel. *)
Fixpoint Retry (fuel : nat) (last_exception : option string) (policy : P) (w : W)
    : option (result (retry_result A * P * W)) :=
  match fuel with
  | O => None
  | S fuel' =>
      match Attempt policy w with
      | Ok (true, policy', w1) =>
          match func w1 with
          | (Done a, w2) => Some (Ok (Returned a, policy', w2))
          | (Fatal e, w2) => Some (Ok (Rethrown e, policy', w2))
          | (Failed e, w2) => Retry fuel' (Some e) policy' w2
          end
      | Ok (false, policy', w1) =>
          Some (Ok (match last_exception with Some e => Rethrown e | None => NoAttempt end, policy', w1))
      | Throw e => Some (Throw e)
      | Undef => Some Undef
      end
  end.
End RetryUtils.

(** ** What a policy promises *)

(** Among well-formed policies: the passing of time keeps a policy well-formed,
    the attempts that are left are bounded, an attempt returns, and the first
    one is allowed without a delay. *)
Class RetryPolicyLaws (W P : Type) `{Clock W} `{RetryPolicy W P} : Type := {
  wf : P -> W -> Prop;
  left : P -> W -> Z;
  left_nonneg p w : wf p w -> 0 <= left p w;
  wf_later p w w' : wf p w -> now w <= now w' -> wf p w' /\ left p w' <= left p w;
  attempt_law p w : wf p w -> 0 <= GetAttemptCount p -> GetAttemptCount p + left p w < 2 ^ 31 ->
    exists b p' w', Attempt p w = Ok (b, p', w') /\ now w <= now w' /\ wf p' w' /\
      (b = true -> GetAttemptCount p' = GetAttemptCount p + 1 /\
         forall w2, now w' < now w2 -> left p' w2 < left p w);
  first_law p w : wf p w -> GetAttemptCount p = 0 -> left p w < 2 ^ 31 ->
    exists p', Attempt p w = Ok (true, p', w);
}.

Section RetryCorrect.
Context {W P A : Type} `{RetryPolicyLaws W P} (func : W -> outcome A * W).
Hypothesis func_takes_time : forall w, now w < now (func w).2.

(** The attempts that the policy allows one after the other, with their outcomes. *)
Inductive attempts : P -> W -> list (outcome A) -> P -> W -> Prop :=
| attempts_nil p w : attempts p w [] p w
| attempts_cons p w p1 w1 o w2 os p' w' : Attempt p w = Ok (true, p1, w1) -> func w1 = (o, w2) ->
    attempts p1 w2 os p' w' -> attempts p w (o :: os) p' w'.

Definition is_failed (o : outcome A) : Prop := exists e, o = Failed e.

(** [Retry] as a function of the outcomes: what the last attempt gave, and
    that the policy has expired when that was a failure. *)
Definition retry_end (before : option string) (os : list (outcome A)) (r : retry_result A) (p : P) (w : W) : Prop :=
  match last os with
  | Some (Done a) => r = Returned a
  | Some (Fatal e) => r = Rethrown e
  | Some (Failed e) => r = Rethrown e /\ exists p' w', Attempt p w = Ok (false, p', w')
  | None => r = match before with Some e => Rethrown e | None => NoAttempt end /\
              exists p' w', Attempt p w = Ok (false, p', w')
  end.

Lemma retry_loop fuel : forall before p w, wf p w -> 0 <= GetAttemptCount p ->
  GetAttemptCount p + left p w < 2 ^ 31 -> (Z.to_nat (left p w) < fuel)%nat ->
  exists r os p1 w1 p2 w2, Retry func fuel before p w = Some (Ok (r, p2, w2)) /\
    attempts p w os p1 w1 /\ Forall is_failed (removelast os) /\ retry_end before os r p1 w1.
Proof.
  induction fuel as [|fuel IH]; intros before p w Hwf Hc Hl Hf; [lia|].
  destruct (attempt_law p w Hwf Hc Hl) as (b & p' & w' & E & Hn & Hwf' & Hb).
  cbn [Retry]. rewrite E. destruct b.
  2: { exists (match before with Some e => Rethrown e | None => NoAttempt end), [], p, w, p', w'.
       split; [done|]. split; [constructor|]. split; [constructor|]. cbn. eauto. }
  destruct (Hb eq_refl) as [Hcount Hleft]. pose proof (func_takes_time w') as Ht.
  destruct (func w') as [o w2] eqn:Ef. cbn in Ht. specialize (Hleft w2 Ht).
  assert (attempts p w [o] p' w2) as Hone by (econstructor; [exact E|exact Ef|constructor]).
  destruct o as [a|e|e].
  1, 3: (eexists _, [_], p', w2, p', w2; split; [reflexivity|]; split; [exact Hone|]; split; [constructor|reflexivity]).
  destruct (wf_later p' w' w2 Hwf' ltac:(lia)) as [Hwf2 _]. pose proof (left_nonneg p' w2 Hwf2).
  destruct (IH (Some e) p' w2 Hwf2 ltac:(lia) ltac:(lia) ltac:(lia)) as (r & os & p1 & w1 & p3 & w3 & Er & Ha & Hfl & Hend).
  exists r, (Failed e :: os), p1, w1, p3, w3. split; [exact Er|].
  split; [by eapply attempts_cons|]. split.
  - destruct os; [constructor|]. constructor; [by exists e|exact Hfl].
  - unfold retry_end in *. destruct os as [|o os]; [exact Hend|]. rewrite last_cons_cons.
    destruct (last (o :: os)) eqn:El; [exact Hend|]. by apply last_None in El.
Qed.
End RetryCorrect.

(** ** The policies keep their promise *)

Lemma chk32_small x : in_i32 x -> chk32 x = Ok x.
Proof. intros. unfold chk32. by rewrite bool_decide_true. Qed.

Lemma chk32_Ok x y : chk32 x = Ok y -> y = x.
Proof. unfold chk32. case_bool_decide; congruence. Qed.

Section Laws.
Context {W : Type} `{ClockLaws W}.

Lemma sleep_later d w : now w <= now (sleep_for d w).
Proof. pose proof (sleep_now d w). lia. Qed.

#[export] Instance CountingRetry_laws : RetryPolicyLaws W CountingRetry.
Proof.
  refine {| wf p _ := 0 <= cr_max_retries p /\ 0 <= cr_attempt_count p <= cr_max_retries p + 1;
            left p _ := cr_max_retries p + 1 - cr_attempt_count p |}.
  - intros p w. lia.
  - intros p w w'. lia.
  - intros [mx n] w Hwf Hc Hl. cbn in *. unfold CountingRetry_Attempt. cbn.
    destruct (Z.leb_spec n mx).
    + rewrite chk32_small by (unfold in_i32; lia). cbn. do 3 eexists. split; [reflexivity|]. cbn. split; [lia|].
      split; [lia|]. intros _. split; [done|]. intros w2. lia.
    + do 3 eexists. split; [reflexivity|]. cbn. split; [lia|]. by split; [lia|].
  - intros [mx n] w Hwf Hc Hl. cbn in *. subst n. unfold CountingRetry_Attempt. cbn.
    rewrite (proj2 (Z.leb_le _ _)) by lia. eauto.
Defined.

#[export] Instance CountingAndSleep_laws : RetryPolicyLaws W CountingAndSleepRetryPolicy.
Proof.
  refine {| wf p _ := 0 <= cr_max_retries (cs_base p) /\
              0 <= cr_attempt_count (cs_base p) <= cr_max_retries (cs_base p) + 1;
            left p _ := cr_max_retries (cs_base p) + 1 - cr_attempt_count (cs_base p) |}.
  - intros p w. lia.
  - intros p w w'. lia.
  - intros [[mx n] sl] w Hwf Hc Hl. cbn in *. unfold CountingRetry_Attempt. cbn.
    destruct (Z.leb_spec n mx).
    + rewrite chk32_small by (unfold in_i32; lia). cbn. do 3 eexists. split; [reflexivity|]. cbn.
      split; [destruct (1 <? n + 1); [apply sleep_later|lia]|]. split; [lia|]. intros _. split; [done|].
      intros w2. lia.
    + do 3 eexists. split; [reflexivity|]. cbn. split; [lia|]. by split; [lia|].
  - intros [[mx n] sl] w Hwf Hc Hl. cbn in *. subst n. unfold CountingRetry_Attempt. cbn.
    rewrite (proj2 (Z.leb_le _ _)) by lia. cbn. eauto.
Defined.

Lemma to_ms_range d : 0 <= d -> ms (to_ms d) <= d < ms (to_ms d + 1).
Proof.
  intros Hd. unfold ms, to_ms. pose proof (Z.quot_rem' d 1000000). pose proof (Z.rem_bound_pos d 1000000). lia.
Qed.

Lemma to_ms_le d n : 0 <= d -> to_ms d <= n <-> d < ms (n + 1).
Proof. intros Hd. pose proof (to_ms_range d Hd). unfold ms in *. lia. Qed.

(** A timeout policy that sleeps: every further attempt costs a millisecond. *)
Definition timeout_wf (p : TimeoutRetry) (w : W) : Prop :=
  1 <= to_sleep_ms p /\ 0 < retry_timeout_ms p /\
  if first_attempt p then to_attempt_count p = 0 else 1 <= to_attempt_count p /\ start_time p <= now w.

Definition timeout_left (p : TimeoutRetry) (w : W) : Z :=
  if first_attempt p then retry_timeout_ms p + 2
  else Z.max 0 (retry_timeout_ms p + 1 - to_ms (now w - start_time p)).

Lemma to_ms_mono a b : 0 <= a -> a <= b -> to_ms a <= to_ms b.
Proof. intros Ha Hb. pose proof (to_ms_range a Ha). pose proof (to_ms_range b ltac:(lia)). unfold ms in *. lia. Qed.

Lemma to_ms_step a b n : 0 <= a -> 1 <= n -> a + ms n <= b -> to_ms a + 1 <= to_ms b.
Proof.
  intros Ha Hn Hb. pose proof (to_ms_range a Ha). unfold ms in *.
  pose proof (to_ms_range b ltac:(lia)). unfold ms in *. lia.
Qed.

#[export] Instance Timeout_laws : @RetryPolicyLaws W TimeoutRetry _ Timeout_policy.
Proof.
  unshelve refine {| wf := timeout_wf; left := timeout_left |}.
  - intros p w (? & ? & ?). unfold timeout_left. destruct (first_attempt p); lia.
  - intros p w w'. unfold timeout_wf, timeout_left. destruct (first_attempt p); [lia|].
    intros (? & ? & ? & ?) ?. split; [lia|]. pose proof (to_ms_mono (now w - start_time p) (now w' - start_time p)). lia.
  - intros [tmo sl st n first] w (Hsl & Htmo & Hst) Hc Hl. cbn in *. unfold timeout_left in *.
    unfold TimeoutRetry_Attempt. cbn in *. destruct first; cbn in *.
    + subst n. rewrite chk32_small by (unfold in_i32; lia). cbn. do 3 eexists. split; [reflexivity|].
      split; [lia|]. split; [split; cbn; lia|]. intros _. split; [done|]. intros w2 Hw. cbn.
      pose proof (to_ms_mono 0 (now w2 - now w)). change (to_ms 0) with 0 in *. lia.
    + rewrite (proj2 (Z.ltb_lt _ _)) by lia. pose proof (sleep_now (ms sl) w) as Hs.
      set (w' := sleep_for (ms sl) w) in *. assert (now w + ms sl <= now w') as Hs' by (unfold ms in *; lia). clear Hs.
      assert (0 <= ms sl) by (unfold ms; lia).
      destruct Hst as [Hn Hst]. assert (to_ms (now w - st) + 1 <= to_ms (now w' - st)) as Hstep by (apply (to_ms_step _ _ sl); lia).
      pose proof (to_ms_mono 0 (now w - st)). change (to_ms 0) with 0 in *.
      destruct (Z.leb_spec (to_ms (now w' - st)) tmo).
      * rewrite chk32_small by (unfold in_i32; lia). cbn. do 3 eexists. split; [reflexivity|].
        split; [lia|]. split; [split; cbn; lia|]. intros _. split; [done|]. intros w2 Hw. cbn.
        pose proof (to_ms_mono (now w' - st) (now w2 - st)). lia.
      * do 3 eexists. split; [reflexivity|]. split; [lia|]. split; [split; cbn; lia|]. done.
  - intros [tmo sl st n first] w (Hsl & Htmo & Hst) Hc Hl. cbn in *. subst n.
    unfold TimeoutRetry_Attempt. cbn. destruct first; cbn.
    + rewrite chk32_small by (unfold in_i32; lia). eauto.
    + lia.
Defined.

(** The random numbers lie in the ranges of their distributions. *)
Context (draw : W -> Z -> Z -> Z) (jitter_ratio : W -> Q).
Hypothesis draw_range : forall w a b, a <= b -> a <= draw w a b <= b.
Hypothesis jitter_range : forall w, (0 <= jitter_ratio w)%Q /\ (jitter_ratio w < 1 # 10)%Q.

(** A base for which the product of [GetSleepTime] stays an [int]. *)
Definition backoff_wf (p : ExponentialBackoffRetry) : Prop :=
  0 <= base_sleep_time_ms p /\ 0 <= max_sleep_ms p < 2 ^ 31 /\ 0 < sr_max_retries (eb_base p) /\
  0 <= sr_attempt_count (eb_base p) <= sr_max_retries (eb_base p) + 1 /\
  base_sleep_time_ms p * 2 ^ (Z.min 30 (sr_max_retries (eb_base p) + 1)) < 2 ^ 31.

Lemma sleep_time_bounded p w : backoff_wf p -> sr_attempt_count (eb_base p) <= sr_max_retries (eb_base p) ->
  exists n, GetSleepTime (draw w) p = Ok n /\ 0 <= n <= max_sleep_ms p.
Proof.
  destruct p as [[mx n] base top]. intros (Hb & Ht & Hm & Hn & Hov). cbn in *. intros Hle.
  unfold GetSleepTime. cbn. destruct (Z.leb_spec 30 n); [eexists; split; [reflexivity|lia]|].
  assert (0 < 2 ^ n) by (apply Z.pow_pos_nonneg; lia).
  assert (2 ^ (n + 1) = 2 * 2 ^ n) as E by (rewrite Z.pow_add_r by lia; lia).
  assert (2 ^ (n + 1) <= 2 ^ Z.min 30 (mx + 1)) by (apply Z.pow_le_mono_r; lia).
  pose proof (draw_range w (2 ^ n) (2 ^ (n + 1) - 1) ltac:(lia)).
  set (x := draw w (2 ^ n) (2 ^ (n + 1) - 1)) in *.
  assert (0 <= base * x < 2 ^ 31) by nia.
  rewrite chk32_small by (unfold in_i32; lia). cbn [mbind result_bind]. unfold SafeAbs.
  rewrite chk32_small by (unfold in_i32; lia). cbn [mbind result_bind].
  rewrite (proj2 (Z.eqb_neq _ _)) by lia. eexists. split; [reflexivity|]. lia.
Qed.

Definition ExponentialBackoff_laws : @RetryPolicyLaws W _ _ (ExponentialBackoff_policy draw).
Proof.
  unshelve refine (@Build_RetryPolicyLaws W _ _ (ExponentialBackoff_policy draw) (fun p _ => backoff_wf p)
    (fun p _ => sr_max_retries (eb_base p) + 1 - sr_attempt_count (eb_base p)) _ _ _ _).
  - intros p w (? & ? & ? & ? & ?). lia.
  - intros p w w' Hwf _. split; [done|lia].
  - intros p w Hwf Hc Hl. cbn in *. unfold SleepingRetry_Attempt. pose proof Hwf as (Hb & Ht & Hm & Hn & Hov).
    destruct (Z.leb_spec (sr_attempt_count (eb_base p)) (sr_max_retries (eb_base p))).
    2: { do 3 eexists. split; [reflexivity|]. split; [lia|]. split; [done|]. done. }
    destruct (Z.eqb_spec (sr_attempt_count (eb_base p)) 0) as [E|E].
    + do 3 eexists. split; [reflexivity|]. split; [lia|]. cbn.
      split; [unfold backoff_wf; cbn; lia|]. intros _. split; [lia|]. intros w2 _. lia.
    + destruct (sleep_time_bounded p w Hwf ltac:(lia)) as (n & -> & Hr). cbn.
      rewrite chk32_small by (unfold in_i32; lia). cbn. do 3 eexists. split; [reflexivity|].
      split; [apply sleep_later|]. cbn. split; [unfold backoff_wf; cbn; lia|]. intros _.
      split; [done|]. intros w2 _. lia.
  - intros p w (? & ? & ? & ? & ?) Hc Hl. cbn in *. unfold SleepingRetry_Attempt. rewrite Hc.
    rewrite (proj2 (Z.leb_le _ _)) by lia. cbn. eauto.
Defined.

Lemma jitter_zero r : (0 <= r)%Q /\ (r < 1 # 10)%Q -> Qfloor r = 0.
Proof.
  intros [H1 H2]. pose proof (Qfloor_le r) as H3. pose proof (Qlt_floor r) as H4.
  assert (inject_Z (Qfloor r) < inject_Z 1)%Q as H5
    by (eapply Qle_lt_trans; [exact H3|]; eapply Qlt_trans; [exact H2|]; reflexivity).
  assert (inject_Z 0 < inject_Z (Qfloor r + 1))%Q as H6 by (eapply Qle_lt_trans; [exact H1|exact H4]).
  rewrite <-Zlt_Qlt in H5, H6. lia.
Qed.

(** The attempts a remaining time of [d] nanoseconds allows: one a millisecond,
    and, since a wait is rounded down to milliseconds, any number in the last one. *)
Definition bounded_tries (d : Z) : Z := if 1000000 <=? d then d / 1000000 + 1000000 else Z.max 0 d.

Lemma bounded_tries_mono a b : a <= b -> 0 <= bounded_tries a <= bounded_tries b.
Proof.
  intros Hab. unfold bounded_tries.
  destruct (Z.leb_spec 1000000 a) as [Ha|Ha], (Z.leb_spec 1000000 b) as [Hb|Hb]; try lia.
  - pose proof (Z.div_le_mono a b 1000000). pose proof (Z.div_pos a 1000000). lia.
  - pose proof (Z.div_pos b 1000000). lia.
Qed.

Lemma bounded_tries_lt a b : a < b -> 0 < b -> b < 1000000 \/ a + 1000000 <= b -> bounded_tries a < bounded_tries b.
Proof.
  intros Hab Hb Hs. unfold bounded_tries.
  destruct (Z.leb_spec 1000000 a) as [Ha|Ha], (Z.leb_spec 1000000 b) as [Hb'|Hb']; try lia.
  - assert (a / 1000000 + 1 <= b / 1000000); [|lia]. rewrite <-Z.div_add by lia. apply Z.div_le_mono; lia.
  - pose proof (Z.div_pos b 1000000). lia.
Qed.

Definition etb_wf (p : ExponentialTimeBoundedRetry) : Prop :=
  1 <= max_sleep p < 2 ^ 62 /\ 1 <= next_sleep p < 2 ^ 62 /\ 0 <= tb_attempt_count p.

Definition etb_left (p : ExponentialTimeBoundedRetry) (w : W) : Z :=
  bounded_tries (tb_end p - now w) + (if skip_initial_sleep p && negb (sleep_skipped p) then 1 else 0) +
  (if tb_attempt_count p =? 0 then 1 else 0).

(** The wait of an attempt after the first: no wait, or the next of the
    doubling waits. *)
Lemma next_wait p r : etb_wf p -> (0 <= r)%Q /\ (r < 1 # 10)%Q ->
  exists wait p1, ComputeNextWaitTime r p = Ok (wait, p1) /\
  etb_wf p1 /\ tb_end p1 = tb_end p /\ tb_attempt_count p1 = tb_attempt_count p /\ max_sleep p1 = max_sleep p /\
  ((wait = 0 /\ skip_initial_sleep p && negb (sleep_skipped p) = true /\
      skip_initial_sleep p1 && negb (sleep_skipped p1) = false) \/
   (wait = next_sleep p /\ skip_initial_sleep p && negb (sleep_skipped p) = false /\
      skip_initial_sleep p1 && negb (sleep_skipped p1) = false /\ next_sleep p1 = Z.min (max_sleep p) (2 * next_sleep p))).
Proof.
  intros (Hm & Hn & Hc) Hr. unfold ComputeNextWaitTime.
  destruct (skip_initial_sleep p && negb (sleep_skipped p)) eqn:Es.
  - do 2 eexists. split; [reflexivity|]. split; [unfold etb_wf; cbn; lia|].
    split; [done|]. split; [done|]. split; [done|]. left.
    split; [done|]. split; [done|]. cbn. apply andb_false_r.
  - rewrite chk64_small by (unfold in_i64; lia). cbn [mbind result_bind]. rewrite (jitter_zero r Hr).
    do 2 eexists. split; [reflexivity|]. cbn. split; [unfold etb_wf; cbn; destruct (max_sleep p <? _) eqn:E; lia|].
    split; [done|]. split; [done|]. split; [done|]. right. split; [lia|]. split; [done|]. split; [done|].
    destruct (Z.ltb_spec (max_sleep p) (next_sleep p * 2)); lia.
Qed.

Lemma count_attempt_Ok p : 0 <= tb_attempt_count p -> tb_attempt_count p + 1 < 2 ^ 31 ->
  exists p', count_attempt p = Ok p' /\ tb_attempt_count p' = tb_attempt_count p + 1 /\ (etb_wf p -> etb_wf p') /\
    tb_end p' = tb_end p /\ skip_initial_sleep p' = skip_initial_sleep p /\ sleep_skipped p' = sleep_skipped p.
Proof.
  intros H1 H2. unfold count_attempt. rewrite chk32_small by (unfold in_i32; lia). cbn.
  eexists. split; [reflexivity|]. cbn. split; [done|]. split; [|done]. unfold etb_wf. cbn. lia.
Qed.

Lemma etb_attempt p w : etb_wf p -> tb_attempt_count p + etb_left p w < 2 ^ 31 ->
  exists b p' w', TimeBoundedRetry_Attempt jitter_ratio p w = Ok (b, p', w') /\ now w <= now w' /\ etb_wf p' /\
    (b = true -> tb_attempt_count p' = tb_attempt_count p + 1 /\
       forall w2, now w' < now w2 -> etb_left p' w2 < etb_left p w).
Proof.
  intros Hwf Hl. pose proof Hwf as (Hm & Hn & Hc). unfold TimeBoundedRetry_Attempt.
  pose proof (proj1 (bounded_tries_mono (tb_end p - now w) _ (Z.le_refl _))) as Hpos. unfold etb_left in *.
  destruct (Z.eqb_spec (tb_attempt_count p) 0) as [E|E].
  - destruct (count_attempt_Ok p Hc ltac:(lia)) as (p' & -> & Hc' & Hwf' & He & Hs1 & Hs2). cbn.
    do 3 eexists. split; [reflexivity|]. split; [lia|]. split; [auto|]. intros _. split; [done|]. intros w2 Hw.
    rewrite Hc', He, Hs1, Hs2, (proj2 (Z.eqb_neq _ _)) by lia.
    pose proof (bounded_tries_mono (tb_end p - now w2) (tb_end p - now w)). lia.
  - destruct (Z.leb_spec (tb_end p) (now w)) as [Hend|Hend].
    { do 3 eexists. split; [reflexivity|]. split; [lia|]. split; [done|]. done. }
    assert (forall b : bool, 0 <= (if b then 1 else 0)) as Hb by (by intros []).
    pose proof (Hb (skip_initial_sleep p && negb (sleep_skipped p))).
    assert (0 < bounded_tries (tb_end p - now w)) as Hpos'
      by (pose proof (bounded_tries_lt 0 (tb_end p - now w)); pose proof (bounded_tries_mono 0 0); lia).
    destruct (next_wait p (jitter_ratio w) Hwf (jitter_range w)) as (wait & p1 & -> & Hwf1 & He1 & Hc1 & _ & Hw). cbn [mbind result_bind].
    destruct (count_attempt_Ok p1 ltac:(lia) ltac:(lia)) as (p' & -> & Hc' & Hwf' & He & Hs1 & Hs2). cbn [mbind result_bind].
    set (wait' := if tb_end p <? _ then _ else _). do 3 eexists. split; [reflexivity|].
    split; [destruct (0 <? wait'); [apply sleep_later|lia]|]. split; [auto|]. intros _. split; [lia|]. intros w2 Hw2.
    rewrite Hc', He, He1, Hs1, Hs2, (proj2 (Z.eqb_neq _ _)) by lia.
    destruct Hw as [(-> & Es & Es1)|(-> & Es & Es1 & _)]; rewrite Es, Es1.
    + assert (wait' = 0) as Ew by (unfold wait', ms; destruct (Z.ltb_spec (tb_end p) (now w + 0 * 1000000)); lia).
      rewrite Ew in Hw2. cbn in Hw2. pose proof (bounded_tries_mono (tb_end p - now w2) (tb_end p - now w)). lia.
    + assert (0 <= tb_end p - now w) as H0' by lia. pose proof (to_ms_range _ H0') as Hr.
      assert (wait' <= 0 /\ tb_end p - now w < 1000000 \/ 1 <= wait' /\ 1000000 <= tb_end p - now w) as Hcase.
      { unfold wait', ms in *. destruct (Z.ltb_spec (tb_end p) (now w + next_sleep p * 1000000)); lia. }
      pose proof (sleep_now (ms wait') w) as Hsl. destruct (Z.ltb_spec 0 wait'); unfold ms in *;
        pose proof (bounded_tries_lt (tb_end p - now w2) (tb_end p - now w)); lia.
Qed.

Definition ExponentialTimeBounded_laws : @RetryPolicyLaws W _ _ (ExponentialTimeBounded_policy jitter_ratio).
Proof.
  unshelve refine (@Build_RetryPolicyLaws W _ _ (ExponentialTimeBounded_policy jitter_ratio) (fun p _ => etb_wf p)
    etb_left _ _ _ _).
  - intros p w _. unfold etb_left. pose proof (bounded_tries_mono (tb_end p - now w) _ (Z.le_refl _)).
    destruct (_ && _), (_ =? _); lia.
  - intros p w w' Hwf Hw. split; [done|]. unfold etb_left.
    pose proof (bounded_tries_mono (tb_end p - now w') (tb_end p - now w)). lia.
  - intros p w Hwf _ Hl. by apply etb_attempt.
  - intros p w (_ & _ & Hc) Hz Hl. cbn in *. unfold TimeBoundedRetry_Attempt, count_attempt. rewrite Hz. cbn.
    eauto.
Defined.
End Laws.

(** ** Properties *)

(** C20: a retried operation.  Whatever the policy, as long as it keeps its
    promise: the operation is tried at least once, it is tried again only after
    a retryable failure and only when the policy allows it, [Retry] returns the
    value of the first success or throws the first fatal exception, throws the
    last failure once the policy has expired, and ends after as many rounds as
    the policy has attempts left. *)
Theorem retry_correct {W P A} `{RetryPolicyLaws W P} (func : W -> outcome A * W) p w :
  (forall w, now w < now (func w).2) -> wf p w -> GetAttemptCount p = 0 -> left p w < 2 ^ 31 ->
  exists r os p1 w1 p2 w2,
    Retry func (S (Z.to_nat (left p w))) None p w = Some (Ok (r, p2, w2)) /\
    attempts func p w os p1 w1 /\ os <> [] /\ Forall is_failed (removelast os) /\ retry_end None os r p1 w1.
Proof.
  intros Ht Hwf Hc Hl.
  destruct (retry_loop func Ht (S (Z.to_nat (left p w))) None p w) as (r & os & p1 & w1 & p2 & w2 & E & Ha & Hf & He);
    [done|lia|lia|lia|].
  exists r, os, p1, w1, p2, w2. split; [done|]. split; [done|]. split; [|done].
  intros ->. destruct He as (_ & p' & w' & Hno). inversion Ha; subst.
  destruct (first_law p1 w1 Hwf Hc Hl) as [p'' Hyes]. congruence.
Qed.

(** ** Counted attempts *)

Lemma new_CountingRetry_Ok n : 0 <= n -> new_CountingRetry n = Ok (MkCountingRetry n 0).
Proof. intros Hn. unfold new_CountingRetry. by replace (n <? 0) with false by lia. Qed.

(** The attempts of the two counting policies, written out: one, and up to [n]
    more after failures, each after a pause. *)
Fixpoint tries {W A} (func : W -> outcome A * W) (pause : W -> W) (n : nat) (last : string) (w : W)
    : retry_result A * W :=
  match n with
  | O => (Rethrown last, w)
  | S n' =>
      match func (pause w) with
      | (Done a, w') => (Returned a, w')
      | (Fatal e, w') => (Rethrown e, w')
      | (Failed e, w') => tries func pause n' e w'
      end
  end.

Definition counted {W A} (func : W -> outcome A * W) (pause : W -> W) (n : nat) (w : W) : retry_result A * W :=
  match func w with
  | (Done a, w') => (Returned a, w')
  | (Fatal e, w') => (Rethrown e, w')
  | (Failed e, w') => tries func pause n e w'
  end.

Section Counted.
Context {W P A : Type} `{RetryPolicy W P} (func : W -> outcome A * W) (pause : W -> W) (max : Z).
Context (wf_count : P -> Prop).
Hypothesis attempt_more : forall p w, wf_count p -> GetAttemptCount p <= max ->
  exists p', Attempt p w = Ok (true, p', if GetAttemptCount p =? 0 then w else pause w) /\
    GetAttemptCount p' = GetAttemptCount p + 1 /\ wf_count p'.
Hypothesis attempt_no_more : forall p w, wf_count p -> max < GetAttemptCount p -> exists p', Attempt p w = Ok (false, p', w).

Lemma retry_tries n : forall fuel e p w, wf_count p -> 0 < GetAttemptCount p ->
  GetAttemptCount p = max + 1 - Z.of_nat n -> (n < fuel)%nat ->
  exists p', Retry func fuel (Some e) p w = Some (Ok ((tries func pause n e w).1, p', (tries func pause n e w).2)).
Proof.
  induction n as [|n IH]; intros fuel e p w Hwf Hpos Hc Hf; (destruct fuel as [|fuel]; [lia|]); cbn [Retry].
  { destruct (attempt_no_more p w Hwf ltac:(lia)) as [p' ->]. by exists p'. }
  destruct (attempt_more p w Hwf ltac:(lia)) as (p' & -> & Hc' & Hwf').
  replace (GetAttemptCount p =? 0) with false by lia. cbn [tries].
  destruct (func (pause w)) as [[a|e'|e'] w']; [by exists p'| |by exists p'].
  apply IH; [done|lia..].
Qed.

Lemma retry_counted fuel p w : 0 <= max -> wf_count p -> GetAttemptCount p = 0 -> (Z.to_nat max + 1 < fuel)%nat ->
  exists p', Retry func fuel None p w =
    Some (Ok ((counted func pause (Z.to_nat max) w).1, p', (counted func pause (Z.to_nat max) w).2)).
Proof.
  intros Hm Hwf Hc Hf. destruct fuel as [|fuel]; [lia|]. cbn [Retry]. unfold counted.
  destruct (attempt_more p w Hwf ltac:(lia)) as (p' & -> & Hc' & Hwf'). rewrite Hc. cbn [Z.eqb].
  destruct (func w) as [[a|e|e] w']; [by exists p'| |by exists p'].
  apply retry_tries; [done|lia..].
Qed.
End Counted.

Lemma counting_retry {W A} (func : W -> outcome A * W) (max : Z) (fuel : nat) (w : W) :
  0 <= max < 2 ^ 31 - 1 -> (Z.to_nat max + 1 < fuel)%nat ->
  exists p', Retry func fuel None (MkCountingRetry max 0) w =
    Some (Ok ((counted func id (Z.to_nat max) w).1, p', (counted func id (Z.to_nat max) w).2)).
Proof.
  intros Hm Hf. apply (retry_counted func id max (fun p => cr_max_retries p = max /\ 0 <= cr_attempt_count p));
    [..|done|done|done]; cbn [GetAttemptCount Attempt CountingRetry_policy].
  - intros [m c] w' [Hmax Hc0] Hc. cbn [cr_max_retries cr_attempt_count] in *. subst m.
    unfold CountingRetry_Attempt. cbn [cr_max_retries cr_attempt_count].
    replace (c <=? max) with true by lia. rewrite chk32_small by (unfold in_i32; lia). cbn [mbind result_bind].
    eexists. split; [by destruct (c =? 0)|]. cbn. lia.
  - intros [m c] w' [Hmax Hc0] Hc. cbn [cr_max_retries cr_attempt_count] in *. subst m.
    unfold CountingRetry_Attempt. cbn [cr_max_retries cr_attempt_count].
    replace (c <=? max) with false by lia. cbn. eauto.
  - lia.
Qed.

Lemma counting_sleep_retry {W A} `{Clock W} (func : W -> outcome A * W) (max sleep_ms : Z) (fuel : nat) (w : W) :
  0 <= max < 2 ^ 31 - 1 -> (Z.to_nat max + 1 < fuel)%nat ->
  let r := counted func (sleep_for (ms sleep_ms)) (Z.to_nat max) w in
  exists p', Retry func fuel None (MkCountingAndSleep (MkCountingRetry max 0) sleep_ms) w = Some (Ok (r.1, p', r.2)).
Proof.
  intros Hm Hf. apply (retry_counted func _ max (fun p => cr_max_retries (cs_base p) = max /\
    0 <= cr_attempt_count (cs_base p) /\ cs_sleep_ms p = sleep_ms));
    [..|done|done|done]; cbn [GetAttemptCount Attempt CountingAndSleep_policy].
  - intros [[m c] sl] w' (Hmax & Hc0 & Hs) Hc. cbn [cr_max_retries cr_attempt_count cs_base cs_sleep_ms] in *. subst m sl.
    unfold CountingRetry_Attempt. cbn [cr_max_retries cr_attempt_count].
    replace (c <=? max) with true by lia. rewrite chk32_small by (unfold in_i32; lia). cbn [mbind result_bind].
    exists (MkCountingAndSleep (MkCountingRetry max (c + 1)) sleep_ms). split; [|cbn; lia]. cbn [cr_attempt_count]. destruct (Z.eqb_spec c 0) as [->|]; [done|].
    by replace (1 <? c + 1) with true by lia.
  - intros [[m c] sl] w' (Hmax & Hc0 & Hs) Hc. cbn [cr_max_retries cr_attempt_count cs_base cs_sleep_ms] in *. subst m sl.
    unfold CountingRetry_Attempt. cbn [cr_max_retries cr_attempt_count].
    replace (c <=? max) with false by lia. cbn. eauto.
  - lia.
Qed.

(** A world that is its time. *)
#[local] Instance plain_clock : Clock Z := {| now := id; sleep_for d w := w + Z.max 0 d |}.

#[local] Instance plain_clock_laws : ClockLaws Z.
Proof. constructor. intros d w. cbn. lia. Qed.

(** An operation that succeeds from the time 2 on, retried twice. *)
Definition demo_func (w : Z) : outcome Z * Z := (if w <? 2 then Failed "busy" else Done 7, w + 1).

Lemma retry_correct_witness :
  exists r os p1 w1 p2 w2,
    Retry demo_func (S (Z.to_nat (left (MkCountingRetry 2 0) 0))) None (MkCountingRetry 2 0) 0 = Some (Ok (r, p2, w2)) /\
    attempts demo_func (MkCountingRetry 2 0) 0 os p1 w1 /\ os <> [] /\ Forall is_failed (removelast os) /\
    retry_end None os r p1 w1.
Proof.
  apply (retry_correct demo_func (MkCountingRetry 2 0) 0); [|cbn; lia|done|done].
  intros w. cbn. lia.
Defined.

(** The first waits of an exponential policy. *)
Fixpoint waits (ratios : list Q) (p : ExponentialTimeBoundedRetry) : result (list Z) :=
  match ratios with
  | [] => Ok []
  | r :: ratios' =>
      '(wait, p') ← ComputeNextWaitTime r p;
      rest ← waits ratios' p';
      Ok (wait :: rest)
  end.

(** The waits of the exponential policy double from the initial sleep up
    to the maximum; the first is the initial sleep even when that is longer
    than the maximum, and the random ratios have no effect. *)
Theorem exponential_waits ratios p : etb_wf p -> Forall (fun r => (0 <= r)%Q /\ (r < 1 # 10)%Q) ratios ->
  skip_initial_sleep p && negb (sleep_skipped p) = false ->
  waits ratios p = Ok (map (fun i => if (i =? 0)%nat then next_sleep p
                                     else Z.min (max_sleep p) (next_sleep p * 2 ^ Z.of_nat i)) (seq 0 (length ratios))).
Proof.
  intros Hwf Hr. revert p Hwf. induction Hr as [|r ratios Hr _ IH]; intros p Hwf Hs; [done|].
  destruct (next_wait p r Hwf Hr) as (wait & p1 & E & Hwf1 & _ & _ & Hmax & [(_ & Es & _)|(-> & _ & Es & Hn)]); [congruence|].
  cbn [waits]. rewrite E. cbn [mbind result_bind]. rewrite (IH p1 Hwf1 Es). cbn [mbind result_bind].
  cbn [length seq map Nat.eqb]. do 2 f_equal. rewrite <-(fmap_S_seq 0), map_map. apply map_ext. intros i.
  rewrite Hmax, Hn. cbn [Nat.eqb]. destruct Hwf as (Hm & Hp & _).
  rewrite Nat2Z.inj_succ, Z.pow_succ_r by lia. destruct i as [|i]; cbn [Nat.eqb]; [cbn; lia|].
  assert (1 <= 2 ^ Z.of_nat (S i)) by (apply (Z.pow_le_mono_r 2 0); lia). nia.
Qed.

Lemma exponential_waits_witness :
  waits [0; 1 # 20; 1 # 11; 1 # 12]%Q (MkExponentialTimeBounded 10000000000 0 500 100 false false)
  = Ok [100; 200; 400; 500].
Proof.
  apply (exponential_waits [0; 1 # 20; 1 # 11; 1 # 12]%Q).
  - unfold etb_wf. cbn. lia.
  - repeat constructor; discriminate.
  - reflexivity.
Defined.
