(* ===== verification/Pools.v ===== *)
(** * Thread pools

    common/thread_pool.h: the four pools [ThreadPool], [CUDAStreamThreadPool],
    [ResourceThreadPool] and [CUDAStreamResourceThreadPool], and
    [GetSafeCudaStream].  They share the worker loop, [Submit] and the stop
    protocol and differ in what a worker hands to its task (nothing, its
    stream, its copy of a resource, its resource and stream) and in how
    [WaitForTasks] waits (polling, or on the condition variable of the
    workers); a [pool_class] records these differences.

    A step is what a thread does between two releases of [queue_mutex_]; the
    condition variable wakes any of its waiters, also spuriously.  The theorems
    show that every submitted task is started once and in order, that a
    worker's resource is only touched by its own tasks, that the pools without a
    waiter on the condition variable always finish what was submitted and can
    be destroyed, and that [WaitForTasks] promises less than its name. *)

From S2P Require Import Prelude.
Local Open Scope Z_scope.

(** ** Streams *)

Module CudaStream.

(** What the CUDA runtime and the stream pool of c10 answer. *)
Record cuda_env : Type := CudaEnv {
  HasNvGpu : bool;
  (** [cudaGetDevice]: [None] leaves its argument as it was *)
  cudaGetDevice : option Z;
  (** identifier and device of the n-th stream of the pool for a device *)
  getStreamFromPool : Z -> nat -> Z * Z;
}.

Record stream : Type := Stream { stream_id : Z; device_index : Z }.

(** The result is the stream, [None] for the null pointer, and the cached
    [current_cuda_device]. *)
Definition GetSafeCudaStream (env : cuda_env) (current_cuda_device : Z) (n : nat)
    : result (option stream * Z) :=
  if negb (HasNvGpu env) then Ok (None, current_cuda_device)
  else
    let current_cuda_device :=
      if current_cuda_device =? -1 then default current_cuda_device (cudaGetDevice env)
      else current_cuda_device in
    let '(id, dev) := getStreamFromPool env current_cuda_device n in
    throw_if (negb (dev =? current_cuda_device)) "Failed to get CUDA stream from pool for device";;
    Ok (Some (Stream id dev), current_cuda_device).

(** The streams the constructor of a pool of [threads] workers takes, from the
    [n]-th on. *)
Fixpoint new_streams (env : cuda_env) (current_cuda_device : Z) (n threads : nat)
    : result (list (option stream) * Z) :=
  match threads with
  | O => Ok ([], current_cuda_device)
  | S threads' =>
      '(st, current_cuda_device) ← GetSafeCudaStream env current_cuda_device n;
      '(sts, current_cuda_device) ← new_streams env current_cuda_device (S n) threads';
      Ok (st :: sts, current_cuda_device)
  end.

End CudaStream.
Import CudaStream.

(** ** The pools *)

Record pool_class : Type := PoolClass {
  (** [WaitForTasks] waits on [condition_]; otherwise it polls *)
  cv_wait : bool;
  (** the worker captured its resource by value *)
  by_copy : bool;
}.

(** A worker thread: about to take the lock and evaluate the predicate of
    [condition_.wait], waiting, running a task, or returned. *)
Inductive worker {T : Type} : Type :=
| Checking
| Blocked
| Running (t : T)
| Exited.
Arguments worker T : clear implicits.

(** A thread in [WaitForTasks]. *)
Inductive caller : Type := CChecking | CBlocked | CReturned.

(** The thread that destroys the pool. *)
Inductive dtor_pc : Type := Alive | Stopped | Joining | Joined.

#[export] Instance caller_eq_dec : EqDecision caller.
Proof. solve_decision. Defined.
#[export] Instance dtor_pc_eq_dec : EqDecision dtor_pc.
Proof. solve_decision. Defined.

(** The members of a pool and its threads; [copies] are the resources the
    lambdas captured by value and [notifying] counts the threads between the
    two blocks of [Submit].  The last four fields are a history. *)
Record pool {T A : Type} : Type := Pool {
  tasks_ : list T;
  stop_ : bool;
  resources_ : list A;
  copies : list A;
  workers_ : list (worker T);
  callers : list caller;
  notifying : nat;
  dtor : dtor_pc;
  submitted : list T;
  started : list (nat * T);
  finished : list (nat * T);
  destroyed : list A;
}.
Arguments pool T A : clear implicits.
Arguments Pool {T A} _ _ _ _ _ _ _ _ _ _ _ _.

(** What the threads and the condition variable can do. *)
Inductive event {T : Type} : Type :=
| EWorker (i : nat)
| ENotifyWorker (i : nat)
| ENotifyCaller (j : nat)
| ENotifyNone
| ECaller (j : nat)
| EDtor
| ESubmit (t : T)
| EDestroy
| EWait
| ESpuriousWorker (i : nat)
| ESpuriousCaller (j : nat).
Arguments event T : clear implicits.

Definition is_blocked {T} (w : worker T) : bool := match w with Blocked => true | _ => false end.
Definition is_exited {T} (w : worker T) : bool := match w with Exited => true | _ => false end.
Definition wake {T} (w : worker T) : worker T := if is_blocked w then Checking else w.
Definition wake_caller (c : caller) : caller :=
  match c with CBlocked => CChecking | _ => c end.

Section Pool.
  Context {T A : Type} (k : pool_class).
  (** The effect of a task on the argument its worker passes by reference. *)
  Context (run : T -> A -> A).

  Local Abbreviation pool := (pool T A).

Definition set_worker (i : nat) (w : worker T) (s : pool) : pool :=
  Pool (tasks_ s) (stop_ s) (resources_ s) (copies s) (<[i := w]> (workers_ s)) (callers s)
    (notifying s) (dtor s) (submitted s) (started s) (finished s) (destroyed s).

Definition set_caller (j : nat) (c : caller) (s : pool) : pool :=
  Pool (tasks_ s) (stop_ s) (resources_ s) (copies s) (workers_ s) (<[j := c]> (callers s))
    (notifying s) (dtor s) (submitted s) (started s) (finished s) (destroyed s).

(** [task = std::move(tasks_.front()); tasks_.pop();] by worker [i]. *)
Definition pop_task (i : nat) (t : T) (q : list T) (s : pool) : pool :=
  Pool q (stop_ s) (resources_ s) (copies s) (<[i := Running t]> (workers_ s)) (callers s)
    (notifying s) (dtor s) (submitted s) (started s ++ [(i, t)]) (finished s) (destroyed s).

(** [task(...)] returns to worker [i]. *)
Definition finish_task (i : nat) (t : T) (s : pool) : pool :=
  Pool (tasks_ s) (stop_ s)
    (if by_copy k then resources_ s else alter (run t) i (resources_ s))
    (if by_copy k then alter (run t) i (copies s) else copies s)
    (<[i := Checking]> (workers_ s)) (callers s)
    (notifying s) (dtor s) (submitted s) (started s) (finished s ++ [(i, t)]) (destroyed s).

(** One step of the loop of worker [i]. *)
Definition worker_step (i : nat) (s : pool) : option pool :=
  match workers_ s !! i with
  | Some Checking =>
      match tasks_ s with
      | [] => if stop_ s then Some (set_worker i Exited s) else Some (set_worker i Blocked s)
      | t :: q => Some (pop_task i t q s)
      end
  | Some (Running t) => Some (finish_task i t s)
  | _ => None
  end.

(** The locked block of [Submit]: [None] when it throws. *)
Definition Submit (t : T) (s : pool) : option pool :=
  if stop_ s then None
  else Some (Pool (tasks_ s ++ [t]) (stop_ s) (resources_ s) (copies s) (workers_ s) (callers s)
               (S (notifying s)) (dtor s) (submitted s ++ [t]) (started s) (finished s)
               (destroyed s)).

(** [condition_.notify_one()] of [Submit] is over. *)
Definition notified (s : pool) : option pool :=
  match notifying s with
  | O => None
  | S n => Some (Pool (tasks_ s) (stop_ s) (resources_ s) (copies s) (workers_ s) (callers s) n
                   (dtor s) (submitted s) (started s) (finished s) (destroyed s))
  end.

Definition wake_worker_at (i : nat) (s : pool) : option pool :=
  match workers_ s !! i with Some Blocked => Some (set_worker i Checking s) | _ => None end.

Definition wake_caller_at (j : nat) (s : pool) : option pool :=
  match callers s !! j with Some CBlocked => Some (set_caller j CChecking s) | _ => None end.

Definition nobody_waits (s : pool) : bool :=
  forallb (fun w => negb (is_blocked w)) (workers_ s) &&
  forallb (fun c => negb (bool_decide (c = CBlocked))) (callers s).

(** [WaitForTasks], called by a thread that is not a worker. *)
Definition wait_call (s : pool) : pool :=
  Pool (tasks_ s) (stop_ s) (resources_ s) (copies s) (workers_ s) (callers s ++ [CChecking])
    (notifying s) (dtor s) (submitted s) (started s) (finished s) (destroyed s).

(** One evaluation of the condition [WaitForTasks] polls. *)
Definition poll_WaitForTasks (j : nat) (s : pool) : option pool :=
  if (length (tasks_ s) =? 0)%nat || stop_ s then Some (set_caller j CReturned s) else None.

(** One evaluation of the predicate [WaitForTasks] waits for. *)
Definition cv_WaitForTasks (j : nat) (s : pool) : option pool :=
  if (length (tasks_ s) =? 0)%nat then Some (set_caller j CReturned s)
  else Some (set_caller j CBlocked s).

Definition WaitForTasks (j : nat) (s : pool) : option pool :=
  match callers s !! j with
  | Some CChecking => if cv_wait k then cv_WaitForTasks j s else poll_WaitForTasks j s
  | _ => None
  end.

Definition set_dtor (b : bool) (ws : list (worker T)) (cs : list caller) (d : dtor_pc)
    (res : list A) (s : pool) : pool :=
  Pool (tasks_ s) b (resources_ s) (copies s) ws cs
    (notifying s) d (submitted s) (started s) (finished s) res.

(** The locked block of the destructor. *)
Definition dtor_stop (s : pool) : option pool :=
  match dtor s with
  | Alive => Some (set_dtor true (workers_ s) (callers s) Stopped (destroyed s) s)
  | _ => None
  end.

(** The rest of it: [notify_all], the joins, the resource destructor on every
    element of [resources_]. *)
Definition dtor_step (s : pool) : option pool :=
  match dtor s with
  | Stopped => Some (set_dtor (stop_ s) (wake <$> workers_ s) (wake_caller <$> callers s) Joining
                       (destroyed s) s)
  | Joining =>
      if forallb is_exited (workers_ s)
      then Some (set_dtor (stop_ s) (workers_ s) (callers s) Joined (resources_ s) s)
      else None
  | _ => None
  end.

(** What an event does, [None] where it cannot happen. *)
Definition exec (e : event T) (s : pool) : option pool :=
  match e with
  | EWorker i => worker_step i s
  | ENotifyWorker i => s ← notified s; wake_worker_at i s
  | ENotifyCaller j => s ← notified s; wake_caller_at j s
  | ENotifyNone => if nobody_waits s then notified s else None
  | ECaller j => WaitForTasks j s
  | EDtor => dtor_step s
  | ESubmit t => Submit t s
  | EDestroy => dtor_stop s
  | EWait => Some (wait_call s)
  | ESpuriousWorker i => wake_worker_at i s
  | ESpuriousCaller j => wake_caller_at j s
  end.

(** The steps the threads of the pool take on their own account: neither calls
    from outside nor spurious wake-ups. *)
Definition internal (e : event T) : bool :=
  match e with
  | EWorker _ | ENotifyWorker _ | ENotifyCaller _ | ENotifyNone | ECaller _ | EDtor => true
  | _ => false
  end.

Definition pool_step (s s' : pool) : Prop := exists e, exec e s = Some s'.
Definition own_step (s s' : pool) : Prop := exists e, internal e = true /\ exec e s = Some s'.

(** A constructed pool: one worker per argument. *)
Definition new_pool (args : list A) : pool :=
  Pool [] false args args (replicate (length args) Checking) [] O Alive [] [] [] [].

Fixpoint execs (es : list (event T)) (s : pool) : option pool :=
  match es with
  | [] => Some s
  | e :: es' => s' ← exec e s; execs es' s'
  end.

(** What worker [i] passes to its tasks. *)
Definition arg (s : pool) (i : nat) : option A :=
  if by_copy k then copies s !! i else resources_ s !! i.

End Pool.

(** ** The classes *)

Definition ThreadPool : pool_class := PoolClass false false.
Definition CUDAStreamThreadPool : pool_class := PoolClass false false.
Definition ResourceThreadPool : pool_class := PoolClass true true.
Definition CUDAStreamResourceThreadPool : pool_class := PoolClass true false.

Definition ThreadPool_new {T} (threads : nat) : pool T unit := new_pool (replicate threads tt).

Definition CUDAStreamThreadPool_new {T} (env : cuda_env) (current_cuda_device : Z) (threads : nat)
    : result (pool T (option stream) * Z) :=
  '(sts, dev) ← new_streams env current_cuda_device 0 threads;
  Ok (new_pool sts, dev).

(** The i-th call of [resource_creator] gives [resource_creator i]. *)
Definition ResourceThreadPool_new {T R} (resource_creator : nat -> result R) (threads : nat)
    : result (pool T R) :=
  rs ← map_result resource_creator (seq 0 threads);
  Ok (new_pool rs).

(** The loop of the constructor calls [resource_creator] and
    [GetSafeCudaStream] in turn. *)
Fixpoint new_pairs {R} (env : cuda_env) (resource_creator : nat -> result R)
    (current_cuda_device : Z) (i threads : nat) : result (list (R * option stream) * Z) :=
  match threads with
  | O => Ok ([], current_cuda_device)
  | S threads' =>
      r ← resource_creator i;
      '(st, current_cuda_device) ← GetSafeCudaStream env current_cuda_device i;
      '(ps, current_cuda_device) ← new_pairs env resource_creator current_cuda_device (S i) threads';
      Ok ((r, st) :: ps, current_cuda_device)
  end.

Definition CUDAStreamResourceThreadPool_new {T R} (env : cuda_env)
    (resource_creator : nat -> result R) (current_cuda_device : Z) (threads : nat)
    : result (pool T (R * option stream) * Z) :=
  '(ps, dev) ← new_pairs env resource_creator current_cuda_device 0 threads;
  Ok (new_pool ps, dev).

(** ** Lemmas *)

(** A list at an index and after an update there. *)
Lemma insert_split {X} (l : list X) (i : nat) (old : X) :
  l !! i = Some old ->
  exists l1 l2, l = l1 ++ old :: l2 /\ length l1 = i /\
    forall x, <[i := x]> l = l1 ++ x :: l2.
Proof.
  intros H. exists (take i l), (drop (S i) l).
  assert (Hi : (i < length l)%nat) by (apply lookup_lt_Some in H; done).
  split; [symmetry; by apply take_drop_middle|]. split; [rewrite length_take; lia|].
  intros x. by apply insert_take_drop.
Qed.

(** The tasks a worker is running. *)
Definition running {T} (w : worker T) : list T := match w with Running t => [t] | _ => [] end.

(** The tasks of a history that worker [i] took. *)
Definition of_worker {T} (i : nat) (l : list (nat * T)) : list T :=
  snd <$> filter (fun p => p.1 = i) l.
#[global] Arguments of_worker : simpl never.

Lemma of_worker_snoc {T} i j (t : T) l :
  of_worker i (l ++ [(j, t)]) = of_worker i l ++ (if decide (j = i) then [t] else []).
Proof.
  unfold of_worker. rewrite filter_app, fmap_app. f_equal. rewrite filter_cons. cbn.
  by destruct (decide (j = i)).
Qed.

Lemma running_insert {T} (ws : list (worker T)) i old w :
  ws !! i = Some old ->
  concat (running <$> <[i := w]> ws) ++ running old ≡ₚ concat (running <$> ws) ++ running w.
Proof.
  intros H. destruct (insert_split _ _ _ H) as (l1 & l2 & -> & _ & ->).
  rewrite !fmap_app, !fmap_cons, !concat_app, !concat_cons. solve_Permutation.
Qed.

Section PoolInv.
  Context {T A : Type} (k : pool_class) (run : T -> A -> A) (args : list A).

  Local Abbreviation pool := (pool T A).

(** The tasks are started once each and in the order of submission, a started
    task is finished or running on the worker that took it, the argument of a
    worker is the effect of the tasks it finished, in order, and a worker only
    returns from a stopped and empty pool. *)
Record pool_inv (s : pool) : Prop := {
  inv_fifo : (snd <$> started s) ++ tasks_ s = submitted s;
  inv_all : (snd <$> started s) ≡ₚ (snd <$> finished s) ++ concat (running <$> workers_ s);
  inv_own : forall i w, workers_ s !! i = Some w ->
    of_worker i (started s) = of_worker i (finished s) ++ running w;
  inv_arg : forall i, arg k s i =
    (fun a => foldl (fun a t => run t a) a (of_worker i (finished s))) <$> args !! i;
  inv_len : length (workers_ s) = length args;
  inv_stop : stop_ s = negb (bool_decide (dtor s = Alive));
  inv_blocked : forall i, dtor s = Joining \/ dtor s = Joined -> workers_ s !! i <> Some Blocked;
  inv_exited : forall i, workers_ s !! i = Some Exited -> stop_ s = true /\ tasks_ s = [];
  inv_joined : dtor s = Joined -> forall i w, workers_ s !! i = Some w -> w = Exited;
  inv_destroyed : dtor s = Joined -> destroyed s = resources_ s;
  inv_copy : by_copy k = true -> resources_ s = args;
}.

Lemma inv_set_worker i old w s :
  pool_inv s -> workers_ s !! i = Some old -> running old = running w ->
  old <> Exited ->
  (w = Blocked -> stop_ s = false) ->
  (w = Exited -> stop_ s = true /\ tasks_ s = []) ->
  pool_inv (set_worker i w s).
Proof.
  intros [I1 I2 I3 I4 I5 I6 I7 I8 I9 I10 I11] Hi Hr Hx Hb He.
  assert (Hc : forall j x, <[i := w]> (workers_ s) !! j = Some x ->
                 j = i /\ x = w \/ j <> i /\ workers_ s !! j = Some x).
  { intros j x Hj. apply list_lookup_insert_Some in Hj. naive_solver. }
  split; cbn; try done.
  - rewrite I2. f_equiv. pose proof (running_insert _ _ _ w Hi) as P. rewrite Hr in P.
    by apply Permutation_app_inv_r in P.
  - intros j x Hj. destruct (Hc _ _ Hj) as [[-> ->]|[_ Hj']]; [|by apply I3].
    rewrite <-Hr. by apply I3.
  - by rewrite length_insert.
  - intros j Hd Hj. destruct (Hc _ _ Hj) as [[-> <-]|[_ Hj']]; [|by eapply I7].
    rewrite I6 in Hb. specialize (Hb eq_refl). destruct Hd as [Hd|Hd]; by rewrite Hd in Hb.
  - intros j Hj. destruct (Hc _ _ Hj) as [[-> <-]|[_ Hj']]; [by apply He|by eapply I8].
  - intros Hd j x Hj. destruct (Hc _ _ Hj) as [[-> ->]|[_ Hj']]; [|by eapply I9].
    by destruct (Hx (I9 Hd _ _ Hi)).
Qed.

Lemma inv_pop_task i t q s :
  pool_inv s -> workers_ s !! i = Some Checking -> tasks_ s = t :: q -> pool_inv (pop_task i t q s).
Proof.
  intros [I1 I2 I3 I4 I5 I6 I7 I8 I9 I10 I11] Hi Hq. split; cbn; try done.
  - rewrite fmap_app, <-app_assoc. cbn. by rewrite <-Hq.
  - rewrite fmap_app, I2, <-app_assoc. cbn. f_equiv.
    pose proof (running_insert _ _ _ (Running t) Hi) as P. cbn in P. by rewrite app_nil_r in P.
  - intros j x Hj. rewrite of_worker_snoc. apply list_lookup_insert_Some in Hj.
    destruct Hj as [(<- & <- & _)|[Hne Hj]].
    + rewrite decide_True by done. rewrite (I3 _ _ Hi), <-app_assoc. done.
    + rewrite decide_False by done. rewrite app_nil_r. by apply I3.
  - by rewrite length_insert.
  - intros j Hd Hj. apply list_lookup_insert_Some in Hj. naive_solver.
  - intros j Hj. apply list_lookup_insert_Some in Hj. destruct Hj as [(_ & ? & _)|[_ Hj]]; [done|].
    destruct (I8 _ Hj) as [_ Ht]. congruence.
  - intros Hd. by specialize (I9 Hd _ _ Hi).
Qed.

Lemma inv_finish_task i t s :
  pool_inv s -> workers_ s !! i = Some (Running t) -> pool_inv (finish_task k run i t s).
Proof.
  intros [I1 I2 I3 I4 I5 I6 I7 I8 I9 I10 I11] Hi. split; cbn; try done.
  - rewrite fmap_app, I2, <-app_assoc. cbn. f_equiv.
    pose proof (running_insert _ _ _ Checking Hi) as P. cbn in P. rewrite app_nil_r in P.
    rewrite <-P. solve_Permutation.
  - intros j x Hj. rewrite of_worker_snoc. apply list_lookup_insert_Some in Hj.
    destruct Hj as [(<- & <- & _)|[Hne Hj]].
    + rewrite decide_True by done. rewrite (I3 _ _ Hi), app_nil_r. done.
    + rewrite decide_False by done. rewrite app_nil_r. by apply I3.
  - intros j. specialize (I4 j). rewrite of_worker_snoc.
    revert I4. unfold arg. cbn. intros I4.
    destruct (decide (i = j)) as [->|Hne], (by_copy k);
      rewrite ?list_lookup_alter_eq, ?list_lookup_alter_ne, I4, ?app_nil_r by done; try done;
      destruct (args !! j); cbn; by rewrite ?foldl_app.
  - by rewrite length_insert.
  - intros j Hd Hj. apply list_lookup_insert_Some in Hj. naive_solver.
  - intros j Hj. apply list_lookup_insert_Some in Hj. destruct Hj as [(_ & ? & _)|[_ Hj]]; [done|].
    by eapply I8.
  - intros Hd. by specialize (I9 Hd _ _ Hi).
  - intros Hd. by specialize (I9 Hd _ _ Hi).
  - intros E. rewrite E. by apply I11.
Qed.

(** The fields [pool_inv] reads, but for the threads, are those of [s]. *)
Lemma inv_frame s s' :
  pool_inv s ->
  started s' = started s -> tasks_ s' = tasks_ s -> submitted s' = submitted s ->
  finished s' = finished s -> workers_ s' = workers_ s -> resources_ s' = resources_ s ->
  copies s' = copies s -> stop_ s' = stop_ s -> dtor s' = dtor s -> destroyed s' = destroyed s ->
  pool_inv s'.
Proof.
  intros [] E1 E2 E3 E4 E5 E6 E7 E8 E9 E10.
  split; unfold arg; rewrite ?E1, ?E2, ?E3, ?E4, ?E5, ?E6, ?E7, ?E8, ?E9, ?E10; done.
Qed.

Lemma inv_Submit t s s' : pool_inv s -> Submit t s = Some s' -> pool_inv s'.
Proof.
  intros [I1 I2 I3 I4 I5 I6 I7 I8 I9 I10 I11] H. unfold Submit in H. destruct (stop_ s) eqn:Es; [done|].
  injection H as <-. split; cbn; try done.
  - by rewrite app_assoc, I1.
  - intros i Hi. destruct (I8 _ Hi). congruence.
Qed.

Lemma running_wake (ws : list (worker T)) : running <$> (wake <$> ws) = running <$> ws.
Proof.
  rewrite <-list_fmap_compose. apply list_fmap_ext. intros i [] _; done.
Qed.

Lemma inv_dtor_step s s' : pool_inv s -> dtor_step s = Some s' -> pool_inv s'.
Proof.
  intros I H. destruct (I) as [I1 I2 I3 I4 I5 I6 I7 I8 I9 I10 I11].
  unfold dtor_step in H. destruct (dtor s) eqn:Ed; try done.
  - simplify_eq. split; cbn; try done.
    + by rewrite running_wake.
    + intros i w. rewrite list_lookup_fmap. intros ([] & Hi & ->)%fmap_Some; by apply I3 in Hi.
    + by rewrite length_fmap.
    + intros i _. rewrite list_lookup_fmap. by intros ([] & Hi & ?)%fmap_Some.
    + intros i. rewrite list_lookup_fmap. intros ([] & Hi & ?)%fmap_Some; try done. by eapply I8.
  - destruct (forallb _ _) eqn:Ef; [|done]. simplify_eq. split; cbn; try done; [naive_solver|].
    intros _ i w Hi. rewrite forallb_forall in Ef. apply list_elem_of_lookup_2, list_elem_of_In in Hi.
    specialize (Ef _ Hi). by destruct w.
Qed.

Lemma inv_dtor_stop s s' : pool_inv s -> dtor_stop s = Some s' -> pool_inv s'.
Proof.
  intros [I1 I2 I3 I4 I5 I6 I7 I8 I9 I10 I11] H. unfold dtor_stop in H.
  destruct (dtor s) eqn:Ed; simplify_eq. split; cbn; try done; try naive_solver.
Qed.

Lemma inv_worker_step i s s' : pool_inv s -> worker_step k run i s = Some s' -> pool_inv s'.
Proof.
  intros I H. unfold worker_step in H.
  destruct (workers_ s !! i) as [[]|] eqn:Hi; try done.
  - destruct (tasks_ s) as [|t q] eqn:Hq; simplify_eq; [|by apply inv_pop_task].
    destruct (stop_ s) eqn:Hs; simplify_eq; by eapply inv_set_worker.
  - simplify_eq. by apply inv_finish_task.
Qed.

Lemma inv_wake_worker i s s' : pool_inv s -> wake_worker_at i s = Some s' -> pool_inv s'.
Proof.
  intros I H. unfold wake_worker_at in H.
  destruct (workers_ s !! i) as [[]|] eqn:Hi; simplify_eq. by eapply inv_set_worker.
Qed.

Lemma inv_wake_caller j s s' : pool_inv s -> wake_caller_at j s = Some s' -> pool_inv s'.
Proof.
  intros I H. unfold wake_caller_at in H. destruct (callers s !! j) as [[]|]; simplify_eq.
  by eapply inv_frame.
Qed.

Lemma inv_notified s s' : pool_inv s -> notified s = Some s' -> pool_inv s'.
Proof.
  intros I H. unfold notified in H. destruct (notifying s); simplify_eq. by eapply inv_frame.
Qed.

Lemma inv_exec e s s' : pool_inv s -> exec k run e s = Some s' -> pool_inv s'.
Proof.
  intros I H. destruct e; cbn in H.
  - by eapply inv_worker_step.
  - bind_inv H. eauto using inv_wake_worker, inv_notified.
  - bind_inv H. eauto using inv_wake_caller, inv_notified.
  - destruct (nobody_waits s); [|done]. by eapply inv_notified.
  - unfold WaitForTasks, cv_WaitForTasks, poll_WaitForTasks in H.
    repeat case_match; simplify_eq; by eapply inv_frame.
  - by eapply inv_dtor_step.
  - by eapply inv_Submit.
  - by eapply inv_dtor_stop.
  - simplify_eq. by eapply inv_frame.
  - by eapply inv_wake_worker.
  - by eapply inv_wake_caller.
Qed.

Lemma inv_new : pool_inv (new_pool args).
Proof.
  split; cbn; try done.
  - by induction (length args).
  - intros i w [-> _]%lookup_replicate. done.
  - intros i. unfold arg. cbn. rewrite Tauto.if_same. by destruct (args !! i).
  - by rewrite length_replicate.
  - intros i _ [? _]%lookup_replicate. done.
  - intros i [? _]%lookup_replicate. done.
Qed.

Lemma pool_inv_reachable s : rtc (pool_step k run) (new_pool args) s -> pool_inv s.
Proof.
  apply rtc_invariant; [|apply inv_new]. intros a b I [e He]. by eapply inv_exec.
Qed.

End PoolInv.

(** ** Wake-ups and termination *)

Section PoolLive.
  Context {T A : Type} (k : pool_class) (run : T -> A -> A) (args : list A).

  Local Abbreviation pool := (pool T A).

(** Steps in which nobody calls a [WaitForTasks] that waits on [condition_]. *)
Definition unwaited_step (s s' : pool) : Prop :=
  exists e, (cv_wait k = true -> e <> EWait) /\ exec k run e s = Some s'.

Definition active (w : worker T) : Prop := match w with Checking | Running _ => True | _ => False end.

(** Nobody but the workers waits on [condition_], and while there is a task
    some worker is awake or a [Submit] has yet to notify one. *)
Record awake_inv (s : pool) : Prop := {
  aw_cv : cv_wait k = true -> callers s = [];
  aw_callers : CBlocked ∉ callers s;
  aw_tasks : tasks_ s <> [] ->
    (0 < notifying s)%nat \/ exists i w, workers_ s !! i = Some w /\ active w;
}.

Definition weight (w : worker T) : nat :=
  match w with Checking => 1 | Running _ => 2 | _ => 0 end.
Definition caller_weight (c : caller) : nat := match c with CChecking => 1 | _ => 0 end.
Definition dtor_weight (s : pool) : nat :=
  match dtor s with
  | Stopped => length (workers_ s) + length (callers s) + 2
  | Joining => 1
  | _ => 0
  end.

(** Decreases with every step of the pool's own threads. *)
Definition measure (s : pool) : nat :=
  2 * length (tasks_ s) + sum_list (weight <$> workers_ s) +
  sum_list (caller_weight <$> callers s) + 2 * notifying s + dtor_weight s.

Lemma weight_insert {X} (f : X -> nat) (l : list X) i old x :
  l !! i = Some old ->
  (sum_list (f <$> <[i := x]> l) + f old = sum_list (f <$> l) + f x)%nat.
Proof.
  intros H. destruct (insert_split _ _ _ H) as (l1 & l2 & -> & _ & ->).
  rewrite !fmap_app, !fmap_cons, !sum_list_with_app. cbn. lia.
Qed.

Lemma sum_wake (ws : list (worker T)) :
  (sum_list (weight <$> (wake <$> ws)) <= sum_list (weight <$> ws) + length ws)%nat.
Proof. induction ws as [|[] ws IH]; cbn in *; lia. Qed.

Lemma sum_wake_caller (cs : list caller) :
  (sum_list (caller_weight <$> (wake_caller <$> cs)) <=
   sum_list (caller_weight <$> cs) + length cs)%nat.
Proof. induction cs as [|[] cs IH]; cbn in *; lia. Qed.

Lemma measure_set_worker i old w s :
  workers_ s !! i = Some old ->
  (measure (set_worker i w s) + weight old = measure s + weight w)%nat.
Proof.
  intros H. pose proof (weight_insert weight _ _ _ w H) as E.
  unfold measure, dtor_weight. cbn. rewrite length_insert. lia.
Qed.

Lemma measure_set_caller j old c s :
  callers s !! j = Some old ->
  (measure (set_caller j c s) + caller_weight old = measure s + caller_weight c)%nat.
Proof.
  intros H. pose proof (weight_insert caller_weight _ _ _ c H) as E.
  unfold measure, dtor_weight. cbn. rewrite length_insert. lia.
Qed.

Lemma measure_worker_step i s s' : worker_step k run i s = Some s' -> (measure s' < measure s)%nat.
Proof.
  intros H. unfold worker_step in H. destruct (workers_ s !! i) as [[]|] eqn:Hi; try done.
  - destruct (tasks_ s) as [|t q] eqn:Hq.
    + destruct (stop_ s); simplify_eq;
        pose proof (measure_set_worker i _ Exited s Hi) as E;
        pose proof (measure_set_worker i _ Blocked s Hi) as E'; cbn [weight] in *; lia.
    + simplify_eq. pose proof (weight_insert weight _ _ _ (Running t) Hi) as E.
      unfold measure, dtor_weight. cbn -[Nat.mul] in *. rewrite length_insert, Hq. cbn -[Nat.mul]. lia.
  - simplify_eq. pose proof (weight_insert weight _ _ _ Checking Hi) as E.
    unfold measure, dtor_weight. cbn -[Nat.mul] in *. rewrite length_insert. lia.
Qed.

Lemma measure_notified s s' : notified s = Some s' -> (measure s = measure s' + 2)%nat.
Proof.
  unfold notified. destruct (notifying s) eqn:E; intros; simplify_eq.
  unfold measure, dtor_weight. cbn -[Nat.mul]. rewrite E. lia.
Qed.

Lemma measure_dtor_step s s' : dtor_step s = Some s' -> (measure s' < measure s)%nat.
Proof.
  unfold dtor_step. destruct (dtor s) eqn:Ed; try done.
  - intros; simplify_eq. pose proof (sum_wake (workers_ s)). pose proof (sum_wake_caller (callers s)).
    unfold measure, dtor_weight. cbn -[Nat.mul]. rewrite Ed. lia.
  - destruct (forallb _ _); intros; simplify_eq.
    unfold measure, dtor_weight. cbn -[Nat.mul]. rewrite Ed. lia.
Qed.

Lemma measure_own_step s s' : own_step k run s s' -> (measure s' < measure s)%nat.
Proof.
  intros (e & Hint & H). destruct e; try done; cbn in H.
  - by eapply measure_worker_step.
  - bind_inv H. apply measure_notified in E. unfold wake_worker_at in H.
    destruct (workers_ p !! i) as [[]|] eqn:Hi; simplify_eq.
    pose proof (measure_set_worker i _ Checking p Hi) as E'. cbn [weight] in E'. lia.
  - bind_inv H. apply measure_notified in E. unfold wake_caller_at in H.
    destruct (callers p !! j) as [[]|] eqn:Hi; simplify_eq.
    pose proof (measure_set_caller j _ CChecking p Hi) as E'. cbn [caller_weight] in E'. lia.
  - destruct (nobody_waits s); [|done]. apply measure_notified in H. lia.
  - unfold WaitForTasks, cv_WaitForTasks, poll_WaitForTasks in H.
    destruct (callers s !! j) as [[]|] eqn:Hj; try done.
    pose proof (measure_set_caller j _ CReturned s Hj) as E.
    pose proof (measure_set_caller j _ CBlocked s Hj) as E'. cbn [caller_weight] in *.
    repeat case_match; simplify_eq; lia.
  - by eapply measure_dtor_step.
Qed.

(** A worker that is not waiting while there is a task is awake. *)
Lemma awake_of_unblocked s i w :
  pool_inv k run args s -> tasks_ s <> [] -> workers_ s !! i = Some w -> w <> Blocked -> active w.
Proof.
  intros I Ht Hi Hw. destruct w; cbn; try done. by destruct (inv_exited _ _ _ _ I _ Hi).
Qed.

Lemma awake_set_worker i old w s :
  awake_inv s -> workers_ s !! i = Some old -> (tasks_ s <> [] -> active w) ->
  awake_inv (set_worker i w s).
Proof.
  intros [Hcv Hc Ht] Hi Hw. split; cbn; try done.
  intros Hne. right. exists i, w. split; [|by apply Hw].
  apply list_lookup_insert_eq. by eapply lookup_lt_Some.
Qed.

Lemma awake_worker_step i s s' :
  awake_inv s -> worker_step k run i s = Some s' -> awake_inv s'.
Proof.
  intros W H. unfold worker_step in H. destruct (workers_ s !! i) as [[]|] eqn:Hi; try done.
  - destruct (tasks_ s) as [|t q] eqn:Hq.
    + destruct (stop_ s); simplify_eq; eapply awake_set_worker; try done; congruence.
    + simplify_eq. destruct W as [Hcv Hc Ht]. split; cbn; try done.
      intros _. right. exists i, (Running t). split; [|done].
      apply list_lookup_insert_eq. by eapply lookup_lt_Some.
  - simplify_eq. destruct W as [Hcv Hc Ht]. split; cbn; try done.
    intros _. right. exists i, Checking. split; [|done].
    apply list_lookup_insert_eq. by eapply lookup_lt_Some.
Qed.

Lemma awake_wake_caller j s s' : awake_inv s -> wake_caller_at j s = Some s' -> False.
Proof.
  intros [_ Hc _] H. unfold wake_caller_at in H. destruct (callers s !! j) as [[]|] eqn:Hj; try done.
  by apply list_elem_of_lookup_2 in Hj.
Qed.

Lemma awake_WaitForTasks j s s' : awake_inv s -> WaitForTasks k j s = Some s' -> awake_inv s'.
Proof.
  intros [Hcv Hc Ht] H. unfold WaitForTasks in H. destruct (callers s !! j) as [[]|] eqn:Hj; try done.
  destruct (cv_wait k) eqn:Ek; [by rewrite Hcv in Hj|].
  unfold poll_WaitForTasks in H. case_match; simplify_eq. split; cbn; try done; [congruence|].
  intros [j' Hj']%list_elem_of_lookup_1. apply list_lookup_insert_Some in Hj'.
  destruct Hj' as [(_ & ? & _)|[_ Hj']]; [done|]. by apply list_elem_of_lookup_2 in Hj'.
Qed.

Lemma awake_dtor_step s s' : awake_inv s -> dtor_step s = Some s' -> awake_inv s'.
Proof.
  intros [Hcv Hc Ht] H. unfold dtor_step in H. destruct (dtor s); try done.
  - simplify_eq. split; cbn.
    + intros E. by rewrite (Hcv E).
    + intros ([] & ? & ?)%list_elem_of_fmap; done.
    + intros Hne. destruct (Ht Hne) as [?|(i & w & Hi & Hw)]; [by left|right].
      exists i, w. rewrite list_lookup_fmap, Hi. by destruct w.
  - case_match; simplify_eq. by split.
Qed.

Lemma awake_notify_none s s' :
  pool_inv k run args s -> args <> [] -> awake_inv s -> nobody_waits s = true -> notified s = Some s' ->
  awake_inv s'.
Proof.
  intros I Ha [Hcv Hc Ht] Hn H. unfold notified in H. destruct (notifying s); simplify_eq.
  split; cbn; try done. intros Hne. right.
  destruct (workers_ s) as [|w ws] eqn:Ew.
  { pose proof (inv_len _ _ _ _ I) as L. rewrite Ew in L. by destruct args. }
  exists O, w. split; [done|]. eapply (awake_of_unblocked s O); [done..|by rewrite Ew|].
  unfold nobody_waits in Hn. rewrite Ew in Hn. by intros ->.
Qed.

Lemma awake_exec e s s' :
  args <> [] -> pool_inv k run args s -> awake_inv s -> (cv_wait k = true -> e <> EWait) ->
  exec k run e s = Some s' -> awake_inv s'.
Proof.
  intros Ha I W Hw H. destruct e; cbn in H.
  - by eapply awake_worker_step.
  - bind_inv H. unfold wake_worker_at in H. destruct (workers_ p !! i) as [[]|] eqn:Hi; simplify_eq.
    unfold notified in E. destruct (notifying s); simplify_eq. destruct W. split; cbn; try done.
    intros _. right. exists i, Checking. split; [|done].
    apply list_lookup_insert_eq. by eapply lookup_lt_Some.
  - bind_inv H. exfalso. eapply (awake_wake_caller j p); [|done].
    unfold notified in E. destruct (notifying s); simplify_eq. destruct W as [W1 W2 _].
    unfold wake_caller_at in H. cbn in H.
    destruct (callers s !! j) as [[]|] eqn:Hj; try done. by apply list_elem_of_lookup_2 in Hj.
  - destruct (nobody_waits s) eqn:Hn; [|done]. by eapply awake_notify_none.
  - by eapply awake_WaitForTasks.
  - by eapply awake_dtor_step.
  - unfold Submit in H. destruct (stop_ s); simplify_eq. destruct W. split; cbn; try done. intros _. left. lia.
  - unfold dtor_stop in H. destruct (dtor s); simplify_eq. by destruct W.
  - simplify_eq. destruct W as [W1 W2 W3]. split; cbn; try done.
    + intros E. by destruct (Hw E).
    + rewrite elem_of_app, list_elem_of_singleton. naive_solver.
  - unfold wake_worker_at in H. destruct (workers_ s !! i) as [[]|] eqn:Hi; simplify_eq.
    by eapply awake_set_worker.
  - by destruct (awake_wake_caller j s s').
Qed.

Lemma unwaited_reachable s :
  args <> [] -> rtc unwaited_step (new_pool args) s -> pool_inv k run args s /\ awake_inv s.
Proof.
  intros Ha. apply (rtc_invariant _ (fun s => pool_inv k run args s /\ awake_inv s)).
  - intros a b [I W] (e & He & H). split; [by eapply inv_exec|by eapply awake_exec].
  - split; [apply inv_new|]. split; cbn; try done. apply not_elem_of_nil.
Qed.

Lemma own_unwaited s s' : own_step k run s s' -> unwaited_step s s'.
Proof. intros (e & Hi & H). exists e. split; [|done]. by intros _ ->. Qed.

(** A state in which the pool's own threads can do nothing more. *)
Definition quiescent (s : pool) : Prop := forall s', ~ own_step k run s s'.

Lemma quiescent_workers s i w :
  quiescent s -> workers_ s !! i = Some w -> ~ active w.
Proof.
  intros Q Hi Hw. destruct w; try done.
  - destruct (worker_step k run i s) eqn:E; [by apply (Q p); exists (EWorker i)|].
    unfold worker_step in E. rewrite Hi in E. by destruct (tasks_ s), (stop_ s).
  - apply (Q (finish_task k run i t s)). exists (EWorker i). cbn. unfold worker_step. by rewrite Hi.
Qed.

Lemma quiescent_notifying s : awake_inv s -> quiescent s -> notifying s = O.
Proof.
  intros W Q. destruct (notifying s) as [|n] eqn:En; [done|exfalso].
  destruct (notified s) as [p|] eqn:Hp; [|unfold notified in Hp; by rewrite En in Hp].
  assert (Hws : workers_ p = workers_ s) by (unfold notified in Hp; rewrite En in Hp; by simplify_eq).
  destruct (nobody_waits s) eqn:Hn.
  { apply (Q p). exists ENotifyNone. cbn. by rewrite Hn. }
  unfold nobody_waits in Hn. apply andb_false_iff in Hn. destruct Hn as [Hn|Hn].
  - destruct (decide (Exists (fun w => is_blocked w = true) (workers_ s))) as [Hx|Hx].
    + apply Exists_exists in Hx as (w & Hin & Hb). apply list_elem_of_lookup in Hin as [i Hi].
      destruct w; try done. apply (Q (set_worker i Checking p)). exists (ENotifyWorker i).
      cbn. rewrite Hp. cbn. unfold wake_worker_at. by rewrite Hws, Hi.
    + apply not_true_iff_false in Hn. apply Hn, forallb_forall. intros w Hw.
      apply list_elem_of_In in Hw. apply negb_true_iff, not_true_iff_false. intros Hb.
      apply Hx, Exists_exists. eauto.
  - apply not_true_iff_false in Hn. apply Hn, forallb_forall. intros c Hc.
    apply list_elem_of_In in Hc. case_bool_decide; [|done]. subst. by apply (aw_callers _ W) in Hc.
Qed.

(** In such a state every submitted task has run, every [WaitForTasks] has
    returned and a destructor that was called has returned. *)
Definition all_done (s : pool) : Prop :=
  tasks_ s = [] /\
  (snd <$> finished s) ≡ₚ submitted s /\
  (forall j c, callers s !! j = Some c -> c = CReturned) /\
  (dtor s <> Alive -> dtor s = Joined).

Lemma quiescent_dtor s :
  pool_inv k run args s -> quiescent s -> dtor s <> Alive -> dtor s = Joined.
Proof.
  intros I Q Hd. destruct (dtor s) eqn:Ed; try done; exfalso.
  - destruct (dtor_step s) eqn:E; [by apply (Q p); exists EDtor|]. unfold dtor_step in E. by rewrite Ed in E.
  - destruct (forallb is_exited (workers_ s)) eqn:Ef.
    { destruct (dtor_step s) eqn:E; [by apply (Q p); exists EDtor|].
      unfold dtor_step in E. by rewrite Ed, Ef in E. }
    apply not_true_iff_false in Ef. apply Ef, forallb_forall. intros w Hw.
    apply list_elem_of_In, list_elem_of_lookup in Hw as [i Hi].
    pose proof (quiescent_workers s i w Q Hi) as Ha.
    destruct w; try done.
    eapply (inv_blocked _ _ _ _ I) in Hi; [done|by left].
Qed.

Lemma quiescent_callers s :
  awake_inv s -> quiescent s -> tasks_ s = [] ->
  forall j c, callers s !! j = Some c -> c = CReturned.
Proof.
  intros W Q Ht j c Hj. destruct c; [exfalso| |done].
  - apply (Q (set_caller j CReturned s)). exists (ECaller j). split; [done|].
    cbn. unfold WaitForTasks, cv_WaitForTasks, poll_WaitForTasks. rewrite Hj, Ht. by destruct (cv_wait k).
  - by apply list_elem_of_lookup_2, (aw_callers _ W) in Hj.
Qed.

Lemma quiescent_all_done s :
  pool_inv k run args s -> awake_inv s -> quiescent s -> all_done s.
Proof.
  intros I W Q.
  assert (Ht : tasks_ s = []).
  { destruct (tasks_ s) as [|t q] eqn:E; [done|exfalso].
    destruct (aw_tasks _ W) as [Hn|(i & w & Hi & Hw)]; [by rewrite E| |].
    - rewrite (quiescent_notifying s W Q) in Hn. lia.
    - by apply (quiescent_workers s i w Q Hi). }
  split; [done|]. split; [|split; [by apply quiescent_callers|by apply quiescent_dtor]].
  pose proof (inv_fifo _ _ _ _ I) as F. rewrite Ht, app_nil_r in F. rewrite <-F, (inv_all _ _ _ _ I).
  assert (Hr : concat (running <$> workers_ s) = []).
  { apply concat_nil_Forall, Forall_fmap, Forall_lookup. intros i w Hi.
    pose proof (quiescent_workers s i w Q Hi). by destruct w. }
  by rewrite Hr, app_nil_r.
Qed.

(** C35: whatever was submitted to a pool of at least one worker, whoever called
    [WaitForTasks] or the destructor: as long as nobody waits on [condition_]
    but the workers, the pool's threads come to a halt after finitely many
    steps in any schedule, and they only come to a halt when every submitted
    task has run, every [WaitForTasks] has returned and a destructor that was
    called has returned.  No wake-up is lost. *)
Theorem pool_completes (s : pool) :
  args <> [] -> rtc unwaited_step (new_pool args) s ->
  sn (own_step k run) s /\
  forall s', rtc (own_step k run) s s' -> quiescent s' -> all_done s'.
Proof.
  intros Ha Hs. split.
  - apply (wf_projected lt measure); [|apply lt_wf]. intros a b. apply measure_own_step.
  - intros s' Hr Q. destruct (unwaited_reachable s' Ha) as [I W]; [|by apply quiescent_all_done].
    etransitivity; [done|]. by eapply rtc_subrel, Hr; apply own_unwaited.
Qed.

End PoolLive.

(** ** Properties *)

Lemma execs_rtc {T A} k (run : T -> A -> A) es s s' :
  execs k run es s = Some s' -> rtc (pool_step k run) s s'.
Proof.
  revert s. induction es as [|e es IH]; intros s H; cbn in H; [by simplify_eq|].
  bind_inv H. eapply rtc_l; [by exists e|by apply IH].
Qed.

Lemma execs_unwaited {T A} k (run : T -> A -> A) es s s' :
  cv_wait k = false -> execs k run es s = Some s' -> rtc (unwaited_step k run) s s'.
Proof.
  intros Hk. revert s. induction es as [|e es IH]; intros s H; cbn in H; [by simplify_eq|].
  bind_inv H. eapply rtc_l; [exists e; by rewrite Hk|by apply IH].
Qed.

(** In every state a pool of any of the four classes can reach: the tasks
    taken by workers and those in the queue are the submitted ones, once each
    and in order; a task that was taken has run or is running; the argument
    a worker passes (its stream, its resource) is what its own tasks, one after
    the other, have made of it; and when the destructor has joined the workers
    of a non-empty pool every submitted task has run and the resource destructor was
    given what the tasks left, or, where the workers own copies, the
    resources as they were created. *)
Theorem pool_runs_once {T A} (k : pool_class) (run : T -> A -> A) (args : list A) (s : pool T A) :
  rtc (pool_step k run) (new_pool args) s ->
  (snd <$> started s) ++ tasks_ s = submitted s /\
  (snd <$> started s) ≡ₚ (snd <$> finished s) ++ concat (running <$> workers_ s) /\
  (forall i, arg k s i =
     (fun a => foldl (fun a t => run t a) a (of_worker i (finished s))) <$> args !! i) /\
  (args <> [] -> dtor s = Joined ->
     (snd <$> finished s) ≡ₚ submitted s /\ destroyed s = resources_ s /\
     (by_copy k = true -> destroyed s = args)).
Proof.
  intros H. apply pool_inv_reachable in H as I. split; [apply I|]. split; [apply I|]. split; [apply I|].
  intros Ha Hj. pose proof (inv_destroyed _ _ _ _ I Hj) as Hd.
  split; [|split; [done|rewrite Hd; apply I]].
  assert (Hx : Forall (fun w => w = Exited) (workers_ s)).
  { apply Forall_lookup. by apply (inv_joined _ _ _ _ I). }
  assert (Ht : tasks_ s = []).
  { pose proof (inv_len _ _ _ _ I) as L. destruct (workers_ s) as [|w ws] eqn:E; [by destruct args|].
    apply (inv_exited _ _ _ _ I O). rewrite E. by inversion Hx; subst. }
  assert (Hr : concat (running <$> workers_ s) = []).
  { apply concat_nil_Forall, Forall_fmap. eapply Forall_impl; [done|]. by intros ? ->. }
  rewrite <-(inv_fifo _ _ _ _ I), Ht, app_nil_r, (inv_all _ _ _ _ I), Hr, app_nil_r. done.
Qed.

(** A run of each class: two workers add the tasks' numbers to their
    resources; the pool is destroyed while tasks are queued and running. *)
Definition busy_run : list (event Z) :=
  [EWorker 0; EWorker 1; ESubmit 5; ESubmit 7; ENotifyWorker 1; EWorker 1; ESubmit 11;
   ENotifyWorker 0; EWorker 0; ENotifyNone; EDestroy; EWorker 1; EDtor; EWorker 1; EWorker 0;
   EWorker 1; EWorker 0; EWorker 1; EDtor].

Lemma pool_runs_once_witness :
  exists s, execs CUDAStreamResourceThreadPool Z.add busy_run (new_pool [100; 200]) = Some s /\
    dtor s = Joined /\ destroyed s = [107; 216] /\ (snd <$> finished s) ≡ₚ submitted s.
Proof.
  eexists. split; [vm_compute; reflexivity|]. split; [done|]. split; [done|].
  eapply (pool_runs_once CUDAStreamResourceThreadPool Z.add [100; 200]); [|done|done].
  by apply (execs_rtc _ _ busy_run).
Defined.

Lemma pool_completes_witness :
  exists s, execs ThreadPool (fun _ : Z => id) (take 11 busy_run) (ThreadPool_new 2) = Some s /\
    length (tasks_ s) = 1%nat /\ dtor s = Stopped /\ sn (own_step ThreadPool (fun _ : Z => id)) s.
Proof.
  eexists. split; [vm_compute; reflexivity|]. split; [done|]. split; [done|].
  eapply (pool_completes ThreadPool (fun _ : Z => id) (replicate 2 tt)); [done|].
  by apply (execs_unwaited _ _ (take 11 busy_run)).
Defined.

(** Waiting for the tasks of a polling pool returns while a task is running:
    it waits for an empty queue. *)
Theorem WaitForTasks_returns_early :
  exists s, rtc (pool_step ThreadPool (fun _ : Z => id)) (ThreadPool_new 1) s /\
    callers s = [CReturned] /\ submitted s = [5] /\ finished s = [] /\ workers_ s = [Running 5].
Proof.
  eexists. split; [|split; [|split; [|split]]].
  - apply (execs_rtc _ _ [ESubmit 5; EWorker 0; EWait; ECaller 0]). vm_compute. reflexivity.
  - done.
  - done.
  - done.
  - done.
Qed.

(** The pools whose [WaitForTasks] waits on [condition_] lose wake-ups.  No
    worker notifies [condition_] when it empties the queue, so the call sleeps
    on after every task has run; and [notify_one] of a later [Submit] may wake
    this caller in place of a worker, which leaves the task in the queue with
    every worker asleep. *)
Theorem cv_WaitForTasks_deadlock (k : pool_class) : cv_wait k = true ->
  (exists s, rtc (pool_step k (fun _ : Z => id)) (new_pool [tt]) s /\
     callers s = [CBlocked] /\ tasks_ s = [] /\ (snd <$> finished s) = submitted s /\
     quiescent k (fun _ : Z => id) s) /\
  (exists s, rtc (pool_step k (fun _ : Z => id)) (new_pool [tt]) s /\
     callers s = [CBlocked] /\ tasks_ s = [11] /\ workers_ s = [Blocked] /\
     quiescent k (fun _ : Z => id) s).
Proof.
  intros Hk. destruct k as [cv c]. cbn in Hk. subst cv.
  assert (Hstuck : forall ts res cps f st fi d,
    quiescent (PoolClass true c) (fun _ : Z => id)
      (Pool ts false res cps [Blocked] [CBlocked] 0 Alive f st fi d : pool Z unit)).
  { intros ts res cps f st fi d s' (e & He & H). destruct e; try done; cbn in H.
    - by destruct i as [|[]].
    - by destruct j as [|[]]. }
  split; destruct c; eexists.
  1,2: split; [apply (execs_rtc _ _ [EWorker 0; ESubmit 5; EWait; ECaller 0; ENotifyWorker 0;
                                     EWorker 0; EWorker 0; EWorker 0]); vm_compute; reflexivity|].
  3,4: split; [apply (execs_rtc _ _ [EWorker 0; ESubmit 5; EWait; ECaller 0; ENotifyWorker 0;
                                     EWorker 0; EWorker 0; EWorker 0; ESubmit 11; ENotifyCaller 0;
                                     ECaller 0]); vm_compute; reflexivity|].
  all: do 3 (split; [done|]); apply Hstuck.
Qed.

Lemma cv_WaitForTasks_deadlock_witness :
  exists s, rtc (pool_step ResourceThreadPool (fun _ : Z => id)) (new_pool [tt]) s /\
    tasks_ s = [11] /\ quiescent ResourceThreadPool (fun _ : Z => id) s.
Proof.
  destruct (cv_WaitForTasks_deadlock ResourceThreadPool eq_refl) as [_ (s & H & _ & Ht & _ & Hs)].
  by exists s.
Defined.
