(* ===== verification/MessageQueue.v ===== *)
(** * Message queue

    common/queue_utils.h: [MessageQueue], a queue with a mutex and a condition
    variable.  A step is what a thread does between two releases of the mutex;
    [notify_one] wakes any of the threads that wait in [Pop], and a thread may
    also wake up spuriously.

    The theorems show that the values come out once each and in the order in
    which they were pushed, to whatever thread, and that no wake-up is lost:
    when no thread in [Pop] can go on, there are no messages or no waiters. *)

From S2P Require Import Prelude.

Section Queue.
  Context {T : Type}.

(** A thread in [Pop]: about to take the mutex and evaluate the predicate,
    waiting, or returned. *)
Inductive popper : Type :=
| PopChecking
| PopBlocked
| PopReturned (value : T).

(** The queue and the threads in [Pop]; [q_pushed] and [q_popped] are a history. *)
Record message_queue : Type := MkMessageQueue {
  q_ : list T;
  poppers : list popper;
  q_pushed : list T;
  q_popped : list T;
}.

Definition new_queue : message_queue := MkMessageQueue [] [] [] [].

Definition set_popper (i : nat) (p : popper) (s : message_queue) : message_queue :=
  MkMessageQueue (q_ s) (<[i := p]> (poppers s)) (q_pushed s) (q_popped s).

Definition is_waiting (p : popper) : bool := match p with PopBlocked => true | _ => false end.
Definition is_checking (p : popper) : bool := match p with PopChecking => true | _ => false end.

Definition count (f : popper -> bool) (s : message_queue) : nat := length (filter (fun p => f p = true) (poppers s)).

(** [cond_.notify_one()]: a waiting thread [woken], or none if none waits. *)
Definition notify_one (woken : option nat) (s : message_queue) : option message_queue :=
  match woken with
  | Some i => match poppers s !! i with Some PopBlocked => Some (set_popper i PopChecking s) | _ => None end
  | None => if decide (count is_waiting s = 0) then Some s else None
  end.

Definition mq_Push (value : T) (woken : option nat) (s : message_queue) : option message_queue :=
  notify_one woken (MkMessageQueue (q_ s ++ [value]) (poppers s) (q_pushed s ++ [value]) (q_popped s)).

(** A call of [Pop], and one turn of its [cond_.wait] loop. *)
Definition mq_Pop_call (s : message_queue) : message_queue :=
  MkMessageQueue (q_ s) (poppers s ++ [PopChecking]) (q_pushed s) (q_popped s).

Definition mq_Pop (i : nat) (s : message_queue) : option message_queue :=
  match poppers s !! i with
  | Some PopChecking =>
      match q_ s with
      | [] => Some (set_popper i PopBlocked s)
      | val :: q => Some (MkMessageQueue q (<[i := PopReturned val]> (poppers s)) (q_pushed s) (q_popped s ++ [val]))
      end
  | _ => None
  end.

Definition mq_TryPop (s : message_queue) : option T * message_queue :=
  match q_ s with
  | [] => (None, s)
  | value :: q => (Some value, MkMessageQueue q (poppers s) (q_pushed s) (q_popped s ++ [value]))
  end.

Definition mq_Size (s : message_queue) : nat := length (q_ s).

Inductive queue_step : message_queue -> message_queue -> Prop :=
| step_Push value woken s s' : mq_Push value woken s = Some s' -> queue_step s s'
| step_Pop_call s : queue_step s (mq_Pop_call s)
| step_Pop i s s' : mq_Pop i s = Some s' -> queue_step s s'
| step_spurious i s : poppers s !! i = Some PopBlocked -> queue_step s (set_popper i PopChecking s)
| step_TryPop s : queue_step s (mq_TryPop s).2.

(** The steps of the threads that are in [Pop]. *)
Definition pop_step (s s' : message_queue) : Prop := exists i, mq_Pop i s = Some s'.

(** ** Invariant *)

(** Nothing is lost or reordered; and if a thread waits, there is a thread that
    will look for every message that is there. *)
Record queue_inv (s : message_queue) : Prop := {
  qi_fifo : q_pushed s = q_popped s ++ q_ s;
  qi_awake : 0 < count is_waiting s -> length (q_ s) <= count is_checking s;
}.

Lemma count_insert f s i p p' : poppers s !! i = Some p ->
  count f (set_popper i p' s) + (if f p then 1 else 0) = count f s + (if f p' then 1 else 0).
Proof.
  unfold count. cbn. generalize (poppers s). intros l. revert i. induction l as [|x l IH]; intros [|i] Hi; [done..| |].
  - injection Hi as ->. change (<[0 := p']> (p :: l)) with (p' :: l). rewrite !filter_cons.
    repeat case_decide; destruct (f p), (f p'); try done; cbn [length]; lia.
  - cbn in Hi. specialize (IH i Hi). change (<[S i := p']> (x :: l)) with (x :: <[i := p']> l).
    rewrite !filter_cons. case_decide; cbn [length]; lia.
Qed.

Lemma count_call f s : count f (mq_Pop_call s) = count f s + (if f PopChecking then 1 else 0).
Proof. unfold count. cbn [poppers mq_Pop_call]. rewrite filter_app, length_app. f_equal. rewrite filter_cons. by destruct (f PopChecking). Qed.

Lemma inv_wake i s : queue_inv s -> poppers s !! i = Some PopBlocked -> queue_inv (set_popper i PopChecking s).
Proof.
  intros [Hf Ha] Hi. split; [done|]. pose proof (count_insert is_waiting s i _ PopChecking Hi). pose proof (count_insert is_checking s i _ PopChecking Hi).
  cbn in *. intros. specialize (Ha ltac:(lia)). lia.
Qed.

Lemma queue_inv_step s s' : queue_inv s -> queue_step s s' -> queue_inv s'.
Proof.
  intros [Hf Ha] Hs. destruct Hs as [v woken s s' E|s|i s s' E|i s Hi|s].
  - unfold mq_Push, notify_one in E. set (s1 := MkMessageQueue _ _ _ _) in E.
    assert (q_pushed s1 = q_popped s1 ++ q_ s1) as Hf1 by (cbn; by rewrite Hf, app_assoc).
    destruct woken as [i|].
    + destruct (poppers s1 !! i) as [[]|] eqn:Hi; [done| |done..]. injection E as <-. split; [done|].
      pose proof (count_insert is_waiting s1 i _ PopChecking Hi). pose proof (count_insert is_checking s1 i _ PopChecking Hi).
      change (count is_waiting s1) with (count is_waiting s) in *. change (count is_checking s1) with (count is_checking s) in *.
      change (q_ (set_popper i PopChecking s1)) with (q_ s ++ [v]). cbn [is_waiting is_checking] in *. rewrite length_app. cbn [length].
      intros. specialize (Ha ltac:(lia)). lia.
    + case_decide as Hn; [|done]. injection E as <-. split; [done|]. rewrite Hn. lia.
  - split; [done|]. rewrite !count_call. cbn. intros. specialize (Ha ltac:(lia)). lia.
  - unfold mq_Pop in E. destruct (poppers s !! i) as [[]|] eqn:Hi; [|done..]. destruct (q_ s) as [|v q] eqn:Eq; injection E as <-.
    + split; [cbn; by rewrite Eq|]. cbn. rewrite Eq. cbn. lia.
    + split; [cbn; by rewrite Hf, <- app_assoc|]. cbn [q_].
      pose proof (count_insert is_waiting s i _ (PopReturned v) Hi). pose proof (count_insert is_checking s i _ (PopReturned v) Hi).
      intros Hw. cbn [is_waiting is_checking length] in *. unfold count, set_popper in *. cbn [poppers] in *. specialize (Ha ltac:(lia)). lia.
  - by apply inv_wake.
  - unfold mq_TryPop. destruct (q_ s) as [|v q] eqn:Eq; [split; cbn; by rewrite ?Eq|]. cbn. split; [cbn; by rewrite Hf, <- app_assoc|].
    intros Hw. specialize (Ha Hw). cbn [length] in Ha. unfold count in *. cbn [poppers q_] in *. lia.
Qed.

Lemma queue_inv_reachable s : rtc queue_step new_queue s -> queue_inv s.
Proof.
  intros Hr. eapply rtc_invariant; [exact queue_inv_step| |exact Hr]. split; [done|]. cbn. lia.
Qed.

(** ** Correctness *)

Lemma pop_step_measure s s' : pop_step s s' -> count is_checking s' < count is_checking s.
Proof.
  intros [i E]. unfold mq_Pop in E. destruct (poppers s !! i) as [[]|] eqn:Hi; [|done..]. destruct (q_ s) as [|v q]; injection E as <-.
  - pose proof (count_insert is_checking s i _ PopBlocked Hi). cbn [is_checking] in *. lia.
  - pose proof (count_insert is_checking s i _ (PopReturned v) Hi). unfold count, set_popper in *. cbn [poppers is_checking] in *. lia.
Qed.

Lemma pop_step_terminates s : Acc (fun s2 s1 => pop_step s1 s2) s.
Proof.
  assert (forall n s, count is_checking s < n -> Acc (fun s2 s1 => pop_step s1 s2) s) as Hn; [|apply (Hn (S (count is_checking s))); lia].
  induction n as [|n IH]; intros s1 Hs; [lia|]. constructor. intros s2 Hp%pop_step_measure. apply IH. lia.
Qed.

(** C36: the queue hands every message to one reader, in order, and loses no wake-up.
    In every reachable state the messages that were pushed are those that were
    popped and then those in the queue; the threads in [Pop] stop after finitely
    many steps; and when they have stopped and a thread still waits, the queue is
    empty. *)
Theorem message_queue_correct (s : message_queue) : rtc queue_step new_queue s ->
  q_pushed s = q_popped s ++ q_ s /\ Acc (fun s2 s1 => pop_step s1 s2) s /\
  ((forall s', ~ pop_step s s') -> forall i, poppers s !! i = Some PopBlocked -> q_ s = []).
Proof.
  intros Hr. destruct (queue_inv_reachable s Hr) as [Hf Ha]. split; [done|]. split; [apply pop_step_terminates|].
  intros Hq i Hi. assert (0 < count is_waiting s) as Hw.
  { unfold count. destruct (filter _ (poppers s)) eqn:E; [|cbn; lia]. exfalso.
    assert (PopBlocked ∈ filter (fun p => is_waiting p = true) (poppers s)) as Hin by (apply list_elem_of_filter; split; [done|by eapply list_elem_of_lookup_2]).
    rewrite E in Hin. by apply not_elem_of_nil in Hin. }
  destruct (filter (fun p => is_checking p = true) (poppers s)) as [|p l] eqn:E.
  - specialize (Ha Hw). unfold count in Ha. rewrite E in Ha. destruct (q_ s); [done|]. cbn in Ha. lia.
  - exfalso. assert (p ∈ filter (fun p => is_checking p = true) (poppers s)) as Hin by (rewrite E; left).
    apply list_elem_of_filter in Hin as [Hc [j Hj]%list_elem_of_lookup]. destruct p; try done.
    destruct (mq_Pop j s) as [s'|] eqn:Es; [by apply (Hq s'); exists j|]. unfold mq_Pop in Es. rewrite Hj in Es. by destruct (q_ s).
Qed.
End Queue.

Arguments popper T : clear implicits.
Arguments message_queue T : clear implicits.

(** Two readers, one of which waits; one message. *)
Lemma message_queue_correct_witness :
  let s := MkMessageQueue [] [PopReturned 7; PopBlocked] [7] [7] in
  rtc queue_step new_queue s /\ q_pushed s = q_popped s ++ q_ s.
Proof.
  assert (rtc queue_step new_queue (MkMessageQueue [] [PopReturned 7; PopBlocked] [7] [7])) as Hr.
  { eapply rtc_l; [apply step_Pop_call|]. eapply rtc_l; [by apply (step_Pop 0)|]. eapply rtc_l; [apply step_Pop_call|].
    eapply rtc_l; [by apply (step_Push 7 (Some 0))|]. eapply rtc_l; [by apply (step_Pop 0)|]. eapply rtc_l; [by apply (step_Pop 1)|]. apply rtc_refl. }
  split; [exact Hr|]. by apply (message_queue_correct (MkMessageQueue [] [PopReturned 7; PopBlocked] [7] [7])).
Defined.
