(* ===== verification/CallTasks.v ===== *)
(** * The tasks of a call

    [MultiGetTensor] and [MultiGetCompactTensors] of core/remote_tensor_table.cpp
    submit a task for every tensor to one of the two thread pools of the table
    (Pools.v), by the size of the tensor, and wait for their futures in turn.  The tasks refer to variables of the call by reference: the
    tensors made for the result, the infos and the map of targets.  A call is a
    step relation beside the pools: its two loops, an exception at any point of
    them, and whatever else the pools do, for other callers too.

    The theorem shows that a call that returns has no task left, and that
    an exception lets the call leave its variables to tasks that still run. *)

From S2P Require Import Prelude Pools.
Local Open Scope nat_scope.

(** The tasks of this call and those of others. *)
Inductive task : Type := Mine (i : nat) | Other (x : nat).

#[export] Instance task_eq_dec : EqDecision task.
Proof. solve_decision. Defined.

(** Where the call is: about to submit task [i], at [get] of future [i], or gone,
    by a return or by an exception. *)
Inductive call_pc : Type := Submitting (i : nat) | Waiting (i : nat) | Left (returned : bool).

(** The pool a tensor is read in: that of the large buckets when the small ones might
    not hold what is to be read. *)
Definition needs_large (copy_bucket_mem_size tp_size tensor_bytes : Z) : bool :=
  negb (u64 (tensor_bytes * u64 tp_size) <=? u64 copy_bucket_mem_size)%Z.

(** The copy pool and the pool of the large buckets. *)
Record pools (A : Type) : Type := MkPools { copy_pool : pool task A; copy_large_pool : pool task A }.
Arguments MkPools {A} _ _.
Arguments copy_pool {A} _.
Arguments copy_large_pool {A} _.

Definition pick {A} (b : bool) (s : pools A) : pool task A := if b then copy_large_pool s else copy_pool s.
Definition put {A} (b : bool) (x : pool task A) (s : pools A) : pools A :=
  if b then MkPools (copy_pool s) x else MkPools x (copy_large_pool s).

Lemma pick_put {A} b b' (x : pool task A) s : pick b (put b' x s) = if decide (b = b') then x else pick b s.
Proof. by destruct b, b'. Qed.

Section Call.
  Context {A : Type} (k : pool_class) (run : task -> A -> A).
  (** The number of tasks, which of them go to the pool of the large buckets, whether
      the variables of one can be made, and whether it throws. *)
  Context (n : nat) (large prepares throws : nat -> bool).

  Local Abbreviation state := (pools A * call_pc)%type.

(** The value or the exception of a future is there once its task has finished. *)
Definition future_ready (i : nat) (s : pools A) : Prop := Mine i ∈ (finished (pick (large i) s)).*2.

Inductive call_step : state -> state -> Prop :=
| pool_moves b e s s' pc : (forall i, e <> ESubmit (Mine i)) -> exec k run e (pick b s) = Some s' ->
    call_step (s, pc) (put b s' s, pc)
| call_submits i s s' : i < n -> prepares i = true -> Submit (Mine i) (pick (large i) s) = Some s' ->
    call_step (s, Submitting i) (put (large i) s' s, Submitting (S i))
| submit_throws i s : i < n -> prepares i = false \/ Submit (Mine i) (pick (large i) s) = None ->
    call_step (s, Submitting i) (s, Left false)
| all_submitted s : call_step (s, Submitting n) (s, Waiting 0)
| future_returns i s : i < n -> future_ready i s -> throws i = false -> call_step (s, Waiting i) (s, Waiting (S i))
| future_throws i s : i < n -> future_ready i s -> throws i = true -> call_step (s, Waiting i) (s, Left false)
| call_returns s : call_step (s, Waiting n) (s, Left true).

(** A task that is queued or runs refers to the variables of the call. *)
Definition refers (s : pools A) (i : nat) : Prop :=
  exists b, Mine i ∈ tasks_ (pick b s) \/ exists j, workers_ (pick b s) !! j = Some (Running (Mine i)).

(** ** Lemmas *)

Lemma exec_history e s s' : exec k run e s = Some s' ->
  submitted s' = submitted s ++ match e with ESubmit t => [t] | _ => [] end /\
  exists l, finished s' = finished s ++ l.
Proof.
  intros H. assert (forall (x y : pool task A), submitted y = submitted x -> finished y = finished x ->
    submitted y = submitted x ++ [] /\ exists l, finished y = finished x ++ l) as Hsame.
  { intros x y -> ->. rewrite app_nil_r. split; [done|]. exists []. by rewrite app_nil_r. }
  destruct e; cbn in H;
    unfold worker_step, notified, wake_worker_at, wake_caller_at, WaitForTasks, cv_WaitForTasks, poll_WaitForTasks,
      dtor_step, dtor_stop, Submit in H; repeat (case_match; simplify_eq/=); try (by apply Hsame); try done.
  - rewrite app_nil_r. split; [done|]. by eexists.
  - split; [done|]. exists []. by rewrite app_nil_r.
  - injection H as <-. by apply Hsame.
Qed.

(** What the call has submitted and waited for. *)
Definition submitted_upto (pc : call_pc) (m : nat) : Prop :=
  match pc with Submitting i => m = i /\ i <= n | Waiting _ | Left true => m = n | Left false => m <= n end.

Definition waited_for (pc : call_pc) (i : nat) : Prop :=
  match pc with Submitting _ | Left false => False | Waiting j => i < j | Left true => i < n end.

Definition mine (t : task) : Prop := match t with Mine _ => True | Other _ => False end.
#[export] Instance mine_dec t : Decision (mine t).
Proof. destruct t; cbn; apply _. Defined.

Definition call_inv (x : state) : Prop :=
  (exists m, submitted_upto x.2 m /\
     forall b, filter mine (submitted (pick b x.1)) = Mine <$> filter (fun i => large i = b) (seq 0 m)) /\
  forall i, waited_for x.2 i -> future_ready i x.1.

Lemma future_ready_exec b e s s' i : exec k run e (pick b s) = Some s' -> future_ready i s -> future_ready i (put b s' s).
Proof.
  intros (_ & l & E)%exec_history Hi. unfold future_ready in *. rewrite pick_put. case_decide as Hb; [|done].
  rewrite E, fmap_app. apply elem_of_app. left. by rewrite <-Hb.
Qed.

Lemma call_inv_step x y : call_inv x -> call_step x y -> call_inv y.
Proof.
  intros [(m & Hm & Hf) Hw] Hs. unfold call_inv. destruct Hs as [b e s s' pc He E|i s s' Hi _ E|i s Hi _|s|i s Hi Hr _|i s Hi Hr _|s]; cbn in *.
  - split; [|intros i Hi; by eapply future_ready_exec, Hw]. exists m. split; [done|].
    intros b'. rewrite pick_put. case_decide; [subst b'|apply Hf].
    apply exec_history in E as [-> _]. rewrite filter_app, Hf. destruct e as [| | | | | |[j|z]| | | |]; try (by rewrite app_nil_r).
    by destruct (He j).
  - destruct Hm as [-> _]. split; [|done]. exists (S i). split; [lia|].
    apply (exec_history (ESubmit (Mine i))) in E as [E _]. intros b. rewrite pick_put, seq_S, filter_app, fmap_app.
    cbn [Nat.add]. rewrite filter_cons, filter_nil. case_decide as Hb; [rewrite decide_True by done|rewrite decide_False by done].
    + rewrite E, filter_app, Hb, Hf. done.
    + by rewrite app_nil_r.
  - destruct Hm as [-> Hm]. split; [|done]. exists i. done.
  - destruct Hm as [-> _]. split; [by exists n|]. intros i Hi. lia.
  - split; [by exists m|]. intros j Hj. destruct (decide (j = i)) as [->|]; [done|]. apply Hw. lia.
  - split; [|done]. exists m. split; [lia|done].
  - split; [by exists m|]. done.
Qed.

Context (args large_args : list A).
Definition args_of (b : bool) : list A := if b then large_args else args.
Local Abbreviation start := (MkPools (new_pool args) (new_pool large_args), Submitting 0).

Lemma call_inv_reachable x : rtc call_step start x -> call_inv x /\ forall b, pool_inv k run (args_of b) (pick b x.1).
Proof.
  apply (rtc_invariant _ (fun x => call_inv x /\ forall b, pool_inv k run (args_of b) (pick b x.1))).
  - intros x1 x2 [Hc Hp] Hs. split; [by eapply call_inv_step|]. intros b. specialize (Hp b).
    destruct Hs; cbn in *; try done; rewrite pick_put; case_decide; try done; subst; [by eapply inv_exec|].
    by eapply (inv_exec _ _ _ (ESubmit (Mine i))).
  - split; [|intros []; apply inv_new]. split; [|done]. exists 0. cbn. split; [lia|by intros []].
Qed.

Lemma submitted_split l s : pool_inv k run l s ->
  submitted s ≡ₚ (finished s).*2 ++ concat (running <$> workers_ s) ++ tasks_ s.
Proof. intros I. rewrite <- (inv_fifo _ _ _ _ I), (inv_all _ _ _ _ I). by rewrite app_assoc. Qed.

Lemma refers_elem s i : refers s i -> exists b, Mine i ∈ concat (running <$> workers_ (pick b s)) ++ tasks_ (pick b s).
Proof.
  intros [b [Ht|(j & Hj)]]; exists b; apply elem_of_app; [by right|left]. apply list_elem_of_In, in_concat. exists [Mine i].
  split; [|by left]. apply list_elem_of_In, list_elem_of_fmap. exists (Running (Mine i)). split; [done|].
  by eapply list_elem_of_lookup_2.
Qed.

(** A task of the call is in the pool it was submitted to. *)
Lemma refers_bound x i b : call_inv x -> pool_inv k run (args_of b) (pick b x.1) ->
  Mine i ∈ concat (running <$> workers_ (pick b x.1)) ++ tasks_ (pick b x.1) -> i < n /\ large i = b.
Proof.
  intros [(m & Hm & Hf) _] I Href.
  assert (Mine i ∈ filter mine (submitted (pick b x.1))) as Hi.
  { apply list_elem_of_filter. split; [done|]. rewrite (submitted_split _ _ I). by apply elem_of_app; right. }
  rewrite Hf in Hi. apply list_elem_of_fmap in Hi as (j & [= ->] & [Hb Hj%elem_of_seq]%list_elem_of_filter).
  split; [|done]. destruct x as [s [p|p|[]]]; cbn in Hm; lia.
Qed.

(** A task whose future is ready is neither queued nor running. *)
Lemma ready_not_refers x i : call_inv x -> (forall b, pool_inv k run (args_of b) (pick b x.1)) -> future_ready i x.1 -> ~ refers x.1 i.
Proof.
  intros Hc I Hr (b & Href)%refers_elem. destruct (refers_bound x i b Hc (I b) Href) as [_ <-].
  destruct Hc as [(m & _ & Hf) _]. assert (NoDup (filter mine (submitted (pick (large i) x.1)))) as Hnd.
  { rewrite Hf. apply NoDup_fmap; [congruence|apply NoDup_filter, NoDup_seq]. }
  rewrite (submitted_split _ _ (I _)), filter_app in Hnd. apply NoDup_app in Hnd as (_ & Hdis & _).
  apply (Hdis (Mine i)); by apply list_elem_of_filter.
Qed.
End Call.

(** ** What becomes of the tasks *)

(** The tasks of the call that a pool holds after [m] submissions. *)
Definition queued {A} (large : nat -> bool) (args large_args : list A) (m : nat) (s : pools A) : Prop :=
  forall b, tasks_ (pick b s) = Mine <$> filter (fun i => large i = b) (seq 0 m) /\ stop_ (pick b s) = false /\
    workers_ (pick b s) = replicate (length (if b then large_args else args)) Checking.

Lemma submits_upto {A} k run n large prepares throws (args large_args : list A) m : (forall i, prepares i = true) -> m <= n ->
  exists s, rtc (call_step k run n large prepares throws) (MkPools (new_pool args) (new_pool large_args), Submitting 0) (s, Submitting m) /\
    queued large args large_args m s.
Proof.
  intros Hp. induction m as [|m IH]; intros Hm; [eexists; split; [done|]; by intros []|]. destruct IH as (s & Hr & Hq); [lia|].
  eexists. split; [eapply rtc_r; [exact Hr|apply call_submits; [lia|done|]]|].
  - unfold Submit. by rewrite (proj1 (proj2 (Hq (large m)))).
  - intros b. rewrite pick_put, seq_S, filter_app, fmap_app. cbn [Nat.add]. rewrite filter_cons, filter_nil.
    destruct (Hq b) as (Ht & Hs & Hw). case_decide as Hb; [rewrite decide_True by done|rewrite decide_False by done].
    + subst b. cbn. by rewrite Ht.
    + by rewrite app_nil_r.
Qed.

(** A call that submits all of its tasks, of which a worker takes the first. *)
Lemma submits_all {A} k run n large prepares throws (args large_args : list A) : (forall i, prepares i = true) ->
  args <> [] -> large_args <> [] -> 1 < n ->
  exists s, rtc (call_step k run n large prepares throws) (MkPools (new_pool args) (new_pool large_args), Submitting 0) (s, Waiting 0) /\
    future_ready large 0 s /\ Mine 1 ∈ tasks_ (pick (large 1) s).
Proof.
  intros Hp Ha Hl Hn. destruct (submits_upto k run n large prepares throws args large_args n Hp ltac:(done)) as (s & Hr & Hq).
  destruct n as [|[|n']]; [lia..|]. destruct (Hq (large 0)) as (Ht & Hs & Hw). set (p := pick (large 0) s) in *.
  cbn [seq] in Ht. rewrite filter_cons, decide_True in Ht by done. cbn [fmap list_fmap] in Ht.
  set (rest := filter (fun i => large i = large 0) (1 :: seq 2 n')) in *.
  destruct (if large 0 then large_args else args) as [|a l] eqn:Ea; [by destruct (large 0)|].
  assert (worker_step k run 0 p = Some (pop_task 0 (Mine 0) (Mine <$> rest) p)) as E1.
  { unfold worker_step. rewrite Hw. cbn. by rewrite Ht. }
  assert (worker_step k run 0 (pop_task 0 (Mine 0) (Mine <$> rest) p) =
    Some (finish_task k run 0 (Mine 0) (pop_task 0 (Mine 0) (Mine <$> rest) p))) as E2.
  { unfold worker_step. cbn [pop_task workers_]. rewrite Hw. reflexivity. }
  eexists. split; [|split].
  - etrans; [exact Hr|]. eapply rtc_l; [apply (pool_moves _ _ _ _ _ _ (large 0) (EWorker 0)); [done|exact E1]|].
    eapply rtc_l; [apply (pool_moves _ _ _ _ _ _ (large 0) (EWorker 0)); [done|]|apply rtc_once, all_submitted].
    rewrite pick_put, decide_True by done. exact E2.
  - unfold future_ready. rewrite pick_put, decide_True by done. cbn. rewrite fmap_app. apply elem_of_app. right. by left.
  - rewrite pick_put. case_decide as Hb; [|rewrite pick_put, decide_False by done].
    + cbn [finish_task pop_task tasks_]. apply list_elem_of_fmap_2. unfold rest. rewrite filter_cons, decide_True by done. left.
    + destruct (Hq (large 1)) as (-> & _). apply list_elem_of_fmap_2, list_elem_of_filter. split; [done|]. apply elem_of_seq. lia.
Qed.

(** C30: the tasks of a call and its variables.  When a call has returned, whatever
    else happened in the two pools, none of its tasks is queued or running.  When the
    future of the first of several tasks throws, the call may be gone, and its
    variables with it, while the second task is still to run. *)
Theorem tasks_and_variables {A} (k : pool_class) (run : task -> A -> A) (n : nat) (large prepares throws : nat -> bool)
    (args large_args : list A) :
  let start := (MkPools (new_pool args) (new_pool large_args), Submitting 0) in
  (forall s i, rtc (call_step k run n large prepares throws) start (s, Left true) -> ~ refers s i) /\
  (args <> [] -> large_args <> [] -> 1 < n -> (forall i, prepares i = true) -> throws 0 = true ->
   exists s, rtc (call_step k run n large prepares throws) start (s, Left false) /\ refers s 1).
Proof.
  intros start. split.
  - intros s i H Href. destruct (call_inv_reachable _ _ _ _ _ _ _ _ _ H) as [Hc Hi].
    apply (ready_not_refers k run n large args large_args (s, Left true) i Hc Hi); [|done].
    destruct (refers_elem s i Href) as (b & Hb). apply Hc. cbn.
    by apply (refers_bound k run n large args large_args (s, Left true) i b).
  - intros Ha Hl Hn Hp Ht. destruct (submits_all k run n large prepares throws args large_args Hp Ha Hl Hn) as (s & Hr & Hf & Hts).
    exists s. split; [eapply rtc_r; [exact Hr|]; by apply future_throws; [lia|..]|]. exists (large 1). by left.
Qed.

(** Two tensors, the second of which is too large for the copy pool. *)
Lemma tasks_and_variables_witness :
  let large (i : nat) := needs_large 4096 4 (match i with O => 1024 | S _ => 2048 end)%Z in
  large 0 = false /\ large 1 = true /\
  exists s : pools unit, rtc (call_step CUDAStreamResourceThreadPool (fun _ => id) 2 large (fun _ => true) (fun i => bool_decide (i = 0)))
    (MkPools (new_pool [tt]) (new_pool [tt]), Submitting 0) (s, Left false) /\ refers s 1.
Proof.
  intros large. split; [reflexivity|]. split; [reflexivity|].
  apply (tasks_and_variables CUDAStreamResourceThreadPool (fun _ => id) 2 large (fun _ => true) (fun i => bool_decide (i = 0)) [tt] [tt]).
  - discriminate.
  - discriminate.
  - lia.
  - reflexivity.
  - reflexivity.
Defined.
