(* ===== verification/MrSet.v ===== *)
(** * The set of registered memory regions (utrans_mr_set.c)

    A binary search tree of disjoint address regions with AVL rotations.  The
    tree owns its nodes, so a node pointer is the subtree it points to and
    [NULL] is the empty tree; an operation that dereferences [NULL] has no
    result ([None]).  [malloc] is the argument [malloc_ok]. *)

From S2P Require Import Prelude.
Local Open Scope Z_scope.

(** ** The nodes *)

Inductive avl_node : Type :=
| NULL
| AvlNode (addr len pvalue : Z) (pleft pright : avl_node) (height : Z).

Record mr_set_t : Type := MrSet { root : avl_node; size : Z }.

#[export] Instance avl_node_eq_dec : EqDecision avl_node.
Proof. solve_decision. Defined.

Definition max (a b : Z) : Z := if a <? b then b else a.

Definition avl_height (pnode : avl_node) : Z :=
  match pnode with NULL => 0 | AvlNode _ _ _ _ _ h => h end.

(** Reads of the fields of a node that may be [NULL]. *)
Definition avl_addr (pnode : avl_node) : option Z :=
  match pnode with NULL => None | AvlNode a _ _ _ _ _ => Some a end.

Definition avl_copy (pdst psrc : avl_node) : option avl_node :=
  match pdst, psrc with
  | AvlNode _ _ _ l r h, AvlNode a n v _ _ _ => Some (AvlNode a n v l r h)
  | _, _ => None
  end.

Definition avl_node_create (malloc_ok : bool) (key len pval : Z)
    (pleft pright : avl_node) : avl_node :=
  if malloc_ok then AvlNode key len pval pleft pright 0 else NULL.

(** [ptree->height = max(avl_height(ptree->pleft), avl_height(ptree->pright)) + 1] *)
Definition avl_set_height (ptree : avl_node) : option avl_node :=
  match ptree with
  | NULL => None
  | AvlNode a n v l r _ =>
      Some (AvlNode a n v l r (max (avl_height l) (avl_height r) + 1))
  end.

(** ** Rotations *)

Definition avl_ll_rotation (proot : avl_node) : option avl_node :=
  match proot with
  | AvlNode a n v (AvlNode a' n' v' l' r' _) r _ =>
      let proot' := AvlNode a n v r' r (max (avl_height r') (avl_height r) + 1) in
      Some (AvlNode a' n' v' l' proot'
              (max (avl_height l') (avl_height proot') + 1))
  | _ => None
  end.

Definition avl_rr_rotation (proot : avl_node) : option avl_node :=
  match proot with
  | AvlNode a n v l (AvlNode a' n' v' l' r' _) _ =>
      let proot' := AvlNode a n v l l' (max (avl_height l) (avl_height l') + 1) in
      Some (AvlNode a' n' v' proot' r'
              (max (avl_height proot') (avl_height r') + 1))
  | _ => None
  end.

Definition avl_lr_rotation (proot : avl_node) : option avl_node :=
  match proot with
  | NULL => None
  | AvlNode a n v l r h =>
      l' ← avl_rr_rotation l; avl_ll_rotation (AvlNode a n v l' r h)
  end.

Definition avl_rl_rotation (proot : avl_node) : option avl_node :=
  match proot with
  | NULL => None
  | AvlNode a n v l r h =>
      r' ← avl_ll_rotation r; avl_rr_rotation (AvlNode a n v l r' h)
  end.

(** ** Insertion *)

(** The balance check after an insertion in the right branch. *)
Definition avl_insert_balance_right (key : Z) (ptree : avl_node) : option avl_node :=
  match ptree with
  | NULL => None
  | AvlNode _ _ _ l r _ =>
      if avl_height r - avl_height l =? 2 then
        ra ← avl_addr r;
        if ra <? key then avl_rr_rotation ptree else avl_rl_rotation ptree
      else Some ptree
  end.

(** The balance check after an insertion in the left branch. *)
Definition avl_insert_balance_left (key : Z) (ptree : avl_node) : option avl_node :=
  match ptree with
  | NULL => None
  | AvlNode _ _ _ l r _ =>
      if avl_height l - avl_height r =? 2 then
        la ← avl_addr l;
        if key <? la then avl_ll_rotation ptree else avl_lr_rotation ptree
      else Some ptree
  end.

Fixpoint avl_insert (malloc_ok : bool) (ptree : avl_node) (key len pval : Z)
    (oper_fail : Z) : option (avl_node * Z) :=
  if oper_fail =? 1 then Some (ptree, oper_fail) else
  match ptree with
  | NULL =>
      match avl_node_create malloc_ok key len pval NULL NULL with
      | NULL => Some (NULL, 1)
      | pnode => t ← avl_set_height pnode; Some (t, oper_fail)
      end
  | AvlNode a n v l r h =>
      if u64 (a + n) <=? key then
        '(r', f) ← avl_insert malloc_ok r key len pval oper_fail;
        t ← avl_insert_balance_right key (AvlNode a n v l r' h);
        t' ← avl_set_height t;
        Some (t', f)
      else if u64 (key + len) <=? a then
        '(l', f) ← avl_insert malloc_ok l key len pval oper_fail;
        t ← avl_insert_balance_left key (AvlNode a n v l' r h);
        t' ← avl_set_height t;
        Some (t', f)
      else Some (ptree, 1)
  end.

(** ** Lookups and traversals *)

Fixpoint avl_max (ptree : avl_node) : avl_node :=
  match ptree with
  | NULL => NULL
  | AvlNode _ _ _ _ NULL _ => ptree
  | AvlNode _ _ _ _ r _ => avl_max r
  end.

Fixpoint avl_min (ptree : avl_node) : avl_node :=
  match ptree with
  | NULL => NULL
  | AvlNode _ _ _ NULL _ _ => ptree
  | AvlNode _ _ _ l _ _ => avl_min l
  end.

Fixpoint avl_find (pnode : avl_node) (addr len : Z) : avl_node :=
  match pnode with
  | NULL => NULL
  | AvlNode a n _ l r _ =>
      if u64 (addr + len) <=? a then avl_find l addr len
      else if u64 (a + n) <=? addr then avl_find r addr len
      else if (a <=? addr) && (u64 (addr + len) <=? u64 (a + n)) then pnode
      else NULL
  end.

(** [avl_destroy] frees the nodes in post-order and, when [pitem] and [index]
    are given, stores their values: [pitem] is the array filled so far, [freed]
    the addresses of the nodes freed so far. *)
Fixpoint avl_destroy (ptree : avl_node) (pitem : option (list Z)) (freed : list Z)
    : option (list Z) * list Z :=
  match ptree with
  | NULL => (pitem, freed)
  | AvlNode a _ v l r _ =>
      let '(pitem, freed) := avl_destroy l pitem freed in
      let '(pitem, freed) := avl_destroy r pitem freed in
      (match pitem with Some items => Some (items ++ [v]) | None => None end,
       freed ++ [a])
  end.

(** [pitem[( *index)++] = pvalue]: the array filled so far. *)
Fixpoint avl_scan (ptree : avl_node) (pitem : list Z) : list Z :=
  match ptree with
  | NULL => pitem
  | AvlNode _ _ v l r _ => avl_scan r (avl_scan l pitem ++ [v])
  end.

(** The callback is a function on the value and the state behind [cb_arg];
    [None] is the null callback. *)
Fixpoint avl_traverse {S : Type} (ptree : avl_node) (judge_cb_ret : bool)
    (cb_func : option (Z -> S -> Z * S)) (cb_arg : S) : Z * S :=
  match ptree with
  | NULL => (0, cb_arg)
  | AvlNode _ _ v l r _ =>
      let '(ret, s1) := avl_traverse l judge_cb_ret cb_func cb_arg in
      if judge_cb_ret && negb (ret =? 0) then (ret, s1) else
      let '(ret, s2) :=
        match cb_func with Some cb => cb v s1 | None => (ret, s1) end in
      if match cb_func with Some _ => judge_cb_ret && negb (ret =? 0)
                          | None => false end then (ret, s2) else
      let '(ret, s3) := avl_traverse r judge_cb_ret cb_func s2 in
      if judge_cb_ret && negb (ret =? 0) then (ret, s3) else (0, s3)
  end.

(** ** Deletion *)

Definition avl_delete_balance_left (ptree : avl_node) : option avl_node :=
  match ptree with
  | NULL => None
  | AvlNode _ _ _ l r _ =>
      if avl_height r - avl_height l =? 2 then
        match r with
        | NULL => None
        | AvlNode _ _ _ rl rr _ =>
            if avl_height rr <? avl_height rl then avl_rl_rotation ptree
            else avl_rr_rotation ptree
        end
      else Some ptree
  end.

Definition avl_delete_balance_right (ptree : avl_node) : option avl_node :=
  match ptree with
  | NULL => None
  | AvlNode _ _ _ l r _ =>
      if avl_height l - avl_height r =? 2 then
        match l with
        | NULL => None
        | AvlNode _ _ _ ll lr _ =>
            if avl_height ll <? avl_height lr then avl_lr_rotation ptree
            else avl_ll_rotation ptree
        end
      else Some ptree
  end.

(** The result pairs the new tree with [*pitem_ret]; the recursive calls with
    a null [pitem_ret] drop theirs. *)
Fixpoint avl_delete_node (ptree pnode : avl_node) (pitem : Z) : option (avl_node * Z) :=
  match ptree, pnode with
  | NULL, _ => Some (ptree, pitem)
  | _, NULL => Some (ptree, pitem)
  | AvlNode a n v l r h, AvlNode ka _ _ _ _ _ =>
      if ka <? a then
        '(l', x) ← avl_delete_node l pnode pitem;
        t ← avl_delete_balance_left (AvlNode a n v l' r h);
        Some (t, x)
      else if a <? ka then
        '(r', x) ← avl_delete_node r pnode pitem;
        t ← avl_delete_balance_right (AvlNode a n v l r' h);
        Some (t, x)
      else
        match l, r with
        | AvlNode _ _ _ _ _ _, AvlNode _ _ _ _ _ _ =>
            if avl_height r <? avl_height l then
              let pleft_max := avl_max l in
              t ← avl_copy ptree pleft_max;
              '(l', _) ← avl_delete_node l pleft_max 0;
              match t with
              | NULL => None
              | AvlNode a' n' v' _ r' h' => Some (AvlNode a' n' v' l' r' h', v)
              end
            else
              let pright_min := avl_min r in
              t ← avl_copy ptree pright_min;
              '(r', _) ← avl_delete_node r pright_min 0;
              match t with
              | NULL => None
              | AvlNode a' n' v' l' _ h' => Some (AvlNode a' n' v' l' r' h', v)
              end
        | NULL, _ => Some (r, v)
        | _, NULL => Some (l, v)
        end
  end.

(** ** The interface of the set; the set pointer may be null *)

Definition utrans_mr_set_init (pmr_set : option mr_set_t) : option mr_set_t :=
  match pmr_set with Some _ => Some (MrSet NULL 0) | None => None end.

Definition utrans_mr_set_insert (malloc_ok : bool) (pmr_set : option mr_set_t)
    (addr len pitem : Z) : option (option mr_set_t * Z) :=
  match pmr_set with
  | Some s =>
      if (len =? 0) || (pitem =? 0) then Some (pmr_set, -1) else
      '(t, op_fail) ← avl_insert malloc_ok (root s) addr len pitem 0;
      Some (Some (MrSet t (if op_fail =? 0 then size s + 1 else size s)), op_fail)
  | None => Some (pmr_set, -1)
  end.

Definition avl_value (pnode : avl_node) : Z :=
  match pnode with NULL => 0 | AvlNode _ _ v _ _ _ => v end.

Definition utrans_mr_set_find (pmr_set : option mr_set_t) (addr len : Z) : Z :=
  match pmr_set with
  | Some s => if len =? 0 then 0 else avl_value (avl_find (root s) addr len)
  | None => 0
  end.

Definition utrans_mr_set_remove (pmr_set : option mr_set_t) (addr len : Z)
    : option (option mr_set_t * Z) :=
  match pmr_set with
  | Some s =>
      if len =? 0 then Some (pmr_set, 0) else
      match avl_find (root s) addr len with
      | NULL => Some (pmr_set, 0)
      | pnode =>
          '(t, pitem) ← avl_delete_node (root s) pnode 0;
          Some (Some (MrSet t (if pitem =? 0 then size s else size s - 1)), pitem)
      end
  | None => Some (pmr_set, 0)
  end.

(** The result is the returned array ([None] for the null pointer) and
    [*psize], whose value before the call is [psize]. *)
Definition utrans_mr_set_getall (malloc_ok : bool) (pmr_set : option mr_set_t)
    (psize : Z) : option (list Z) * Z :=
  match pmr_set with
  | None => (None, psize)
  | Some s =>
      if 0 <? size s then
        if malloc_ok then
          let items := avl_scan (root s) [] in (Some items, Z.of_nat (length items))
        else (None, size s)
      else (None, psize)
  end.

Definition utrans_mr_set_traverse {S : Type} (pmr_set : option mr_set_t)
    (cb_func : option (Z -> S -> Z * S)) (cb_arg : S) : Z * S :=
  match pmr_set with
  | None => (0, cb_arg)
  | Some s => avl_traverse (root s) true cb_func cb_arg
  end.

Definition utrans_mr_set_getsize (pmr_set : option mr_set_t) : Z :=
  match pmr_set with Some s => size s | None => 0 end.

(** The result is the set, the callback's state and the nodes freed. *)
Definition utrans_mr_set_destroy {S : Type} (pmr_set : option mr_set_t)
    (cb_func : option (Z -> S -> Z * S)) (cb_arg : S)
    : option mr_set_t * S * list Z :=
  match pmr_set with
  | None => (None, cb_arg, [])
  | Some s =>
      let cb_arg' :=
        match cb_func with
        | Some _ => (avl_traverse (root s) false cb_func cb_arg).2
        | None => cb_arg
        end in
      let '(_, freed) := avl_destroy (root s) None [] in
      (Some (MrSet NULL 0), cb_arg', freed)
  end.

(** ** Abstraction: the regions of a tree in address order *)

Record region : Type := Region { r_addr : Z; r_len : Z; r_val : Z }.

#[export] Instance region_eq_dec : EqDecision region.
Proof. solve_decision. Defined.

Fixpoint inorder (t : avl_node) : list region :=
  match t with
  | NULL => []
  | AvlNode a n v l r _ => inorder l ++ Region a n v :: inorder r
  end.

(** A region of positive length whose end is still an address. *)
Definition region_ok (x : region) : Prop :=
  0 <= r_addr x /\ 0 < r_len x /\ r_addr x + r_len x < 2 ^ 64.

Definition before (x y : region) : Prop := r_addr x + r_len x <= r_addr y.

Definition disjoint_regions (x y : region) : Prop := before x y \/ before y x.

Definition contains (y : region) (addr len : Z) : Prop :=
  r_addr y <= addr /\ addr + len <= r_addr y + r_len y.

#[export] Instance region_ok_dec x : Decision (region_ok x).
Proof. unfold region_ok. apply _. Defined.
#[export] Instance before_dec x y : Decision (before x y).
Proof. unfold before. apply _. Defined.
#[export] Instance disjoint_regions_dec x y : Decision (disjoint_regions x y).
Proof. unfold disjoint_regions. apply _. Defined.
#[export] Instance contains_dec y addr len : Decision (contains y addr len).
Proof. unfold contains. apply _. Defined.

(** The specification of insertion on the list of regions. *)
Fixpoint region_insert (x : region) (L : list region) : list region :=
  match L with
  | [] => [x]
  | y :: L' => if decide (before y x) then y :: region_insert x L' else x :: L
  end.

(** The specification of removal on the list of regions. *)
Definition region_remove (addr : Z) (L : list region) : list region :=
  filter (fun y => r_addr y <> addr) L.

(** The representation invariant: the regions are disjoint and in order. *)
Definition regions_ok (L : list region) : Prop :=
  Forall region_ok L /\ StronglySorted before L.

Definition wf (t : avl_node) : Prop := regions_ok (inorder t).

(** The recorded heights bound the heights of the subtrees. *)
Fixpoint heights_ok (t : avl_node) : Prop :=
  match t with
  | NULL => True
  | AvlNode _ _ _ l r h =>
      heights_ok l /\ heights_ok r /\ avl_height l < h /\ avl_height r < h
  end.

(** The AVL invariant: recorded heights are exact and differ by at most 1. *)
Fixpoint avl_ok (t : avl_node) : Prop :=
  match t with
  | NULL => True
  | AvlNode _ _ _ l r h =>
      avl_ok l /\ avl_ok r /\ h = Z.max (avl_height l) (avl_height r) + 1 /\
      -1 <= avl_height l - avl_height r <= 1
  end.

(** The length of the longest path of a tree. *)
Fixpoint depth (t : avl_node) : Z :=
  match t with
  | NULL => 0
  | AvlNode _ _ _ l r _ => Z.max (depth l) (depth r) + 1
  end.

Arguments region_remove : simpl never.
Arguments avl_set_height : simpl never.
Arguments avl_insert_balance_right : simpl never.
Arguments avl_insert_balance_left : simpl never.
Arguments avl_delete_balance_right : simpl never.
Arguments avl_delete_balance_left : simpl never.

(** ** Lemmas: lists of regions *)

Lemma max_spec a b : max a b = Z.max a b.
Proof. unfold max. case_cmp; lia. Qed.

Ltac region_lia := unfold contains, disjoint_regions, before, region_ok in *; cbn in *; lia.

Lemma region_insert_app_left x L1 y L2 :
  ~ before y x -> region_insert x (L1 ++ y :: L2) = region_insert x L1 ++ y :: L2.
Proof.
  intros Hy. induction L1 as [|z L1 IH]; cbn; repeat case_decide; cbn; (done || congruence).
Qed.

Lemma region_insert_app_right x L1 L2 :
  (forall z, z ∈ L1 -> before z x) -> region_insert x (L1 ++ L2) = L1 ++ region_insert x L2.
Proof.
  induction L1 as [|z L1 IH]; cbn; intros H; [done|].
  rewrite decide_True by set_solver. f_equal. apply IH. set_solver.
Qed.

Lemma elem_of_region_insert x L y : y ∈ region_insert x L <-> y = x \/ y ∈ L.
Proof. induction L as [|z L IH]; cbn; [|case_decide]; set_solver. Qed.

Lemma length_region_insert x L : length (region_insert x L) = S (length L).
Proof. induction L as [|z L IH]; cbn; [|case_decide; cbn; rewrite ?IH]; done. Qed.

Lemma regions_ok_middle L1 x L2 :
  regions_ok (L1 ++ x :: L2) <->
  regions_ok L1 /\ regions_ok L2 /\ region_ok x /\
  (forall y, y ∈ L1 -> before y x) /\ (forall y, y ∈ L2 -> before x y).
Proof.
  unfold regions_ok. rewrite StronglySorted_middle, Forall_app, Forall_cons.
  split; [tauto|]. intros ((? & ?) & (? & ?) & ? & Hl & Hr); split_and!; try done.
  intros y z Hy Hz. specialize (Hl _ Hy). specialize (Hr _ Hz). region_lia.
Qed.

Lemma regions_ok_cons x L :
  regions_ok (x :: L) <->
  regions_ok L /\ region_ok x /\ (forall y, y ∈ L -> before x y).
Proof.
  unfold regions_ok. rewrite StronglySorted_cons_iff, Forall_cons, (Forall_forall (before x)).
  tauto.
Qed.

Lemma regions_ok_NoDup L : regions_ok L -> NoDup (map r_addr L).
Proof.
  induction L as [|x L IH]; cbn; [constructor|].
  intros (HL & Hx & Hb)%regions_ok_cons. constructor; [|auto].
  intros (y & E & Hy)%list_elem_of_fmap. specialize (Hb _ Hy). region_lia.
Qed.

Lemma regions_ok_insert x L :
  regions_ok L -> region_ok x -> Forall (disjoint_regions x) L ->
  regions_ok (region_insert x L).
Proof.
  induction L as [|y L IH]; cbn; intros HL Hx Hd.
  - apply regions_ok_cons. set_solver.
  - pose proof HL as (HL' & Hy & Hbef)%regions_ok_cons.
    inversion_clear Hd as [|? ? Hxy Hd'].
    case_decide as Hc; apply regions_ok_cons; (split; [|split]); auto.
    + intros z [->|Hz]%elem_of_region_insert; auto.
    + intros z [->|Hz]%elem_of_cons; [by destruct Hxy|].
      specialize (Hbef _ Hz). region_lia.
Qed.

(** ** Lemmas: rotations *)

Ltac tree_destruct :=
  repeat match goal with
  | H : None = Some _ |- _ => discriminate H
  | H : Some _ = Some _ |- _ => injection H as <-
  | H : context [match ?t with NULL => _ | AvlNode _ _ _ _ _ _ => _ end] |- _ =>
      is_var t; destruct t; cbn in H
  end.

Lemma ll_rotation_inorder t t' : avl_ll_rotation t = Some t' -> inorder t' = inorder t.
Proof.
  unfold avl_ll_rotation. intros. tree_destruct. cbn. by rewrite <-app_assoc.
Qed.

Lemma rr_rotation_inorder t t' : avl_rr_rotation t = Some t' -> inorder t' = inorder t.
Proof.
  unfold avl_rr_rotation. intros. tree_destruct. cbn. by rewrite <-app_assoc.
Qed.

Lemma lr_rotation_inorder t t' : avl_lr_rotation t = Some t' -> inorder t' = inorder t.
Proof.
  unfold avl_lr_rotation. destruct t; [done|]. intros H. bind_inv H.
  apply ll_rotation_inorder in H as ->. cbn. by rewrite (rr_rotation_inorder _ _ E).
Qed.

Lemma rl_rotation_inorder t t' : avl_rl_rotation t = Some t' -> inorder t' = inorder t.
Proof.
  unfold avl_rl_rotation. destruct t; [done|]. intros H. bind_inv H.
  apply rr_rotation_inorder in H as ->. cbn. by rewrite (ll_rotation_inorder _ _ E).
Qed.

Lemma set_height_inorder t t' : avl_set_height t = Some t' -> inorder t' = inorder t.
Proof. destruct t; [done|]. by intros [= <-]. Qed.

#[export] Hint Resolve ll_rotation_inorder rr_rotation_inorder
  lr_rotation_inorder rl_rotation_inorder set_height_inorder : astate.

Lemma insert_balance_right_inorder key t t' :
  avl_insert_balance_right key t = Some t' -> inorder t' = inorder t.
Proof.
  unfold avl_insert_balance_right. destruct t; [done|]. intros H. case_cmp_in H.
  - bind_inv H. case_cmp_in H; eauto with astate.
  - by injection H as <-.
Qed.

Lemma insert_balance_left_inorder key t t' :
  avl_insert_balance_left key t = Some t' -> inorder t' = inorder t.
Proof.
  unfold avl_insert_balance_left. destruct t; [done|]. intros H. case_cmp_in H.
  - bind_inv H. case_cmp_in H; eauto with astate.
  - by injection H as <-.
Qed.

Lemma delete_balance_left_inorder t t' :
  avl_delete_balance_left t = Some t' -> inorder t' = inorder t.
Proof.
  unfold avl_delete_balance_left. destruct t as [|? ? ? l r]; [done|].
  intros H. case_cmp_in H; [|congruence].
  destruct r; [done|]. case_cmp_in H; eauto with astate.
Qed.

Lemma delete_balance_right_inorder t t' :
  avl_delete_balance_right t = Some t' -> inorder t' = inorder t.
Proof.
  unfold avl_delete_balance_right. destruct t as [|? ? ? l r]; [done|].
  intros H. case_cmp_in H; [|congruence].
  destruct l; [done|]. case_cmp_in H; eauto with astate.
Qed.

(** ** Lemmas: insertion *)

Lemma wf_node a n v l r h :
  wf (AvlNode a n v l r h) <->
  wf l /\ wf r /\ region_ok (Region a n v) /\
  (forall y, y ∈ inorder l -> before y (Region a n v)) /\
  (forall y, y ∈ inorder r -> before (Region a n v) y).
Proof. apply regions_ok_middle. Qed.

Lemma region_end x : region_ok x -> u64 (r_addr x + r_len x) = r_addr x + r_len x.
Proof. intros. apply u64_small. unfold in_u64. region_lia. Qed.

(** What an insertion did, read off its result. *)
Definition insert_result (malloc_ok : bool) (x : region) (L L' : list region) (f : Z) : Prop :=
  (f = 0 /\ malloc_ok = true /\ Forall (disjoint_regions x) L /\ L' = region_insert x L) \/
  (f = 1 /\ (malloc_ok = false \/ ~ Forall (disjoint_regions x) L) /\ L' = L).

Lemma insert_result_right m x L1 y L2 L2' f :
  (forall z, z ∈ L1 -> before z y) -> region_ok y -> before y x ->
  insert_result m x L2 L2' f -> insert_result m x (L1 ++ y :: L2) (L1 ++ y :: L2') f.
Proof.
  intros HL1 Hy Hyx.
  assert (H1 : forall z, z ∈ L1 ++ [y] -> before z x).
  { intros z [Hz| ->%list_elem_of_singleton]%elem_of_app; [|done].
    specialize (HL1 _ Hz). region_lia. }
  assert (Hd : Forall (disjoint_regions x) (L1 ++ [y])).
  { apply Forall_forall. intros z Hz. right. auto. }
  rewrite !(cons_middle y), !app_assoc.
  intros [(-> & -> & H & ->)|(-> & H & ->)]; [left|right]; split_and!; try done.
  - apply Forall_app. done.
  - by rewrite region_insert_app_right.
  - rewrite Forall_app. tauto.
Qed.

Lemma insert_result_left m x L1 L1' y L2 f :
  (forall z, z ∈ L2 -> before y z) -> region_ok y -> region_ok x -> before x y ->
  insert_result m x L1 L1' f -> insert_result m x (L1 ++ y :: L2) (L1' ++ y :: L2) f.
Proof.
  intros HL2 Hy Hx Hxy.
  assert (Hd : Forall (disjoint_regions x) (y :: L2)).
  { apply Forall_forall. intros z [->|Hz]%elem_of_cons; left; [done|].
    specialize (HL2 _ Hz). region_lia. }
  intros [(-> & -> & H & ->)|(-> & H & ->)]; [left|right]; split_and!; try done.
  - apply Forall_app. done.
  - rewrite region_insert_app_left; [done|region_lia].
  - rewrite Forall_app. tauto.
Qed.

Lemma avl_insert_inorder m t k n v t' f :
  wf t -> region_ok (Region k n v) -> avl_insert m t k n v 0 = Some (t', f) ->
  insert_result m (Region k n v) (inorder t) (inorder t') f.
Proof.
  intros Ht Hx. revert t' f.
  induction t as [|a n0 v0 l IHl r IHr h]; cbn; intros t' f H.
  - destruct m; cbn in H; injection H as <- <-; [left|right]; split_and!; auto.
  - apply wf_node in Ht as (Hl & Hr & Hy & Hbl & Hbr).
    pose proof (region_end _ Hx) as Ek. pose proof (region_end _ Hy) as Ea. cbn in Ek, Ea.
    rewrite Ea, Ek in H. case_cmp_in H.
    + bind_inv H. destruct p as [r' g]. do 2 bind_inv H. injection H as <- <-.
      apply set_height_inorder in E1 as ->. apply insert_balance_right_inorder in E0 as ->.
      apply insert_result_right; auto.
    + bind_inv H. destruct p as [l' g]. do 2 bind_inv H. injection H as <- <-.
      apply set_height_inorder in E1 as ->. apply insert_balance_left_inorder in E0 as ->.
      apply insert_result_left; auto.
    + injection H as <- <-. right. split_and!; auto. right.
      rewrite Forall_app, Forall_cons. intros (_ & Hd & _). region_lia.
Qed.

(** ** Lemmas: recorded heights *)

Lemma heights_ok_nonneg t : heights_ok t -> 0 <= avl_height t.
Proof. induction t; cbn; [lia|]. intros (Hl & Hr & ? & ?). specialize (IHt1 Hl). lia. Qed.

Lemma heights_ok_depth t : heights_ok t -> depth t <= avl_height t.
Proof.
  induction t; cbn; [lia|]. intros (Hl & Hr & ? & ?). specialize (IHt1 Hl). specialize (IHt2 Hr). lia.
Qed.

Lemma set_height_heights a n v l r h t' :
  heights_ok l -> heights_ok r -> avl_set_height (AvlNode a n v l r h) = Some t' ->
  heights_ok t' /\ avl_height t' = Z.max (avl_height l) (avl_height r) + 1.
Proof. intros ? ? [= <-]. cbn. rewrite max_spec. split_and!; auto; lia. Qed.

Lemma rr_rotation_heights a n v l r h t' :
  heights_ok l -> heights_ok r -> avl_rr_rotation (AvlNode a n v l r h) = Some t' ->
  heights_ok t' /\ avl_height t' <= Z.max (avl_height l + 2) (avl_height r + 1).
Proof.
  cbn. intros. tree_destruct. cbn in *. rewrite !max_spec. destruct_and?. split_and!; auto; lia.
Qed.

Lemma ll_rotation_heights a n v l r h t' :
  heights_ok l -> heights_ok r -> avl_ll_rotation (AvlNode a n v l r h) = Some t' ->
  heights_ok t' /\ avl_height t' <= Z.max (avl_height r + 2) (avl_height l + 1).
Proof.
  cbn. intros. tree_destruct. cbn in *. rewrite !max_spec. destruct_and?. split_and!; auto; lia.
Qed.

Lemma rl_rotation_heights a n v l r h t' :
  heights_ok l -> heights_ok r -> avl_rl_rotation (AvlNode a n v l r h) = Some t' ->
  heights_ok t' /\ avl_height t' <= Z.max (avl_height l + 2) (avl_height r + 1).
Proof.
  cbn. intros ? ? H. destruct r as [|? ? ? [|]]; try discriminate H.
  injection H as <-. cbn in *. rewrite !max_spec. destruct_and?. split_and!; auto; lia.
Qed.

Lemma lr_rotation_heights a n v l r h t' :
  heights_ok l -> heights_ok r -> avl_lr_rotation (AvlNode a n v l r h) = Some t' ->
  heights_ok t' /\ avl_height t' <= Z.max (avl_height r + 2) (avl_height l + 1).
Proof.
  cbn. intros ? ? H. destruct l as [|? ? ? ? [|]]; try discriminate H.
  injection H as <-. cbn in *. rewrite !max_spec. destruct_and?. split_and!; auto; lia.
Qed.

Lemma insert_balance_right_heights key a n v l r h t t' :
  heights_ok l -> heights_ok r ->
  avl_insert_balance_right key (AvlNode a n v l r h) = Some t -> avl_set_height t = Some t' ->
  heights_ok t' /\ avl_height t' <= Z.max (avl_height l) (avl_height r) + 1.
Proof.
  intros Hl Hr H Hs. unfold avl_insert_balance_right in H. case_cmp_in H.
  - bind_inv H.
    assert (heights_ok t /\ avl_height t <= Z.max (avl_height l + 2) (avl_height r + 1))
      as [Ht Hh] by (case_cmp_in H; eauto using rr_rotation_heights, rl_rotation_heights).
    destruct t as [|a' n' v' l' r' h']; [done|]. destruct Ht as (? & ? & ? & ?).
    apply set_height_heights in Hs as [? ->]; [|done..]. cbn in Hh. split; [done|lia].
  - injection H as <-. apply set_height_heights in Hs as [? ->]; auto. split; [done|lia].
Qed.

Lemma insert_balance_left_heights key a n v l r h t t' :
  heights_ok l -> heights_ok r ->
  avl_insert_balance_left key (AvlNode a n v l r h) = Some t -> avl_set_height t = Some t' ->
  heights_ok t' /\ avl_height t' <= Z.max (avl_height l) (avl_height r) + 1.
Proof.
  intros Hl Hr H Hs. unfold avl_insert_balance_left in H. case_cmp_in H.
  - bind_inv H.
    assert (heights_ok t /\ avl_height t <= Z.max (avl_height r + 2) (avl_height l + 1))
      as [Ht Hh] by (case_cmp_in H; eauto using ll_rotation_heights, lr_rotation_heights).
    destruct t as [|a' n' v' l' r' h']; [done|]. destruct Ht as (? & ? & ? & ?).
    apply set_height_heights in Hs as [? ->]; [|done..]. cbn in Hh. split; [done|lia].
  - injection H as <-. apply set_height_heights in Hs as [? ->]; auto. split; [done|lia].
Qed.

(** An insertion keeps the recorded heights above those of the subtrees and
    raises the root's by at most one. *)
Lemma avl_insert_heights m t k n v t' f :
  heights_ok t -> avl_insert m t k n v 0 = Some (t', f) ->
  heights_ok t' /\ avl_height t' <= avl_height t + 1.
Proof.
  revert t' f. induction t as [|a n0 v0 l IHl r IHr h]; cbn; intros t' f Ht H.
  - destruct m; cbn in H; injection H as <- <-; cbn; rewrite ?max_spec; split_and!; auto; lia.
  - destruct Ht as (Hl & Hr & Hhl & Hhr). case_cmp_in H.
    + bind_inv H. destruct p as [r' g]. do 2 bind_inv H. injection H as <- <-.
      destruct (IHr _ _ Hr eq_refl) as [Hr' ?].
      destruct (insert_balance_right_heights _ _ _ _ _ _ _ _ _ Hl Hr' E0 E1). split; [done|lia].
    + bind_inv H. destruct p as [l' g]. do 2 bind_inv H. injection H as <- <-.
      destruct (IHl _ _ Hl eq_refl) as [Hl' ?].
      destruct (insert_balance_left_heights _ _ _ _ _ _ _ _ _ Hl' Hr E0 E1). split; [done|lia].
    + injection H as <- <-. cbn. split; [done|lia].
Qed.

(** ** Lemmas: a successful insertion never dereferences a null pointer *)

(** The root of the tree after inserting [k]: on the side of [k] there is a
    child, unless the tree is the new node alone. *)
Definition grown (k : Z) (t : avl_node) : Prop :=
  match t with
  | NULL => False
  | AvlNode a _ _ l r h =>
      (k <= a -> l <> NULL \/ h = 1) /\ (a <= k -> r <> NULL \/ h = 1)
  end.

Lemma insert_balance_right_grown k a n v l r h :
  heights_ok l -> grown k r -> a < k ->
  exists t t', avl_insert_balance_right k (AvlNode a n v l r h) = Some t /\
    avl_set_height t = Some t' /\ grown k t'.
Proof.
  intros Hl Hr Ha. pose proof (heights_ok_nonneg _ Hl).
  destruct r as [|ra rn rv rl rr rh]; [done|]. destruct Hr as [Hr1 Hr2].
  unfold avl_insert_balance_right. cbn. destruct (Z.eqb_spec (rh - avl_height l) 2); cbn; [case_cmp|].
  - do 2 eexists. split_and!; try reflexivity; cbn; split; intros; [by left|].
    destruct Hr2; [lia|by left|cbn in *; lia].
  - destruct rl as [|b bn bv bl br bh]; [destruct Hr1; [lia|done|lia]|].
    do 2 eexists. split_and!; try reflexivity; cbn; split; by left.
  - do 2 eexists. split_and!; try reflexivity; cbn; split; intros; [lia|by left].
Qed.

Lemma insert_balance_left_grown k a n v l r h :
  heights_ok r -> grown k l -> k < a ->
  exists t t', avl_insert_balance_left k (AvlNode a n v l r h) = Some t /\
    avl_set_height t = Some t' /\ grown k t'.
Proof.
  intros Hr Hl Ha. pose proof (heights_ok_nonneg _ Hr).
  destruct l as [|la ln lv ll lr lh]; [done|]. destruct Hl as [Hl1 Hl2].
  unfold avl_insert_balance_left. cbn. destruct (Z.eqb_spec (lh - avl_height r) 2); cbn; [case_cmp|].
  - do 2 eexists. split_and!; try reflexivity; cbn; split; intros; [|by left].
    destruct Hl1; [lia|by left|cbn in *; lia].
  - destruct lr as [|b bn bv bl br bh]; [destruct Hl2; [lia|done|lia]|].
    do 2 eexists. split_and!; try reflexivity; cbn; split; by left.
  - do 2 eexists. split_and!; try reflexivity; cbn; split; intros; [by left|lia].
Qed.

Lemma avl_insert_total t k n v :
  wf t -> heights_ok t -> region_ok (Region k n v) ->
  Forall (disjoint_regions (Region k n v)) (inorder t) ->
  exists t', avl_insert true t k n v 0 = Some (t', 0) /\ grown k t'.
Proof.
  intros Ht Hh Hx. revert Ht Hh.
  induction t as [|a n0 v0 l IHl r IHr h]; cbn; intros Ht Hh Hd.
  - eexists. split; [reflexivity|]. by split; right.
  - apply wf_node in Ht as (Hl & Hr & Hy & Hbl & Hbr). destruct Hh as (Hhl & Hhr & _ & _).
    pose proof (region_end _ Hx) as Ek. pose proof (region_end _ Hy) as Ea. cbn in Ek, Ea.
    apply Forall_app in Hd as [Hdl [Hd Hdr]%Forall_cons]. rewrite Ea, Ek. case_cmp.
    + destruct (IHr Hr Hhr Hdr) as (r' & -> & Hg). cbn.
      destruct (insert_balance_right_grown k a n0 v0 l r' h) as (t1 & t2 & -> & Ht & ?);
        [done..|region_lia|]. cbn. rewrite Ht. cbn. eauto.
    + destruct (IHl Hl Hhl Hdl) as (l' & -> & Hg). cbn.
      destruct (insert_balance_left_grown k a n0 v0 l' r h) as (t1 & t2 & -> & Ht & ?);
        [done..|region_lia|]. cbn. rewrite Ht. cbn. eauto.
    + exfalso. region_lia.
Qed.

(** ** Lemmas: the AVL balance *)

Lemma avl_ok_heights t : avl_ok t -> heights_ok t.
Proof. induction t; cbn; [done|]. intros (? & ? & ? & ?). split_and!; auto; lia. Qed.

Lemma avl_ok_nonneg t : avl_ok t -> 0 <= avl_height t.
Proof. intros. by apply heights_ok_nonneg, avl_ok_heights. Qed.

Lemma avl_ok_depth t : avl_ok t -> depth t = avl_height t.
Proof.
  induction t; cbn; [done|]. intros (Hl & Hr & -> & _). by rewrite IHt1, IHt2.
Qed.

(** The taller subtree of [t] is the one that holds [k]. *)
Definition heavier (k : Z) (t : avl_node) : Prop :=
  match t with
  | NULL => False
  | AvlNode a _ _ l r _ =>
      (a < k /\ avl_height r = avl_height l + 1) \/
      (k < a /\ avl_height l = avl_height r + 1)
  end.

Definition grew (k : Z) (t t' : avl_node) : Prop :=
  avl_height t' = avl_height t \/
  (avl_height t' = avl_height t + 1 /\ (t = NULL \/ heavier k t')).

(** The two results of a rebalancing, and the arithmetic of their heights. *)
Ltac avl_witness :=
  do 2 eexists; split; [reflexivity|]; split; [reflexivity|]; split.
Ltac avl_lia :=
  cbn; rewrite ?max_spec; repeat match goal with |- _ /\ _ => split end; auto; lia.

Lemma insert_balance_right_avl k a n v l r r' h :
  avl_ok (AvlNode a n v l r h) -> avl_ok r' -> grew k r r' -> a < k ->
  exists t t', avl_insert_balance_right k (AvlNode a n v l r' h) = Some t /\
    avl_set_height t = Some t' /\ avl_ok t' /\ grew k (AvlNode a n v l r h) t'.
Proof.
  intros (Hl & Hr & Hh & Hb) Hr' Hg Ha. pose proof (avl_ok_nonneg _ Hl).
  unfold avl_insert_balance_right. destruct (Z.eqb_spec (avl_height r' - avl_height l) 2).
  - destruct Hg as [?|[? [->|Hv]]]; [lia|cbn in *; lia|].
    destruct r' as [|ra rn rv rl rr rh]; [done|]. cbn in *. destruct Hr' as (? & ? & ? & ?).
    case_cmp.
    + avl_witness; [avl_lia|]. left; avl_lia.
    + destruct rl as [|b bn bv bl br bh]; cbn in *; [pose proof (avl_ok_nonneg rr); lia|].
      destruct_and?.
      avl_witness; [avl_lia|]. left; avl_lia.
  - avl_witness; [unfold grew in *; avl_lia|]. unfold grew in *. cbn. rewrite max_spec. lia.
Qed.

Lemma insert_balance_left_avl k a n v l l' r h :
  avl_ok (AvlNode a n v l r h) -> avl_ok l' -> grew k l l' -> k < a ->
  exists t t', avl_insert_balance_left k (AvlNode a n v l' r h) = Some t /\
    avl_set_height t = Some t' /\ avl_ok t' /\ grew k (AvlNode a n v l r h) t'.
Proof.
  intros (Hl & Hr & Hh & Hb) Hl' Hg Ha. pose proof (avl_ok_nonneg _ Hr).
  unfold avl_insert_balance_left. destruct (Z.eqb_spec (avl_height l' - avl_height r) 2).
  - destruct Hg as [?|[? [->|Hv]]]; [lia|cbn in *; lia|].
    destruct l' as [|la ln lv ll lr lh]; [done|]. cbn in *. destruct Hl' as (? & ? & ? & ?).
    case_cmp.
    + avl_witness; [avl_lia|]. left; avl_lia.
    + destruct lr as [|b bn bv bl br bh]; cbn in *; [pose proof (avl_ok_nonneg ll); lia|].
      destruct_and?.
      avl_witness; [avl_lia|]. left; avl_lia.
  - avl_witness; [unfold grew in *; avl_lia|]. unfold grew in *. cbn. rewrite max_spec. lia.
Qed.

(** A failed insertion into a balanced tree recomputes the heights it finds. *)
Lemma insert_balance_same k a n v l r h :
  avl_ok (AvlNode a n v l r h) ->
  avl_insert_balance_right k (AvlNode a n v l r h) = Some (AvlNode a n v l r h) /\
  avl_insert_balance_left k (AvlNode a n v l r h) = Some (AvlNode a n v l r h) /\
  avl_set_height (AvlNode a n v l r h) = Some (AvlNode a n v l r h).
Proof.
  intros (Hl & Hr & Hh & Hb).
  unfold avl_insert_balance_right, avl_insert_balance_left, avl_set_height.
  rewrite max_spec, <-Hh. case_cmp; try lia. auto.
Qed.

Lemma avl_insert_avl m t k n v :
  wf t -> avl_ok t -> region_ok (Region k n v) ->
  exists t' f, avl_insert m t k n v 0 = Some (t', f) /\ avl_ok t' /\
    (f = 1 /\ t' = t \/ f = 0 /\ grew k t t').
Proof.
  intros Ht Hok Hx. revert Ht Hok.
  induction t as [|a n0 v0 l IHl r IHr h]; intros Ht Hok; cbn.
  - destruct m; do 2 eexists; (split; [reflexivity|]); cbn; [|auto].
    split; [|right; split; [done|right; auto]]. split_and!; auto; rewrite ?max_spec; lia.
  - apply wf_node in Ht as (Hl & Hr & Hy & Hbl & Hbr).
    pose proof Hok as (Hol & Hor & _ & _).
    destruct (insert_balance_same k _ _ _ _ _ _ Hok) as (Es1 & Es2 & Es3).
    pose proof (region_end _ Hx) as Ek. pose proof (region_end _ Hy) as Ea. cbn in Ek, Ea.
    rewrite Ea, Ek. case_cmp.
    + destruct (IHr Hr Hor) as (r' & f & -> & Hr' & [[-> ->]|[-> Hg]]); cbn.
      * rewrite Es1; cbn; rewrite Es3; cbn. do 2 eexists. split; [reflexivity|auto].
      * destruct (insert_balance_right_avl k a n0 v0 l r r' h) as (t1 & t2 & -> & Ht & ? & ?);
          [done..|region_lia|]. cbn. rewrite Ht. cbn. do 2 eexists. split; [reflexivity|auto].
    + destruct (IHl Hl Hol) as (l' & f & -> & Hl' & [[-> ->]|[-> Hg]]); cbn.
      * rewrite Es2; cbn; rewrite Es3; cbn. do 2 eexists. split; [reflexivity|auto].
      * destruct (insert_balance_left_avl k a n0 v0 l l' r h) as (t1 & t2 & -> & Ht & ? & ?);
          [done..|region_lia|]. cbn. rewrite Ht. cbn. do 2 eexists. split; [reflexivity|auto].
    + do 2 eexists. split; [reflexivity|]. auto.
Qed.

(** A balanced tree of [n] regions has depth at most [2 * log2 (n + 1)]. *)
Lemma avl_ok_size t :
  avl_ok t -> 2 ^ avl_height t <= (Z.of_nat (length (inorder t)) + 1) ^ 2.
Proof.
  induction t as [|a n v l IHl r IHr h]; cbn [inorder avl_height avl_ok]; [done|].
  intros (Hl & Hr & -> & Hb). specialize (IHl Hl). specialize (IHr Hr).
  pose proof (avl_ok_nonneg _ Hl). pose proof (avl_ok_nonneg _ Hr).
  rewrite length_app. cbn [length]. rewrite Nat2Z.inj_add, Nat2Z.inj_succ.
  set (A := Z.of_nat (length (inorder l))) in *. set (B := Z.of_nat (length (inorder r))) in *.
  assert (0 <= A /\ 0 <= B) as [? ?] by lia.
  assert (Hbal : avl_height l = avl_height r \/ avl_height l = avl_height r + 1 \/
    avl_height r = avl_height l + 1) by lia.
  rewrite !Z.pow_2_r in *.
  destruct Hbal as [E|[E|E]]; rewrite E in *.
  - rewrite Z.max_id, Z.pow_add_r by lia. nia.
  - rewrite Z.max_l, !Z.pow_add_r in * by lia. change (2 ^ 1) with 2 in *. nia.
  - rewrite Z.max_r, !Z.pow_add_r in * by lia. change (2 ^ 1) with 2 in *. nia.
Qed.

(** ** Lemmas: lookup *)

Lemma avl_find_found t addr len :
  wf t -> region_ok (Region addr len 0) ->
  match avl_find t addr len with
  | NULL => forall y, y ∈ inorder t -> ~ contains y addr len
  | AvlNode a n v _ _ _ => Region a n v ∈ inorder t /\ contains (Region a n v) addr len
  end.
Proof.
  intros Ht Hx. induction t as [|a n v l IHl r IHr h]; cbn; [set_solver|].
  apply wf_node in Ht as (Hl & Hr & Hy & Hbl & Hbr).
  pose proof (region_end _ Hx) as Ek. pose proof (region_end _ Hy) as Ea. cbn in Ek, Ea.
  specialize (IHl Hl). specialize (IHr Hr).
  rewrite Ea, Ek. destruct (Z.leb_spec (addr + len) a); [|destruct (Z.leb_spec (a + n) addr)].
  - destruct (avl_find l addr len); [|set_solver].
    intros y [Hyl|[->|Hyr]%elem_of_cons]%elem_of_app; [auto|region_lia|].
    specialize (Hbr _ Hyr). region_lia.
  - destruct (avl_find r addr len); [|set_solver].
    intros y [Hyl|[->|Hyr]%elem_of_cons]%elem_of_app; [|region_lia|auto].
    specialize (Hbl _ Hyl). region_lia.
  - destruct (Z.leb_spec a addr), (Z.leb_spec (addr + len) (a + n)); cbn;
      [split; [set_solver|region_lia]| | |];
      (intros y [Hyl|[->|Hyr]%elem_of_cons]%elem_of_app;
        [specialize (Hbl _ Hyl)| |specialize (Hbr _ Hyr)]; region_lia).
Qed.

(** At most one region of a well-formed list contains a given address. *)
Lemma contains_unique L x y addr len :
  regions_ok L -> 0 < len -> x ∈ L -> y ∈ L ->
  contains x addr len -> contains y addr len -> x = y.
Proof.
  intros HL Hlen. induction L as [|z L IH]; [set_solver|].
  apply regions_ok_cons in HL as (HL & Hz & Hb).
  intros [->|Hx]%elem_of_cons [->|Hy]%elem_of_cons Hcx Hcy; auto;
    [specialize (Hb _ Hy)|specialize (Hb _ Hx)]; region_lia.
Qed.

(** ** Lemmas: deletion *)

Lemma region_remove_app k L1 L2 :
  region_remove k (L1 ++ L2) = region_remove k L1 ++ region_remove k L2.
Proof. apply filter_app. Qed.

Lemma region_remove_cons_ne k y L :
  r_addr y <> k -> region_remove k (y :: L) = y :: region_remove k L.
Proof. intros. unfold region_remove. by rewrite filter_cons_True. Qed.

Lemma region_remove_cons_eq y L : region_remove (r_addr y) (y :: L) = region_remove (r_addr y) L.
Proof. unfold region_remove. rewrite filter_cons_False; [done|]. by intros []. Qed.

Lemma region_remove_id k L : (forall y, y ∈ L -> r_addr y <> k) -> region_remove k L = L.
Proof.
  induction L as [|y L IH]; intros H; [done|].
  rewrite region_remove_cons_ne, IH; [done|set_solver..].
Qed.

Lemma before_addr x y : region_ok x -> before x y -> r_addr x < r_addr y.
Proof. region_lia. Qed.

Lemma regions_ok_elem L y : regions_ok L -> y ∈ L -> region_ok y.
Proof. intros [H _] Hy. by apply (Forall_forall region_ok L). Qed.

Lemma wf_left_addr a n v l r h y :
  wf (AvlNode a n v l r h) -> y ∈ inorder l -> r_addr y < a.
Proof.
  intros (Hl & _ & _ & Hb & _)%wf_node Hy.
  apply (before_addr y (Region a n v)); eauto using regions_ok_elem.
Qed.

Lemma wf_right_addr a n v l r h y :
  wf (AvlNode a n v l r h) -> y ∈ inorder r -> a < r_addr y.
Proof.
  intros (_ & _ & Hx & _ & Hb)%wf_node Hy. apply (before_addr (Region a n v)); auto.
Qed.

Lemma avl_max_last t :
  t <> NULL -> exists L a n v l r h,
    avl_max t = AvlNode a n v l r h /\ inorder t = L ++ [Region a n v].
Proof.
  induction t as [|a n v l IHl r IHr h]; [done|]. intros _.
  destruct r as [|ra rn rv rl rr rh].
  - exists (inorder l). repeat eexists.
  - destruct IHr as (L & b & bn & bv & bl & br & bh & E1 & E2); [done|].
    exists (inorder l ++ Region a n v :: L), b, bn, bv, bl, br, bh. split; [done|].
    cbn [inorder] in *. rewrite E2. by rewrite <-app_assoc.
Qed.

Lemma avl_min_first t :
  t <> NULL -> exists L a n v l r h,
    avl_min t = AvlNode a n v l r h /\ inorder t = Region a n v :: L.
Proof.
  induction t as [|a n v l IHl r IHr h]; [done|]. intros _.
  destruct l as [|la ln lv ll lr lh].
  - exists (inorder r). repeat eexists.
  - destruct IHl as (L & b & bn & bv & bl & br & bh & E1 & E2); [done|].
    exists (L ++ Region a n v :: inorder r), b, bn, bv, bl, br, bh. split; [done|].
    cbn [inorder] in *. by rewrite E2.
Qed.

Lemma delete_balance_left_heights a n v l r h :
  heights_ok (AvlNode a n v l r h) ->
  exists t, avl_delete_balance_left (AvlNode a n v l r h) = Some t /\
    heights_ok t /\ avl_height t <= h.
Proof.
  intros Hh. pose proof Hh as (Hl & Hr & ? & ?). unfold avl_delete_balance_left. cbn.
  pose proof (heights_ok_nonneg _ Hl).
  destruct (Z.eqb_spec (avl_height r - avl_height l) 2); [|eexists; split; [done|cbn; split; [done|lia]]].
  destruct r as [|ra rn rv rl rr rh]; [cbn in *; lia|].
  destruct (Z.ltb_spec (avl_height rr) (avl_height rl)).
  - destruct (avl_rl_rotation (AvlNode a n v l (AvlNode ra rn rv rl rr rh) h)) as [t|] eqn:E.
    + exists t. split; [done|]. apply rl_rotation_heights in E as [? ?]; auto. cbn in *. split; [done|lia].
    + destruct rl; [|done]. destruct Hr as (_ & Hrr & _).
      apply heights_ok_nonneg in Hrr. cbn in *. lia.
  - eexists. split; [reflexivity|].
    edestruct (rr_rotation_heights a n v l (AvlNode ra rn rv rl rr rh) h) as [? ?]; [done..|].
    cbn in *. split; [done|lia].
Qed.

Lemma delete_balance_right_heights a n v l r h :
  heights_ok (AvlNode a n v l r h) ->
  exists t, avl_delete_balance_right (AvlNode a n v l r h) = Some t /\
    heights_ok t /\ avl_height t <= h.
Proof.
  intros Hh. pose proof Hh as (Hl & Hr & ? & ?). unfold avl_delete_balance_right. cbn.
  pose proof (heights_ok_nonneg _ Hr).
  destruct (Z.eqb_spec (avl_height l - avl_height r) 2); [|eexists; split; [done|cbn; split; [done|lia]]].
  destruct l as [|la ln lv ll lr lh]; [cbn in *; lia|].
  destruct (Z.ltb_spec (avl_height ll) (avl_height lr)).
  - destruct (avl_lr_rotation (AvlNode a n v (AvlNode la ln lv ll lr lh) r h)) as [t|] eqn:E.
    + exists t. split; [done|]. apply lr_rotation_heights in E as [? ?]; auto. cbn in *. split; [done|lia].
    + destruct lr; [|done]. destruct Hl as (Hll & _ & _).
      apply heights_ok_nonneg in Hll. cbn in *. lia.
  - eexists. split; [reflexivity|].
    edestruct (ll_rotation_heights a n v (AvlNode la ln lv ll lr lh) r h) as [? ?]; [done..|].
    cbn in *. split; [done|lia].
Qed.

(** What a deletion of the node at address [k] does. *)
Definition delete_result (k : Z) (t : avl_node) (res : option (avl_node * Z)) : Prop :=
  exists t' x, res = Some (t', x) /\ heights_ok t' /\ avl_height t' <= avl_height t /\
    inorder t' = region_remove k (inorder t) /\
    (forall n v, Region k n v ∈ inorder t -> x = v).

(** Removing the key of the root leaves the regions of the two subtrees. *)
Lemma region_remove_root a n v l r h :
  wf (AvlNode a n v l r h) ->
  region_remove a (inorder (AvlNode a n v l r h)) = inorder l ++ inorder r.
Proof.
  intros Ht. cbn. rewrite region_remove_app, (region_remove_cons_eq (Region a n v)).
  f_equal; apply region_remove_id; intros y Hy;
    [apply (wf_left_addr _ _ _ _ _ _ _ Ht) in Hy|apply (wf_right_addr _ _ _ _ _ _ _ Ht) in Hy];
    cbn in *; lia.
Qed.

Lemma root_value a n v l r h n' v' :
  wf (AvlNode a n v l r h) -> Region a n' v' ∈ inorder (AvlNode a n v l r h) -> v = v'.
Proof.
  intros Ht [Hy|[E|Hy]%elem_of_cons]%elem_of_app; [|by injection E|];
    [apply (wf_left_addr _ _ _ _ _ _ _ Ht) in Hy|apply (wf_right_addr _ _ _ _ _ _ _ Ht) in Hy];
    cbn in *; lia.
Qed.

Lemma delete_root_left a n v l r h :
  wf (AvlNode a n v l r h) -> heights_ok (AvlNode a n v l r h) -> l <> NULL ->
  (forall k kn kv kl kr kh p, delete_result k l (avl_delete_node l (AvlNode k kn kv kl kr kh) p)) ->
  delete_result a (AvlNode a n v l r h)
    (t ← avl_copy (AvlNode a n v l r h) (avl_max l);
     '(l', _) ← avl_delete_node l (avl_max l) 0;
     match t with
     | NULL => None
     | AvlNode a' n' v' _ r' h' => Some (AvlNode a' n' v' l' r' h', v)
     end).
Proof.
  intros Ht (Hl & Hr & ? & ?) Hne IH.
  destruct (avl_max_last l Hne) as (L & b & bn & bv & bl & br & bh & E1 & E2).
  destruct (IH b bn bv bl br bh 0) as (l' & x & E & Hl' & Hh & Hi & _).
  rewrite E1; cbn. rewrite E; cbn. do 2 eexists. split; [reflexivity|].
  split; [cbn; split_and!; auto; lia|]. split; [cbn; lia|].
  split; [|intros; by eapply root_value].
  rewrite region_remove_root by done. cbn. rewrite Hi, E2.
  pose proof Ht as (Hwl & _)%wf_node. unfold wf in Hwl. rewrite E2 in Hwl.
  apply regions_ok_middle in Hwl as (HL & _ & Hb & Hbef & _).
  rewrite region_remove_app, (region_remove_cons_eq (Region b bn bv)), region_remove_id.
  - cbn. by rewrite app_nil_r, <-app_assoc.
  - intros y Hy. pose proof (before_addr y _ (regions_ok_elem _ _ HL Hy) (Hbef _ Hy)).
    cbn in *. lia.
Qed.

Lemma delete_root_right a n v l r h :
  wf (AvlNode a n v l r h) -> heights_ok (AvlNode a n v l r h) -> r <> NULL ->
  (forall k kn kv kl kr kh p, delete_result k r (avl_delete_node r (AvlNode k kn kv kl kr kh) p)) ->
  delete_result a (AvlNode a n v l r h)
    (t ← avl_copy (AvlNode a n v l r h) (avl_min r);
     '(r', _) ← avl_delete_node r (avl_min r) 0;
     match t with
     | NULL => None
     | AvlNode a' n' v' l' _ h' => Some (AvlNode a' n' v' l' r' h', v)
     end).
Proof.
  intros Ht (Hl & Hr & ? & ?) Hne IH.
  destruct (avl_min_first r Hne) as (L & b & bn & bv & bl & br & bh & E1 & E2).
  destruct (IH b bn bv bl br bh 0) as (r' & x & E & Hr' & Hh & Hi & _).
  rewrite E1; cbn. rewrite E; cbn. do 2 eexists. split; [reflexivity|].
  split; [cbn; split_and!; auto; lia|]. split; [cbn; lia|].
  split; [|intros; by eapply root_value].
  rewrite region_remove_root by done. cbn. rewrite Hi, E2.
  pose proof Ht as (_ & Hwr & _)%wf_node. unfold wf in Hwr. rewrite E2 in Hwr.
  apply regions_ok_cons in Hwr as (HL & Hb & Hbef).
  rewrite (region_remove_cons_eq (Region b bn bv)), region_remove_id; [done|].
  intros y Hy. pose proof (before_addr _ y Hb (Hbef _ Hy)). cbn in *. lia.
Qed.

Lemma avl_delete_spec t k kn kv kl kr kh p :
  wf t -> heights_ok t -> delete_result k t (avl_delete_node t (AvlNode k kn kv kl kr kh) p).
Proof.
  intros Ht Hh. revert k kn kv kl kr kh p.
  induction t as [|a n v l IHl r IHr h]; intros.
  { exists NULL, p. split_and!; auto; set_solver. }
  pose proof Ht as (Hl & Hr & Hy & _ & _)%wf_node. pose proof Hh as (Hhl & Hhr & ? & ?).
  specialize (IHl Hl Hhl). specialize (IHr Hr Hhr).
  cbn [avl_delete_node]. destruct (Z.ltb_spec k a); [|destruct (Z.ltb_spec a k)].
  - destruct (IHl k kn kv kl kr kh p) as (l' & x & -> & Hl' & Hhl' & Hi & Hv). cbn.
    destruct (delete_balance_left_heights a n v l' r h) as (t & E & Hot & Hht);
      [cbn; split_and!; auto; lia|].
    rewrite E. exists t, x. split_and!; auto.
    + rewrite (delete_balance_left_inorder _ _ E). cbn. rewrite Hi, region_remove_app.
      rewrite (region_remove_id k (_ :: _)); [done|].
      intros y [->|Hyr]%elem_of_cons; [cbn; lia|]. apply (wf_right_addr _ _ _ _ _ _ _ Ht) in Hyr; lia.
    + intros n' v' [Hyl|[E'|Hyr]%elem_of_cons]%elem_of_app;
        [eauto|injection E'; lia|].
      apply (wf_right_addr _ _ _ _ _ _ _ Ht) in Hyr; cbn in *; lia.
  - destruct (IHr k kn kv kl kr kh p) as (r' & x & -> & Hr' & Hhr' & Hi & Hv). cbn.
    destruct (delete_balance_right_heights a n v l r' h) as (t & E & Hot & Hht);
      [cbn; split_and!; auto; lia|].
    rewrite E. exists t, x. split_and!; auto.
    + rewrite (delete_balance_right_inorder _ _ E). cbn.
      rewrite Hi, region_remove_app, region_remove_cons_ne by (cbn; lia).
      rewrite (region_remove_id k (inorder l)); [done|].
      intros y Hyl. apply (wf_left_addr _ _ _ _ _ _ _ Ht) in Hyl; lia.
    + intros n' v' [Hyl|[E'|Hyr]%elem_of_cons]%elem_of_app;
        [|injection E'; lia|eauto].
      apply (wf_left_addr _ _ _ _ _ _ _ Ht) in Hyl; cbn in *; lia.
  - assert (k = a) as -> by lia.
    destruct l as [|la ln lv ll lr lh] eqn:El; [|destruct r as [|ra rn rv rl rr rh] eqn:Er].
    + exists r, v. split_and!; auto; [cbn; lia|by rewrite region_remove_root|].
      intros; by eapply root_value.
    + rewrite <-El in *. exists l, v. split_and!; auto; [cbn; lia| |intros; by eapply root_value].
      rewrite region_remove_root by done. cbn. by rewrite app_nil_r.
    + rewrite <-El, <-Er in *. destruct (Z.ltb_spec (avl_height r) (avl_height l)).
      * apply delete_root_left; [done|done|by subst|auto].
      * apply delete_root_right; [done|done|by subst|auto].
Qed.

(** ** Lemmas: traversals *)

(** The calls a traversal makes, as a loop over the values in address order. *)
Fixpoint run_cb {S : Type} (judge : bool) (cb : Z -> S -> Z * S) (vs : list Z) (s : S) : Z * S :=
  match vs with
  | [] => (0, s)
  | v :: vs' =>
      let '(ret, s') := cb v s in
      if judge && negb (ret =? 0) then (ret, s') else run_cb judge cb vs' s'
  end.

Lemma run_cb_app {S} judge (cb : Z -> S -> Z * S) vs ws s :
  run_cb judge cb (vs ++ ws) s =
  let '(ret, s') := run_cb judge cb vs s in
  if judge && negb (ret =? 0) then (ret, s') else run_cb judge cb ws s'.
Proof.
  revert s. induction vs as [|v vs IH]; intros s; cbn.
  - by rewrite andb_false_r.
  - destruct (cb v s) as [ret s']. destruct (judge && negb (ret =? 0)) eqn:E; [by rewrite E|done].
Qed.

Lemma run_cb_ret {S} judge (cb : Z -> S -> Z * S) vs s :
  judge = false -> (run_cb judge cb vs s).1 = 0.
Proof.
  intros ->. revert s. induction vs as [|v vs IH]; intros s; cbn; [done|].
  by destruct (cb v s).
Qed.

Lemma avl_traverse_run {S} t judge (cb : Z -> S -> Z * S) s :
  avl_traverse t judge (Some cb) s = run_cb judge cb (map r_val (inorder t)) s.
Proof.
  revert s. induction t as [|a n v l IHl r IHr h]; intros s; cbn; [done|].
  rewrite map_app, run_cb_app, IHl. destruct (run_cb judge cb (map r_val (inorder l)) s) as [r1 s1].
  destruct (judge && negb (r1 =? 0)) eqn:E1; [done|]. cbn.
  destruct (cb v s1) as [r2 s2]. destruct (judge && negb (r2 =? 0)) eqn:E2; [done|].
  rewrite IHr. pose proof (run_cb_ret judge cb (map r_val (inorder r)) s2) as Hz.
  destruct (run_cb judge cb (map r_val (inorder r)) s2) as [r3 s3]. cbn in Hz.
  destruct judge; cbn; [|by rewrite Hz]. destruct (Z.eqb_spec r3 0) as [->|]; done.
Qed.

Lemma avl_scan_inorder t items : avl_scan t items = items ++ map r_val (inorder t).
Proof.
  revert items. induction t as [|a n v l IHl r IHr h]; intros items; cbn.
  - by rewrite app_nil_r.
  - by rewrite IHr, IHl, map_app, <-!app_assoc.
Qed.

Lemma avl_destroy_freed t items freed :
  (avl_destroy t items freed).2 ≡ₚ freed ++ map r_addr (inorder t).
Proof.
  revert items freed. induction t as [|a n v l IHl r IHr h]; intros items freed; cbn.
  - by rewrite app_nil_r.
  - specialize (IHl items freed). destruct (avl_destroy l items freed) as [i1 f1].
    specialize (IHr i1 f1). destruct (avl_destroy r i1 f1) as [i2 f2]. cbn in *.
    rewrite IHr, IHl, map_app. cbn. solve_Permutation.
Qed.

Lemma region_remove_insert x L :
  region_ok x -> Forall region_ok L -> Forall (disjoint_regions x) L ->
  region_remove (r_addr x) (region_insert x L) = L.
Proof.
  intros Hx HL Hd.
  assert (Hne : forall y, y ∈ L -> r_addr y <> r_addr x).
  { rewrite Forall_forall in HL, Hd. intros y Hy. specialize (HL _ Hy). specialize (Hd _ Hy).
    region_lia. }
  clear HL Hd. induction L as [|y L IH]; cbn.
  - by rewrite region_remove_cons_eq.
  - case_decide.
    + rewrite region_remove_cons_ne, IH by set_solver. done.
    + rewrite region_remove_cons_eq. by apply region_remove_id.
Qed.

(** ** The invariant of the set and its operations *)

Definition regions (s : mr_set_t) : list region := inorder (root s).

Definition set_ok (s : mr_set_t) : Prop :=
  wf (root s) /\ heights_ok (root s) /\ size s = Z.of_nat (length (regions s)) /\
  Forall (fun y => r_val y <> 0) (regions s).

Lemma set_ok_empty : set_ok (MrSet NULL 0).
Proof. repeat split; constructor. Qed.

Lemma regions_ok_remove k L : regions_ok L -> regions_ok (region_remove k L).
Proof.
  intros HL. induction L as [|y L IH]; [done|].
  apply regions_ok_cons in HL as (HL & Hy & Hb).
  destruct (decide (r_addr y = k)) as [<-|].
  - rewrite region_remove_cons_eq. auto.
  - rewrite region_remove_cons_ne by done. apply regions_ok_cons.
    split_and!; [auto|done|]. intros z [_ Hz]%list_elem_of_filter. auto.
Qed.

Lemma length_region_remove L y :
  regions_ok L -> y ∈ L -> length L = S (length (region_remove (r_addr y) L)).
Proof.
  intros HL. induction L as [|z L IH]; [set_solver|].
  apply regions_ok_cons in HL as (HL & Hz & Hb).
  intros [->|Hy]%elem_of_cons.
  - rewrite region_remove_cons_eq, region_remove_id; [done|].
    intros w Hw. pose proof (before_addr _ _ Hz (Hb _ Hw)). lia.
  - pose proof (before_addr _ _ Hz (Hb _ Hy)).
    rewrite region_remove_cons_ne by lia. cbn. by rewrite <-IH.
Qed.

Lemma set_ok_insert s x t :
  set_ok s -> region_ok x -> r_val x <> 0 -> Forall (disjoint_regions x) (regions s) ->
  heights_ok t -> inorder t = region_insert x (regions s) -> set_ok (MrSet t (size s + 1)).
Proof.
  intros (Hw & _ & Hs & Hv) Hx Hvx Hd Ht E.
  split_and!; cbn; [|done| |].
  - unfold wf. rewrite E. by apply regions_ok_insert.
  - unfold regions. cbn. rewrite E, length_region_insert. lia.
  - unfold regions. cbn. rewrite E. apply Forall_forall.
    intros y [->|Hy]%elem_of_region_insert; [done|].
    by apply (Forall_forall (fun y => r_val y <> 0) (regions s)).
Qed.

Lemma set_ok_same s t : set_ok s -> heights_ok t -> inorder t = regions s -> set_ok (MrSet t (size s)).
Proof.
  intros (Hw & _ & Hs & Hv) Ht E.
  unfold set_ok, regions, wf in *. cbn. by rewrite E.
Qed.

Lemma set_ok_remove s y t :
  set_ok s -> y ∈ regions s -> heights_ok t ->
  inorder t = region_remove (r_addr y) (regions s) -> set_ok (MrSet t (size s - 1)).
Proof.
  intros (Hw & _ & Hs & Hv) Hy Ht E.
  split_and!; cbn; [|done| |].
  - unfold wf. rewrite E. by apply regions_ok_remove.
  - unfold regions. cbn. rewrite E, Hs, (length_region_remove _ y); [lia|done..].
  - unfold regions. cbn. rewrite E. unfold region_remove.
    apply Forall_forall. intros z [_ Hz]%list_elem_of_filter.
    by apply (Forall_forall (fun y => r_val y <> 0) (regions s)).
Qed.

(** ** The abstract set: a sorted list of disjoint regions *)

Definition abs_find (L : list region) (addr len : Z) : option region :=
  head (filter (fun y => contains y addr len) L).

Definition abs_insert (malloc_ok : bool) (L : list region) (x : region) : list region * Z :=
  if malloc_ok && bool_decide (Forall (disjoint_regions x) L) then (region_insert x L, 0)
  else (L, 1).

Definition abs_remove (L : list region) (addr len : Z) : list region * Z :=
  match abs_find L addr len with
  | Some y => (region_remove (r_addr y) L, r_val y)
  | None => (L, 0)
  end.

Lemma abs_find_Some L addr len y :
  regions_ok L -> 0 < len -> y ∈ L -> contains y addr len -> abs_find L addr len = Some y.
Proof.
  intros HL Hlen Hy Hc. unfold abs_find.
  destruct (filter (fun y => contains y addr len) L) as [|z L'] eqn:E; cbn.
  - assert (Hin : y ∈ filter (fun y => contains y addr len) L) by (by apply list_elem_of_filter).
    rewrite E in Hin. set_solver.
  - assert (Hin : z ∈ filter (fun y => contains y addr len) L) by (rewrite E; set_solver).
    apply list_elem_of_filter in Hin as [Hcz Hz]. f_equal. by eapply contains_unique.
Qed.

Lemma abs_find_None L addr len :
  (forall y, y ∈ L -> ~ contains y addr len) -> abs_find L addr len = None.
Proof.
  intros H. unfold abs_find.
  destruct (filter (fun y => contains y addr len) L) as [|z L'] eqn:E; [done|].
  assert (Hin : z ∈ filter (fun y => contains y addr len) L) by (rewrite E; set_solver).
  apply list_elem_of_filter in Hin as [Hcz Hz]. by destruct (H z).
Qed.

Lemma avl_find_abs t addr len :
  wf t -> region_ok (Region addr len 0) ->
  match avl_find t addr len with
  | NULL => abs_find (inorder t) addr len = None
  | AvlNode a n v _ _ _ =>
      Region a n v ∈ inorder t /\ abs_find (inorder t) addr len = Some (Region a n v)
  end.
Proof.
  intros Ht Hx. pose proof (avl_find_found t addr len Ht Hx) as H.
  destruct (avl_find t addr len); [by apply abs_find_None|].
  destruct H. split; [done|]. apply abs_find_Some; auto. region_lia.
Qed.

(** What the set promises to its clients: the operations act on the region
    list as the abstract set does.  Insertion is specified when it returns. *)
Class RegionSet (T : Type) : Type := {
  rs_regions : T -> list region;
  rs_ok : T -> Prop;
  rs_insert : bool -> T -> Z -> Z -> Z -> option (T * Z);
  rs_find : T -> Z -> Z -> Z;
  rs_remove : T -> Z -> Z -> option (T * Z);
}.

Class RegionSetLaws (T : Type) `{RegionSet T} : Prop := {
  rs_ok_regions s : rs_ok s ->
    regions_ok (rs_regions s) /\ Forall (fun y => r_val y <> 0) (rs_regions s);
  rs_insert_law m s a n v s' f :
    rs_ok s -> region_ok (Region a n v) -> v <> 0 -> rs_insert m s a n v = Some (s', f) ->
    rs_ok s' /\ (rs_regions s', f) = abs_insert m (rs_regions s) (Region a n v);
  rs_insert_total s a n v :
    rs_ok s -> region_ok (Region a n v) -> v <> 0 ->
    Forall (disjoint_regions (Region a n v)) (rs_regions s) ->
    is_Some (rs_insert true s a n v);
  rs_find_law s a n :
    rs_ok s -> region_ok (Region a n 0) ->
    rs_find s a n = from_option r_val 0 (abs_find (rs_regions s) a n);
  rs_remove_law s a n :
    rs_ok s -> region_ok (Region a n 0) ->
    exists s' x, rs_remove s a n = Some (s', x) /\ rs_ok s' /\
      (rs_regions s', x) = abs_remove (rs_regions s) a n;
}.

(** The functions of the source on a set that is not null. *)
#[export] Instance mr_set_region_set : RegionSet mr_set_t := {
  rs_regions := regions;
  rs_ok := set_ok;
  rs_insert m s a n v :=
    '(o, f) ← utrans_mr_set_insert m (Some s) a n v; s' ← o; Some (s', f);
  rs_find s a n := utrans_mr_set_find (Some s) a n;
  rs_remove s a n :=
    '(o, x) ← utrans_mr_set_remove (Some s) a n; s' ← o; Some (s', x);
}.

Lemma mr_insert_law m s a n v s' f :
  set_ok s -> region_ok (Region a n v) -> v <> 0 ->
  utrans_mr_set_insert m (Some s) a n v = Some (Some s', f) ->
  set_ok s' /\ (regions s', f) = abs_insert m (regions s) (Region a n v).
Proof.
  intros Hs Hx Hv H. pose proof Hs as (Hw & Hh & _ & _). cbn in H.
  rewrite (proj2 (Z.eqb_neq n 0)), (proj2 (Z.eqb_neq v 0)) in H by region_lia. cbn in H.
  bind_inv H. destruct p as [t g]. injection H as <- <-.
  destruct (avl_insert_heights _ _ _ _ _ _ _ Hh E) as [Hht _].
  unfold abs_insert.
  destruct (avl_insert_inorder _ _ _ _ _ _ _ Hw Hx E) as [(-> & -> & Hd & Hi)|(-> & Hd & Hi)]; cbn.
  - rewrite bool_decide_true by done. split; [by eapply set_ok_insert|]. unfold regions. cbn. by rewrite Hi.
  - split; [by apply set_ok_same|]. unfold regions at 1. cbn. rewrite Hi.
    destruct m; cbn; [|done]. destruct Hd; [done|]. by rewrite bool_decide_false.
Qed.

Lemma mr_insert_total s a n v :
  set_ok s -> region_ok (Region a n v) -> v <> 0 ->
  Forall (disjoint_regions (Region a n v)) (regions s) ->
  exists s', utrans_mr_set_insert true (Some s) a n v = Some (Some s', 0).
Proof.
  intros (Hw & Hh & _ & _) Hx Hv Hd. cbn.
  rewrite (proj2 (Z.eqb_neq n 0)), (proj2 (Z.eqb_neq v 0)) by region_lia. cbn.
  destruct (avl_insert_total _ _ _ _ Hw Hh Hx Hd) as (t' & -> & _). cbn. eauto.
Qed.

Lemma mr_find_law s a n :
  set_ok s -> region_ok (Region a n 0) ->
  utrans_mr_set_find (Some s) a n = from_option r_val 0 (abs_find (regions s) a n).
Proof.
  intros (Hw & _) Hx. cbn. rewrite (proj2 (Z.eqb_neq n 0)) by region_lia.
  pose proof (avl_find_abs _ _ _ Hw Hx) as H. unfold regions.
  destruct (avl_find (root s) a n); [by rewrite H|by destruct H as [_ ->]].
Qed.

Lemma mr_remove_law s a n :
  set_ok s -> region_ok (Region a n 0) ->
  exists s' x, utrans_mr_set_remove (Some s) a n = Some (Some s', x) /\ set_ok s' /\
    (regions s', x) = abs_remove (regions s) a n.
Proof.
  intros Hs Hx. pose proof Hs as (Hw & Hh & _ & Hnz). cbn.
  rewrite (proj2 (Z.eqb_neq n 0)) by region_lia. unfold abs_remove, regions.
  pose proof (avl_find_abs _ _ _ Hw Hx) as H.
  destruct (avl_find (root s) a n) as [|k kn kv kl kr kh]; [rewrite H; eauto|].
  destruct H as [Hin ->].
  destruct (avl_delete_spec (root s) k kn kv kl kr kh 0 Hw Hh) as (t & x & -> & Ht & _ & Hi & Hx').
  rewrite (Hx' _ _ Hin) in *. cbn.
  assert (kv <> 0) by (exact (proj1 (Forall_forall _ _) Hnz _ Hin)).
  rewrite (proj2 (Z.eqb_neq kv 0)) by done.
  do 2 eexists. split; [reflexivity|]. cbn. rewrite Hi. split; [|done].
  by eapply (set_ok_remove s (Region k kn kv)).
Qed.

#[export] Instance mr_set_laws : RegionSetLaws mr_set_t.
Proof.
  split; cbn -[utrans_mr_set_insert utrans_mr_set_remove utrans_mr_set_find].
  - intros s (Hw & _ & _ & Hv). done.
  - intros m s a n v s' f Hs Hx Hv H. bind_inv H. destruct p as [[s1|] g]; [|done].
    injection H as <- <-. eauto using mr_insert_law.
  - intros s a n v Hs Hx Hv Hd. destruct (mr_insert_total s a n v) as [s' ->]; auto.
  - apply mr_find_law.
  - intros s a n Hs Hx. destruct (mr_remove_law s a n Hs Hx) as (s' & x & -> & ? & ?). cbn. eauto.
Qed.

(** ** Sequences of calls *)

Inductive mr_op : Type :=
| OpInsert (malloc_ok : bool) (addr len pitem : Z)
| OpFind (addr len : Z)
| OpRemove (addr len : Z).

Definition mr_step (s : mr_set_t) (op : mr_op) : option (mr_set_t * Z) :=
  match op with
  | OpInsert m a n v => rs_insert m s a n v
  | OpFind a n => Some (s, rs_find s a n)
  | OpRemove a n => rs_remove s a n
  end.

Definition abs_step (L : list region) (op : mr_op) : list region * Z :=
  match op with
  | OpInsert m a n v => abs_insert m L (Region a n v)
  | OpFind a n => (L, from_option r_val 0 (abs_find L a n))
  | OpRemove a n => abs_remove L a n
  end.

Fixpoint mr_run (s : mr_set_t) (ops : list mr_op) : option (mr_set_t * list Z) :=
  match ops with
  | [] => Some (s, [])
  | op :: ops' =>
      '(s1, x) ← mr_step s op; '(s2, xs) ← mr_run s1 ops'; Some (s2, x :: xs)
  end.

Fixpoint abs_run (L : list region) (ops : list mr_op) : list region * list Z :=
  match ops with
  | [] => (L, [])
  | op :: ops' =>
      let '(L1, x) := abs_step L op in
      let '(L2, xs) := abs_run L1 ops' in (L2, x :: xs)
  end.

(** The arguments of a call: a region whose end is an address, an item. *)
Definition op_ok (op : mr_op) : Prop :=
  match op with
  | OpInsert _ a n v => region_ok (Region a n v) /\ v <> 0
  | OpFind a n | OpRemove a n => region_ok (Region a n 0)
  end.

Definition is_insert (op : mr_op) : bool :=
  match op with OpInsert _ _ _ _ => true | _ => false end.

(** No insertion of the sequence fails on the abstract set. *)
Fixpoint all_inserts_succeed (L : list region) (ops : list mr_op) : Prop :=
  match ops with
  | [] => True
  | op :: ops' =>
      (is_insert op = true -> (abs_step L op).2 = 0) /\
      all_inserts_succeed (abs_step L op).1 ops'
  end.

Lemma mr_step_abs s op s' x :
  set_ok s -> op_ok op -> mr_step s op = Some (s', x) ->
  set_ok s' /\ abs_step (regions s) op = (regions s', x).
Proof.
  intros Hs Hop H. destruct op as [m a n v|a n|a n]; cbn [mr_step abs_step] in *.
  - destruct Hop as [Hx Hv]. destruct (@rs_insert_law _ _ mr_set_laws m s a n v s' x Hs Hx Hv H) as [? E].
    split; [done|]. symmetry. exact E.
  - injection H as <- <-. split; [done|]. f_equal. symmetry. by apply (@rs_find_law _ _ mr_set_laws s).
  - destruct (@rs_remove_law _ _ mr_set_laws s a n Hs Hop) as (s1 & y & E & Hs1 & E2).
    rewrite E in H. injection H as <- <-. split; [done|]. symmetry. exact E2.
Qed.

Lemma mr_step_total s op :
  set_ok s -> op_ok op -> (is_insert op = true -> (abs_step (regions s) op).2 = 0) ->
  is_Some (mr_step s op).
Proof.
  intros Hs Hop Hi. destruct op as [m a n v|a n|a n]; cbn [mr_step abs_step] in *.
  - specialize (Hi eq_refl). unfold abs_insert in Hi. destruct m; [|done]. cbn in Hi.
    case_bool_decide; [|done]. destruct Hop. by apply (@rs_insert_total _ _ mr_set_laws s).
  - eauto.
  - destruct (@rs_remove_law _ _ mr_set_laws s a n Hs Hop) as (s1 & y & E & _). rewrite E. eauto.
Qed.

Lemma mr_run_abs s ops s' xs :
  set_ok s -> Forall op_ok ops -> mr_run s ops = Some (s', xs) ->
  set_ok s' /\ abs_run (regions s) ops = (regions s', xs).
Proof.
  intros Hs Hops. revert s s' xs Hs.
  induction Hops as [|op ops Hop Hops IH]; intros s s' xs Hs H; cbn [mr_run abs_run] in *.
  - by injection H as <- <-.
  - bind_inv H. destruct p as [s1 x]. bind_inv H. destruct p as [s2 ys]. injection H as <- <-.
    destruct (mr_step_abs _ _ _ _ Hs Hop E) as [Hs1 ->].
    destruct (IH _ _ _ Hs1 E0) as [Hs2 ->]. done.
Qed.

Lemma mr_run_total s ops :
  set_ok s -> Forall op_ok ops -> all_inserts_succeed (regions s) ops ->
  is_Some (mr_run s ops).
Proof.
  intros Hs Hops. revert s Hs.
  induction Hops as [|op ops Hop Hops IH]; intros s Hs; cbn [mr_run all_inserts_succeed]; [eauto|].
  intros [Hi Hrest]. destruct (mr_step_total s op Hs Hop Hi) as [[s1 x] E]. rewrite E. cbn.
  destruct (mr_step_abs _ _ _ _ Hs Hop E) as [Hs1 Ea]. rewrite Ea in Hrest.
  destruct (IH s1 Hs1 Hrest) as [[s2 ys] ->]. cbn. eauto.
Qed.

(** ** Lemmas: sequences of insertions, recorded heights along a sequence *)

Lemma mr_insert_avl m s a n v :
  set_ok s -> avl_ok (root s) -> region_ok (Region a n v) -> v <> 0 ->
  exists s' f, mr_step s (OpInsert m a n v) = Some (s', f) /\ set_ok s' /\ avl_ok (root s').
Proof.
  intros Hs Ho Hx Hv. pose proof Hs as (Hw & _).
  destruct (avl_insert_avl m _ a n v Hw Ho Hx) as (t & f & E & Ht & _).
  assert (Es : exists z, mr_step s (OpInsert m a n v) = Some (MrSet t z, f)).
  { cbn. rewrite (proj2 (Z.eqb_neq n 0)), (proj2 (Z.eqb_neq v 0)) by region_lia. cbn.
    rewrite E. cbn. eauto. }
  destruct Es as [z Es]. exists (MrSet t z), f. split; [done|]. split; [|done].
  by destruct (mr_step_abs _ _ _ _ Hs (conj Hx Hv : op_ok (OpInsert m a n v)) Es).
Qed.

Lemma mr_run_inserts_avl s ops :
  set_ok s -> avl_ok (root s) -> Forall op_ok ops -> Forall (fun op => is_insert op = true) ops ->
  exists s' xs, mr_run s ops = Some (s', xs) /\ set_ok s' /\ avl_ok (root s').
Proof.
  intros Hs Ho Hops. revert s Hs Ho.
  induction Hops as [|op ops Hop Hops IH]; intros s Hs Ho Hi; cbn [mr_run]; [eauto|].
  apply Forall_cons in Hi as [Hi His]. destruct op as [m a n v| |]; [|done..].
  destruct Hop as [Hx Hv].
  destruct (mr_insert_avl m s a n v Hs Ho Hx Hv) as (s1 & f & -> & Hs1 & Ho1). cbn.
  destruct (IH s1 Hs1 Ho1 His) as (s2 & ys & -> & Hs2 & Ho2). cbn. eauto.
Qed.

Lemma mr_step_height s op s' x :
  set_ok s -> op_ok op -> mr_step s op = Some (s', x) ->
  avl_height (root s') <= avl_height (root s) + (if is_insert op then 1 else 0).
Proof.
  intros Hs Hop H. pose proof Hs as (Hw & Hh & _ & Hnz).
  destruct op as [m a n v|a n|a n]; cbn [is_insert].
  - cbn in H. destruct Hop as [Hx Hv].
    rewrite (proj2 (Z.eqb_neq n 0)), (proj2 (Z.eqb_neq v 0)) in H by region_lia. cbn in H.
    destruct (avl_insert m (root s) a n v 0) as [[t f]|] eqn:E; [|done]. injection H as <- <-.
    by destruct (avl_insert_heights _ _ _ _ _ _ _ Hh E).
  - injection H as <- <-. lia.
  - cbn in H. rewrite (proj2 (Z.eqb_neq n 0)) in H by (cbn in Hop; region_lia).
    destruct (avl_find (root s) a n) as [|k kn kv kl kr kh]; [injection H as <- <-; lia|].
    destruct (avl_delete_spec (root s) k kn kv kl kr kh 0 Hw Hh) as (t & y & E & _ & Hle & _).
    rewrite E in H. injection H as <- <-. cbn. lia.
Qed.

Definition num_inserts (ops : list mr_op) : Z :=
  Z.of_nat (length (filter (fun op => is_insert op = true) ops)).

Lemma mr_run_height s ops s' xs :
  set_ok s -> Forall op_ok ops -> mr_run s ops = Some (s', xs) ->
  avl_height (root s') <= avl_height (root s) + num_inserts ops.
Proof.
  intros Hs Hops. revert s s' xs Hs. unfold num_inserts.
  induction Hops as [|op ops Hop Hops IH]; intros s s' xs Hs H; cbn [mr_run] in H.
  - injection H as <- <-. cbn. lia.
  - bind_inv H. destruct p as [s1 x]. bind_inv H. destruct p as [s2 ys]. injection H as <- <-.
    pose proof (mr_step_height _ _ _ _ Hs Hop E).
    destruct (mr_step_abs _ _ _ _ Hs Hop E) as [Hs1 _].
    specialize (IH _ _ _ Hs1 E0). rewrite filter_cons.
    destruct (is_insert op); cbn [length]; [rewrite decide_True by done|rewrite decide_False by done];
      cbn [length]; lia.
Qed.

(** ** Properties *)

(** C1: the region set refines its abstract specification.  From the empty set,
    for every sequence of insert, find and remove calls whose regions end within
    the address space, if no call dereferences a null pointer then every result
    and the final regions are those of a sorted list of disjoint regions, and the
    invariant of the tree holds. *)
Theorem mr_set_refines_list ops s xs :
  Forall op_ok ops -> mr_run (MrSet NULL 0) ops = Some (s, xs) ->
  set_ok s /\ abs_run [] ops = (regions s, xs).
Proof. intros Hops H. by apply (mr_run_abs _ _ _ _ set_ok_empty Hops H). Qed.

(** A register / look up / deregister sequence, with a rejected overlap. *)
Definition demo_ops : list mr_op :=
  [OpInsert true 4096 8192 11; OpInsert true 65536 4096 12; OpInsert true 8192 100 13;
   OpFind 5000 16; OpRemove 65536 4096; OpFind 65540 8].

Lemma mr_set_refines_list_witness :
  exists s xs, mr_run (MrSet NULL 0) demo_ops = Some (s, xs) /\ xs = [0; 0; 1; 11; 12; 0] /\
    set_ok s /\ abs_run [] demo_ops = (regions s, xs).
Proof.
  do 2 eexists. split; [vm_compute; reflexivity|]. split; [reflexivity|].
  apply mr_set_refines_list; [|vm_compute; reflexivity].
  repeat constructor; cbn; lia.
Defined.

(** A sequence of calls in which every insertion is of a region disjoint
    from those present, and finds memory for its node, always returns. *)
Theorem mr_set_run_total ops :
  Forall op_ok ops -> all_inserts_succeed [] ops ->
  exists s xs, mr_run (MrSet NULL 0) ops = Some (s, xs).
Proof.
  intros Hops Hi. destruct (mr_run_total _ _ set_ok_empty Hops Hi) as [[s xs] E]. eauto.
Qed.

Definition churn_ops : list mr_op :=
  [OpInsert true 4096 4096 1; OpInsert true 8192 4096 2; OpRemove 4096 1;
   OpInsert true 4096 100 3; OpRemove 8192 4096; OpFind 4100 10].

Lemma mr_set_run_total_witness : exists s xs, mr_run (MrSet NULL 0) churn_ops = Some (s, xs).
Proof.
  apply mr_set_run_total; [repeat constructor; cbn; lia|].
  repeat (split; [vm_compute; done|]). done.
Defined.

(** C8: while only insertions are made the tree stays an exact AVL tree: no
    call, failing ones included, dereferences a null pointer, and a lookup
    visits at most [2 * log2 (n + 1)] nodes of the [n] present. *)
Theorem mr_set_inserts_balanced ops :
  Forall op_ok ops -> Forall (fun op => is_insert op = true) ops ->
  exists s xs, mr_run (MrSet NULL 0) ops = Some (s, xs) /\ avl_ok (root s) /\
    2 ^ depth (root s) <= (utrans_mr_set_getsize (Some s) + 1) ^ 2.
Proof.
  intros Hops Hi.
  destruct (mr_run_inserts_avl (MrSet NULL 0) ops set_ok_empty I Hops Hi)
    as (s & xs & E & (_ & _ & Hsz & _) & Ho).
  exists s, xs. split; [done|]. split; [done|].
  cbn. rewrite (avl_ok_depth _ Ho), Hsz. by apply avl_ok_size.
Qed.

Definition ascending_ops : list mr_op :=
  map (fun i => OpInsert (negb (i =? 5)) (i * 4096) 4096 (i + 1)) (seqZ 0 12).

Lemma mr_set_inserts_balanced_witness :
  exists s xs, mr_run (MrSet NULL 0) ascending_ops = Some (s, xs) /\ avl_ok (root s) /\
    2 ^ depth (root s) <= (utrans_mr_set_getsize (Some s) + 1) ^ 2.
Proof. apply mr_set_inserts_balanced; repeat constructor; cbn; lia. Defined.

(** Deletion does not update the heights of the nodes it passes, and an
    insertion rejected afterwards for overlapping may rebalance with them: after
    registering five regions and deregistering three, registering a region that
    is already there dereferences a null pointer. *)
Theorem mr_set_overlap_null_deref :
  exists ops s xs, Forall op_ok ops /\ mr_run (MrSet NULL 0) ops = Some (s, xs) /\
    mr_step s (OpInsert true 8192 4096 7) = None /\
    (abs_insert true (regions s) (Region 8192 4096 7)).2 = 1.
Proof.
  exists [OpInsert true 12288 4096 1; OpInsert true 24576 4096 2; OpInsert true 8192 4096 3;
          OpInsert true 16384 4096 4; OpInsert true 4096 4096 5;
          OpRemove 16384 4096; OpRemove 4096 4096; OpRemove 12288 4096].
  do 2 eexists. split; [repeat constructor; cbn; lia|].
  split; [vm_compute; reflexivity|]. split; vm_compute; reflexivity.
Qed.

(** Lookup is exact on any valid set: it returns the item of the only
    region that contains the queried range, and null when there is none. *)
Theorem mr_set_find_exact s addr len :
  set_ok s -> region_ok (Region addr len 0) ->
  (forall y, y ∈ regions s -> contains y addr len ->
     utrans_mr_set_find (Some s) addr len = r_val y) /\
  ((forall y, y ∈ regions s -> ~ contains y addr len) ->
     utrans_mr_set_find (Some s) addr len = 0).
Proof.
  intros Hs Hx. rewrite (mr_find_law s addr len Hs Hx). pose proof Hs as (Hw & _). split.
  - intros y Hy Hc. rewrite (abs_find_Some _ _ _ y); [done|done|region_lia|done..].
  - intros H. by rewrite abs_find_None.
Qed.

Definition demo_set : mr_set_t :=
  match mr_run (MrSet NULL 0) demo_ops with Some (s, _) => s | None => MrSet NULL 0 end.

Lemma mr_set_find_exact_witness :
  set_ok demo_set /\ utrans_mr_set_find (Some demo_set) 5000 16 = 11.
Proof.
  assert (Hs : set_ok demo_set).
  { split_and!; [split; repeat constructor|..|repeat constructor]; vm_compute; try done; tauto. }
  split; [exact Hs|].
  assert (Hx : region_ok (Region 5000 16 0)) by (vm_compute; done).
  apply (proj1 (mr_set_find_exact demo_set 5000 16 Hs Hx) (Region 4096 8192 11));
    vm_compute; [apply list_elem_of_In; left|]; done.
Defined.

(** A region that was inserted is found by any of its sub-ranges, and
    removing it gives its item back and restores the previous regions. *)
Theorem mr_set_insert_remove s addr len item a n s1 :
  set_ok s -> region_ok (Region addr len item) -> item <> 0 ->
  region_ok (Region a n 0) -> contains (Region addr len item) a n ->
  utrans_mr_set_insert true (Some s) addr len item = Some (Some s1, 0) ->
  utrans_mr_set_find (Some s1) a n = item /\
  exists s2, utrans_mr_set_remove (Some s1) a n = Some (Some s2, item) /\
    regions s2 = regions s.
Proof.
  intros Hs Hx Hv Ha Hc H.
  destruct (mr_insert_law _ _ _ _ _ _ _ Hs Hx Hv H) as [Hs1 E].
  unfold abs_insert in E. cbn in E. case_bool_decide as Hd; [|done]. injection E as E.
  assert (Hf : abs_find (regions s1) a n = Some (Region addr len item)).
  { apply abs_find_Some; [by destruct Hs1|region_lia| |done].
    rewrite E. apply elem_of_region_insert. by left. }
  split; [by rewrite (mr_find_law s1 a n Hs1 Ha), Hf|].
  destruct (mr_remove_law s1 a n Hs1 Ha) as (s2 & x & E2 & _ & E3).
  unfold abs_remove in E3. rewrite Hf in E3. injection E3 as E3 ->.
  exists s2. split; [done|]. rewrite E3, E. cbn.
  apply (region_remove_insert (Region addr len item)); [done|by destruct Hs as [[? _] _]|done].
Qed.

Lemma mr_set_insert_remove_witness :
  exists s1, utrans_mr_set_insert true (Some demo_set) 131072 4096 21 = Some (Some s1, 0) /\
    utrans_mr_set_find (Some s1) 132000 8 = 21 /\
    exists s2, utrans_mr_set_remove (Some s1) 132000 8 = Some (Some s2, 21) /\
      regions s2 = regions demo_set.
Proof.
  eexists. split; [vm_compute; reflexivity|].
  apply (mr_set_insert_remove demo_set 131072 4096 21);
    [|vm_compute; done..|vm_compute; reflexivity].
  split_and!; [split; repeat constructor|..|repeat constructor]; vm_compute; try done; tauto.
Defined.

(** A traversal calls the callback on the items in address order, stops at
    the first one that returns a nonzero value and returns that value; [getall]
    lists the same items in the same order, as many as [getsize] reports; and
    [destroy] calls the callback on all of them whatever it returns, frees every
    node exactly once and leaves the set empty. *)
Theorem mr_set_traversals {S : Type} s (cb : Z -> S -> Z * S) (arg : S) (psize : Z) :
  set_ok s ->
  let items := map r_val (regions s) in
  utrans_mr_set_traverse (Some s) (Some cb) arg = run_cb true cb items arg /\
  (regions s <> [] -> utrans_mr_set_getall true (Some s) psize =
                      (Some items, utrans_mr_set_getsize (Some s))) /\
  exists freed, utrans_mr_set_destroy (Some s) (Some cb) arg =
      (Some (MrSet NULL 0), (run_cb false cb items arg).2, freed) /\
    freed ≡ₚ map r_addr (regions s) /\ NoDup freed.
Proof.
  intros (Hw & _ & Hsz & _) items. split; [apply avl_traverse_run|]. split.
  - intros Hne. cbn. rewrite avl_scan_inorder. cbn.
    assert (0 < size s) by (rewrite Hsz; destruct (regions s); cbn; [done|lia]).
    rewrite (proj2 (Z.ltb_lt _ _)) by done. rewrite length_map, Hsz. done.
  - cbn. rewrite avl_traverse_run. pose proof (avl_destroy_freed (root s) None []) as Hf.
    destruct (avl_destroy (root s) None []) as [i freed]. exists freed. split; [done|].
    cbn in Hf. split; [done|]. rewrite Hf. by apply regions_ok_NoDup.
Qed.

Lemma mr_set_traversals_witness :
  utrans_mr_set_traverse (Some demo_set) (Some (fun v seen => (v, seen ++ [v]))) [] = (11, [11]).
Proof.
  assert (Hs : set_ok demo_set).
  { split_and!; [split; repeat constructor|..|repeat constructor]; vm_compute; try done; tauto. }
  destruct (mr_set_traversals demo_set (fun v seen => (v, seen ++ [v])) [] 0 Hs) as [-> _].
  vm_compute. reflexivity.
Defined.

(** The recorded height of the root never exceeds the number of insertions
    made, so the [int] heights cannot overflow in any sequence of calls with
    fewer than 2^31 insertions; and it is never below the depth of the tree. *)
Theorem mr_set_heights_bounded ops s xs :
  Forall op_ok ops -> mr_run (MrSet NULL 0) ops = Some (s, xs) -> num_inserts ops < 2 ^ 31 ->
  in_i32 (avl_height (root s)) /\ depth (root s) <= avl_height (root s).
Proof.
  intros Hops H Hn. pose proof (mr_run_height _ _ _ _ set_ok_empty Hops H) as Hle.
  destruct (mr_run_abs _ _ _ _ set_ok_empty Hops H) as [(_ & Hh & _) _].
  pose proof (heights_ok_nonneg _ Hh). cbn in Hle. split; [unfold in_i32; lia|].
  by apply heights_ok_depth.
Qed.

Lemma mr_set_heights_bounded_witness :
  in_i32 (avl_height (root demo_set)) /\ depth (root demo_set) <= avl_height (root demo_set).
Proof.
  apply (mr_set_heights_bounded demo_ops demo_set [0; 0; 1; 11; 12; 0]);
    [repeat constructor; cbn; lia|vm_compute; reflexivity|vm_compute; reflexivity].
Defined.
