(* ===== verification/ListHead.v ===== *)
(** * Intrusive doubly linked lists (utrans/list_head.h)

    A heap of [struct list_head] nodes, the [next] and [prev] fields as two maps
    from addresses; an access to an address that is not a node has no result.
    The operations are the assignments of the source in their order; the
    theorems relate them to the sequence of entries of the circular list. *)

From S2P Require Import Prelude.
Local Open Scope Z_scope.

Record heap : Type := Heap { nx : gmap Z Z; pv : gmap Z Z }.

Definition LIST_POISON1 : Z := 0x100.
Definition LIST_POISON2 : Z := 0x200.

(** ** Field accesses *)

Definition get_next (h : heap) (p : Z) : option Z := nx h !! p.
Definition get_prev (h : heap) (p : Z) : option Z := pv h !! p.

Definition set_next (h : heap) (p v : Z) : option heap :=
  _ ← nx h !! p; Some (Heap (<[p := v]> (nx h)) (pv h)).

Definition set_prev (h : heap) (p v : Z) : option heap :=
  _ ← pv h !! p; Some (Heap (nx h) (<[p := v]> (pv h))).

(** ** Operations *)

Definition INIT_LIST_HEAD (h : heap) (list : Z) : option heap :=
  h ← set_next h list list; set_prev h list list.

Definition __list_add (h : heap) (new_head prev next : Z) : option heap :=
  h ← set_prev h next new_head;
  h ← set_next h new_head next;
  h ← set_prev h new_head prev;
  set_next h prev new_head.

Definition list_add (h : heap) (new_head head : Z) : option heap :=
  n ← get_next h head; __list_add h new_head head n.

Definition list_add_tail (h : heap) (new_head head : Z) : option heap :=
  p ← get_prev h head; __list_add h new_head p head.

Definition __list_del (h : heap) (prev next : Z) : option heap :=
  h ← set_prev h next prev; set_next h prev next.

Definition __list_del_entry (h : heap) (entry : Z) : option heap :=
  p ← get_prev h entry; n ← get_next h entry; __list_del h p n.

Definition list_del (h : heap) (entry : Z) : option heap :=
  h ← __list_del_entry h entry;
  h ← set_next h entry LIST_POISON1;
  set_prev h entry LIST_POISON2.

Definition list_empty (h : heap) (head : Z) : option bool :=
  n ← get_next h head; Some (n =? head).

(** The loop of [list_length]; [fuel] bounds the number of iterations. *)
Fixpoint list_length_loop (fuel : nat) (h : heap) (phead pnext : Z) (item_num : Z) : option Z :=
  if pnext =? phead then Some item_num else
  match fuel with
  | O => None
  | S fuel' =>
      n ← get_next h pnext; list_length_loop fuel' h phead n (u32 (item_num + 1))
  end.

Definition list_length (fuel : nat) (h : heap) (phead : Z) : option Z :=
  n ← get_next h phead; list_length_loop fuel h phead n 0.

Definition list_del_init (h : heap) (entry : Z) : option heap :=
  h ← __list_del_entry h entry; INIT_LIST_HEAD h entry.

Definition list_move (h : heap) (list head : Z) : option heap :=
  h ← __list_del_entry h list; list_add h list head.

Definition list_move_tail (h : heap) (list head : Z) : option heap :=
  h ← __list_del_entry h list; list_add_tail h list head.

Definition list_rotate_left (h : heap) (head : Z) : option heap :=
  e ← list_empty h head;
  if (e : bool) then Some h else
  first ← get_next h head; list_move_tail h first head.

Definition list_is_singular (h : heap) (head : Z) : option bool :=
  e ← list_empty h head;
  if (e : bool) then Some false else
  n ← get_next h head; p ← get_prev h head; Some (n =? p).

Definition list_is_last (h : heap) (list head : Z) : option bool :=
  n ← get_next h list; Some (n =? head).

Definition list_replace (h : heap) (old new_head : Z) : option heap :=
  on ← get_next h old;
  h ← set_next h new_head on;
  n ← get_next h new_head;
  h ← set_prev h n new_head;
  op ← get_prev h old;
  h ← set_prev h new_head op;
  p ← get_prev h new_head;
  set_next h p new_head.

Definition list_replace_init (h : heap) (old new_head : Z) : option heap :=
  h ← list_replace h old new_head; INIT_LIST_HEAD h old.

Definition list_merge (h : heap) (head_keep head_drop : Z) : option heap :=
  pkeep_head ← get_next h head_keep;
  pdrop_tail ← get_prev h head_drop;
  ed ← list_empty h head_drop;
  if (ed : bool) then Some h else
  ek ← list_empty h head_keep;
  h ← (if (ek : bool) then
         dn ← get_next h head_drop;
         h ← set_next h head_keep dn;
         kn ← get_next h head_keep;
         h ← set_prev h kn head_keep;
         dp ← get_prev h head_drop;
         h ← set_prev h head_keep dp;
         kp ← get_prev h head_keep;
         set_next h kp head_keep
       else
         dn ← get_next h head_drop;
         h ← set_next h head_keep dn;
         dn' ← get_next h head_drop;
         h ← set_prev h dn' head_keep;
         h ← set_next h pdrop_tail pkeep_head;
         set_prev h pkeep_head pdrop_tail);
  h ← set_next h head_drop head_drop;
  set_prev h head_drop head_drop.

(** ** Specification: the entries of a circular list *)

Definition linked (h : heap) (a b : Z) : Prop := nx h !! a = Some b /\ pv h !! b = Some a.

(** [a] leads to [b] through the entries [l]. *)
Fixpoint path (h : heap) (a : Z) (l : list Z) (b : Z) : Prop :=
  match l with
  | [] => linked h a b
  | x :: l' => linked h a x /\ path h x l' b
  end.

Definition dlist (h : heap) (head : Z) (l : list Z) : Prop :=
  path h head l head /\ NoDup (head :: l).

(** A node that is allocated, whatever it points to. *)
Definition node (h : heap) (p : Z) : Prop := is_Some (nx h !! p) /\ is_Some (pv h !! p).

(** The fields of every node outside [l] are the same. *)
Definition same_outside (l : list Z) (h h' : heap) : Prop :=
  forall p, p ∉ l -> nx h' !! p = nx h !! p /\ pv h' !! p = pv h !! p.

(** ** Lemmas *)

Lemma path_app h a l1 x l2 b : path h a (l1 ++ x :: l2) b <-> path h a l1 x /\ path h x l2 b.
Proof.
  revert a. induction l1 as [|y l1 IH]; intros a; cbn; [done|]. rewrite IH. tauto.
Qed.

(** A path only depends on the [next] fields of its nodes but the last and on
    the [prev] fields of its nodes but the first. *)
Lemma path_frame h h' a l b :
  path h a l b ->
  (forall p, p ∈ a :: l -> nx h' !! p = nx h !! p) ->
  (forall p, p ∈ l ++ [b] -> pv h' !! p = pv h !! p) -> path h' a l b.
Proof.
  revert a. induction l as [|x l IH]; intros a; cbn; unfold linked.
  - intros [E1 E2] Hn Hp. rewrite Hn, Hp by set_solver. done.
  - intros [[E1 E2] Hpath] Hn Hp. rewrite Hn, Hp by set_solver. split; [done|].
    apply IH; [done|set_solver..].
Qed.

Lemma path_first h a l b : path h a l b -> nx h !! a = Some (default b (head l)).
Proof. destruct l; cbn; unfold linked; tauto. Qed.

Lemma path_last h a l b : path h a l b -> pv h !! b = Some (default a (last l)).
Proof.
  revert a. induction l as [|x l IH]; intros a; cbn [path]; [unfold linked; cbn; tauto|].
  intros [_ H]. apply IH in H. rewrite H, last_cons. by destruct (last l).
Qed.

Lemma path_node_next h a l b p : path h a l b -> p ∈ a :: l -> is_Some (nx h !! p).
Proof.
  revert a. induction l as [|x l IH]; intros a; cbn; unfold linked.
  - intros [? _] ->%list_elem_of_singleton. eauto.
  - intros [[E _] Hpath] [->|Hp]%elem_of_cons; [eauto|]. eapply IH; eauto.
Qed.

Lemma path_node_prev h a l b p : path h a l b -> p ∈ l ++ [b] -> is_Some (pv h !! p).
Proof.
  revert a. induction l as [|x l IH]; intros a; cbn; unfold linked.
  - intros [_ ?] ->%list_elem_of_singleton. eauto.
  - intros [[_ E] Hpath] [->|Hp]%elem_of_cons; [eauto|]. eapply IH; eauto.
Qed.

Lemma dlist_node h head l p : dlist h head l -> p ∈ head :: l -> node h p.
Proof.
  intros [H _] Hp. split; [by eapply path_node_next|].
  eapply path_node_prev; [done|]. set_solver.
Qed.

(** Writes to allocated nodes succeed. *)
Lemma set_next_Some h p v : is_Some (nx h !! p) -> set_next h p v = Some (Heap (<[p := v]> (nx h)) (pv h)).
Proof. intros [x Hx]. unfold set_next. by rewrite Hx. Qed.

Lemma set_prev_Some h p v : is_Some (pv h !! p) -> set_prev h p v = Some (Heap (nx h) (<[p := v]> (pv h))).
Proof. intros [x Hx]. unfold set_prev. by rewrite Hx. Qed.

Lemma insert_is_Some (m : gmap Z Z) p q v : is_Some (m !! q) -> is_Some (<[p := v]> m !! q).
Proof. intros. destruct (decide (p = q)) as [->|]; [rewrite lookup_insert_eq|rewrite lookup_insert_ne]; eauto. Qed.

(** The neighbours of a position of a circular list. *)
Definition before_pos (head : Z) (l1 : list Z) : Z := default head (last l1).
Definition after_pos (head : Z) (l2 : list Z) : Z := default head (list.head l2).

Lemma before_pos_cons a x l : before_pos a (x :: l) = before_pos x l.
Proof. unfold before_pos. rewrite last_cons. by destruct (last l). Qed.

Lemma before_pos_elem head l1 : before_pos head l1 ∈ head :: l1.
Proof.
  unfold before_pos. destruct (last l1) eqn:E; cbn; [right; by eapply last_Some_elem_of|by left].
Qed.

Lemma after_pos_elem head l2 : after_pos head l2 ∈ head :: l2.
Proof. unfold after_pos. destruct l2; cbn; set_solver. Qed.

(** Redirecting the last edge of a path. *)
Lemma path_redirect h h' a l e n :
  path h a l e -> NoDup (a :: l) ->
  nx h' !! before_pos a l = Some n -> pv h' !! n = Some (before_pos a l) ->
  (forall q, q ∈ a :: l -> q <> before_pos a l -> nx h' !! q = nx h !! q) ->
  (forall q, q ∈ l -> pv h' !! q = pv h !! q) -> path h' a l n.
Proof.
  revert a. induction l as [|x l IH]; intros a; cbn [path].
  - intros _ _ Hn Hp _ _. by split.
  - intros [[E1 E2] Hpath] Hnd. rewrite before_pos_cons. intros Hn Hp Hnx Hpv.
    apply NoDup_cons in Hnd as [Ha Hnd]. pose proof (before_pos_elem x l).
    split; [split; [rewrite Hnx by set_solver|rewrite Hpv by set_solver]; done|].
    apply IH; [done..| |set_solver]. intros q Hq. apply Hnx. by right.
Qed.

(** A circular list, cut at a position. *)
Lemma path_cut h a head l1 l2 :
  path h a (l1 ++ l2) head <->
  path h a l1 (after_pos head l2) /\
  match l2 with [] => True | n :: l2' => path h n l2' head end.
Proof.
  destruct l2 as [|n l2]; unfold after_pos; cbn; [rewrite app_nil_r; tauto|apply path_app].
Qed.

(** The part of the list after a position, untouched by changes at it. *)
Lemma path_tail_frame h h' head l1 l2 :
  NoDup (head :: l1 ++ l2) ->
  (forall q, q ∈ l2 -> nx h' !! q = nx h !! q) ->
  (forall q, q ∈ tail l2 ++ [head] -> q <> after_pos head l2 -> pv h' !! q = pv h !! q) ->
  match l2 with [] => True | n :: l2' => path h n l2' head end ->
  match l2 with [] => True | n :: l2' => path h' n l2' head end.
Proof.
  destruct l2 as [|n l2]; [done|]. cbn. intros Hnd Hn Hp H.
  apply (path_frame h); [done|set_solver|]. intros q Hq. apply Hp; [done|].
  apply NoDup_cons in Hnd as [Hh Hnd]. apply NoDup_app in Hnd as (_ & _ & Hnd).
  apply NoDup_cons in Hnd as [Hn' _]. set_solver.
Qed.

Ltac heap_simpl :=
  repeat first
    [ rewrite lookup_insert_eq
    | rewrite lookup_insert_ne by (first [done|congruence|set_solver]) ].

(** Adding a node between two neighbours. *)
Lemma list_add_between h head l1 l2 x :
  dlist h head (l1 ++ l2) -> node h x -> x ∉ head :: l1 ++ l2 ->
  exists h', __list_add h x (before_pos head l1) (after_pos head l2) = Some h' /\
    dlist h' head (l1 ++ x :: l2) /\ same_outside (x :: head :: l1 ++ l2) h h' /\
    (forall q, node h q -> node h' q).
Proof.
  intros Hd [Hxn Hxp] Hx. pose proof Hd as [Hpath Hnd].
  set (p := before_pos head l1). set (n := after_pos head l2).
  assert (Hp : p ∈ head :: l1) by apply before_pos_elem.
  assert (Hn : n ∈ head :: l2) by apply after_pos_elem.
  destruct (dlist_node h head (l1 ++ l2) p Hd) as [Hpn _]; [set_solver|].
  destruct (dlist_node h head (l1 ++ l2) n Hd) as [_ Hnp]; [set_solver|].
  unfold __list_add. rewrite set_prev_Some by done. cbn [mbind option_bind].
  rewrite set_next_Some by done. cbn [mbind option_bind nx pv].
  rewrite set_prev_Some by (by apply insert_is_Some). cbn [mbind option_bind nx pv].
  rewrite set_next_Some by (by apply insert_is_Some). cbn [nx pv].
  eexists. split; [reflexivity|].
  apply path_cut in Hpath as [Hp1 Hp2].
  split; [split|split].
  - apply path_app. split.
    + assert (Hnd1 : NoDup (head :: l1)).
      { apply NoDup_cons in Hnd as [? (? & _ & _)%NoDup_app]. apply NoDup_cons. set_solver. }
      eapply path_redirect; [exact Hp1|done|..]; cbn [nx pv]; fold p.
      * by heap_simpl.
      * by heap_simpl.
      * intros q Hq Hqp. assert (q <> x) by set_solver. by heap_simpl.
      * intros q Hq. assert (q <> x) by set_solver.
        assert (q <> n).
        { intros ->. apply NoDup_cons in Hnd as [? (_ & Hdis & _)%NoDup_app].
          apply elem_of_cons in Hn as [->|Hn]; [set_solver|]. by apply (Hdis n). }
        by heap_simpl.
    + match goal with |- path ?h' _ _ _ => apply (path_tail_frame h h' head l1 l2) in Hp2 end;
        [|done|..]; cbn [nx pv].
      * destruct l2 as [|n' l2']; cbn.
        -- split; cbn; [assert (head <> x) by set_solver|]; assert (p <> x) by set_solver; by heap_simpl.
        -- split; [|done]. split; cbn; assert (p <> x) by set_solver;
             assert (n' <> x) by set_solver; by heap_simpl.
      * intros q Hq. assert (q <> x) by set_solver.
        assert (q <> p).
        { intros ->. apply NoDup_cons in Hnd as [? (_ & Hdis & _)%NoDup_app].
          apply elem_of_cons in Hp as [->|Hp]; [set_solver|]. by apply (Hdis p). }
        by heap_simpl.
      * intros q Hq Hqn. assert (q <> x).
        { intros ->. apply Hx. destruct l2; set_solver. }
        fold n in Hqn. by heap_simpl.
  - eapply NoDup_Permutation_proper; [|apply NoDup_cons; split; [exact Hx|exact Hnd]].
    solve_Permutation.
  - intros q Hq. cbn [nx pv]. assert (q <> x /\ q <> p /\ q <> n) as (? & ? & ?) by set_solver.
    split; by heap_simpl.
  - intros q [? ?]. split; cbn [nx pv]; by repeat apply insert_is_Some.
Qed.

(** Unlinking an entry from its neighbours. *)
Lemma list_del_entry_spec h head l1 e l2 :
  dlist h head (l1 ++ e :: l2) ->
  exists h', __list_del_entry h e = Some h' /\ dlist h' head (l1 ++ l2) /\
    same_outside (head :: l1 ++ l2) h h' /\ (forall q, node h q -> node h' q).
Proof.
  intros Hd. pose proof Hd as [Hpath Hnd]. apply path_app in Hpath as [Hp1 Hp2].
  set (p := before_pos head l1). set (n := after_pos head l2).
  assert (Hp : p ∈ head :: l1) by apply before_pos_elem.
  assert (Hn : n ∈ head :: l2) by apply after_pos_elem.
  destruct (dlist_node h head _ p Hd) as [Hpn _]; [set_solver|].
  destruct (dlist_node h head _ n Hd) as [_ Hnp]; [set_solver|].
  assert (Hnd' : NoDup (head :: l1 ++ l2)).
  { apply NoDup_cons in Hnd as [? Hnd]. apply NoDup_cons. split; [set_solver|].
    by apply NoDup_app in Hnd as (? & ? & [? ?]%NoDup_cons); apply NoDup_app; set_solver. }
  unfold __list_del_entry, get_prev, get_next.
  rewrite (path_last _ _ _ _ Hp1), (path_first _ _ _ _ Hp2). cbn [mbind option_bind].
  fold (before_pos head l1) (after_pos head l2). fold p n. unfold __list_del.
  rewrite set_prev_Some by done. cbn [mbind option_bind].
  rewrite set_next_Some by done. cbn [nx pv].
  eexists. split; [reflexivity|]. split; [split; [|done]|split].
  - apply path_cut. split.
    + eapply path_redirect; [exact Hp1|..]; cbn [nx pv]; fold p.
      * apply NoDup_cons in Hnd' as [? (? & _ & _)%NoDup_app]. apply NoDup_cons. set_solver.
      * by heap_simpl.
      * by heap_simpl.
      * intros q Hq Hqp. by heap_simpl.
      * intros q Hq. assert (q <> n).
        { intros ->. apply NoDup_cons in Hnd' as [? (_ & Hdis & _)%NoDup_app].
          apply elem_of_cons in Hn as [->|Hn]; [set_solver|]. by apply (Hdis n). }
        by heap_simpl.
    + match goal with |- context [path ?h' _ _ _] => apply (path_tail_frame h h' head l1 l2) end;
        [done|..|by destruct l2; [|destruct Hp2]]; cbn [nx pv].
      * intros q Hq. assert (q <> p).
        { intros ->. apply NoDup_cons in Hnd' as [? (_ & Hdis & _)%NoDup_app].
          apply elem_of_cons in Hp as [->|Hp]; [set_solver|]. by apply (Hdis p). }
        by heap_simpl.
      * intros q Hq Hqn. fold n in Hqn. by heap_simpl.
  - intros q Hq. cbn [nx pv]. assert (q <> p /\ q <> n) as (? & ?) by set_solver. split; by heap_simpl.
  - intros q [? ?]. split; cbn [nx pv]; by apply insert_is_Some.
Qed.

Lemma get_next_after h head l1 l2 e :
  dlist h head (l1 ++ e :: l2) -> get_next h e = Some (after_pos head l2).
Proof. intros [[_ H]%path_app _]. by apply path_first in H. Qed.

Lemma list_add_spec h head l x :
  dlist h head l -> node h x -> x ∉ head :: l ->
  exists h', list_add h x head = Some h' /\ dlist h' head (x :: l) /\
    same_outside (x :: head :: l) h h' /\ (forall q, node h q -> node h' q).
Proof.
  intros Hd Hx Hn. unfold list_add, get_next. destruct Hd as [Hp Hnd].
  rewrite (path_first _ _ _ _ Hp). cbn [mbind option_bind].
  apply (list_add_between h head [] l x); done.
Qed.

Lemma list_add_tail_spec h head l x :
  dlist h head l -> node h x -> x ∉ head :: l ->
  exists h', list_add_tail h x head = Some h' /\ dlist h' head (l ++ [x]) /\
    same_outside (x :: head :: l) h h' /\ (forall q, node h q -> node h' q).
Proof.
  intros Hd Hx Hn. unfold list_add_tail, get_prev. destruct Hd as [Hp Hnd].
  rewrite (path_last _ _ _ _ Hp). cbn [mbind option_bind].
  destruct (list_add_between h head l [] x) as (h' & E & Hd' & Hs & Hk);
    rewrite ?app_nil_r in *; try done. exists h'. by rewrite ?app_nil_r in Hs.
Qed.

Lemma INIT_LIST_HEAD_spec h x :
  node h x -> exists h', INIT_LIST_HEAD h x = Some h' /\ dlist h' x [] /\ same_outside [x] h h' /\
    (forall q, node h q -> node h' q).
Proof.
  intros [? ?]. unfold INIT_LIST_HEAD. rewrite set_next_Some by done. cbn [mbind option_bind].
  rewrite set_prev_Some by done. eexists. split; [reflexivity|]. split; [|split].
  - split; [split; cbn; by heap_simpl|]. apply NoDup_singleton.
  - intros q Hq. cbn. assert (q <> x) by set_solver. split; by heap_simpl.
  - intros q [? ?]. split; cbn [nx pv]; by apply insert_is_Some.
Qed.

(** A list none of whose nodes changed. *)
Lemma dlist_frame h h' head l ch :
  dlist h head l -> same_outside ch h h' -> (forall q, q ∈ head :: l -> q ∉ ch) -> dlist h' head l.
Proof.
  intros [Hp Hnd] Hs Hdis. split; [|done]. apply (path_frame h); [done|..]; intros q Hq;
    apply Hs, Hdis; set_solver.
Qed.

Lemma list_del_init_spec h head l1 e l2 :
  dlist h head (l1 ++ e :: l2) ->
  exists h', list_del_init h e = Some h' /\ dlist h' head (l1 ++ l2) /\ dlist h' e [] /\
    same_outside (e :: head :: l1 ++ l2) h h' /\ (forall q, node h q -> node h' q).
Proof.
  intros Hd. destruct (list_del_entry_spec h head l1 e l2 Hd) as (h1 & E & Hd1 & Hs1 & Hk1).
  unfold list_del_init. rewrite E. cbn [mbind option_bind].
  destruct (INIT_LIST_HEAD_spec h1 e) as (h2 & -> & He & Hs2 & Hk2).
  { apply Hk1. eapply dlist_node; [exact Hd|]. set_solver. }
  exists h2. split; [done|]. split.
  { apply (dlist_frame h1 h2 head _ [e]); [done..|]. destruct Hd as [_ Hnd].
    assert (NoDup (e :: head :: l1 ++ l2)) as [He' _]%NoDup_cons.
    { eapply NoDup_Permutation_proper; [|exact Hnd]. solve_Permutation. }
    set_solver. }
  split; [done|]. split; [|auto].
  intros q Hq. destruct (Hs1 q), (Hs2 q); [set_solver..|]. split; congruence.
Qed.

Lemma list_move_tail_spec h head l1 e l2 :
  dlist h head (l1 ++ e :: l2) ->
  exists h', list_move_tail h e head = Some h' /\ dlist h' head (l1 ++ l2 ++ [e]) /\
    same_outside (e :: head :: l1 ++ l2) h h' /\ (forall q, node h q -> node h' q).
Proof.
  intros Hd. destruct (list_del_entry_spec h head l1 e l2 Hd) as (h1 & E & Hd1 & Hs1 & Hk1).
  unfold list_move_tail. rewrite E. cbn [mbind option_bind].
  destruct (list_add_tail_spec h1 head (l1 ++ l2) e) as (h2 & -> & Hd2 & Hs2 & Hk2); [done|..].
  { apply Hk1. eapply dlist_node; [exact Hd|]. set_solver. }
  { destruct Hd as [_ Hnd]. assert (NoDup (e :: head :: l1 ++ l2)) as [He' _]%NoDup_cons; [|done].
    eapply NoDup_Permutation_proper; [|exact Hnd]. solve_Permutation. }
  exists h2. rewrite app_assoc. split; [done|]. split; [done|]. split; [|auto].
  intros q Hq. destruct (Hs1 q), (Hs2 q); [set_solver..|]. split; congruence.
Qed.

Lemma list_empty_spec h head l : dlist h head l -> list_empty h head = Some (bool_decide (l = [])).
Proof.
  intros [Hp Hnd]. unfold list_empty, get_next. rewrite (path_first _ _ _ _ Hp). cbn.
  destruct l as [|x l]; cbn; [by rewrite Z.eqb_refl|].
  apply NoDup_cons in Hnd as [Hh _]. rewrite (proj2 (Z.eqb_neq x head)) by set_solver. done.
Qed.

Lemma list_rotate_left_spec h head x l :
  dlist h head (x :: l) ->
  exists h', list_rotate_left h head = Some h' /\ dlist h' head (l ++ [x]) /\
    same_outside (x :: head :: l) h h' /\ (forall q, node h q -> node h' q).
Proof.
  intros Hd. unfold list_rotate_left. rewrite (list_empty_spec _ _ _ Hd). cbn [mbind option_bind].
  rewrite bool_decide_false by done. unfold get_next. destruct Hd as [Hp Hnd] eqn:Ed.
  rewrite (path_first _ _ _ _ Hp). cbn [mbind option_bind default list.head].
  destruct (list_move_tail_spec h head [] x l Hd) as (h' & E & H). exists h'. by split.
Qed.

Lemma list_length_loop_spec h head l a k fuel :
  path h a l head -> NoDup (head :: a :: l) -> (length l < fuel)%nat ->
  Z.of_nat (length l) + k + 1 < 2 ^ 32 -> 0 <= k ->
  list_length_loop fuel h head a k = Some (Z.of_nat (length l) + k + 1).
Proof.
  revert a k fuel. induction l as [|x l IH]; intros a k fuel Hp Hnd Hf Hb Hk;
    (destruct fuel as [|fuel]; [cbn in Hf; lia|]); cbn [list_length_loop];
    rewrite (proj2 (Z.eqb_neq a head)) by (apply NoDup_cons in Hnd as [Hh _]; set_solver).
  - destruct Hp as [Hn _]. unfold get_next. rewrite Hn. cbn [mbind option_bind].
    rewrite u32_small by (unfold in_u32; cbn in Hb; lia).
    destruct fuel; cbn; rewrite Z.eqb_refl; f_equal; lia.
  - destruct Hp as [[Hn _] Hp]. unfold get_next. rewrite Hn. cbn [mbind option_bind].
    rewrite u32_small by (unfold in_u32; cbn in Hb; lia).
    cbn [length] in *. rewrite IH; [f_equal; lia|done| |lia..].
    apply NoDup_cons in Hnd as [Hh [_ Hnd]%NoDup_cons]. apply NoDup_cons. set_solver.
Qed.

(** The traversal returns after as many iterations as there are entries. *)
Lemma list_length_spec h head l fuel :
  dlist h head l -> (length l <= fuel)%nat -> Z.of_nat (length l) < 2 ^ 32 ->
  list_length fuel h head = Some (Z.of_nat (length l)).
Proof.
  intros [Hp Hnd] Hf Hb. unfold list_length, get_next. rewrite (path_first _ _ _ _ Hp).
  cbn [mbind option_bind]. destruct l as [|x l]; simpl default.
  - destruct fuel; cbn; by rewrite Z.eqb_refl.
  - destruct Hp as [_ Hp]. cbn [length] in *.
    rewrite (list_length_loop_spec h head l x 0 fuel); [f_equal; lia|done|done|lia..].
Qed.

Lemma list_merge_empty_drop h keep drop K :
  dlist h keep K -> dlist h drop [] -> list_merge h keep drop = Some h.
Proof.
  intros HK HD. unfold list_merge, get_next, get_prev.
  destruct HK as [HK1 _]. rewrite (path_first _ _ _ _ HK1).
  rewrite (list_empty_spec _ _ _ HD). destruct HD as [HD1 _].
  rewrite (path_last _ _ _ _ HD1). done.
Qed.

(** The fields after the assignments of [list_merge], in both of its cases. *)
Lemma list_merge_fields h keep drop K d tl kp tln dp khp :
  let kh := after_pos keep K in
  list_empty h keep = Some (bool_decide (K = [])) -> list_empty h drop = Some false ->
  nx h !! keep = Some kh -> pv h !! keep = Some kp -> nx h !! drop = Some d -> pv h !! drop = Some tl ->
  nx h !! tl = Some tln -> pv h !! d = Some dp -> pv h !! kh = Some khp ->
  keep <> drop -> keep <> d -> keep <> tl -> kh <> drop -> kh <> d -> d <> drop -> tl <> drop ->
  exists h', list_merge h keep drop = Some h' /\
    nx h' = <[drop := drop]> (<[tl := kh]> (<[keep := d]> (nx h))) /\
    (forall q, pv h' !! q = <[drop := drop]> (<[kh := tl]> (<[d := keep]> (pv h))) !! q).
Proof.
  intros kh EK ED Ek Ekp Ed Et Etl Edp Ekhp ? ? ? ? ? ? ?.
  unfold list_merge, get_next, get_prev. rewrite Ek, Et, ED, EK. cbn [mbind option_bind].
  rewrite Ed. cbn [mbind option_bind].
  destruct (decide (K = [])) as [->|HKne].
  - rewrite bool_decide_true by done. subst kh. unfold after_pos in *. cbn in *.
    unfold set_next, set_prev. rewrite Ek. cbn. heap_simpl. cbn. rewrite Edp. cbn. heap_simpl.
    rewrite Et. cbn. heap_simpl. rewrite Ekp. cbn. heap_simpl. cbn. heap_simpl. rewrite Etl. cbn.
    heap_simpl. rewrite Ed. cbn. heap_simpl. rewrite Et. cbn.
    eexists. split; [reflexivity|]. cbn. split; [done|]. done.
  - rewrite bool_decide_false by done.
    unfold set_next, set_prev. rewrite Ek. cbn. heap_simpl. rewrite Ed. cbn. rewrite Edp. cbn.
    heap_simpl. rewrite Etl. cbn. heap_simpl. rewrite Ekhp. cbn. heap_simpl. rewrite Ed. cbn.
    heap_simpl. rewrite Et. cbn. eexists. split; [reflexivity|]. done.
Qed.

(** ** Sequences of operations on one list *)

Inductive list_op : Type :=
| LAdd (x : Z) | LAddTail (x : Z) | LDelInit (x : Z) | LMoveTail (x : Z) | LRotate.

Definition op_node (op : list_op) : option Z :=
  match op with LAdd x | LAddTail x | LDelInit x | LMoveTail x => Some x | LRotate => None end.

Definition list_step (h : heap) (head : Z) (op : list_op) : option heap :=
  match op with
  | LAdd x => list_add h x head
  | LAddTail x => list_add_tail h x head
  | LDelInit x => list_del_init h x
  | LMoveTail x => list_move_tail h x head
  | LRotate => list_rotate_left h head
  end.

(** The sequence of entries after an operation; [None] where the operation is
    not meant to be used: adding an entry that is there, removing one that is not. *)
Definition seq_step (head : Z) (l : list Z) (op : list_op) : option (list Z) :=
  match op with
  | LAdd x => if decide (x ∈ head :: l) then None else Some (x :: l)
  | LAddTail x => if decide (x ∈ head :: l) then None else Some (l ++ [x])
  | LDelInit x => if decide (x ∈ l) then Some (filter (fun y => y <> x) l) else None
  | LMoveTail x => if decide (x ∈ l) then Some (filter (fun y => y <> x) l ++ [x]) else None
  | LRotate => Some (match l with [] => [] | x :: l' => l' ++ [x] end)
  end.

Fixpoint list_run (h : heap) (head : Z) (ops : list list_op) : option heap :=
  match ops with
  | [] => Some h
  | op :: ops' => h' ← list_step h head op; list_run h' head ops'
  end.

Fixpoint seq_run (head : Z) (l : list Z) (ops : list list_op) : option (list Z) :=
  match ops with
  | [] => Some l
  | op :: ops' => l' ← seq_step head l op; seq_run head l' ops'
  end.

Definition op_allocated (h : heap) (op : list_op) : Prop :=
  match op_node op with Some x => node h x | None => True end.

Lemma filter_out_middle (l1 l2 : list Z) x :
  NoDup (l1 ++ x :: l2) -> filter (fun y => y <> x) (l1 ++ x :: l2) = l1 ++ l2.
Proof.
  intros (_ & Hd & [Hx _]%NoDup_cons)%NoDup_app. rewrite filter_app.
  assert (Hid : forall l : list Z, x ∉ l -> filter (fun y => y <> x) l = l).
  { induction l as [|y l IH]; intros Hl; [done|].
    rewrite filter_cons_True, IH by set_solver. done. }
  rewrite (Hid l1) by (intros Hin; apply (Hd x Hin); by left).
  rewrite filter_cons_False by (by intros []). by rewrite Hid.
Qed.

Lemma list_step_refines h head l op l' :
  dlist h head l -> op_allocated h op -> seq_step head l op = Some l' ->
  exists h', list_step h head op = Some h' /\ dlist h' head l' /\ (forall q, node h q -> node h' q).
Proof.
  intros Hd Ha Hs. destruct op as [x|x|x|x|]; cbn in Hs.
  - case_decide; [done|]. injection Hs as <-.
    destruct (list_add_spec h head l x) as (h' & ? & ? & _ & ?); eauto.
  - case_decide; [done|]. injection Hs as <-.
    destruct (list_add_tail_spec h head l x) as (h' & ? & ? & _ & ?); eauto.
  - case_decide as Hin; [|done]. injection Hs as <-.
    apply list_elem_of_split in Hin as (l1 & l2 & ->).
    rewrite filter_out_middle by (by destruct Hd as [_ [_ ?]%NoDup_cons]).
    destruct (list_del_init_spec h head l1 x l2 Hd) as (h' & ? & ? & _ & _ & ?). eauto.
  - case_decide as Hin; [|done]. injection Hs as <-.
    apply list_elem_of_split in Hin as (l1 & l2 & ->).
    rewrite filter_out_middle, <-app_assoc by (by destruct Hd as [_ [_ ?]%NoDup_cons]).
    destruct (list_move_tail_spec h head l1 x l2 Hd) as (h' & ? & ? & _ & ?). eauto.
  - injection Hs as <-. destruct l as [|x l].
    + exists h. cbn. unfold list_rotate_left. rewrite (list_empty_spec _ _ _ Hd). done.
    + destruct (list_rotate_left_spec h head x l Hd) as (h' & ? & ? & _ & ?). eauto.
Qed.

Lemma list_run_refines h head l ops l' :
  dlist h head l -> Forall (op_allocated h) ops -> seq_run head l ops = Some l' ->
  exists h', list_run h head ops = Some h' /\ dlist h' head l'.
Proof.
  revert h l. induction ops as [|op ops IH]; intros h l Hd Ha Hs; cbn in *.
  - injection Hs as <-. eauto.
  - apply Forall_cons in Ha as [Ha Has].
    destruct (seq_step head l op) as [l1|] eqn:E; [|done]. cbn in Hs.
    destruct (list_step_refines h head l op l1 Hd Ha E) as (h1 & -> & Hd1 & Hk). cbn.
    apply (IH h1 l1); [done| |done]. eapply Forall_impl; [exact Has|].
    intros op' Hop. unfold op_allocated in *. destruct (op_node op'); auto.
Qed.

(** ** Properties *)

(** C33: the intrusive list refines a sequence of entries: every sequence of
    adds, removals, moves and rotations that makes sense on the sequence runs
    without accessing an invalid node, and leaves a circular list, linked both
    ways, of exactly those entries, whose length the traversal returns. *)
Theorem list_head_refines h head ops l fuel :
  node h head -> Forall (op_allocated h) ops -> seq_run head [] ops = Some l ->
  (length l <= fuel)%nat -> Z.of_nat (length l) < 2 ^ 32 ->
  exists h0 h', INIT_LIST_HEAD h head = Some h0 /\ list_run h0 head ops = Some h' /\
    dlist h' head l /\ list_length fuel h' head = Some (Z.of_nat (length l)).
Proof.
  intros Hh Ha Hs Hf Hb.
  destruct (INIT_LIST_HEAD_spec h head Hh) as (h0 & E0 & Hd0 & _ & Hk).
  destruct (list_run_refines h0 head [] ops l Hd0) as (h' & E & Hd); [|done|].
  { eapply Forall_impl; [exact Ha|]. intros op. unfold op_allocated. destruct (op_node op); auto. }
  exists h0, h'. split_and!; auto. by apply list_length_spec.
Qed.

Definition demo_heap : heap :=
  Heap (list_to_map (map (fun p => (p, 0)) [10; 20; 30; 40]))
       (list_to_map (map (fun p => (p, 0)) [10; 20; 30; 40])).

Lemma list_head_refines_witness :
  exists h0 h', INIT_LIST_HEAD demo_heap 10 = Some h0 /\
    list_run h0 10 [LAddTail 20; LAdd 30; LAddTail 40; LRotate; LDelInit 20] = Some h' /\
    dlist h' 10 [40; 30] /\ list_length 5 h' 10 = Some 2.
Proof.
  apply (list_head_refines demo_heap 10 [LAddTail 20; LAdd 30; LAddTail 40; LRotate; LDelInit 20] [40; 30] 5).
  - split; eexists; vm_compute; reflexivity.
  - repeat constructor; eexists; vm_compute; reflexivity.
  - vm_compute. reflexivity.
  - cbn. lia.
  - cbn. lia.
Defined.

(** A heap in which [list_merge] has put the entries [d :: D] before those of [K]. *)
Section Merged.
  Context (h h' : heap) (keep drop d : Z) (K D : list Z).
  Local Abbreviation kh := (after_pos keep K).
  Local Abbreviation tl := (before_pos d D).
  Hypothesis HK : dlist h keep K.
  Hypothesis HD : dlist h drop (d :: D).
  Hypothesis Hnd : NoDup (keep :: drop :: K ++ d :: D).
  Hypothesis Enx : nx h' = <[drop := drop]> (<[tl := kh]> (<[keep := d]> (nx h))).
  Hypothesis Epv : forall q, pv h' !! q = <[drop := drop]> (<[kh := tl]> (<[d := keep]> (pv h))) !! q.

Lemma merged_sep x y : x ∈ keep :: K -> y ∈ drop :: d :: D -> x <> y /\ y <> x.
Proof.
  assert (NoDup ((keep :: K) ++ drop :: d :: D)) as (_ & Hdis & _)%NoDup_app.
  { eapply NoDup_Permutation_proper; [|exact Hnd]. cbn. solve_Permutation. }
  intros Hx Hy. split; intros ->; by apply (Hdis y) || by apply (Hdis x).
Qed.

Lemma merged_tl : tl ∈ drop :: d :: D.
Proof. right. apply before_pos_elem. Qed.

(** The nodes whose fields are assigned are different where it matters. *)
Lemma merged_distinct : keep <> drop /\ keep <> d /\ keep <> tl /\ kh <> drop /\ kh <> d /\ kh <> tl /\ d <> drop /\ tl <> drop.
Proof.
  assert (keep ∈ keep :: K) as Hk by (by left). pose proof (after_pos_elem keep K) as Hkh. pose proof merged_tl as Ht.
  assert (d ∈ drop :: d :: D) as Hd by (right; by left). assert (drop ∈ drop :: d :: D) as Hdr by (by left).
  destruct HD as [_ [Hdd _]%NoDup_cons].
  split_and!; try (refine (proj1 (merged_sep _ _ _ _)); assumption); intros E; apply Hdd; rewrite <- E; [by left|apply before_pos_elem].
Qed.

(** From the head to the entries that were dropped, and from the last of them on. *)
Lemma merged_dropped : path h' d D kh.
Proof.
  destruct merged_distinct as (? & ? & ? & ? & ? & ? & ? & ?). pose proof (after_pos_elem keep K) as Hkh.
  destruct HD as [[_ HD1] [Hdd HDn]%NoDup_cons].
  apply (path_redirect h h' d D drop kh); [done|done|..]; rewrite ?Enx, ?Epv.
  - by heap_simpl.
  - by heap_simpl.
  - intros q Hq Hqt. rewrite ?Enx. destruct (merged_sep keep q); [by left|by right|].
    assert (q <> drop) by (by intros ->). by heap_simpl.
  - intros q Hq. rewrite Epv. destruct (merged_sep kh q Hkh); [by right; right|].
    assert (q <> drop) by (intros ->; apply Hdd; by right).
    assert (q <> d) by (apply NoDup_cons in HDn as [? _]; by intros ->). by heap_simpl.
Qed.

Lemma merged_kept k K' : K = k :: K' -> path h' k K' keep.
Proof.
  intros EK. destruct HK as [HK1 [Hkk HKn]%NoDup_cons]. rewrite EK in HK1, Hkk, HKn. destruct HK1 as [_ HK2].
  assert (forall q, q ∈ keep :: k :: K' -> q <> drop /\ q <> d /\ q <> tl) as Hsep.
  { intros q Hq. rewrite <- EK in Hq. split_and!; refine (proj1 (merged_sep q _ Hq _)); [by left|right; by left|apply merged_tl]. }
  apply (path_frame h); [done|..]; intros q Hq; rewrite ?Enx, ?Epv.
  - destruct (Hsep q) as (? & ? & ?); [by right|]. assert (q <> keep) by (by intros ->). by heap_simpl.
  - assert (q ∈ keep :: k :: K') as Hq' by (apply elem_of_app in Hq as [Hq| ->%list_elem_of_singleton]; [by right; right|by left]).
    destruct (Hsep q Hq') as (? & ? & ?). assert (q <> kh).
    { rewrite EK. intros ->. apply elem_of_app in Hq as [Hq|Hq%list_elem_of_singleton].
      - by apply NoDup_cons in HKn as [? _].
      - apply Hkk. rewrite <- Hq. by left. }
    by heap_simpl.
Qed.

Lemma merged_dlist : dlist h' keep (d :: D ++ K).
Proof.
  destruct merged_distinct as (? & ? & ? & ? & ? & ? & ? & ?). split.
  - cbn [path]. split; [split; [rewrite Enx|rewrite Epv]; by heap_simpl|].
    pose proof merged_dropped as Hdrop. pose proof merged_kept as Hkept.
    destruct K as [|k K']; [by rewrite app_nil_r|]. apply path_app. split; [done|by apply Hkept].
  - apply NoDup_cons in Hnd as [? [? ?]%NoDup_cons].
    eapply NoDup_Permutation_proper; [|apply NoDup_cons; split; [|eassumption]]; [cbn; solve_Permutation|set_solver].
Qed.

Lemma merged_outside : same_outside (keep :: drop :: K ++ d :: D) h h'.
Proof.
  intros q Hq. rewrite Enx, Epv. pose proof (after_pos_elem keep K) as Hkh. pose proof merged_tl as Ht.
  assert (q <> keep /\ q <> drop /\ q <> d /\ q <> kh /\ q <> tl) as (? & ? & ? & ? & ?) by (split_and!; intros ->; set_solver).
  split; by heap_simpl.
Qed.
End Merged.

(** Merging two disjoint lists puts the entries of the dropped list before
    those of the kept one, in order, leaves the dropped list empty and changes no
    other node. *)
Theorem list_merge_correct h keep drop K D :
  dlist h keep K -> dlist h drop D -> NoDup (keep :: drop :: K ++ D) ->
  exists h', list_merge h keep drop = Some h' /\ dlist h' keep (D ++ K) /\ dlist h' drop [] /\
    same_outside (keep :: drop :: K ++ D) h h'.
Proof.
  intros HK HD Hnd. destruct D as [|d D].
  { exists h. rewrite (list_merge_empty_drop _ _ _ _ HK HD). by split_and!. }
  destruct (merged_distinct h keep drop d K D HD Hnd) as (? & ? & ? & ? & ? & ? & ? & ?).
  pose proof (after_pos_elem keep K) as Hkh. pose proof (merged_tl drop d D) as Ht.
  destruct (dlist_node _ _ _ _ HD Ht) as [[tln Etl] _]. destruct (dlist_node _ _ _ _ HK Hkh) as [_ [khp Ekhp]].
  destruct (dlist_node _ _ _ d HD) as [_ [dp Edp]]; [right; by left|].
  destruct (list_merge_fields h keep drop K d (before_pos d D) (before_pos keep K) tln dp khp) as (h' & -> & Enx & Epv); try done.
  - apply (list_empty_spec _ _ _ HK).
  - apply (list_empty_spec _ _ _ HD).
  - apply (path_first _ _ _ _ (proj1 HK)).
  - apply (path_last _ _ _ _ (proj1 HK)).
  - apply (proj1 HD).
  - apply (path_last _ _ _ _ (proj2 (proj1 HD))).
  - exists h'. split; [done|]. split; [by apply (merged_dlist h h' keep drop d K D)|].
    split; [|by apply (merged_outside h h' keep drop d K D)].
    split; [|apply NoDup_singleton]. split; [rewrite Enx|rewrite Epv]; by heap_simpl.
Qed.

Definition merge_heap : heap :=
  Heap (list_to_map [(1, 2); (2, 1); (3, 4); (4, 5); (5, 3)])
       (list_to_map [(1, 2); (2, 1); (3, 5); (4, 3); (5, 4)]).

Lemma list_merge_correct_witness :
  exists h', list_merge merge_heap 1 3 = Some h' /\ dlist h' 1 [4; 5; 2] /\ dlist h' 3 [] /\
    same_outside [1; 3; 2; 4; 5] merge_heap h'.
Proof.
  apply (list_merge_correct merge_heap 1 3 [2] [4; 5]).
  - split; [repeat split; vm_compute; reflexivity|]. repeat constructor; set_solver.
  - split; [repeat split; vm_compute; reflexivity|]. repeat constructor; set_solver.
  - repeat constructor; set_solver.
Defined.
