(* ===== verification/StringUtils.v ===== *)
(** * Strings

    common/string_utils.h and the number conversions of the C++ standard
    library that the sources use ([std::to_string], [std::stoi],
    [std::stoull]).  A [std::string] is a [string]. *)

From S2P Require Import Prelude.
From stdpp Require Export pretty.
From Stdlib Require Export Ascii.
Local Open Scope Z_scope.

Definition COMMA : ascii := ",".
Definition COLON : ascii := ":".
Definition DELIMITER : ascii := COMMA.

(** [cur.push_back(c)] *)
Definition push_back (s : string) (c : ascii) : string := (s ++ String c EmptyString)%string.

(** ** Splitting *)

(** Repeated [std::getline(stream, item, delimiter)]: [cur] is the item being
    extracted, [None] before its first character. *)
Fixpoint getlines (delimiter : ascii) (s : string) (cur : option string) : list string :=
  match s with
  | EmptyString => match cur with None => [] | Some item => [item] end
  | String c s' =>
      if decide (c = delimiter) then default EmptyString cur :: getlines delimiter s' None
      else getlines delimiter s' (Some (push_back (default EmptyString cur) c))
  end.

Definition SplitString (str : string) (delimiter : ascii) : list string :=
  if decide (str = EmptyString) then [EmptyString] else getlines delimiter str None.

(** [std::isspace] in the C locale. *)
Definition isspace (c : ascii) : bool :=
  let n := nat_of_ascii c in ((9 <=? n) && (n <=? 13) || (n =? 32))%nat.

(** The first loop of [TrimCopy]. *)
Fixpoint trim_front (s : string) : string :=
  match s with
  | String c s' => if isspace c then trim_front s' else s
  | EmptyString => EmptyString
  end.

(** The second loop of [TrimCopy]: drop the characters at the end. *)
Fixpoint trim_back (s : string) : string :=
  match s with
  | EmptyString => EmptyString
  | String c s' =>
      match trim_back s' with
      | EmptyString => if isspace c then EmptyString else String c EmptyString
      | r => String c r
      end
  end.

Definition TrimCopy (str_view : string) : string := trim_back (trim_front str_view).

(** [std::tolower] and [std::toupper] in the C locale. *)
Definition tolower (c : ascii) : ascii :=
  let n := nat_of_ascii c in
  if ((65 <=? n) && (n <=? 90))%nat then ascii_of_nat (n + 32) else c.

Definition toupper (c : ascii) : ascii :=
  let n := nat_of_ascii c in
  if ((97 <=? n) && (n <=? 122))%nat then ascii_of_nat (n - 32) else c.

Fixpoint transform (f : ascii -> ascii) (s : string) : string :=
  match s with EmptyString => EmptyString | String c s' => String (f c) (transform f s') end.

Definition ToLower (str : string) : string := transform tolower str.
Definition ToUpper (str : string) : string := transform toupper str.

(** The variables of the loop of [SplitByComma]. *)
Record split_state : Type := SplitState {
  out : list string;
  cur : string;
  in_quotes : bool;
  quote : ascii;
  escape : bool;
}.

(** A token is kept when it is not empty or [keep_empty] holds. *)
Definition emit_token (keep_empty trim_tokens : bool) (out : list string) (cur : string)
    : list string :=
  let tok := if trim_tokens then TrimCopy cur else cur in
  if negb (bool_decide (tok = EmptyString)) || keep_empty then out ++ [tok] else out.

Definition is_quote (cha : ascii) : bool :=
  bool_decide (cha = ascii_of_nat 34) || bool_decide (cha = ascii_of_nat 39).

Definition split_step (keep_empty respect_quotes trim_tokens : bool) (s : split_state)
    (cha : ascii) : split_state :=
  if escape s then SplitState (out s) (push_back (cur s) cha) (in_quotes s) (quote s) false
  else if bool_decide (cha = "\"%char) then
    SplitState (out s) (cur s) (in_quotes s) (quote s) true
  else if respect_quotes && is_quote cha && negb (in_quotes s) then
    SplitState (out s) (cur s) true cha false
  else if respect_quotes && is_quote cha && bool_decide (quote s = cha) then
    SplitState (out s) (cur s) false zero false
  else if bool_decide (cha = COMMA) && negb (in_quotes s) then
    SplitState (emit_token keep_empty trim_tokens (out s) (cur s)) EmptyString
      (in_quotes s) (quote s) (escape s)
  else SplitState (out s) (push_back (cur s) cha) (in_quotes s) (quote s) (escape s).

Fixpoint split_loop (keep_empty respect_quotes trim_tokens : bool) (s : split_state)
    (str : string) : split_state :=
  match str with
  | EmptyString => s
  | String cha str' =>
      split_loop keep_empty respect_quotes trim_tokens
        (split_step keep_empty respect_quotes trim_tokens s cha) str'
  end.

Definition SplitByComma (str : string) (keep_empty respect_quotes trim_tokens : bool)
    : list string :=
  let s := split_loop keep_empty respect_quotes trim_tokens
             (SplitState [] EmptyString false zero false) str in
  emit_token keep_empty trim_tokens (out s) (cur s).

(** ** Numbers *)

Definition is_digit (c : ascii) : bool :=
  let n := nat_of_ascii c in ((48 <=? n) && (n <=? 57))%nat.

Definition digit_value (c : ascii) : Z := Z.of_nat (nat_of_ascii c) - 48.

(** The longest prefix of digits. *)
Fixpoint read_digits (acc : Z) (s : string) : Z :=
  match s with
  | String c s' => if is_digit c then read_digits (10 * acc + digit_value c) s' else acc
  | EmptyString => acc
  end.

Definition starts_with_digit (s : string) : bool :=
  match s with String c _ => is_digit c | EmptyString => false end.

(** The number [strtol]/[strtoull] read in base 10: its sign and magnitude;
    [None] when no conversion can be performed. *)
Definition strto (s : string) : option (bool * Z) :=
  let s := trim_front s in
  let '(neg, s) := match s with
                   | String c s' => if bool_decide (c = "-"%char) then (true, s')
                                    else if bool_decide (c = "+"%char) then (false, s')
                                    else (false, s)
                   | EmptyString => (false, s)
                   end in
  if starts_with_digit s then Some (neg, read_digits 0 s) else None.

Definition stoi (s : string) : result Z :=
  match strto s with
  | None => Throw "stoi"
  | Some (neg, m) =>
      let v := if neg : bool then - m else m in
      if bool_decide (in_i32 v) then Ok v else Throw "stoi"
  end.

Definition stoull (s : string) : result Z :=
  match strto s with
  | None => Throw "stoull"
  | Some (neg, m) =>
      if bool_decide (in_u64 m) then Ok (if neg : bool then u64 (- m) else m)
      else Throw "stoull"
  end.

(** [std::to_string] of an integer. *)
Definition to_string (z : Z) : string := pretty z.

Definition SplitByCommaToInts (str : string) : result (list Z) :=
  map_result stoi (SplitByComma str false false true).

(** ** Texts for log lines *)

(** [std::hex] of a stream: the digits of an unsigned number, at most [fuel] of them. *)
Definition hex_digit (n : Z) : ascii := ascii_of_nat (Z.to_nat (if n <? 10 then 48 + n else 87 + n)).

Fixpoint hex_digits (fuel : nat) (x : Z) (cur : string) : string :=
  match fuel with
  | O => cur
  | S fuel' =>
      let cur := String (hex_digit (x mod 16)) cur in
      if x <? 16 then cur else hex_digits fuel' (x / 16) cur
  end.

(** [std::setfill(c) << std::setw(n)] for a text that is printed at the right. *)
Fixpoint fill_left (c : ascii) (n : nat) (s : string) : string :=
  match n with O => s | S n' => String c (fill_left c n' s) end.

(** A pointer has 8 bytes. *)
Definition PointerToHexString (ptr : Z) : string :=
  let digits := hex_digits 16 ptr EmptyString in
  ("0x" ++ fill_left "0" (16 - String.length digits) digits)%string.

Definition ToString (strings : list string) : string :=
  ("[" ++ foldr (fun str rest => str ++ ", " ++ rest) "]" strings)%string.

(** ** Searching *)

(** [boost::algorithm::starts_with(s, p)] *)
Fixpoint has_prefix (p s : string) : bool :=
  match p, s with
  | EmptyString, _ => true
  | String c p', String d s' => bool_decide (c = d) && has_prefix p' s'
  | _, EmptyString => false
  end.

(** [s.find(p) != npos] *)
Fixpoint contains (p s : string) : bool :=
  has_prefix p s || match s with String _ s' => contains p s' | EmptyString => false end.

(** ** Lemmas on strings *)

Fixpoint join (d : ascii) (l : list string) : string :=
  match l with
  | [] => EmptyString
  | [s] => s
  | s :: l' => (s ++ String d (join d l'))%string
  end.

(** Every character of a string satisfies [P]. *)
Fixpoint all_chars (P : ascii -> Prop) (s : string) : Prop :=
  match s with EmptyString => True | String c s' => P c /\ all_chars P s' end.

Lemma string_app_cons c s t : (String c s ++ t)%string = String c (s ++ t).
Proof. done. Qed.

Lemma string_app_nil s : (s ++ EmptyString)%string = s.
Proof. induction s as [|c s IH]; [done|]. rewrite string_app_cons. congruence. Qed.

Lemma string_app_assoc a b c : ((a ++ b) ++ c = a ++ (b ++ c))%string.
Proof. induction a as [|x a IH]; [done|]. rewrite !string_app_cons. congruence. Qed.

Lemma push_back_app s c t : (push_back s c ++ t = s ++ String c t)%string.
Proof. unfold push_back. now rewrite string_app_assoc. Qed.

Lemma all_chars_app P a b : all_chars P a -> all_chars P b -> all_chars P (a ++ b)%string.
Proof.
  induction a as [|c a IH]; [done|]. rewrite string_app_cons. cbn. naive_solver.
Qed.

Lemma all_chars_impl (P Q : ascii -> Prop) s :
  (forall c, P c -> Q c) -> all_chars P s -> all_chars Q s.
Proof. intros HPQ. induction s; cbn; naive_solver. Qed.

(** ** Reading back printed numbers *)

Lemma read_digits_go x : forall s, read_digits 0 (pretty_N_go x s) = read_digits (Z.of_N x) s.
Proof.
  induction (N.lt_wf_0 x) as [x _ IH]; intros s.
  destruct (decide (x = 0%N)) as [->|Hx]; [done|].
  rewrite pretty_N_go_step by lia. rewrite IH by (apply N.div_lt; lia).
  assert (Hm : (x mod 10 < 10)%N) by (apply N.mod_lt; lia).
  assert (Hx10 : Z.of_N x = 10 * Z.of_N (x / 10) + Z.of_N (x mod 10)).
  { rewrite N2Z.inj_div, N2Z.inj_mod. apply Z.div_mod. lia. }
  rewrite Hx10. destruct (x mod 10)%N as [|p]; [reflexivity|].
  do 4 (try destruct p as [p|p|]); try reflexivity; lia.
Qed.

Lemma pretty_N_digits x s : all_chars (fun c => is_digit c) s ->
  all_chars (fun c => is_digit c) (pretty_N_go x s).
Proof.
  revert s. induction (N.lt_wf_0 x) as [x _ IH]; intros s Hs.
  destruct (decide (x = 0%N)) as [->|Hx]; [done|].
  rewrite pretty_N_go_step by lia. apply IH; [apply N.div_lt; lia|]. split; [|done].
  unfold pretty_N_char. by repeat case_match.
Qed.

Lemma pretty_N_go_nonempty x s : s <> EmptyString -> pretty_N_go x s <> EmptyString.
Proof.
  revert s. induction (N.lt_wf_0 x) as [x _ IH]; intros s Hs.
  destruct (decide (x = 0%N)) as [->|Hx]; [done|].
  rewrite pretty_N_go_step by lia. apply IH; [apply N.div_lt; lia|done].
Qed.

Lemma pretty_N_spec x :
  all_chars (fun c => is_digit c) (pretty x) /\ pretty x <> EmptyString /\
  read_digits 0 (pretty x) = Z.of_N x.
Proof.
  unfold pretty, pretty_N. case_decide as Hx; [subst; done|]. split_and!.
  - by apply pretty_N_digits.
  - rewrite pretty_N_go_step by lia. by apply pretty_N_go_nonempty.
  - apply read_digits_go.
Qed.

Lemma digit_not_space c : is_digit c -> isspace c = false.
Proof.
  unfold is_digit, isspace. rewrite <- Bool.not_true_iff_false.
  intros H%Is_true_true H'. destruct (nat_of_ascii c =? 32)%nat eqn:E; [|
    rewrite Bool.orb_false_r in H'].
  - apply Nat.eqb_eq in E. rewrite E in H. done.
  - apply andb_true_iff in H as [H1%Nat.leb_le H2%Nat.leb_le].
    apply andb_true_iff in H' as [_ H3%Nat.leb_le]. lia.
Qed.

Lemma digits_trim s : all_chars (fun c => is_digit c) s -> trim_front s = s.
Proof. destruct s as [|c s]; cbn; [done|]. intros [Hc _]. by rewrite digit_not_space. Qed.

Lemma strto_digits s : all_chars (fun c => is_digit c) s -> s <> EmptyString ->
  strto s = Some (false, read_digits 0 s).
Proof.
  intros Hs Hne. unfold strto. rewrite digits_trim by done.
  destruct s as [|c s]; [done|]. destruct Hs as [Hc _]. cbn [starts_with_digit].
  rewrite !bool_decide_eq_false_2 by (intros ->; vm_compute in Hc; exact Hc).
  cbn [starts_with_digit]. destruct (is_digit c); done.
Qed.

Lemma strto_neg s : all_chars (fun c => is_digit c) s -> s <> EmptyString ->
  strto (String "-" s) = Some (true, read_digits 0 s).
Proof.
  intros Hs Hne.
  change (strto (String "-" s)) with (if starts_with_digit s then Some (true, read_digits 0 s) else None).
  destruct s as [|c s]; [done|]. destruct Hs as [Hc _]. cbn [starts_with_digit].
  destruct (is_digit c); done.
Qed.

Lemma strto_to_string z : strto (to_string z) = Some (z <? 0, Z.abs z).
Proof.
  unfold to_string. destruct z as [|p|p]; [reflexivity|..].
  - change (pretty (Z.pos p)) with (pretty (N.pos p)).
    destruct (pretty_N_spec (N.pos p)) as (H1 & H2 & H3). rewrite strto_digits, H3 by done. done.
  - change (pretty (Z.neg p)) with (String "-" (pretty (N.pos p))).
    destruct (pretty_N_spec (N.pos p)) as (H1 & H2 & H3). rewrite strto_neg, H3 by done. done.
Qed.

Lemma stoi_to_string z : in_i32 z -> stoi (to_string z) = Ok z.
Proof.
  intros Hz. unfold stoi. rewrite strto_to_string.
  assert ((if z <? 0 then - Z.abs z else Z.abs z) = z) as -> by (case_cmp; lia).
  by rewrite bool_decide_eq_true_2.
Qed.

Lemma stoull_to_string z : in_u64 z -> stoull (to_string z) = Ok z.
Proof.
  intros Hz. unfold stoull. rewrite strto_to_string.
  assert (Hz' := Hz). unfold in_u64 in Hz'. rewrite Z.abs_eq by lia.
  rewrite bool_decide_eq_true_2 by done. destruct (Z.ltb_spec z 0); [lia|done].
Qed.

(** ** Lengths *)

Lemma string_length_app (a b : string) : String.length (a ++ b)%string = (String.length a + String.length b)%nat.
Proof. induction a as [|c a IH]; [done|]. rewrite string_app_cons. cbn. by rewrite IH. Qed.

Lemma pretty_go_length k : forall x s, (x < 10 ^ N.of_nat k)%N ->
  (String.length (pretty_N_go x s) <= k + String.length s)%nat.
Proof.
  induction k as [|k IH]; intros x s Hx.
  - change (10 ^ N.of_nat 0)%N with 1%N in Hx. assert (x = 0%N) as -> by lia. done.
  - destruct (decide (x = 0%N)) as [->|Hne]; [rewrite pretty_N_go_0; lia|]. rewrite pretty_N_go_step by lia.
    etransitivity; [apply IH|cbn; lia].
    apply N.Div0.div_lt_upper_bound. rewrite Nat2N.inj_succ, N.pow_succ_r' in Hx. lia.
Qed.

Lemma to_string_length z : in_i32 z -> (String.length (to_string z) <= 11)%nat.
Proof.
  intros Hz. unfold in_i32 in Hz. unfold to_string. destruct z as [|p|p]; [cbn; lia| |].
  - change (pretty (Z.pos p)) with (pretty_N_go (N.pos p) EmptyString).
    pose proof (pretty_go_length 10 (N.pos p) EmptyString). cbn [String.length] in *. lia.
  - change (pretty (Z.neg p)) with (String "-" (pretty_N_go (N.pos p) EmptyString)).
    pose proof (pretty_go_length 10 (N.pos p) EmptyString). cbn [String.length] in *. lia.
Qed.

Lemma to_string_length_u64 k : in_u64 k -> (String.length (to_string k) <= 20)%nat.
Proof.
  intros [H0 H1]. unfold to_string. destruct k as [|p|p]; [cbn; lia| |lia].
  change (pretty (Z.pos p)) with (pretty_N_go (N.pos p) EmptyString).
  apply (pretty_go_length 20). change (10 ^ N.of_nat 20)%N with 100000000000000000000%N. lia.
Qed.

Lemma to_string_inj j k : to_string j = to_string k -> j = k.
Proof.
  intros E. apply (f_equal strto) in E. rewrite !strto_to_string in E. injection E as Hs Ha.
  destruct (Z.ltb_spec j 0), (Z.ltb_spec k 0); try done; lia.
Qed.

Lemma substring_all n s : (String.length s <= n)%nat -> String.substring 0 n s = s.
Proof.
  revert n. induction s as [|c s IH]; intros [|n] Hn; cbn in *; try done; [lia|].
  by rewrite IH by lia.
Qed.

Lemma has_prefix_refl p : has_prefix p p = true.
Proof. induction p as [|c p IH]; [done|]. cbn. by rewrite bool_decide_eq_true_2, IH. Qed.

(** ** Splitting on a delimiter *)

Lemma getlines_item d s t cur : all_chars (fun c => c <> d) s ->
  getlines d (s ++ t) (Some cur) = getlines d t (Some (cur ++ s)%string).
Proof.
  revert cur. induction s as [|c s IH]; intros cur Hs; [by rewrite string_app_nil|].
  destruct Hs as [Hc Hs]. rewrite string_app_cons. cbn. rewrite decide_False by done.
  rewrite IH by done. by rewrite push_back_app.
Qed.

(** An item followed by a delimiter is extracted, and the rest starts anew. *)
Lemma getlines_delim d s t : all_chars (fun c => c <> d) s ->
  getlines d (s ++ String d t) None = s :: getlines d t None.
Proof.
  intros Hs. destruct s as [|c s].
  - change ((EmptyString ++ String d t)%string) with (String d t). cbn. by rewrite decide_True.
  - destruct Hs as [Hc Hs]. rewrite string_app_cons. cbn. rewrite decide_False by done.
    rewrite getlines_item by done. cbn. by rewrite decide_True.
Qed.

Lemma getlines_last d s : all_chars (fun c => c <> d) s -> s <> EmptyString ->
  getlines d s None = [s].
Proof.
  intros Hs Hne. destruct s as [|c s]; [done|]. destruct Hs as [Hc Hs]. cbn.
  rewrite decide_False by done. rewrite <- (string_app_nil s) at 1.
  by rewrite getlines_item.
Qed.

Lemma join_nonempty d l s : last l = Some s -> s <> EmptyString -> join d l <> EmptyString.
Proof.
  destruct l as [|a [|b l]]; cbn; [done|intros [= ->]; done|].
  intros _ _. by destruct a.
Qed.

(** Items without the delimiter, the last of them not empty, survive joining
    and splitting. *)
Lemma SplitString_join d l s :
  Forall (all_chars (fun c => c <> d)) l -> last l = Some s -> s <> EmptyString ->
  SplitString (join d l) d = l.
Proof.
  intros Hl Hlast Hne. unfold SplitString.
  rewrite decide_False by (eapply join_nonempty; eauto).
  induction Hl as [|a l Ha Hl IH]; [done|]. destruct l as [|b l].
  - cbn in Hlast. injection Hlast as ->. by apply getlines_last.
  - change (join d (a :: b :: l)) with ((a ++ String d (join d (b :: l)))%string).
    rewrite getlines_delim by done. f_equal. by apply IH.
Qed.

(** ** Splitting with quotes and escapes *)

(** The text [e] is read as the token [t]. *)
Definition reads_as (ke rq tr : bool) (e t : string) : Prop :=
  forall o c q, split_loop ke rq tr (SplitState o c false q false) e =
                SplitState o (c ++ t)%string false q false.

Lemma split_loop_app ke rq tr s a b :
  split_loop ke rq tr s (a ++ b)%string = split_loop ke rq tr (split_loop ke rq tr s a) b.
Proof. revert s. induction a as [|c a IH]; intros s; [done|]. rewrite string_app_cons. apply IH. Qed.

Lemma split_step_comma ke rq tr o c q :
  split_step ke rq tr (SplitState o c false q false) COMMA =
  SplitState (emit_token ke tr o c) EmptyString false q false.
Proof. unfold split_step. cbn. by rewrite !Bool.andb_false_r. Qed.

Lemma split_by_comma_join ke rq tr es ts : es <> [] -> Forall2 (reads_as ke rq tr) es ts ->
  SplitByComma (join COMMA es) ke rq tr = foldl (emit_token ke tr) [] ts.
Proof.
  intros Hne H. unfold SplitByComma. cbn zeta. generalize zero as q. generalize (@nil string) as o.
  induction H as [|e t es ts He H IH]; [done|]. intros o q. destruct H as [|e' t' es ts He' H].
  - cbn [join foldl]. rewrite He. done.
  - change (join COMMA (e :: e' :: es)) with ((e ++ String COMMA (join COMMA (e' :: es)))%string).
    rewrite split_loop_app, He. cbn [split_loop]. rewrite split_step_comma.
    cbn [foldl]. by apply IH.
Qed.

(** Every character behind a backslash. *)
Fixpoint escape_all (t : string) : string :=
  match t with EmptyString => EmptyString | String c t' => String "\" (String c (escape_all t')) end.

Lemma reads_as_escaped ke rq tr t : reads_as ke rq tr (escape_all t) t.
Proof.
  induction t as [|x t IH]; intros o c q; cbn [escape_all split_loop].
  - by rewrite string_app_nil.
  - change (split_step ke rq tr (SplitState o c false q false) "\")
      with (SplitState o c false q true).
    change (split_step ke rq tr (SplitState o c false q true) x)
      with (SplitState o (push_back c x) false q false).
    rewrite IH. by rewrite push_back_app.
Qed.

Definition plain (rq : bool) (c : ascii) : Prop :=
  c <> "\"%char /\ c <> COMMA /\ (rq && is_quote c = false).

Lemma reads_as_plain ke rq tr t : all_chars (plain rq) t -> reads_as ke rq tr t t.
Proof.
  induction t as [|x t IH]; intros Ht o c q; cbn [split_loop].
  - by rewrite string_app_nil.
  - destruct Ht as [(H1 & H2 & H3) Ht]. unfold split_step at 1. cbn [escape cur out in_quotes quote].
    rewrite (bool_decide_eq_false_2 (x = "\"%char)), H3, (bool_decide_eq_false_2 (x = COMMA)) by done.
    cbn [andb]. rewrite IH by done. by rewrite push_back_app.
Qed.

Lemma foldl_emit_keep ts o : foldl (emit_token true false) o ts = o ++ ts.
Proof.
  revert o. induction ts as [|t ts IH]; intros o; cbn [foldl]; [by rewrite app_nil_r|].
  unfold emit_token at 2. rewrite Bool.orb_true_r, IH. by rewrite <- app_assoc.
Qed.

(** Splitting is the inverse of escaping: for any tokens whatever, commas, quotes,
    backslashes and blanks included, writing each character behind a backslash and
    joining with commas is split back into the same tokens, with or without quote
    handling. *)
Theorem split_by_comma_escaped (ts : list string) (respect_quotes : bool) : ts <> [] ->
  SplitByComma (join COMMA (map escape_all ts)) true respect_quotes false = ts.
Proof.
  intros Hne. rewrite (split_by_comma_join _ _ _ _ ts).
  - by rewrite foldl_emit_keep.
  - by destruct ts.
  - apply Forall2_fmap_l, Forall_Forall2_diag, Forall_true. intros t. apply reads_as_escaped.
Qed.

Lemma split_by_comma_escaped_witness :
  SplitByComma (join COMMA (map escape_all ["a,b"; EmptyString; " 'c\"])) true true false =
  ["a,b"; EmptyString; " 'c\"].
Proof. apply split_by_comma_escaped. discriminate. Defined.

(** The characters of a printed integer. *)
Definition int_char (c : ascii) : Prop := is_digit c \/ c = "-"%char.

Lemma to_string_chars z : all_chars int_char (to_string z) /\ to_string z <> EmptyString.
Proof.
  unfold to_string. destruct z as [|p|p].
  - split; [|done]. split; [by left|done].
  - change (pretty (Z.pos p)) with (pretty (N.pos p)).
    destruct (pretty_N_spec (N.pos p)) as (H1 & H2 & _). split; [|done].
    eapply all_chars_impl; [|exact H1]. by left.
  - change (pretty (Z.neg p)) with (String "-" (pretty (N.pos p))).
    destruct (pretty_N_spec (N.pos p)) as (H1 & H2 & _). split; [|done]. split; [by right|].
    eapply all_chars_impl; [|exact H1]. by left.
Qed.

Lemma int_char_not c d : int_char c -> is_digit d = false -> d <> "-"%char -> c <> d.
Proof. intros [H|H] Hd Hne <-; [by rewrite Hd in H|done]. Qed.

Lemma int_char_plain c : int_char c -> plain false c.
Proof. intros H. split_and!; [..|done]; by apply int_char_not. Qed.

Lemma trim_front_id P s : (forall c, P c -> isspace c = false) -> all_chars P s -> trim_front s = s.
Proof. intros HP. destruct s as [|c s]; [done|]. intros [Hc _]. cbn. by rewrite HP. Qed.

Lemma trim_back_id P s : (forall c, P c -> isspace c = false) -> all_chars P s -> trim_back s = s.
Proof.
  intros HP. induction s as [|c s IH]; [done|]. intros [Hc Hs]. cbn. rewrite IH by done.
  destruct s; [by rewrite HP|done].
Qed.

Lemma TrimCopy_int z : TrimCopy (to_string z) = to_string z.
Proof.
  assert (HP : forall c, int_char c -> isspace c = false).
  { intros c [H| ->]; [by apply digit_not_space|done]. }
  unfold TrimCopy. pose proof (to_string_chars z) as [H _].
  by erewrite trim_front_id, trim_back_id.
Qed.

Lemma foldl_emit_ints l o :
  foldl (emit_token false true) o (map to_string l) = o ++ map to_string l.
Proof.
  revert o. induction l as [|z l IH]; intros o; cbn [foldl map]; [by rewrite app_nil_r|].
  unfold emit_token at 2. rewrite TrimCopy_int.
  rewrite bool_decide_eq_false_2 by apply to_string_chars. cbn [negb orb]. rewrite IH.
  by rewrite <- app_assoc.
Qed.

Lemma SplitByComma_ints l : SplitByComma (join COMMA (map to_string l)) false false true =
  map to_string l.
Proof.
  destruct l as [|z l]; [done|]. rewrite (split_by_comma_join _ _ _ _ (map to_string (z :: l))).
  - apply foldl_emit_ints.
  - done.
  - apply Forall_Forall2_diag, Forall_fmap, Forall_true. intros x. apply reads_as_plain.
    eapply all_chars_impl; [apply int_char_plain|]. apply to_string_chars.
Qed.

(** A list of [int]s printed with commas between them is parsed back: the option
    values that hold device or port lists are read as they were written. *)
Theorem split_ints_roundtrip (l : list Z) : Forall in_i32 l ->
  SplitByCommaToInts (join COMMA (map to_string l)) = Ok l.
Proof.
  intros Hl. unfold SplitByCommaToInts. rewrite SplitByComma_ints.
  induction Hl as [|z l Hz Hl IH]; [done|]. cbn [map map_result].
  rewrite stoi_to_string by done. cbn. cbn in IH. by rewrite IH.
Qed.

Lemma split_ints_roundtrip_witness :
  SplitByCommaToInts (join COMMA (map to_string [0; -5; 2147483647])) = Ok [0; -5; 2147483647].
Proof. apply split_ints_roundtrip. repeat constructor; unfold in_i32; lia. Defined.

(** ** Pointers *)

Definition hex_value (c : ascii) : Z :=
  let n := Z.of_nat (nat_of_ascii c) in if n <? 58 then n - 48 else n - 87.

(** The number a text of hexadecimal digits stands for, after the digits [acc]. *)
Fixpoint read_hex (acc : Z) (s : string) : Z :=
  match s with EmptyString => acc | String c s' => read_hex (16 * acc + hex_value c) s' end.

Lemma hex_value_digit n : 0 <= n < 16 -> hex_value (hex_digit n) = n.
Proof.
  intros Hn. assert (Forall (fun n => hex_value (hex_digit n) = n) (seqZ 0 16)) as Hall by (vm_compute; repeat constructor).
  rewrite Forall_forall in Hall. apply Hall, elem_of_seqZ. lia.
Qed.

Lemma read_hex_digits fuel : forall x cur, 0 <= x < 16 ^ Z.of_nat fuel -> (0 < fuel)%nat ->
  read_hex 0 (hex_digits fuel x cur) = read_hex x cur /\
  (String.length (hex_digits fuel x cur) <= fuel + String.length cur)%nat.
Proof.
  induction fuel as [|fuel IH]; intros x cur Hx Hf; [lia|]. cbn [hex_digits].
  pose proof (Z.mod_pos_bound x 16). pose proof (Z.div_mod x 16). destruct (Z.ltb_spec x 16).
  - cbn [read_hex String.length]. rewrite hex_value_digit by lia. rewrite Z.mod_small by lia. split; [f_equal; lia|lia].
  - rewrite Nat2Z.inj_succ, Z.pow_succ_r in Hx by lia. destruct fuel as [|fuel]; [cbn in Hx; lia|].
    destruct (IH (x / 16) (String (hex_digit (x mod 16)) cur)) as [E L];
      [split; [apply Z.div_pos; lia|apply Z.div_lt_upper_bound; lia]|lia|].
    rewrite E. cbn [read_hex String.length] in *. rewrite hex_value_digit by lia. split; [f_equal; lia|lia].
Qed.

Lemma read_hex_fill n s : read_hex 0 (fill_left "0" n s) = read_hex 0 s.
Proof. induction n as [|n IH]; [done|]. exact IH. Qed.

Lemma fill_left_length c n s : String.length (fill_left c n s) = (n + String.length s)%nat.
Proof. induction n as [|n IH]; [done|]. cbn. by rewrite IH. Qed.

(** A pointer in a log line: sixteen digits, from which it can be read back. *)
Theorem pointer_text (ptr : Z) : in_u64 ptr ->
  exists digits, PointerToHexString ptr = ("0x" ++ digits)%string /\ String.length digits = 16%nat /\ read_hex 0 digits = ptr.
Proof.
  intros Hp. unfold in_u64 in Hp. destruct (read_hex_digits 16 ptr EmptyString) as [E L]; [exact Hp|lia|].
  eexists. split; [reflexivity|]. rewrite fill_left_length, read_hex_fill. change (String.length EmptyString) with 0%nat in L. split; [lia|exact E].
Qed.
