(* ===== verification/Options.v ===== *)
(** * Options

    common/option.h and option.cpp: the table of option definitions, the
    parsers of option values, [GetOptionValue] and [PutOptionValue], and loading
    options from the environment or from a file; common/metric_utils.h, the sampling of
    performance metrics by two of the options; common/network_utils.h, the
    address a node gives itself.

    A value of type [std::any] is a value of [any], tagged with its type; a
    [GetOptionValue<T>] names [T] by a [cxx_type].  The environment, the file
    system and the socket calls are arguments. *)

From stdpp Require Import gmap strings.
From S2P Require Import Prelude StringUtils.
Local Open Scope Z_scope.

Inductive ValueType : Type := INT | STRING | STRING_LIST | BOOL | FLOAT | DOUBLE | INT64 | UNKNOWN.

#[export] Instance ValueType_eq_dec : EqDecision ValueType.
Proof. solve_decision. Defined.

Record OptionDef : Type := { value_type : ValueType; default_value : string }.

#[export] Instance OptionDef_eq_dec : EqDecision OptionDef.
Proof. solve_decision. Defined.

Abbreviation Options := (gmap string string).
Abbreviation OptionDefinition := (gmap string OptionDef).

(** The constructor of [CreatOption]: the first definition of a name stays. *)
Definition CreatOption (defs : OptionDefinition) (o : string * ValueType * string)
    : OptionDefinition :=
  let '(name, type, default_value) := o in
  match defs !! name with
  | None => <[name := {| value_type := type; default_value := default_value |}]> defs
  | Some _ => defs
  end.

Definition ASTATE_OPTIONS_LOAD_MODE : string := "ASTATE_OPTIONS_LOAD_MODE".
Definition ASTATE_OPTIONS_FILE_PATH : string := "ASTATE_OPTIONS_FILE_PATH".
Definition TRANSFER_ENGINE_ENABLE_PERF_METRICS : string := "TRANSFER_ENGINE_ENABLE_PERF_METRICS".
Definition TRANSFER_ENGINE_SAMPLE_RATE : string := "TRANSFER_ENGINE_SAMPLE_RATE".
Definition TRANSFER_ENGINE_SAMPLE_STEP : string := "TRANSFER_ENGINE_SAMPLE_STEP".

(** The [OPTION(name, type, default_value)] lines, in the order in which their
    constructors run. *)
Definition option_table : list (string * ValueType * string) := [
  ("ASTATE_OPTIONS_LOAD_MODE", STRING, "ENV");
  ("ASTATE_OPTIONS_FILE_PATH", STRING, EmptyString);
  ("TENSOR_TRANSFER_SERVICE_TYPE", STRING, "PULL");
  ("ASTATE_DEBUG_MODE", BOOL, "false");
  ("TRANSFER_ENGINE_META_SERVICE_ADDRESS", STRING, EmptyString);
  ("TRANSFER_ENGINE_PEERS_HOST", STRING_LIST, EmptyString);
  ("TRANSFER_ENGINE_GROUP_HOST", STRING_LIST, EmptyString);
  ("TRANSFER_ENGINE_TYPE", STRING, EmptyString);
  ("TRANSFER_ENGINE_LOCAL_ADDRESS", STRING, EmptyString);
  ("TRANSFER_ENGINE_LOCAL_PORT", INT, "0");
  ("TRANSFER_ENGINE_READ_TIMEOUT_MS", INT, "120000");
  ("TRANSFER_ENGINE_WRITE_TIMEOUT_MS", INT, "120000");
  ("TRANSFER_ENGINE_READ_THREAD_NUM", INT, "32");
  ("TRANSFER_ENGINE_COPY_THREAD_NUM", INT, "32");
  ("TRANSFER_ENGINE_COPY_BUCKET_MEM_SIZE", INT64, "524288000");
  ("TRANSFER_ENGINE_COPY_LARGE_THREAD_NUM", INT, "2");
  ("TRANSFER_ENGINE_COPY_LARGE_BUCKET_MEM_SIZE", INT64, "3145728000");
  ("TRANSFER_ENGINE_COPY_SMALL_THREAD_NUM", INT, "8");
  ("TRANSFER_ENGINE_SMALL_TENSOR_COMPACT_CACHE_SIZE", INT64, "2097152");
  ("TRANSFER_ENGINE_SMALL_TENSOR_SIZE", INT64, "524288");
  ("TRANSFER_ENGINE_ENABLE_PERF_METRICS", BOOL, "false");
  ("TRANSFER_ENGINE_PERF_STATS_INTERVAL_MS", INT64, "200");
  ("TRANSFER_ENGINE_LOCAL_CACHE_TENSORS_SIZE", INT64, "20971520000");
  ("TRANSFER_ENGINE_ENABLE_LOCAL_CACHE_PREFETCH", BOOL, "false");
  ("TRANSFER_ENGINE_ENABLE_WRITE_GPU_ASYNC_COPY", BOOL, "false");
  ("TRANSFER_ENGINE_ENABLE_READ_GPU_ASYNC_COPY", BOOL, "false");
  ("TRANSFER_ENGINE_SAMPLE_RATE", INT, "100");
  ("TRANSFER_ENGINE_SAMPLE_STEP", INT, "-2");
  ("TRANSFER_ENGINE_TRAINING_PARALLEL_CONFIG", STRING_LIST, EmptyString);
  ("TRANSFER_ENGINE_INFERENCE_PARALLEL_CONFIG", STRING_LIST, EmptyString);
  ("TRANSFER_ENGINE_TENSOR_RESHARDING_KEYS", STRING_LIST, EmptyString);
  ("TRANSFER_ENGINE_SERVICE_TYPE", STRING, EmptyString);
  ("TRANSFER_ENGINE_SERVICE_ADDRESS", STRING, EmptyString);
  ("TRANSFER_ENGINE_SERVICE_PORT", INT, "0");
  ("TRANSFER_ENGINE_SERVICE_TENSOR_READY_TIMEOUT_MS", INT, "1200000");
  ("TRANSFER_ENGINE_SERVICE_SKIP_DISCOVERY", BOOL, "false");
  ("TRANSFER_ENGINE_SERVICE_FIXED_PORT", BOOL, "false");
  ("DISCOVERY_WORLD_SIZE_RETRY_COUNT", INT, "270");
  ("DISCOVERY_CONFIG_CENTER_TYPE", STRING, "FILE");
  ("TRANSFER_ENGINE_LOG_TENSOR_META", BOOL, "true");
  ("TRANSFER_ENGINE_SKIP_RDMA_EXCEPTION", BOOL, "false");
  ("TRANSFER_ENGINE_MAX_RDMA_DEVICES", INT, "2");
  ("TRANSFER_ENGINE_RDMA_NUM_POLLERS", INT, "1");
  ("TRANSPORT_RECEIVE_RETRY_COUNT", INT, "30");
  ("TRANSPORT_RECEIVE_RETRY_SLEEP_MS", INT, "3000");
  ("TRANSPORT_SEND_RETRY_COUNT", INT, "30");
  ("TRANSPORT_SEND_RETRY_SLEEP_MS", INT, "5000");
  ("TRANSFER_ENGINE_ENABLE_NUMA_RUN_BINDING", BOOL, "true");
  ("TRANSFER_ENGINE_ENABLE_NUMA_ALLOCATION", BOOL, "true");
  ("BRPC_TRANSPORT_MAX_RETRIES", INT, "90");
  ("BRPC_TRANSPORT_TIMEOUT_MS", INT, "10000");
  ("DISCOVERY_USE_BATCH_API", BOOL, "true");
  ("ASTATE_LOG_BACKEND", STRING, "SPDLOG");
  ("ASTATE_LOG_DIR", STRING, "/tmp/astate");
  ("ASTATE_LOG_LEVEL", STRING, "INFO");
  ("ASTATE_LOG_TO_CONSOLE", BOOL, "false");
  ("ASTATE_LOG_TO_FILE", BOOL, "true");
  ("ASTATE_ENABLE_GLOG_EXT", BOOL, "true");
  ("ASTATE_LOG_MAX_FILE_DAYS", INT, "5")
].

(** [GetOptionDefinitions()] once the constructors have run. *)
Definition option_definitions : OptionDefinition := foldl CreatOption ∅ option_table.

(** ** Parsing values *)

(** Reading floating-point numbers, [None] where the functions throw; no option of
    the table has such a type. *)
Class FloatLib : Type := {
  float : Type;
  float_zero : float;
  stof : string -> option float;
  stod : string -> option float;
}.

Section Parse.
  Context `{F : FloatLib}.

(** The contents of a [std::any]; [AChars] is a [const char*], [char*] or
    [std::string_view]. *)
Inductive any : Type :=
| AInt (v : Z)
| AString (v : string)
| AChars (v : string)
| AStrings (v : list string)
| ABool (v : bool)
| AFloat (v : float)
| ADouble (v : float)
| AInt64 (v : Z).

Inductive cxx_type : Type := Tint | Tstring | Tchars | Tstrings | Tbool | Tfloat | Tdouble | Tint64.

Definition type_of (a : any) : cxx_type :=
  match a with
  | AInt _ => Tint | AString _ => Tstring | AChars _ => Tchars | AStrings _ => Tstrings
  | ABool _ => Tbool | AFloat _ => Tfloat | ADouble _ => Tdouble | AInt64 _ => Tint64
  end.

(** [T{}] *)
Definition default_of (t : cxx_type) : any :=
  match t with
  | Tint => AInt 0 | Tstring => AString EmptyString | Tchars => AChars EmptyString
  | Tstrings => AStrings [] | Tbool => ABool false | Tfloat => AFloat float_zero
  | Tdouble => ADouble float_zero | Tint64 => AInt64 0
  end.

#[export] Instance cxx_type_eq_dec : EqDecision cxx_type.
Proof. solve_decision. Defined.

Definition any_cast (t : cxx_type) (a : any) : result any :=
  if decide (type_of a = t) then Ok a else Throw "bad any_cast".

Definition ParseInt (value : any) : result Z :=
  match value with
  | AInt v => Ok v
  | AString s => stoi s
  | _ => Throw "Invalid type for int"
  end.

Definition ParseString (value : any) : result string :=
  match value with
  | AString s => Ok s
  | AChars s => Ok s
  | _ => Throw "Invalid type for string"
  end.

Definition ParseStringList (value : any) (delimiter : ascii) : result (list string) :=
  match value with
  | AString str => Ok (SplitString str delimiter)
  | AStrings v => Ok v
  | _ => Throw "Invalid type for string list"
  end.

Definition ParseBool (value : any) : result bool :=
  match value with
  | ABool v => Ok v
  | AString str =>
      if bool_decide (str ∈ ["true"; "True"; "TRUE"; "1"]%string) then Ok true
      else if bool_decide (str ∈ ["false"; "False"; "FALSE"; "0"]%string) then Ok false
      else Throw "Invalid type for bool: "
  | _ => Throw "Invalid type for bool: "
  end.

Definition ParseFloat (value : any) : result float :=
  match value with
  | AFloat v => Ok v
  | AString s => match stof s with Some v => Ok v | None => Throw "stof" end
  | _ => Throw "Invalid type for float"
  end.

Definition ParseDouble (value : any) : result float :=
  match value with
  | ADouble v => Ok v
  | AString s => match stod s with Some v => Ok v | None => Throw "stod" end
  | _ => Throw "Invalid type for double"
  end.

(** [std::stol]; [long] has 64 bits. *)
Definition stol (s : string) : result Z :=
  match strto s with
  | None => Throw "stol"
  | Some (neg, m) =>
      let v := if neg : bool then - m else m in
      if bool_decide (in_i64 v) then Ok v else Throw "stol"
  end.

Definition ParseLong (value : any) : result Z :=
  match value with
  | AInt64 v => Ok v
  | AString s => stol s
  | _ => Throw "Invalid type for INT64"
  end.

Definition ParseValue (type : ValueType) (value : any) : result any :=
  match type with
  | INT => v ← ParseInt value; Ok (AInt v)
  | STRING => v ← ParseString value; Ok (AString v)
  | STRING_LIST => v ← ParseStringList value DELIMITER; Ok (AStrings v)
  | BOOL => v ← ParseBool value; Ok (ABool v)
  | FLOAT => v ← ParseFloat value; Ok (AFloat v)
  | DOUBLE => v ← ParseDouble value; Ok (ADouble v)
  | INT64 => v ← ParseLong value; Ok (AInt64 v)
  | UNKNOWN => Throw "Invalid type for value: "
  end.

(** [GetOptionValue<T>], over the definitions [defs]. *)
Definition GetOptionValue (defs : OptionDefinition) (T : cxx_type) (options : Options)
    (name : string) : result any :=
  match defs !! name with
  | None => Ok (default_of T)
  | Some def =>
      match options !! name with
      | Some value => a ← ParseValue (value_type def) (AString value); any_cast T a
      | None =>
          if decide (default_value def = EmptyString) then Ok (default_of T)
          else a ← ParseValue (value_type def) (AString (default_value def)); any_cast T a
      end
  end.

(** Its three uses in the code below, at [std::string], [bool] and [int]. *)
Definition GetOptionString (defs : OptionDefinition) (options : Options) (name : string)
    : result string :=
  a ← GetOptionValue defs Tstring options name;
  match a with AString s => Ok s | _ => Undef end.

Definition GetOptionBool (defs : OptionDefinition) (options : Options) (name : string)
    : result bool :=
  a ← GetOptionValue defs Tbool options name;
  match a with ABool b => Ok b | _ => Undef end.

Definition GetOptionInt (defs : OptionDefinition) (options : Options) (name : string)
    : result Z :=
  a ← GetOptionValue defs Tint options name;
  match a with AInt z => Ok z | _ => Undef end.

End Parse.

(** ** Loading *)

Definition PutOptionValue (options : Options) (name value : string) : Options :=
  if decide (value = EmptyString) then options else <[name := value]> options.

(** [std::getenv]. *)
Definition Environment : Type := string -> option string.

Definition GetOptionFromEnv (env : Environment) (name : string) : string :=
  match env name with Some env_value => env_value | None => EmptyString end.

(** The body of the loop of [LoadOptionsFromEnv]. *)
Definition load_env (env : Environment) (options : Options) (d : string * OptionDef) : Options :=
  match env d.1 with Some env_value => PutOptionValue options d.1 env_value | None => options end.

(** [order] is the order in which the loop visits the definitions. *)
Definition LoadOptionsFromEnv (env : Environment) (order : list (string * OptionDef))
    (options : Options) : Options :=
  foldl (load_env env) options order.

Definition DEFAULT_ASTATE_CONFIG_FILE : string := "astate_config.yaml".

(** [s.erase(0, s.find_first_not_of(cs))]: [npos] erases everything. *)
Fixpoint erase_front (cs : list ascii) (s : string) : string :=
  match s with
  | String c s' => if bool_decide (c ∈ cs) then erase_front cs s' else s
  | EmptyString => EmptyString
  end.

(** [s.erase(s.find_last_not_of(cs) + 1)]: [npos + 1] is 0. *)
Fixpoint erase_back (cs : list ascii) (s : string) : string :=
  match s with
  | EmptyString => EmptyString
  | String c s' =>
      match erase_back cs s' with
      | EmptyString => if bool_decide (c ∈ cs) then EmptyString else String c EmptyString
      | r => String c r
      end
  end.

Definition trim (cs : list ascii) (s : string) : string := erase_back cs (erase_front cs s).

Definition NEWLINE : ascii := ascii_of_nat 10.
Definition BLANKS : list ascii := [" "%char; ascii_of_nat 9].
Definition LINE_BLANKS : list ascii := BLANKS ++ [ascii_of_nat 13; NEWLINE].

(** The text before and after the first [d]. *)
Fixpoint split_line (d : ascii) (s : string) : option (string * string) :=
  match s with
  | EmptyString => None
  | String c s' =>
      if decide (c = d) then Some (EmptyString, s')
      else '(a, b) ← split_line d s'; Some (String c a, b)
  end.

(** The body of the loop of [LoadOptionsFromFile]. *)
Definition load_line (defs : OptionDefinition) (options : Options) (line : string) : Options :=
  match trim LINE_BLANKS line with
  | EmptyString => options
  | String c _ as line =>
      if decide (c = "#"%char) then options
      else match split_line "=" line with
           | None => options
           | Some (key, value) =>
               let key := trim BLANKS key in
               let value := trim BLANKS value in
               match defs !! key with
               | Some _ => PutOptionValue options key value
               | None => options
               end
           end
  end.

(** The loop over the lines of a file with these contents. *)
Definition load_lines (defs : OptionDefinition) (options : Options) (contents : string) : Options :=
  foldl (load_line defs) options (getlines NEWLINE contents None).

Section LoadOptions.
  Context `{F : FloatLib} (defs : OptionDefinition) (order : list (string * OptionDef)).
  Context (env : Environment) (cwd : string).
  (** The contents of a file that can be opened. *)
  Context (read_file : string -> option string).

Definition LoadOptionsFromFile (options : Options) (file_path : string) : result Options :=
  let file_path :=
    if decide (file_path = EmptyString) then GetOptionFromEnv env ASTATE_OPTIONS_FILE_PATH
    else file_path in
  file_path ← (if decide (file_path = EmptyString)
               then GetOptionString defs options ASTATE_OPTIONS_FILE_PATH else Ok file_path);
  let file_path :=
    if decide (file_path = EmptyString) then (cwd ++ "/" ++ DEFAULT_ASTATE_CONFIG_FILE)%string
    else file_path in
  match read_file file_path with
  | None => Ok options
  | Some contents => Ok (load_lines defs options contents)
  end.

Definition LoadOptions (options : Options) : result Options :=
  let load_mode := GetOptionFromEnv env ASTATE_OPTIONS_LOAD_MODE in
  load_mode ← (if decide (load_mode = EmptyString)
               then GetOptionString defs options ASTATE_OPTIONS_LOAD_MODE else Ok load_mode);
  if decide (load_mode = "ENV"%string) then Ok (LoadOptionsFromEnv env order options)
  else if decide (load_mode = "FILE"%string) then LoadOptionsFromFile options EmptyString
  else Ok options.

End LoadOptions.

(** ** Sampling of performance metrics *)

Record PerfMetricsController : Type := {
  enable_perf_metrics_ : bool;
  perf_sample_rate_ : Z;
  perf_sample_step_ : Z;
  perf_read_count_ : Z;
}.

Definition new_PerfMetricsController `{F : FloatLib} (defs : OptionDefinition) (options : Options)
    : result PerfMetricsController :=
  enable ← GetOptionBool defs options TRANSFER_ENGINE_ENABLE_PERF_METRICS;
  rate ← GetOptionInt defs options TRANSFER_ENGINE_SAMPLE_RATE;
  step ← GetOptionInt defs options TRANSFER_ENGINE_SAMPLE_STEP;
  Ok {| enable_perf_metrics_ := enable; perf_sample_rate_ := rate; perf_sample_step_ := step;
        perf_read_count_ := 0 |}.

Definition set_count (c : PerfMetricsController) (n : Z) : PerfMetricsController :=
  {| enable_perf_metrics_ := enable_perf_metrics_ c; perf_sample_rate_ := perf_sample_rate_ c;
     perf_sample_step_ := perf_sample_step_ c; perf_read_count_ := n |}.

(** The atomic increment wraps around; [%] by zero is undefined, and truncates
    towards zero. *)
Definition ShouldLogPerfMetric (c : PerfMetricsController) (seq_id : Z)
    : result (bool * PerfMetricsController) :=
  if negb (enable_perf_metrics_ c) then Ok (false, c)
  else if seq_id =? perf_sample_step_ c then Ok (true, set_count c 0)
  else
    let count := i32 (perf_read_count_ c + 1) in
    if (perf_sample_rate_ c =? 0) ||
       ((count =? - 2 ^ 31) && (perf_sample_rate_ c =? -1)) then Undef
    else if Z.rem count (perf_sample_rate_ c) =? 0 then Ok (true, set_count c 0)
    else Ok (false, set_count c count).

(** The answers of consecutive calls. *)
Fixpoint should_log_all (c : PerfMetricsController) (seq_ids : list Z)
    : result (list bool * PerfMetricsController) :=
  match seq_ids with
  | [] => Ok ([], c)
  | seq_id :: seq_ids' =>
      '(b, c) ← ShouldLogPerfMetric c seq_id;
      '(bs, c) ← should_log_all c seq_ids';
      Ok (b :: bs, c)
  end.

(** ** The address of a node *)

(** What the socket interface answers. *)
Record network : Type := {
  (** [socket], [connect] and [getsockname] succeed: the text of the address *)
  route_address : option string;
  (** [getifaddrs]: for every interface with an address, [Some] text of an IPv4
      address or [None] for another family *)
  interfaces : option (list (option string));
}.

Definition INET_ADDRSTRLEN : nat := 16.

(** [std::string(n, 0)] *)
Fixpoint zeros (n : nat) : string :=
  match n with O => EmptyString | S n' => String zero (zeros n') end.

(** [std::string ip_str(INET_ADDRSTRLEN, 0)] after [inet_ntop] wrote [text] and
    a terminating zero byte into it. *)
Definition ip_str (text : string) : string :=
  (text ++ zeros (INET_ADDRSTRLEN - String.length text))%string.

(** [strcmp(s.data(), lit) != 0]: the texts up to the first zero byte differ. *)
Fixpoint c_str (s : string) : string :=
  match s with
  | EmptyString => EmptyString
  | String c s' => if decide (c = zero) then EmptyString else String c (c_str s')
  end.

(** The loop over the interfaces. *)
Fixpoint first_interface (ifs : list (option string)) : option string :=
  match ifs with
  | [] => None
  | Some text :: ifs' =>
      if decide (c_str (ip_str text) = "127.0.0.1"%string) then first_interface ifs'
      else Some (ip_str text)
  | None :: ifs' => first_interface ifs'
  end.

(** A variable of the environment that is set and not empty. *)
Definition env_nonempty (env : Environment) (name : string) : option string :=
  v ← env name; if decide (v = EmptyString) then None else Some v.

Definition GetLocalHostnameOrIP (env : Environment) (net : network) : result string :=
  match env_nonempty env "POD_IP" with
  | Some pod_ip => Ok pod_ip
  | None =>
      match route_address net with
      | Some text => Ok (ip_str text)
      | None =>
          match (ifs ← interfaces net; first_interface ifs) with
          | Some s => Ok s
          | None =>
              match env_nonempty env "NODE_IP" with
              | Some host => Ok host
              | None =>
                  match env_nonempty env "ALIPAY_POD_NAME" with
                  | Some hostname => Ok hostname
                  | None => Throw "No valid IP found"
                  end
              end
          end
      end
  end.

(** ** Reading back values *)

Section ReadBack.
  Context `{F : FloatLib}.

(** A value as the text of an option. *)
Definition print_value (a : any) : string :=
  match a with
  | AInt z | AInt64 z => to_string z
  | ABool b => if b then "true" else "false"
  | AString s => s
  | AStrings l => join DELIMITER l
  | _ => EmptyString
  end.

(** The values an option of a type can hold. *)
Definition storable (t : ValueType) (a : any) : Prop :=
  match t, a with
  | INT, AInt z => in_i32 z
  | INT64, AInt64 z => in_i64 z
  | BOOL, ABool _ => True
  | STRING, AString s => s <> EmptyString
  | STRING_LIST, AStrings l =>
      Forall (all_chars (fun c => c <> DELIMITER)) l /\
      exists s, last l = Some s /\ s <> EmptyString
  | _, _ => False
  end.

Lemma stol_to_string z : in_i64 z -> stol (to_string z) = Ok z.
Proof.
  intros Hz. unfold stol. rewrite strto_to_string.
  assert ((if z <? 0 then - Z.abs z else Z.abs z) = z) as -> by (case_cmp; lia).
  by rewrite bool_decide_eq_true_2.
Qed.

Lemma to_string_nonempty z : to_string z <> EmptyString.
Proof.
  intros E. pose proof (strto_to_string z) as H. rewrite E in H. discriminate H.
Qed.

Lemma print_nonempty t a : storable t a -> print_value a <> EmptyString.
Proof.
  destruct t, a as [| | | |[]| | |]; cbn; try done; try (intros; apply to_string_nonempty).
  intros (_ & s & Hl & Hs). by eapply join_nonempty.
Qed.

Lemma ParseValue_print t a : storable t a -> ParseValue t (AString (print_value a)) = Ok a.
Proof.
  destruct t, a as [| | | |[]| | |]; cbn; try done; intros H.
  - by rewrite stoi_to_string.
  - destruct H as (Hl & s & Hs & Hne). by rewrite (SplitString_join _ _ s).
  - by rewrite stol_to_string.
Qed.

Lemma any_cast_same a : any_cast (type_of a) a = Ok a.
Proof. unfold any_cast. by rewrite decide_True. Qed.

(** A value that was put as text is read back at its type, and putting
    it does not change what any other option reads. *)
Theorem option_put_get (defs : OptionDefinition) (options : Options) (name : string)
    (def : OptionDef) (a : any) :
  defs !! name = Some def -> storable (value_type def) a ->
  GetOptionValue defs (type_of a) (PutOptionValue options name (print_value a)) name = Ok a /\
  forall T name', name' <> name ->
    GetOptionValue defs T (PutOptionValue options name (print_value a)) name' =
    GetOptionValue defs T options name'.
Proof.
  intros Hd Ha. unfold PutOptionValue. rewrite decide_False by by eapply print_nonempty. split.
  - unfold GetOptionValue. rewrite Hd, lookup_insert_eq, ParseValue_print by done. apply any_cast_same.
  - intros T name' Hne. unfold GetOptionValue. by rewrite lookup_insert_ne by done.
Qed.

End ReadBack.

(** ** Loading from a file *)

Definition key_ok (k : string) : Prop :=
  k <> EmptyString /\
  all_chars (fun c => c <> "="%char /\ c <> "#"%char /\ c ∉ LINE_BLANKS) k.

Fixpoint last_char (s : string) : option ascii :=
  match s with
  | EmptyString => None
  | String c EmptyString => Some c
  | String _ s' => last_char s'
  end.

Definition first_char (s : string) : option ascii :=
  match s with String c _ => Some c | EmptyString => None end.

(** Not empty, on one line, without blanks at either end. *)
Definition value_ok (v : string) : Prop :=
  all_chars (fun c => c <> NEWLINE) v /\
  (exists c, first_char v = Some c /\ c ∉ LINE_BLANKS) /\
  (exists c, last_char v = Some c /\ c ∉ LINE_BLANKS).

#[export] Instance all_chars_dec (P : ascii -> Prop) `{forall c, Decision (P c)} s :
  Decision (all_chars P s).
Proof. induction s; apply _. Defined.

#[export] Instance char_ok_dec (o : option ascii) (P : ascii -> Prop) `{forall c, Decision (P c)} :
  Decision (exists c, o = Some c /\ P c).
Proof.
  destruct o as [c|]; [|right; by intros (? & ? & _)].
  destruct (decide (P c)); [left; eauto|right; by intros (? & [= <-] & ?)].
Defined.

#[export] Instance value_ok_dec v : Decision (value_ok v) := _.

(** A configuration file that sets these options. *)
Definition file_text (kvs : list (string * string)) : string :=
  foldr (fun kv t => (kv.1 ++ " = " ++ kv.2 ++ String NEWLINE t)%string) EmptyString kvs.

Lemma erase_front_id cs s c : first_char s = Some c -> c ∉ cs -> erase_front cs s = s.
Proof. destruct s; cbn; [done|]. intros [= ->] Hc. by rewrite bool_decide_eq_false_2. Qed.

Lemma erase_back_last cs s c : last_char s = Some c -> c ∉ cs -> erase_back cs s = s.
Proof.
  induction s as [|x s IH]; [done|]. intros Hl Hc. destruct s as [|y s].
  - cbn in *. injection Hl as ->. by rewrite bool_decide_eq_false_2.
  - change (erase_back cs (String x (String y s))) with
      (match erase_back cs (String y s) with
       | EmptyString => if bool_decide (x ∈ cs) then EmptyString else String x EmptyString
       | r => String x r end).
    by rewrite IH.
Qed.

Lemma trim_id cs s c d :
  first_char s = Some c -> c ∉ cs -> last_char s = Some d -> d ∉ cs -> trim cs s = s.
Proof.
  intros. unfold trim. erewrite erase_front_id by done. by eapply erase_back_last.
Qed.

(** A blank before a text is erased. *)
Lemma trim_cons cs c s : c ∈ cs -> trim cs (String c s) = trim cs s.
Proof. intros H. unfold trim. cbn. by rewrite bool_decide_eq_true_2. Qed.

(** And so is one after it. *)
Lemma erase_back_snoc cs s c : c ∈ cs -> erase_back cs (s ++ String c EmptyString) = erase_back cs s.
Proof.
  intros Hc. induction s as [|x s IH].
  - change (EmptyString ++ String c EmptyString)%string with (String c EmptyString).
    cbn. by rewrite bool_decide_eq_true_2.
  - rewrite string_app_cons. cbn. by rewrite IH.
Qed.

Lemma last_char_app s t c : last_char t = Some c -> last_char (s ++ t) = Some c.
Proof.
  intros Ht. induction s as [|x s IH]; [done|]. rewrite string_app_cons.
  by destruct (s ++ t)%string.
Qed.

Lemma all_chars_last P s : s <> EmptyString -> all_chars P s -> exists c, last_char s = Some c /\ P c.
Proof.
  induction s as [|x s IH]; [done|]. intros _ [Hx Hs]. destruct s as [|y s]; [by exists x|].
  by apply IH.
Qed.

Lemma split_line_app d a b : all_chars (fun c => c <> d) a -> split_line d (a ++ String d b) = Some (a, b).
Proof.
  induction a as [|x a IH].
  - intros _. change (EmptyString ++ String d b)%string with (String d b). cbn. by rewrite decide_True.
  - intros [Hx Ha]. rewrite string_app_cons. cbn. rewrite decide_False by done. by rewrite IH.
Qed.

Lemma blanks_line c : c ∉ LINE_BLANKS -> c ∉ BLANKS.
Proof. unfold LINE_BLANKS. rewrite elem_of_app. naive_solver. Qed.

(** A line that sets an option. *)
Lemma load_line_set defs options k v d :
  key_ok k -> value_ok v -> defs !! k = Some d ->
  load_line defs options (k ++ " = " ++ v)%string = <[k := v]> options.
Proof.
  intros [Hk0 Hk] (Hvn & (vf & Hf & Hvf) & (vl & Hl & Hvl)) Hd.
  destruct k as [|c k']; [done|]. set (k := String c k') in *.
  assert (Hc : c <> "#"%char /\ c ∉ LINE_BLANKS) by (destruct Hk as [Hk _]; naive_solver).
  destruct (all_chars_last _ k Hk0 Hk) as (kl & Hkl & _ & _ & Hklb).
  unfold load_line. rewrite (trim_id _ _ c vl); [|done|apply Hc| |done].
  2: { apply (last_char_app k), (last_char_app " = "), Hl. }
  unfold k at 1. rewrite string_app_cons, decide_False by apply Hc. rewrite <-string_app_cons. fold k.
  assert (Hs : split_line "=" (k ++ " = " ++ v)%string = Some ((k ++ " ")%string, (" " ++ v)%string)).
  { change (k ++ " = " ++ v)%string with (k ++ " " ++ String "=" (" " ++ v))%string.
    rewrite <-string_app_assoc. apply split_line_app, all_chars_app; [|done].
    eapply all_chars_impl, Hk. naive_solver. }
  rewrite Hs.
  assert (Ek : trim BLANKS (k ++ " ") = k).
  { unfold trim. rewrite (erase_front_id _ _ c) by (done || apply blanks_line, Hc).
    rewrite erase_back_snoc by (unfold BLANKS; set_solver).
    apply (erase_back_last _ _ kl); [done|]. by apply blanks_line. }
  assert (Ev : trim BLANKS (" " ++ v)%string = v).
  { change (" " ++ v)%string with (String " " v). rewrite trim_cons by (unfold BLANKS; set_solver).
    eapply trim_id; eauto using blanks_line. }
  rewrite Ek, Ev, Hd. unfold PutOptionValue. rewrite decide_False; [done|]. by intros ->.
Qed.

Lemma load_lines_file_text defs options kvs :
  Forall (fun kv => key_ok kv.1 /\ value_ok kv.2 /\ is_Some (defs !! kv.1)) kvs ->
  load_lines defs options (file_text kvs) = foldl (fun o kv => <[kv.1 := kv.2]> o) options kvs.
Proof.
  intros H. unfold load_lines. revert options.
  induction H as [|[k v] kvs (Hk & Hv & d & Hd) _ IH]; intros options; [done|]. cbn in Hk, Hv, Hd.
  change (file_text ((k, v) :: kvs)) with (k ++ " = " ++ v ++ String NEWLINE (file_text kvs))%string.
  rewrite <-!string_app_assoc, getlines_delim.
  - cbn [foldl]. rewrite string_app_assoc, (load_line_set _ _ k v d) by done. apply IH.
  - apply all_chars_app; [apply all_chars_app|apply Hv].
    + destruct Hk as [_ Hk]. eapply all_chars_impl, Hk.
      intros c (_ & _ & Hc) ->. apply Hc. unfold LINE_BLANKS. set_solver.
    + cbn. split_and!; done.
Qed.

Lemma CreatOption_fold defs l k d :
  foldl CreatOption defs l !! k = Some d ->
  defs !! k = Some d \/ (k, value_type d, default_value d) ∈ l.
Proof.
  revert defs. induction l as [|[[n t] v] l IH]; intros defs H; [by left|].
  apply IH in H as [H|H]; [|right; by apply elem_of_cons; right]. cbn in H.
  destruct (defs !! n) eqn:E; [by left|].
  apply lookup_insert_Some in H as [[<- <-]|[_ H]]; [|by left].
  right. apply elem_of_cons. by left.
Qed.

Fixpoint all_charsb (p : ascii -> bool) (s : string) : bool :=
  match s with EmptyString => true | String c s' => p c && all_charsb p s' end.

Lemma all_charsb_spec (p : ascii -> bool) (P : ascii -> Prop) s :
  (forall c, p c = true -> P c) -> all_charsb p s = true -> all_chars P s.
Proof.
  intros Hp. induction s as [|c s IH]; cbn; [done|]. intros [H1 H2]%andb_true_iff. auto.
Qed.

(** The names of the options consist of capital letters and underscores. *)
Definition name_char (c : ascii) : bool :=
  let n := nat_of_ascii c in ((65 <=? n) && (n <=? 90) || (n =? 95))%nat.

Lemma name_char_ok c : name_char c = true -> c <> "="%char /\ c <> "#"%char /\ c ∉ LINE_BLANKS.
Proof.
  intros H. split_and!; [by intros ->..|]. rewrite list_elem_of_In. cbn.
  intros [<-|[<-|[<-|[<-|[]]]]]; discriminate H.
Qed.

Lemma option_definitions_table k d :
  option_definitions !! k = Some d -> (k, value_type d, default_value d) ∈ option_table.
Proof.
  unfold option_definitions. intros H. destruct (CreatOption_fold _ _ _ _ H) as [H'|H']; [|done].
  by rewrite lookup_empty in H'.
Qed.

Definition name_ok (r : string * ValueType * string) : bool :=
  negb (bool_decide (r.1.1 = EmptyString)) && all_charsb name_char r.1.1.

Lemma option_table_names : forallb name_ok option_table = true.
Proof. vm_compute. reflexivity. Qed.

Lemma option_names_ok k d : option_definitions !! k = Some d -> key_ok k.
Proof.
  intros H%option_definitions_table%list_elem_of_In.
  pose proof (proj1 (forallb_forall name_ok option_table) option_table_names _ H) as Hn.
  apply andb_true_iff in Hn as [H1 H2]. split.
  - intros ->. discriminate H1.
  - exact (all_charsb_spec _ _ _ name_char_ok H2).
Qed.

(** A configuration file named by the environment sets the options its lines
    name, the last line for a name deciding, whatever the values contain
    that has neither a line break nor blanks at its ends; the other options keep their
    values. *)
Theorem load_options_file `{F : FloatLib} (order : list (string * OptionDef)) (env : Environment)
    (cwd : string) (read_file : string -> option string) (path : string)
    (options : Options) (kvs : list (string * string)) :
  env ASTATE_OPTIONS_LOAD_MODE = Some "FILE"%string ->
  env ASTATE_OPTIONS_FILE_PATH = Some path -> path <> EmptyString ->
  read_file path = Some (file_text kvs) ->
  Forall (fun kv => is_Some (option_definitions !! kv.1) /\ value_ok kv.2) kvs ->
  LoadOptions option_definitions order env cwd read_file options =
  Ok (foldl (fun o kv => <[kv.1 := kv.2]> o) options kvs).
Proof.
  intros Hm Hp Hne Hf Hkvs. unfold LoadOptions, LoadOptionsFromFile, GetOptionFromEnv. rewrite Hm, Hp.
  repeat (case_decide; try done; cbn [mbind result_bind]).
  rewrite Hf. f_equal. apply load_lines_file_text.
  eapply Forall_impl; [exact Hkvs|]. intros [k v] [[d Hd] Hv]. split_and!; eauto using option_names_ok.
Qed.

Definition sample_file : list (string * string) :=
  [("TRANSFER_ENGINE_TYPE", "rdma=#1 x"); ("TRANSFER_ENGINE_LOCAL_PORT", "81");
   ("TRANSFER_ENGINE_LOCAL_PORT", "82")]%string.

#[local] Instance no_floats : FloatLib := {|
  float := unit; float_zero := tt; stof := fun _ => None; stod := fun _ => None
|}.

Lemma option_put_get_witness :
  let port := "TRANSFER_ENGINE_LOCAL_PORT"%string in
  GetOptionValue option_definitions Tint (PutOptionValue ∅ port (print_value (AInt 8080))) port
  = Ok (AInt 8080).
Proof.
  assert (Ha : in_i32 8080) by (unfold in_i32; lia).
  assert (Hd : option_definitions !! "TRANSFER_ENGINE_LOCAL_PORT"%string =
               Some {| value_type := INT; default_value := "0" |}) by (vm_compute; reflexivity).
  exact (proj1 (option_put_get option_definitions ∅ _ _ (AInt 8080) Hd Ha)).
Defined.

Definition sample_env (name : string) : option string :=
  if decide (name = ASTATE_OPTIONS_LOAD_MODE) then Some "FILE"%string
  else if decide (name = ASTATE_OPTIONS_FILE_PATH) then Some "/etc/astate"%string else None.

Lemma load_options_file_witness :
  LoadOptions option_definitions [] sample_env "/"
    (fun p => if decide (p = "/etc/astate"%string) then Some (file_text sample_file) else None) ∅ =
  Ok (<["TRANSFER_ENGINE_LOCAL_PORT"%string := "82"%string]>
        (<["TRANSFER_ENGINE_TYPE"%string := "rdma=#1 x"%string]> ∅)).
Proof.
  rewrite (load_options_file [] sample_env "/" _ "/etc/astate" ∅ sample_file); try done.
  apply (bool_decide_unpack _). vm_compute. exact I.
Defined.

Lemma load_env_lookup env order options name :
  NoDup (fst <$> order) ->
  LoadOptionsFromEnv env order options !! name =
  if decide (name ∈ (fst <$> order))
  then match env_nonempty env name with Some v => Some v | None => options !! name end
  else options !! name.
Proof.
  unfold LoadOptionsFromEnv. revert options. induction order as [|[n d] order IH]; intros options Hnd.
  { cbn. rewrite decide_False; [done|]. apply not_elem_of_nil. }
  cbn [fmap list_fmap fst] in *. apply NoDup_cons in Hnd as [Hn Hnd]. cbn [foldl]. rewrite IH by done.
  unfold load_env, PutOptionValue, env_nonempty. cbn [fst].
  destruct (decide (name = n)) as [->|Hne].
  - rewrite (decide_False (P := n ∈ _)), (decide_True (P := n ∈ _ :: _)) by (done || by left).
    destruct (env n) as [v|]; cbn [mbind option_bind]; [|done].
    destruct (decide (v = EmptyString)); [done|]. by rewrite lookup_insert_eq.
  - assert (E : forall v, (if decide (v = EmptyString) then options else <[n:=v]> options) !! name
                          = options !! name).
    { intros v. destruct (decide (v = EmptyString)); [done|]. by rewrite lookup_insert_ne. }
    assert (E' : (match env n with Some v => if decide (v = EmptyString) then options
                    else <[n:=v]> options | None => options end) !! name = options !! name).
    { destruct (env n); auto. }
    rewrite E'. destruct (decide (name ∈ order.*1)) as [Hin|Hin].
    + rewrite decide_True by (by right). done.
    + rewrite decide_False; [done|]. rewrite elem_of_cons. naive_solver.
Qed.

(** In whatever order the hash map visits the definitions, loading from the
    environment sets exactly the defined options whose variable is set and not
    empty. *)
Theorem load_options_env (defs : OptionDefinition) (order : list (string * OptionDef))
    (env : Environment) (options : Options) (name : string) :
  order ≡ₚ map_to_list defs ->
  LoadOptionsFromEnv env order options !! name =
  match defs !! name, env_nonempty env name with
  | Some _, Some v => Some v
  | _, _ => options !! name
  end.
Proof.
  intros Ho. rewrite load_env_lookup.
  2: { rewrite Ho. apply NoDup_fst_map_to_list. }
  destruct (decide (name ∈ order.*1)) as [Hin|Hin]; rewrite Ho in Hin.
  - apply list_elem_of_fmap in Hin as ([n d] & -> & Hin). apply elem_of_map_to_list in Hin.
    cbn. by rewrite Hin.
  - destruct (defs !! name) as [d|] eqn:E; [|done]. destruct Hin.
    apply elem_of_map_to_list in E. apply list_elem_of_fmap. by exists (name, d).
Qed.

Lemma load_options_env_witness :
  LoadOptionsFromEnv sample_env (map_to_list option_definitions) ∅ !! ASTATE_OPTIONS_FILE_PATH
  = Some "/etc/astate"%string.
Proof. rewrite (load_options_env option_definitions); [|done]. vm_compute. reflexivity. Defined.

(** ** The reads of the options *)

(** The [GetOptionValue<T>(options, NAME)] of the sources. *)
Definition option_reads : list (string * cxx_type) := [
  ("ASTATE_DEBUG_MODE", Tbool);
  ("ASTATE_ENABLE_GLOG_EXT", Tbool);
  ("ASTATE_LOG_BACKEND", Tstring);
  ("ASTATE_LOG_DIR", Tstring);
  ("ASTATE_LOG_LEVEL", Tstring);
  ("ASTATE_LOG_MAX_FILE_DAYS", Tint);
  ("ASTATE_LOG_TO_CONSOLE", Tbool);
  ("ASTATE_LOG_TO_FILE", Tbool);
  ("ASTATE_OPTIONS_FILE_PATH", Tstring);
  ("ASTATE_OPTIONS_LOAD_MODE", Tstring);
  ("BRPC_TRANSPORT_MAX_RETRIES", Tint);
  ("BRPC_TRANSPORT_TIMEOUT_MS", Tint);
  ("DISCOVERY_CONFIG_CENTER_TYPE", Tstring);
  ("DISCOVERY_USE_BATCH_API", Tbool);
  ("DISCOVERY_WORLD_SIZE_RETRY_COUNT", Tint);
  ("TENSOR_TRANSFER_SERVICE_TYPE", Tstring);
  ("TRANSFER_ENGINE_COPY_BUCKET_MEM_SIZE", Tint64);
  ("TRANSFER_ENGINE_COPY_LARGE_BUCKET_MEM_SIZE", Tint64);
  ("TRANSFER_ENGINE_COPY_LARGE_THREAD_NUM", Tint);
  ("TRANSFER_ENGINE_COPY_SMALL_THREAD_NUM", Tint);
  ("TRANSFER_ENGINE_COPY_THREAD_NUM", Tint);
  ("TRANSFER_ENGINE_ENABLE_LOCAL_CACHE_PREFETCH", Tbool);
  ("TRANSFER_ENGINE_ENABLE_NUMA_ALLOCATION", Tbool);
  ("TRANSFER_ENGINE_ENABLE_PERF_METRICS", Tbool);
  ("TRANSFER_ENGINE_ENABLE_READ_GPU_ASYNC_COPY", Tbool);
  ("TRANSFER_ENGINE_ENABLE_WRITE_GPU_ASYNC_COPY", Tbool);
  ("TRANSFER_ENGINE_GROUP_HOST", Tstrings);
  ("TRANSFER_ENGINE_INFERENCE_PARALLEL_CONFIG", Tstrings);
  ("TRANSFER_ENGINE_LOCAL_CACHE_TENSORS_SIZE", Tint64);
  ("TRANSFER_ENGINE_LOCAL_PORT", Tint);
  ("TRANSFER_ENGINE_LOG_TENSOR_META", Tbool);
  ("TRANSFER_ENGINE_MAX_RDMA_DEVICES", Tint);
  ("TRANSFER_ENGINE_META_SERVICE_ADDRESS", Tstring);
  ("TRANSFER_ENGINE_PEERS_HOST", Tstrings);
  ("TRANSFER_ENGINE_PERF_STATS_INTERVAL_MS", Tint64);
  ("TRANSFER_ENGINE_RDMA_NUM_POLLERS", Tint);
  ("TRANSFER_ENGINE_READ_THREAD_NUM", Tint);
  ("TRANSFER_ENGINE_READ_TIMEOUT_MS", Tint);
  ("TRANSFER_ENGINE_SAMPLE_RATE", Tint);
  ("TRANSFER_ENGINE_SAMPLE_STEP", Tint);
  ("TRANSFER_ENGINE_SERVICE_FIXED_PORT", Tbool);
  ("TRANSFER_ENGINE_SERVICE_PORT", Tint);
  ("TRANSFER_ENGINE_SERVICE_SKIP_DISCOVERY", Tbool);
  ("TRANSFER_ENGINE_SERVICE_TENSOR_READY_TIMEOUT_MS", Tint);
  ("TRANSFER_ENGINE_SKIP_RDMA_EXCEPTION", Tbool);
  ("TRANSFER_ENGINE_SMALL_TENSOR_COMPACT_CACHE_SIZE", Tint64);
  ("TRANSFER_ENGINE_SMALL_TENSOR_SIZE", Tint64);
  ("TRANSFER_ENGINE_TENSOR_RESHARDING_KEYS", Tstrings);
  ("TRANSFER_ENGINE_TRAINING_PARALLEL_CONFIG", Tstrings);
  ("TRANSFER_ENGINE_WRITE_TIMEOUT_MS", Tint);
  ("TRANSPORT_RECEIVE_RETRY_COUNT", Tint);
  ("TRANSPORT_RECEIVE_RETRY_SLEEP_MS", Tint);
  ("TRANSPORT_SEND_RETRY_COUNT", Tint);
  ("TRANSPORT_SEND_RETRY_SLEEP_MS", Tint)
].

(** The type [ParseValue] gives the values of a [ValueType]. *)
Definition parsed_type (t : ValueType) : option cxx_type :=
  match t with
  | INT => Some Tint | STRING => Some Tstring | STRING_LIST => Some Tstrings | BOOL => Some Tbool
  | FLOAT => Some Tfloat | DOUBLE => Some Tdouble | INT64 => Some Tint64 | UNKNOWN => None
  end.

Lemma ParseValue_type `{F : FloatLib} t v a :
  ParseValue t v = Ok a -> parsed_type t = Some (type_of a).
Proof.
  destruct t; cbn; intros H; try done; ok_inv H; by simplify_eq.
Qed.

Lemma ParseValue_defined `{F : FloatLib} t v : ParseValue t v <> Undef.
Proof.
  destruct t, v as [|s| | | | | |]; try discriminate; cbn [ParseValue ParseInt ParseBool ParseFloat ParseDouble ParseLong].
  - unfold stoi. destruct (strto s) as [[n m]|]; [|discriminate]. by destruct (bool_decide _).
  - do 2 (destruct (bool_decide _); [discriminate|]). discriminate.
  - by destruct (stof s).
  - by destruct (stod s).
  - unfold stol. destruct (strto s) as [[n m]|]; [|discriminate]. by destruct (bool_decide _).
Qed.

(** A read that finds the definition at its own type, with a default that is
    empty or can be parsed. *)
Definition read_ok (F : FloatLib) (defs : OptionDefinition) (r : string * cxx_type) : bool :=
  match defs !! r.1 with
  | Some def =>
      bool_decide (parsed_type (value_type def) = Some r.2) &&
      (bool_decide (default_value def = EmptyString) ||
       is_ok (ParseValue (F := F) (value_type def) (AString (default_value def))))
  | None => false
  end.

(** What such a read gives: a value of its type, unless the text that was set
    cannot be parsed. *)
Definition read_result (F : FloatLib) (defs : OptionDefinition) (options : Options) (name : string)
    (T : cxx_type) : Prop :=
  exists def, defs !! name = Some def /\
    match options !! name with
    | None => exists a, GetOptionValue defs T options name = Ok a /\ type_of a = T
    | Some text =>
        match ParseValue (value_type def) (AString text) with
        | Ok a => GetOptionValue defs T options name = Ok a /\ type_of a = T
        | Throw e => GetOptionValue defs T options name = Throw e
        | Undef => False
        end
    end.

Lemma read_ok_result (F : FloatLib) defs options name T :
  read_ok F defs (name, T) = true -> read_result F defs options name T.
Proof.
  intros H. unfold read_ok in H. cbn [fst snd] in H. destruct (defs !! name) as [def|] eqn:Ed; [|done].
  apply andb_true_iff in H as [Ht%bool_decide_eq_true Hdef]. exists def. split; [done|].
  assert (Hcast : forall v a, ParseValue (value_type def) v = Ok a -> any_cast T a = Ok a /\ type_of a = T).
  { intros v a Ha. apply ParseValue_type in Ha. rewrite Ht in Ha. injection Ha as ->.
    split; [apply any_cast_same|done]. }
  unfold GetOptionValue. rewrite Ed. destruct (options !! name) as [text|].
  - destruct (ParseValue (value_type def) (AString text)) as [a| |] eqn:Ep; [|done|].
    + cbn [mbind result_bind]. by apply (Hcast _ _ Ep).
    + by destruct (ParseValue_defined (value_type def) (AString text)).
  - destruct (decide (default_value def = EmptyString)) as [He|He].
    { exists (default_of T). split; [reflexivity|]. by destruct T. }
    rewrite bool_decide_eq_false_2 in Hdef by done. cbn [orb] in Hdef.
    destruct (ParseValue _ _) as [a| |] eqn:Ep; try discriminate Hdef.
    exists a. cbn [mbind result_bind]. by apply (Hcast _ _ Ep).
Qed.

Lemma option_reads_ok (F : FloatLib) : forallb (read_ok F option_definitions) option_reads = true.
Proof. vm_compute. reflexivity. Qed.

(** C32: every read of an option in the sources names a defined option at the type
    of its definition: whatever the options are, it returns a value of that type
    unless the text that was set for the option cannot be parsed, and with no
    text set it never throws. *)
Theorem option_reads_typed (F : FloatLib) (options : Options) :
  Forall (fun r => read_result F option_definitions options r.1 r.2) option_reads.
Proof.
  apply Forall_forall. intros [name T] Hin%list_elem_of_In. apply read_ok_result.
  revert Hin. apply forallb_forall, option_reads_ok.
Qed.

(** ** Sampling *)

Definition count_logged (bs : list bool) : Z := Z.of_nat (length (filter (fun b => b = true) bs)).

Lemma count_logged_cons b bs : count_logged (b :: bs) = (if b : bool then 1 else 0) + count_logged bs.
Proof.
  unfold count_logged. rewrite filter_cons. destruct b.
  - rewrite decide_True by done. cbn [length]. lia.
  - by rewrite decide_False.
Qed.

(** With the metrics enabled and a positive rate, [n] requests of other steps
    than the sampled one log one request in [rate], and the counter is the
    position within the current period. *)
Theorem perf_sampling (c : PerfMetricsController) (seq_ids : list Z) :
  enable_perf_metrics_ c = true -> 0 < perf_sample_rate_ c < 2 ^ 31 ->
  0 <= perf_read_count_ c < perf_sample_rate_ c ->
  Forall (fun s => s <> perf_sample_step_ c) seq_ids ->
  exists bs, should_log_all c seq_ids =
    Ok (bs, set_count c ((perf_read_count_ c + Z.of_nat (length seq_ids)) mod perf_sample_rate_ c)) /\
    count_logged bs = (perf_read_count_ c + Z.of_nat (length seq_ids)) / perf_sample_rate_ c.
Proof.
  intros He Hr Hc H. remember (perf_read_count_ c) as n eqn:En. revert n c En He Hr Hc H.
  induction seq_ids as [|s seq_ids IH]; intros n c En He Hr Hc H.
  { exists []. cbn. rewrite Z.add_0_r, Z.mod_small, Z.div_small by done. split; [|done].
    subst n. by destruct c. }
  apply Forall_cons in H as [Hs H]. cbn [should_log_all length]. unfold ShouldLogPerfMetric.
  rewrite He. cbn [negb]. rewrite (proj2 (Z.eqb_neq _ _)) by done.
  rewrite <-En, i32_small by (unfold in_i32; lia).
  rewrite (proj2 (Z.eqb_neq (perf_sample_rate_ c) 0)) by lia.
  rewrite (proj2 (Z.eqb_neq (n + 1) (- 2 ^ 31))) by lia. cbn [orb andb].
  rewrite Z.rem_mod_nonneg by lia.
  destruct (decide (n + 1 = perf_sample_rate_ c)) as [E|E].
  - rewrite E, Z_mod_same_full. cbn [mbind result_bind Z.eqb].
    destruct (IH 0 (set_count c 0)) as (bs & Hbs & Hn); [done|done|done|cbn; lia|exact H|].
    rewrite Hbs. exists (true :: bs). split.
    + cbn [mbind result_bind]. do 3 f_equal.
      replace (n + Z.of_nat (S (length seq_ids))) with (0 + Z.of_nat (length seq_ids) + 1 * perf_sample_rate_ c) by lia.
      by rewrite Z_mod_plus_full.
    + replace (n + Z.of_nat (S (length seq_ids))) with (0 + Z.of_nat (length seq_ids) + 1 * perf_sample_rate_ c) by lia.
      rewrite Z.div_add by lia. cbn [perf_sample_rate_ set_count] in Hn. rewrite <-Hn.
      rewrite count_logged_cons. lia.
  - rewrite Z.mod_small by lia. rewrite (proj2 (Z.eqb_neq (n + 1) 0)) by lia. cbn [mbind result_bind].
    destruct (IH (n + 1) (set_count c (n + 1))) as (bs & Hbs & Hn);
      [done|done|done|cbn; lia|exact H|].
    rewrite Hbs. exists (false :: bs). cbn [mbind result_bind].
    replace (n + Z.of_nat (S (length seq_ids))) with (n + 1 + Z.of_nat (length seq_ids)) by lia.
    by rewrite count_logged_cons.
Qed.

Lemma perf_sampling_witness :
  exists bs c', should_log_all {| enable_perf_metrics_ := true; perf_sample_rate_ := 3;
                                  perf_sample_step_ := -2; perf_read_count_ := 0 |} [1; 2; 3; 4; 5; 6; 7]
    = Ok (bs, c') /\ count_logged bs = 2.
Proof.
  destruct (perf_sampling {| enable_perf_metrics_ := true; perf_sample_rate_ := 3;
              perf_sample_step_ := -2; perf_read_count_ := 0 |} [1; 2; 3; 4; 5; 6; 7])
    as (bs & H & Hn); [done|done|done|repeat constructor; done|].
  exists bs. eexists. split; [exact H|exact Hn].
Defined.

(** A sample rate of zero is accepted and divides by zero at the first request. *)
Lemma perf_rate_zero `{F : FloatLib} :
  let options := <[TRANSFER_ENGINE_SAMPLE_RATE := "0"%string]>
                   (<[TRANSFER_ENGINE_ENABLE_PERF_METRICS := "true"%string]> ∅) in
  exists c, new_PerfMetricsController option_definitions options = Ok c /\
    ShouldLogPerfMetric c 0 = Undef.
Proof.
  exists {| enable_perf_metrics_ := true; perf_sample_rate_ := 0; perf_sample_step_ := -2;
            perf_read_count_ := 0 |}.
  split; [vm_compute; reflexivity|reflexivity].
Qed.

(** ** Padded addresses *)

Lemma zeros_length n : String.length (zeros n) = n.
Proof. induction n; cbn; congruence. Qed.

Lemma c_str_app a b : all_chars (fun c => c <> zero) a -> c_str (a ++ b) = (a ++ c_str b)%string.
Proof.
  induction a as [|c a IH]; [done|]. intros [Hc Ha]. rewrite !string_app_cons. cbn.
  rewrite decide_False by done. by rewrite IH.
Qed.

(** Unless [POD_IP] is set, the address found over the socket comes with the
    rest of its buffer: the string always has [INET_ADDRSTRLEN] characters, is
    not the address, and whatever is appended to it (such as a port) is
    invisible to a reader of C strings. *)
Theorem hostname_padded (env : Environment) (net : network) (text : string) :
  env_nonempty env "POD_IP" = None -> route_address net = Some text ->
  (String.length text < INET_ADDRSTRLEN)%nat -> all_chars (fun c => c <> zero) text ->
  exists host, GetLocalHostnameOrIP env net = Ok host /\
    String.length host = INET_ADDRSTRLEN /\ host <> text /\
    forall port, c_str (host ++ port) = text.
Proof.
  intros Hp Ht Hl Hz. unfold GetLocalHostnameOrIP. rewrite Hp, Ht. exists (ip_str text).
  assert (Hlen : String.length (ip_str text) = INET_ADDRSTRLEN).
  { unfold ip_str. rewrite string_length_app, zeros_length. lia. }
  split; [done|]. split; [done|]. split; [intros E; rewrite E in Hlen; lia|].
  intros port. unfold ip_str. rewrite string_app_assoc, c_str_app by done.
  destruct (INET_ADDRSTRLEN - String.length text)%nat as [|n] eqn:En; [lia|].
  cbn [zeros]. rewrite string_app_cons. cbn [c_str]. rewrite decide_True by done. apply string_app_nil.
Qed.

Lemma hostname_padded_witness :
  let net := {| route_address := Some "10.0.0.7"%string; interfaces := None |} in
  exists host, GetLocalHostnameOrIP (fun _ => None) net = Ok host /\
    c_str (host ++ ":8080") = "10.0.0.7"%string.
Proof.
  destruct (hostname_padded (fun _ => None)
              {| route_address := Some "10.0.0.7"%string; interfaces := None |} "10.0.0.7")
    as (host & H & _ & _ & Hc); [done|done|vm_compute; lia|cbn; split_and!; done|].
  exists host. split; [exact H|apply Hc].
Defined.
