(* ===== verification/Topology.v ===== *)
(** * The choice of RDMA devices

    common/gpu_topology_manager.h and gpu_topology_manager.cpp: reading the
    topology that [nvidia-smi topo -m] prints or the network devices that
    [lspci] lists, and choosing the network cards for a GPU or for a rank.
    What the commands print, the directories and files under /sys, the CUDA
    runtime and the shuffling are parameters.

    The theorems show that the cards nearest to a GPU are chosen, which entry
    of a printed matrix becomes the distance of a GPU and a card, and when the
    names of the cards are lost. *)

From stdpp Require Import gmap strings.
From S2P Require Import Prelude StringUtils Options.
Local Open Scope Z_scope.

(** ** Data *)

Module TopoDistance.
Inductive t : Type := SELF | PIX | NODE | SYS | NV18 | UNKNOWN.
#[global] Instance t_eq_dec : EqDecision t.
Proof. solve_decision. Defined.
End TopoDistance.

Module DeviceType.
Inductive t : Type := GPU | NIC.
#[global] Instance t_eq_dec : EqDecision t.
Proof. solve_decision. Defined.
End DeviceType.

(** [cpu_affinity] is never assigned. *)
Record DeviceInfo : Type := MkDeviceInfo {
  device_name : string;
  nic_name : string;
  device_type : DeviceType.t;
  numa_node : Z;
}.

Record TopoRelation : Type := MkTopoRelation {
  from_device : string;
  to_device : string;
  distance : TopoDistance.t;
}.

Record GpuTopologyManager : Type := MkTopology {
  gpu_devices : list DeviceInfo;
  nic_devices : list DeviceInfo;
  topo_relations : list TopoRelation;
  nic_name_mapping : gmap string string;
  initialized : bool;
}.

Definition new_GpuTopologyManager : GpuTopologyManager := MkTopology [] [] [] ∅ false.

Definition add_gpu (d : DeviceInfo) (m : GpuTopologyManager) : GpuTopologyManager :=
  MkTopology (gpu_devices m ++ [d]) (nic_devices m) (topo_relations m) (nic_name_mapping m) (initialized m).
Definition add_nic (d : DeviceInfo) (m : GpuTopologyManager) : GpuTopologyManager :=
  MkTopology (gpu_devices m) (nic_devices m ++ [d]) (topo_relations m) (nic_name_mapping m) (initialized m).
Definition add_relations (l : list TopoRelation) (m : GpuTopologyManager) : GpuTopologyManager :=
  MkTopology (gpu_devices m) (nic_devices m) (topo_relations m ++ l) (nic_name_mapping m) (initialized m).
Definition map_name (name actual : string) (m : GpuTopologyManager) : GpuTopologyManager :=
  MkTopology (gpu_devices m) (nic_devices m) (topo_relations m) (<[name := actual]> (nic_name_mapping m)) (initialized m).
Definition set_initialized (m : GpuTopologyManager) : GpuTopologyManager :=
  MkTopology (gpu_devices m) (nic_devices m) (topo_relations m) (nic_name_mapping m) true.

(** What the operating system and the CUDA runtime answer: the output of a
    command ([None]: no pipe), the entries of a directory with whether they
    are directories, the text of a file, the number of CUDA devices ([None]:
    an error), and the order [std::shuffle] gives. *)
Record system : Type := MkSystem {
  popen : string -> option string;
  opendir : string -> option (list (bool * string));
  open_file : string -> option string;
  cudaGetDeviceCount : option Z;
  shuffle : list string -> list string;
}.

(** ** Streams *)

(** Repeated [fgets(buffer, n + 1, pipe)]: each call reads a line with its end
    or [n] characters.  [left] more characters fit the buffer [cur]. *)
Fixpoint fgets_all (n left : nat) (s cur : string) : list string :=
  match s with
  | EmptyString => if decide (cur = EmptyString) then [] else [cur]
  | String c s' =>
      let cur := push_back cur c in
      match left with
      | S (S left') => if decide (c = NEWLINE) then cur :: fgets_all n n s' EmptyString
                       else fgets_all n (S left') s' cur
      | _ => cur :: fgets_all n n s' EmptyString
      end
  end.

(** Repeated [stream >> token]. *)
Fixpoint words (s cur : string) : list string :=
  match s with
  | EmptyString => if decide (cur = EmptyString) then [] else [cur]
  | String c s' =>
      if isspace c then (if decide (cur = EmptyString) then [] else [cur]) ++ words s' EmptyString
      else words s' (push_back cur c)
  end.

(** [file >> numa_node] *)
Definition read_int (s : string) : option Z := match stoi s with Ok v => Some v | _ => None end.

(** ** Network devices of the system *)

Section System.
  Context (sys : system).

(** The entry that is returned lies in the buffer of the directory stream,
    which [closedir] has released before the entry is read. *)
Definition GetNicNameFromPci (pci_addr : string) : result string :=
  match opendir sys ("/sys/bus/pci/devices/" ++ pci_addr ++ "/net")%string with
  | Some entries =>
      if existsb (fun e => e.1 && negb (String.eqb e.2 ".") && negb (String.eqb e.2 "..")) entries then Undef
      else Ok EmptyString
  | None => Ok EmptyString
  end.

Fixpoint any_of (f : ascii -> bool) (s : string) : bool :=
  match s with EmptyString => false | String c s' => f c || any_of f s' end.

Definition islower (c : ascii) : bool := let n := nat_of_ascii c in ((97 <=? n) && (n <=? 122))%nat.
Definition isupper (c : ascii) : bool := let n := nat_of_ascii c in ((65 <=? n) && (n <=? 90))%nat.

Definition pci_variants (pci_addr : string) : list string :=
  pci_addr :: (if any_of islower pci_addr then [ToUpper pci_addr] else []) ++
  (if any_of isupper pci_addr then [ToLower pci_addr] else []).

Fixpoint first_numa_node (variants : list string) : Z :=
  match variants with
  | [] => -1
  | v :: variants' =>
      match open_file sys ("/sys/bus/pci/devices/" ++ v ++ "/numa_node")%string with
      | Some text => match read_int text with Some n => n | None => first_numa_node variants' end
      | None => first_numa_node variants'
      end
  end.

Definition GetNumaNodeFromPci (pci_addr : string) : Z := first_numa_node (pci_variants pci_addr).

(** The body of the loop over the lines of [lspci]. *)
Definition network_device (line : string) (st : Z * GpuTopologyManager) : result (Z * GpuTopologyManager) :=
  let '(nic_index, m) := st in
  match split_line ":" line with
  | None => Ok (nic_index, m)
  | Some (pci_addr, _) =>
      let name := ("NIC" ++ to_string nic_index)%string in
      found ← GetNicNameFromPci pci_addr;
      let actual := if decide (found = EmptyString) then ("mlx5_bond_" ++ to_string nic_index)%string else found in
      let numa := GetNumaNodeFromPci pci_addr in
      let info := MkDeviceInfo name actual DeviceType.NIC (if 0 <=? numa then numa else -1) in
      Ok (nic_index + 1, add_nic info (map_name name actual m))
  end.

Definition GetNetworkDevicesFromSystem (m : GpuTopologyManager) : result (bool * GpuTopologyManager) :=
  match popen sys "lspci | grep -i network" with
  | None => Ok (false, m)
  | Some output =>
      '(_, m) ← for_each network_device (map c_str (fgets_all 255 255 output EmptyString)) (0, m);
      Ok (negb (length (nic_devices m) =? 0)%nat, m)
  end.

Definition GetRdmaDevicesFromSystem (m : GpuTopologyManager) : result (bool * GpuTopologyManager) :=
  '(found, m) ← GetNetworkDevicesFromSystem m;
  Ok ((found : bool) && negb (length (nic_devices m) =? 0)%nat, m).

(** ** The output of nvidia-smi *)

Definition ExecuteNvidiaSmiTopo : string :=
  match popen sys "nvidia-smi topo -m" with
  | None => EmptyString
  | Some output => foldr String.append EmptyString (map c_str (fgets_all 127 127 output EmptyString))
  end.

Definition StringToDistance (distance_str : string) : TopoDistance.t :=
  if String.eqb distance_str "X" then TopoDistance.SELF
  else if String.eqb distance_str "PIX" then TopoDistance.PIX
  else if String.eqb distance_str "NODE" then TopoDistance.NODE
  else if String.eqb distance_str "SYS" then TopoDistance.SYS
  else if has_prefix "NV" distance_str then TopoDistance.NV18
  else TopoDistance.UNKNOWN.

(** The loop over the tokens that looks for a NUMA node. *)
Fixpoint numa_of_tokens (tokens : list string) (numa : Z) : Z :=
  match tokens with
  | t :: (next :: _) as rest =>
      numa_of_tokens rest
        (if String.eqb t "CPU" then numa
         else if String.eqb t "NUMA" then match stoi next with Ok n => n | _ => numa end
         else numa)
  | _ => numa
  end.

(** The device that column [i] of a row stands for. *)
Definition target_device (m : GpuTopologyManager) (i : nat) : option string :=
  if (i <? length (gpu_devices m))%nat then device_name <$> gpu_devices m !! i
  else device_name <$> nic_devices m !! (i - length (gpu_devices m))%nat.

Definition cell_relation (m : GpuTopologyManager) (from : string) (i : nat) (token : string) : option TopoRelation :=
  target ← target_device m i;
  if decide (StringToDistance token = TopoDistance.UNKNOWN) then None
  else Some (MkTopoRelation from target (StringToDistance token)).

Definition row_relations (m : GpuTopologyManager) (from : string) (cells : list string) : list TopoRelation :=
  omap id (imap (cell_relation m from) cells).

Definition parse_tokens (tokens : list string) (m : GpuTopologyManager) : bool * GpuTopologyManager :=
  match tokens with
  | name :: cells =>
      if (length tokens <? 3)%nat then (false, m)
      else
        let info ty := MkDeviceInfo name EmptyString ty (numa_of_tokens cells (-1)) in
        if has_prefix "GPU" name then
          let m := add_gpu (info DeviceType.GPU) m in (true, add_relations (row_relations m name cells) m)
        else if has_prefix "NIC" name then
          let m := add_nic (info DeviceType.NIC) m in (true, add_relations (row_relations m name cells) m)
        else (false, m)
  | [] => (false, m)
  end.

Definition ParseDeviceInfoLine (line : string) (m : GpuTopologyManager) : bool * GpuTopologyManager :=
  parse_tokens (words line EmptyString) m.

(** The loop of [ParseTopoMatrix], with [found_legend] and [found_matrix]. *)
Fixpoint parse_lines (lines : list string) (found_legend found_matrix : bool) (m : GpuTopologyManager)
    : bool * GpuTopologyManager :=
  match lines with
  | [] => (found_matrix, m)
  | line :: lines' =>
      if bool_decide (line = EmptyString) || contains "Legend:" line then parse_lines lines' true found_matrix m
      else if found_legend then (found_matrix, m)
      else if contains "GPU" line || contains "NIC" line
           then parse_lines lines' false true (ParseDeviceInfoLine line m).2
           else parse_lines lines' false found_matrix m
  end.

Definition ParseTopoMatrix (lines : list string) (m : GpuTopologyManager) : bool * GpuTopologyManager :=
  parse_lines lines false false m.

(** A line after the NIC legend. *)
Definition legend_line (line : string) (m : GpuTopologyManager) : GpuTopologyManager :=
  match split_line ":" line with
  | Some (name, actual) =>
      let actual := trim BLANKS actual in
      if decide (name = EmptyString) then m
      else if decide (actual = EmptyString) then m
      else map_name name actual m
  | None => m
  end.

Fixpoint legend_lines (lines : list string) (found_legend : bool) (m : GpuTopologyManager) : GpuTopologyManager :=
  match lines with
  | [] => m
  | line :: lines' =>
      if contains "NIC Legend:" line then legend_lines lines' true m
      else legend_lines lines' found_legend (if found_legend then legend_line line m else m)
  end.

Definition ParseNicLegend (lines : list string) (m : GpuTopologyManager) : bool * GpuTopologyManager :=
  let m := legend_lines lines false m in
  (negb (bool_decide (nic_name_mapping m = ∅)), m).

Definition ParseNvidiaSmiTopo (m : GpuTopologyManager) : bool * GpuTopologyManager :=
  let topo_output := ExecuteNvidiaSmiTopo in
  if decide (topo_output = EmptyString) then (false, m)
  else
    let lines := filter (fun l => l <> EmptyString) (getlines NEWLINE topo_output None) in
    if decide (lines = []) then (false, m)
    else
      let '(found, m) := ParseTopoMatrix lines m in
      if found : bool then ParseNicLegend lines m else (false, m).

Definition Initialize (m : GpuTopologyManager) : result (bool * GpuTopologyManager) :=
  if initialized m then Ok (true, m)
  else
    let '(parsed, m) := ParseNvidiaSmiTopo m in
    if parsed : bool then Ok (true, set_initialized m)
    else
      '(_, m) ← GetRdmaDevicesFromSystem m;
      Ok (true, set_initialized m).

(** ** Choosing devices *)

Definition find_relation (rs : list TopoRelation) (from to : string) : option TopoDistance.t :=
  distance <$> List.find (fun r => String.eqb (from_device r) from && String.eqb (to_device r) to) rs.

Definition GetTopoDistance (m : GpuTopologyManager) (from to : string) : TopoDistance.t :=
  match find_relation (topo_relations m) from to with
  | Some d => d
  | None => default TopoDistance.UNKNOWN (find_relation (topo_relations m) to from)
  end.

Definition DISTANCE_PRIORITY : list TopoDistance.t := [TopoDistance.PIX; TopoDistance.NODE; TopoDistance.SYS].

(** [devices_by_distance[d]] *)
Definition devices_at (m : GpuTopologyManager) (source_device : string) (d : TopoDistance.t) : list string :=
  if decide (d = TopoDistance.UNKNOWN) then []
  else filter (fun n => GetTopoDistance m source_device n = d) (device_name <$> nic_devices m).

Fixpoint select_loop (m : GpuTopologyManager) (source_device : string) (max_devices : Z)
    (distance_priority : list TopoDistance.t) (selected_devices : list string) : list string :=
  match distance_priority with
  | [] => selected_devices
  | d :: distance_priority' =>
      if u64 max_devices <=? Z.of_nat (length selected_devices) then selected_devices
      else
        let unselected_devices := shuffle sys (filter (fun n => n ∉ selected_devices) (devices_at m source_device d)) in
        let devices_to_select :=
          Z.min (Z.of_nat (length unselected_devices)) (max_devices - Z.of_nat (length selected_devices)) in
        select_loop m source_device max_devices distance_priority'
          (selected_devices ++ take (Z.to_nat devices_to_select) unselected_devices)
  end.

Definition SelectDevicesByDistance (m : GpuTopologyManager) (source_device : string) (max_devices : Z)
    (distance_priority : list TopoDistance.t) : list string :=
  select_loop m source_device max_devices distance_priority [].

Definition DeviceNameToNicName (m : GpuTopologyManager) (name : string) : string :=
  match nic_name_mapping m !! name with
  | Some actual => actual
  | None => if has_prefix "NIC" name then ("mlx5_bond_" ++ String.substring 3 (String.length name - 3) name)%string
            else EmptyString
  end.

Definition nonempty_names (l : list string) : list string := filter (fun s => s <> EmptyString) l.

Definition default_names (max_devices : Z) : string :=
  join COMMA ((fun i => "mlx5_bond_" ++ to_string i)%string <$> seqZ 0 max_devices).

Definition SelectDevicesFromNicList (m : GpuTopologyManager) (max_devices : Z) : result (string * GpuTopologyManager) :=
  '(found, m) ← (if (length (nic_devices m) =? 0)%nat then GetNetworkDevicesFromSystem m else Ok (true, m));
  if negb found || (length (nic_devices m) =? 0)%nat then Ok (default_names max_devices, m)
  else
    let devices_to_select := Z.min max_devices (Z.of_nat (length (nic_devices m))) in
    Ok (join COMMA (nonempty_names (nic_name <$> take (Z.to_nat devices_to_select) (nic_devices m))), m).

Definition SelectRdmaDevicesByRank (m : GpuTopologyManager) (rank_id max_devices : Z)
    : result (string * GpuTopologyManager) :=
  if negb (initialized m) then Ok (EmptyString, m)
  else
    let nic_count := Z.of_nat (length (nic_devices m)) in
    if nic_count =? 0 then SelectDevicesFromNicList m max_devices
    else
      let first_nic_index := Z.rem rank_id nic_count in
      devices ← map_result (fun i => index (nic_devices m) (Z.rem (first_nic_index + i) nic_count))
                  (seqZ 0 (Z.min max_devices nic_count));
      Ok (join COMMA (nonempty_names (nic_name <$> devices)), m).

Definition SelectRdmaDevices (m : GpuTopologyManager) (cuda_device_id max_devices : Z)
    : result (string * GpuTopologyManager) :=
  if negb (initialized m) then Ok (EmptyString, m)
  else
    match cudaGetDeviceCount sys with
    | None | Some 0 => SelectRdmaDevicesByRank m 0 max_devices
    | Some device_count =>
        if (cuda_device_id <? 0) || (device_count <=? cuda_device_id) then Ok (EmptyString, m)
        else
          let source_device := ("GPU" ++ to_string cuda_device_id)%string in
          let selected_devices := SelectDevicesByDistance m source_device max_devices DISTANCE_PRIORITY in
          if decide (selected_devices = []) then SelectDevicesFromNicList m max_devices
          else Ok (join COMMA (nonempty_names (DeviceNameToNicName m <$> selected_devices)), m)
    end.

End System.

(** ** The nearest cards are chosen *)

Lemma elem_of_devices_at m src d n : n ∈ devices_at m src d -> GetTopoDistance m src n = d.
Proof.
  unfold devices_at. destruct (decide (d = TopoDistance.UNKNOWN)); [by intros ?%not_elem_of_nil|].
  by intros [? _]%list_elem_of_filter.
Qed.

Lemma select_loop_groups sys m src max : (forall l, shuffle sys l ≡ₚ l) -> 0 <= max < 2 ^ 63 ->
  forall prio found, NoDup prio ->
  (forall n, n ∈ found -> GetTopoDistance m src n ∉ prio) ->
  exists groups, Forall2 (≡ₚ) groups (devices_at m src <$> prio) /\
    select_loop sys m src max prio (take (Z.to_nat max) found) = take (Z.to_nat max) (found ++ concat groups).
Proof.
  intros Hs Hmax. induction prio as [|d prio IH]; intros found Hnd Hfound.
  { exists []. split; [done|]. cbn. by rewrite app_nil_r. }
  apply NoDup_cons in Hnd as [Hd Hnd]. cbn [select_loop].
  rewrite u64_small by (unfold in_u64; lia). rewrite length_take.
  destruct (Z.leb_spec max (Z.of_nat (Nat.min (Z.to_nat max) (length found)))) as [Hfull|Hfull].
  { exists (devices_at m src <$> d :: prio). split; [reflexivity|].
    rewrite take_app_le by lia. done. }
  rewrite (take_ge found) by lia. rewrite filter_all.
  2: { apply Forall_forall. intros n Hn Hin. apply elem_of_devices_at in Hn. apply (Hfound n Hin). rewrite Hn. by left. }
  set (g := shuffle sys (devices_at m src d)). assert (Hg : g ≡ₚ devices_at m src d) by apply Hs.
  destruct (IH (found ++ g) Hnd) as (groups & Hgroups & E).
  { intros n [Hn|Hn]%elem_of_app; [pose proof (Hfound n Hn); set_solver|].
    rewrite Hg in Hn. apply elem_of_devices_at in Hn. by rewrite Hn. }
  exists (g :: groups). split; [by constructor|]. cbn [concat]. rewrite app_assoc, <-E. f_equal.
  rewrite Nat.min_r, take_app_ge by lia. f_equal.
  destruct (Z.min_spec (Z.of_nat (length g)) (max - Z.of_nat (length found))) as [[? ->]|[? ->]].
  - rewrite !take_ge by lia. done.
  - f_equal. lia.
Qed.

(** For a GPU at most [max_devices] cards are chosen, nearest first: the cards
    are the first ones of a list that has all cards at the first distance of
    the priority, in any order, then all at the second, and so on.  A card is
    left out only when [max_devices] others, none of them farther, are chosen. *)
Theorem nearest_devices_selected (sys : system) (m : GpuTopologyManager) (source_device : string) (max_devices : Z)
    (distance_priority : list TopoDistance.t) :
  (forall l, shuffle sys l ≡ₚ l) -> 0 <= max_devices < 2 ^ 63 -> NoDup distance_priority ->
  exists groups, Forall2 (≡ₚ) groups (devices_at m source_device <$> distance_priority) /\
    SelectDevicesByDistance sys m source_device max_devices distance_priority =
      take (Z.to_nat max_devices) (concat groups).
Proof.
  intros Hs Hmax Hnd.
  destruct (select_loop_groups sys m source_device max_devices Hs Hmax distance_priority []) as (gs & Hgs & E);
    [done|by intros n ?%not_elem_of_nil|].
  exists gs. split; [done|]. by rewrite take_nil in E.
Qed.

(** ** Choosing by rank *)

Lemma length_nonzero {A} (l : list A) : l <> [] -> (Z.of_nat (length l) =? 0) = false.
Proof. by destruct l. Qed.

(** The cards that are visited for a rank. *)
Lemma rank_devices (l : list DeviceInfo) rank max_devices : l <> [] -> 0 <= rank ->
  let n := Z.of_nat (length l) in
  exists ds, map_result (fun i => index l (Z.rem (Z.rem rank n + i) n)) (seqZ 0 (Z.min max_devices n)) = Ok ds /\
    Forall (fun d => d ∈ l) ds /\ length ds = Z.to_nat (Z.min max_devices n) /\
    forall i d, ds !! i = Some d -> l !! Z.to_nat ((rank + Z.of_nat i) mod n) = Some d.
Proof.
  intros Hne Hr n. assert (Hn : 0 < n) by (subst n; destruct l; [done|cbn; lia]).
  assert (Hrem : forall i, 0 <= i -> Z.rem (Z.rem rank n + i) n = (rank + i) mod n).
  { intros i Hi. pose proof (Z.mod_pos_bound rank n Hn).
    by rewrite !Z.rem_mod_nonneg, Zplus_mod_idemp_l by (rewrite ?Z.rem_mod_nonneg by lia; lia). }
  destruct (map_result_total (fun i => index l (Z.rem (Z.rem rank n + i) n))
              (fun d => d ∈ l) (seqZ 0 (Z.min max_devices n))) as (ds & Eds & Hds).
  { intros i [Hi _]%elem_of_seqZ. rewrite Hrem by done. pose proof (Z.mod_pos_bound (rank + i) n Hn) as Hb.
    destruct (lookup_lt_is_Some_2 l (Z.to_nat ((rank + i) mod n))) as [d Hd]; [subst n; lia|].
    exists d. split; [|by eapply list_elem_of_lookup_2]. apply index_Ok. split; [lia|done]. }
  exists ds. split; [done|]. split; [done|]. apply map_result_Ok in Eds. split.
  - apply Forall2_length in Eds. by rewrite <-Eds, length_seqZ.
  - intros i d Hd. destruct (Forall2_lookup_r _ _ _ _ _ Eds Hd) as (x & Hx & E).
    apply lookup_seqZ in Hx as [-> Hx]. rewrite Z.add_0_l, Hrem in E by lia. by apply index_Ok in E as [_ E].
Qed.

(** With network cards whose names are known, consecutive ranks take the cards
    in turn: rank [r] gets the cards [r], [r + 1], ... modulo their number, as
    many as were asked for and never one twice. *)
Theorem rank_selection (sys : system) (m : GpuTopologyManager) (rank_id max_devices : Z) :
  initialized m = true -> nic_devices m <> [] -> Forall (fun d => nic_name d <> EmptyString) (nic_devices m) ->
  0 <= rank_id ->
  exists devices, SelectRdmaDevicesByRank sys m rank_id max_devices = Ok (join COMMA (nic_name <$> devices), m) /\
    length devices = Z.to_nat (Z.min max_devices (Z.of_nat (length (nic_devices m)))) /\
    forall i d, devices !! i = Some d ->
      nic_devices m !! Z.to_nat ((rank_id + Z.of_nat i) mod Z.of_nat (length (nic_devices m))) = Some d.
Proof.
  intros Hi Hne Hnames Hr. unfold SelectRdmaDevicesByRank. rewrite Hi. cbn [negb].
  destruct (rank_devices (nic_devices m) rank_id max_devices Hne Hr) as (ds & -> & Hds & Hl & Hlook).
  rewrite length_nonzero by done.
  cbn [mbind result_bind]. exists ds. split; [|done].
  unfold nonempty_names. rewrite filter_all; [done|]. apply Forall_fmap.
  eapply Forall_impl; [exact Hds|]. intros d Hd. rewrite Forall_forall in Hnames. by apply Hnames.
Qed.

(** ** Reading the matrix *)

Definition TAB : ascii := ascii_of_nat 9.

(** A token: not empty, without white space or a colon. *)
Definition token (w : string) : Prop :=
  w <> EmptyString /\ all_chars (fun c => isspace c = false /\ c <> COLON) w.

Lemma words_chars w s cur : all_chars (fun c => isspace c = false /\ c <> COLON) w ->
  words (w ++ s) cur = words s (cur ++ w)%string.
Proof.
  revert cur. induction w as [|c w IH]; intros cur Hw.
  { change (EmptyString ++ s)%string with s. by rewrite string_app_nil. }
  destruct Hw as [[Hc _] Hw]. rewrite string_app_cons. cbn [words]. rewrite Hc, IH by done.
  by rewrite push_back_app.
Qed.

Lemma words_tokens ws : Forall token ws -> words (join TAB ws) EmptyString = ws.
Proof.
  induction 1 as [|w ws [Hne Hw] Hws IH]; [done|]. destruct ws as [|w' ws].
  - cbn [join]. rewrite <-(string_app_nil w) at 1. rewrite words_chars by done.
    change (EmptyString ++ w)%string with w. cbn [words]. by rewrite decide_False.
  - cbn [join] in *. rewrite words_chars by done. change (EmptyString ++ w)%string with w.
    cbn [words]. change (isspace TAB) with true. cbn [negb]. rewrite decide_False by done. cbn [app]. by f_equal.
Qed.

(** A text without a colon does not contain one that has a colon. *)
Lemma contains_colon p s : all_chars (fun c => c <> COLON) s -> contains (p ++ String COLON EmptyString) s = false.
Proof.
  assert (Hp : forall p s, all_chars (fun c => c <> COLON) s -> has_prefix (p ++ String COLON EmptyString) s = false).
  { clear. induction p as [|c p IH]; intros s Hs.
    - change (EmptyString ++ String COLON EmptyString)%string with (String COLON EmptyString).
      destruct s as [|d s]; [done|]. destruct Hs as [Hd _]. cbn. by rewrite bool_decide_eq_false_2.
    - rewrite string_app_cons. destruct s as [|d s]; [done|]. destruct Hs as [_ Hs]. cbn.
      rewrite IH by done. by rewrite andb_false_r. }
  induction s as [|c s IH]; intros Hs; cbn [contains]; rewrite Hp by done; [done|]. destruct Hs. by apply IH.
Qed.

Lemma join_chars (P : ascii -> Prop) d ws : P d -> Forall (all_chars P) ws -> all_chars P (join d ws).
Proof.
  intros Hd. induction 1 as [|w ws Hw Hws IH]; [done|]. destruct ws as [|w' ws]; [done|].
  change (join d (w :: w' :: ws)) with (w ++ String d (join d (w' :: ws)))%string.
  apply all_chars_app; [done|]. by split.
Qed.

Lemma has_prefix_app p s t : has_prefix p s = true -> has_prefix p (s ++ t) = true.
Proof.
  revert s. induction p as [|c p IH]; intros s H; [by destruct s|].
  destruct s as [|d s]; [done|]. rewrite string_app_cons. cbn in *. apply andb_prop in H as [-> H]. by apply IH.
Qed.

Lemma contains_prefix p s : has_prefix p s = true -> contains p s = true.
Proof. intros H. by destruct s; cbn [contains]; rewrite H. Qed.

(** A row of the matrix: the device and the cells. *)
Abbreviation row := (string * list string)%type.
Definition tokens_of (r : row) : list string := r.1 :: r.2.
Definition row_ok (kind : string) (r : row) : Prop :=
  Forall token (tokens_of r) /\ (2 <= length r.2)%nat /\ has_prefix kind r.1 = true.

Definition read_row (m : GpuTopologyManager) (ts : list string) : GpuTopologyManager := (parse_tokens ts m).2.

(** A line that starts with blanks or not, and has tokens of which one names a device. *)
Lemma parse_lines_row pre ts kind rest found m : Forall token ts ->
  all_chars (fun c => isspace c = true /\ c <> COLON) pre ->
  has_prefix kind (default EmptyString (head ts)) = true -> (kind = "GPU" \/ kind = "NIC")%string ->
  parse_lines ((pre ++ join TAB ts)%string :: rest) false found m = parse_lines rest false true (read_row m ts).
Proof.
  intros Hts Hpre Hh Hk. destruct ts as [|t ts]; [by destruct Hk as [-> | ->]|]. cbn [default head] in Hh.
  assert (Hc : all_chars (fun c => c <> COLON) (pre ++ join TAB (t :: ts))).
  { apply all_chars_app; [eapply all_chars_impl; [|exact Hpre]; naive_solver|].
    apply join_chars; [done|]. eapply Forall_impl; [exact Hts|]. intros w [_ Hw].
    eapply all_chars_impl; [|exact Hw]. naive_solver. }
  assert (Hj : contains kind (pre ++ join TAB (t :: ts)) = true).
  { clear Hc. induction pre as [|c pre IH]; [|destruct Hpre; rewrite string_app_cons; cbn [contains];
      rewrite IH by done; apply orb_true_r].
    change (EmptyString ++ join TAB (t :: ts))%string with (join TAB (t :: ts)). apply contains_prefix.
    destruct ts as [|t' ts]; [done|]. by apply has_prefix_app. }
  assert (Hw : words (pre ++ join TAB (t :: ts)) EmptyString = t :: ts).
  { clear Hc Hj. induction pre as [|c pre IH]; [by apply words_tokens|]. destruct Hpre as [[Hc _] Hpre].
    rewrite string_app_cons. cbn [words]. rewrite Hc. cbn. by apply IH. }
  cbn [parse_lines]. rewrite bool_decide_eq_false_2 by (intros E; rewrite E in Hj; by destruct Hk as [-> | ->]).
  pose proof (contains_colon "Legend" _ Hc) as Hl.
  change ("Legend" ++ String COLON EmptyString)%string with "Legend:"%string in Hl. rewrite Hl. cbn [orb].
  replace (contains "GPU" _ || contains "NIC" _) with true.
  2: { symmetry. destruct Hk as [-> | ->]; rewrite Hj; [done|apply orb_true_r]. }
  unfold ParseDeviceInfoLine. by rewrite Hw.
Qed.

Definition row_lines (rows : list row) : list string := (fun r => join TAB (tokens_of r)) <$> rows.

Lemma parse_lines_rows kind rows rest m : Forall (row_ok kind) rows -> (kind = "GPU" \/ kind = "NIC")%string ->
  rows <> [] -> forall found,
  parse_lines (row_lines rows ++ rest) false found m =
  parse_lines rest false true (foldl read_row m (tokens_of <$> rows)).
Proof.
  intros Hr Hk. revert m. induction Hr as [|r rows (Ht & _ & Hp) Hrows IH]; intros m Hne found; [done|].
  change (row_lines (r :: rows) ++ rest) with ((EmptyString ++ join TAB (tokens_of r))%string :: (row_lines rows ++ rest)).
  rewrite (parse_lines_row EmptyString (tokens_of r) kind) by done.
  destruct rows as [|r' rows]; [done|]. by rewrite IH.
Qed.

Lemma find_relation_app rs rs' from to : find_relation (rs ++ rs') from to =
  match find_relation rs from to with Some d => Some d | None => find_relation rs' from to end.
Proof.
  unfold find_relation. induction rs as [|r rs IH]; [done|]. cbn. by destruct (String.eqb _ _ && String.eqb _ _).
Qed.

Lemma find_relation_none rs from to :
  Forall (fun r => ~ (from_device r = from /\ to_device r = to)) rs -> find_relation rs from to = None.
Proof.
  unfold find_relation. induction 1 as [|r rs Hr _ IH]; [done|]. cbn.
  destruct (String.eqb_spec (from_device r) from), (String.eqb_spec (to_device r) to); naive_solver.
Qed.

Lemma find_imap_none {A B} (P : B -> bool) : forall (l : list A) (f : nat -> A -> option B),
  (forall i x b, f i x = Some b -> P b = true -> False) -> List.find P (omap id (imap f l)) = None.
Proof.
  induction l as [|x l IH]; intros f Hf; [done|]. cbn.
  assert (IH' : List.find P (omap id (imap (f ∘ S) l)) = None) by (apply IH; intros i; apply (Hf (S i))).
  destruct (f 0%nat x) as [b|] eqn:E; cbn; [|done]. destruct (P b) eqn:Eb; [by destruct (Hf _ _ _ E Eb)|done].
Qed.

Lemma find_imap {A B} (P : B -> bool) p : forall (l : list A) (f : nat -> A -> option B),
  (forall i x b, f i x = Some b -> P b = true -> i = p) ->
  List.find P (omap id (imap f l)) = x ← l !! p; b ← f p x; if P b then Some b else None.
Proof.
  revert p. induction p as [|p IHp]; intros l f Hf; destruct l as [|x l]; try done.
  - cbn. assert (Hn : List.find P (omap id (imap (f ∘ S) l)) = None).
    { apply find_imap_none. intros i z b E Eb. by specialize (Hf _ _ _ E Eb). }
    destruct (f 0%nat x) as [b|]; cbn; [|done]. by destruct (P b).
  - cbn. assert (Hf' : forall i x b, (f ∘ S) i x = Some b -> P b = true -> i = p).
    { intros i y b E Eb. specialize (Hf _ _ _ E Eb). lia. }
    transitivity (List.find P (omap id (imap (f ∘ S) l))); [|by apply IHp].
    destruct (f 0%nat x) as [b|] eqn:E; cbn; [|done].
    destruct (P b) eqn:Eb; [|done]. by specialize (Hf _ _ _ E Eb).
Qed.

(** The distance that a cell gives, if it is one. *)
Definition cell_distance (cells : list string) (p : nat) : option TopoDistance.t :=
  let d := StringToDistance (default EmptyString (cells !! p)) in
  if decide (d = TopoDistance.UNKNOWN) then None else Some d.

Lemma row_find m from to p cells : target_device m p = Some to ->
  (forall i, target_device m i = Some to -> i = p) ->
  find_relation (row_relations m from cells) from to = cell_distance cells p.
Proof.
  intros Hp Hu. unfold find_relation, row_relations. rewrite (find_imap _ p).
  - unfold cell_distance. destruct (cells !! p) as [t|]; [|done]. cbn [mbind option_bind default from_option].
    unfold cell_relation. rewrite Hp. cbn [mbind option_bind].
    destruct (decide _); [done|]. cbn. by rewrite !String.eqb_refl.
  - intros i x r E [_ E2%String.eqb_eq]%andb_prop. apply Hu. unfold cell_relation in E.
    destruct (target_device m i) as [t|]; [|done]. cbn in E. destruct (decide _); [done|]. injection E as <-.
    cbn in E2. by subst t.
Qed.

Lemma row_relations_from m from cells r : r ∈ row_relations m from cells ->
  from_device r = from /\ exists i, target_device m i = Some (to_device r).
Proof.
  unfold row_relations. intros (o & Ho & E)%list_elem_of_omap. cbn in E. subst o.
  apply elem_of_lookup_imap in Ho as (i & t & E & _). symmetry in E. unfold cell_relation in E.
  destruct (target_device m i) as [x|] eqn:Ei; [|done]. cbn in E. destruct (decide _); [done|].
  injection E as <-. cbn. eauto.
Qed.

Lemma target_device_lookup m i :
  target_device m i = ((device_name <$> gpu_devices m) ++ (device_name <$> nic_devices m)) !! i.
Proof.
  unfold target_device. destruct (Nat.ltb_spec i (length (gpu_devices m))).
  - rewrite lookup_app_l by (by rewrite length_fmap). by rewrite list_lookup_fmap.
  - rewrite lookup_app_r by (by rewrite length_fmap). by rewrite list_lookup_fmap, length_fmap.
Qed.

(** Names of cards and of GPUs differ. *)
Lemma prefix_differs a b : has_prefix "GPU" a = true -> has_prefix "NIC" b = true -> a <> b.
Proof.
  intros Ha Hb ->. destruct b as [|c b]; [done|]. cbn in Ha, Hb.
  apply andb_prop in Ha as [<-%bool_decide_eq_true_1 _]. done.
Qed.

(** While the rows of GPUs are read, only GPUs and relations among them are known. *)
Definition only_gpus (m : GpuTopologyManager) (names : list string) : Prop :=
  device_name <$> gpu_devices m = names /\ nic_devices m = [] /\ Forall (fun n => has_prefix "GPU" n = true) names /\
  Forall (fun r => has_prefix "GPU" (from_device r) = true /\ has_prefix "GPU" (to_device r) = true) (topo_relations m).

Lemma read_gpu_tokens m names name cells : only_gpus m names -> (2 <= length cells)%nat ->
  has_prefix "GPU" name = true -> only_gpus (read_row m (name :: cells)) (names ++ [name]).
Proof.
  intros (Hg & Hn & Hp & Hr) Hl Hname. unfold read_row, parse_tokens. cbn [length].
  replace (S (length cells) <? 3)%nat with false by (symmetry; apply Nat.ltb_ge; lia). rewrite Hname. cbn [snd].
  assert (Hg' : Forall (fun n => has_prefix "GPU" n = true) (names ++ [name])) by (apply Forall_app; auto).
  split; [|split; [done|split; [done|]]].
  - cbn. by rewrite fmap_app, Hg.
  - cbn. apply Forall_app. split; [done|]. apply Forall_forall. intros r [-> [i Hi]]%row_relations_from.
    split; [done|]. rewrite target_device_lookup in Hi. cbn in Hi. rewrite Hn, fmap_app, Hg, app_nil_r in Hi.
    rewrite Forall_forall in Hg'. apply Hg'. by eapply list_elem_of_lookup_2.
Qed.

Lemma read_gpu_rows rows : Forall (row_ok "GPU") rows -> forall m names, only_gpus m names ->
  only_gpus (foldl read_row m (tokens_of <$> rows)) (names ++ rows.*1).
Proof.
  induction 1 as [|r rows (_ & Hl & Hp) _ IH]; intros m names Hm; [by rewrite app_nil_r|].
  rewrite !fmap_cons. cbn [foldl]. rewrite cons_middle, app_assoc. apply IH. by apply read_gpu_tokens.
Qed.

(** A row of a card adds the relations of its cells, which come from it. *)
Lemma read_nic_rows gs rows : Forall (row_ok "NIC") rows -> NoDup rows.*1 -> forall m,
  device_name <$> gpu_devices m = gs -> Forall (fun d => has_prefix "NIC" (device_name d) = true) (nic_devices m) ->
  exists rs, topo_relations (foldl read_row m (tokens_of <$> rows)) = topo_relations m ++ rs /\
    Forall (fun r => from_device r ∈ rows.*1) rs /\
    forall g p n cells, has_prefix "GPU" g = true -> gs !! p = Some g -> (forall i, gs !! i = Some g -> i = p) ->
      (n, cells) ∈ rows -> find_relation rs n g = cell_distance cells p.
Proof.
  induction 1 as [|[n0 cells0] rows (_ & Hl & Hp) Hrows IH]; intros Hnd m Hg Hn.
  { exists []. rewrite app_nil_r. split; [done|]. split; [done|]. by intros g p n cells _ _ _ ?%not_elem_of_nil. }
  rewrite !fmap_cons. cbn [foldl fst]. cbn in Hnd. apply NoDup_cons in Hnd as [Hn0 Hnd]. cbn [fst snd] in Hl, Hp.
  set (info := MkDeviceInfo n0 EmptyString DeviceType.NIC (numa_of_tokens cells0 (-1))).
  set (m1 := add_nic info m). set (rs0 := row_relations m1 n0 cells0).
  assert (E : read_row m (tokens_of (n0, cells0)) = add_relations rs0 m1).
  { unfold read_row, parse_tokens, tokens_of. cbn [fst snd length].
    replace (S (length cells0) <? 3)%nat with false by (symmetry; apply Nat.ltb_ge; lia). rewrite Hp.
    destruct (has_prefix "GPU" n0) eqn:Eg; [by destruct (prefix_differs _ _ Eg Hp)|done]. }
  rewrite E. destruct (IH Hnd (add_relations rs0 m1)) as (rs & Hrs & Hfrom & Hfind); [done| |].
  { cbn. apply Forall_app. by split; [|repeat constructor]. }
  exists (rs0 ++ rs). split; [rewrite Hrs; cbn; by rewrite app_assoc|].
  assert (Hfrom0 : Forall (fun r => from_device r = n0) rs0).
  { apply Forall_forall. by intros r [? _]%row_relations_from. }
  split.
  { apply Forall_app. split; (eapply Forall_impl; [eassumption|]); cbn; intros r Hr; [rewrite Hr; by left|by right]. }
  intros g p n cells Hgp Hlook Hu Hin. rewrite find_relation_app. apply elem_of_cons in Hin as [[= -> ->]|Hin].
  - assert (Ht : forall i, target_device m1 i = Some g <-> gs !! i = Some g).
    { intros i. rewrite target_device_lookup. cbn. rewrite Hg. rewrite lookup_app. destruct (gs !! i) eqn:Ei; [done|].
      split; [|done]. intros Hi. exfalso. apply list_elem_of_lookup_2 in Hi. apply list_elem_of_fmap in Hi as (d & -> & Hd).
      apply elem_of_app in Hd as [Hd | ->%list_elem_of_singleton].
      - rewrite Forall_forall in Hn. by apply (prefix_differs _ _ Hgp (Hn _ Hd)).
      - by apply (prefix_differs _ _ Hgp Hp). }
    unfold rs0. rewrite (row_find m1 n0 g p) by (setoid_rewrite Ht; done).
    destruct (cell_distance cells0 p) eqn:Ec; [done|]. apply find_relation_none.
    eapply Forall_impl; [exact Hfrom|]. cbn. intros r Hr [Er _]. by rewrite Er in Hr.
  - rewrite find_relation_none; [by apply Hfind|]. eapply Forall_impl; [exact Hfrom0|]. cbn.
    intros r -> [-> _]. apply Hn0. by apply (list_elem_of_fmap_2 fst) in Hin.
Qed.

(** The distance of a GPU and a card after the rows were read. *)
Lemma rows_distance gpus nics m names g p n cells :
  Forall (row_ok "GPU") gpus -> Forall (row_ok "NIC") nics -> NoDup nics.*1 -> only_gpus m names ->
  (names ++ gpus.*1) !! p = Some g -> (forall i, (names ++ gpus.*1) !! i = Some g -> i = p) ->
  (n, cells) ∈ nics ->
  GetTopoDistance (foldl read_row (foldl read_row m (tokens_of <$> gpus)) (tokens_of <$> nics)) g n =
  StringToDistance (default EmptyString (cells !! p)).
Proof.
  intros Hg Hn Hnd Hm Hp Hu Hin. pose proof (read_gpu_rows gpus Hg m names Hm) as (Hgs & Hns & Hpre & Hrel).
  set (m1 := foldl read_row m (tokens_of <$> gpus)) in *.
  assert (Hgp : has_prefix "GPU" g = true).
  { rewrite Forall_forall in Hpre. apply Hpre. by eapply list_elem_of_lookup_2. }
  assert (Hnp : forall r, r ∈ nics -> has_prefix "NIC" r.1 = true).
  { intros r Hr. rewrite Forall_forall in Hn. by destruct (Hn r Hr) as (_ & _ & ?). }
  destruct (read_nic_rows (names ++ gpus.*1) nics Hn Hnd m1 Hgs) as (rs & E & Hfrom & Hfind); [by rewrite Hns|].
  unfold GetTopoDistance. rewrite E, !find_relation_app.
  rewrite (find_relation_none (topo_relations m1) g n).
  2: { eapply Forall_impl; [exact Hrel|]. cbn. intros r [_ Hr] [_ Er]. rewrite Er in Hr. by apply (prefix_differs _ _ Hr (Hnp _ Hin)). }
  rewrite (find_relation_none rs g n).
  2: { eapply Forall_impl; [exact Hfrom|]. cbn. intros r Hr [Er _]. rewrite Er in Hr. apply list_elem_of_fmap in Hr as (r' & Er' & Hr').
       rewrite Er' in Hgp. by apply (prefix_differs _ _ Hgp (Hnp _ Hr')). }
  rewrite (find_relation_none (topo_relations m1) n g).
  2: { eapply Forall_impl; [exact Hrel|]. cbn. intros r [Hr _] [Er _]. rewrite Er in Hr. by apply (prefix_differs _ _ Hr (Hnp _ Hin)). }
  rewrite (Hfind g p n cells Hgp Hp Hu Hin). unfold cell_distance. by destruct (decide _) as [->|].
Qed.

Lemma parse_after_legend lines found m : parse_lines lines true found m = (found, m).
Proof. induction lines as [|l lines IH]; [done|]. cbn. by destruct (_ || _). Qed.

Lemma parse_matrix gpus nics rest m found :
  Forall (row_ok "GPU") gpus -> Forall (row_ok "NIC") nics -> gpus <> [] -> nics <> [] ->
  parse_lines (row_lines gpus ++ row_lines nics ++ "Legend:"%string :: rest) false found m =
  (true, foldl read_row (foldl read_row m (tokens_of <$> gpus)) (tokens_of <$> nics)).
Proof.
  intros Hg Hn Hg0 Hn0. rewrite (parse_lines_rows "GPU") by auto. rewrite (parse_lines_rows "NIC") by auto.
  cbn. apply parse_after_legend.
Qed.

Lemma only_gpus_new : only_gpus new_GpuTopologyManager [].
Proof. done. Qed.

(** A matrix that consists of the rows of the GPUs and of the cards is read as
    printed: the distance of a GPU and a card is the cell of the card's row in
    the column of the GPU. *)
Theorem matrix_read (gpus nics : list row) (rest : list string) (k : nat) (g n : string) (cells : list string) :
  Forall (row_ok "GPU") gpus -> Forall (row_ok "NIC") nics -> NoDup gpus.*1 -> NoDup nics.*1 ->
  gpus.*1 !! k = Some g -> (n, cells) ∈ nics ->
  GetTopoDistance (ParseTopoMatrix (row_lines gpus ++ row_lines nics ++ "Legend:"%string :: rest)
                     new_GpuTopologyManager).2 g n =
  StringToDistance (default EmptyString (cells !! k)).
Proof.
  intros Hg Hn Hgd Hnd Hk Hin. unfold ParseTopoMatrix. rewrite parse_matrix; [|done|done|by destruct gpus|intros ->; by apply not_elem_of_nil in Hin].
  cbn [snd]. apply (rows_distance _ _ _ [] g k n cells); try done.
  intros i Hi. by apply (NoDup_lookup gpus.*1 i k g).
Qed.

(** The line above the rows that names the columns is taken for a row of the
    first GPU, so that this GPU is there twice and every column from the
    second on stands for the device before: the distance of GPU [k] and a card
    is the cell in the column of GPU [k + 1], and that of the last GPU is the
    cell of the first card. *)
Theorem header_shifts_matrix (gpus nics : list row) (affinity rest : list string) (k : nat) (g n : string)
    (cells : list string) :
  Forall (row_ok "GPU") gpus -> Forall (row_ok "NIC") nics -> NoDup gpus.*1 -> NoDup nics.*1 ->
  Forall token affinity -> (1 <= length affinity)%nat ->
  gpus.*1 !! S k = Some g -> (n, cells) ∈ nics ->
  let header := String TAB (join TAB (gpus.*1 ++ nics.*1 ++ affinity)) in
  GetTopoDistance (ParseTopoMatrix (header :: row_lines gpus ++ row_lines nics ++ "Legend:"%string :: rest)
                     new_GpuTopologyManager).2 g n =
  StringToDistance (default EmptyString (cells !! S (S k))).
Proof.
  intros Hg Hn Hgd Hnd Ha Hla Hk Hin header. unfold ParseTopoMatrix.
  destruct gpus as [|[g0 c0] gpus']; [done|]. set (gpus := (g0, c0) :: gpus') in *.
  assert (Hnames : forall kind rows, Forall (row_ok kind) rows -> Forall token rows.*1).
  { intros kind rows Hr. apply Forall_fmap. eapply Forall_impl; [exact Hr|]. intros r [Ht _].
    by apply Forall_cons in Ht as [? _]. }
  assert (Hp0 : has_prefix "GPU" g0 = true) by (apply Forall_cons in Hg as [(_ & _ & ?) _]; done).
  change header with (String TAB EmptyString ++ join TAB (gpus.*1 ++ nics.*1 ++ affinity))%string.
  rewrite (parse_lines_row _ _ "GPU");
    [|apply Forall_app; split; [by eapply Hnames|apply Forall_app; split; [by eapply Hnames|done]]|done|done|by left].
  rewrite parse_matrix; [|done|done|done|intros ->; by apply not_elem_of_nil in Hin]. cbn [snd].
  apply (rows_distance _ _ _ [g0] g (S (S k)) n cells); try done.
  - apply (read_gpu_tokens _ []); [apply only_gpus_new| |done].
    rewrite !length_app. destruct nics; [by apply not_elem_of_nil in Hin|]. cbn. lia.
  - intros [|i] Hi; [|f_equal; by apply (NoDup_lookup gpus.*1 i (S k) g)].
    cbn in Hi. injection Hi as ->. by specialize (NoDup_lookup gpus.*1 0 (S k) g Hgd eq_refl Hk).
Qed.

(** ** The names of the cards *)

(** The rows of [nvidia-smi] give a card no name of its own. *)
Definition unnamed (m : GpuTopologyManager) : Prop := Forall (fun d => nic_name d = EmptyString) (nic_devices m).

Lemma read_row_unnamed m ts : unnamed m -> unnamed (read_row m ts).
Proof.
  unfold unnamed, read_row, parse_tokens. intros Hm. destruct ts as [|name cells]; [done|].
  destruct (_ <? 3)%nat; [done|]. destruct (has_prefix "GPU" name); [done|]. destruct (has_prefix "NIC" name); [|done].
  cbn. apply Forall_app. by split; [|repeat constructor].
Qed.

Lemma parse_lines_unnamed lines : forall legend found m, unnamed m -> unnamed (parse_lines lines legend found m).2.
Proof.
  induction lines as [|l lines IH]; intros legend found m Hm; [done|]. cbn [parse_lines].
  destruct (_ || contains "Legend:" l); [by apply IH|]. destruct legend; [done|].
  destruct (_ || _); apply IH; [by apply read_row_unnamed|done].
Qed.

Lemma legend_lines_devices lines : forall found m, nic_devices (legend_lines lines found m) = nic_devices m.
Proof.
  induction lines as [|l lines IH]; intros found m; [done|]. cbn [legend_lines].
  destruct (contains _ l); [apply IH|]. rewrite IH. destruct found; [|done]. unfold legend_line.
  destruct (split_line ":" l) as [[name actual]|]; [|done]. by repeat destruct (decide _).
Qed.

Lemma ParseNvidiaSmiTopo_unnamed sys m parsed m' :
  unnamed m -> ParseNvidiaSmiTopo sys m = (parsed, m') -> unnamed m'.
Proof.
  intros Hm. unfold ParseNvidiaSmiTopo. destruct (decide _); [by intros [= _ <-]|].
  destruct (decide _); [by intros [= _ <-]|]. unfold ParseTopoMatrix.
  set (lines := filter _ _). pose proof (parse_lines_unnamed lines false false m Hm) as H1.
  destruct (parse_lines lines false false m) as [found m1]. cbn in H1. destruct found; [|by intros [= _ <-]].
  unfold ParseNicLegend. intros [= _ <-]. unfold unnamed. by rewrite legend_lines_devices.
Qed.

(** When the topology was read from [nvidia-smi] and has cards, the choice by
    rank gives no device, for any rank and any number of devices. *)
Theorem smi_cards_without_names (sys : system) (m : GpuTopologyManager) (rank_id max_devices : Z) :
  ParseNvidiaSmiTopo sys new_GpuTopologyManager = (true, m) -> nic_devices m <> [] -> 0 <= rank_id ->
  Initialize sys new_GpuTopologyManager = Ok (true, set_initialized m) /\
  SelectRdmaDevicesByRank sys (set_initialized m) rank_id max_devices = Ok (EmptyString, set_initialized m).
Proof.
  intros Hp Hne Hr. unfold Initialize. rewrite Hp. cbn [initialized new_GpuTopologyManager]. split; [done|].
  pose proof (ParseNvidiaSmiTopo_unnamed _ new_GpuTopologyManager _ _ (Forall_nil_2 _) Hp) as Hu.
  unfold SelectRdmaDevicesByRank. cbn [initialized set_initialized negb nic_devices].
  destruct (rank_devices (nic_devices m) rank_id max_devices Hne Hr) as (ds & -> & Hds & _).
  rewrite length_nonzero by done.
  cbn [mbind result_bind]. unfold nonempty_names. rewrite filter_none; [done|].
  apply Forall_fmap. eapply Forall_impl; [exact Hds|]. intros d Hd. unfold unnamed in Hu. rewrite Forall_forall in Hu.
  cbn. rewrite (Hu d Hd). by intros [].
Qed.

Lemma legend_line_entry name actual m : all_chars (fun c => c <> COLON) name -> name <> EmptyString ->
  trim BLANKS actual = actual -> actual <> EmptyString ->
  legend_line (name ++ ": " ++ actual) m = map_name name actual m.
Proof.
  intros Hc Hn Ht Ha. unfold legend_line. change (": " ++ actual)%string with (String COLON (String " " actual)).
  rewrite (split_line_app COLON) by done. rewrite trim_cons by (by left). rewrite Ht.
  by rewrite !decide_False.
Qed.

(** An entry of the legend: a card and its name. *)
Definition entry_ok (indent : string) (e : string * string) : Prop :=
  all_chars (fun c => c <> COLON) (indent ++ e.1) /\ has_prefix "NIC" e.1 = true /\
  trim BLANKS e.2 = e.2 /\ e.2 <> EmptyString /\
  contains "NIC Legend:" (indent ++ e.1 ++ ": " ++ e.2) = false.

Definition legend (indent : string) (entries : list (string * string)) : list string :=
  "NIC Legend:"%string :: ((fun e => indent ++ e.1 ++ ": " ++ e.2)%string <$> entries).

Lemma legend_mapping indent entries : Forall (entry_ok indent) entries -> forall m,
  nic_name_mapping (legend_lines ((fun e => indent ++ e.1 ++ ": " ++ e.2)%string <$> entries) true m) =
  foldl (fun mp e => <[(indent ++ e.1)%string := e.2]> mp) (nic_name_mapping m) entries.
Proof.
  induction 1 as [|[name actual] entries (Hc & Hp & Ht & Ha & Hl) _ IH]; intros m; [done|].
  rewrite fmap_cons. cbn [legend_lines fst snd foldl] in *. rewrite Hl, IH.
  rewrite <-string_app_assoc, legend_line_entry; try done.
  by destruct indent; [destruct name|].
Qed.

Lemma foldl_insert_lookup (f : string * string -> string) entries : forall mp n,
  (forall e, e ∈ entries -> f e <> n) ->
  foldl (fun mp e => <[f e := e.2]> mp) mp entries !! n = (mp : gmap string string) !! n.
Proof.
  induction entries as [|e entries IH]; intros mp n Hn; [done|]. cbn [foldl].
  rewrite IH by (intros e' He'; apply Hn; by right). apply lookup_insert_ne. apply Hn. by left.
Qed.

(** The legend of the cards is read when its lines start with the names.  When
    they are indented, the names are stored with the blanks, no card is found
    by its name, and the name of a card becomes mlx5_bond_ and its number,
    whatever the legend says. *)
Theorem nic_legend_read (indent : string) (entries : list (string * string)) (m : GpuTopologyManager) (n a : string) :
  all_chars (fun c => c ∈ BLANKS) indent -> Forall (entry_ok indent) entries -> NoDup entries.*1 ->
  nic_name_mapping m = ∅ -> (n, a) ∈ entries ->
  DeviceNameToNicName (ParseNicLegend (legend indent entries) m).2 n =
    if decide (indent = EmptyString) then a
    else ("mlx5_bond_" ++ String.substring 3 (String.length n - 3) n)%string.
Proof.
  intros Hi He Hnd Hm Hin. unfold ParseNicLegend, legend. cbn [snd legend_lines].
  change (contains "NIC Legend:" "NIC Legend:") with true. cbn match.
  unfold DeviceNameToNicName. rewrite legend_mapping, Hm by done.
  assert (Hp : has_prefix "NIC" n = true) by (rewrite Forall_forall in He; by destruct (He _ Hin) as (_ & ? & _)).
  rewrite Hp. destruct (decide (indent = EmptyString)) as [->|Hne].
  - apply list_elem_of_split in Hin as (l1 & l2 & ->). rewrite foldl_app. cbn [foldl].
    rewrite foldl_insert_lookup; [by rewrite lookup_insert_eq|].
    intros e He' E. rewrite fmap_app, fmap_cons in Hnd. apply NoDup_app in Hnd as (_ & _ & Hnd).
    apply NoDup_cons in Hnd as [Hnd _]. apply Hnd. change (EmptyString ++ e.1)%string with e.1 in E.
    cbn. rewrite <-E. by apply list_elem_of_fmap_2.
  - rewrite foldl_insert_lookup; [by rewrite lookup_empty|]. intros e _ E.
    destruct indent as [|c indent]; [done|]. destruct Hi as [Hc _]. rewrite string_app_cons in E. subst n.
    cbn in Hp. apply andb_prop in Hp as [<-%bool_decide_eq_true_1 _]. by apply (bool_decide_pack _) in Hc.
Qed.

(** ** The cards that lspci lists *)

Lemma fgets_line n line s : forall left cur, all_chars (fun c => c <> NEWLINE) line ->
  (String.length line < left)%nat ->
  fgets_all n left (line ++ String NEWLINE s) cur =
    (cur ++ line ++ String NEWLINE EmptyString)%string :: fgets_all n n s EmptyString.
Proof.
  induction line as [|c line IH]; intros left cur Hl Hlen.
  - change (EmptyString ++ String NEWLINE s)%string with (String NEWLINE s). cbn [fgets_all].
    destruct left as [|[|left]]; [cbn in Hlen; lia|done|]. by rewrite decide_True.
  - destruct Hl as [Hc Hl]. cbn in Hlen. destruct left as [|[|left]]; [lia|lia|].
    rewrite string_app_cons. cbn [fgets_all]. rewrite decide_False by done. rewrite IH by (done || lia).
    by rewrite push_back_app.
Qed.

(** A line of [lspci]: a bus number, a colon and the rest. *)
Definition lspci_line (l : string * string) : string := (l.1 ++ String COLON l.2)%string.
Definition lspci_ok (sys : system) (l : string * string) : Prop :=
  all_chars (fun c => c <> COLON) l.1 /\ all_chars (fun c => c <> NEWLINE /\ c <> zero) (lspci_line l) /\
  (String.length (lspci_line l) < 255)%nat /\
  opendir sys ("/sys/bus/pci/devices/" ++ l.1 ++ "/net")%string = None.

Definition lspci_output (lines : list (string * string)) : string :=
  foldr (fun l s => lspci_line l ++ String NEWLINE s)%string EmptyString lines.

Lemma lspci_chunks sys lines : Forall (lspci_ok sys) lines ->
  map c_str (fgets_all 255 255 (lspci_output lines) EmptyString) =
  (fun l => l.1 ++ String COLON (l.2 ++ String NEWLINE EmptyString))%string <$> lines.
Proof.
  induction 1 as [|l lines (_ & Hc & Hlen & _) _ IH]; [done|]. cbn [lspci_output foldr]. fold (lspci_output lines).
  rewrite fgets_line; [|eapply all_chars_impl; [|exact Hc]; naive_solver|done]. cbn [map]. rewrite IH, fmap_cons. f_equal.
  change (EmptyString ++ lspci_line l ++ String NEWLINE EmptyString)%string
    with (lspci_line l ++ String NEWLINE EmptyString)%string.
  unfold lspci_line in *. rewrite <-string_app_cons, <-string_app_assoc.
  set (t := (l.1 ++ String COLON l.2)%string) in *. clearbody t. clear -Hc.
  induction t as [|c t IH]; [done|]. destruct Hc as [[_ Hz] Hc]. rewrite string_app_cons. cbn [c_str].
  rewrite decide_False by done. by rewrite IH.
Qed.

Lemma network_devices_loop sys lines : Forall (lspci_ok sys) lines -> forall i m, exists m',
  for_each (network_device sys) ((fun l => l.1 ++ String COLON (l.2 ++ String NEWLINE EmptyString))%string <$> lines) (i, m) =
    Ok (i + Z.of_nat (length lines), m') /\
  nic_name <$> nic_devices m' = (nic_name <$> nic_devices m) ++
    ((fun j => "mlx5_bond_" ++ to_string j)%string <$> seqZ i (Z.of_nat (length lines))).
Proof.
  induction 1 as [|l lines (Hb & _ & _ & Hd) _ IH]; intros i m.
  { exists m. cbn [for_each fmap list_fmap length]. rewrite Z.add_0_r, app_nil_r. done. }
  assert (exists info, network_device sys (l.1 ++ String COLON (l.2 ++ String NEWLINE EmptyString)) (i, m) =
            Ok (i + 1, add_nic info (map_name (device_name info) (nic_name info) m)) /\
            nic_name info = ("mlx5_bond_" ++ to_string i)%string) as (info & E1 & Einfo).
  { unfold network_device. rewrite (split_line_app COLON) by done. unfold GetNicNameFromPci. rewrite Hd.
    cbn [mbind result_bind]. rewrite decide_True by done. eexists (MkDeviceInfo _ _ _ _). by split. }
  rewrite fmap_cons. cbn [for_each]. rewrite E1. cbn [mbind result_bind].
  destruct (IH (i + 1) (add_nic info (map_name (device_name info) (nic_name info) m))) as (m' & E & Hn).
  exists m'. rewrite E.
  split; [f_equal; f_equal; cbn; lia|]. rewrite Hn. cbn [nic_devices add_nic map_name].
  rewrite fmap_app, <-app_assoc. f_equal. cbn [length]. rewrite (seqZ_cons i) by lia.
  cbn [fmap list_fmap app]. rewrite Einfo. do 2 f_equal. f_equal; lia.
Qed.

(** The address of a card is cut at the first colon, so that only its bus
    number is looked up: when there is no directory for the bus number alone,
    the cards are named mlx5_bond_0, mlx5_bond_1, ... in the order they are
    listed, whatever the directories of their addresses hold. *)
Theorem lspci_names (sys : system) (lines : list (string * string)) :
  popen sys "lspci | grep -i network" = Some (lspci_output lines) -> Forall (lspci_ok sys) lines -> lines <> [] ->
  exists m, GetNetworkDevicesFromSystem sys new_GpuTopologyManager = Ok (true, m) /\
    nic_name <$> nic_devices m =
      (fun i => "mlx5_bond_" ++ to_string i)%string <$> seqZ 0 (Z.of_nat (length lines)).
Proof.
  intros Hp Hl Hne. unfold GetNetworkDevicesFromSystem. rewrite Hp, (lspci_chunks sys) by done.
  destruct (network_devices_loop sys lines Hl 0 new_GpuTopologyManager) as (m & -> & Hn). cbn [mbind result_bind].
  exists m. split; [|done]. do 2 f_equal. apply (f_equal length) in Hn. rewrite !length_fmap, length_app, length_fmap in Hn.
  rewrite length_fmap, length_seqZ in Hn. destruct lines; [done|]. cbn in Hn.
  destruct (length (nic_devices m)); [lia|done].
Qed.

(** ** A machine with two GPUs and two cards *)

Module TwoCards.

Definition gpus : list row :=
  [("GPU0", ["X"; "NV18"; "PIX"; "SYS"; "0-31"]); ("GPU1", ["NV18"; "X"; "SYS"; "PIX"; "32-63"])]%string.
Definition nics : list row := [("NIC0", ["PIX"; "SYS"; "X"; "SYS"]); ("NIC1", ["SYS"; "PIX"; "SYS"; "X"])]%string.
Definition affinity : list string := ["CPU"; "Affinity"]%string.
Definition entries : list (string * string) := [("NIC0", "mlx5_2"); ("NIC1", "mlx5_3")]%string.
Definition header : string := String TAB (join TAB (gpus.*1 ++ nics.*1 ++ affinity)).

Definition output : string :=
  join NEWLINE (header :: row_lines gpus ++ row_lines nics ++ ["Legend:"; "  X = Self"]%string ++ legend "  " entries).

Definition lspci : list (string * string) := [("1a", "00.0 Network controller"); ("af", "00.0 Network controller")]%string.

Definition sys : system :=
  MkSystem (fun c => if String.eqb c "nvidia-smi topo -m" then Some output
                     else if String.eqb c "lspci | grep -i network" then Some (lspci_output lspci) else None)
    (fun _ => None) (fun _ => None) (Some 2) (fun l => l).

(** The whole choice: GPU 1 is given the card it is not next to, by a name that
    the legend does not have. *)
Example chosen_for_gpu1 :
  match Initialize sys new_GpuTopologyManager with
  | Ok (_, m) => match SelectRdmaDevices sys m 1 1 with Ok (s, _) => s | _ => EmptyString end
  | _ => EmptyString
  end = "mlx5_bond_1"%string.
Proof. vm_compute. reflexivity. Qed.

Definition read : GpuTopologyManager :=
  foldl read_row (foldl read_row new_GpuTopologyManager (tokens_of <$> gpus)) (tokens_of <$> nics).

Definition named : GpuTopologyManager :=
  MkTopology [] [MkDeviceInfo "NIC0" "mlx5_0" DeviceType.NIC 0; MkDeviceInfo "NIC1" "mlx5_1" DeviceType.NIC 0] [] ∅ true.

Ltac rows_ok := repeat first [apply Forall_nil | apply Forall_cons; split | split]; cbn;
  first [lia | done | discriminate | repeat split; done].

Lemma gpus_ok : Forall (row_ok "GPU") gpus.
Proof. unfold gpus, row_ok, tokens_of, token. rows_ok. Qed.

Lemma nics_ok : Forall (row_ok "NIC") nics.
Proof. unfold nics, row_ok, tokens_of, token. rows_ok. Qed.

End TwoCards.

Lemma nearest_devices_selected_witness :
  devices_at TwoCards.read "GPU1" <$> DISTANCE_PRIORITY = [["NIC1"]; []; ["NIC0"]]%string /\
  exists groups, Forall2 (≡ₚ) groups (devices_at TwoCards.read "GPU1" <$> DISTANCE_PRIORITY) /\
    SelectDevicesByDistance TwoCards.sys TwoCards.read "GPU1" 1 DISTANCE_PRIORITY = take 1 (concat groups).
Proof.
  split; [vm_compute; reflexivity|].
  apply (nearest_devices_selected TwoCards.sys TwoCards.read "GPU1" 1 DISTANCE_PRIORITY); [done|lia|].
  apply (bool_decide_unpack _). vm_compute. exact I.
Defined.

Lemma rank_selection_witness :
  initialized TwoCards.named = true /\
  exists devices, SelectRdmaDevicesByRank TwoCards.sys TwoCards.named 3 2 = Ok (join COMMA (nic_name <$> devices), TwoCards.named) /\
    length devices = 2%nat /\
    forall i d, devices !! i = Some d -> nic_devices TwoCards.named !! Z.to_nat ((3 + Z.of_nat i) mod 2) = Some d.
Proof.
  split; [done|]. apply (rank_selection TwoCards.sys TwoCards.named 3 2); [done|done| |lia].
  repeat constructor; discriminate.
Defined.

Lemma matrix_read_witness :
  ("NIC1", ["SYS"; "PIX"; "SYS"; "X"])%string ∈ TwoCards.nics /\
  GetTopoDistance (ParseTopoMatrix (row_lines TwoCards.gpus ++ row_lines TwoCards.nics ++ ["Legend:"%string])
                     new_GpuTopologyManager).2 "GPU1" "NIC1" = TopoDistance.PIX.
Proof.
  split; [right; left|].
  rewrite (matrix_read TwoCards.gpus TwoCards.nics [] 1 "GPU1" "NIC1" ["SYS"; "PIX"; "SYS"; "X"]%string);
    [reflexivity|apply TwoCards.gpus_ok|apply TwoCards.nics_ok|apply (bool_decide_unpack _); vm_compute; exact I..|done|].
  right. left.
Defined.

Lemma header_shifts_matrix_witness :
  ("NIC1", ["SYS"; "PIX"; "SYS"; "X"])%string ∈ TwoCards.nics /\
  GetTopoDistance (ParseTopoMatrix (TwoCards.header :: row_lines TwoCards.gpus ++ row_lines TwoCards.nics ++ ["Legend:"%string])
                     new_GpuTopologyManager).2 "GPU1" "NIC1" = TopoDistance.SYS.
Proof.
  split; [right; left|].
  pose proof (header_shifts_matrix TwoCards.gpus TwoCards.nics TwoCards.affinity [] 0 "GPU1" "NIC1"
                ["SYS"; "PIX"; "SYS"; "X"]%string TwoCards.gpus_ok TwoCards.nics_ok) as H.
  cbv zeta in H. unfold TwoCards.header. rewrite H; [reflexivity|apply (bool_decide_unpack _); vm_compute; exact I..| |cbn; lia|done|].
  - repeat constructor; cbn; try discriminate; done.
  - right. left.
Defined.

Lemma smi_cards_without_names_witness :
  let m := (ParseNvidiaSmiTopo TwoCards.sys new_GpuTopologyManager).2 in
  Initialize TwoCards.sys new_GpuTopologyManager = Ok (true, set_initialized m) /\
  SelectRdmaDevicesByRank TwoCards.sys (set_initialized m) 5 2 = Ok (EmptyString, set_initialized m).
Proof.
  intros m. apply (smi_cards_without_names TwoCards.sys m 5 2); [| |lia].
  - apply injective_projections; [vm_compute; reflexivity|reflexivity].
  - intros E. apply (f_equal length) in E. vm_compute in E. discriminate E.
Defined.

Lemma nic_legend_read_witness :
  NoDup TwoCards.entries.*1 /\
  DeviceNameToNicName (ParseNicLegend (legend "  " TwoCards.entries) new_GpuTopologyManager).2 "NIC1" = "mlx5_bond_1"%string /\
  DeviceNameToNicName (ParseNicLegend (legend EmptyString TwoCards.entries) new_GpuTopologyManager).2 "NIC1" = "mlx5_3"%string.
Proof.
  assert (Hnd : NoDup TwoCards.entries.*1) by (apply (bool_decide_unpack _); vm_compute; exact I).
  split; [exact Hnd|]. split.
  - apply (nic_legend_read "  " TwoCards.entries new_GpuTopologyManager "NIC1" "mlx5_3"); [| |exact Hnd|done|right; left].
    + repeat split; apply (bool_decide_unpack _); vm_compute; exact I.
    + unfold TwoCards.entries, entry_ok. repeat constructor; cbn; try discriminate; done.
  - apply (nic_legend_read EmptyString TwoCards.entries new_GpuTopologyManager "NIC1" "mlx5_3"); [done| |exact Hnd|done|right; left].
    unfold TwoCards.entries, entry_ok. repeat constructor; cbn; try discriminate; done.
Defined.

Lemma lspci_names_witness :
  popen TwoCards.sys "lspci | grep -i network" = Some (lspci_output TwoCards.lspci) /\
  exists m, GetNetworkDevicesFromSystem TwoCards.sys new_GpuTopologyManager = Ok (true, m) /\
    nic_name <$> nic_devices m = ["mlx5_bond_0"; "mlx5_bond_1"]%string.
Proof.
  split; [reflexivity|]. apply (lspci_names TwoCards.sys TwoCards.lspci); [reflexivity| |done].
  unfold TwoCards.lspci, lspci_ok. repeat constructor; cbn; try discriminate; try lia; done.
Defined.
