(* ===== verification/Numa.v ===== *)
(** * Allocation near a device

    common/numa_aware_allocator.h: memory on the NUMA node of a GPU or of the
    process, registered with CUDA or locked, with a round robin over the nodes as
    a fallback.  The memory is a part of the state; what libnuma, CUDA and the
    system answer are parameters.

    The theorems show that an allocation that fails leaves nothing behind, that
    one that succeeds is given back in full, that the round robin fails
    only if every node does, on which node the GPUs are taken to be, and
    what freeing memory of the fallback without NUMA does. *)

From stdpp Require Import gmap strings.
From S2P Require Import Prelude StringUtils Options.
Local Open Scope Z_scope.

(** ** Memory *)

(** Where a block comes from: [numa_alloc_onnode] or [malloc]. *)
Inductive block : Type := OnNode (node size : Z) | OnHeap (size : Z).
#[global] Instance block_eq_dec : EqDecision block.
Proof. solve_decision. Defined.

(** The live blocks by address, those registered with CUDA and those locked. *)
Record mem : Type := MkMem { blocks : gmap Z block; registered : gset Z; locked : gset Z }.

(** libnuma, CUDA and the system.  [read_line] is the first line of a file that
    can be opened and read. *)
Class NumaSystem : Type := {
  numa_available : Z;
  numa_max_node : Z;
  node_bit : Z -> bool;
  node_size : Z -> Z;
  numa_preferred : Z;
  getcpu : Z;
  node_of_cpu : Z -> Z;
  cuda_device_count : option Z;
  cuda_device : option Z;
  pci_bus_id : Z -> option string;
  read_line : string -> option string;
  node_alloc : Z -> Z -> mem -> option Z;
  heap_alloc : Z -> mem -> option Z;
  host_register : Z -> mem -> bool;
  host_unregister : Z -> mem -> bool;
  can_mlock : Z -> mem -> bool;
  can_munlock : Z -> mem -> bool;
}.

(** New blocks are not null and not in use. *)
Class NumaLaws `{NumaSystem} : Prop := {
  node_alloc_fresh size node m p : node_alloc size node m = Some p -> p <> 0 /\ blocks m !! p = None;
  heap_alloc_fresh size m p : heap_alloc size m = Some p -> p <> 0 /\ blocks m !! p = None;
}.

Section Calls.
  Context `{NumaSystem}.

Definition numa_alloc_onnode (size node : Z) (m : mem) : option Z * mem :=
  match node_alloc size node m with
  | Some p => (Some p, MkMem (<[p := OnNode node size]> (blocks m)) (registered m) (locked m))
  | None => (None, m)
  end.

(** Undefined unless the block came from [numa_alloc_onnode] with this size. *)
Definition numa_free (p size : Z) (m : mem) : result mem :=
  match blocks m !! p with
  | Some (OnNode _ size') => if size' =? size then Ok (MkMem (delete p (blocks m)) (registered m) (locked m)) else Undef
  | _ => Undef
  end.

Definition free (p : Z) (m : mem) : result mem :=
  match blocks m !! p with
  | Some (OnHeap _) => Ok (MkMem (delete p (blocks m)) (registered m) (locked m))
  | _ => Undef
  end.

Definition cudaHostRegister (p : Z) (m : mem) : bool * mem :=
  if host_register p m then (true, MkMem (blocks m) ({[p]} ∪ registered m) (locked m)) else (false, m).

(** Any other error than that the memory is not registered leaves it registered; a
    failure is only logged. *)
Definition cudaHostUnregister (p : Z) (m : mem) : mem :=
  if host_unregister p m then MkMem (blocks m) (registered m ∖ {[p]}) (locked m) else m.

(** [TryMlock]: a failure is only logged. *)
Definition TryMlock (p : Z) (m : mem) : mem :=
  if can_mlock p m then MkMem (blocks m) (registered m) ({[p]} ∪ locked m) else m.

(** [munlock], whose failure is only logged. *)
Definition TryMunlock (p : Z) (m : mem) : mem :=
  if can_munlock p m then MkMem (blocks m) (registered m) (locked m ∖ {[p]}) else m.

Definition HasNvGpu : bool := match cuda_device_count with Some n => 0 <? n | None => false end.
End Calls.

(** ** The allocator *)

Record AllocationResult : Type := MkAllocationResult { ar_ptr : Z; ar_numa_node : Z; ar_size : Z; ar_success : bool }.

(** [AllocationResult()] *)
Definition no_allocation : AllocationResult := MkAllocationResult 0 (-1) 0 false.

Record NumaAwareAllocator : Type := MkAllocator {
  available_nodes : list Z;
  current_node_index : Z;
  allocator_initialized : bool;
  cuda_available : bool;
  cuda_to_numa : gmap Z Z;
}.

Definition new_allocator : NumaAwareAllocator := MkAllocator [] 0 false true ∅.

Definition set_nodes (l : list Z) (a : NumaAwareAllocator) : NumaAwareAllocator :=
  MkAllocator l (current_node_index a) (allocator_initialized a) (cuda_available a) (cuda_to_numa a).
Definition set_node_index (i : Z) (a : NumaAwareAllocator) : NumaAwareAllocator :=
  MkAllocator (available_nodes a) i (allocator_initialized a) (cuda_available a) (cuda_to_numa a).
Definition set_cuda_available (b : bool) (a : NumaAwareAllocator) : NumaAwareAllocator :=
  MkAllocator (available_nodes a) (current_node_index a) (allocator_initialized a) b (cuda_to_numa a).
Definition set_cuda_to_numa (c : gmap Z Z) (a : NumaAwareAllocator) : NumaAwareAllocator :=
  MkAllocator (available_nodes a) (current_node_index a) (allocator_initialized a) (cuda_available a) c.
Definition set_initialized (a : NumaAwareAllocator) : NumaAwareAllocator :=
  MkAllocator (available_nodes a) 0 true (cuda_available a) (cuda_to_numa a).

Section Allocator.
  Context `{NumaSystem}.

Definition GetNumaNodeForCuda (a : NumaAwareAllocator) (cuda_device_id : Z) : Z :=
  default (-1) (cuda_to_numa a !! cuda_device_id).

Definition GetNodeListString (a : NumaAwareAllocator) : string :=
  ("[" ++ String.concat ", " (map to_string (available_nodes a)) ++ "]")%string.

(** [iss >> numa_node] of an [int]: zero if there is no number, the nearest
    number of the type if it is out of range. *)
Definition read_int (line : string) : Z :=
  match strto line with
  | None => 0
  | Some (neg, m) => let v := if neg : bool then - m else m in Z.max (- 2 ^ 31) (Z.min (2 ^ 31 - 1) v)
  end.

(** The first of the paths with a line that has a node that is not negative. *)
Fixpoint find_node (paths : list string) (numa_node : Z) : Z :=
  match paths with
  | [] => numa_node
  | p :: paths' =>
      match read_line (c_str p) with
      | None => find_node paths' numa_node
      | Some line => let node := read_int line in if 0 <=? node then node else find_node paths' node
      end
  end.

(** The name of a device in its buffer of 64 zero bytes. *)
Definition bus_id_buffer (name : string) : string :=
  (name ++ zeros (64 - String.length name))%string.

Definition device_paths (busid : string) : list string :=
  [("/sys/bus/pci/devices/" ++ busid ++ "/numa_node")%string;
   ("/sys/devices/pci0000:00/" ++ busid ++ "/numa_node")%string;
   ("/sys/devices/pci0000:00/0000:" ++ busid ++ "/numa_node")%string].

Definition detect_device (cuda_id : Z) (a : NumaAwareAllocator) : NumaAwareAllocator :=
  match pci_bus_id cuda_id with
  | None => a
  | Some name =>
      let busid := ToLower (bus_id_buffer name) in
      let numa_node := find_node (device_paths busid) (-1) in
      set_cuda_to_numa (<[cuda_id := if numa_node <? 0 then 0 else numa_node]> (cuda_to_numa a)) a
  end.

Definition DetectCudaNumaTopology (a : NumaAwareAllocator) : NumaAwareAllocator :=
  match cuda_device_count with
  | None => a
  | Some cuda_count => foldl (fun a cuda_id => detect_device cuda_id a) a (seqZ 0 cuda_count)
  end.

(** A test allocation of 1024 bytes is freed again. *)
Fixpoint probe_nodes (preferred_nodes : list Z) (nodes : list Z) (m : mem) : result (list Z * mem) :=
  match preferred_nodes with
  | [] => Ok (nodes, m)
  | node :: rest =>
      if (0 <=? node) && (node <=? numa_max_node) then
        match numa_alloc_onnode 1024 node m with
        | (Some p, m') => m'' ← numa_free p 1024 m'; probe_nodes rest (nodes ++ [node]) m''
        | (None, m') => probe_nodes rest nodes m'
        end
      else probe_nodes rest nodes m
  end.

Definition usable_nodes : list Z :=
  filter (fun node => node_bit node = true /\ 0 < node_size node) (seqZ 0 (numa_max_node + 1)).

Definition Numa_Initialize (preferred_nodes : list Z) (a : NumaAwareAllocator) (m : mem) : result (bool * NumaAwareAllocator * mem) :=
  if allocator_initialized a then Ok (true, a, m)
  else if numa_available <? 0 then Ok (false, a, m)
  else
    let a := set_cuda_available HasNvGpu a in
    '(nodes, m) ← match preferred_nodes with
                  | [] => Ok (available_nodes a ++ usable_nodes, m)
                  | _ => probe_nodes preferred_nodes (available_nodes a) m
                  end;
    let a := set_nodes nodes a in
    match nodes with
    | [] => Ok (false, a, m)
    | _ => Ok (true, set_initialized (if cuda_available a then DetectCudaNumaTopology a else a), m)
    end.

Definition GetCurrentProcessNumaId (a : NumaAwareAllocator) : Z :=
  if cuda_available a then
    match cuda_device with
    | None => -1
    | Some dev => GetNumaNodeForCuda a dev
    end
  else if 0 <=? numa_preferred then numa_preferred
  else if (0 <=? getcpu) && (0 <=? node_of_cpu getcpu) then node_of_cpu getcpu
  else 0.

Definition AllocatePinned (size numa_node : Z) (a : NumaAwareAllocator) (m : mem) : result (AllocationResult * mem) :=
  if negb (allocator_initialized a) then Ok (no_allocation, m)
  else if size =? 0 then Ok (no_allocation, m)
  else if decide (numa_node ∉ available_nodes a) then Ok (no_allocation, m)
  else
    match numa_alloc_onnode size numa_node m with
    | (None, m) => Ok (no_allocation, m)
    | (Some p, m) =>
        if cuda_available a then
          let '(rc, m) := cudaHostRegister p m in
          if rc : bool then Ok (MkAllocationResult p numa_node size true, m)
          else m ← numa_free p size m; Ok (no_allocation, m)
        else Ok (MkAllocationResult p numa_node size true, TryMlock p m)
    end.

(** The loop, with [left] attempts to go. *)
Fixpoint round_robin (left : nat) (size : Z) (a : NumaAwareAllocator) (m : mem)
    : result (AllocationResult * NumaAwareAllocator * mem) :=
  match left with
  | O => Ok (no_allocation, a, m)
  | S left' =>
      node ← index (available_nodes a) (current_node_index a);
      let a := set_node_index ((current_node_index a + 1) mod Z.of_nat (length (available_nodes a))) a in
      match numa_alloc_onnode size node m with
      | (None, m) => round_robin left' size a m
      | (Some p, m) =>
          if cuda_available a then
            let '(rc, m) := cudaHostRegister p m in
            if rc : bool then Ok (MkAllocationResult p node size true, a, m)
            else m ← numa_free p size m; round_robin left' size a m
          else Ok (MkAllocationResult p node size true, a, m)
      end
  end.

Definition TryAllocateRoundRobinOverGpus (size : Z) (a : NumaAwareAllocator) (m : mem)
    : result (AllocationResult * NumaAwareAllocator * mem) :=
  if negb (allocator_initialized a) then Ok (no_allocation, a, m)
  else if size =? 0 then Ok (no_allocation, a, m)
  else round_robin (length (available_nodes a)) size a m.

Definition TryAllocateNearGpu (size cuda_id : Z) (a : NumaAwareAllocator) (m : mem)
    : result (AllocationResult * NumaAwareAllocator * mem) :=
  let numa_node := GetNumaNodeForCuda a cuda_id in
  if numa_node =? -1 then TryAllocateRoundRobinOverGpus size a m
  else '(r, m) ← AllocatePinned size numa_node a m; Ok (r, a, m).

Definition TryAllocateNearCpu (size : Z) (a : NumaAwareAllocator) (m : mem) : result (AllocationResult * mem) :=
  AllocatePinned size (Z.max (GetCurrentProcessNumaId a) 0) a m.

Definition TryAllocateNearCurrentDevice (size : Z) (a : NumaAwareAllocator) (m : mem)
    : result (AllocationResult * NumaAwareAllocator * mem) :=
  if cuda_available a then
    match cuda_device with
    | Some dev => TryAllocateNearGpu size dev a m
    | None => TryAllocateRoundRobinOverGpus size a m
    end
  else '(r, m) ← TryAllocateNearCpu size a m; Ok (r, a, m).

Definition AllocateAvoidNuma (size : Z) (m : mem) : AllocationResult * mem :=
  match heap_alloc size m with
  | None => (MkAllocationResult 0 (-1) size false, m)
  | Some p => (MkAllocationResult p (-1) size true, MkMem (<[p := OnHeap size]> (blocks m)) (registered m) (locked m))
  end.

Definition Deallocate (p size : Z) (a : NumaAwareAllocator) (m : mem) : result mem :=
  if p =? 0 then Ok m
  else
    let m := if cuda_available a then cudaHostUnregister p m else TryMunlock p m in
    if negb (numa_available =? -1) then numa_free p size m else free p m.
End Allocator.

(** ** Allocating and freeing *)

(** Only live blocks are registered or locked. *)
Definition mem_ok (m : mem) : Prop := registered m ⊆ dom (blocks m) /\ locked m ⊆ dom (blocks m).

(** The nodes are there, and the next one is one of them. *)
Definition allocator_ok (a : NumaAwareAllocator) : Prop :=
  allocator_initialized a = true -> 0 <= current_node_index a < Z.of_nat (length (available_nodes a)).

Section AllocationProofs.
  Context `{NumaLaws}.

(** What an allocation does: a new block on an available node, which [Deallocate]
    gives back, or nothing. *)
Definition allocation_of (size : Z) (a : NumaAwareAllocator) (m : mem) (r : AllocationResult) (m' : mem) : Prop :=
  if ar_success r then
    ar_ptr r <> 0 /\ ar_size r = size /\ ar_numa_node r ∈ available_nodes a /\ blocks m !! ar_ptr r = None /\
    blocks m' = <[ar_ptr r := OnNode (ar_numa_node r) size]> (blocks m) /\
    (cuda_available a = true -> registered m' = {[ar_ptr r]} ∪ registered m /\ locked m' = locked m) /\
    (cuda_available a = false -> registered m' = registered m /\ (locked m' = locked m \/ locked m' = {[ar_ptr r]} ∪ locked m))
  else m' = m /\ ar_ptr r = 0.

Lemma alloc_then_free size node m p m' : numa_alloc_onnode size node m = (Some p, m') ->
  numa_free p size m' = Ok m.
Proof.
  unfold numa_alloc_onnode. destruct (node_alloc size node m) as [q|] eqn:E; [|done]. intros [= <- <-].
  apply node_alloc_fresh in E as [_ Hf]. unfold numa_free. cbn. rewrite lookup_insert_eq, Z.eqb_refl.
  rewrite delete_insert_id by done. by destruct m.
Qed.

Lemma AllocatePinned_spec size node a m :
  exists r m', AllocatePinned size node a m = Ok (r, m') /\ allocation_of size a m r m'.
Proof.
  unfold AllocatePinned. destruct (allocator_initialized a); cbn [negb]; [|by eexists _, _].
  destruct (size =? 0); [by eexists _, _|]. case_decide as Hn; [by eexists _, _|].
  unfold numa_alloc_onnode. destruct (node_alloc size node m) as [q|] eqn:En; [|by eexists _, _].
  pose proof (node_alloc_fresh _ _ _ _ En) as [Hq Hf]. destruct (cuda_available a) eqn:Ec.
  - unfold cudaHostRegister. destruct (host_register q _) eqn:Er.
    + eexists _, _. split; [done|]. unfold allocation_of. cbn. split_and!; auto; congruence.
    + rewrite (alloc_then_free size node m) by (unfold numa_alloc_onnode; by rewrite En). by eexists _, _.
  - eexists _, _. split; [done|]. unfold TryMlock, allocation_of. cbn. destruct (can_mlock q _); cbn; split_and!; auto; congruence.
Qed.

(** A node that cannot serve an allocation. *)
Definition node_fails (size : Z) (a : NumaAwareAllocator) (m : mem) (node : Z) : Prop :=
  match node_alloc size node m with
  | None => True
  | Some p => cuda_available a = true /\
              host_register p (MkMem (<[p := OnNode node size]> (blocks m)) (registered m) (locked m)) = false
  end.

Lemma round_robin_spec size m left : forall a, available_nodes a <> [] ->
  0 <= current_node_index a < Z.of_nat (length (available_nodes a)) ->
  exists r a' m', round_robin left size a m = Ok (r, a', m') /\ allocation_of size a m r m' /\
    available_nodes a' = available_nodes a /\ cuda_available a' = cuda_available a /\
    allocator_initialized a' = allocator_initialized a /\ cuda_to_numa a' = cuda_to_numa a /\
    0 <= current_node_index a' < Z.of_nat (length (available_nodes a)) /\
    (ar_success r = true -> ~ node_fails size a m (ar_numa_node r)) /\
    (ar_success r = false -> forall (j : nat) node, (j < left)%nat ->
       available_nodes a !! Z.to_nat ((current_node_index a + Z.of_nat j) mod Z.of_nat (length (available_nodes a))) = Some node ->
       node_fails size a m node).
Proof.
  induction left as [|left IH]; intros a Hne Hi; cbn [round_robin].
  { eexists _, _, _. split; [done|]. split_and!; try done; try apply Hi. intros _ j node Hj. lia. }
  set (n := Z.of_nat (length (available_nodes a))) in *.
  destruct (lookup_lt_is_Some_2 (available_nodes a) (Z.to_nat (current_node_index a)) ltac:(lia)) as [node Hnode].
  unfold index. rewrite (proj2 (Z.ltb_ge _ 0)), Hnode by lia. cbn [mbind result_bind].
  set (a1 := set_node_index ((current_node_index a + 1) mod n) a).
  assert (Hnext : node_fails size a m node -> exists r a' m', round_robin left size a1 m = Ok (r, a', m') /\ allocation_of size a m r m' /\
    available_nodes a' = available_nodes a /\ cuda_available a' = cuda_available a /\
    allocator_initialized a' = allocator_initialized a /\ cuda_to_numa a' = cuda_to_numa a /\
    0 <= current_node_index a' < n /\
    (ar_success r = true -> ~ node_fails size a m (ar_numa_node r)) /\
    (ar_success r = false -> forall (j : nat) nd, (j < S left)%nat ->
       available_nodes a !! Z.to_nat ((current_node_index a + Z.of_nat j) mod n) = Some nd -> node_fails size a m nd)).
  { intros Hfail. destruct (IH a1) as (r & a' & m' & E & H1 & H2 & H3 & H4 & H5 & H6 & H7 & H8); [done|change (0 <= (current_node_index a + 1) mod n < n); apply Z.mod_pos_bound; lia|].
    exists r, a', m'. split; [done|]. split_and!; try done; [apply H6..|]. intros Hr [|j] nd Hj Hnd.
    - rewrite Z.add_0_r, Z.mod_small in Hnd by lia. congruence.
    - apply (H8 Hr j nd); [lia|]. cbn [available_nodes current_node_index set_node_index a1]. fold n.
      rewrite Zplus_mod_idemp_l. replace (current_node_index a + 1 + Z.of_nat j) with (current_node_index a + Z.of_nat (S j)) by lia. done. }
  assert (Hrange : 0 <= (current_node_index a + 1) mod n < n) by (apply Z.mod_pos_bound; lia).
  unfold numa_alloc_onnode. unfold node_fails in Hnext at 1.
  destruct (node_alloc size node m) as [p|] eqn:En; [|by apply Hnext].
  pose proof (node_alloc_fresh _ _ _ _ En) as [Hp Hf]. cbn [cuda_available set_node_index a1].
  assert (Hin : node ∈ available_nodes a) by (eapply list_elem_of_lookup_2; done).
  destruct (cuda_available a) eqn:Ec.
  - unfold cudaHostRegister. destruct (host_register p _) eqn:Er.
    + eexists _, _, _. split; [done|]. split_and!; cbn; try done; try apply Hrange; [split_and!; auto; congruence|].
      unfold node_fails. rewrite En, Er. by intros _ [_ ?].
    + rewrite (alloc_then_free size node m) by (unfold numa_alloc_onnode; by rewrite En). cbn [mbind result_bind]. by apply Hnext.
  - eexists _, _, _. split; [done|]. split_and!; cbn; try done; try apply Hrange.
    + split_and!; auto; congruence.
    + unfold node_fails. rewrite En, Ec. by intros _ [? _].
Qed.
End AllocationProofs.

Section Devices.
  Context `{NumaLaws}.

(** What is kept of an allocator by an allocation. *)
Definition same_allocator (a a' : NumaAwareAllocator) : Prop :=
  available_nodes a' = available_nodes a /\ cuda_available a' = cuda_available a /\
  allocator_initialized a' = allocator_initialized a /\ cuda_to_numa a' = cuda_to_numa a /\ allocator_ok a'.

Lemma RoundRobin_spec size a m : allocator_ok a ->
  exists r a' m', TryAllocateRoundRobinOverGpus size a m = Ok (r, a', m') /\ allocation_of size a m r m' /\ same_allocator a a'.
Proof.
  intros Ha. unfold TryAllocateRoundRobinOverGpus. destruct (allocator_initialized a) eqn:Ei; cbn [negb]; [|by eexists _, _, _].
  destruct (size =? 0); [by eexists _, _, _|]. specialize (Ha Ei).
  destruct (round_robin_spec size m (length (available_nodes a)) a) as (r & a' & m' & E & H1 & H2 & H3 & H4 & H5 & H6 & _);
    [destruct (available_nodes a); [cbn in Ha; lia|done]|done|].
  exists r, a', m'. split; [done|]. split; [done|]. split_and!; try congruence.
Qed.

Lemma NearCurrentDevice_spec size a m : allocator_ok a ->
  exists r a' m', TryAllocateNearCurrentDevice size a m = Ok (r, a', m') /\ allocation_of size a m r m' /\ same_allocator a a'.
Proof.
  intros Ha. unfold TryAllocateNearCurrentDevice, TryAllocateNearGpu, TryAllocateNearCpu.
  assert (Hp : forall node, exists r a' m', ('(r, m) ← AllocatePinned size node a m; Ok (r, a, m)) = Ok (r, a', m') /\
            allocation_of size a m r m' /\ same_allocator a a').
  { intros node. destruct (AllocatePinned_spec size node a m) as (r & m' & -> & Hr). by exists r, a, m'. }
  destruct (cuda_available a); [|apply Hp]. destruct cuda_device as [dev|]; [|by apply RoundRobin_spec].
  destruct (GetNumaNodeForCuda a dev =? -1); [by apply RoundRobin_spec|apply Hp].
Qed.

(** What freeing an allocation leaves: the block is gone; what CUDA did not
    unregister, or the system did not unlock, stays registered or locked. *)
Definition freed (p : Z) (a : NumaAwareAllocator) (m m' m'' : mem) : Prop :=
  blocks m'' = blocks m /\
  registered m'' = (if cuda_available a && negb (host_unregister p m') then {[p]} ∪ registered m else registered m) /\
  locked m'' = (if negb (cuda_available a) && negb (can_munlock p m') then locked m' else locked m).

Lemma Deallocate_allocation size a a' m r m' : mem_ok m -> numa_available <> -1 -> cuda_available a' = cuda_available a ->
  allocation_of size a m r m' -> ar_success r = true ->
  exists m'', Deallocate (ar_ptr r) (ar_size r) a' m' = Ok m'' /\ freed (ar_ptr r) a' m m' m''.
Proof.
  unfold allocation_of, freed. intros [Hm1 Hm2] Hn Hc Hr Hs. rewrite Hs in Hr. destruct Hr as (Hp & -> & _ & Hf & Hb & Hc1 & Hc2).
  unfold Deallocate. rewrite (proj2 (Z.eqb_neq _ _) Hp), (proj2 (Z.eqb_neq _ _) Hn), Hc. cbn [negb].
  assert (Hnd : ar_ptr r ∉ dom (blocks m)) by by apply not_elem_of_dom.
  assert (Hfree : forall m1, blocks m1 = blocks m' ->
    numa_free (ar_ptr r) size m1 = Ok (MkMem (blocks m) (registered m1) (locked m1))).
  { intros m1 E. unfold numa_free. rewrite E, Hb, lookup_insert_eq, Z.eqb_refl, delete_insert_id by done. done. }
  destruct (cuda_available a); unfold cudaHostUnregister, TryMunlock; cbn [andb negb].
  - destruct (Hc1 eq_refl) as [HR HL]. destruct (host_unregister _ _); cbn [negb];
      (eexists; split; [by apply Hfree|]); cbn; (split; [done|]); (split; [|done]); [|done].
    rewrite HR. apply set_eq. set_solver.
  - destruct (Hc2 eq_refl) as [HR HL]. destruct (can_munlock _ _); cbn [negb];
      (eexists; split; [by apply Hfree|]); cbn; (split; [done|]); (split; [done|]); [|done].
    apply set_eq. destruct HL as [-> | ->]; set_solver.
Qed.
End Devices.

(** C38: an allocation is all or nothing.  For every answer of libnuma, CUDA and the
    system, an allocation near the current device ends; if it fails, the memory is
    as it was before; if it succeeds, it is a new block of the size on one of the
    nodes of the allocator, and freeing it ends too and takes exactly that block
    away.  If CUDA unregisters the block and the system unlocks it, freeing
    restores the memory as it was: what was allocated, registered and locked; a
    failure of theirs is passed over, and leaves the address of the freed
    block registered or locked. *)
Theorem allocation_roundtrip `{NumaLaws} (size : Z) (a : NumaAwareAllocator) (m : mem) :
  allocator_ok a -> mem_ok m -> numa_available <> -1 ->
  exists r a' m', TryAllocateNearCurrentDevice size a m = Ok (r, a', m') /\ allocator_ok a' /\
    (ar_success r = false -> m' = m) /\
    (ar_success r = true -> ar_numa_node r ∈ available_nodes a /\ blocks m !! ar_ptr r = None /\
       blocks m' !! ar_ptr r = Some (OnNode (ar_numa_node r) size) /\
       exists m'', Deallocate (ar_ptr r) (ar_size r) a' m' = Ok m'' /\ freed (ar_ptr r) a' m m' m'' /\
         (host_unregister (ar_ptr r) m' = true -> can_munlock (ar_ptr r) m' = true -> m'' = m)).
Proof.
  intros Ha Hm Hn. destruct (NearCurrentDevice_spec size a m Ha) as (r & a' & m' & E & Hr & Hs). exists r, a', m'.
  split; [done|]. split; [apply Hs|]. split.
  - intros Hf. unfold allocation_of in Hr. rewrite Hf in Hr. apply Hr.
  - intros Hok. destruct (Deallocate_allocation size a a' m r m' Hm Hn (proj1 (proj2 Hs)) Hr Hok) as (m'' & Hd & Hfr).
    unfold allocation_of in Hr. rewrite Hok in Hr. destruct Hr as (_ & _ & Hin & Hf & Hb & _).
    split; [done|]. split; [done|]. split; [rewrite Hb; apply lookup_insert_eq|].
    exists m''. split; [done|]. split; [done|]. intros Hu Hl. destruct Hfr as (F1 & F2 & F3).
    rewrite Hu, andb_false_r in F2. rewrite Hl, andb_false_r in F3. destruct m, m''; cbn in *; congruence.
Qed.

(** The round robin leaves no node out: it fails only if no node of the
    allocator can give the memory and have it registered, starting at
    whatever node it is. *)
Theorem round_robin_complete `{NumaLaws} (size : Z) (a : NumaAwareAllocator) (m : mem) :
  allocator_initialized a = true -> allocator_ok a -> size <> 0 ->
  exists r a' m', TryAllocateRoundRobinOverGpus size a m = Ok (r, a', m') /\
    (ar_success r = false <-> forall node, node ∈ available_nodes a -> node_fails size a m node).
Proof.
  intros Hi Ha Hsz. specialize (Ha Hi). unfold TryAllocateRoundRobinOverGpus.
  rewrite Hi, (proj2 (Z.eqb_neq _ _) Hsz). cbn [negb].
  destruct (round_robin_spec size m (length (available_nodes a)) a) as (r & a' & m' & E & Hal & _ & _ & _ & _ & _ & Hok & Hfail);
    [destruct (available_nodes a); [cbn in Ha; lia|done]|done|].
  exists r, a', m'. split; [done|]. set (n := Z.of_nat (length (available_nodes a))) in *. split.
  - intros Hf node Hin. apply list_elem_of_lookup in Hin as [k Hk].
    pose proof (lookup_lt_Some _ _ _ Hk) as Hkn. assert (Hpos : 0 < n) by lia.
    pose proof (Z.mod_pos_bound (Z.of_nat k - current_node_index a) n Hpos) as Hb.
    apply (Hfail Hf (Z.to_nat ((Z.of_nat k - current_node_index a) mod n)) node); [lia|].
    rewrite Z2Nat.id, Zplus_mod_idemp_r by lia. replace (current_node_index a + (Z.of_nat k - current_node_index a)) with (Z.of_nat k) by lia.
    rewrite Z.mod_small, Nat2Z.id by lia. done.
  - intros Hall. destruct (ar_success r) eqn:Er; [|done]. exfalso. apply (Hok eq_refl), Hall.
    unfold allocation_of in Hal. rewrite Er in Hal. apply Hal.
Qed.

(** ** The node of a GPU *)

Lemma transform_app f a b : transform f (a ++ b)%string = (transform f a ++ transform f b)%string.
Proof. induction a as [|c a IH]; [done|]. rewrite !string_app_cons. cbn. by rewrite string_app_cons, IH. Qed.

Lemma tolower_zero c : tolower c = zero <-> c = zero.
Proof. split; [|intros ->; reflexivity]. unfold tolower. case_match eqn:E; [|done]. intros Hz. by destruct c as [[] [] [] [] [] [] [] []]. Qed.

Lemma lower_no_zero s : all_chars (fun c => c <> zero) s -> all_chars (fun c => c <> zero) (ToLower s).
Proof. unfold ToLower. induction s as [|c s IH]; [done|]. intros [Hc Hs]. cbn. split; [by rewrite tolower_zero|by apply IH]. Qed.

(** A path with the buffer in it ends where the name ends. *)
Lemma device_path_cut prefix name suffix : all_chars (fun c => c <> zero) prefix -> all_chars (fun c => c <> zero) name ->
  (String.length name < 64)%nat ->
  c_str (prefix ++ ToLower (bus_id_buffer name) ++ suffix) = (prefix ++ ToLower name)%string.
Proof.
  intros Hp Hn Hl. unfold bus_id_buffer, ToLower. rewrite transform_app. rewrite c_str_app by done. f_equal.
  rewrite string_app_assoc. rewrite c_str_app by (apply lower_no_zero; done).
  destruct (64 - String.length name)%nat eqn:E; [lia|]. cbn [zeros transform].
  change (tolower zero) with zero. rewrite string_app_cons. cbn [c_str]. rewrite decide_True by done. apply string_app_nil.
Qed.

Lemma detect_other `{NumaSystem} l : forall a id, id ∉ l ->
  cuda_to_numa (foldl (fun a cuda_id => detect_device cuda_id a) a l) !! id = cuda_to_numa a !! id.
Proof.
  induction l as [|c l IH]; intros a id Hid; [done|]. cbn [foldl]. rewrite IH by set_solver.
  unfold detect_device. destruct (pci_bus_id c); [|done]. cbn. apply lookup_insert_ne. set_solver.
Qed.

Lemma detect_device_node `{NumaSystem} (l : list Z) : forall a id name, NoDup l -> id ∈ l -> pci_bus_id id = Some name ->
  cuda_to_numa (foldl (fun a cuda_id => detect_device cuda_id a) a l) !! id =
    Some (let node := find_node (device_paths (ToLower (bus_id_buffer name))) (-1) in if node <? 0 then 0 else node).
Proof.
  induction l as [|c l IH]; intros a id name Hnd Hin Hname; [by apply not_elem_of_nil in Hin|].
  apply NoDup_cons in Hnd as [Hc Hnd]. cbn [foldl]. apply elem_of_cons in Hin as [->|Hin]; [|by apply IH].
  rewrite detect_other by done. unfold detect_device. rewrite Hname. cbn. apply lookup_insert_eq.
Qed.

(** All GPUs are taken to be on node 0.  The path of the file with the node of a
    GPU is put together from the whole buffer of 64 bytes with its name, and
    what is opened is cut at the end of the name: the directory of the device,
    which has no line to read, whatever the files [numa_node] hold. *)
Theorem gpus_on_node_zero `{NumaSystem} (a : NumaAwareAllocator) (count id : Z) (name : string) :
  cuda_device_count = Some count -> 0 <= id < count -> pci_bus_id id = Some name ->
  all_chars (fun c => c <> zero) name -> (String.length name < 64)%nat ->
  (forall dir, dir ∈ ["/sys/bus/pci/devices/"; "/sys/devices/pci0000:00/"; "/sys/devices/pci0000:00/0000:"]%string ->
     read_line (dir ++ ToLower name) = None) ->
  GetNumaNodeForCuda (DetectCudaNumaTopology a) id = 0.
Proof.
  intros Hcount Hid Hname Hz Hlen Hdirs. unfold GetNumaNodeForCuda, DetectCudaNumaTopology. rewrite Hcount.
  rewrite (detect_device_node _ a id name) by first [apply NoDup_seqZ | by apply elem_of_seqZ_0 | done].
  assert (find_node (device_paths (ToLower (bus_id_buffer name))) (-1) = -1) as ->; [|done].
  unfold device_paths. cbn [find_node].
  rewrite !device_path_cut by (try done; vm_compute; by split_and!). rewrite !Hdirs by set_solver. done.
Qed.

(** Memory of the fallback.  [AllocateAvoidNuma] takes memory of the heap,
    which [Deallocate] hands to [numa_free] wherever NUMA is available. *)
Theorem avoid_numa_freed_wrong `{NumaLaws} (size : Z) (a : NumaAwareAllocator) (m m' : mem) (r : AllocationResult) :
  AllocateAvoidNuma size m = (r, m') -> ar_success r = true -> 
  (0 <= numa_available -> Deallocate (ar_ptr r) (ar_size r) a m' = Undef) /\
  (numa_available = -1 -> exists m'', Deallocate (ar_ptr r) (ar_size r) a m' = Ok m'' /\ blocks m'' = blocks m).
Proof.
  unfold AllocateAvoidNuma. destruct (heap_alloc size m) as [p|] eqn:Ep; intros [= <- <-]; [|done]. intros _.
  apply heap_alloc_fresh in Ep as [Hp Hf]. unfold Deallocate. cbn [ar_ptr ar_size]. rewrite (proj2 (Z.eqb_neq _ _) Hp). split.
  - intros Hn. rewrite (proj2 (Z.eqb_neq numa_available (-1))) by lia. cbn [negb]. unfold numa_free.
    unfold cudaHostUnregister, TryMunlock. destruct (cuda_available a);
      [destruct (host_unregister _ _)|destruct (can_munlock _ _)]; cbn; by rewrite lookup_insert_eq.
  - intros ->. cbn [Z.eqb negb Pos.eqb]. unfold free, cudaHostUnregister, TryMunlock.
    destruct (cuda_available a); [destruct (host_unregister _ _)|destruct (can_munlock _ _)]; cbn; rewrite lookup_insert_eq;
      eexists; (split; [done|]); cbn; by rewrite delete_insert_id.
Qed.

(** ** A machine with two nodes and one GPU *)

Module TwoNumaNodes.
Definition next_ptr (m : mem) : Z := 1 + fold_right Z.max 0 (elements (dom (blocks m))).

(** Node 0 has no memory left. *)
#[export] Instance numa : NumaSystem := {|
  numa_available := 0; numa_max_node := 1; node_bit _ := true; node_size _ := 4096; numa_preferred := -1; getcpu := 0;
  node_of_cpu _ := 1; cuda_device_count := Some 1; cuda_device := None; pci_bus_id _ := Some "0000:3B:00.0"%string;
  read_line p := if String.eqb p "/sys/bus/pci/devices/0000:3b:00.0/numa_node" then Some "1"%string else None;
  node_alloc size node m := if node =? 0 then None else Some (next_ptr m); heap_alloc _ m := Some (next_ptr m);
  host_register _ _ := true; host_unregister p _ := p <? 2; can_mlock _ _ := true; can_munlock _ _ := true |}.

Lemma next_ptr_above l p : p ∈ l -> p <= fold_right Z.max 0 l.
Proof. induction 1; cbn; lia. Qed.

Lemma next_ptr_fresh m : next_ptr m <> 0 /\ blocks m !! next_ptr m = None.
Proof.
  assert (0 <= fold_right Z.max 0 (elements (dom (blocks m)))) by (induction (elements _); cbn; lia).
  unfold next_ptr. split; [lia|]. apply not_elem_of_dom. intros Hin. apply elem_of_elements, next_ptr_above in Hin. lia.
Qed.

#[export] Instance numa_laws : NumaLaws.
Proof.
  split; cbn.
  - intros size node m p. destruct (node =? 0); [done|]. intros [= <-]. apply next_ptr_fresh.
  - intros size m p [= <-]. apply next_ptr_fresh.
Qed.

Definition allocator : NumaAwareAllocator := MkAllocator [0; 1] 0 true true ∅.
Definition no_memory : mem := MkMem ∅ ∅ ∅.
End TwoNumaNodes.

#[local] Existing Instances TwoNumaNodes.numa TwoNumaNodes.numa_laws.

Lemma two_nodes_ok : allocator_ok TwoNumaNodes.allocator.
Proof. intros _. cbn. lia. Qed.

Lemma allocation_roundtrip_witness :
  exists r a' m', TryAllocateNearCurrentDevice 100 TwoNumaNodes.allocator TwoNumaNodes.no_memory = Ok (r, a', m') /\
    ar_success r = true /\ ar_numa_node r = 1 /\ Deallocate (ar_ptr r) (ar_size r) a' m' = Ok TwoNumaNodes.no_memory.
Proof.
  destruct (allocation_roundtrip 100 TwoNumaNodes.allocator TwoNumaNodes.no_memory) as (r & a' & m' & E & _ & _ & Hs).
  - exact two_nodes_ok.
  - by split.
  - done.
  - pose proof E as E'. vm_compute in E'. injection E' as E1 _ _.
    assert (ar_success r = true) as Hr by by rewrite <- E1. destruct (Hs Hr) as (_ & _ & _ & m'' & Hd & _ & He).
    exists r, a', m'. split; [exact E|]. split; [exact Hr|]. split; [by rewrite <- E1|].
    rewrite Hd, He; [reflexivity| |reflexivity]. by rewrite <- E1.
Defined.

Lemma round_robin_complete_witness :
  node_fails 100 TwoNumaNodes.allocator TwoNumaNodes.no_memory 0 /\
  exists r a' m', TryAllocateRoundRobinOverGpus 100 TwoNumaNodes.allocator TwoNumaNodes.no_memory = Ok (r, a', m') /\
    ar_success r = true.
Proof.
  split; [exact I|].
  destruct (round_robin_complete 100 TwoNumaNodes.allocator TwoNumaNodes.no_memory) as (r & a' & m' & E & Hs);
    [reflexivity|exact two_nodes_ok|done|].
  exists r, a', m'. split; [exact E|]. destruct (ar_success r) eqn:Er; [reflexivity|]. exfalso.
  destruct (proj1 Hs eq_refl 1) as [_ Hx]; [set_solver|]. cbn in Hx. discriminate Hx.
Defined.

Lemma gpus_on_node_zero_witness :
  read_line "/sys/bus/pci/devices/0000:3b:00.0/numa_node" = Some "1"%string /\
  GetNumaNodeForCuda (DetectCudaNumaTopology TwoNumaNodes.allocator) 0 = 0.
Proof.
  split; [reflexivity|].
  apply (gpus_on_node_zero TwoNumaNodes.allocator 1 0 "0000:3B:00.0"); [reflexivity|lia|reflexivity|vm_compute; by split_and!|cbn; lia|].
  intros dir Hd. repeat (apply elem_of_cons in Hd as [->|Hd]; [vm_compute; reflexivity|]). by apply not_elem_of_nil in Hd.
Defined.

Lemma avoid_numa_freed_wrong_witness :
  exists r m', AllocateAvoidNuma 10 TwoNumaNodes.no_memory = (r, m') /\
    Deallocate (ar_ptr r) (ar_size r) TwoNumaNodes.allocator m' = Undef.
Proof.
  destruct (AllocateAvoidNuma 10 TwoNumaNodes.no_memory) as [r m'] eqn:E. exists r, m'. split; [reflexivity|].
  apply (avoid_numa_freed_wrong 10 TwoNumaNodes.allocator TwoNumaNodes.no_memory m' r E); [|done].
  apply (f_equal fst) in E. cbn in E. by rewrite <- E.
Defined.
