(* ===== verification/ControlTransport.v ===== *)
(** * The control transports

    transport/base_transport.h (handlers), http_transporter.h/.cpp,
    brpc_transport.h/.cpp and brpc_transfer_service.h: starting a server with
    the registered handlers, serving a message, and sending one with retries.
    The HTTP library, brpc and the sockets are parameters; what is assumed of
    them are laws of the classes below.

    The theorems show that a message that was sent successfully was handled
    by the handler of its name at the receiver, how often a handler may run,
    and what a port that is taken does to the HTTP server. *)

From stdpp Require Import gmap strings.
From S2P Require Import Prelude StateResult StringUtils Options Retry.
Local Open Scope Z_scope.

(** ** Handlers *)

Record ResponseStatus : Type := MkResponseStatus { rs_success : bool; status_message : string }.

(** A handler gets the name of the request and the data, and may throw. *)
Definition Handler (W : Type) : Type := string -> string -> W -> result ResponseStatus * W.
Abbreviation handler_map W := (gmap string (Handler W)).

Definition RegisterHandler {W} (handlers : handler_map W) (request_name : string) (handler : Handler W) : handler_map W :=
  match handlers !! request_name with
  | Some _ => handlers
  | None => <[request_name := handler]> handlers
  end.

Definition GetHandler {W} (handlers : handler_map W) (request_name : string) : option (Handler W) :=
  handlers !! request_name.

Definition kCtrlPortStart : Z := 52010.
Definition kCtrlBindPortMaxRetry : Z := 100.

(** ** HTTP: the server *)

Definition ToHttpPath (request_name : string) : string := ("/" ++ request_name)%string.

(** [path.substr(1)] *)
Definition ToRequestName (path : string) : result string :=
  match path with EmptyString => Throw "basic_string::substr" | String _ s => Ok s end.

Record http_response : Type := MkHttpResponse { resp_status : Z; resp_body : string }.

(** The function that is registered for a path, for GET and for POST. *)
Definition http_route {W} (func : Handler W) (path body : string) (w : W) : result http_response * W :=
  match ToRequestName path with
  | Ok name =>
      match func name body w with
      | (Ok status, w') => (Ok (MkHttpResponse (if rs_success status then 200 else 500) (status_message status)), w')
      | (Throw e, w') => (Throw e, w')
      | (Undef, w') => (Undef, w')
      end
  | Throw e => (Throw e, w)
  | Undef => (Undef, w)
  end.

Definition HandlePing : http_response := MkHttpResponse 200 "pong".

(** The routes of a server object: the functions by path, and the ping. *)
Record http_server (W : Type) : Type := MkHttpServer { routes : handler_map W; has_ping : bool }.
Arguments MkHttpServer {W} _ _.
Arguments routes {W} _.
Arguments has_ping {W} _.

Definition new_http_server {W} : http_server W := MkHttpServer ∅ false.

(** One route for every handler. *)
Definition register_routes {W} (handlers : handler_map W) : http_server W :=
  MkHttpServer (kmap ToHttpPath handlers) true.

Record HTTPTransporter (W : Type) : Type := MkHTTPTransporter {
  http_options : Options;
  local_host : string;
  local_port : Z;
  server : option (http_server W);
  http_running : bool;
  handlers : handler_map W;
}.
Arguments MkHTTPTransporter {W} _ _ _ _ _ _.
Arguments http_options {W} _.
Arguments local_host {W} _.
Arguments local_port {W} _.
Arguments server {W} _.
Arguments http_running {W} _.
Arguments handlers {W} _.

Definition new_HTTPTransporter {W} : HTTPTransporter W := MkHTTPTransporter ∅ EmptyString 0 None false ∅.

Definition set_http_options {W} (o : Options) (t : HTTPTransporter W) : HTTPTransporter W :=
  MkHTTPTransporter o (local_host t) (local_port t) (server t) (http_running t) (handlers t).
Definition set_local_host {W} (h : string) (t : HTTPTransporter W) : HTTPTransporter W :=
  MkHTTPTransporter (http_options t) h (local_port t) (server t) (http_running t) (handlers t).
Definition set_local_port {W} (p : Z) (t : HTTPTransporter W) : HTTPTransporter W :=
  MkHTTPTransporter (http_options t) (local_host t) p (server t) (http_running t) (handlers t).
Definition set_server {W} (s : http_server W) (t : HTTPTransporter W) : HTTPTransporter W :=
  MkHTTPTransporter (http_options t) (local_host t) (local_port t) (Some s) (http_running t) (handlers t).
Definition set_http_running {W} (b : bool) (t : HTTPTransporter W) : HTTPTransporter W :=
  MkHTTPTransporter (http_options t) (local_host t) (local_port t) (server t) b (handlers t).

(** The HTTP library: binding a port, a POST to another server, and a ping of
    this one; [None] stands for no response. *)
Class HttpLib (W : Type) : Type := {
  bind_to_port : string -> Z -> W -> bool * W;
  post : string -> Z -> string -> string -> W -> option http_response * W;
  ping : http_server W -> string -> Z -> W -> option http_response * W;
  random_offset : W -> Z * W;
}.

Section Http.
  Context {W : Type} `{Clock W} `{FloatLib} `{HttpLib W}.
  Context (defs : OptionDefinition) (env : Environment) (net : network).

Abbreviation HS := (SR (HTTPTransporter W * W)).

Definition http_modify (f : HTTPTransporter W -> HTTPTransporter W) : HS unit := on_fst (sr_modify f).
Definition http_world {A} (f : W -> A * W) : HS A := on_snd (fun w => let '(a, w') := f w in (Ok a, w')).
Definition http_get : HS (HTTPTransporter W) := on_fst sr_get.

(** One port: the promise is set only when the port was bound, and the wait
    for it ends after ten seconds. *)
Definition bind_attempt (host : string) (port : Z) (w : W) : bool * W :=
  let '(ok, w') := bind_to_port host port w in
  let elapsed := now w' - now w in
  if ok && (elapsed <=? ms 10000) then (true, w') else (false, sleep_for (ms 10000 - elapsed) w').

(** A server whose port was not bound is replaced by a new one. *)
Fixpoint bind_loop (left : nat) (port : Z) : HS bool :=
  match left with
  | O => mret false
  | S left' =>
      t ← http_get;
      bind_success ← http_world (bind_attempt (local_host t) port);
      if (bind_success : bool) then _ ← http_modify (set_local_port port); mret true
      else _ ← http_modify (set_server new_http_server); bind_loop left' (port + 1)
  end.

Definition SetupServerWithRetry : HS bool :=
  offset ← http_world random_offset;
  bind_loop (Z.to_nat kCtrlBindPortMaxRetry) (kCtrlPortStart + offset).

(** [std::stoi], or the default when there is none or it throws. *)
Definition fixed_port_of (options : Options) : Z :=
  match options !! "TRANSFER_ENGINE_SERVICE_PORT"%string with
  | Some text => match stoi text with Ok port => port | _ => kCtrlPortStart end
  | None => kCtrlPortStart
  end.

(** The thread pool, which is given no task, is left out but for its option. *)
Definition StartHttpService (options : Options) : HS bool :=
  host ← sr_lift (GetLocalHostnameOrIP env net);
  _ ← http_modify (set_local_host host);
  _ ← http_modify (set_server new_http_server);
  _ ← sr_lift (GetOptionInt defs options "TRANSFER_ENGINE_READ_THREAD_NUM");
  _ ← http_modify (fun t => set_server (register_routes (handlers t)) t);
  fixed_port ← sr_lift (GetOptionBool defs options "TRANSFER_ENGINE_SERVICE_FIXED_PORT");
  bound ← (if negb fixed_port then SetupServerWithRetry
           else
             _ ← http_modify (set_local_port (fixed_port_of options));
             t ← http_get;
             _ ← http_world (bind_to_port (local_host t) (fixed_port_of options));
             mret true);
  if negb bound then mret false
  else _ ← http_modify (set_http_running true); mret true.

Definition Http_Stop : HS unit := http_modify (set_http_running false).

Definition destroy_HTTPTransporter : HS unit :=
  t ← http_get; if http_running t then Http_Stop else mret tt.

Definition CheckHttpService : HS bool :=
  _ ← http_world (fun w => (tt, sleep_for (ms 1000) w));
  t ← http_get;
  match server t with
  | None => mret false
  | Some s =>
      r ← http_world (ping s (local_host t) (local_port t));
      match r with
      | None => mret false
      | Some resp => mret (resp_status resp =? 200)
      end
  end.

(** The retried function: what [StartHttpService] returns is not looked at. *)
Definition start_attempt (options : Options) : HS unit :=
  _ ← StartHttpService options;
  healthy ← CheckHttpService;
  if (healthy : bool) then mret tt
  else _ ← Http_Stop; sr_lift (Throw "HTTP service health check failed").

Definition as_outcome {S A} (m : SR S A) (s : S) : outcome A * S :=
  match m s with
  | (Ok a, s') => (Done a, s')
  | (Throw e, s') => (Failed e, s')
  | (Undef, s') => (Fatal "undefined", s')
  end.

(** [RetryUtils::Retry] in the [try]. *)
Definition start_retries (options : Options) (policy : CountingRetry) : HS bool := fun s =>
  match Retry (as_outcome (start_attempt options)) 5 None policy s with
  | Some (Ok (Returned _, _, s')) => (Ok true, s')
  | Some (Ok (_, _, s')) => (Ok false, s')
  | Some (Throw _) => (Ok false, s)
  | Some Undef | None => (Undef, s)
  end.

Definition Http_Start (options : Options) : HS bool :=
  _ ← http_modify (set_http_options options);
  policy ← sr_lift (new_CountingRetry 3);
  start_retries options policy.

(** ** HTTP: sending *)

Definition http_send_func (http_path data remote_host : string) (remote_port : Z) (w : W) : outcome bool * W :=
  match post remote_host remote_port http_path data w with
  | (Some res, w') => if resp_status res =? 200 then (Done true, w') else (Failed "Failed to send message", w')
  | (None, w') => (Failed "Failed to send message", w')
  end.

(** The policy is made before the [try]. *)
Definition Http_Send (request_name send_data remote_host : string) (remote_port : Z) : HS bool :=
  t ← http_get;
  let http_path := ToHttpPath request_name in
  if decide (http_path = EmptyString) then mret false
  else
    retry_count ← sr_lift (GetOptionInt defs (http_options t) "TRANSPORT_SEND_RETRY_COUNT");
    retry_sleep_ms ← sr_lift (GetOptionInt defs (http_options t) "TRANSPORT_SEND_RETRY_SLEEP_MS");
    base ← sr_lift (new_CountingRetry retry_count);
    on_snd (fun w =>
      match Retry (http_send_func http_path send_data remote_host remote_port) (Z.to_nat retry_count + 2) None
              (MkCountingAndSleep base retry_sleep_ms) w with
      | Some (Ok (Returned b, _, w')) => (Ok b, w')
      | Some (Ok (_, _, w')) => (Ok false, w')
      | Some (Throw _) => (Ok false, w)
      | Some Undef | None => (Undef, w)
      end).

End Http.

(** ** brpc: the service *)

(** [RpcTransferServiceImpl::RegisterHandler] *)
Definition service_RegisterHandler {W} (service : handler_map W) (request_name : string) (handler : Handler W)
    : handler_map W := <[request_name := handler]> service.

(** [RpcTransferServiceImpl::Send]: the code and the message of the reply. *)
Definition service_Send {W} (service : handler_map W) (request_name data : string) (w : W) : result (Z * string) * W :=
  match service !! request_name with
  | None => (Ok (404, "Handler not found"%string), w)
  | Some handler =>
      match handler request_name data w with
      | (Ok status, w') => (Ok (if rs_success status then 0 else 1, status_message status), w')
      | (Throw e, w') => (Ok (500, e), w')
      | (Undef, w') => (Undef, w')
      end
  end.

(** ** brpc: the transport *)

(** [stub_cache]: the addresses that have a stub. *)
Record BrpcTransport (W : Type) : Type := MkBrpcTransport {
  brpc_running : bool;
  bind_port : Z;
  max_retries : Z;
  timeout_ms : Z;
  brpc_handlers : handler_map W;
  service_handlers : handler_map W;
  stub_cache : gset string;
  cleanup_running : bool;
}.
Arguments MkBrpcTransport {W} _ _ _ _ _ _ _ _.
Arguments brpc_running {W} _.
Arguments bind_port {W} _.
Arguments max_retries {W} _.
Arguments timeout_ms {W} _.
Arguments brpc_handlers {W} _.
Arguments service_handlers {W} _.
Arguments stub_cache {W} _.
Arguments cleanup_running {W} _.

Definition new_BrpcTransport {W} : BrpcTransport W := MkBrpcTransport false 0 90 10000 ∅ ∅ ∅ false.

Definition set_limits {W} (retries timeout : Z) (t : BrpcTransport W) : BrpcTransport W :=
  MkBrpcTransport (brpc_running t) (bind_port t) retries timeout (brpc_handlers t) (service_handlers t) (stub_cache t)
    (cleanup_running t).
Definition set_service {W} (hs : handler_map W) (t : BrpcTransport W) : BrpcTransport W :=
  MkBrpcTransport (brpc_running t) (bind_port t) (max_retries t) (timeout_ms t) (brpc_handlers t) hs (stub_cache t)
    (cleanup_running t).
Definition set_brpc_running {W} (running : bool) (port : Z) (t : BrpcTransport W) : BrpcTransport W :=
  MkBrpcTransport running port (max_retries t) (timeout_ms t) (brpc_handlers t) (service_handlers t) (stub_cache t) running.
Definition set_stubs {W} (c : gset string) (t : BrpcTransport W) : BrpcTransport W :=
  MkBrpcTransport (brpc_running t) (bind_port t) (max_retries t) (timeout_ms t) (brpc_handlers t) (service_handlers t) c
    (cleanup_running t).

(** How a call ends: it fails with an error code, or there is a reply. *)
Inductive rpc_outcome : Type :=
| RpcFailed (error_code : Z)
| RpcReply (code : Z) (message : string).

(** brpc: starting a server on a port of a range, opening a channel, a call. *)
Class BrpcLib (W : Type) : Type := {
  server_start : Z -> Z -> W -> option Z * W;
  channel_init : string -> W -> bool * W;
  rpc_send : string -> string -> string -> Z -> W -> rpc_outcome * W;
  rand : W -> Z * W;
}.

Section Brpc.
  Context {W : Type} `{Clock W} `{FloatLib} `{BrpcLib W}.
  Context (defs : OptionDefinition).

Abbreviation BS := (SR (BrpcTransport W * W)).

Definition brpc_modify (f : BrpcTransport W -> BrpcTransport W) : BS unit := on_fst (sr_modify f).
Definition brpc_world {A} (f : W -> A * W) : BS A := on_snd (fun w => let '(a, w') := f w in (Ok a, w')).
Definition brpc_get : BS (BrpcTransport W) := on_fst sr_get.

(** All handlers are handed to the service, over those it has. *)
Definition register_all (t : BrpcTransport W) : BrpcTransport W :=
  set_service (map_fold (fun name h service => service_RegisterHandler service name h) (service_handlers t) (brpc_handlers t)) t.

Definition Brpc_Start (options : Options) : BS bool :=
  t ← brpc_get;
  if brpc_running t then mret true
  else
    retries ← sr_lift (GetOptionInt defs options "BRPC_TRANSPORT_MAX_RETRIES");
    timeout ← sr_lift (GetOptionInt defs options "BRPC_TRANSPORT_TIMEOUT_MS");
    _ ← brpc_modify (fun t => register_all (set_limits retries timeout t));
    fixed_port ← sr_lift (GetOptionBool defs options "TRANSFER_ENGINE_SERVICE_FIXED_PORT");
    bound ← (if (fixed_port : bool) then
               port ← sr_lift (GetOptionInt defs options "TRANSFER_ENGINE_SERVICE_PORT");
               let port := if port <=? 0 then kCtrlPortStart else port in
               brpc_world (server_start port port)
             else
               r ← brpc_world rand;
               let port := kCtrlPortStart + Z.rem r 1000 in
               brpc_world (server_start port (port + kCtrlBindPortMaxRetry)));
    match bound with
    | None => mret false
    | Some port =>
        _ ← brpc_modify (set_brpc_running true port);
        _ ← brpc_world (fun w => (tt, sleep_for (ms 1000) w));
        mret true
    end.

Definition Brpc_Stop : BS unit :=
  brpc_modify (fun t => if negb (brpc_running t) then t else set_stubs ∅ (set_brpc_running false (bind_port t) t)).

Definition GetOrCreateStub (server_addr : string) : BS bool :=
  t ← brpc_get;
  if decide (server_addr ∈ stub_cache t) then mret true
  else
    ok ← brpc_world (channel_init server_addr);
    if (ok : bool) then _ ← brpc_modify (fun t => set_stubs ({[server_addr]} ∪ stub_cache t) t); mret true
    else mret false.

(** The cleaning leaves all connections. *)
Definition CleanupInvalidConnections : BS unit := mret tt.

(** The loop, with [left] rounds to go. *)
Fixpoint brpc_send_loop (left : nat) (server_addr request_name data : string) : BS bool :=
  match left with
  | O => mret false
  | S left' =>
      t ← brpc_get;
      o ← brpc_world (rpc_send server_addr request_name data (timeout_ms t));
      match o with
      | RpcFailed error_code =>
          have_stub ← (if negb (error_code =? 0) then
                         _ ← brpc_modify (fun t => set_stubs (stub_cache t ∖ {[server_addr]}) t);
                         GetOrCreateStub server_addr
                       else mret true);
          if negb have_stub then mret false
          else match left' with
               | O => mret false
               | _ => _ ← brpc_world (fun w => (tt, sleep_for (ms 1000) w));
                      brpc_send_loop left' server_addr request_name data
               end
      | RpcReply code _ => mret (code =? 0)
      end
  end.

Definition Brpc_Send (request_name send_data remote_host : string) (remote_port : Z) : BS bool :=
  let server_addr := (remote_host ++ ":" ++ to_string remote_port)%string in
  have_stub ← GetOrCreateStub server_addr;
  if negb have_stub then mret false
  else t ← brpc_get; brpc_send_loop (Z.to_nat (max_retries t)) server_addr request_name send_data.

End Brpc.

(** ** What is assumed of the libraries *)

(** [listening]: the server object that serves an address.  Only a route of it
    that returned makes the status 200, and a server without the ping does not
    answer a ping with 200. *)
Class HttpLaws (W : Type) `{HttpLib W} : Type := {
  listening : string -> Z -> option (http_server W);
  post_law host port path body w r w' : post host port path body w = (Some r, w') -> resp_status r = 200 ->
    exists s h w1, listening host port = Some s /\ routes s !! path = Some h /\ http_route h path body w1 = (Ok r, w');
  ping_law s host port w r w' : ping s host port w = (Some r, w') -> has_ping s = false -> resp_status r <> 200;
}.

(** [serving]: the handlers of the service at an address; a reply is its reply. *)
Class BrpcLaws (W : Type) `{BrpcLib W} : Type := {
  serving : string -> option (handler_map W);
  rpc_law addr name data timeout w c m w' : rpc_send addr name data timeout w = (RpcReply c m, w') ->
    exists service w1, serving addr = Some service /\ service_Send service name data w1 = (Ok (c, m), w');
}.

#[global] Instance ToHttpPath_inj : Inj (=) (=) ToHttpPath.
Proof. intros a b [= H]. exact H. Qed.

Section HttpProofs.
  Context {W : Type} `{Clock W} `{FloatLib} `{HttpLaws W}.

(** The handler of [name] ran on [data], ended in the world [w'] and reported success. *)
Definition handled (hs : handler_map W) (name data : string) (w' : W) : Prop :=
  exists h st w1, hs !! name = Some h /\ h name data w1 = (Ok st, w') /\ rs_success st = true.

Lemma post_handled hs host port name data w r w' : listening host port = Some (register_routes hs) ->
  post host port (ToHttpPath name) data w = (Some r, w') -> resp_status r = 200 -> handled hs name data w'.
Proof.
  intros Hl Hp Hr. destruct (post_law _ _ _ _ _ _ _ Hp Hr) as (s & h & w1 & Hs & Hh & E).
  rewrite Hl in Hs. injection Hs as <-. cbn in Hh. rewrite lookup_kmap in Hh by apply _.
  unfold http_route in E. change (ToRequestName (ToHttpPath name)) with (Ok name) in E. cbv iota in E.
  destruct (h name data w1) as [[st| |] w2] eqn:Ew; try discriminate E.
  injection E as <- <-. exists h, st, w1. split; [done|]. split; [done|]. cbn in Hr. by destruct (rs_success st).
Qed.

Lemma http_tries hs host port name data pause n : listening host port = Some (register_routes hs) -> forall e w b w',
  tries (http_send_func (ToHttpPath name) data host port) pause n e w = (Returned b, w') ->
  b = true /\ handled hs name data w'.
Proof.
  intros Hl. induction n as [|n IH]; intros e w b w' E; [done|]. cbn [tries] in E. unfold http_send_func at 1 in E.
  destruct (post host port (ToHttpPath name) data (pause w)) as [[r|] w1] eqn:Ep; [|by eapply IH].
  destruct (Z.eqb_spec (resp_status r) 200); [|by eapply IH]. injection E as <- <-.
  split; [done|]. by eapply post_handled.
Qed.

Lemma http_counted hs host port name data pause n w b w' : listening host port = Some (register_routes hs) ->
  counted (http_send_func (ToHttpPath name) data host port) pause n w = (Returned b, w') ->
  b = true /\ handled hs name data w'.
Proof.
  intros Hl E. unfold counted, http_send_func at 1 in E.
  destruct (post host port (ToHttpPath name) data w) as [[r|] w1] eqn:Ep; [|by eapply http_tries].
  destruct (Z.eqb_spec (resp_status r) 200); [|by eapply http_tries]. injection E as <- <-.
  split; [done|]. by eapply post_handled.
Qed.

(** A send with readable retry options is the counted attempts. *)
Lemma Http_Send_counted defs name data host port t w n sleep :
  GetOptionInt defs (http_options t) "TRANSPORT_SEND_RETRY_COUNT" = Ok n ->
  GetOptionInt defs (http_options t) "TRANSPORT_SEND_RETRY_SLEEP_MS" = Ok sleep -> 0 <= n < 2 ^ 31 - 1 ->
  let r := counted (http_send_func (ToHttpPath name) data host port) (sleep_for (ms sleep)) (Z.to_nat n) w in
  Http_Send defs name data host port (t, w) = (Ok (match r.1 with Returned b => b | _ => false end), (t, r.2)).
Proof.
  intros Hn Hs Hr r. unfold Http_Send, http_get, mbind, SR_bind, on_fst, on_snd, sr_get, sr_lift. cbn [fst snd]. cbv zeta.
  rewrite decide_False by done. rewrite Hn, Hs, new_CountingRetry_Ok by lia. cbn [fst snd].
  destruct (counting_sleep_retry (http_send_func (ToHttpPath name) data host port) n sleep (Z.to_nat n + 2) w Hr ltac:(lia)) as [p ->].
  fold r. by destruct r as [[b|e|] w'].
Qed.
End HttpProofs.

(** A message over HTTP.  A send ends, after at most [n + 1] attempts; when it
    returns true, the handler that the receiver registered for the name of the
    request has run on exactly the data that were sent and reported success. *)
Theorem http_send_correct {W} `{Clock W} `{FloatLib} `{HttpLaws W} (defs : OptionDefinition) (hs : handler_map W)
    (request_name send_data remote_host : string) (remote_port : Z) (t : HTTPTransporter W) (w : W) (n sleep : Z) :
  listening remote_host remote_port = Some (register_routes hs) ->
  GetOptionInt defs (http_options t) "TRANSPORT_SEND_RETRY_COUNT" = Ok n ->
  GetOptionInt defs (http_options t) "TRANSPORT_SEND_RETRY_SLEEP_MS" = Ok sleep -> 0 <= n < 2 ^ 31 - 1 ->
  exists b w', Http_Send defs request_name send_data remote_host remote_port (t, w) = (Ok b, (t, w')) /\
    (b = true -> exists h st w1, hs !! request_name = Some h /\ h request_name send_data w1 = (Ok st, w') /\
                   rs_success st = true).
Proof.
  intros Hl Hn Hs Hr. rewrite (Http_Send_counted defs request_name send_data remote_host remote_port t w n sleep) by done.
  eexists _, _. split; [reflexivity|].
  destruct (counted _ _ _ _) as [[b|e|] w'] eqn:E; cbn [fst snd]; [|done|done]. intros ->.
  by apply (http_counted hs) in E as [_ ?].
Qed.

(** ** Starting over HTTP *)

Section HttpStart.
  Context {W : Type} `{Clock W} `{FloatLib} `{HttpLaws W}.
  Context (defs : OptionDefinition) (env : Environment) (net : network) (options : Options).

(** The handlers of a transporter, and its server: with all of them or with none. *)
Definition server_of (hs : handler_map W) (s : HTTPTransporter W * W) : Prop :=
  handlers s.1 = hs /\
  (server s.1 = None \/ server s.1 = Some (register_routes hs) \/ server s.1 = Some new_http_server).

Lemma keeps_http_modify hs f :
  (forall t, handlers (f t) = handlers t) ->
  (forall t, handlers t = hs -> server (f t) = server t \/ server (f t) = Some (register_routes hs) \/
             server (f t) = Some new_http_server) ->
  sr_keeps (server_of hs) (http_modify f).
Proof.
  intros Hh Hs [t w] [Ht Hsv]. unfold server_of. cbn in *. rewrite Hh. split; [done|].
  destruct (Hs t Ht) as [->|[->| ->]]; auto.
Qed.

Lemma keeps_http_world {A} hs (f : W -> A * W) : sr_keeps (server_of hs) (http_world f).
Proof. intros [t w] Hs. unfold http_world, on_snd. cbn. by destruct (f w). Qed.

Lemma keeps_http_get hs : sr_keeps (server_of hs) (http_get (W := W)).
Proof. by intros [t w]. Qed.

Ltac http_keep := first
  [ apply sr_keeps_bind; [|intros ?] | apply sr_keeps_ret | apply sr_keeps_lift | apply keeps_http_get
  | apply keeps_http_world | (apply keeps_http_modify; [done|cbn; intros; subst; auto]) | case_match ].

Lemma keeps_bind_loop hs left : forall port, sr_keeps (server_of hs) (bind_loop left port).
Proof. induction left as [|left IH]; intros port; cbn [bind_loop]; repeat first [apply IH | http_keep]. Qed.

Lemma keeps_start_attempt hs : sr_keeps (server_of hs) (start_attempt defs env net options).
Proof.
  unfold start_attempt, StartHttpService, SetupServerWithRetry, CheckHttpService, Http_Stop.
  repeat first [apply keeps_bind_loop | http_keep].
Qed.

(** The health check passes only with the routes. *)
Lemma start_attempt_routes hs s s' : server_of hs s -> start_attempt defs env net options s = (Ok tt, s') ->
  server s'.1 = Some (register_routes hs).
Proof.
  intros Hs E. pose proof (keeps_start_attempt hs s Hs) as Hk. rewrite E in Hk. unfold start_attempt in E.
  sr_open E b s1 E1. sr_open E healthy s2 E2. destruct healthy; [|by sr_open E u s3 E3].
  injection E as <-. unfold CheckHttpService in E2. sr_open E2 u s3 E3. sr_open E2 t s4 E4.
  injection E4 as <- <-. destruct (server s3.1) as [sv|] eqn:Esv; [|done]. sr_open E2 r s5 E5.
  unfold http_world, on_snd in E5. cbn [fst snd] in E5. destruct (ping sv _ _ s3.2) as [r' w'] eqn:Ep. injection E5 as -> <-.
  destruct r as [resp|]; [|done]. injection E2 as Er <-. destruct Hk as [_ Hk]. cbn in Hk |- *. rewrite Esv in Hk |- *.
  destruct Hk as [?|[?|[= ->]]]; [done|done|]. apply Z.eqb_eq in Er. by apply (ping_law _ _ _ _ _ _ Ep) in Er.
Qed.
End HttpStart.

Lemma Http_Start_counted {W} `{Clock W} `{FloatLib} `{HttpLib W} defs env net options (t : HTTPTransporter W) w :
  let s := (set_http_options options t, w) in
  let r := counted (as_outcome (start_attempt defs env net options)) id 3 s in
  Http_Start defs env net options (t, w) = (Ok (match r.1 with Returned _ => true | _ => false end), r.2).
Proof.
  intros s r. unfold Http_Start, mbind, SR_bind, http_modify, on_fst, sr_modify, sr_lift. cbn [fst snd].
  change (new_CountingRetry 3) with (Ok (MkCountingRetry 3 0)). cbv iota. unfold start_retries. fold s.
  destruct (counting_retry (as_outcome (start_attempt defs env net options)) 3 5 s) as [p ->]; [lia|cbn; lia|].
  change (Z.to_nat 3) with 3%nat. fold r. by destruct r as [[[]|e|] s'].
Qed.

(** A transporter that has started serves all its handlers: its server has the
    route of every handler and no others, whatever ports were tried. *)
Theorem http_started_serves {W} `{Clock W} `{FloatLib} `{HttpLaws W} (defs : OptionDefinition) (env : Environment)
    (net : network) (options : Options) (t t' : HTTPTransporter W) (w w' : W) :
  server t = None -> Http_Start defs env net options (t, w) = (Ok true, (t', w')) ->
  server t' = Some (register_routes (handlers t)).
Proof.
  intros Hs E. rewrite Http_Start_counted in E. set (func := as_outcome _) in E.
  assert (Hf : forall s, server_of (handlers t) s -> server_of (handlers t) (func s).2 /\
            forall u, (func s).1 = Done u -> server (func s).2.1 = Some (register_routes (handlers t))).
  { intros s Hso. pose proof (keeps_start_attempt defs env net options _ s Hso) as Hk. unfold func, as_outcome.
    destruct (start_attempt defs env net options s) as [[[]| |] s'] eqn:Ea; [|done..].
    split; [done|]. intros _ _. exact (start_attempt_routes defs env net options _ s s' Hso Ea). }
  assert (Ht : forall n e s, server_of (handlers t) s -> forall u, (tries func id n e s).1 = Returned u ->
            server (tries func id n e s).2.1 = Some (register_routes (handlers t))).
  { induction n as [|n IH]; intros e s Hso u Hu; [done|]. cbn [tries] in *. unfold id in *.
    destruct (Hf s Hso) as [Hk Hd]. destruct (func s) as [[u'|e'|e'] s']; [by eapply Hd|by eapply IH|done]. }
  assert (H0' : server_of (handlers t) (set_http_options options t, w)) by (split; [done|by left]).
  unfold counted in E. destruct (Hf _ H0') as [Hk Hd].
  destruct (func (set_http_options options t, w)) as [[u|e|e] s1]; cbn [fst snd] in *.
  - injection E as ->. by apply (Hd u).
  - specialize (Ht 3%nat e s1 Hk). destruct (tries func id 3 e s1) as [[u|e'|] s2]; cbn [fst snd] in *; try discriminate E.
    injection E as ->. by apply (Ht u).
  - discriminate E.
Qed.

Section FirstPort.
  Context {W : Type} `{Clock W} `{FloatLib} `{HttpLaws W}.
  Context (defs : OptionDefinition) (env : Environment) (net : network) (options : Options).
  Hypothesis not_fixed : GetOptionBool defs options "TRANSFER_ENGINE_SERVICE_FIXED_PORT" = Ok false.
  Hypothesis first_taken : forall host w, let '(offset, w1) := random_offset w in
    (bind_to_port host (kCtrlPortStart + offset) w1).1 = false.

(** Once a server was replaced, it stays without routes. *)
Lemma bind_loop_no_routes left : forall port (s : HTTPTransporter W * W), server s.1 = Some new_http_server ->
  server (bind_loop left port s).2.1 = Some new_http_server.
Proof.
  induction left as [|left IH]; intros port [t w] Hs; [done|]. cbn [bind_loop].
  unfold mbind, SR_bind, http_get, http_world, http_modify, on_fst, on_snd, sr_get, sr_modify. cbn [fst snd].
  destruct (bind_attempt _ _ w) as [[] w']; [done|]. by apply IH.
Qed.

Lemma first_attempt_no_routes (s : HTTPTransporter W * W) :
  server (SetupServerWithRetry s).2.1 = Some new_http_server.
Proof.
  destruct s as [t w]. unfold SetupServerWithRetry.
  pose proof (first_taken (local_host t) w) as Hf.
  change (Z.to_nat kCtrlBindPortMaxRetry) with (S 99). generalize 99%nat. intros left. cbn [bind_loop].
  unfold mbind, SR_bind, http_get, http_world, http_modify, on_fst, on_snd, sr_get, sr_modify. cbn [fst snd].
  destruct (random_offset w) as [offset w1]. unfold bind_attempt. cbn [fst snd].
  destruct (bind_to_port (local_host t) (kCtrlPortStart + offset) w1) as [ok w2]. cbn in Hf. subst ok.
  apply bind_loop_no_routes. done.
Qed.

(** So that no attempt to start succeeds. *)
Lemma start_attempt_fails (s s' : HTTPTransporter W * W) u : start_attempt defs env net options s <> (Ok u, s').
Proof.
  intros E. unfold start_attempt in E. sr_open E b s1 E1. sr_open E healthy s2 E2.
  destruct healthy; [|by sr_open E v s3 E3]. clear E.
  assert (Hs1 : server s1.1 = Some new_http_server).
  { unfold StartHttpService in E1. sr_open E1 host s3 E3. sr_open E1 u4 s4 E4. sr_open E1 u4' s4' E4'. sr_open E1 u5 s5 E5.
    sr_open E1 u6 s6 E6. sr_open E1 fixed s7 E7. rewrite not_fixed in E7. injection E7 as <- <-. cbn [negb] in E1. sr_open E1 bound s8 E8.
    pose proof (first_attempt_no_routes s6) as Hf. rewrite E8 in Hf. cbn in Hf.
    destruct bound; cbn [negb] in E1; [|by injection E1 as _ <-]. sr_open E1 u9 s9 E9. injection E1 as _ <-.
    unfold http_modify, on_fst, sr_modify in E9. injection E9 as _ <-. done. }
  unfold CheckHttpService in E2. sr_open E2 v s3 E3. sr_open E2 t s4 E4. injection E4 as <- <-.
  assert (s3.1 = s1.1) as Es3 by (unfold http_world, on_snd in E3; by injection E3 as _ <-).
  rewrite Es3, Hs1 in E2. sr_open E2 r s5 E5. unfold http_world, on_snd in E5. cbn [fst snd] in E5.
  destruct (ping new_http_server _ _ s3.2) as [r' w'] eqn:Ep. injection E5 as -> <-.
  destruct r as [resp|]; [|done]. injection E2 as Er _. apply Z.eqb_eq in Er. by apply (ping_law _ _ _ _ _ _ Ep) in Er.
Qed.

Lemma start_tries_fail n : forall e (s : HTTPTransporter W * W) u,
  (tries (as_outcome (start_attempt defs env net options)) id n e s).1 <> Returned u.
Proof.
  induction n as [|n IH]; intros e s u; [done|]. cbn [tries]. unfold id, as_outcome at 1.
  pose proof (start_attempt_fails s) as Hf. destruct (start_attempt defs env net options s) as [[v| |] s']; [|apply IH|done].
  by destruct (Hf s' v).
Qed.
End FirstPort.

(** Only the first port counts.  When a port cannot be bound, the server with
    the routes is replaced by an empty one, whose health check fails
    although it may be bound to the next port: if the port that is tried first
    is taken every time, the transporter does not start, however many of the
    other 99 are free. *)
Theorem http_first_port_only {W} `{Clock W} `{FloatLib} `{HttpLaws W} (defs : OptionDefinition) (env : Environment)
    (net : network) (options : Options) (t : HTTPTransporter W) (w : W) :
  GetOptionBool defs options "TRANSFER_ENGINE_SERVICE_FIXED_PORT" = Ok false ->
  (forall host w, let '(offset, w1) := random_offset w in
     (bind_to_port host (kCtrlPortStart + offset) w1).1 = false) ->
  (Http_Start defs env net options (t, w)).1 = Ok false.
Proof.
  intros Hfix Hfirst. rewrite Http_Start_counted. cbn [fst]. f_equal. unfold counted, as_outcome at 1.
  pose proof (start_attempt_fails defs env net options Hfix Hfirst (set_http_options options t, w)) as Hf.
  destruct (start_attempt defs env net options _) as [[v|e|] s']; [by destruct (Hf s' v)| |done].
  pose proof (start_tries_fail defs env net options Hfix Hfirst 3 e s') as Ht.
  destruct (tries _ _ _ _ _) as [[u|e'|] s2]; [by destruct (Ht u)|done..].
Qed.

(** ** Sending over brpc *)

Section BrpcProofs.
  Context {W : Type} `{Clock W} `{FloatLib} `{BrpcLaws W}.

Lemma reply_handled (service : handler_map W) name data w1 m w' : service_Send service name data w1 = (Ok (0, m), w') ->
  handled service name data w'.
Proof.
  unfold service_Send. destruct (service !! name) as [h|] eqn:Eh; [|done].
  destruct (h name data w1) as [[st| |] w2] eqn:Ew; [|done..]. destruct (rs_success st) eqn:Es; [|done].
  intros [= _ <-]. by exists h, st, w1.
Qed.

Lemma stub_total addr (s : BrpcTransport W * W) :
  exists b s', GetOrCreateStub addr s = (Ok b, s') /\ (b = true -> addr ∈ stub_cache s'.1) /\
    (addr ∈ stub_cache s.1 -> b = true /\ s' = s).
Proof.
  destruct s as [t w]. unfold GetOrCreateStub, mbind, SR_bind, brpc_get, brpc_world, brpc_modify, on_fst, on_snd, sr_get, sr_modify.
  cbn [fst snd]. destruct (decide (addr ∈ stub_cache t)) as [Hin|Hin]; [by eexists _, _|]. cbn [fst snd].
  destruct (channel_init addr w) as [[] w']; eexists _, _; (split; [reflexivity|]); [|done].
  split; [|done]. intros _. cbn. set_solver.
Qed.

Lemma brpc_loop_handled addr name data service : serving addr = Some service ->
  forall left (s : BrpcTransport W * W), exists b s',
  brpc_send_loop left addr name data s = (Ok b, s') /\ (b = true -> handled service name data s'.2).
Proof.
  intros Hsv. induction left as [|left IH]; intros [t w]; [by eexists _, _|]. cbn [brpc_send_loop].
  unfold mbind, SR_bind, brpc_get at 1, brpc_world at 1, on_fst, on_snd, sr_get. cbn [fst snd].
  destruct (rpc_send addr name data (timeout_ms t) w) as [[code|code m] w1] eqn:Er.
  - assert (exists have s1, (if negb (code =? 0) then
        SR_bind _ _ (fun _ => GetOrCreateStub addr) (brpc_modify (fun t => set_stubs (stub_cache t ∖ {[addr]}) t))
        else mret true) (t, w1) = (Ok have, s1)) as (have & s1 & E).
    { destruct (negb (code =? 0)); [|by eexists _, _].
      unfold SR_bind, brpc_modify, on_fst, sr_modify. cbn [fst snd].
      destruct (stub_total addr (set_stubs (stub_cache t ∖ {[addr]}) t, w1)) as (b & s1 & E & _). eauto. }
    unfold mbind in E. setoid_rewrite E. destruct have; cbn [negb]; [|by eexists _, _].
    destruct left as [|left]; [by eexists _, _|]. destruct s1 as [t1 w2]. apply IH.
  - eexists _, _. split; [reflexivity|]. intros Hc. apply Z.eqb_eq in Hc. subst code.
    destruct (rpc_law _ _ _ _ _ _ _ _ Er) as (service' & w0 & Hs' & E). rewrite Hsv in Hs'. injection Hs' as <-.
    by eapply reply_handled.
Qed.

Lemma Brpc_Send_total (service : handler_map W) name data host port (t : BrpcTransport W) w :
  serving (host ++ ":" ++ to_string port) = Some service ->
  exists b t' w', Brpc_Send name data host port (t, w) = (Ok b, (t', w')) /\ (b = true -> handled service name data w').
Proof.
  intros Hs. unfold Brpc_Send. set (addr := (host ++ _)%string) in *.
  destruct (stub_total addr (t, w)) as (b & [t1 w1] & E & _). unfold mbind, SR_bind at 1. rewrite E.
  destruct b; cbn [negb]; [|by eexists _, _, _].
  unfold SR_bind, brpc_get, on_fst, sr_get. cbn [fst snd].
  destruct (brpc_loop_handled addr name data service Hs (Z.to_nat (max_retries t1)) (t1, w1))
    as (b & [t2 w2] & E2 & Hb). rewrite E2. by eexists _, _, _.
Qed.

Lemma Brpc_Send_handled (service : handler_map W) name data host port (t t' : BrpcTransport W) w w' :
  serving (host ++ ":" ++ to_string port) = Some service ->
  Brpc_Send name data host port (t, w) = (Ok true, (t', w')) -> handled service name data w'.
Proof.
  intros Hs E. destruct (Brpc_Send_total service name data host port t w Hs) as (b & t1 & w1 & E1 & Hb).
  rewrite E in E1. injection E1 as <- <- <-. by apply Hb.
Qed.
End BrpcProofs.

(** C13: A message over brpc.  A send ends; when it returns true, the handler that
    the service at the address has for the name of the request has run on
    exactly the data that were sent and reported success. *)
Theorem brpc_send_correct {W} `{Clock W} `{FloatLib} `{BrpcLaws W} (service : handler_map W)
    (request_name send_data remote_host : string) (remote_port : Z) (t : BrpcTransport W) (w : W) :
  serving (remote_host ++ ":" ++ to_string remote_port) = Some service ->
  exists b t' w', Brpc_Send request_name send_data remote_host remote_port (t, w) = (Ok b, (t', w')) /\
    (b = true -> exists h st w1, service !! request_name = Some h /\ h request_name send_data w1 = (Ok st, w') /\
                   rs_success st = true).
Proof.
  apply Brpc_Send_total.
Qed.

Lemma tries_refused {W A} (func : W -> outcome A * W) (pause run : W -> W) e n : forall e0 w,
  (forall w, func w = (Failed e, run w)) ->
  exists e', tries func pause n e0 w = (Rethrown e', Nat.iter n (fun w => run (pause w)) w).
Proof.
  induction n as [|n IH]; intros e0 w Hf; [by eexists|]. cbn [tries]. rewrite Hf.
  destruct (IH e (run (pause w)) Hf) as [e' ->]. exists e'. f_equal. by rewrite Nat.iter_succ_r.
Qed.

(** The two transports differ on a message that the handler refuses, even if
    every message arrives: over HTTP the refusal is retried like a lost
    message, and the handler runs once and again for each of the [n] retries;
    over brpc it runs once. *)
Theorem refused_message {W} `{Clock W} `{FloatLib} `{HttpLib W} `{BrpcLib W} (defs : OptionDefinition)
    (h : Handler W) (run : W -> W) (msg request_name send_data remote_host : string) (remote_port : Z)
    (t : HTTPTransporter W) (bt : BrpcTransport W) (w : W) (n sleep : Z) :
  (forall w, h request_name send_data w = (Ok (MkResponseStatus false msg), run w)) ->
  (forall w, post remote_host remote_port (ToHttpPath request_name) send_data w =
     let '(r, w') := http_route h (ToHttpPath request_name) send_data w in
     (match r with Ok resp => Some resp | _ => None end, w')) ->
  let addr := (remote_host ++ ":" ++ to_string remote_port)%string in
  (forall w, rpc_send addr request_name send_data (timeout_ms bt) w =
     let '(r, w') := service_Send {[request_name := h]} request_name send_data w in
     (match r with Ok (c, m) => RpcReply c m | _ => RpcFailed 1 end, w')) ->
  GetOptionInt defs (http_options t) "TRANSPORT_SEND_RETRY_COUNT" = Ok n ->
  GetOptionInt defs (http_options t) "TRANSPORT_SEND_RETRY_SLEEP_MS" = Ok sleep -> 0 <= n < 2 ^ 31 - 1 ->
  addr ∈ stub_cache bt -> 0 < max_retries bt ->
  Http_Send defs request_name send_data remote_host remote_port (t, w) =
    (Ok false, (t, Nat.iter (Z.to_nat n) (fun w => run (sleep_for (ms sleep) w)) (run w))) /\
  Brpc_Send request_name send_data remote_host remote_port (bt, w) = (Ok false, (bt, run w)).
Proof.
  intros Hh Hpost addr Hrpc Hn Hsl Hr Hstub Hmax. split.
  - rewrite (Http_Send_counted defs request_name send_data remote_host remote_port t w n sleep) by done.
    assert (Hf : forall w, http_send_func (ToHttpPath request_name) send_data remote_host remote_port w =
              (Failed "Failed to send message", run w)).
    { intros w0. unfold http_send_func. rewrite Hpost. unfold http_route.
      change (ToRequestName (ToHttpPath request_name)) with (Ok request_name). cbv iota. by rewrite Hh. }
    unfold counted. rewrite Hf.
    destruct (tries_refused _ (sleep_for (ms sleep)) run _ (Z.to_nat n) "Failed to send message" (run w) Hf) as [e' ->].
    reflexivity.
  - unfold Brpc_Send. fold addr. destruct (stub_total addr (bt, w)) as (b & s1 & E & _ & Hin).
    destruct (Hin Hstub) as [-> ->]. unfold mbind, SR_bind at 1. rewrite E. cbn [negb].
    unfold SR_bind, brpc_get, on_fst, sr_get. cbn [fst snd].
    destruct (Z.to_nat (max_retries bt)) as [|left] eqn:El; [lia|]. cbn [brpc_send_loop].
    unfold mbind, SR_bind, brpc_get at 1, brpc_world at 1, on_fst, on_snd, sr_get. cbn [fst snd]. rewrite Hrpc.
    unfold service_Send. rewrite lookup_singleton_eq, Hh. reflexivity.
Qed.

(** ** Two nodes *)

Module TwoNodes.

(** The time, and how often the handler ran. *)
Record node : Type := MkNode { time : Z; runs : Z }.

#[export] Instance clock : Clock node := {| now := time; sleep_for d w := MkNode (time w + Z.max 0 d) (runs w) |}.
#[export] Instance floats : FloatLib := {| float := unit; float_zero := tt; stof _ := None; stod _ := None |}.

(** It accepts "yes" only. *)
Definition handler : Handler node := fun name data w =>
  (Ok (MkResponseStatus (String.eqb data "yes") name), MkNode (time w) (runs w + 1)).
Definition handlers1 : handler_map node := {["commit"%string := handler]}.

(** Port 52010 is taken. *)
#[export] Instance http : HttpLib node := {|
  bind_to_port host port w := (negb (port =? 52010), w);
  post host port path body w :=
    match routes (register_routes handlers1) !! path with
    | Some h => let '(r, w') := http_route h path body w in (match r with Ok resp => Some resp | _ => None end, w')
    | None => (Some (MkHttpResponse 404 EmptyString), w)
    end;
  ping s host port w := (Some (if has_ping s then HandlePing else MkHttpResponse 404 EmptyString), w);
  random_offset w := (0, w);
|}.

#[export] Instance http_laws : HttpLaws node.
Proof.
  refine {| listening _ _ := Some (register_routes handlers1) |}.
  - intros host port path body w r w' H Hr. cbn [post http] in H.
    destruct (routes (register_routes handlers1) !! path) as [h|] eqn:Eh.
    + destruct (http_route h path body w) as [[resp| |] w1] eqn:E; [|done..]. injection H as <- <-.
      exists (register_routes handlers1), h, w. exact (conj eq_refl (conj Eh E)).
    + injection H as <- _. cbn in Hr. lia.
  - intros s host port w r w' H Hs. cbn in H. rewrite Hs in H. injection H as <- _. clear. cbn. lia.
Defined.

#[export] Instance brpc : BrpcLib node := {|
  server_start first last w := (Some first, w);
  channel_init addr w := (true, w);
  rpc_send addr name data timeout w :=
    let '(r, w') := service_Send handlers1 name data w in (match r with Ok (c, m) => RpcReply c m | _ => RpcFailed 1 end, w');
  rand w := (7, w);
|}.

#[export] Instance brpc_laws : BrpcLaws node.
Proof.
  refine {| serving _ := Some handlers1 |}. intros addr name data timeout w c m w' H. cbn in H.
  destruct (service_Send handlers1 name data w) as [[[c' m']| |] w1] eqn:E; try discriminate H.
  injection H as <- <- <-. exists handlers1, w. exact (conj eq_refl E).
Defined.

Definition w0 : node := MkNode 0 0.
Definition sender : HTTPTransporter node := set_http_options {["TRANSPORT_SEND_RETRY_COUNT"%string := "2"%string]} new_HTTPTransporter.
Definition http_env : Environment := fun v => if String.eqb v "POD_IP" then Some "10.0.0.7"%string else None.
Definition no_net : network := {| route_address := None; interfaces := None |}.
Definition fixed : Options := {["TRANSFER_ENGINE_SERVICE_FIXED_PORT"%string := "true"%string]}.
Definition connected : BrpcTransport node := set_stubs {["10.0.0.8:52017"%string]} new_BrpcTransport.
Definition receiver : HTTPTransporter node := MkHTTPTransporter ∅ EmptyString 0 None false handlers1.

End TwoNodes.

#[local] Existing Instances TwoNodes.clock TwoNodes.floats TwoNodes.http TwoNodes.http_laws TwoNodes.brpc TwoNodes.brpc_laws.

Lemma http_send_correct_witness :
  exists w', Http_Send option_definitions "commit" "yes" "10.0.0.8" 52017 (TwoNodes.sender, TwoNodes.w0) = (Ok true, (TwoNodes.sender, w')) /\
    exists h st w1, TwoNodes.handlers1 !! "commit"%string = Some h /\ h "commit"%string "yes"%string w1 = (Ok st, w') /\ rs_success st = true.
Proof.
  destruct (http_send_correct option_definitions TwoNodes.handlers1 "commit" "yes" "10.0.0.8" 52017 TwoNodes.sender TwoNodes.w0 2 5000)
    as (b & w' & E & Hb); [reflexivity|vm_compute; reflexivity|vm_compute; reflexivity|lia|].
  assert (b = true) as ->.
  { apply (f_equal fst) in E. vm_compute in E. by injection E as <-. }
  exists w'. split; [exact E|]. by apply Hb.
Defined.

Lemma http_started_serves_witness :
  exists t' w', Http_Start option_definitions TwoNodes.http_env TwoNodes.no_net TwoNodes.fixed (TwoNodes.receiver, TwoNodes.w0) = (Ok true, (t', w')) /\
    server t' = Some (register_routes TwoNodes.handlers1).
Proof.
  assert (E1 : (Http_Start option_definitions TwoNodes.http_env TwoNodes.no_net TwoNodes.fixed (TwoNodes.receiver, TwoNodes.w0)).1 = Ok true)
    by (vm_compute; reflexivity).
  destruct (Http_Start option_definitions TwoNodes.http_env TwoNodes.no_net TwoNodes.fixed (TwoNodes.receiver, TwoNodes.w0)) as [r [t' w']] eqn:E.
  cbn in E1. subst r. exists t', w'. split; [reflexivity|].
  exact (http_started_serves option_definitions TwoNodes.http_env TwoNodes.no_net TwoNodes.fixed TwoNodes.receiver t' TwoNodes.w0 w' eq_refl E).
Defined.

Lemma http_first_port_only_witness :
  bind_to_port "10.0.0.7" 52011 TwoNodes.w0 = (true, TwoNodes.w0) /\
  (Http_Start option_definitions TwoNodes.http_env TwoNodes.no_net ∅ (TwoNodes.receiver, TwoNodes.w0)).1 = Ok false.
Proof.
  split; [reflexivity|].
  apply (http_first_port_only option_definitions TwoNodes.http_env TwoNodes.no_net ∅ TwoNodes.receiver TwoNodes.w0).
  - vm_compute. reflexivity.
  - intros host w. reflexivity.
Defined.

Lemma brpc_send_correct_witness :
  exists t' w', Brpc_Send "commit" "yes" "10.0.0.8" 52017 (new_BrpcTransport, TwoNodes.w0) = (Ok true, (t', w')) /\
    exists h st w1, TwoNodes.handlers1 !! "commit"%string = Some h /\ h "commit"%string "yes"%string w1 = (Ok st, w') /\ rs_success st = true.
Proof.
  destruct (brpc_send_correct TwoNodes.handlers1 "commit" "yes" "10.0.0.8" 52017 new_BrpcTransport TwoNodes.w0)
    as (b & t' & w' & E & Hb); [reflexivity|].
  assert (b = true) as ->.
  { apply (f_equal fst) in E. vm_compute in E. by injection E as <-. }
  exists t', w'. split; [exact E|]. by apply Hb.
Defined.

Lemma refused_message_witness :
  (exists t' w', Http_Send option_definitions "commit" "no" "10.0.0.8" 52017 (TwoNodes.sender, TwoNodes.w0) = (Ok false, (t', w')) /\
     TwoNodes.runs w' = 3) /\
  (exists t' w', Brpc_Send "commit" "no" "10.0.0.8" 52017 (TwoNodes.connected, TwoNodes.w0) = (Ok false, (t', w')) /\
     TwoNodes.runs w' = 1).
Proof.
  destruct (refused_message option_definitions TwoNodes.handler (fun w => TwoNodes.MkNode (TwoNodes.time w) (TwoNodes.runs w + 1))
              "commit" "commit" "no" "10.0.0.8" 52017 TwoNodes.sender TwoNodes.connected TwoNodes.w0 2 5000) as [E1 E2].
  - reflexivity.
  - reflexivity.
  - reflexivity.
  - vm_compute. reflexivity.
  - vm_compute. reflexivity.
  - lia.
  - by apply elem_of_singleton.
  - reflexivity.
  - split; [exists TwoNodes.sender; eexists; split; [exact E1|reflexivity]|exists TwoNodes.connected; eexists; split; [exact E2|reflexivity]].
Defined.
