(* ===== verification/ConfigCenter.v ===== *)
(** * Config centers

    discovery/service_discovery.h ([ConfigCenter], [TCPStoreConfigCenter]),
    discovery/file_config_center.cpp and discovery/http_config_center.cpp: the
    places where the nodes of a job leave each other the address of the store
    they meet at.

    A config center is an interface over the state of the world it works on; the
    three implementations are instances of it and the promise that a value
    is read back as it was set is a class of laws.  The file system, the HTTP
    client and c10d's TCPStore are not part of the sources: the file system is
    its directories and files with the outcome of opening a file as an
    argument, the other two are interfaces. *)

From stdpp Require Import gmap strings.
From S2P Require Import Prelude StateResult StringUtils Options Retry.
Local Open Scope Z_scope.

(** ** The interface *)

(** [GetConfig] returns [None] for [false] and the value it assigned for [true]. *)
Class ConfigCenter (W : Type) : Type := {
  SetConfig : string -> string -> SR W bool;
  GetConfig : string -> SR W (option string);
  RemoveConfig : string -> SR W bool;
  (** which of the exceptions they throw are [NonRetryableException]s *)
  non_retryable_exception : string -> bool;
}.

(** The promise: what was set is what is read, until it is removed. *)
Class ConfigCenterLaws (W : Type) `{ConfigCenter W} : Type := {
  config_ok : string -> string -> Prop;
  set_get_config key value w w' :
    config_ok key value -> SetConfig key value w = (Ok true, w') ->
    exists w'', GetConfig key w' = (Ok (Some value), w'');
  remove_get_config key value w w' :
    config_ok key value -> RemoveConfig key w = (Ok true, w') ->
    exists w'', GetConfig key w' = (Ok None, w'');
}.

(** ** Files *)

Module FileCenter.

Record fsys : Type := FSys {
  files : gmap string string;
  dirs : gset string;
}.

Section File.
  (** The outcomes of opening a file for reading and for writing, and of
      removing it. *)
  Context (can_read can_write can_remove : string -> bool).

Definition exists_path (p : string) (fs : fsys) : bool :=
  bool_decide (p ∈ dirs fs) || bool_decide (is_Some (files fs !! p)).

Definition create_directories (p : string) (fs : fsys) : fsys := FSys (files fs) ({[p]} ∪ dirs fs).

Definition new_FileConfigCenter (env : Environment) (fs : fsys) : result (string * fsys) :=
  match env "ASTATE_SHARED_PATH" with
  | None => Throw "ASTATE_SHARED_PATH is not set"
  | Some astate_shared_path =>
      match env "CLUSTER_NAME" with
      | None => Throw "CLUSTER_NAME is not set"
      | Some job_name =>
          let shared_path := (astate_shared_path ++ "/" ++ job_name ++ "_ASTATE_CONFIG")%string in
          Ok (shared_path, if exists_path shared_path fs then fs else create_directories shared_path fs)
      end
  end.

Definition new_FileConfigCenter_at (shared_path : string) (fs : fsys) : result (string * fsys) :=
  _ ← throw_if (bool_decide (shared_path = EmptyString)) "shared_path is empty";
  Ok (shared_path, if exists_path shared_path fs then fs else create_directories shared_path fs).

(** The entries of a directory: the paths [dir/name] with no further slash. *)
Fixpoint no_slash (s : string) : bool :=
  match s with EmptyString => true | String c s' => negb (bool_decide (c = "/"%char)) && no_slash s' end.

Fixpoint strip_prefix (p s : string) : option string :=
  match p, s with
  | EmptyString, _ => Some s
  | String c p', String d s' => if decide (c = d) then strip_prefix p' s' else None
  | _, EmptyString => None
  end.

Definition inside (dir path : string) : bool :=
  match strip_prefix (dir ++ "/") path with Some name => no_slash name | None => false end.

(** The destructor: every file of the directory goes, whoever wrote it. *)
Definition destroy_FileConfigCenter (shared_path : string) (fs : fsys) : fsys :=
  FSys (filter (fun kv => inside shared_path kv.1 = false) (files fs)) (dirs fs ∖ {[shared_path]}).

Definition path_of (shared_path key : string) : string := (shared_path ++ "/" ++ key)%string.

(** [std::getline] of a fresh stream: the first line, empty for an empty file. *)
Definition first_line (contents : string) : string :=
  match getlines NEWLINE contents None with l :: _ => l | [] => EmptyString end.

Definition File_GetConfig (shared_path key : string) : SR fsys (option string) := fun fs =>
  if decide (key = EmptyString) then (Ok None, fs)
  else
    let config_file_path := path_of shared_path key in
    if negb (exists_path config_file_path fs) then (Ok None, fs)
    else match files fs !! config_file_path with
         | Some contents =>
             if can_read config_file_path then (Ok (Some (first_line contents)), fs) else (Ok None, fs)
         | None => (Ok None, fs)
         end.

Definition File_SetConfig (shared_path key value : string) : SR fsys bool := fun fs =>
  let config_file_path := path_of shared_path key in
  if bool_decide (config_file_path ∈ dirs fs) || negb (can_write config_file_path) then (Ok false, fs)
  else (Ok true, FSys (<[config_file_path := value]> (files fs)) (dirs fs)).

(** [std::filesystem::remove]: throws when the file cannot be removed. *)
Definition File_RemoveConfig (shared_path key : string) : SR fsys bool := fun fs =>
  if decide (key = EmptyString) then (Ok true, fs)
  else
    let config_file_path := path_of shared_path key in
    if negb (can_remove config_file_path) then (Throw "filesystem error: cannot remove", fs)
    else
      let fs' := FSys (delete config_file_path (files fs)) (dirs fs ∖ {[config_file_path]}) in
      (Ok (negb (exists_path config_file_path fs')), fs').

Definition FileConfigCenter (shared_path : string) : ConfigCenter fsys := {|
  SetConfig := File_SetConfig shared_path;
  GetConfig := File_GetConfig shared_path;
  RemoveConfig := File_RemoveConfig shared_path;
  non_retryable_exception _ := false;
|}.

(** A single line can be stored under a name that the process may read. *)
Definition file_config_ok (shared_path key value : string) : Prop :=
  key <> EmptyString /\ can_read (path_of shared_path key) = true /\
  all_chars (fun c => c <> NEWLINE) value.

Lemma first_line_line value : all_chars (fun c => c <> NEWLINE) value -> first_line value = value.
Proof.
  intros H. unfold first_line. destruct (decide (value = EmptyString)) as [->|Hne]; [done|].
  by rewrite getlines_last.
Qed.

Definition FileConfigCenter_laws (shared_path : string) :
  @ConfigCenterLaws fsys (FileConfigCenter shared_path).
Proof.
  refine (Build_ConfigCenterLaws _ (FileConfigCenter shared_path) (file_config_ok shared_path) _ _).
  - intros key value fs fs' (Hk & Hr & Hv) H. cbn in *. unfold File_SetConfig in H.
    destruct (_ || _); [discriminate H|]. injection H as <-.
    unfold File_GetConfig. rewrite decide_False by done. unfold exists_path.
    cbn [files dirs]. rewrite lookup_insert_eq.
    rewrite (bool_decide_eq_true_2 (is_Some _)) by done. rewrite orb_true_r. cbn [negb].
    rewrite Hr, first_line_line by done. by eexists.
  - intros key value fs fs' (Hk & _) H. cbn in *. unfold File_RemoveConfig in H.
    rewrite decide_False in H by done. destruct (negb (can_remove _)); [discriminate H|].
    injection H as Hx <-. unfold File_GetConfig. rewrite decide_False by done.
    rewrite Hx. by eexists.
Defined.

End File.
End FileCenter.

(** ** The TCP store *)

(** c10d's [TCPStore] as the sources use it; a [get] of a key that nobody sets
    within the timeout throws. *)
Class TCPStore (W : Type) : Type := {
  store_set : string -> string -> SR W unit;
  store_get : string -> SR W string;
  store_multiGet : list string -> SR W (list string);
  store_wait : list string -> SR W unit;
  store_deleteKey : string -> SR W bool;
}.

(** Its documented behaviour while no other client writes: the keys and values
    it holds, what the calls answer, and that answering does not change them. *)
Class TCPStoreLaws (W : Type) `{TCPStore W} : Type := {
  contents : W -> gmap string string;
  get_present k v w : contents w !! k = Some v ->
    exists w', store_get k w = (Ok v, w') /\ contents w' = contents w;
  get_absent k w : contents w !! k = None ->
    exists e w', store_get k w = (Throw e, w') /\ contents w' = contents w;
  set_stores k v w : exists w', store_set k v w = (Ok tt, w') /\ contents w' = <[k := v]> (contents w);
  wait_present ks w : Forall (fun k => is_Some (contents w !! k)) ks ->
    exists w', store_wait ks w = (Ok tt, w') /\ contents w' = contents w;
  wait_absent ks w : ~ Forall (fun k => is_Some (contents w !! k)) ks ->
    exists e w', store_wait ks w = (Throw e, w') /\ contents w' = contents w;
  multiGet_present ks vs w : Forall2 (fun k v => contents w !! k = Some v) ks vs ->
    exists w', store_multiGet ks w = (Ok vs, w') /\ contents w' = contents w;
  delete_removes k w : exists w',
    store_deleteKey k w = (Ok (bool_decide (is_Some (contents w !! k))), w') /\
    contents w' = delete k (contents w);
}.

Module TCPStoreCenter.
Section TCP.
  Context {W : Type} `{TCPStore W}.

Definition kDefaultPort : Z := 29500.

(** The address and port the default constructor connects to. *)
Definition TCP_LoadConfigFromEnv (env : Environment) : string * Z :=
  let master_addr := match env "ASTATE_TCPSTORE_MASTER_ADDR" with
                     | Some a => a
                     | None => "127.0.0.1"%string
                     end in
  let master_port := match env "ASTATE_TCPSTORE_MASTER_PORT" with
                     | Some p => match stoi p with Ok n => n | _ => kDefaultPort end
                     | None => kDefaultPort
                     end in
  (master_addr, master_port).

Definition TCP_SetConfig (key value : string) : SR W bool := _ ← store_set key value; mret true.

Definition TCP_GetConfig (key : string) : SR W (option string) :=
  sr_catch (v ← store_get key; mret (Some v)) (fun _ => mret None).

Definition TCP_RemoveConfig (key : string) : SR W bool := store_deleteKey key.

#[export] Instance TCPStoreConfigCenter : ConfigCenter W := {|
  SetConfig := TCP_SetConfig;
  GetConfig := TCP_GetConfig;
  RemoveConfig := TCP_RemoveConfig;
  non_retryable_exception _ := false;
|}.

Context `{!TCPStoreLaws W}.

#[export] Instance TCPStoreConfigCenter_laws : ConfigCenterLaws W.
Proof.
  refine (Build_ConfigCenterLaws _ TCPStoreConfigCenter (fun _ _ => True) _ _).
  - intros key value w w' _ Hs. cbn in *. unfold TCP_SetConfig in Hs. sr_open Hs u w1 E. injection Hs as <-.
    destruct (set_stores key value w) as (w2 & E' & Hc). rewrite E in E'. injection E' as -> <-.
    destruct (get_present key value w1) as (w3 & Hg & _); [by rewrite Hc, lookup_insert_eq|].
    exists w3. unfold TCP_GetConfig, sr_catch. unfold mbind, SR_bind. by rewrite Hg.
  - intros key value w w' _ Hr. cbn in *. unfold TCP_RemoveConfig in Hr.
    destruct (delete_removes key w) as (w1 & E & Hc). rewrite E in Hr. injection Hr as _ <-.
    destruct (get_absent key w1) as (e & w2 & Hg & _); [by rewrite Hc, lookup_delete_eq|].
    exists w2. unfold TCP_GetConfig, sr_catch, mbind, SR_bind. by rewrite Hg.
Defined.

End TCP.
End TCPStoreCenter.

(** A store that is its contents. *)
Module PlainStore.

Definition all_present (ks : list string) (w : gmap string string) : bool :=
  forallb (fun k => bool_decide (is_Some (w !! k))) ks.

#[export] Instance store : TCPStore (gmap string string) := {|
  store_set k v w := (Ok tt, <[k := v]> w);
  store_get k w := (match w !! k with Some v => Ok v | None => Throw "timeout" end, w);
  store_multiGet ks w := (map_result (fun k => match w !! k with Some v => Ok v | None => Throw "timeout" end) ks, w);
  store_wait ks w := (if all_present ks w then Ok tt else Throw "timeout", w);
  store_deleteKey k w := (Ok (bool_decide (is_Some (w !! k))), delete k w);
|}.

Lemma all_present_spec ks w : all_present ks w = true <-> Forall (fun k => is_Some (w !! k)) ks.
Proof.
  unfold all_present. rewrite forallb_forall, Forall_forall.
  split; intros H x Hx; specialize (H x).
  - apply (bool_decide_eq_true_1 _), H. by apply list_elem_of_In.
  - apply (bool_decide_eq_true_2 _), H. by apply list_elem_of_In.
Qed.

#[export] Instance store_laws : TCPStoreLaws (gmap string string).
Proof.
  refine (Build_TCPStoreLaws _ store id _ _ _ _ _ _ _); cbn; unfold id.
  - intros k v w ->. eauto.
  - intros k w ->. eauto.
  - eauto.
  - intros ks w Hk%all_present_spec. rewrite Hk. eauto.
  - intros ks w Hk. rewrite <-all_present_spec in Hk. destruct (all_present ks w); [done|]. eauto.
  - intros ks vs w Hk. assert (E : forall ks vs, Forall2 (fun k v => w !! k = Some v) ks vs ->
      map_result (fun k => match w !! k with Some v => Ok v | None => Throw "timeout" end) ks = Ok vs).
    { induction 1 as [|k v ks' vs' Hkv _ IH]; [done|]. cbn [map_result]. rewrite Hkv. cbn [mbind result_bind].
      by rewrite IH. }
    rewrite (E _ _ Hk). eauto.
  - eauto.
Defined.

End PlainStore.

(** ** HTTP *)

Module HttpCenter.

(** What a request of the client ends with: an error of the library, an
    exception, or a response. *)
Inductive http_error : Type :=
| BindIPAddress | UnsupportedMultipartBoundaryChars | Compression
| SSLConnection | SSLLoadingCerts | SSLServerVerification
| OtherError.

Inductive http_result : Type :=
| HttpError (error : http_error)
| HttpException
| HttpResponse (status : Z) (body : string).

Inductive method : Type := PUT | GET | DELETE.

Record HttpConfigCenter : Type := MkHttpConfigCenter {
  server_ip_ : string;
  server_port_ : Z;
  base_url_ : string;
  put_base_url_ : string;
  get_base_url_ : string;
  delete_base_url_ : string;
}.

(** The server and the client, with the time they take. *)
Class HttpClient (W : Type) : Type := {
  (** server, port, method, URL and body of a request *)
  http_send : string -> Z -> method -> string -> string -> W -> http_result * W;
}.

Definition BuildUrls (server_ip : string) (server_port : Z) : HttpConfigCenter :=
  let base_url := ("http://" ++ server_ip ++ ":" ++ to_string server_port ++ "/v1")%string in
  MkHttpConfigCenter server_ip server_port base_url
    (base_url ++ "/put_binary") (base_url ++ "/get_binary") (base_url ++ "/delete").

Definition Http_LoadConfigFromEnv (env : Environment) : result (string * Z) :=
  match env "ASYSTEM_META_SERVER_IP" with
  | None => Throw "ASYSTEM_META_SERVER_IP not set in ENV"
  | Some ip =>
      match env "ASYSTEM_META_SERVER_PORT" with
      | None => Ok (ip, 0)
      | Some port =>
          match stoi port with
          | Ok p => Ok (ip, p)
          | _ => Throw "ASYSTEM_META_SERVER_PORT not set in ENV"
          end
      end
  end.

Definition new_HttpConfigCenter (env : Environment) : result HttpConfigCenter :=
  '(ip, port) ← Http_LoadConfigFromEnv env; Ok (BuildUrls ip port).

Section Http.
  Context {W : Type} `{Clock W} `{HttpClient W} (c : HttpConfigCenter).

Definition non_retryable (error : http_error) : bool :=
  match error with OtherError => false | _ => true end.

Definition NonRetryableException : string := "NonRetryableException".

(** The value and the response body, a retryable exception or a
    [NonRetryableException]. *)
Definition MakeHttpRequest (m : method) (key value : string) (w : W) : outcome (bool * string) * W :=
  let url := match m with
             | PUT => (put_base_url_ c ++ "/" ++ key)%string
             | GET => (get_base_url_ c ++ "/" ++ key)%string
             | DELETE => (delete_base_url_ c ++ "/" ++ key)%string
             end in
  let '(result, w') := http_send (server_ip_ c) (server_port_ c) m url value w in
  (match result with
   | HttpError error =>
       if non_retryable error then Fatal NonRetryableException
       else Failed "HTTP request failed for key: "
   | HttpException => Failed "HTTP request exception for key: "
   | HttpResponse status body =>
       if status =? 200 then Done (true, body)
       else if status =? 404 then Done (false, body)
       else if (500 <=? status) && (status <? 600) then Failed "Server error (status "
       else if (status =? 408) || (status =? 429) then Failed "Temporary error (status "
       else Fatal NonRetryableException
   end, w').

(** [RetryUtils::Retry] with a [TimeoutRetry], exceptions thrown on. *)
Definition http_retry {A} (fuel : nat) (retry_timeout_ms : Z) (func : W -> outcome A * W) : SR W A := fun w =>
  match new_TimeoutRetry retry_timeout_ms 1000 with
  | Ok retry =>
      match @Retry _ _ _ Timeout_policy func fuel None retry w with
      | Some (Ok (Returned a, _, w')) => (Ok a, w')
      | Some (Ok (Rethrown e, _, w')) => (Throw e, w')
      | Some (Ok (NoAttempt, _, w')) => (Undef, w')
      | Some (Throw e) => (Throw e, w)
      | _ => (Undef, w)
      end
  | Throw e => (Throw e, w)
  | Undef => (Undef, w)
  end.

(** The results of the requests other than an exception are ignored. *)
Definition Http_SetConfig (fuel : nat) (key value : string) : SR W bool :=
  _ ← http_retry fuel 30000 (MakeHttpRequest PUT key value); mret true.

Definition Http_GetConfig (fuel : nat) (key : string) : SR W (option string) :=
  '(success, response) ← http_retry fuel 10000 (MakeHttpRequest GET key EmptyString);
  mret (if (success : bool) then Some response else None).

Definition Http_RemoveConfig (fuel : nat) (key : string) : SR W bool :=
  _ ← http_retry fuel 10000 (MakeHttpRequest DELETE key EmptyString); mret true.

(** The fuel is enough for the timeouts, see [http_retry_ends]. *)
Definition HttpConfigCenter_center : ConfigCenter W := {|
  SetConfig := Http_SetConfig (Z.to_nat 30003);
  GetConfig := Http_GetConfig (Z.to_nat 30003);
  RemoveConfig := Http_RemoveConfig (Z.to_nat 30003);
  non_retryable_exception e := bool_decide (e = NonRetryableException);
|}.

End Http.
End HttpCenter.

(** ** Properties *)

Import FileCenter HttpCenter.

Lemma inside_path_of dir key : no_slash key = true -> inside dir (path_of dir key) = true.
Proof.
  intros Hk. unfold inside, path_of. rewrite <-string_app_assoc.
  assert (E : forall p s, strip_prefix p (p ++ s) = Some s).
  { induction p as [|c p IH]; intros s; [by destruct s|]. rewrite string_app_cons. cbn.
    by rewrite decide_True. }
  by rewrite E.
Qed.

(** Two nodes with the same environment share their settings: a line that one
    sets is what the other reads, and when either of them goes away all settings
    of both go with it. *)
Theorem file_center_shared (can_read can_write can_remove : string -> bool) (env : Environment)
    (fs fs1 fs2 fs3 : fsys) (path path' key value : string) :
  new_FileConfigCenter env fs = Ok (path, fs1) ->
  new_FileConfigCenter env fs1 = Ok (path', fs2) ->
  file_config_ok can_read path key value ->
  File_SetConfig can_write path key value fs2 = (Ok true, fs3) ->
  File_GetConfig can_read path' key fs3 = (Ok (Some value), fs3) /\
  forall key', no_slash key' = true -> key' <> EmptyString ->
    File_GetConfig can_read path key' (destroy_FileConfigCenter path' fs3) =
    (Ok None, destroy_FileConfigCenter path' fs3).
Proof.
  intros H1 H2 Hok Hset.
  assert (path' = path) as ->.
  { unfold new_FileConfigCenter in *. destruct (env _); [|discriminate H1].
    destruct (env "CLUSTER_NAME"%string); [|discriminate H1]. congruence. }
  split.
  - destruct (@set_get_config _ _ (FileConfigCenter_laws can_read can_write can_remove path)
      key value fs2 fs3 Hok Hset) as [fs4 H4].
    assert (fs4 = fs3) as ->; [|exact H4]. cbn in H4. unfold File_GetConfig in H4.
    repeat case_match; by injection H4.
  - intros key' Hs Hne. unfold File_GetConfig. rewrite decide_False by done.
    assert (Hf : files (destroy_FileConfigCenter path fs3) !! path_of path key' = None).
    { cbn. apply map_lookup_filter_None. right. intros x _. cbn. rewrite inside_path_of by done. done. }
    rewrite Hf. by destruct (negb _).
Qed.

Definition job_env (name : string) : option string :=
  if decide (name = "ASTATE_SHARED_PATH"%string) then Some "/shared"%string
  else if decide (name = "CLUSTER_NAME"%string) then Some "job"%string else None.

Lemma file_center_shared_witness :
  let fs := create_directories "/shared/job_ASTATE_CONFIG" (FSys ∅ ∅) in
  exists fs', File_SetConfig (fun _ => true) "/shared/job_ASTATE_CONFIG" "k" "10.0.0.7:49500" fs = (Ok true, fs') /\
    File_GetConfig (fun _ => true) "/shared/job_ASTATE_CONFIG" "k" fs' = (Ok (Some "10.0.0.7:49500"%string), fs').
Proof.
  eexists. split; [reflexivity|].
  refine (proj1 (file_center_shared (fun _ => true) (fun _ => true) (fun _ => true) job_env (FSys ∅ ∅)
           (create_directories "/shared/job_ASTATE_CONFIG" (FSys ∅ ∅))
           (create_directories "/shared/job_ASTATE_CONFIG" (FSys ∅ ∅)) _
           "/shared/job_ASTATE_CONFIG" _ _ _ _ _ _ _)).
  - reflexivity.
  - reflexivity.
  - split; [done|]. split; [done|]. vm_compute. intuition discriminate.
  - reflexivity.
Defined.

Section HttpEnds.
  Context {W : Type} `{ClockLaws W} `{HttpClient W} (c : HttpConfigCenter).

(** The outcome of an operation that is retried: the last of its attempts, all
    the others having failed. *)
Definition retried {A} (func : W -> outcome A * W) (w : W) (r : result A) : Prop :=
  exists p os p1 w1, attempts (H0 := Timeout_policy) func p w os p1 w1 /\
    Forall is_failed (removelast os) /\
    match last os with
    | Some (Done a) => r = Ok a
    | Some (Failed e) | Some (Fatal e) => r = Throw e
    | None => False
    end.

Lemma http_retry_ends {A} (fuel : nat) (t : Z) (func : W -> outcome A * W) w :
  (forall w, now w < now (func w).2) -> 0 < t <= 30000 -> 30003 <= Z.of_nat fuel ->
  retried func w (http_retry fuel t func w).1.
Proof.
  intros Ht Hr Hf. unfold http_retry, new_TimeoutRetry.
  rewrite (proj2 (Z.leb_gt t 0)) by lia. cbn [throw_if mbind result_bind Z.ltb Z.compare].
  set (p := MkTimeoutRetry t 1000 0 0 true).
  destruct (retry_loop (H1 := Timeout_laws) func Ht fuel None p w)
    as (r & os & p1 & w1 & p2 & w2 & E & Ha & Hfl & He).
  - split; cbn; lia.
  - cbn. lia.
  - cbn. lia.
  - cbn. lia.
  - rewrite E. exists p, os, p1, w1. split; [done|]. split; [done|].
    unfold retry_end in He. destruct (last os) as [[a|e|e]|] eqn:El.
    + by rewrite He.
    + by destruct He as [-> _].
    + by rewrite He.
    + destruct He as (_ & p' & w' & Hno). apply last_None in El as ->. inversion Ha; subst. discriminate Hno.
Qed.

(** The three operations of the HTTP config center end within their time: the
    server answered, or the last error is thrown.  Reading gives the body of a
    response 200 and nothing for a response 404; setting and removing report success
    for either of them. *)
Theorem http_config_ends (fuel : nat) (key value : string) (w : W) :
  (forall ip port m url body w, now w < now (http_send ip port m url body w).2) ->
  30003 <= Z.of_nat fuel ->
  (exists r, retried (MakeHttpRequest c GET key EmptyString) w r /\
     (Http_GetConfig c fuel key w).1 =
     match r with
     | Ok (true, body) => Ok (Some body)
     | Ok (false, _) => Ok None
     | Throw e => Throw e
     | Undef => Undef
     end) /\
  (exists r, retried (MakeHttpRequest c PUT key value) w r /\
     (Http_SetConfig c fuel key value w).1 =
     match r with Ok _ => Ok true | Throw e => Throw e | Undef => Undef end) /\
  (exists r, retried (MakeHttpRequest c DELETE key EmptyString) w r /\
     (Http_RemoveConfig c fuel key w).1 =
     match r with Ok _ => Ok true | Throw e => Throw e | Undef => Undef end).
Proof.
  intros Hs Hf.
  assert (Ht : forall m k v w, now w < now (MakeHttpRequest c m k v w).2).
  { intros m k v w0. unfold MakeHttpRequest.
    specialize (Hs (server_ip_ c) (server_port_ c) m
      (match m with PUT => (put_base_url_ c ++ "/" ++ k)%string | GET => (get_base_url_ c ++ "/" ++ k)%string
       | DELETE => (delete_base_url_ c ++ "/" ++ k)%string end) v w0).
    by destruct (http_send _ _ _ _ _ w0). }
  split; [|split].
  all: eexists; split; [apply (http_retry_ends fuel); [apply Ht| |done]|].
  1: instantiate (1 := 10000); lia.
  2: instantiate (1 := 30000); lia.
  3: instantiate (1 := 10000); lia.
  all: unfold Http_GetConfig, Http_SetConfig, Http_RemoveConfig, mbind, SR_bind;
    destruct (http_retry _ _ _ w) as [[[[] b]| |] w']; reflexivity.
Qed.

End HttpEnds.

(** A server that knows no key, in a world that is its time. *)
Module NotFound.
#[export] Instance clock : Clock Z := {| now := id; sleep_for d w := w + Z.max 0 d |}.
#[export] Instance clock_laws : ClockLaws Z.
Proof. constructor. intros d w. cbn. lia. Qed.
#[export] Instance client : HttpClient Z := {|
  http_send _ _ _ _ _ w := (HttpResponse 404 EmptyString, w + 1)
|}.
End NotFound.
Import NotFound.

Lemma http_config_ends_witness :
  exists r, retried (MakeHttpRequest (W := Z) (BuildUrls "meta" 80) PUT "k" "v") 0 r /\
    (Http_SetConfig (W := Z) (BuildUrls "meta" 80)
       (Z.to_nat 30003) "k" "v" 0).1 =
    match r with Ok _ => Ok true | Throw e => Throw e | Undef => Undef end.
Proof.
  refine (proj1 (proj2 (http_config_ends (W := Z) (BuildUrls "meta" 80) (Z.to_nat 30003) "k" "v" 0 _ _))).
  - intros. cbn. lia.
  - lia.
Defined.

(** Such a server accepts a setting that nobody will read. *)
Lemma http_set_not_found :
  (Http_SetConfig (W := Z) (BuildUrls "meta" 80) 1 "k" "v" 0).1 = Ok true /\
  (Http_GetConfig (W := Z) (BuildUrls "meta" 80) 1 "k" 1).1 = Ok None.
Proof. split; reflexivity. Qed.
