(* ===== verification/UtransUtils.v ===== *)
(** * Helpers of the transfer library

    utrans/utils.h, utrans/utils.c, utrans/utils_helper.h and
    utrans/utils_helper.c: alignment, packed identifiers, string helpers and
    the location of memory on NUMA nodes.  The answers of the operating
    system, of libnuma and of CUDA are arguments. *)

From S2P Require Import Prelude StringUtils.
Local Open Scope Z_scope.

(** Result codes (utrans_define.h). *)
Definition URES_SUCCESS : Z := 0.
Definition URES_ERR_INV_ARG : Z := 6.
Definition URES_ERR_NO_MEMORY : Z := 14.
Definition URES_ERR_NUMA_OPER : Z := 16.

(** ** Alignment *)

Definition align_to (addr align : Z) : Z :=
  let align := u64 (align - 1) in
  if negb (Z.land addr align =? 0) then u64 (Z.lor addr align + 1) else addr.

Definition align_ui_to (value align : Z) : Z :=
  let align := u32 (align - 1) in
  if negb (Z.land value align =? 0) then u32 (Z.lor value align + 1) else value.

Definition align_address_to (address align : Z) : Z :=
  let align := u64 (align - 1) in
  if negb (Z.land address align =? 0) then u64 (Z.lor address align + 1) else address.

Definition align_page (addr page_size : Z) : Z := Z.ldiff addr (u64 (page_size - 1)).

(** [int] arithmetic: overflow is undefined; [/] truncates. *)
Definition align_int_up (value align : Z) : result Z :=
  if (align =? 0) || negb (bool_decide (in_i32 (value + align - 1))) then Undef
  else let r := Z.quot (value + align - 1) align * align in
       if bool_decide (in_i32 r) then Ok r else Undef.

(** The alignment is a [long]; with a [uint64_t] value it is converted. *)
Definition align_uint64_up (value align : Z) : result Z :=
  let align := u64 align in
  if align =? 0 then Undef else Ok (u64 (u64 (value + align - 1) / align * align)).

(** [__builtin_clzll]: undefined for 0. *)
Definition clzll (x : Z) : result Z := if x =? 0 then Undef else Ok (63 - Z.log2 x).

(** The new size and its index; a shift by 64 is undefined. *)
Definition align_power_of_2_with_index (size : Z) : result (Z * Z) :=
  if negb (size =? 1) then
    c ← clzll (u64 (size - 1));
    let index := 64 - c in
    if index <? 64 then Ok (Z.shiftl 1 index, index) else Undef
  else Ok (size, 0).

Definition align_pow_of_two_fast (size : Z) : result Z :=
  if negb (size =? 1) then
    c ← clzll (u64 (size - 1));
    if 64 - c <? 64 then Ok (Z.shiftl 1 (64 - c)) else Undef
  else Ok 1.

(** ** Time *)

Definition time_interleave (s1 e1 s2 e2 : Z) : bool :=
  if s1 <=? s2 then s2 <=? e1 else s1 <=? e2.

(** [struct timespec] *)
Definition lib2easy_get_time_in_ms (tv_sec tv_nsec : Z) : result Z :=
  a ← chk64 (tv_sec * 1000); chk64 (a + Z.quot tv_nsec 1000000).
Definition lib2easy_get_time_in_us (tv_sec tv_nsec : Z) : result Z :=
  a ← chk64 (tv_sec * 1000000); chk64 (a + Z.quot tv_nsec 1000).
Definition lib2easy_get_time_in_ns (tv_sec tv_nsec : Z) : result Z :=
  a ← chk64 (tv_sec * 1000000000); chk64 (a + tv_nsec).

(** ** Strings *)

(** [split_ipport]: the part before the first colon and the number after it. *)
Fixpoint split_ipport (ipport prefix : string) : option (string * Z) :=
  match ipport with
  | EmptyString => None
  | String c rest =>
      if decide (c = ":"%char) then
        Some (prefix, match strto rest with
                      | Some (neg, m) => if neg : bool then - m else m
                      | None => 0 end)
      else split_ipport rest (push_back prefix c)
  end.

(** [match_patterns]: comma separated patterns; empty ones are skipped except
    for the last.  [fnmatch pattern str] is the library's match. *)
Fixpoint match_patterns_loop (fnmatch : string -> string -> bool) (str patterns start : string)
    : bool :=
  match patterns with
  | EmptyString => fnmatch start str
  | String c rest =>
      if decide (c = ","%char) then
        (if decide (start = EmptyString) then false else fnmatch start str) ||
        match_patterns_loop fnmatch str rest EmptyString
      else match_patterns_loop fnmatch str rest (push_back start c)
  end.

Definition match_patterns (fnmatch : string -> string -> bool) (str patterns : string) : bool :=
  match_patterns_loop fnmatch str patterns EmptyString.

(** [strcmp] on strings without NUL characters. *)
Fixpoint strcmp (a b : string) : Z :=
  match a, b with
  | EmptyString, EmptyString => 0
  | EmptyString, String d _ => - Z.of_nat (nat_of_ascii d)
  | String c _, EmptyString => Z.of_nat (nat_of_ascii c)
  | String c a', String d b' =>
      if decide (c = d) then strcmp a' b'
      else Z.of_nat (nat_of_ascii c) - Z.of_nat (nat_of_ascii d)
  end.

(** The inner loop of [sort_strs]: [x] is [strs[i]], the list the part after
    it; out of order strings are exchanged. *)
Fixpoint sort_inner (x : string) (l : list string) : string * list string :=
  match l with
  | [] => (x, [])
  | y :: l' =>
      if 0 <? strcmp x y then let '(m, r) := sort_inner y l' in (m, x :: r)
      else let '(m, r) := sort_inner x l' in (m, y :: r)
  end.

(** The outer loop; the fuel is the number of strings. *)
Fixpoint sort_outer (fuel : nat) (l : list string) : list string :=
  match fuel, l with
  | S fuel', x :: l' => let '(m, r) := sort_inner x l' in m :: sort_outer fuel' r
  | _, _ => l
  end.

Definition sort_strs (strs : list string) : list string := sort_outer (length strs) strs.

(** ** Identifiers *)

(** An address in host byte order and a port; the [int] port is sign extended. *)
Definition ipstr_to_uint64 (inet_pton : string -> Z) (ip_str : string) (port : Z) : Z :=
  Z.lor (u64 (Z.shiftl (inet_pton ip_str) 32)) (u64 port).

(** Address of the first interface, process id and a suffix drawn once. *)
Definition inst_suffix (tv_nsec : Z) : Z := Z.land tv_nsec (2 ^ 10 - 1).

Definition get_inst_id (ip1st pid suffix : Z) : Z :=
  Z.lor (Z.lor (u64 (Z.shiftl ip1st 32)) (u64 (Z.shiftl (Z.land pid 0x3FFFFF) 10))) suffix.

Definition get_ipbin_from_inst (inst_id : Z) : Z := u32 (Z.shiftr inst_id 32).

Definition get_pid_from_inst (inst_id : Z) : Z := Z.land (Z.shiftr inst_id 10) 0x3FFFFF.

(** ** Memory types *)

Definition UTRANS_MAX_NUM_GPUS : Z := 64.
Definition MEM_TYPE_RAM : Z := 0.
Definition MEM_TYPE_SSD : Z := 1.
Definition MEM_TYPE_VRAM_GPU0 : Z := 8.
Definition MEM_TYPE_VRAM_GPU_MAX : Z := MEM_TYPE_VRAM_GPU0 + UTRANS_MAX_NUM_GPUS.

Definition utrans_is_vram (mem_type : Z) : bool :=
  (MEM_TYPE_VRAM_GPU0 <=? mem_type) && (mem_type <? MEM_TYPE_VRAM_GPU_MAX).

Definition utrans_get_vram_gpu_id (mem_type : Z) : Z :=
  if (mem_type <? MEM_TYPE_VRAM_GPU0) || (MEM_TYPE_VRAM_GPU_MAX <=? mem_type) then -1
  else mem_type - MEM_TYPE_VRAM_GPU0.

Definition utrans_get_vram_mem_type (gpu_id : Z) : Z :=
  if (gpu_id <? 0) || (MEM_TYPE_VRAM_GPU_MAX - MEM_TYPE_VRAM_GPU0 <=? gpu_id) then -1
  else MEM_TYPE_VRAM_GPU0 + gpu_id.

Definition utrans_get_mem_type_str (mem_type : Z) : string :=
  if mem_type =? MEM_TYPE_RAM then "RAM"
  else if mem_type =? MEM_TYPE_SSD then "SSD"
  else let id := utrans_get_vram_gpu_id mem_type in
       if 0 <=? id then ("GPU" ++ to_string id)%string else "UNKNOWN".

Record mem_info : Type := MemInfo {
  mem_addr : Z;
  mem_len : Z;
  mem_type : Z;
  mem_index : Z; (* NUMA node or GPU *)
}.

#[export] Instance mem_info_eq_dec : EqDecision mem_info.
Proof. solve_decision. Defined.

(** ** Location of memory *)

(** The answer of [cudaPointerGetAttributes]; [CudaOff] without CUDA. *)
Inductive cuda_attr : Type := CudaOff | CudaError | CudaDevice (device : Z) | CudaHost.

(** The outcome of the calls of [get_memory_location]: the allocations of the
    two page arrays and of the result, and the node of each page. *)
Record locate_env : Type := LocateEnv {
  cuda_pointer : Z -> cuda_attr;
  page_size : Z; (* sysconf(_SC_PAGESIZE) *)
  malloc_pages : bool;
  malloc_infos : bool;
  move_pages : list Z -> option (list Z); (* numa_move_pages *)
}.

(** The number of regions: one more than the changes of node. *)
Fixpoint count_regions (numa_node : Z) (status : list Z) : Z :=
  match status with
  | [] => 1
  | st :: status' => if numa_node =? st then count_regions numa_node status'
                     else 1 + count_regions st status'
  end.

(** The loop that builds the regions: [page] is [pages[i]]. *)
Fixpoint locate_loop (PAGE_SIZE addr len : Z) (status : list Z) (page : Z)
    (numa_node mem_start_addr mem_len : Z) : list mem_info :=
  match status with
  | [] => [MemInfo mem_start_addr mem_len MEM_TYPE_RAM numa_node]
  | st :: status' =>
      let cur_page_size :=
        if addr + len <=? page + PAGE_SIZE then u64 (addr + len - page) else PAGE_SIZE in
      if negb (numa_node =? st) then
        MemInfo mem_start_addr mem_len MEM_TYPE_RAM numa_node ::
        locate_loop PAGE_SIZE addr len status' (page + PAGE_SIZE) st page cur_page_size
      else locate_loop PAGE_SIZE addr len status' (page + PAGE_SIZE) numa_node mem_start_addr
             (u64 (mem_len + cur_page_size))
  end.

(** The code returned and, with code 0, the regions.  The page arrays are not
    checked for null before they are written; the array of regions holds as
    many as the first loop has counted. *)
Definition get_memory_location (env : locate_env) (addr len : Z)
    : result (Z * option (list mem_info)) :=
  match cuda_pointer env addr with
  | CudaError => Ok (-1, None)
  | CudaDevice device =>
      if malloc_infos env
      then Ok (0, Some [MemInfo addr len (utrans_get_vram_mem_type device) device])
      else Ok (-2, None)
  | _ =>
      let PAGE_SIZE := page_size env in
      let aligned_addr := align_page addr PAGE_SIZE in
      let page_num := i32 (u64 (addr - aligned_addr + len + PAGE_SIZE - 1) / PAGE_SIZE) in
      if negb (malloc_pages env) then Undef else
      match move_pages env (map (fun i => aligned_addr + i * PAGE_SIZE) (seqZ 0 page_num)) with
      | None => Ok (-3, None)
      | Some [] => Undef
      | Some (st :: status) =>
          if negb (malloc_infos env) then Ok (-4, None) else
          let infos := locate_loop PAGE_SIZE addr len status (aligned_addr + PAGE_SIZE) st addr
                         (u64 (PAGE_SIZE - (addr - aligned_addr))) in
          if Z.of_nat (length infos) <=? count_regions st status then Ok (0, Some infos) else Undef
      end
  end.

(** [ram_numa_node_detect_rough]: the node with the most pages. *)

(** [pnuma_cntr[status[pg]]++] for every page; [None] for a negative status. *)
Fixpoint count_pages (status : list Z) (cntr : list Z) : result (option (list Z)) :=
  match status with
  | [] => Ok (Some cntr)
  | st :: status' =>
      if st <? 0 then Ok None else
      c ← index cntr st; cntr' ← index_set cntr st (u32 (c + 1)); count_pages status' cntr'
  end.

(** The maximum over the nodes [nn], [nn + 1], ... *)
Fixpoint max_pages (cntr : list Z) (nn numa_node max_pgnum : Z) : Z :=
  match cntr with
  | [] => numa_node
  | c :: cntr' => if max_pgnum <? c then max_pages cntr' (nn + 1) nn c
                  else max_pages cntr' (nn + 1) numa_node max_pgnum
  end.

Definition ram_numa_node_detect_rough (env : locate_env)
    (numa_available : bool) (numa_max_node : Z) (addr len : Z) (pret_not_null : bool)
    : result (Z * option Z) :=
  if (len =? 0) || (addr =? 0) || negb pret_not_null then Ok (URES_ERR_INV_ARG, None) else
  if negb numa_available then Ok (URES_SUCCESS, Some (-1)) else
  let PAGE_SIZE := page_size env in
  let addr_aligned := align_page addr PAGE_SIZE in
  let page_num := u32 (u64 (addr - addr_aligned + len + PAGE_SIZE - 1) / PAGE_SIZE) in
  if negb (malloc_pages env) then Ok (URES_ERR_NO_MEMORY, Some (-1)) else
  match move_pages env (map (fun i => addr_aligned + i * PAGE_SIZE) (seqZ 0 page_num)) with
  | None => Ok (URES_ERR_NUMA_OPER, Some (-1))
  | Some status =>
      cntr ← count_pages status (replicate (Z.to_nat (numa_max_node + 1)) 0);
      match cntr with
      | None => Ok (URES_ERR_NUMA_OPER, Some (-1))
      | Some [] => Undef
      | Some (c0 :: cntr') => Ok (URES_SUCCESS, Some (max_pages cntr' 1 0 c0))
      end
  end.

(** *** Allocation *)

(** The outcomes of the allocators, 0 for a failure. *)
Record alloc_env : Type := AllocEnv {
  ae_page_size : Z;
  numa_alloc_onnode : Z -> Z -> Z;
  posix_memalign : Z -> Z;
  malloc_vram : Z -> Z -> Z;
}.

(** The block and whether it is on the node. *)
Definition malloc_best_on_numa_node (env : alloc_env) (numa_node size : Z) : Z * bool :=
  if (0 <=? numa_node) && negb (numa_alloc_onnode env size numa_node =? 0)
  then (numa_alloc_onnode env size numa_node, true)
  else (posix_memalign env size, false).

(** The block, the new length and the new node. *)
Definition utrans_malloc (env : alloc_env) (mem_type plen pnuma_node : Z) : result (Z * Z * Z) :=
  len ← align_uint64_up plen (ae_page_size env);
  let '(mem_ptr, numa) :=
    if mem_type =? MEM_TYPE_RAM then
      let '(p, on_numa) := malloc_best_on_numa_node env pnuma_node len in
      (p, if on_numa : bool then pnuma_node else -1)
    else if utrans_is_vram mem_type then
      (malloc_vram env (utrans_get_vram_gpu_id mem_type) len, pnuma_node)
    else (0, pnuma_node) in
  Ok (mem_ptr, if negb (mem_ptr =? 0) then len else plen, numa).

(** How a block is released. *)
Inductive free_call : Type :=
| NumaFree (addr len : Z) | AlignedFree (addr : Z) | VramFree (addr : Z) | NoFree.

Definition free_best_on_numa_node (mem size : Z) (is_on_numa_node : bool) : free_call :=
  if is_on_numa_node then NumaFree mem size else AlignedFree mem.

Definition utrans_free (page_size mem_type addr len numa_node : Z) : result free_call :=
  len ← align_uint64_up len page_size;
  Ok (if negb (addr =? 0) then
        if mem_type =? MEM_TYPE_RAM then free_best_on_numa_node addr len (0 <=? numa_node)
        else if utrans_is_vram mem_type then VramFree addr else NoFree
      else NoFree).

(** ** Bits *)

Lemma land_shiftl_low a b n : 0 <= n -> 0 <= b < 2 ^ n -> Z.land (Z.shiftl a n) b = 0.
Proof.
  intros Hn Hb. apply Z.bits_inj'. intros i Hi. rewrite Z.land_spec, Z.bits_0, Z.shiftl_spec by lia.
  destruct (Z.ltb_spec i n); [by rewrite Z.testbit_neg_r by lia|].
  rewrite <- (Z.mod_small b (2 ^ n)), Z.mod_pow2_bits_high by lia. apply andb_false_r.
Qed.

(** Fields that do not overlap are combined by addition. *)
Lemma lor_shiftl_low a b n : 0 <= n -> 0 <= b < 2 ^ n -> Z.lor (Z.shiftl a n) b = a * 2 ^ n + b.
Proof.
  intros Hn Hb. rewrite <- Z.lxor_lor, <- Z.add_nocarry_lxor by (by apply land_shiftl_low).
  by rewrite Z.shiftl_mul_pow2.
Qed.

Lemma ldiff_low a n : 0 <= n -> Z.ldiff a (2 ^ n - 1) = a / 2 ^ n * 2 ^ n.
Proof.
  intros Hn. replace (2 ^ n - 1) with (Z.ones n) by (rewrite Z.ones_equiv; lia).
  rewrite Z.ldiff_ones_r, Z.shiftl_mul_pow2, Z.shiftr_div_pow2 by done. done.
Qed.

Lemma lor_low_ones a n : 0 <= n -> Z.lor a (2 ^ n - 1) = a / 2 ^ n * 2 ^ n + (2 ^ n - 1).
Proof.
  intros Hn. assert (Z.lor a (2 ^ n - 1) = Z.lor (Z.ldiff a (2 ^ n - 1)) (2 ^ n - 1)) as ->.
  { apply Z.bits_inj'. intros i Hi. rewrite !Z.lor_spec, Z.ldiff_spec.
    by destruct (Z.testbit a i), (Z.testbit (2 ^ n - 1) i). }
  rewrite ldiff_low by done. rewrite <- Z.shiftl_mul_pow2 by done.
  rewrite lor_shiftl_low by lia. by rewrite Z.shiftl_mul_pow2.
Qed.

Lemma land_low a n : 0 <= n -> Z.land a (2 ^ n - 1) = a mod 2 ^ n.
Proof.
  intros Hn. replace (2 ^ n - 1) with (Z.ones n) by (rewrite Z.ones_equiv; lia).
  by apply Z.land_ones.
Qed.

Lemma pow2_u64 n : 0 <= n < 64 -> u64 (2 ^ n - 1) = 2 ^ n - 1.
Proof.
  intros Hn. apply u64_small. unfold in_u64.
  assert (2 ^ n <= 2 ^ 63) by (apply Z.pow_le_mono_r; lia). lia.
Qed.

(** The value [align_to] computes for a power of two. *)
Lemma align_to_value addr n : 0 <= n < 64 -> in_u64 addr ->
  align_to addr (2 ^ n) =
    if addr mod 2 ^ n =? 0 then addr else u64 (addr / 2 ^ n * 2 ^ n + 2 ^ n).
Proof.
  intros Hn Ha. unfold align_to. cbn zeta. rewrite pow2_u64, land_low by lia.
  destruct (addr mod 2 ^ n =? 0); [done|]. cbn [negb]. rewrite lor_low_ones by lia. f_equal. lia.
Qed.

(** Aligning to a power of two gives the least multiple that is not smaller,
    whenever that multiple fits in 64 bits, and the page of an address is the greatest
    multiple of the page size that is not greater. *)
Theorem align_least (addr n m : Z) : 0 <= n < 64 -> in_u64 addr -> addr <= 2 ^ 64 - 2 ^ n ->
  (addr <= align_to addr (2 ^ n) /\ align_to addr (2 ^ n) mod 2 ^ n = 0 /\
   (m mod 2 ^ n = 0 -> addr <= m -> align_to addr (2 ^ n) <= m)) /\
  (align_page addr (2 ^ n) <= addr /\ align_page addr (2 ^ n) mod 2 ^ n = 0 /\
   (m mod 2 ^ n = 0 -> m <= addr -> m <= align_page addr (2 ^ n))).
Proof.
  intros Hn Ha Hmax. rewrite align_to_value by done. unfold align_page.
  rewrite pow2_u64, ldiff_low by lia. assert (0 < 2 ^ n) as Hp by (apply Z.pow_pos_nonneg; lia).
  generalize dependent (2 ^ n). intros P Hmax Hp. unfold in_u64 in Ha.
  pose proof (Z.div_mod addr P ltac:(lia)) as Hd. pose proof (Z.mod_pos_bound addr P Hp) as Hb.
  assert (Hq : addr / P * P = addr - addr mod P) by lia. rewrite Hq.
  assert (Hm : m mod P = 0 -> exists q, m = q * P).
  { exists (m / P). pose proof (Z.div_mod m P). lia. }
  assert (Hup : addr mod P <> 0 -> u64 (addr - addr mod P + P) = (addr / P + 1) * P).
  { intros. rewrite u64_small by (unfold in_u64; lia). lia. }
  split.
  - destruct (Z.eqb_spec (addr mod P) 0) as [E|E]; [split_and!; [lia|done|done]|].
    rewrite Hup by done. split_and!; [lia|by apply Z.mod_mul; lia|].
    intros Hm0 Hle. destruct (Hm Hm0) as [q ->]. assert (addr / P < q) by nia. nia.
  - rewrite <- Hq. split_and!; [lia|by apply Z.mod_mul; lia|].
    intros Hm0 Hle. destruct (Hm Hm0) as [q ->]. assert (q <= addr / P) by nia. nia.
Qed.

Lemma align_least_witness :
  (5000 <= align_to 5000 (2 ^ 12) /\ align_to 5000 (2 ^ 12) mod 2 ^ 12 = 0 /\
   (12288 mod 2 ^ 12 = 0 -> 5000 <= 12288 -> align_to 5000 (2 ^ 12) <= 12288)) /\
  (align_page 5000 (2 ^ 12) <= 5000 /\ align_page 5000 (2 ^ 12) mod 2 ^ 12 = 0 /\
   (12288 mod 2 ^ 12 = 0 -> 12288 <= 5000 -> 12288 <= align_page 5000 (2 ^ 12))).
Proof. apply (align_least 5000 12 12288); unfold in_u64; lia. Defined.

(** The address and the process id packed in an instance id are read back from it,
    the process id up to its 22 low bits. *)
Theorem inst_id_roundtrip (ip1st pid suffix : Z) :
  in_u32 ip1st -> 0 <= pid -> 0 <= suffix < 2 ^ 10 ->
  get_ipbin_from_inst (get_inst_id ip1st pid suffix) = ip1st /\
  get_pid_from_inst (get_inst_id ip1st pid suffix) = pid mod 2 ^ 22.
Proof.
  intros Hip Hpid Hs. unfold get_ipbin_from_inst, get_pid_from_inst, get_inst_id, in_u32 in *.
  change 0x3FFFFF with (2 ^ 22 - 1). rewrite !land_low by lia.
  pose proof (Z.mod_pos_bound pid (2 ^ 22)) as Hp.
  rewrite (u64_small (Z.shiftl (pid mod 2 ^ 22) 10))
    by (unfold in_u64; rewrite Z.shiftl_mul_pow2 by lia; lia).
  rewrite (u64_small (Z.shiftl ip1st 32)) by (unfold in_u64; rewrite Z.shiftl_mul_pow2 by lia; lia).
  rewrite lor_shiftl_low by (rewrite ?Z.shiftl_mul_pow2 by lia; lia).
  rewrite Z.shiftl_mul_pow2 by lia.
  assert (E : Z.lor (ip1st * 2 ^ 32 + pid mod 2 ^ 22 * 2 ^ 10) suffix =
              (ip1st * 2 ^ 22 + pid mod 2 ^ 22) * 2 ^ 10 + suffix).
  { rewrite <- (lor_shiftl_low (ip1st * 2 ^ 22 + pid mod 2 ^ 22) suffix 10) by lia. f_equal. rewrite Z.shiftl_mul_pow2 by lia. lia. }
  rewrite E, !Z.shiftr_div_pow2 by lia. split.
  - replace ((ip1st * 2 ^ 22 + pid mod 2 ^ 22) * 2 ^ 10 + suffix)
      with (ip1st * 2 ^ 32 + (pid mod 2 ^ 22 * 2 ^ 10 + suffix)) by lia.
    rewrite Z.div_add_l, Z.div_small by lia. rewrite Z.add_0_r. by apply u32_small.
  - rewrite Z.div_add_l, Z.div_small by lia. rewrite Z.add_0_r, Z.add_comm, Z.mod_add by lia.
    apply Z.mod_small. lia.
Qed.

Lemma inst_id_roundtrip_witness :
  get_ipbin_from_inst (get_inst_id 0x0A000001 5000000 77) = 0x0A000001 /\
  get_pid_from_inst (get_inst_id 0x0A000001 5000000 77) = 5000000 mod 2 ^ 22.
Proof. apply inst_id_roundtrip; unfold in_u32; lia. Defined.

(** ** Sorting *)

(** A C string: no NUL inside. *)
Definition c_string (s : string) : Prop := all_chars (fun c => c <> zero) s.

Lemma code_pos c : c <> zero -> 0 < Z.of_nat (nat_of_ascii c).
Proof.
  intros Hc. destruct (nat_of_ascii c) eqn:E; [|lia]. exfalso. apply Hc.
  rewrite <- (ascii_nat_embedding c), E. done.
Qed.

Lemma code_inj c d : Z.of_nat (nat_of_ascii c) = Z.of_nat (nat_of_ascii d) -> c = d.
Proof.
  intros E. apply Nat2Z.inj in E. rewrite <- (ascii_nat_embedding c), E. apply ascii_nat_embedding.
Qed.

Lemma strcmp_antisym a b : c_string a -> c_string b -> strcmp b a = - strcmp a b.
Proof.
  revert b. induction a as [|c a IH]; intros [|d b] Ha Hb; cbn [strcmp]; try lia.
  destruct Ha, Hb. destruct (decide (c = d)) as [->|].
  - rewrite decide_True by done. by apply IH.
  - rewrite decide_False by done. lia.
Qed.

Lemma strcmp_trans a b c : c_string a -> c_string b -> c_string c ->
  strcmp a b <= 0 -> strcmp b c <= 0 -> strcmp a c <= 0.
Proof.
  revert b c. induction a as [|x a IH]; intros [|y b] [|z c] Ha Hb Hc; cbn [strcmp] in *; try lia.
  - destruct Ha as [Hx%code_pos _]. lia.
  - destruct Hb as [Hy%code_pos _]. lia.
  - destruct Ha as [Hx Ha], Hb as [Hy Hb], Hc as [Hz Hc].
    repeat case_decide; subst; try done; try lia; [eauto|].
    intros H1 H2. exfalso. match goal with Hne : ?u <> ?v |- _ => apply Hne, code_inj; lia end.
Qed.

Lemma sort_inner_perm x l : let '(m, r) := sort_inner x l in m :: r ≡ₚ x :: l.
Proof.
  revert x. induction l as [|y l IH]; intros x; cbn [sort_inner]; [done|].
  destruct (0 <? strcmp x y).
  - specialize (IH y). destruct (sort_inner y l) as [m r]. rewrite perm_swap, IH. done.
  - specialize (IH x). destruct (sort_inner x l) as [m r]. rewrite perm_swap, IH. apply perm_swap.
Qed.

Lemma sort_inner_min x l : c_string x -> Forall c_string l ->
  let '(m, r) := sort_inner x l in strcmp m x <= 0 /\ Forall (fun y => strcmp m y <= 0) r.
Proof.
  intros Hx Hl. revert x Hx. induction Hl as [|y l Hy Hl IH]; intros x Hx; cbn [sort_inner].
  - split; [|done]. pose proof (strcmp_antisym x x Hx Hx). lia.
  - destruct (Z.ltb_spec 0 (strcmp x y)) as [Hlt|Hle].
    + specialize (IH y Hy). pose proof (sort_inner_perm y l) as Hp.
      destruct (sort_inner y l) as [m r]. destruct IH as [Hm Hr].
      assert (Hmc : Forall c_string (m :: r)) by (rewrite Hp; by constructor).
      apply Forall_cons in Hmc as [Hmc _]. pose proof (strcmp_antisym x y Hx Hy) as Ha.
      assert (strcmp m x <= 0) by (eapply (strcmp_trans m y x); auto; lia).
      split; [done|]. by constructor.
    + specialize (IH x Hx). pose proof (sort_inner_perm x l) as Hp.
      destruct (sort_inner x l) as [m r]. destruct IH as [Hm Hr].
      assert (Hmc : Forall c_string (m :: r)) by (rewrite Hp; by constructor).
      apply Forall_cons in Hmc as [Hmc _].
      split; [done|]. constructor; [|done]. by eapply (strcmp_trans m x y).
Qed.

Lemma sort_outer_correct fuel l : (length l <= fuel)%nat -> Forall c_string l ->
  sort_outer fuel l ≡ₚ l /\ StronglySorted (fun a b => strcmp a b <= 0) (sort_outer fuel l).
Proof.
  revert l. induction fuel as [|fuel IH]; intros [|x l] Hlen Hl; cbn [sort_outer length] in *;
    try (split; [done|apply SSorted_nil]); [lia|].
  apply Forall_cons in Hl as [Hx Hl]. pose proof (sort_inner_perm x l) as Hp.
  pose proof (sort_inner_min x l Hx Hl) as Hm. destruct (sort_inner x l) as [m r].
  assert (Hmr : Forall c_string (m :: r)) by (rewrite Hp; by constructor).
  apply Forall_cons in Hmr as [Hmc Hrc]. destruct Hm as [_ Hr].
  apply Permutation_length in Hp as Hpl. cbn in Hpl.
  destruct (IH r) as [Hp' Hs]; [lia|done|]. split.
  - by rewrite Hp', Hp.
  - constructor; [done|]. by rewrite Hp'.
Qed.

(** The host's addresses are sorted: the result is a permutation of the strings in
    which no string comes after a greater one. *)
Theorem sort_strs_correct (strs : list string) : Forall c_string strs ->
  sort_strs strs ≡ₚ strs /\ StronglySorted (fun a b => strcmp a b <= 0) (sort_strs strs).
Proof. apply sort_outer_correct. lia. Qed.

Lemma sort_strs_correct_witness :
  sort_strs ["10.0.0.2"; "10.0.0.1"; "1"] ≡ₚ ["10.0.0.2"; "10.0.0.1"; "1"] /\
  StronglySorted (fun a b => strcmp a b <= 0) (sort_strs ["10.0.0.2"; "10.0.0.1"; "1"]).
Proof. apply sort_strs_correct. repeat constructor; discriminate. Defined.

(** ** Regions *)

(** The regions follow one another from [start] to [stop]; neighbours are on
    different nodes, and [node x] is the node of every byte [x]. *)
Fixpoint tiles (node : Z -> Z) (start stop : Z) (infos : list mem_info) : Prop :=
  match infos with
  | [] => False
  | i :: infos' =>
      mem_addr i = start /\ 0 < mem_len i /\ mem_type i = MEM_TYPE_RAM /\
      (forall x, start <= x < start + mem_len i -> node x = mem_index i) /\
      match infos' with
      | [] => start + mem_len i = stop
      | j :: _ => mem_index i <> mem_index j /\ tiles node (start + mem_len i) stop infos'
      end
  end.

Lemma locate_loop_tiles node PAGE addr len status : 0 < PAGE -> 0 <= addr -> addr + len < 2 ^ 64 ->
  forall page numa start mlen,
  0 <= start -> 0 < mlen -> start + mlen = page \/ status = [] /\ start + mlen = addr + len ->
  (status <> [] -> page + (Z.of_nat (length status) - 1) * PAGE < addr + len <=
                   page + Z.of_nat (length status) * PAGE) ->
  (status = [] -> start + mlen = addr + len) ->
  (forall x, start <= x < start + mlen -> node x = numa) ->
  (forall j st x, status !! j = Some st ->
     page + Z.of_nat j * PAGE <= x < page + (Z.of_nat j + 1) * PAGE -> node x = st) ->
  let infos := locate_loop PAGE addr len status page numa start mlen in
  tiles node start (addr + len) infos /\
  (exists i rest, infos = i :: rest /\ mem_index i = numa) /\
  Z.of_nat (length infos) = count_regions numa status.
Proof.
  intros HP Ha Hmax. induction status as [|st status IH];
    intros page numa start mlen Hs Hm Hpage Hstop Hend Hnode Hnodes; cbn zeta; cbn [locate_loop count_regions].
  - split_and!; [|eauto|done]. cbn. split_and!; auto.
  - destruct Hpage as [Hpage|[? _]]; [|done]. specialize (Hstop ltac:(done)). cbn [length] in Hstop.
    set (cur := if addr + len <=? page + PAGE then u64 (addr + len - page) else PAGE).
    assert (Hcur : (status = [] -> cur = addr + len - page) /\ (status <> [] -> cur = PAGE) /\
                   0 < cur <= PAGE /\ page + cur <= addr + len).
    { unfold cur. destruct (Z.leb_spec (addr + len) (page + PAGE)) as [Hl|Hl].
      - assert (status = []) as -> by (destruct status; [done|cbn [length] in *; nia]).
        rewrite u64_small by (unfold in_u64; lia). cbn in Hstop. split_and!; [done|done|lia..].
      - assert (status <> []) by (intros ->; cbn in Hstop; lia). split_and!; try done; lia. }
    destruct Hcur as (Hc1 & Hc2 & Hc3 & Hc4).
    assert (Hst : forall x, page <= x < page + PAGE -> node x = st).
    { intros x Hx. apply (Hnodes 0%nat st); [done|]. lia. }
    assert (Hnext : forall j st' x, status !! j = Some st' ->
      page + PAGE + Z.of_nat j * PAGE <= x < page + PAGE + (Z.of_nat j + 1) * PAGE -> node x = st').
    { intros j st' x Hj Hx. apply (Hnodes (S j) st'); [done|]. lia. }
    assert (Hrange : status <> [] -> page + PAGE + (Z.of_nat (length status) - 1) * PAGE < addr + len
                       <= page + PAGE + Z.of_nat (length status) * PAGE) by lia.
    destruct (Z.eqb_spec numa st) as [->|Hne]; cbn [negb].
    + rewrite u64_small by (unfold in_u64; lia).
      destruct (IH (page + PAGE) st start (mlen + cur)) as (H1 & H2 & H3); auto; try lia.
      * destruct (decide (status = [])); [right; split; [done|]; rewrite Hc1 by done; lia|].
        left. rewrite Hc2 by done. lia.
      * intros E. rewrite Hc1 by done. lia.
      * intros x Hx. destruct (decide (x < start + mlen)); [apply Hnode|apply Hst]; lia.
    + destruct (IH (page + PAGE) st page cur) as (H1 & (i & rest & H2 & H2') & H3); auto; try lia.
      * destruct (decide (status = [])); [right; split; [done|]; rewrite Hc1 by done; lia|].
        left. rewrite Hc2 by done. lia.
      * intros E. rewrite Hc1 by done. lia.
      * intros x Hx. apply Hst. lia.
      * cbn zeta. fold cur. rewrite H2 in *. split_and!; [|eauto|cbn [length] in *; lia].
        refine (conj eq_refl (conj Hm (conj eq_refl (conj Hnode (conj _ _))))).
        { cbn. congruence. }
        cbn [mem_len]. by rewrite Hpage.
Qed.

(** A query of ordinary memory for which the system answers with the node of
    every page. *)
Record locate_ok (env : locate_env) (addr len n : Z) (status : list Z) : Prop := {
  lok_cuda : cuda_pointer env addr = CudaOff \/ cuda_pointer env addr = CudaHost;
  lok_page : page_size env = 2 ^ n /\ 0 < n < 31;
  lok_range : 0 <= addr /\ 0 < len /\ addr + len + 2 ^ n < 2 ^ 64;
  lok_pages : Z.of_nat (length status) < 2 ^ 31;
  lok_malloc : malloc_pages env = true /\ malloc_infos env = true;
  lok_move : move_pages env (map (fun i => addr / 2 ^ n * 2 ^ n + i * 2 ^ n)
                               (seqZ 0 (Z.of_nat (length status)))) = Some status;
  lok_length : Z.of_nat (length status) = (addr mod 2 ^ n + len + 2 ^ n - 1) / 2 ^ n;
}.

Lemma locate_ok_call env addr len n status : locate_ok env addr len n status ->
  exists st rest, status = st :: rest /\
  let infos := locate_loop (2 ^ n) addr len rest (addr / 2 ^ n * 2 ^ n + 2 ^ n) st addr
                 (2 ^ n - addr mod 2 ^ n) in
  get_memory_location env addr len =
    if Z.of_nat (length infos) <=? count_regions st rest then Ok (0, Some infos) else Undef.
Proof.
  intros [Hc [Hp Hn] (Ha & Hl & Ht) Hpg [Hm1 Hm2] Hmv Hlen].
  assert (0 < 2 ^ n) as H2 by (apply Z.pow_pos_nonneg; lia).
  pose proof (Z.div_mod addr (2 ^ n)) as Hd. pose proof (Z.mod_pos_bound addr (2 ^ n) H2) as Hmod.
  pose proof (Z.mod_le addr (2 ^ n) Ha H2) as Hle.
  assert (Halign : align_page addr (2 ^ n) = addr / 2 ^ n * 2 ^ n).
  { unfold align_page. rewrite pow2_u64, ldiff_low by lia. done. }
  assert (Hoff : addr - addr / 2 ^ n * 2 ^ n = addr mod 2 ^ n) by lia.
  destruct status as [|st rest].
  { exfalso. cbn in Hlen. assert (1 <= (addr mod 2 ^ n + len + 2 ^ n - 1) / 2 ^ n); [|lia].
    apply Z.div_le_lower_bound; lia. }
  exists st, rest. split; [done|]. cbn zeta.
  unfold get_memory_location. rewrite Hp, Halign, Hoff, Hm1, Hm2. cbn [negb].
  rewrite (u64_small (addr mod 2 ^ n + len + 2 ^ n - 1)) by (unfold in_u64; lia).
  rewrite <- Hlen, i32_small by (unfold in_i32; lia). rewrite Hmv.
  rewrite (u64_small (2 ^ n - addr mod 2 ^ n)) by (unfold in_u64; lia).
  by destruct Hc as [-> | ->].
Qed.

(** For memory that spans at least two pages, the regions returned tile exactly the
    memory asked for, in order; neighbours are on different nodes, every byte is in a
    region of the node of its page, and the array of regions is never overrun. *)
Theorem memory_location_tiles env addr len n status : locate_ok env addr len n status ->
  2 ^ n < addr mod 2 ^ n + len ->
  exists infos, get_memory_location env addr len = Ok (0, Some infos) /\
    tiles (fun x => nth (Z.to_nat ((x - addr / 2 ^ n * 2 ^ n) / 2 ^ n)) status (-1))
      addr (addr + len) infos.
Proof.
  intros Hok Hspan. destruct (locate_ok_call _ _ _ _ _ Hok) as (st & rest & -> & Hcall).
  destruct Hok as [_ [_ Hn] (Ha & Hl & Ht) _ _ _ Hlen]. cbn zeta in Hcall.
  assert (0 < 2 ^ n) as H2 by (apply Z.pow_pos_nonneg; lia).
  pose proof (Z.div_mod addr (2 ^ n)) as Hd. pose proof (Z.mod_pos_bound addr (2 ^ n) H2) as Hmod.
  set (A := addr / 2 ^ n * 2 ^ n) in *. set (P := 2 ^ n) in *.
  assert (Hpages : A + (Z.of_nat (length (st :: rest)) - 1) * P < addr + len <=
                   A + Z.of_nat (length (st :: rest)) * P).
  { rewrite Hlen. pose proof (Z.div_mod (addr mod P + len + P - 1) P).
    pose proof (Z.mod_pos_bound (addr mod P + len + P - 1) P H2). unfold A in *. nia. }
  cbn [length] in Hpages.
  destruct (locate_loop_tiles (fun x => nth (Z.to_nat ((x - A) / P)) (st :: rest) (-1)) P addr len
    rest H2 Ha ltac:(lia) (A + P) st addr (P - addr mod P) Ha ltac:(lia)) as (H3 & _ & H4).
  - left. unfold A. lia.
  - intros _. lia.
  - intros ->. cbn in Hpages. exfalso. unfold A in *. lia.
  - intros x Hx. assert ((x - A) / P = 0) as -> by (apply Z.div_small; unfold A in *; lia). done.
  - intros j st' x Hj Hx. assert ((x - A) / P = Z.of_nat (S j)) as ->.
    { symmetry. apply Z.div_unique with (r := x - A - P * Z.of_nat (S j)); lia. }
    rewrite Nat2Z.id. cbn. by apply nth_lookup_Some.
  - rewrite Hcall, H4, Z.leb_refl. eauto.
Qed.

(** Memory whose pages from 12288 on are on node 1. *)
Definition two_nodes : locate_env :=
  LocateEnv (fun _ => CudaOff) 4096 true true
    (fun pages => Some (map (fun p => if p <? 12288 then 0 else 1) pages)).

Lemma memory_location_tiles_witness :
  exists infos, get_memory_location two_nodes 5000 10000 = Ok (0, Some infos) /\
    tiles (fun x => nth (Z.to_nat ((x - 5000 / 2 ^ 12 * 2 ^ 12) / 2 ^ 12)) [0; 0; 1] (-1))
      5000 (5000 + 10000) infos.
Proof.
  apply (memory_location_tiles two_nodes 5000 10000 12 [0; 0; 1]); [|reflexivity].
  split; [by left| |split_and!; vm_compute; congruence|reflexivity|done|reflexivity|reflexivity].
  split; [reflexivity|]. split; reflexivity.
Defined.

(** For memory inside of one page the region returned reaches to the end of the
    page: it is longer than the memory asked for unless that ends with the page. *)
Theorem memory_location_single_page env addr len n status : locate_ok env addr len n status ->
  addr mod 2 ^ n + len <= 2 ^ n ->
  exists st, get_memory_location env addr len =
    Ok (0, Some [MemInfo addr (2 ^ n - addr mod 2 ^ n) MEM_TYPE_RAM st]) /\
    (addr mod 2 ^ n + len < 2 ^ n -> len < 2 ^ n - addr mod 2 ^ n).
Proof.
  intros Hok Hin. destruct (locate_ok_call _ _ _ _ _ Hok) as (st & rest & -> & Hcall).
  destruct Hok as [_ [_ Hn] (Ha & Hl & Ht) _ _ _ Hlen].
  assert (0 < 2 ^ n) as H2 by (apply Z.pow_pos_nonneg; lia).
  assert ((addr mod 2 ^ n + len + 2 ^ n - 1) / 2 ^ n < 2) by (apply Z.div_lt_upper_bound; lia).
  destruct rest; [|cbn [length] in Hlen; lia]. exists st. split; [exact Hcall|lia].
Qed.

Lemma memory_location_single_page_witness :
  exists st, get_memory_location two_nodes 5000 100 =
    Ok (0, Some [MemInfo 5000 (2 ^ 12 - 5000 mod 2 ^ 12) MEM_TYPE_RAM st]) /\
    (5000 mod 2 ^ 12 + 100 < 2 ^ 12 -> 100 < 2 ^ 12 - 5000 mod 2 ^ 12).
Proof.
  apply (memory_location_single_page two_nodes 5000 100 12 [0]); [|vm_compute; congruence].
  split; [by left| |split_and!; vm_compute; congruence|reflexivity|done|reflexivity|reflexivity].
  split; [reflexivity|]. split; reflexivity.
Defined.
