(* ===== verification/HostNet.v ===== *)
(** * The addresses of a host

    The network half of utrans/utils_helper.c: IPv4 addresses as text and as
    numbers, the block of memory in which [get_local_ips] returns the addresses
    of the host, the instance id made of the first of them, and the wrappers of
    fcntl and epoll.  The block is modelled byte by byte; a read of a byte that
    was not written, or outside of the block, is undefined.

    The theorems show that text and number of an address determine each other,
    that [get_local_ips] stays within its block and returns every address where
    its pointers say, sorted, and which address the instance id has. *)

From S2P Require Import Prelude StateResult StringUtils UtransUtils.
Local Open Scope Z_scope.

(** ** IPv4 addresses *)

(** [inet_ntop(AF_INET, ...)] of an address in host byte order. *)
Definition uint_to_ipstr (ip_bin : Z) : string :=
  (to_string (ip_bin / 2 ^ 24 mod 256) ++ "." ++ to_string (ip_bin / 2 ^ 16 mod 256) ++ "." ++
   to_string (ip_bin / 2 ^ 8 mod 256) ++ "." ++ to_string (ip_bin mod 256))%string.

(** [inet_pton(AF_INET, ...)]: four numbers up to 255 without leading zeros.
    [parts] are those read, [cur] the one that is being read. *)
Definition pton_digit (cur : option Z) (d : Z) : option Z :=
  match cur with
  | None => Some d
  | Some v => if v =? 0 then None else if 255 <? v * 10 + d then None else Some (v * 10 + d)
  end.

Fixpoint pton (s : string) (parts : list Z) (cur : option Z) : option Z :=
  match s with
  | EmptyString =>
      match parts, cur with
      | [a; b; c], Some d => Some (((a * 256 + b) * 256 + c) * 256 + d)
      | _, _ => None
      end
  | String ch s' =>
      if is_digit ch then
        match pton_digit cur (digit_value ch) with Some v => pton s' parts (Some v) | None => None end
      else if decide (ch = "."%char) then
        match cur with
        | Some v => if (3 <=? length parts)%nat then None else pton s' (parts ++ [v]) None
        | None => None
        end
      else None
  end.

Definition inet_pton4 (s : string) : option Z := pton s [] None.

(** The result of [inet_pton] is not looked at: for other texts the number is
    that of an uninitialised variable. *)
Definition ipstr_to_uint (ip_str : string) : result Z :=
  match inet_pton4 ip_str with Some ip => Ok ip | None => Undef end.

(** [sin_family], [sin_port] and the address; [sin_port] has 16 bits. *)
Record sockaddr_in : Type := MkSockaddrIn { sin_family : Z; sin_port : Z; sin_addr : Z }.
Definition AF_INET : Z := 2.

(** The length of the address and the address. *)
Definition pack_ipv4_addr (addr : string) (port : Z) : Z * sockaddr_in :=
  match inet_pton4 addr with
  | Some ip => (16, MkSockaddrIn AF_INET (port mod 2 ^ 16) ip)
  | None => (-1, MkSockaddrIn AF_INET (port mod 2 ^ 16) 0)
  end.

(** *** Lemmas *)

(** Reading the digits of one number. *)
Fixpoint read_octet (s : string) (cur : option Z) : option (option Z) :=
  match s with
  | EmptyString => Some cur
  | String ch s' =>
      if is_digit ch then
        match pton_digit cur (digit_value ch) with Some v => read_octet s' (Some v) | None => None end
      else None
  end.

Lemma pton_octet s rest parts cur v : read_octet s cur = Some v -> pton (s ++ rest) parts cur = pton rest parts v.
Proof.
  revert cur. induction s as [|ch s IH]; intros cur E; [by injection E as ->|]. rewrite string_app_cons. cbn in *.
  destruct (is_digit ch); [|done]. destruct (pton_digit cur _); [by apply IH|done].
Qed.

Lemma octet_read v : 0 <= v < 256 -> read_octet (to_string v) None = Some (Some v).
Proof.
  intros Hv. assert (Hall : forallb (fun v => bool_decide (read_octet (to_string v) None = Some (Some v))) (seqZ 0 256) = true)
    by (vm_compute; reflexivity).
  rewrite forallb_forall in Hall. specialize (Hall v ltac:(apply list_elem_of_In, elem_of_seqZ; lia)). by apply bool_decide_eq_true in Hall.
Qed.

(** The text of a number with one more digit. *)
Lemma digit_appended v d : 0 < v -> 0 <= d < 10 -> v * 10 + d <= 255 -> to_string (v * 10 + d) = (to_string v ++ to_string d)%string.
Proof.
  intros Hv Hd Hm.
  assert (Hall : forallb (fun v => forallb (fun d => bool_decide (to_string (v * 10 + d) = (to_string v ++ to_string d)%string)) (seqZ 0 10))
                   (seqZ 1 25) = true) by (vm_compute; reflexivity).
  rewrite forallb_forall in Hall. specialize (Hall v ltac:(apply list_elem_of_In, elem_of_seqZ; lia)). rewrite forallb_forall in Hall.
  specialize (Hall d ltac:(apply list_elem_of_In, elem_of_seqZ; lia)). by apply bool_decide_eq_true in Hall.
Qed.

Lemma digit_char ch : is_digit ch = true -> 0 <= digit_value ch < 10 /\
  String ch EmptyString = to_string (digit_value ch).
Proof. destruct ch as [[] [] [] [] [] [] [] []]; intros E; try discriminate E; vm_compute; done. Qed.

(** The text that was read. *)
Definition read_text (parts : list Z) (cur : option Z) : string :=
  foldr (fun v acc => to_string v ++ "." ++ acc)%string (match cur with Some v => to_string v | None => EmptyString end) parts.

Lemma read_text_app parts v cur : read_text (parts ++ [v]) cur = (read_text parts (Some v) ++ "." ++ read_text [] cur)%string.
Proof.
  unfold read_text. rewrite foldr_app. cbn [foldr]. induction parts as [|p parts IH]; [done|]. cbn [foldr]. rewrite IH.
  by rewrite !string_app_assoc.
Qed.

Lemma read_text_digit parts v d : 0 < v -> 0 <= d < 10 -> v * 10 + d <= 255 ->
  read_text parts (Some (v * 10 + d)) = (read_text parts (Some v) ++ to_string d)%string.
Proof.
  intros. unfold read_text. rewrite digit_appended by done. induction parts as [|p parts IH]; [done|]. cbn [foldr]. rewrite IH.
  by rewrite !string_app_assoc.
Qed.

Lemma octets_text a b c d : 0 <= a < 256 -> 0 <= b < 256 -> 0 <= c < 256 -> 0 <= d < 256 ->
  uint_to_ipstr (((a * 256 + b) * 256 + c) * 256 + d) = read_text [a; b; c] (Some d).
Proof.
  intros Ha Hb Hc Hd. unfold uint_to_ipstr, read_text. cbn [foldr]. set (n := ((a * 256 + b) * 256 + c) * 256 + d).
  change (2 ^ 24) with (256 * 256 * 256). change (2 ^ 16) with (256 * 256). change (2 ^ 8) with 256.
  replace (n mod 256) with d by (unfold n; apply (Z.mod_unique _ _ ((a * 256 + b) * 256 + c)); lia).
  replace (n / 256 mod 256) with c.
  2: { unfold n. rewrite Z.div_add_l, (Z.div_small d) by lia. apply (Z.mod_unique _ _ (a * 256 + b)); lia. }
  replace (n / (256 * 256) mod 256) with b.
  2: { rewrite <- Z.div_div by lia. unfold n. rewrite Z.div_add_l, (Z.div_small d) by lia. rewrite Z.add_0_r.
       rewrite Z.div_add_l, (Z.div_small c) by lia. apply (Z.mod_unique _ _ a); lia. }
  replace (n / (256 * 256 * 256) mod 256) with a; [done|].
  rewrite <- !Z.div_div by lia. unfold n. rewrite Z.div_add_l, (Z.div_small d) by lia. rewrite Z.add_0_r.
  rewrite Z.div_add_l, (Z.div_small c) by lia. rewrite Z.add_0_r. rewrite Z.div_add_l, (Z.div_small b) by lia.
  rewrite Z.mod_small; lia.
Qed.

Definition octet (v : Z) : Prop := 0 <= v < 256.

(** A text that is accepted is the text of the number it gives. *)
Lemma pton_text s : forall parts cur ip, Forall octet parts -> (forall v, cur = Some v -> octet v) ->
  pton s parts cur = Some ip -> in_u32 ip /\ uint_to_ipstr ip = (read_text parts cur ++ s)%string.
Proof.
  unfold octet, in_u32. induction s as [|ch s IH]; intros parts cur ip Hp Hc E; cbn [pton] in E.
  - destruct parts as [|a [|b [|c [|]]]]; try done. destruct cur as [d|]; [|done]. injection E as <-.
    rewrite !Forall_cons in Hp. destruct Hp as (Ha & Hb & Hc' & _). specialize (Hc d eq_refl).
    split; [lia|]. rewrite string_app_nil. by apply octets_text.
  - destruct (is_digit ch) eqn:Ed.
    + destruct (digit_char ch Ed) as [Hd Ht]. destruct (pton_digit cur (digit_value ch)) as [v|] eqn:Ev; [|done].
      assert (octet v /\ read_text parts (Some v) = (read_text parts cur ++ String ch EmptyString)%string) as [Hv Htext].
      { unfold octet. destruct cur as [u|]; cbn in Ev.
        - specialize (Hc u eq_refl). destruct (Z.eqb_spec u 0); [done|]. destruct (Z.ltb_spec 255 (u * 10 + digit_value ch)); [done|].
          injection Ev as <-. split; [lia|]. rewrite Ht. apply read_text_digit; lia.
        - injection Ev as <-. split; [lia|]. rewrite Ht. unfold read_text. clear. induction parts as [|p l IH]; [done|].
          cbn [foldr]. rewrite IH. by rewrite !string_app_assoc. }
      destruct (IH parts (Some v) ip Hp) as [Hip ->]; [by intros ? [= <-]|done|]. split; [done|]. by rewrite Htext, string_app_assoc.
    + destruct (decide (ch = "."%char)) as [->|]; [|done]. destruct cur as [v|]; [|done].
      destruct (3 <=? length parts)%nat; [done|]. specialize (Hc v eq_refl).
      destruct (IH (parts ++ [v]) None ip) as [Hip ->]; [by apply Forall_app_2; [done|constructor]|done|done|].
      split; [done|]. rewrite read_text_app. by rewrite !string_app_assoc.
Qed.

Lemma pton_dot s parts v : (length parts < 3)%nat -> pton ("." ++ s)%string parts (Some v) = pton s (parts ++ [v]) None.
Proof. intros Hl. destruct parts as [|a [|b [|c l]]]; [reflexivity..|]. cbn in Hl. lia. Qed.

(** Addresses as text and as numbers determine each other: the text of a 32-bit
    number is read as that number, and a text that is accepted is the text of
    the number that is read. *)
Theorem ipv4_roundtrip (ip : Z) (s : string) :
  (in_u32 ip -> ipstr_to_uint (uint_to_ipstr ip) = Ok ip) /\
  (ipstr_to_uint s = Ok ip -> in_u32 ip /\ uint_to_ipstr ip = s).
Proof.
  split.
  - intros Hip. unfold in_u32 in Hip. set (a := ip / 2 ^ 24 mod 256). set (b := ip / 2 ^ 16 mod 256). set (c := ip / 2 ^ 8 mod 256).
    set (d := ip mod 256).
    assert (0 <= a < 256 /\ 0 <= b < 256 /\ 0 <= c < 256 /\ 0 <= d < 256) as (Ha & Hb & Hc & Hd)
      by (split_and!; apply Z.mod_pos_bound; lia).
    unfold ipstr_to_uint, inet_pton4, uint_to_ipstr. fold a b c d.
    rewrite (pton_octet _ _ _ _ _ (octet_read a Ha)), pton_dot by (cbn; lia).
    rewrite (pton_octet _ _ _ _ _ (octet_read b Hb)), pton_dot by (cbn; lia).
    rewrite (pton_octet _ _ _ _ _ (octet_read c Hc)), pton_dot by (cbn; lia).
    rewrite <- (string_app_nil (to_string d)), (pton_octet _ _ _ _ _ (octet_read d Hd)). cbn. f_equal.
    unfold a, b, c, d. rewrite (Z.mod_small (ip / 2 ^ 24)) by (split; [apply Z.div_pos; lia|apply Z.div_lt_upper_bound; lia]).
    change (2 ^ 24) with (256 * 256 * 256). change (2 ^ 16) with (256 * 256). change (2 ^ 8) with 256. rewrite <- !Z.div_div by lia.
    pose proof (Z.div_mod ip 256). pose proof (Z.div_mod (ip / 256) 256). pose proof (Z.div_mod (ip / 256 / 256) 256). lia.
  - unfold ipstr_to_uint, inet_pton4. destruct (pton s [] None) as [n|] eqn:E; [|done]. intros [= ->].
    by apply (pton_text s [] None ip).
Qed.

(** ** The block that [get_local_ips] returns *)

(** A byte of a string, or a byte of a number or pointer that was stored. *)
Inductive byte : Type := Char (c : ascii) | Part (v : Z) (i : nat).

#[export] Instance byte_eq_dec : EqDecision byte.
Proof. solve_decision. Defined.

(** A block of [buf_len] bytes; pointers into it are offsets. *)
Record block : Type := MkBlock { buf_len : Z; bytes : gmap Z byte }.

Fixpoint put (off : Z) (l : list byte) (m : gmap Z byte) : gmap Z byte :=
  match l with [] => m | b :: l' => put (off + 1) l' (<[off := b]> m) end.

Definition store (off : Z) (l : list byte) (b : block) : result block :=
  if (0 <=? off) && (off + Z.of_nat (length l) <=? buf_len b) then Ok (MkBlock (buf_len b) (put off l (bytes b))) else Undef.

Definition number (size : nat) (v : Z) : list byte := map (Part v) (seq 0 size).
Definition text_bytes (s : string) : list byte := map Char (String.list_ascii_of_string s) ++ [Char zero].

Definition load_number (size : nat) (off : Z) (b : block) : result Z :=
  match bytes b !! off with
  | Some (Part v _) =>
      if forallb (fun i => bool_decide (bytes b !! (off + Z.of_nat i) = Some (Part v i))) (seq 0 size) then Ok v else Undef
  | _ => Undef
  end.

(** A string up to its NUL; the fuel is the length of the block. *)
Fixpoint load_text (fuel : nat) (off : Z) (b : block) : result string :=
  match fuel with
  | O => Undef
  | S fuel' =>
      match bytes b !! off with
      | Some (Char c) => if decide (c = zero) then Ok EmptyString else s ← load_text fuel' (off + 1) b; Ok (String c s)
      | _ => Undef
      end
  end.
Definition text_at (p : Z) (b : block) : result string := load_text (Z.to_nat (buf_len b)) p b.

(** [sizeof(host_net_info_t)]: two numbers and the pointer to the name; the
    pointers to the addresses follow. *)
Definition HEADER : Z := 16.
Definition INET_ADDRSTRLEN : Z := 16.
Definition INET6_ADDRSTRLEN : Z := 46.

(** [sort_strs] on the pointers [p] with the strings they point to. *)
Fixpoint ptr_inner (x : Z * string) (l : list (Z * string)) : (Z * string) * list (Z * string) :=
  match l with
  | [] => (x, [])
  | y :: l' =>
      if 0 <? strcmp x.2 y.2 then let '(m, r) := ptr_inner y l' in (m, x :: r)
      else let '(m, r) := ptr_inner x l' in (m, y :: r)
  end.

Fixpoint ptr_outer (fuel : nat) (l : list (Z * string)) : list (Z * string) :=
  match fuel, l with
  | S fuel', x :: l' => let '(m, r) := ptr_inner x l' in m :: ptr_outer fuel' r
  | _, _ => l
  end.

Definition load_ip (i : Z) (b : block) : result (Z * string) :=
  p ← load_number 8 (HEADER + 8 * i) b; s ← text_at p b; Ok (p, s).

Fixpoint store_ptrs (first : Z) (ps : list Z) (b : block) : result block :=
  match ps with [] => Ok b | p :: ps' => b' ← store (HEADER + 8 * first) (number 8 p) b; store_ptrs (first + 1) ps' b' end.

(** [sort_strs(&pi->ips[first], n)] *)
Definition sort_ips (first n : Z) (b : block) : result block :=
  if n <=? 1 then Ok b
  else
    l ← map_result (fun i => load_ip i b) (seqZ first n);
    store_ptrs first (ptr_outer (length l) l).*1 b.

(** One address, whether it is IPv4 and its text: the block, [str_idx],
    [idx_ipv4] and [idx_ipv6]. *)
Definition place_ip (num_ipv4 pstrs : Z) (p : bool * string) (st : block * Z * Z * Z) : result (block * Z * Z * Z) :=
  let '(b, str_idx, idx_ipv4, idx_ipv6) := st in
  let ipstr := pstrs + str_idx in
  let slot := if p.1 : bool then idx_ipv4 else num_ipv4 + idx_ipv6 in
  b ← store (HEADER + 8 * slot) (number 8 ipstr) b;
  b ← store ipstr (text_bytes p.2) b;
  Ok (b, str_idx + (Z.of_nat (String.length p.2) + 1), if p.1 then idx_ipv4 + 1 else idx_ipv4,
      if p.1 then idx_ipv6 else idx_ipv6 + 1).

(** The block with the numbers and the name, and the offset of the strings. *)
Definition new_info (hostname : string) (num_ipv4 num_ipv6 buf_len : Z) : result (block * Z) :=
  b ← store 0 (number 4 num_ipv4) (MkBlock buf_len ∅);
  b ← store 4 (number 4 num_ipv6) b;
  pstrs ← align_int_up (HEADER + (num_ipv4 + num_ipv6) * 8) 8;
  b ← store pstrs (text_bytes hostname) b;
  b ← store 8 (number 8 pstrs) b;
  Ok (b, pstrs).

(** [hostname] is what [gethostname] wrote, [res] the list of [getaddrinfo]. *)
Definition get_local_ips (gethostname : option string) (getaddrinfo : option (list (bool * string))) (malloc_ok : bool)
    : result (Z * option block) :=
  match gethostname, getaddrinfo with
  | None, _ => Ok (-1, None)
  | _, None => Ok (-2, None)
  | Some hostname, Some res =>
      let num_ipv4 := Z.of_nat (length (filter (fun p : bool * string => p.1 = true) res)) in
      let num_ipv6 := Z.of_nat (length (filter (fun p : bool * string => p.1 = false) res)) in
      let n := num_ipv4 + num_ipv6 in
      let strlen := Z.of_nat (String.length hostname) in
      let buf_len := i32 (num_ipv4 * INET_ADDRSTRLEN + num_ipv6 * INET6_ADDRSTRLEN + (HEADER + n * 8 + strlen + 64)) in
      buf_len ← align_int_up buf_len 64;
      if negb malloc_ok then Ok (-3, None)
      else
        '(b, pstrs) ← new_info hostname num_ipv4 num_ipv6 buf_len;
        '(b, _, _, _) ← for_each (place_ip num_ipv4 pstrs) res (b, strlen + 1, 0, 0);
        b ← sort_ips 0 num_ipv4 b;
        b ← sort_ips num_ipv4 num_ipv6 b;
        Ok (n, Some b)
  end.

(** [get_inst_id]: what [get_local_ips] returns is not looked at, and without a
    block a null pointer is read. *)
Definition host_inst_id (gethostname : option string) (getaddrinfo : option (list (bool * string))) (malloc_ok : bool)
    (pid suffix : Z) : result Z :=
  '(_, pips) ← get_local_ips gethostname getaddrinfo malloc_ok;
  match pips with
  | None => Undef
  | Some b => '(_, s) ← load_ip 0 b; ip1st ← ipstr_to_uint s; Ok (get_inst_id ip1st pid suffix)
  end.

(** *** Bytes in a block *)

(** The bytes [l] are at [off]. *)
Definition holds (m : gmap Z byte) (off : Z) (l : list byte) : Prop :=
  forall i x, l !! i = Some x -> m !! (off + Z.of_nat i) = Some x.

Lemma put_lookup l : forall off m j, put off l m !! j =
  if decide (off <= j < off + Z.of_nat (length l)) then l !! Z.to_nat (j - off) else m !! j.
Proof.
  induction l as [|b l IH]; intros off m j; cbn [put length].
  { rewrite decide_False by (cbn; lia). done. }
  rewrite IH. destruct (decide (off = j)) as [<-|Hj].
  - rewrite decide_False by lia. rewrite lookup_insert_eq, decide_True by lia. by rewrite Z.sub_diag.
  - rewrite lookup_insert_ne by done. destruct (decide (off + 1 <= j < off + 1 + Z.of_nat (length l))).
    + rewrite decide_True by lia. by replace (Z.to_nat (j - off)) with (S (Z.to_nat (j - (off + 1)))) by lia.
    + by rewrite decide_False by lia.
Qed.

Lemma holds_put m off l : holds (put off l m) off l.
Proof.
  intros i x Hi. pose proof (lookup_lt_Some _ _ _ Hi). rewrite put_lookup, decide_True by lia. by replace (Z.to_nat _) with i by lia.
Qed.

Lemma holds_put_other m off l off' l' : holds m off' l' ->
  off' + Z.of_nat (length l') <= off \/ off + Z.of_nat (length l) <= off' -> holds (put off l m) off' l'.
Proof. intros Hh Hd i x Hi. pose proof (lookup_lt_Some _ _ _ Hi). rewrite put_lookup, decide_False by lia. by apply Hh. Qed.

Lemma store_Ok off l b : 0 <= off -> off + Z.of_nat (length l) <= buf_len b ->
  store off l b = Ok (MkBlock (buf_len b) (put off l (bytes b))).
Proof. intros H1 H2. unfold store. by rewrite (proj2 (Z.leb_le _ _) H1), (proj2 (Z.leb_le _ _) H2). Qed.

Lemma number_length size v : length (number size v) = size.
Proof. unfold number. by rewrite length_map, length_seq. Qed.

Lemma text_length s : Z.of_nat (length (text_bytes s)) = Z.of_nat (String.length s) + 1.
Proof. unfold text_bytes. rewrite length_app, length_map. cbn [length]. induction s as [|c s IH]; cbn [String.list_ascii_of_string length String.length]; lia. Qed.

Lemma load_number_holds size off b v : (0 < size)%nat -> holds (bytes b) off (number size v) -> load_number size off b = Ok v.
Proof.
  intros Hs Hh. unfold load_number.
  assert (Hi : forall i, (i < size)%nat -> bytes b !! (off + Z.of_nat i) = Some (Part v i)).
  { intros i Hi. apply Hh. unfold number. by rewrite list_lookup_fmap, lookup_seq_lt. }
  pose proof (Hi 0%nat Hs) as H0. rewrite Z.add_0_r in H0. rewrite H0.
  rewrite (proj2 (forallb_forall _ _)); [done|]. intros i Hin%in_seq. apply bool_decide_eq_true, Hi. lia.
Qed.

Lemma load_text_holds b s : forall fuel off, c_string s -> (String.length s < fuel)%nat -> holds (bytes b) off (text_bytes s) ->
  load_text fuel off b = Ok s.
Proof.
  induction s as [|c s IH]; intros [|fuel] off Hc Hf Hh; cbn in Hf; try lia; cbn [load_text];
    pose proof (Hh 0%nat _ eq_refl) as H0; rewrite Z.add_0_r in H0; cbn in H0; rewrite H0.
  - by rewrite decide_True.
  - destruct Hc as [Hc Hs]. rewrite decide_False by done. rewrite IH; [done|done|lia|].
    intros i x Hi. replace (off + 1 + Z.of_nat i) with (off + Z.of_nat (S i)) by lia. by apply Hh.
Qed.

(** *** Sorting the pointers *)

Lemma ptr_inner_strs x l : let '(m, r) := ptr_inner x l in sort_inner x.2 l.*2 = (m.2, r.*2) /\ m :: r ≡ₚ x :: l.
Proof.
  revert x. induction l as [|y l IH]; intros x; cbn; [done|]. destruct (0 <? strcmp x.2 y.2).
  - specialize (IH y). destruct (ptr_inner y l) as [m r]. destruct IH as [-> Hp]. split; [done|].
    rewrite Permutation_swap. rewrite Hp. done.
  - specialize (IH x). destruct (ptr_inner x l) as [m r]. destruct IH as [-> Hp]. split; [done|].
    rewrite Permutation_swap. rewrite Hp. apply Permutation_swap.
Qed.

Lemma ptr_outer_strs fuel : forall l, (ptr_outer fuel l).*2 = sort_outer fuel l.*2 /\ ptr_outer fuel l ≡ₚ l.
Proof.
  induction fuel as [|fuel IH]; intros [|x l]; cbn; try done.
  pose proof (ptr_inner_strs x l) as Hx. destruct (ptr_inner x l) as [m r]. destruct Hx as [Hi Hp]. cbn in Hi.
  rewrite Hi. destruct (IH r) as [E Hr]. cbn. rewrite E. split; [done|]. by rewrite Hr.
Qed.

(** The pointers [ps] in the slots from [first] on. *)
Definition slots (m : gmap Z byte) (first : Z) (ps : list Z) : Prop :=
  forall i p, ps !! i = Some p -> holds m (HEADER + 8 * (first + Z.of_nat i)) (number 8 p).

(** What is outside of [n] slots is kept. *)
Definition keeps_outside (first n : Z) (m m' : gmap Z byte) : Prop :=
  forall off l, holds m off l -> off + Z.of_nat (length l) <= HEADER + 8 * first \/ HEADER + 8 * (first + n) <= off -> holds m' off l.

Lemma slots_cons m first p ps : slots m first (p :: ps) <-> holds m (HEADER + 8 * first) (number 8 p) /\ slots m (first + 1) ps.
Proof.
  split.
  - intros Hs. split; [rewrite <- (Z.add_0_r first); by apply (Hs 0%nat)|]. intros i q Hq.
    replace (first + 1 + Z.of_nat i) with (first + Z.of_nat (S i)) by lia. by apply Hs.
  - intros [Hp Hs] [|i] q Hq; cbn in Hq; [injection Hq as <-; by rewrite Z.add_0_r|].
    replace (first + Z.of_nat (S i)) with (first + 1 + Z.of_nat i) by lia. by apply Hs.
Qed.

Lemma slots_kept m m' first n first' ps : slots m first' ps -> keeps_outside first n m m' ->
  first' + Z.of_nat (length ps) <= first \/ first + n <= first' -> slots m' first' ps.
Proof.
  intros Hs Hk Hd i p Hp. apply Hk; [by apply Hs|]. rewrite number_length. pose proof (lookup_lt_Some _ _ _ Hp). unfold HEADER. lia.
Qed.

Lemma store_ptrs_spec ps : forall first b, 0 <= first -> HEADER + 8 * (first + Z.of_nat (length ps)) <= buf_len b ->
  exists m', store_ptrs first ps b = Ok (MkBlock (buf_len b) m') /\ slots m' first ps /\
    keeps_outside first (Z.of_nat (length ps)) (bytes b) m'.
Proof.
  unfold HEADER. induction ps as [|p ps IH]; intros first b Hf Hb; cbn [store_ptrs length] in *.
  { exists (bytes b). split; [by destruct b|]. split; [by intros i p Hi|by intros off l Hh _]. }
  rewrite store_Ok by (rewrite ?number_length; unfold HEADER; lia). cbn [mbind result_bind].
  set (b1 := MkBlock (buf_len b) (put (HEADER + 8 * first) (number 8 p) (bytes b))).
  destruct (IH (first + 1) b1 ltac:(lia) ltac:(cbn; lia)) as (m' & E & Hs & Hk). exists m'. split; [exact E|]. unfold keeps_outside, HEADER in *.
  split.
  - apply slots_cons. split; [|done]. apply Hk; [apply holds_put|]. rewrite number_length. unfold HEADER. lia.
  - intros off l Hh Hd. apply Hk; [|lia]. apply holds_put_other; [done|]. rewrite number_length. unfold HEADER. lia.
Qed.

(** A string of the block at [p]. *)
Definition string_at (b : block) (x : Z * string) : Prop :=
  c_string x.2 /\ 0 <= x.1 /\ x.1 + Z.of_nat (String.length x.2) + 1 <= buf_len b /\ holds (bytes b) x.1 (text_bytes x.2).

Lemma text_at_Ok b x : string_at b x -> text_at x.1 b = Ok x.2.
Proof. intros (Hc & H0 & Hl & Hh). apply load_text_holds; [done|lia|done]. Qed.

Lemma load_ips l : forall first b, slots (bytes b) first l.*1 -> Forall (string_at b) l ->
  map_result (fun i => load_ip i b) (seqZ first (Z.of_nat (length l))) = Ok l.
Proof.
  induction l as [|x l IH]; intros first b Hs Hl; [done|]. cbn [length]. rewrite Nat2Z.inj_succ, seqZ_cons by lia.
  cbn [fmap list_fmap] in Hs. apply slots_cons in Hs as [Hp Hs]. apply Forall_cons in Hl as [Hx Hl].
  assert (load_ip first b = Ok x) as E.
  { unfold load_ip. rewrite (load_number_holds 8 _ _ _ ltac:(lia) Hp). cbn [mbind result_bind]. rewrite (text_at_Ok b x Hx). by destruct x. }
  cbn [map_result]. rewrite E. cbn [mbind result_bind]. rewrite <- Z.add_1_r, Z.pred_succ. by rewrite (IH (first + 1)).
Qed.

Lemma sort_ips_spec l first b : slots (bytes b) first l.*1 -> Forall (string_at b) l -> 0 <= first ->
  HEADER + 8 * (first + Z.of_nat (length l)) <= buf_len b ->
  exists m', sort_ips first (Z.of_nat (length l)) b = Ok (MkBlock (buf_len b) m') /\
    slots m' first (ptr_outer (length l) l).*1 /\ keeps_outside first (Z.of_nat (length l)) (bytes b) m'.
Proof.
  intros Hs Hl Hf Hb. unfold sort_ips. destruct (Z.leb_spec (Z.of_nat (length l)) 1) as [H1|H1].
  - exists (bytes b). split; [by destruct b|]. split; [|by intros off l' Hh _].
    destruct l as [|x [|]]; [done..|cbn in H1; lia].
  - rewrite (load_ips l) by done. cbn [mbind result_bind].
    assert (length (ptr_outer (length l) l).*1 = length l) as Hlen.
    { rewrite length_fmap. by destruct (ptr_outer_strs (length l) l) as [_ ->]. }
    destruct (store_ptrs_spec (ptr_outer (length l) l).*1 first b Hf) as (m' & E & Hs' & Hk); [by rewrite Hlen|].
    exists m'. split; [exact E|]. split; [exact Hs'|]. by rewrite Hlen in Hk.
Qed.

(** *** Placing the addresses *)

Definition is4 (res : list (bool * string)) : list string := (filter (fun p : bool * string => p.1 = true) res).*2.
Definition is6 (res : list (bool * string)) : list string := (filter (fun p : bool * string => p.1 = false) res).*2.

Lemma is4_snoc l p : is4 (l ++ [p]) = is4 l ++ (if p.1 then [p.2] else []).
Proof. unfold is4. rewrite filter_app, fmap_app. by destruct p as [[] t]. Qed.

Lemma is6_snoc l p : is6 (l ++ [p]) = is6 l ++ (if p.1 then [] else [p.2]).
Proof. unfold is6. rewrite filter_app, fmap_app. by destruct p as [[] t]. Qed.

(** The bytes of the texts with their NULs. *)
Definition texts (res : list (bool * string)) : Z := foldr (fun p n => Z.of_nat (String.length p.2) + 1 + n) 0 res.

Lemma texts_app l1 l2 : texts (l1 ++ l2) = texts l1 + texts l2.
Proof. unfold texts. induction l1 as [|p l1 IH]; [done|]. cbn [app foldr]. lia. Qed.

Lemma texts_one p : texts [p] = Z.of_nat (String.length p.2) + 1.
Proof. cbn. lia. Qed.

Lemma texts_nonneg l : 0 <= texts l.
Proof. unfold texts. induction l as [|p l IH]; cbn [foldr]; lia. Qed.

Section Placing.
Context (hostname : string) (n4 n6 pstrs len : Z).
Let base : Z := Z.of_nat (String.length hostname) + 1.

(** The slots are before the strings. *)
Context (Hn4 : 0 <= n4) (Hn6 : 0 <= n6) (Hslots : HEADER + 8 * (n4 + n6) <= pstrs).

(** The header and the name of the host. *)
Definition head_ok (b : block) : Prop :=
  buf_len b = len /\ holds (bytes b) 8 (number 8 pstrs) /\ holds (bytes b) pstrs (text_bytes hostname).

(** A string that was placed before [idx]. *)
Definition string_before (b : block) (idx : Z) (x : Z * string) : Prop :=
  pstrs + base <= x.1 /\ x.1 + Z.of_nat (String.length x.2) + 1 <= pstrs + idx /\ holds (bytes b) x.1 (text_bytes x.2).

(** The addresses [done] are placed. *)
Definition placed (done : list (bool * string)) (st : block * Z * Z * Z) : Prop :=
  let '(b, idx, i4, i6) := st in
  exists l4 l6, l4.*2 = is4 done /\ l6.*2 = is6 done /\ i4 = Z.of_nat (length l4) /\ i6 = Z.of_nat (length l6) /\
    idx = base + texts done /\ slots (bytes b) 0 l4.*1 /\ slots (bytes b) n4 l6.*1 /\
    Forall (string_before b idx) (l4 ++ l6) /\ head_ok b.

(** A store into a slot and one behind the strings keep what is placed. *)
Lemma stores_keep b b' slot idx (v : Z) t x : 0 <= slot < n4 + n6 -> base <= idx ->
  bytes b' = put (pstrs + idx) (text_bytes t) (put (HEADER + 8 * slot) (number 8 v) (bytes b)) ->
  string_before b idx x -> string_before b' (idx + (Z.of_nat (String.length t) + 1)) x.
Proof.
  intros Hs Hi Hb (H1 & H2 & H3). split; [done|]. split; [lia|]. rewrite Hb. unfold HEADER in *.
  apply holds_put_other; [apply holds_put_other; [done|]|]; rewrite ?number_length, ?text_length; lia.
Qed.

Lemma slots_stored m slot v off l first ps : 0 <= first -> HEADER + 8 * (first + Z.of_nat (length ps)) <= off ->
  slots m first ps -> slot < first \/ first + Z.of_nat (length ps) <= slot ->
  slots (put off l (put (HEADER + 8 * slot) (number 8 v) m)) first ps.
Proof.
  intros Hf Ho Hs Hd i p Hp. pose proof (lookup_lt_Some _ _ _ Hp). unfold HEADER in *.
  apply holds_put_other; [apply holds_put_other; [by apply Hs|]|]; rewrite ?number_length; unfold HEADER; lia.
Qed.

Lemma slots_snoc m first ps p : slots m first ps -> holds m (HEADER + 8 * (first + Z.of_nat (length ps))) (number 8 p) ->
  slots m first (ps ++ [p]).
Proof.
  intros Hs Hp i q Hq. destruct (decide (i < length ps)%nat).
  - rewrite lookup_app_l in Hq by done. by apply Hs.
  - rewrite lookup_app_r in Hq by lia. apply list_lookup_singleton_Some in Hq as [Hi <-].
    by replace i with (length ps) by lia.
Qed.

Lemma place_ip_spec done p st : placed done st ->
  Z.of_nat (length (is4 (done ++ [p]))) <= n4 -> Z.of_nat (length (is6 (done ++ [p]))) <= n6 ->
  0 <= pstrs -> pstrs + base + texts (done ++ [p]) <= len ->
  exists st', place_ip n4 pstrs p st = Ok st' /\ placed (done ++ [p]) st'.
Proof.
  destruct st as [[[b idx] i4] i6]. intros (l4 & l6 & E4 & E6 & -> & -> & -> & Hs4 & Hs6 & Hst & Hlen & Hh8 & Hhn) H4 H6 Hp Hl.
  rewrite texts_app, texts_one in Hl. pose proof (texts_nonneg done).
  rewrite is4_snoc, <- E4, length_app, length_fmap in H4. rewrite is6_snoc, <- E6, length_app, length_fmap in H6.
  set (slot := if p.1 then Z.of_nat (length l4) else n4 + Z.of_nat (length l6)).
  assert (0 <= slot < n4 + n6) as Hslot by (unfold slot; destruct p as [[] t]; cbn in *; lia).
  unfold place_ip. fold slot. rewrite store_Ok by (rewrite ?number_length, ?Hlen; unfold HEADER in *; lia). cbn [mbind result_bind].
  rewrite store_Ok by (rewrite ?text_length; cbn [buf_len]; lia). cbn [mbind result_bind bytes buf_len].
  eexists. split; [reflexivity|]. set (v := pstrs + (base + texts done)).
  set (b' := MkBlock _ _).
  assert (Forall (string_before b' (base + texts done + (Z.of_nat (String.length p.2) + 1))) (l4 ++ l6)) as Hold.
  { eapply Forall_impl; [exact Hst|]. intros x Hx.
    apply (stores_keep b b' slot (base + texts done) v p.2); [done|lia|reflexivity|done]. }
  assert (string_before b' (base + texts done + (Z.of_nat (String.length p.2) + 1)) (v, p.2)) as Hnew.
  { split; [cbn; unfold v; lia|]. split; [cbn; unfold v; lia|]. apply holds_put. }
  assert (holds (bytes b') (HEADER + 8 * slot) (number 8 v)) as Hptr.
  { apply holds_put_other; [apply holds_put|]. rewrite number_length. unfold HEADER, v in *. lia. }
  assert (head_ok b') as Hhead.
  { unfold HEADER in *. split; [done|]. split; (apply holds_put_other; [apply holds_put_other; [done|]|]);
      rewrite ?number_length, ?text_length; unfold HEADER, base; lia. }
  cbn [placed]. destruct p as [[] t]; cbn [fst snd] in *; cbn in H4, H6.
  - exists (l4 ++ [(v, t)]), l6. rewrite !fmap_app, is4_snoc, is6_snoc, E4, E6, length_app, app_nil_r. cbn [fst snd length fmap list_fmap].
    do 2 (split; [done|]). split; [lia|]. split; [done|]. split; [rewrite texts_app, texts_one; cbn; lia|].
    split; [|split; [|split; [|exact Hhead]]].
    + apply slots_snoc; [apply slots_stored; rewrite ?length_fmap; try done; unfold HEADER, v in *; lia|].
      by rewrite length_fmap, Z.add_0_l.
    + apply slots_stored; rewrite ?length_fmap; try done; unfold HEADER, v in *; lia.
    + rewrite <- app_assoc. apply Forall_app in Hold as [Ho4 Ho6]. apply Forall_app. split; [done|]. by constructor.
  - exists l4, (l6 ++ [(v, t)]). rewrite !fmap_app, is4_snoc, is6_snoc, E4, E6, length_app, app_nil_r. cbn [fst snd length fmap list_fmap].
    do 2 (split; [done|]). split; [done|]. split; [lia|]. split; [rewrite texts_app, texts_one; cbn; lia|].
    split; [|split; [|split; [|exact Hhead]]].
    + apply slots_stored; rewrite ?length_fmap; try done; unfold HEADER, v in *; lia.
    + apply slots_snoc; [apply slots_stored; rewrite ?length_fmap; try done; unfold HEADER, v in *; lia|]. by rewrite length_fmap.
    + rewrite app_assoc. apply Forall_app. split; [done|]. by constructor.
Qed.

Lemma place_all todo : forall done st, placed done st ->
  Z.of_nat (length (is4 (done ++ todo))) <= n4 -> Z.of_nat (length (is6 (done ++ todo))) <= n6 ->
  0 <= pstrs -> pstrs + base + texts (done ++ todo) <= len ->
  exists st', for_each (place_ip n4 pstrs) todo st = Ok st' /\ placed (done ++ todo) st'.
Proof.
  induction todo as [|p todo IH]; intros done st Hst H4 H6 Hp Hl; cbn [for_each].
  { rewrite app_nil_r. by exists st. }
  rewrite cons_middle, app_assoc in H4, H6, Hl |- *.
  assert (Hsub : forall P `{forall x, Decision (P x)}, (length (filter P (done ++ [p])).*2 <= length (filter P ((done ++ [p]) ++ todo)).*2)%nat).
  { intros P HP. rewrite (filter_app P (done ++ [p]) todo), fmap_app, length_app. lia. }
  pose proof (texts_nonneg todo). rewrite texts_app in Hl.
  destruct (place_ip_spec done p st Hst) as (st1 & -> & Hst1); [|by clear IH; first
    [ etransitivity; [apply Nat2Z.inj_le, Hsub|done] | lia ]..|].
  { etransitivity; [apply Nat2Z.inj_le, Hsub|done]. }
  cbn [mbind result_bind]. apply IH; [done..|]. by rewrite texts_app.
Qed.
End Placing.

(** *** The block as a caller reads it *)

Definition host_name_of (b : block) : result string := p ← load_number 8 8 b; text_at p b.
Definition ips_of (n : Z) (b : block) : result (list string) := l ← map_result (fun i => load_ip i b) (seqZ 0 n); Ok l.*2.

Lemma align_int_up_least value align : 0 < align -> 0 <= value -> value + 2 * align < 2 ^ 31 ->
  exists r, align_int_up value align = Ok r /\ value <= r < value + align.
Proof.
  intros Ha Hv Hm. unfold align_int_up. rewrite (proj2 (Z.eqb_neq align 0)) by lia. rewrite bool_decide_eq_true_2 by (unfold in_i32; lia).
  cbn [orb negb]. rewrite Z.quot_div_nonneg by lia. pose proof (Z.div_mod (value + align - 1) align ltac:(lia)).
  pose proof (Z.mod_pos_bound (value + align - 1) align ltac:(lia)).
  rewrite bool_decide_eq_true_2 by (unfold in_i32; nia). eexists. split; [reflexivity|]. nia.
Qed.

Lemma slots_app m first l1 l2 : slots m first l1 -> slots m (first + Z.of_nat (length l1)) l2 -> slots m first (l1 ++ l2).
Proof.
  intros H1 H2 i p Hp. destruct (decide (i < length l1)%nat).
  - rewrite lookup_app_l in Hp by done. by apply H1.
  - rewrite lookup_app_r in Hp by lia. apply H2 in Hp.
    by replace (first + Z.of_nat (length l1) + Z.of_nat (i - length l1)) with (first + Z.of_nat i) in Hp by lia.
Qed.

(** An address as [inet_ntop] writes it. *)
Definition ip_text (p : bool * string) : Prop :=
  c_string p.2 /\ Z.of_nat (String.length p.2) < (if p.1 then INET_ADDRSTRLEN else INET6_ADDRSTRLEN).

Lemma texts_bound res : Forall ip_text res ->
  texts res <= Z.of_nat (length (is4 res)) * INET_ADDRSTRLEN + Z.of_nat (length (is6 res)) * INET6_ADDRSTRLEN /\
  length res = (length (is4 res) + length (is6 res))%nat.
Proof.
  unfold INET_ADDRSTRLEN, INET6_ADDRSTRLEN. induction res as [|p res IH] using rev_ind; [done|].
  intros [Hr Hp]%Forall_app. apply Forall_singleton in Hp as [_ Hl]. destruct (IH Hr) as [IH1 IH2].
  rewrite texts_app, texts_one, is4_snoc, is6_snoc, !length_app. unfold INET_ADDRSTRLEN, INET6_ADDRSTRLEN in Hl.
  destruct p as [[] t]; cbn [fst snd length] in *; lia.
Qed.

Lemma sorted_strings b l : Forall (string_at b) l -> Forall (string_at b) (ptr_outer (length l) l) /\ length (ptr_outer (length l) l) = length l.
Proof. intros Hl. destruct (ptr_outer_strs (length l) l) as [_ Hp]. split; [by rewrite Hp|by rewrite Hp]. Qed.

(** Both halves sorted: the block read through its pointers. *)
Lemma sort_both hostname pstrs b l4 l6 n4 n6 : n4 = Z.of_nat (length l4) -> n6 = Z.of_nat (length l6) ->
  HEADER + 8 * (n4 + n6) <= pstrs -> pstrs <= buf_len b ->
  slots (bytes b) 0 l4.*1 -> slots (bytes b) n4 l6.*1 -> Forall (fun x => string_at b x /\ pstrs <= x.1) (l4 ++ l6) ->
  holds (bytes b) 8 (number 8 pstrs) -> string_at b (pstrs, hostname) ->
  exists b1 b2, sort_ips 0 n4 b = Ok b1 /\ sort_ips n4 n6 b1 = Ok b2 /\ host_name_of b2 = Ok hostname /\
    ips_of (n4 + n6) b2 = Ok (sort_strs l4.*2 ++ sort_strs l6.*2).
Proof.
  intros -> -> Hs Hb H4 H6 Hl Hh8 Hname. apply Forall_app in Hl as [Hl4 Hl6].
  destruct (sort_ips_spec l4 0 b) as (m1 & E1 & Hs1 & Hk1); [done|by eapply Forall_impl; [exact Hl4|intros ? []]|lia|unfold HEADER in *; lia|].
  set (b1 := MkBlock (buf_len b) m1) in *.
  assert (Hkeep : forall m m' first n x, keeps_outside first n m m' -> pstrs <= x.1 -> HEADER + 8 * (first + n) <= pstrs ->
            string_at (MkBlock (buf_len b) m) x -> string_at (MkBlock (buf_len b) m') x).
  { intros m m' first n x Hk Hx Hn (? & ? & ? & Hh). split_and!; [done..|]. apply Hk; [done|]. right. lia. }
  assert (Forall (fun x => string_at b1 x /\ pstrs <= x.1) (l4 ++ l6)) as Hl1.
  { apply Forall_app. split; [eapply Forall_impl; [exact Hl4|]|eapply Forall_impl; [exact Hl6|]]; intros x [Hx Hp]; (split; [|done]);
      (apply (Hkeep (bytes b) m1 0 (Z.of_nat (length l4))); [done|done|unfold HEADER in *; lia|by destruct b]). }
  apply Forall_app in Hl1 as [Hl14 Hl16].
  destruct (sort_ips_spec l6 (Z.of_nat (length l4)) b1) as (m2 & E2 & Hs2 & Hk2).
  { eapply slots_kept; [exact H6|exact Hk1|lia]. }
  { by eapply Forall_impl; [exact Hl16|intros ? []]. }
  { lia. }
  { cbn. unfold HEADER in *. lia. }
  exists b1, (MkBlock (buf_len b) m2). split; [exact E1|]. split; [exact E2|]. split.
  - unfold host_name_of. rewrite (load_number_holds 8 8 _ pstrs); [|lia|].
    + cbn [mbind result_bind]. apply (text_at_Ok _ (pstrs, hostname)).
      apply (Hkeep m1 m2 (Z.of_nat (length l4)) (Z.of_nat (length l6))); [done|done|done|].
      apply (Hkeep (bytes b) m1 0 (Z.of_nat (length l4))); [done|done|unfold HEADER in *; lia|by destruct b].
    + apply Hk2; [apply Hk1; [done|]|]; rewrite number_length; unfold HEADER; lia.
  - set (b2 := MkBlock (buf_len b) m2) in *.
    assert (forall l, Forall (fun x => string_at b1 x /\ pstrs <= x.1) l -> Forall (string_at b2) l) as Hat.
    { intros l Hl. eapply Forall_impl; [exact Hl|]. intros x [Hx Hp].
      by apply (Hkeep m1 m2 (Z.of_nat (length l4)) (Z.of_nat (length l6))). }
    destruct (sorted_strings b2 l4 (Hat l4 Hl14)) as [F4 L4]. destruct (sorted_strings b2 l6 (Hat l6 Hl16)) as [F6 L6].
    unfold ips_of. replace (Z.of_nat (length l4) + Z.of_nat (length l6)) with
      (Z.of_nat (length (ptr_outer (length l4) l4 ++ ptr_outer (length l6) l6))) by (rewrite length_app, L4, L6; lia).
    rewrite load_ips; [|rewrite fmap_app; apply slots_app|by apply Forall_app].
    + cbn [mbind result_bind]. rewrite fmap_app. unfold sort_strs. rewrite !length_fmap.
      by rewrite (proj1 (ptr_outer_strs _ l4)), (proj1 (ptr_outer_strs _ l6)).
    + eapply slots_kept; [exact Hs1|exact Hk2|]. rewrite length_fmap, L4. lia.
    + by rewrite length_fmap, L4, Z.add_0_l.
Qed.

Lemma new_info_spec hostname n4 n6 len : 0 <= n4 -> 0 <= n6 -> n4 + n6 <= 1000000 ->
  HEADER + 8 * (n4 + n6) + 8 + Z.of_nat (String.length hostname) <= len ->
  exists b pstrs, new_info hostname n4 n6 len = Ok (b, pstrs) /\ HEADER + 8 * (n4 + n6) <= pstrs < HEADER + 8 * (n4 + n6) + 8 /\
    placed hostname n4 pstrs len [] (b, Z.of_nat (String.length hostname) + 1, 0, 0).
Proof.
  intros H4 H6 Hn Hl. unfold new_info, HEADER in *. destruct (align_int_up_least (16 + (n4 + n6) * 8) 8) as (pstrs & Ep & Hp); [lia..|].
  rewrite (store_Ok 0) by (rewrite ?number_length; cbn [buf_len]; lia). cbn [mbind result_bind].
  rewrite (store_Ok 4) by (rewrite ?number_length; cbn [buf_len]; lia). cbn [mbind result_bind]. rewrite Ep. cbn [mbind result_bind].
  rewrite (store_Ok pstrs) by (rewrite ?text_length; cbn [buf_len]; lia). cbn [mbind result_bind].
  rewrite (store_Ok 8) by (rewrite ?number_length; cbn [buf_len]; lia). cbn [mbind result_bind buf_len bytes].
  eexists _, pstrs. split; [reflexivity|]. split; [lia|]. exists [], [].
  do 4 (split; [done|]). split; [cbn; lia|]. do 2 (split; [by intros ? ? ?|]). split; [done|]. split; [done|].
  split; [apply holds_put|]. apply holds_put_other; [apply holds_put|]. rewrite number_length. lia.
Qed.

Lemma strings_at hostname pstrs b idx l : Forall (string_before hostname pstrs b idx) l -> Forall c_string l.*2 ->
  0 <= pstrs -> pstrs + idx <= buf_len b -> Forall (fun x => string_at b x /\ pstrs <= x.1) l.
Proof.
  intros Hl Hc Hp Hi. rewrite Forall_fmap in Hc. apply Forall_forall. intros x Hx. rewrite Forall_forall in Hl, Hc.
  destruct (Hl x Hx) as (H1 & H2 & H3). split; [|lia]. split; [by apply (Hc x)|]. split; [lia|]. split; [lia|done].
Qed.

Lemma c_strings res : Forall ip_text res -> Forall c_string (is4 res) /\ Forall c_string (is6 res).
Proof.
  intros Hres. split; apply Forall_fmap, Forall_forall; intros x [_ Hx]%list_elem_of_filter; rewrite Forall_forall in Hres;
    by destruct (Hres x Hx).
Qed.

Lemma local_ips_block (hostname : string) (res : list (bool * string)) :
  c_string hostname -> Z.of_nat (String.length hostname) < 256 -> Forall ip_text res -> Z.of_nat (length res) <= 1000000 ->
  exists b, get_local_ips (Some hostname) (Some res) true = Ok (Z.of_nat (length res), Some b) /\
    host_name_of b = Ok hostname /\ ips_of (Z.of_nat (length res)) b = Ok (sort_strs (is4 res) ++ sort_strs (is6 res)).
Proof.
  intros Hc Hlen Hres Hn. destruct (texts_bound res Hres) as [Ht Hcount]. unfold get_local_ips.
  assert (length (filter (fun p : bool * string => p.1 = true) res) = length (is4 res)) as -> by (unfold is4; by rewrite length_fmap).
  assert (length (filter (fun p : bool * string => p.1 = false) res) = length (is6 res)) as -> by (unfold is6; by rewrite length_fmap).
  set (n4 := Z.of_nat (length (is4 res))) in *. set (n6 := Z.of_nat (length (is6 res))) in *.
  assert (0 <= n4 /\ 0 <= n6 /\ n4 + n6 <= 1000000) as (H4 & H6 & H46) by lia.
  replace (Z.of_nat (length res)) with (n4 + n6) by lia. unfold INET_ADDRSTRLEN, INET6_ADDRSTRLEN, HEADER in *.
  rewrite i32_small by (unfold in_i32; lia).
  destruct (align_int_up_least (n4 * 16 + n6 * 46 + (16 + (n4 + n6) * 8 + Z.of_nat (String.length hostname) + 64)) 64)
    as (len & -> & Hbuf); [lia..|]. cbn [mbind result_bind negb].
  destruct (new_info_spec hostname n4 n6 len) as (b0 & pstrs & -> & Hp & Hst0); [unfold HEADER; lia..|]. unfold HEADER in Hp.
  cbn [mbind result_bind].
  destruct (place_all hostname n4 n6 pstrs len H4 ltac:(unfold HEADER; lia) res [] _ Hst0) as ([[[b idx] i4] i6] & -> & Hst);
    [cbn [app]; lia..|]. cbn [app mbind result_bind] in *.
  destruct Hst as (l4 & l6 & E4 & E6 & _ & _ & Hidx & Hs4 & Hs6 & Hstr & Hbl & Hh8 & Hname).
  destruct (sort_both hostname pstrs b l4 l6 n4 n6) as (b1 & b2 & -> & S2 & Hh & Hips).
  1-2: unfold n4, n6; by rewrite <- ?E4, <- ?E6, length_fmap.
  1-2: unfold HEADER; lia.
  1-2: done.
  { eapply strings_at; [exact Hstr| |lia|lia]. rewrite fmap_app, E4, E6. by apply Forall_app, c_strings. }
  { done. }
  { split_and!; [done|cbn; lia|cbn; lia|done]. }
  cbn [mbind result_bind]. rewrite S2. cbn [mbind result_bind]. exists b2. by rewrite Hips, E4, E6.
Qed.

(** C31: the block [get_local_ips] returns.  For every list of up to a million
    addresses all reads and writes stay within the block and its written bytes;
    read through the pointers of the block, the host has its name, and its
    addresses are the IPv4 ones in the order of [strcmp], then the IPv6 ones. *)
Theorem local_ips_correct (hostname : string) (res : list (bool * string)) :
  c_string hostname -> Z.of_nat (String.length hostname) < 256 -> Forall ip_text res -> Z.of_nat (length res) <= 1000000 ->
  exists b, get_local_ips (Some hostname) (Some res) true = Ok (Z.of_nat (length res), Some b) /\
    host_name_of b = Ok hostname /\ ips_of (Z.of_nat (length res)) b = Ok (sort_strs (is4 res) ++ sort_strs (is6 res)).
Proof. apply local_ips_block. Qed.

(** The instance id of a host has its first address: the IPv4 address whose text
    is the least.  Without a block, or if the first address is no IPv4 address,
    reading it is undefined. *)
Theorem inst_id_first_address (hostname : string) (res : list (bool * string)) (pid suffix : Z) :
  c_string hostname -> Z.of_nat (String.length hostname) < 256 -> Forall ip_text res -> Z.of_nat (length res) <= 1000000 -> res <> [] ->
  host_inst_id (Some hostname) (Some res) true pid suffix =
    (match sort_strs (is4 res) ++ sort_strs (is6 res) with
     | s :: _ => ip1st ← ipstr_to_uint s; Ok (get_inst_id ip1st pid suffix)
     | [] => Undef
     end) /\
  host_inst_id None (Some res) true pid suffix = Undef /\ host_inst_id (Some hostname) None true pid suffix = Undef.
Proof.
  intros Hc Hl Hres Hn Hne. split; [|done]. destruct (local_ips_block hostname res Hc Hl Hres Hn) as (b & E & _ & Hips).
  unfold host_inst_id. rewrite E. cbn [mbind result_bind]. unfold ips_of in Hips.
  generalize dependent (sort_strs (is4 res) ++ sort_strs (is6 res)). intros ss Hips. destruct res as [|p res]; [done|]. cbn [length] in Hips. rewrite Nat2Z.inj_succ, seqZ_cons in Hips by lia. cbn [map_result] in Hips.
  destruct (load_ip 0 b) as [[q s]| |]; [|done..]. cbn [mbind result_bind] in Hips |- *.
  destruct (map_result _ _) as [l| |]; [|done..]. injection Hips as <-. done.
Qed.

(** ** Files for epoll *)

(** [fcntl] with the flags of a file, and [epoll_ctl]. *)
Class Kernel (W : Type) : Type := {
  fcntl_getfl : Z -> W -> option Z;
  fcntl_setfl : Z -> Z -> W -> bool * W;
  epoll_ctl_add : Z -> Z -> Z -> Z -> W -> bool * W;
  epoll_ctl_del : Z -> Z -> W -> bool * W;
}.

Definition O_NONBLOCK : Z := 2 ^ 11.
(** [EPOLLIN | EPOLLET | EPOLLERR | EPOLLHUP | EPOLLRDHUP] *)
Definition CLIENT_EVENTS : Z := Z.lor 1 (Z.lor (2 ^ 31) (Z.lor 8 (Z.lor 16 0x2000))).

Section Files.
  Context {W : Type} `{Kernel W}.

Definition set_nonblocking (fd : Z) (w : W) : Z * W :=
  match fcntl_getfl fd w with
  | None => (-1, w)
  | Some flags => let '(ok, w') := fcntl_setfl fd (Z.lor flags O_NONBLOCK) w in (if ok then 0 else -1, w')
  end.

Definition add_fd (epoll_fd new_fd ptr : Z) (w : W) : Z * W :=
  let '(r, w1) := set_nonblocking new_fd w in
  if r =? -1 then (-1, w1)
  else let '(ok, w2) := epoll_ctl_add epoll_fd new_fd ptr CLIENT_EVENTS w1 in (if ok then 0 else -2, w2).

Definition remove_fd (epoll_fd rm_fd : Z) (w : W) : Z * W :=
  let '(ok, w') := epoll_ctl_del epoll_fd rm_fd w in (if ok then 0 else -1, w').
End Files.

(** [watched]: the files of an epoll instance with their data and events. *)
Class KernelLaws (W : Type) `{Kernel W} : Type := {
  watched : W -> Z -> gmap Z (Z * Z);
  setfl_law fd flags w w' : fcntl_setfl fd flags w = (true, w') -> fcntl_getfl fd w' = Some flags /\ forall e, watched w' e = watched w e;
  setfl_fails fd flags w w' : fcntl_setfl fd flags w = (false, w') -> w' = w;
  add_law e fd ptr ev w w' : epoll_ctl_add e fd ptr ev w = (true, w') ->
    watched w' e = <[fd := (ptr, ev)]> (watched w e) /\ forall f, fcntl_getfl f w' = fcntl_getfl f w;
  add_fails e fd ptr ev w w' : epoll_ctl_add e fd ptr ev w = (false, w') -> w' = w;
}.

(** A file that was added is watched edge-triggered and does not block, and its
    other flags are as before.  A file that could not be added is not watched, but
    it does not block any more. *)
Theorem add_fd_correct {W} `{KernelLaws W} (e fd ptr : Z) (w : W) :
  let '(r, w') := add_fd e fd ptr w in
  match fcntl_getfl fd w with
  | None => r = -1 /\ w' = w
  | Some flags =>
      (r = 0 /\ fcntl_getfl fd w' = Some (Z.lor flags O_NONBLOCK) /\ watched w' e = <[fd := (ptr, CLIENT_EVENTS)]> (watched w e)) \/
      (r = -2 /\ fcntl_getfl fd w' = Some (Z.lor flags O_NONBLOCK) /\ watched w' e = watched w e) \/
      (r = -1 /\ w' = w)
  end.
Proof.
  unfold add_fd, set_nonblocking. destruct (fcntl_getfl fd w) as [flags|] eqn:Ef; [|done].
  destruct (fcntl_setfl fd _ w) as [[] w1] eqn:Es; cbn.
  - apply setfl_law in Es as [Hf Hw]. destruct (epoll_ctl_add e fd ptr CLIENT_EVENTS w1) as [[] w2] eqn:Ea.
    + apply add_law in Ea as [Hadd Hfl]. left. by rewrite Hfl, Hf, Hadd, Hw.
    + apply add_fails in Ea as ->. right. left. by rewrite Hf, Hw.
  - apply setfl_fails in Es as ->. by do 2 right.
Qed.

(** ** Examples *)

Definition demo_addresses : list (bool * string) := [(true, "10.0.0.7"); (false, "fe80::1"); (true, "10.0.0.12")]%string.

Lemma demo_addresses_ok : Forall ip_text demo_addresses.
Proof. repeat constructor; vm_compute; done. Qed.

Lemma local_ips_correct_witness :
  exists b, get_local_ips (Some "trainer-3"%string) (Some demo_addresses) true = Ok (3, Some b) /\
    host_name_of b = Ok "trainer-3"%string /\ ips_of 3 b = Ok ["10.0.0.12"; "10.0.0.7"; "fe80::1"]%string.
Proof.
  destruct (local_ips_correct "trainer-3" demo_addresses) as (b & E & Hh & Hi);
    [repeat constructor; vm_compute; done|vm_compute; reflexivity|exact demo_addresses_ok|vm_compute; discriminate|].
  exists b. split; [exact E|]. split; [exact Hh|exact Hi].
Defined.

Lemma inst_id_first_address_witness :
  host_inst_id (Some "trainer-3"%string) (Some demo_addresses) true 4242 77 = Ok (get_inst_id 0x0A00000C 4242 77).
Proof.
  destruct (inst_id_first_address "trainer-3" demo_addresses 4242 77) as [E _];
    [repeat constructor; vm_compute; done|vm_compute; reflexivity|exact demo_addresses_ok|vm_compute; discriminate|done|].
  exact E.
Defined.

Lemma ipv4_roundtrip_witness :
  uint_to_ipstr 0x0A00000C = "10.0.0.12"%string /\ ipstr_to_uint (uint_to_ipstr 0x0A00000C) = Ok 0x0A00000C.
Proof. split; [vm_compute; reflexivity|]. apply (proj1 (ipv4_roundtrip 0x0A00000C EmptyString)). unfold in_u32. lia. Defined.
