(* ===== verification/Registry.v ===== *)
(** * Registration of memory with the transfer library

    utrans/utrans.c: [_regist_pub_buf], [utrans_regist_ram],
    [utrans_regist_vram], [_mr_reg_item_destroy] and [utrans_dereg_mem], over
    any set of regions with the promises of [RegionSetLaws] (MrSet.v gives
    the source's).  The context carries, besides the fields the functions
    use, the resources outside of it that they acquire and release: the
    [mem_region_registed_t] objects of the heap, the handles UCX has mapped
    and the key buffers it has packed.  The functions are cut where the
    source takes or drops the lock or calls UCX, so that the calls of several
    threads interleave at these points. *)

From S2P Require Import Prelude MrSet UtransUtils.
Local Open Scope Z_scope.

(** ** Data (utrans_internal.h) *)

Record mem_region : Type := MemRegion { mr_addr : Z; mr_len : Z; mr_type : Z }.

(** A null handle or buffer is 0. *)
Record mem_region_registed : Type := Registed {
  mr : mem_region;
  hdl : Z;
  rkey_size : Z;
  rkey_cont : Z;
}.

Definition with_hdl (o : mem_region_registed) (h : Z) : mem_region_registed :=
  Registed (mr o) h (rkey_size o) (rkey_cont o).
Definition with_rkey (o : mem_region_registed) (cont size : Z) : mem_region_registed :=
  Registed (mr o) (hdl o) size cont.

(** The parameters of [ucp_mem_map]. *)
Inductive ucs_memory_type : Type := UCS_MEMORY_TYPE_HOST | UCS_MEMORY_TYPE_CUDA.

Record ucp_mem_map_params : Type := MapParams {
  mp_address : Z;
  mp_length : Z;
  mp_prot : Z;
  mp_memory_type : ucs_memory_type;
}.

(** The protection flags are assigned to [memory_type], which is assigned
    again: [prot] keeps the 0 of the initialiser. *)
Definition map_params (m : mem_region) : ucp_mem_map_params :=
  MapParams (mr_addr m) (mr_len m) 0
    (if mr_type m =? MEM_TYPE_RAM then UCS_MEMORY_TYPE_HOST else UCS_MEMORY_TYPE_CUDA).

(** What the allocator and UCX answer in one call. *)
Record regist_env : Type := RegistEnv {
  calloc_ret : Z;
  ucp_mem_map : ucp_mem_map_params -> option Z;
  ucp_rkey_pack : Z -> option (Z * Z);
  node_malloc : bool;
}.

Record ucx_ctx (T : Type) : Type := UcxCtx {
  num_pending_mrs : Z;
  mr_set : T;
  heap : gmap Z mem_region_registed;
  mapped : gset Z;
  rkeys : gset Z;
}.
Arguments UcxCtx {T} _ _ _ _ _.
Arguments num_pending_mrs {T} _.
Arguments mr_set {T} _.
Arguments heap {T} _.
Arguments mapped {T} _.
Arguments rkeys {T} _.

Definition UTRANS_RET_SUCC : Z := 0.
Definition UTRANS_RET_INVALID_ARGS : Z := -3.

(** ** Operations; [None] is an access to freed memory or a null dereference *)

Section Operations.
Context {T : Type} `{RegionSet T}.
Implicit Types c : ucx_ctx T.

Definition add_pending c (d : Z) : ucx_ctx T :=
  UcxCtx (i32 (num_pending_mrs c + d)) (mr_set c) (heap c) (mapped c) (rkeys c).
Definition with_set c (s : T) : ucx_ctx T :=
  UcxCtx (num_pending_mrs c) s (heap c) (mapped c) (rkeys c).

(** Under the read lock: an object already registered, or one more pending. *)
Definition regist_lookup c (buf_addr buf_len : Z) : ucx_ctx T * Z :=
  let reged := if buf_addr =? 0 then 0 else rs_find (mr_set c) buf_addr buf_len in
  if negb (reged =? 0) then (c, reged) else (add_pending c 1, 0).

Definition regist_calloc (env : regist_env) c (mem_type buf_addr buf_len : Z) : ucx_ctx T * Z :=
  let mrk := calloc_ret env in
  if mrk =? 0 then (c, 0)
  else (UcxCtx (num_pending_mrs c) (mr_set c)
          (<[mrk := Registed (MemRegion buf_addr buf_len mem_type) 0 0 0]> (heap c))
          (mapped c) (rkeys c), mrk).

Definition regist_map (env : regist_env) c (mrk : Z) : option (ucx_ctx T * bool) :=
  o ← heap c !! mrk;
  match ucp_mem_map env (map_params (mr o)) with
  | None => Some (c, false)
  | Some h =>
      Some (UcxCtx (num_pending_mrs c) (mr_set c) (<[mrk := with_hdl o h]> (heap c))
              ({[h]} ∪ mapped c) (rkeys c), true)
  end.

Definition regist_pack (env : regist_env) c (mrk : Z) : option (ucx_ctx T * bool) :=
  o ← heap c !! mrk;
  match ucp_rkey_pack env (hdl o) with
  | None => Some (c, false)
  | Some (cont, size) =>
      Some (UcxCtx (num_pending_mrs c) (mr_set c) (<[mrk := with_rkey o cont size]> (heap c))
              (mapped c) ({[cont]} ∪ rkeys c), true)
  end.

(** Under the write lock. *)
Definition regist_record (env : regist_env) c (mrk : Z) : option (ucx_ctx T * bool) :=
  o ← heap c !! mrk;
  '(s, f) ← rs_insert (node_malloc env) (mr_set c) (mr_addr (mr o)) (mr_len (mr o)) mrk;
  if f =? 0 then Some (add_pending (with_set c s) (-1), true) else Some (with_set c s, false).

(** The releases shared by the error path and by [_mr_reg_item_destroy]. *)
Definition release_item c (mrk : Z) : option (ucx_ctx T) :=
  o ← heap c !! mrk;
  Some (UcxCtx (num_pending_mrs c) (mr_set c) (delete mrk (heap c))
    (if hdl o =? 0 then mapped c else mapped c ∖ {[hdl o]})
    (if (rkey_cont o =? 0) || (rkey_size o =? 0) then rkeys c else rkeys c ∖ {[rkey_cont o]})).

Definition regist_failed c (mrk : Z) : option (ucx_ctx T) :=
  let c1 := add_pending c (-1) in
  if mrk =? 0 then Some c1 else release_item c1 mrk.

Definition _regist_pub_buf (env : regist_env) c (mem_type buf_addr buf_len : Z)
    : option (ucx_ctx T * Z) :=
  let '(c1, reged) := regist_lookup c buf_addr buf_len in
  if negb (reged =? 0) then Some (c1, reged) else
  let '(c2, mrk) := regist_calloc env c1 mem_type buf_addr buf_len in
  let failed c := c' ← regist_failed c mrk; Some (c', 0) in
  if mrk =? 0 then failed c2 else
  '(c3, ok) ← regist_map env c2 mrk;
  if negb ok then failed c3 else
  '(c4, ok) ← regist_pack env c3 mrk;
  if negb ok then failed c4 else
  '(c5, ok) ← regist_record env c4 mrk;
  if negb ok then failed c5 else Some (c5, mrk).

(** [None] in place of the context is the null pointer. *)
Definition utrans_regist_ram (env : regist_env) (putrz_ctx : option (ucx_ctx T))
    (ram_addr ram_len : Z) : option (option (ucx_ctx T) * Z) :=
  match putrz_ctx with
  | None => Some (None, 0)
  | Some c =>
      if (ram_addr =? 0) || (ram_len =? 0) then Some (Some c, 0) else
      '(c', mrk) ← _regist_pub_buf env c MEM_TYPE_RAM ram_addr ram_len; Some (Some c', mrk)
  end.

Definition utrans_regist_vram (env : regist_env) (putrz_ctx : option (ucx_ctx T))
    (vram_addr vram_len gpu_id : Z) : option (option (ucx_ctx T) * Z) :=
  match putrz_ctx with
  | None => Some (None, 0)
  | Some c =>
      if (vram_addr =? 0) || (vram_len =? 0) then Some (Some c, 0) else
      let mem_gpu := utrans_get_vram_mem_type gpu_id in
      if mem_gpu =? -1 then Some (Some c, 0) else
      '(c', mrk) ← _regist_pub_buf env c mem_gpu vram_addr vram_len; Some (Some c', mrk)
  end.

Definition _mr_reg_item_destroy c (pmr_item : Z) : option (ucx_ctx T) :=
  if pmr_item =? 0 then Some c else release_item c pmr_item.

(** Under the write lock. *)
Definition dereg_remove c (mem_addr mem_len : Z) : option (ucx_ctx T * Z) :=
  '(s, target_mr) ← rs_remove (mr_set c) mem_addr mem_len; Some (with_set c s, target_mr).

Definition utrans_dereg_mem (putrz_ctx : option (ucx_ctx T)) (mem_addr mem_len : Z)
    : option (option (ucx_ctx T) * Z) :=
  match putrz_ctx with
  | None => Some (None, UTRANS_RET_INVALID_ARGS)
  | Some c =>
      if (mem_addr =? 0) || (mem_len =? 0) then Some (Some c, UTRANS_RET_INVALID_ARGS) else
      '(c1, target_mr) ← dereg_remove c mem_addr mem_len;
      if target_mr =? 0 then Some (Some c1, UTRANS_RET_SUCC) else
      c2 ← _mr_reg_item_destroy c1 target_mr; Some (Some c2, UTRANS_RET_SUCC)
  end.
End Operations.

(** ** Interleaved calls *)

(** Where a thread stands in its call. *)
Inductive phase : Type :=
| PRegist (mem_type buf_addr buf_len : Z)
| PCalloc (mem_type buf_addr buf_len : Z)
| PMap (mrk : Z)
| PPack (mrk : Z)
| PRecord (mrk : Z)
| PFailed (mrk : Z)
| PDereg (mem_addr mem_len : Z)
| PDestroy (target_mr : Z)
| PDone (ret : Z).

Section System.
Context {T : Type} `{RegionSet T}.
Implicit Types c : ucx_ctx T.

Definition thread_step (env : regist_env) c (ph : phase) : option (ucx_ctx T * phase) :=
  match ph with
  | PRegist ty a n =>
      let '(c', reged) := regist_lookup c a n in
      Some (c', if negb (reged =? 0) then PDone reged else PCalloc ty a n)
  | PCalloc ty a n =>
      let '(c', mrk) := regist_calloc env c ty a n in
      Some (c', if mrk =? 0 then PFailed 0 else PMap mrk)
  | PMap mrk =>
      '(c', ok) ← regist_map env c mrk;
      Some (c', if ok : bool then PPack mrk else PFailed mrk)
  | PPack mrk =>
      '(c', ok) ← regist_pack env c mrk;
      Some (c', if ok : bool then PRecord mrk else PFailed mrk)
  | PRecord mrk =>
      '(c', ok) ← regist_record env c mrk;
      Some (c', if ok : bool then PDone mrk else PFailed mrk)
  | PFailed mrk => c' ← regist_failed c mrk; Some (c', PDone 0)
  | PDereg a n =>
      '(c', target_mr) ← dereg_remove c a n;
      Some (c', if target_mr =? 0 then PDone UTRANS_RET_SUCC else PDestroy target_mr)
  | PDestroy target_mr => c' ← _mr_reg_item_destroy c target_mr; Some (c', PDone UTRANS_RET_SUCC)
  | PDone _ => None
  end.

(** What the allocator and UCX promise: fresh, non-null resources. *)
Record env_ok (env : regist_env) c : Prop := {
  eo_calloc : calloc_ret env <> 0 -> heap c !! calloc_ret env = None;
  eo_map p h : ucp_mem_map env p = Some h -> h <> 0 /\ h ∉ mapped c;
  eo_pack h k n : ucp_rkey_pack env h = Some (k, n) -> k <> 0 /\ n <> 0 /\ k ∉ rkeys c;
}.

Inductive sys_step : ucx_ctx T * list phase -> ucx_ctx T * list phase -> Prop :=
| SysStep i env c c' threads ph ph' :
    threads !! i = Some ph -> env_ok env c -> thread_step env c ph = Some (c', ph') ->
    sys_step (c, threads) (c', <[i := ph']> threads).

(** The calls that start: memory inside of the address space, not null. *)
Definition call_ok (ph : phase) : Prop :=
  match ph with
  | PRegist _ a n | PDereg a n => a <> 0 /\ region_ok (Region a n 0)
  | _ => False
  end.

(** The objects a thread owns, and whether it is counted as pending. *)
Definition owned (ph : phase) : list Z :=
  match ph with
  | PMap mrk | PPack mrk | PRecord mrk | PDestroy mrk => [mrk]
  | PFailed mrk => if mrk =? 0 then [] else [mrk]
  | _ => []
  end.

Definition pending (ph : phase) : nat :=
  match ph with
  | PCalloc _ _ _ | PMap _ | PPack _ | PRecord _ | PFailed _ => 1
  | _ => 0
  end.

Definition finished (ph : phase) : Prop := match ph with PDone _ => True | _ => False end.
End System.

(** ** Ledgers of resources *)

Definition nonnull (x : Z) : list Z := if x =? 0 then [] else [x].

(** The non-null resources the objects of the heap hold. *)
Definition held (f : mem_region_registed -> Z) (hp : gmap Z mem_region_registed) : list Z :=
  concat (map (fun po => nonnull (f po.2)) (map_to_list hp)).

(** Every resource of the ledger is held by one object and by one only. *)
Definition ledger (f : mem_region_registed -> Z) (hp : gmap Z mem_region_registed) (l : gset Z)
    : Prop := elements l ≡ₚ held f hp.

#[export] Instance concat_permutation {A} : Proper ((≡ₚ) ==> (≡ₚ)) (@concat A).
Proof.
  intros l l' Hl. induction Hl as [|x l l' _ IH|x y l|l l' l'' _ IH1 _ IH2]; cbn.
  - done.
  - by rewrite IH.
  - by rewrite !(assoc_L (++)), (Permutation_app_comm y x).
  - by rewrite IH1.
Qed.

Lemma held_insert f hp p o : hp !! p = None ->
  held f (<[p := o]> hp) ≡ₚ nonnull (f o) ++ held f hp.
Proof. intros Hp. unfold held. by rewrite map_to_list_insert. Qed.

Lemma held_delete f hp p o : hp !! p = Some o ->
  held f hp ≡ₚ nonnull (f o) ++ held f (delete p hp).
Proof. intros Hp. unfold held. by rewrite <- (map_to_list_delete hp p o). Qed.

Lemma held_update f hp p o o' : hp !! p = Some o ->
  held f (<[p := o']> hp) ≡ₚ nonnull (f o') ++ held f (delete p hp).
Proof. intros Hp. rewrite <- insert_delete_eq. apply held_insert, lookup_delete_eq. Qed.

Lemma ledger_new f hp l p o : hp !! p = None -> f o = 0 -> ledger f hp l ->
  ledger f (<[p := o]> hp) l.
Proof. unfold ledger. intros Hp Ho ->. by rewrite held_insert, Ho. Qed.

Lemma ledger_keep f hp l p o o' : hp !! p = Some o -> f o' = f o -> ledger f hp l ->
  ledger f (<[p := o']> hp) l.
Proof. unfold ledger. intros Hp Ho ->. by rewrite (held_update f hp p o), (held_delete f hp p o), Ho. Qed.

Lemma ledger_add f hp l p o o' : hp !! p = Some o -> f o = 0 -> f o' <> 0 -> f o' ∉ l ->
  ledger f hp l -> ledger f (<[p := o']> hp) ({[f o']} ∪ l).
Proof.
  unfold ledger. intros Hp Ho Ho' Hl Hled.
  rewrite elements_union_singleton, Hled by done.
  rewrite (held_update f hp p o), (held_delete f hp p o), Ho by done.
  unfold nonnull at 2. by rewrite (proj2 (Z.eqb_neq _ 0)) by done.
Qed.

Lemma ledger_in f hp l p o : hp !! p = Some o -> f o <> 0 -> ledger f hp l -> f o ∈ l.
Proof.
  unfold ledger. intros Hp Ho Hled. rewrite <- elem_of_elements, Hled, (held_delete f hp p o) by done.
  unfold nonnull. rewrite (proj2 (Z.eqb_neq _ 0)) by done. apply list_elem_of_here.
Qed.

Lemma ledger_remove f hp l p o : hp !! p = Some o -> ledger f hp l ->
  ledger f (delete p hp) (if f o =? 0 then l else l ∖ {[f o]}).
Proof.
  unfold ledger. intros Hp Hled.
  rewrite (held_delete f hp p o) in Hled by done. unfold nonnull in Hled.
  destruct (Z.eqb_spec (f o) 0) as [E|E]; [done|].
  apply (Permutation_cons_inv (a := f o)). change (f o :: held f (delete p hp)) with ([f o] ++ held f (delete p hp)).
  rewrite <- Hled, <- elements_union_singleton by set_solver.
  apply elements_proper. rewrite singleton_union_difference_L, difference_diag_L, difference_empty_L.
  assert (f o ∈ l) by (apply elem_of_elements; rewrite Hled; apply list_elem_of_here).
  set_solver.
Qed.

(** ** The list of regions up to order *)

Lemma region_insert_perm x L : region_insert x L ≡ₚ x :: L.
Proof.
  induction L as [|y L IH]; cbn; [done|]. destruct (decide (before y x)); [|done].
  rewrite IH. apply Permutation_swap.
Qed.

Lemma region_remove_perm y L : regions_ok L -> y ∈ L -> L ≡ₚ y :: region_remove (r_addr y) L.
Proof.
  intros [HL Hs]. induction Hs as [|z L Hs IH Hz]; intros Hy; [by apply elem_of_nil in Hy|].
  apply Forall_cons in HL as [Hzo HL]. rewrite Forall_forall in Hz. apply elem_of_cons in Hy as [-> |Hy].
  - rewrite region_remove_cons_eq, region_remove_id; [done|]. intros w Hw. specialize (Hz w Hw).
    unfold before, region_ok in *. lia.
  - rewrite region_remove_cons_ne by (specialize (Hz y Hy); unfold before, region_ok in *; lia).
    rewrite (IH HL Hy) at 1. apply Permutation_swap.
Qed.

Lemma abs_find_in L a n y : abs_find L a n = Some y -> y ∈ L /\ contains y a n.
Proof.
  unfold abs_find. intros Hy. apply head_Some_elem_of, list_elem_of_filter in Hy. tauto.
Qed.

(** ** The invariant *)

(** An object that is recorded for a region. *)
Definition registered (hp : gmap Z mem_region_registed) (y : region) : Prop :=
  exists o, hp !! r_val y = Some o /\ mr_addr (mr o) = r_addr y /\ mr_len (mr o) = r_len y /\
    hdl o <> 0 /\ rkey_cont o <> 0.

Definition phase_ok (hp : gmap Z mem_region_registed) (ph : phase) : Prop :=
  match ph with
  | PRegist _ a n | PCalloc _ a n | PDereg a n => a <> 0 /\ region_ok (Region a n 0)
  | PMap p => exists o, hp !! p = Some o /\ hdl o = 0 /\ rkey_cont o = 0
  | PPack p => exists o, hp !! p = Some o /\ hdl o <> 0 /\ rkey_cont o = 0
  | PRecord p => exists o, hp !! p = Some o /\ hdl o <> 0 /\ rkey_cont o <> 0
  | PFailed p => p = 0 \/ is_Some (hp !! p)
  | PDestroy p => is_Some (hp !! p)
  | PDone _ => True
  end.

Definition object_ok (p : Z) (o : mem_region_registed) : Prop :=
  p <> 0 /\ region_ok (Region (mr_addr (mr o)) (mr_len (mr o)) p) /\
  (rkey_cont o = 0 <-> rkey_size o = 0).

Section Invariant.
Context {T : Type} `{RegionSetLaws T}.
Implicit Types (c : ucx_ctx T) (threads : list phase).

(** Every object has one owner, the set or a thread. *)
Record reg_inv c threads : Prop := {
  ri_set : rs_ok (mr_set c);
  ri_owners : map r_val (rs_regions (mr_set c)) ++ concat (map owned threads)
              ≡ₚ (map_to_list (heap c)).*1;
  ri_objects : map_Forall object_ok (heap c);
  ri_regions : Forall (registered (heap c)) (rs_regions (mr_set c));
  ri_phases : Forall (phase_ok (heap c)) threads;
  ri_hdls : ledger hdl (heap c) (mapped c);
  ri_keys : ledger rkey_cont (heap c) (rkeys c);
  ri_pending : num_pending_mrs c = i32 (Z.of_nat (sum_list_with pending threads));
}.

Lemma reg_inv_perm c threads threads' : threads ≡ₚ threads' -> reg_inv c threads -> reg_inv c threads'.
Proof.
  intros Hp [? Ho ? ? Hph ? ? Hn]. split; auto.
  - by rewrite <- Ho, Hp.
  - by rewrite <- Hp.
  - rewrite Hn. f_equal. f_equal. clear -Hp. induction Hp; cbn; lia.
Qed.

Lemma insert_perm {A} (l : list A) i x y : l !! i = Some x ->
  exists r, l ≡ₚ x :: r /\ <[i := y]> l ≡ₚ y :: r.
Proof.
  intros Hi. exists (take i l ++ drop (S i) l). split.
  - by rewrite <- (take_drop_middle l i x) at 1 by done; rewrite Permutation_middle.
  - rewrite insert_take_drop by (by eapply lookup_lt_Some). by rewrite Permutation_middle.
Qed.

Lemma i32_idemp x d : i32 (i32 x + d) = i32 (x + d).
Proof.
  unfold i32. f_equal.
  replace ((x + 2 ^ 31) mod 2 ^ 32 - 2 ^ 31 + d + 2 ^ 31) with ((x + 2 ^ 31) mod 2 ^ 32 + d) by lia.
  rewrite Zplus_mod_idemp_l. f_equal. lia.
Qed.

(** An object of a thread belongs to nobody else. *)
Lemma owned_private c ph others p : reg_inv c (ph :: others) -> p ∈ owned ph ->
  (p ∉ map r_val (rs_regions (mr_set c))) /\ (p ∉ concat (map owned others)) /\
  is_Some (heap c !! p).
Proof.
  intros Hinv Hp. pose proof (ri_owners _ _ Hinv) as Ho. cbn in Ho.
  assert (NoDup (map r_val (rs_regions (mr_set c)) ++ owned ph ++ concat (map owned others))) as Hnd
    by (rewrite Ho; apply NoDup_fst_map_to_list).
  apply NoDup_app in Hnd as (_ & H1 & Hnd). apply NoDup_app in Hnd as (_ & H2 & _).
  split_and!.
  - intros Hin. apply (H1 p Hin), elem_of_app. by left.
  - by apply H2.
  - assert (p ∈ (map_to_list (heap c)).*1) as Hd
      by (rewrite <- Ho, !elem_of_app; tauto).
    apply list_elem_of_fmap in Hd as ([q o] & -> & Hq). apply elem_of_map_to_list in Hq. by eexists.
Qed.

Lemma phases_frame hp hp' others :
  (forall q, q ∈ concat (map owned others) -> hp' !! q = hp !! q) ->
  Forall (phase_ok hp) others -> Forall (phase_ok hp') others.
Proof.
  intros Hq Hf. induction Hf as [|ph others Hph _ IH]; constructor; cbn in Hq.
  - assert (forall q, q ∈ owned ph -> hp' !! q = hp !! q) as Hown
      by (intros; apply Hq, elem_of_app; by left).
    destruct ph; cbn in *; try done; try (rewrite Hown by apply list_elem_of_here; done).
    destruct Hph as [-> |Hph]; [by left|]. destruct (Z.eqb_spec mrk 0); [by left|].
    right. by rewrite Hown by apply list_elem_of_here.
  - apply IH. intros q Hin. apply Hq, elem_of_app. by right.
Qed.

Lemma regions_frame hp hp' L :
  (forall q, q ∈ map r_val L -> hp' !! q = hp !! q) ->
  Forall (registered hp) L -> Forall (registered hp') L.
Proof.
  rewrite !Forall_forall. intros Hq Hf y Hy. destruct (Hf y Hy) as (o & Ho & Hrest).
  exists o. rewrite Hq by (by apply list_elem_of_fmap_2). done.
Qed.

Lemma inv_same c ph ph' others : reg_inv c (ph :: others) ->
  owned ph' = owned ph -> phase_ok (heap c) ph' -> pending ph' = pending ph ->
  reg_inv c (ph' :: others).
Proof.
  intros [? Ho ? ? Hph ? ? Hn] Hown Hok Hp. apply Forall_cons in Hph as [_ Hph].
  split; cbn in *; auto; [by rewrite Hown|by rewrite Hp].
Qed.

Lemma inv_pending c d ph ph' others : reg_inv c (ph :: others) ->
  owned ph' = owned ph -> phase_ok (heap c) ph' ->
  Z.of_nat (pending ph') = Z.of_nat (pending ph) + d ->
  reg_inv (add_pending c d) (ph' :: others).
Proof.
  intros [? Ho ? ? Hph ? ? Hn] Hown Hok Hp. apply Forall_cons in Hph as [_ Hph].
  split; cbn in *; auto; [by rewrite Hown|]. rewrite Hn, i32_idemp. f_equal. lia.
Qed.

Lemma inv_update c ph ph' others p o o' m k : reg_inv c (ph :: others) ->
  owned ph = [p] -> owned ph' = [p] -> pending ph' = pending ph ->
  heap c !! p = Some o -> object_ok p o' -> phase_ok (<[p := o']> (heap c)) ph' ->
  ledger hdl (<[p := o']> (heap c)) m -> ledger rkey_cont (<[p := o']> (heap c)) k ->
  reg_inv (UcxCtx (num_pending_mrs c) (mr_set c) (<[p := o']> (heap c)) m k) (ph' :: others).
Proof.
  intros Hinv Hown Hown' Hpend Hp Ho' Hph' Hm Hk.
  destruct (owned_private c ph others p Hinv) as (Hr & Hq & _); [rewrite Hown; apply list_elem_of_here|].
  destruct Hinv as [? Ho Hobj Hreg Hph ? ? Hn]. apply Forall_cons in Hph as [_ Hph].
  split; cbn in *; auto.
  - rewrite Hown', <- Hown, Ho. rewrite <- insert_delete_eq.
    rewrite map_to_list_insert by apply lookup_delete_eq.
    by rewrite <- (map_to_list_delete (heap c) p o) by done.
  - by apply map_Forall_insert_2.
  - eapply regions_frame, Hreg. intros q Hin. apply lookup_insert_ne. congruence.
  - constructor; [done|]. eapply phases_frame, Hph. intros q Hin. apply lookup_insert_ne. congruence.
  - by rewrite Hpend.
Qed.

Lemma inv_calloc env c ty a n others : reg_inv c (PCalloc ty a n :: others) -> env_ok env c ->
  reg_inv (regist_calloc env c ty a n).1
    ((if (regist_calloc env c ty a n).2 =? 0 then PFailed 0 else PMap (calloc_ret env)) :: others).
Proof.
  intros Hinv Henv. unfold regist_calloc. pose proof (ri_phases _ _ Hinv) as Hph.
  apply Forall_cons in Hph as [[Ha Hok] Hph].
  destruct (Z.eqb_spec (calloc_ret env) 0) as [E|E]; cbn [fst snd].
  - rewrite Z.eqb_refl. eapply inv_same; cbn; eauto.
  - rewrite (proj2 (Z.eqb_neq _ 0)) by done. pose proof (eo_calloc _ _ Henv E) as Hnew.
    destruct Hinv as [? Ho Hobj Hreg _ Hm Hk Hn].
    assert (forall q l, q ∈ l -> l ⊆ (map_to_list (heap c)).*1 ->
      <[calloc_ret env := Registed (MemRegion a n ty) 0 0 0]> (heap c) !! q = heap c !! q) as Hfr.
    { intros q l Hq Hl. apply lookup_insert_ne. intros E2. apply Hl in Hq.
      apply list_elem_of_fmap in Hq as ([q2 o] & Eq & Hq). apply elem_of_map_to_list in Hq.
      cbn in *. congruence. }
    cbn in Ho. split; cbn; auto.
    + rewrite map_to_list_insert by done. cbn. rewrite <- Ho. symmetry. apply Permutation_middle.
    + apply map_Forall_insert_2; [|done]. split; [done|]. split; [done|]. done.
    + eapply regions_frame, Hreg. intros q Hin. apply (Hfr q _ Hin). intros ?. rewrite <- Ho, elem_of_app. tauto.
    + constructor; [exists (Registed (MemRegion a n ty) 0 0 0); by rewrite lookup_insert_eq|].
      eapply phases_frame, Hph. intros q Hin. apply (Hfr q _ Hin). intros ?. rewrite <- Ho, elem_of_app. tauto.
    + by apply ledger_new.
    + by apply ledger_new.
Qed.

Lemma phase_head c ph others : reg_inv c (ph :: others) -> phase_ok (heap c) ph.
Proof. intros Hinv. pose proof (ri_phases _ _ Hinv) as Hph. by apply Forall_cons in Hph as [? _]. Qed.

Lemma inv_map env c c' p ok others : reg_inv c (PMap p :: others) -> env_ok env c ->
  regist_map env c p = Some (c', ok) ->
  reg_inv c' ((if ok then PPack p else PFailed p) :: others).
Proof.
  intros Hinv Henv Hc. destruct (phase_head _ _ _ Hinv) as (o & Ho & Hh & Hk).
  destruct (ri_objects _ _ Hinv p o Ho) as (Hp0 & Hreg & Hkey).
  unfold regist_map in Hc. rewrite Ho in Hc. cbn [mbind option_bind] in Hc.
  destruct (ucp_mem_map env (map_params (mr o))) as [h|] eqn:E; injection Hc as <- <-.
  - destruct (eo_map _ _ Henv _ _ E) as [Hnz Hnew].
    apply (inv_update c (PMap p) (PPack p) others p o); cbn; auto.
    + by split.
    + exists (with_hdl o h). by rewrite lookup_insert_eq.
    + by apply (ledger_add hdl (heap c) (mapped c) p o (with_hdl o h)), (ri_hdls _ _ Hinv).
    + by eapply ledger_keep, (ri_keys _ _ Hinv).
  - eapply inv_same; [exact Hinv| |by right; eexists|done]. cbn. by rewrite (proj2 (Z.eqb_neq p 0)).
Qed.

Lemma inv_pack env c c' p ok others : reg_inv c (PPack p :: others) -> env_ok env c ->
  regist_pack env c p = Some (c', ok) ->
  reg_inv c' ((if ok then PRecord p else PFailed p) :: others).
Proof.
  intros Hinv Henv Hc. destruct (phase_head _ _ _ Hinv) as (o & Ho & Hh & Hk).
  destruct (ri_objects _ _ Hinv p o Ho) as (Hp0 & Hreg & Hkey).
  unfold regist_pack in Hc. rewrite Ho in Hc. cbn [mbind option_bind] in Hc.
  destruct (ucp_rkey_pack env (hdl o)) as [[k n]|] eqn:E; injection Hc as <- <-.
  - destruct (eo_pack _ _ Henv _ _ _ E) as (Hnz & Hn & Hnew).
    apply (inv_update c (PPack p) (PRecord p) others p o); cbn; auto.
    + by split.
    + exists (with_rkey o k n). by rewrite lookup_insert_eq.
    + by eapply ledger_keep, (ri_hdls _ _ Hinv).
    + by apply (ledger_add rkey_cont (heap c) (rkeys c) p o (with_rkey o k n)), (ri_keys _ _ Hinv).
  - eapply inv_same; [exact Hinv| |by right; eexists|done]. cbn. by rewrite (proj2 (Z.eqb_neq p 0)).
Qed.

(** Releasing an object that a thread owns. *)
Lemma inv_release c c' ph ret others p : reg_inv c (ph :: others) ->
  owned ph = [p] -> pending ph = 0%nat -> release_item c p = Some c' ->
  reg_inv c' (PDone ret :: others).
Proof.
  intros Hinv Hown Hpend Hc.
  destruct (owned_private c ph others p Hinv) as (Hr & Hq & o & Ho); [rewrite Hown; apply list_elem_of_here|].
  destruct (ri_objects _ _ Hinv p o Ho) as (Hp0 & _ & Hkey).
  unfold release_item in Hc. rewrite Ho in Hc. injection Hc as <-.
  destruct Hinv as [? Hperm Hobj Hreg Hph Hm Hk Hn]. apply Forall_cons in Hph as [_ Hph].
  cbn in Hperm, Hn. rewrite Hown in Hperm. rewrite Hpend in Hn. split; cbn; auto.
  - apply (Permutation_cons_inv (a := p)).
    change (p :: (map_to_list (delete p (heap c))).*1) with (((p, o) :: map_to_list (delete p (heap c))).*1).
    rewrite (map_to_list_delete (heap c) p o Ho), <- Hperm. apply Permutation_middle.
  - by apply map_Forall_delete.
  - eapply regions_frame, Hreg. intros q Hin. apply lookup_delete_ne. congruence.
  - constructor; [done|]. eapply phases_frame, Hph. intros q Hin. apply lookup_delete_ne. congruence.
  - by apply ledger_remove.
  - replace ((rkey_cont o =? 0) || (rkey_size o =? 0)) with (rkey_cont o =? 0); [by apply ledger_remove|].
    destruct (Z.eqb_spec (rkey_cont o) 0), (Z.eqb_spec (rkey_size o) 0); tauto.
Qed.

Lemma inv_failed c c' p others : reg_inv c (PFailed p :: others) ->
  regist_failed c p = Some c' -> reg_inv c' (PDone 0 :: others).
Proof.
  intros Hinv Hc. pose proof (phase_head _ _ _ Hinv) as Hph. unfold regist_failed in Hc.
  destruct (Z.eqb_spec p 0) as [-> |Hp].
  - injection Hc as <-. by eapply inv_pending.
  - destruct Hph as [|Hph]; [done|].
    eapply (inv_release (add_pending c (-1)) c' (PDestroy p)); [|done|done|exact Hc].
    eapply inv_pending; [exact Hinv| |exact Hph|done]. cbn. by rewrite (proj2 (Z.eqb_neq p 0)).
Qed.

Lemma inv_record env c c' p ok others : reg_inv c (PRecord p :: others) ->
  regist_record env c p = Some (c', ok) ->
  reg_inv c' ((if ok then PDone p else PFailed p) :: others).
Proof.
  intros Hinv Hc. destruct (phase_head _ _ _ Hinv) as (o & Ho & Hh & Hk).
  destruct (ri_objects _ _ Hinv p o Ho) as (Hp0 & Hreg & _).
  unfold regist_record in Hc. rewrite Ho in Hc. cbn [mbind option_bind] in Hc.
  bind_inv Hc. destruct p0 as [s f]. pose proof (ri_set _ _ Hinv) as Hset.
  destruct (rs_insert_law _ _ _ _ _ _ _ Hset Hreg Hp0 E) as [Hs Habs]. unfold abs_insert in Habs.
  destruct Hinv as [_ Hperm Hobj Hregs Hph Hm Hkeys Hn]. apply Forall_cons in Hph as [_ Hph].
  cbn in Hperm, Hn. destruct (node_malloc env && _); injection Habs as HL ->; injection Hc as <- <-.
  - split; cbn; auto.
    + rewrite HL, region_insert_perm, <- Hperm. cbn. apply Permutation_middle.
    + rewrite HL, region_insert_perm. constructor; [|done]. by exists o.
    + by constructor.
    + rewrite Hn, i32_idemp. f_equal. lia.
  - split; cbn; auto.
    + by rewrite (proj2 (Z.eqb_neq p 0)), HL.
    + by rewrite HL.
    + constructor; [|done]. right. by exists o.
Qed.

Lemma inv_dereg c c' a n target others : reg_inv c (PDereg a n :: others) ->
  dereg_remove c a n = Some (c', target) ->
  reg_inv c' ((if target =? 0 then PDone UTRANS_RET_SUCC else PDestroy target) :: others).
Proof.
  intros Hinv Hc. destruct (phase_head _ _ _ Hinv) as [Ha Hok]. pose proof (ri_set _ _ Hinv) as Hset.
  destruct (rs_remove_law _ _ _ Hset Hok) as (s & x & E & Hs & Habs).
  unfold dereg_remove in Hc. rewrite E in Hc. cbn in Hc. injection Hc as <- <-.
  destruct (rs_ok_regions _ Hset) as [HL Hnz]. unfold abs_remove in Habs.
  destruct Hinv as [_ Hperm Hobj Hregs Hph Hm Hkeys Hn]. apply Forall_cons in Hph as [_ Hph].
  cbn in Hperm, Hn. destruct (abs_find _ a n) as [y|] eqn:Ey; injection Habs as HL' ->.
  - apply abs_find_in in Ey as [Hy _]. pose proof (region_remove_perm _ _ HL Hy) as Hrem.
    rewrite (proj2 (Z.eqb_neq (r_val y) 0)) by exact (proj1 (Forall_forall _ _) Hnz y Hy).
    rewrite Hrem in Hregs. apply Forall_cons in Hregs as [(o & Ho & _) Hregs].
    split; cbn; rewrite ?HL'; auto.
    + rewrite <- Hperm. rewrite (Permutation_map r_val Hrem). cbn. symmetry. apply Permutation_middle.
    + constructor; [by exists o|done].
  - cbn. split; cbn; rewrite ?HL'; auto. by constructor.
Qed.

Lemma inv_step env c c' ph ph' others : reg_inv c (ph :: others) -> env_ok env c ->
  thread_step env c ph = Some (c', ph') -> reg_inv c' (ph' :: others).
Proof.
  intros Hinv Henv Hc. destruct ph as [ty a n|ty a n|p|p|p|p|a n|p|r]; cbn in Hc.
  - unfold regist_lookup in Hc. pose proof (phase_head _ _ _ Hinv) as Hph.
    destruct (negb (_ =? 0)) eqn:E; cbn in Hc.
    + rewrite E in Hc. injection Hc as <- <-. by eapply inv_same.
    + injection Hc as <- <-. by eapply inv_pending.
  - pose proof (inv_calloc _ _ _ _ _ _ Hinv Henv) as Hnext. unfold regist_calloc in *.
    destruct (Z.eqb_spec (calloc_ret env) 0) as [E|E]; cbn in *; injection Hc as <- <-; [done|].
    by rewrite (proj2 (Z.eqb_neq _ 0)) in * by done.
  - bind_inv Hc. destruct p0 as [c1 ok]. injection Hc as <- <-. by eapply inv_map.
  - bind_inv Hc. destruct p0 as [c1 ok]. injection Hc as <- <-. by eapply inv_pack.
  - bind_inv Hc. destruct p0 as [c1 ok]. injection Hc as <- <-. by eapply inv_record.
  - bind_inv Hc. injection Hc as <- <-. by eapply inv_failed.
  - bind_inv Hc. destruct p as [c1 t]. injection Hc as <- <-. by eapply inv_dereg.
  - bind_inv Hc. injection Hc as <- <-. unfold _mr_reg_item_destroy in E.
    destruct (phase_head _ _ _ Hinv) as [o Ho]. destruct (ri_objects _ _ Hinv p o Ho) as [Hp0 _].
    rewrite (proj2 (Z.eqb_neq p 0)) in E by done. by eapply inv_release.
  - done.
Qed.

Lemma inv_sys_step x y : sys_step x y -> reg_inv x.1 x.2 -> reg_inv y.1 y.2.
Proof.
  intros [i env c c' threads ph ph' Hi Henv Hc] Hinv. cbn in *.
  destruct (insert_perm threads i ph ph' Hi) as (r & H1 & H2).
  eapply reg_inv_perm; [symmetry; exact H2|]. eapply inv_step; [|exact Henv|exact Hc].
  by eapply reg_inv_perm.
Qed.

(** The context before any call: [calloc] zeroes it. *)
Definition initial (s0 : T) : ucx_ctx T := UcxCtx 0 s0 ∅ ∅ ∅.

Lemma inv_initial s0 calls : rs_ok s0 -> rs_regions s0 = [] -> Forall call_ok calls ->
  reg_inv (initial s0) calls.
Proof.
  intros Hs HL Hcalls.
  assert (concat (map owned calls) = [] /\ sum_list_with pending calls = 0%nat /\
          Forall (phase_ok ∅) calls) as (Ho & Hp & Hph).
  { induction Hcalls as [|ph calls Hc _ (IH1 & IH2 & IH3)]; [done|]. cbn. rewrite IH1, IH2.
    destruct ph; try done; (split_and!; [done|done|by constructor]). }
  split; cbn; auto; try (by rewrite ?HL, ?Ho, ?Hp, ?map_to_list_empty).
  - unfold ledger, held. by rewrite map_to_list_empty, elements_empty.
  - unfold ledger, held. by rewrite map_to_list_empty, elements_empty.
Qed.

Lemma inv_reachable s0 calls y : rs_ok s0 -> rs_regions s0 = [] -> Forall call_ok calls ->
  rtc sys_step (initial s0, calls) y -> reg_inv y.1 y.2.
Proof.
  intros Hs HL Hcalls Hr. pose proof (inv_initial s0 calls Hs HL Hcalls) as Hinv.
  change (initial s0) with (initial s0, calls).1 in Hinv. change calls with (initial s0, calls).2 in Hinv at 2.
  induction Hr as [x|x z y Hz _ IH]; [done|]. apply IH. by eapply inv_sys_step.
Qed.

(** When every thread has returned the set owns everything. *)
Lemma held_all_registered f hp : (forall p o, hp !! p = Some o -> f o <> 0) ->
  length (held f hp) = base.size hp.
Proof.
  intros Hf. unfold held. rewrite <- length_map_to_list.
  assert (forall po, po ∈ map_to_list hp -> f po.2 <> 0) as Hall
    by (intros [p o] Hin; eapply Hf, elem_of_map_to_list, Hin).
  induction (map_to_list hp) as [|po l IH]; [done|]. cbn. rewrite length_app, IH by set_solver.
  unfold nonnull. by rewrite (proj2 (Z.eqb_neq _ 0)) by (apply Hall, list_elem_of_here).
Qed.

Lemma inv_finished c threads : reg_inv c threads -> Forall finished threads ->
  base.size (heap c) = length (rs_regions (mr_set c)) /\
  base.size (mapped c) = length (rs_regions (mr_set c)) /\
  base.size (rkeys c) = length (rs_regions (mr_set c)) /\ num_pending_mrs c = 0.
Proof.
  intros [_ Hperm _ Hregs _ Hm Hk Hn] Hf.
  assert (concat (map owned threads) = [] /\ sum_list_with pending threads = 0%nat) as [Ho Hp].
  { clear -Hf. induction Hf as [|ph threads Hph _ [IH1 IH2]]; [done|]. cbn. rewrite IH1, IH2. by destruct ph. }
  rewrite Ho, app_nil_r in Hperm. rewrite Hp in Hn.
  assert (forall p o, heap c !! p = Some o -> hdl o <> 0 /\ rkey_cont o <> 0) as Hall.
  { intros p o Hpo. assert (p ∈ map r_val (rs_regions (mr_set c))) as Hin.
    { rewrite Hperm. apply list_elem_of_fmap. exists (p, o). by rewrite elem_of_map_to_list. }
    apply list_elem_of_fmap in Hin as (y & -> & Hy).
    destruct (proj1 (Forall_forall _ _) Hregs y Hy) as (o' & Ho' & _ & _ & Hnz). congruence. }
  assert (base.size (heap c) = length (rs_regions (mr_set c))) as Hsize.
  { apply Permutation_length in Hperm. by rewrite length_fmap, length_map, length_map_to_list in Hperm. }
  unfold ledger in *. apply Permutation_length in Hm, Hk.
  rewrite held_all_registered in Hm, Hk by (intros p o Hpo; by destruct (Hall p o Hpo)).
  unfold base.size at 2 3, set_size. cbn. rewrite Hm, Hk. done.
Qed.

(** A thread that cannot go on has returned, or its insertion does not return. *)
Lemma inv_progress env c ph others : reg_inv c (ph :: others) ->
  thread_step env c ph = None -> finished ph \/ exists mrk o, ph = PRecord mrk /\
    heap c !! mrk = Some o /\
    rs_insert (node_malloc env) (mr_set c) (mr_addr (mr o)) (mr_len (mr o)) mrk = None.
Proof.
  intros Hinv Hc. pose proof (phase_head _ _ _ Hinv) as Hph.
  destruct ph as [ty a n|ty a n|p|p|p|p|a n|p|r]; cbn in Hc, Hph.
  - by destruct (regist_lookup c a n).
  - by destruct (regist_calloc env c ty a n).
  - destruct Hph as (o & Ho & _). unfold regist_map in Hc. rewrite Ho in Hc. cbn in Hc.
    by destruct (ucp_mem_map env _).
  - destruct Hph as (o & Ho & _). unfold regist_pack in Hc. rewrite Ho in Hc. cbn in Hc.
    by destruct (ucp_rkey_pack env _) as [[]|].
  - destruct Hph as (o & Ho & _). right. exists p, o. split_and!; [done..|].
    unfold regist_record in Hc. rewrite Ho in Hc. cbn in Hc.
    destruct (rs_insert _ _ _ _ _) as [[s f]|]; [|done]. cbn in Hc. by destruct (f =? 0).
  - unfold regist_failed in Hc. destruct (Z.eqb_spec p 0); [done|].
    destruct Hph as [|[o Ho]]; [done|]. unfold release_item in Hc. cbn in Hc. by rewrite Ho in Hc.
  - destruct (rs_remove_law _ _ _ (ri_set _ _ Hinv) (proj2 Hph)) as (s & x & E & _).
    unfold dereg_remove in Hc. by rewrite E in Hc.
  - destruct Hph as [o Ho]. unfold _mr_reg_item_destroy, release_item in Hc. rewrite Ho in Hc.
    by destruct (p =? 0).
  - by left.
Qed.

(** C4: over any interleaving of registrations and deregistrations, whatever the
    allocator and UCX answer, every region recorded in the set has a live object with
    its address and length, a handle that is still mapped and a key buffer that is still
    packed; and once all calls have returned, no object, handle or key buffer is left but
    those of the recorded regions, and no registration is counted as pending.  A thread
    whose next step has no result has returned, or is at an insertion into the set that
    has none: no step uses a freed object. *)
Theorem registry_no_leak s0 calls c threads :
  rs_ok s0 -> rs_regions s0 = [] -> Forall call_ok calls ->
  rtc sys_step (initial s0, calls) (c, threads) ->
  (forall y, y ∈ rs_regions (mr_set c) -> exists o, heap c !! r_val y = Some o /\
    mr_addr (mr o) = r_addr y /\ mr_len (mr o) = r_len y /\
    (hdl o ∈ mapped c) /\ (rkey_cont o ∈ rkeys c)) /\
  (Forall finished threads ->
    base.size (heap c) = length (rs_regions (mr_set c)) /\
    base.size (mapped c) = length (rs_regions (mr_set c)) /\
    base.size (rkeys c) = length (rs_regions (mr_set c)) /\ num_pending_mrs c = 0) /\
  (forall env ph, ph ∈ threads -> thread_step env c ph = None ->
    finished ph \/ exists mrk o, ph = PRecord mrk /\ heap c !! mrk = Some o /\
      rs_insert (node_malloc env) (mr_set c) (mr_addr (mr o)) (mr_len (mr o)) mrk = None).
Proof.
  intros Hs HL Hcalls Hr. pose proof (inv_reachable s0 calls _ Hs HL Hcalls Hr) as Hinv. cbn in Hinv.
  split_and!.
  - intros y Hy. destruct (proj1 (Forall_forall _ _) (ri_regions _ _ Hinv) y Hy) as (o & Ho & ? & ? & ? & ?).
    exists o. split_and!; auto.
    + by eapply (ledger_in hdl), (ri_hdls _ _ Hinv).
    + by eapply (ledger_in rkey_cont), (ri_keys _ _ Hinv).
  - intros Hf. by eapply inv_finished.
  - intros env ph Hph Hstep. apply elem_of_Permutation in Hph as [others Hperm].
    eapply inv_progress, Hstep. eapply reg_inv_perm; [exact Hperm|exact Hinv].
Qed.

(** ** One call at a time *)

Lemma lookup_fresh c a n : reg_inv c [] -> region_ok (Region a n 0) ->
  Forall (disjoint_regions (Region a n 0)) (rs_regions (mr_set c)) ->
  rs_find (mr_set c) a n = 0.
Proof.
  intros Hinv Hok Hd. rewrite rs_find_law by (auto; apply (ri_set _ _ Hinv)).
  rewrite abs_find_None; [done|]. intros y Hy Hc. rewrite Forall_forall in Hd. specialize (Hd y Hy).
  unfold disjoint_regions, before, contains, region_ok in *. cbn in *. lia.
Qed.

Lemma lookup_covered c y a n : reg_inv c [] -> region_ok (Region a n 0) ->
  y ∈ rs_regions (mr_set c) -> contains y a n -> rs_find (mr_set c) a n = r_val y.
Proof.
  intros Hinv Hok Hy Hc. rewrite rs_find_law by (auto; apply (ri_set _ _ Hinv)).
  destruct (rs_ok_regions _ (ri_set _ _ Hinv)) as [HL _].
  rewrite (abs_find_Some _ _ _ y); auto. apply Hok.
Qed.

Lemma pending_restored c : reg_inv c [] -> i32 (i32 (num_pending_mrs c + 1) + -1) = num_pending_mrs c.
Proof.
  intros Hinv. rewrite i32_idemp, (ri_pending _ _ Hinv). cbn. done.
Qed.

(** Registering memory that overlaps no registered region either fails for a
    resource that was refused, and then leaves the context, the heap and UCX exactly as
    they were, or returns a new object that describes the memory, adds the region to the
    set and is the one a lookup of the memory finds. *)
Theorem regist_outcome env c ty a n : reg_inv c [] -> env_ok env c -> node_malloc env = true ->
  a <> 0 -> region_ok (Region a n 0) ->
  Forall (disjoint_regions (Region a n 0)) (rs_regions (mr_set c)) ->
  (_regist_pub_buf env c ty a n = Some (c, 0) /\
   (calloc_ret env = 0 \/ ucp_mem_map env (map_params (MemRegion a n ty)) = None \/
    exists h, ucp_mem_map env (map_params (MemRegion a n ty)) = Some h /\ ucp_rkey_pack env h = None)) \/
  exists c' h k m, _regist_pub_buf env c ty a n = Some (c', calloc_ret env) /\
    heap c' = <[calloc_ret env := Registed (MemRegion a n ty) h m k]> (heap c) /\
    mapped c' = {[h]} ∪ mapped c /\ rkeys c' = {[k]} ∪ rkeys c /\
    num_pending_mrs c' = num_pending_mrs c /\
    rs_regions (mr_set c') = region_insert (Region a n (calloc_ret env)) (rs_regions (mr_set c)) /\
    rs_find (mr_set c') a n = calloc_ret env.
Proof.
  intros Hinv Henv Hnode Ha Hok Hd. pose proof (pending_restored c Hinv) as Hpend.
  unfold _regist_pub_buf, regist_lookup, regist_calloc.
  rewrite (proj2 (Z.eqb_neq a 0)), lookup_fresh by done. cbn -[i32].
  destruct (Z.eqb_spec (calloc_ret env) 0) as [E0|E0].
  { left. cbn -[i32]. unfold add_pending. cbn -[i32]. rewrite Hpend. destruct c. auto. }
  pose proof (eo_calloc _ _ Henv E0) as Hnew. rewrite (proj2 (Z.eqb_neq _ 0)) by done.
  unfold regist_map. cbn -[i32]. rewrite lookup_insert_eq. cbn -[i32].
  destruct (ucp_mem_map env _) as [h|] eqn:Emap.
  2: { left. split; [|tauto]. cbn -[i32]. unfold regist_failed, release_item.
       rewrite (proj2 (Z.eqb_neq _ 0)) by done. cbn -[i32]. rewrite lookup_insert_eq. cbn -[i32].
       rewrite delete_insert_id, Hpend by done. by destruct c. }
  destruct (eo_map _ _ Henv _ _ Emap) as [Hh Hhnew].
  cbn -[i32]. unfold regist_pack. cbn -[i32]. rewrite lookup_insert_eq. cbn -[i32].
  destruct (ucp_rkey_pack env h) as [[k m]|] eqn:Epack.
  2: { left. split; [|eauto]. cbn -[i32]. unfold regist_failed, release_item.
       rewrite (proj2 (Z.eqb_neq _ 0)) by done. cbn -[i32]. rewrite lookup_insert_eq. cbn -[i32].
       rewrite (proj2 (Z.eqb_neq h 0)), insert_insert_eq, delete_insert_id, Hpend by done.
       replace (({[h]} ∪ mapped c) ∖ {[h]}) with (mapped c) by set_solver. by destruct c. }
  right. cbn -[i32]. unfold regist_record. cbn -[i32]. rewrite lookup_insert_eq. cbn -[i32].
  rewrite Hnode. assert (region_ok (Region a n (calloc_ret env))) as Hok' by done.
  destruct (rs_insert_total (mr_set c) a n (calloc_ret env)) as [[s f] Ei]; auto; [apply (ri_set _ _ Hinv)|].
  rewrite Ei. cbn -[i32].
  destruct (rs_insert_law _ _ _ _ _ _ _ (ri_set _ _ Hinv) Hok' E0 Ei) as [Hs Habs].
  unfold abs_insert in Habs. rewrite bool_decide_true in Habs by done. injection Habs as HL ->.
  cbn -[i32]. exists (UcxCtx (i32 (i32 (num_pending_mrs c + 1) + -1)) s
    (<[calloc_ret env := Registed (MemRegion a n ty) h m k]> (heap c)) ({[h]} ∪ mapped c) ({[k]} ∪ rkeys c)), h, k, m.
  cbn -[i32]. rewrite !insert_insert_eq. split_and!; auto.
  rewrite rs_find_law by done. destruct (rs_ok_regions _ Hs) as [HLok _].
  rewrite (abs_find_Some _ _ _ (Region a n (calloc_ret env))); [done|done|apply Hok| |unfold contains; cbn; lia].
  rewrite HL. apply elem_of_region_insert. by left.
Qed.

(** Registering memory inside of a registered region returns the object of that
    region and counts nothing; deregistering any part of the region drops all of it and
    frees its object, also for the others that were given it. *)
Theorem shared_region_dropped env c y ty a n : reg_inv c [] ->
  y ∈ rs_regions (mr_set c) -> a <> 0 -> region_ok (Region a n 0) -> contains y a n ->
  _regist_pub_buf env c ty a n = Some (c, r_val y) /\
  exists c', utrans_dereg_mem (Some c) a n = Some (Some c', UTRANS_RET_SUCC) /\
    rs_regions (mr_set c') = region_remove (r_addr y) (rs_regions (mr_set c)) /\
    heap c' = delete (r_val y) (heap c) /\
    (forall b m, contains y b m -> region_ok (Region b m 0) -> rs_find (mr_set c') b m = 0).
Proof.
  intros Hinv Hy Ha Hok Hc. destruct (rs_ok_regions _ (ri_set _ _ Hinv)) as [HL Hnz].
  assert (r_val y <> 0) as Hv by exact (proj1 (Forall_forall _ _) Hnz y Hy). split.
  { unfold _regist_pub_buf, regist_lookup.
    rewrite (proj2 (Z.eqb_neq a 0)), (lookup_covered c y) by done.
    rewrite (proj2 (Z.eqb_neq (r_val y) 0)) by done. cbn. by rewrite (proj2 (Z.eqb_neq (r_val y) 0)). }
  destruct (rs_remove_law _ _ _ (ri_set _ _ Hinv) Hok) as (s & x & E & Hs & Habs).
  unfold abs_remove in Habs. rewrite (abs_find_Some _ _ _ y) in Habs by (auto; apply Hok).
  injection Habs as HL' ->.
  destruct (proj1 (Forall_forall _ _) (ri_regions _ _ Hinv) y Hy) as (o & Ho & _).
  unfold utrans_dereg_mem, dereg_remove, _mr_reg_item_destroy, release_item.
  rewrite (proj2 (Z.eqb_neq a 0)), (proj2 (Z.eqb_neq n 0)) by (try done; unfold region_ok in Hok; cbn in Hok; lia).
  cbn. rewrite E. cbn. rewrite (proj2 (Z.eqb_neq (r_val y) 0)), Ho by done. cbn.
  eexists. split; [reflexivity|]. cbn. split_and!; auto.
  intros b m Hb Hbok. rewrite rs_find_law, HL', abs_find_None; auto.
  intros z Hz Hcz. unfold region_remove in Hz. apply list_elem_of_filter in Hz as [Hne Hz].
  apply Hne. f_equal. eapply contains_unique; [exact HL| | | |exact Hcz|exact Hb]; auto. apply Hbok.
Qed.
End Invariant.

(** ** Runs over the source's set *)

Module RegistryRuns.

(** An allocator and UCX that give these resources (0: refused). *)
Definition gives (p h k : Z) : regist_env :=
  RegistEnv p (fun _ => if h =? 0 then None else Some h)
    (fun _ => if k =? 0 then None else Some (k, 64)) true.

Definition fresh (c : ucx_ctx mr_set_t) (p h k : Z) : bool :=
  ((p =? 0) || bool_decide (heap c !! p = None)) && bool_decide (h ∉ mapped c) &&
  bool_decide (k ∉ rkeys c).

Lemma gives_ok c p h k : fresh c p h k = true -> env_ok (gives p h k) c.
Proof.
  unfold fresh. rewrite !andb_true_iff, orb_true_iff, !bool_decide_eq_true, Z.eqb_eq.
  intros [[Hp Hh] Hk]. split; cbn.
  - tauto.
  - intros _ h'. destruct (Z.eqb_spec h 0); [done|]. by intros [= <-].
  - intros _ k' n. destruct (Z.eqb_spec k 0); [done|]. by intros [= <- <-].
Qed.

Fixpoint run (sched : list (nat * (Z * Z * Z))) (x : ucx_ctx mr_set_t * list phase)
    : option (ucx_ctx mr_set_t * list phase) :=
  match sched with
  | [] => Some x
  | (i, (p, h, k)) :: sched' =>
      ph ← x.2 !! i;
      if negb (fresh x.1 p h k) then None else
      '(c', ph') ← thread_step (gives p h k) x.1 ph; run sched' (c', <[i := ph']> x.2)
  end.

Lemma run_reachable sched x y : run sched x = Some y -> rtc sys_step x y.
Proof.
  revert x. induction sched as [|[i [[p h] k]] sched IH]; intros [c threads] Hr; cbn -[fresh] in Hr.
  { injection Hr as <-. apply rtc_refl. }
  bind_inv Hr. destruct (fresh c p h k) eqn:Ef; [|done]. cbn [negb] in Hr.
  bind_inv Hr. destruct p1 as [c' ph']. eapply rtc_l, IH, Hr.
  econstructor; [exact E|by apply gives_ok|exact E0].
Qed.

(** Two threads register the same memory at the same time, a third
    registers other memory and a fourth deregisters a part of that. *)
Definition calls : list phase :=
  [PRegist MEM_TYPE_RAM 4096 100; PRegist MEM_TYPE_RAM 4096 100;
   PRegist MEM_TYPE_VRAM_GPU0 8192 64; PDereg 8200 8].

Definition sched : list (nat * (Z * Z * Z)) :=
  [(0%nat, (0, 0, 0)); (1%nat, (0, 0, 0)); (0%nat, (1, 0, 0)); (1%nat, (2, 0, 0));
   (1%nat, (0, 11, 0)); (0%nat, (0, 12, 0)); (2%nat, (0, 0, 0)); (2%nat, (3, 0, 0));
   (0%nat, (0, 0, 21)); (1%nat, (0, 0, 22)); (0%nat, (0, 0, 0)); (1%nat, (0, 0, 0));
   (1%nat, (0, 0, 0)); (2%nat, (0, 13, 0)); (2%nat, (0, 0, 23)); (2%nat, (0, 0, 0));
   (3%nat, (0, 0, 0)); (3%nat, (0, 0, 0))].

Definition start : ucx_ctx mr_set_t * list phase := (initial (MrSet NULL 0), calls).
Definition final : ucx_ctx mr_set_t * list phase := default start (run sched start).

(** The second registration of the same memory reports a failure. *)
Example final_threads : final.2 = [PDone 1; PDone 0; PDone 3; PDone 0].
Proof. vm_compute. reflexivity. Qed.

Lemma final_reachable : rtc sys_step start final.
Proof.
  apply (run_reachable sched). unfold final.
  assert (is_Some (run sched start)) as [y ->] by (vm_compute; eexists; reflexivity). done.
Qed.

Lemma calls_ok : Forall call_ok calls.
Proof. repeat constructor; cbn; lia. Qed.
End RegistryRuns.

Lemma registry_no_leak_witness :
  (forall y, y ∈ rs_regions (mr_set RegistryRuns.final.1) ->
    exists o, heap RegistryRuns.final.1 !! r_val y = Some o /\
    mr_addr (mr o) = r_addr y /\ mr_len (mr o) = r_len y /\
    (hdl o ∈ mapped RegistryRuns.final.1) /\ (rkey_cont o ∈ rkeys RegistryRuns.final.1)) /\
  base.size (mapped RegistryRuns.final.1) = 1%nat.
Proof.
  destruct (registry_no_leak (MrSet NULL 0) RegistryRuns.calls RegistryRuns.final.1 RegistryRuns.final.2)
    as (Hlive & Hend & _).
  - apply set_ok_empty.
  - reflexivity.
  - apply RegistryRuns.calls_ok.
  - rewrite <- surjective_pairing. apply RegistryRuns.final_reachable.
  - split; [exact Hlive|]. destruct Hend as (_ & -> & _); [|reflexivity].
    rewrite RegistryRuns.final_threads. repeat constructor.
Defined.

Lemma empty_inv : reg_inv (initial (MrSet NULL 0)) [].
Proof. apply inv_initial; [apply set_ok_empty|reflexivity|constructor]. Qed.

Lemma final_inv : reg_inv RegistryRuns.final.1 [].
Proof.
  pose proof (inv_reachable _ _ _ set_ok_empty eq_refl RegistryRuns.calls_ok RegistryRuns.final_reachable) as Hinv.
  rewrite RegistryRuns.final_threads in Hinv. destruct Hinv as [? Ho ? ? _ ? ? Hn]. by split.
Qed.

Lemma regist_outcome_witness :
  let c := initial (MrSet NULL 0) in
  let env := RegistryRuns.gives 1 11 21 in
  (_regist_pub_buf env c MEM_TYPE_RAM 4096 100 = Some (c, 0) /\
   (calloc_ret env = 0 \/ ucp_mem_map env (map_params (MemRegion 4096 100 MEM_TYPE_RAM)) = None \/
    exists h, ucp_mem_map env (map_params (MemRegion 4096 100 MEM_TYPE_RAM)) = Some h /\
      ucp_rkey_pack env h = None)) \/
  exists c' h k m, _regist_pub_buf env c MEM_TYPE_RAM 4096 100 = Some (c', 1) /\
    heap c' = <[1 := Registed (MemRegion 4096 100 MEM_TYPE_RAM) h m k]> (heap c) /\
    mapped c' = {[h]} ∪ mapped c /\ rkeys c' = {[k]} ∪ rkeys c /\
    num_pending_mrs c' = num_pending_mrs c /\
    rs_regions (mr_set c') = region_insert (Region 4096 100 1) (rs_regions (mr_set c)) /\
    rs_find (mr_set c') 4096 100 = 1.
Proof.
  apply (regist_outcome (RegistryRuns.gives 1 11 21) (initial (MrSet NULL 0)) MEM_TYPE_RAM 4096 100).
  - apply empty_inv.
  - apply RegistryRuns.gives_ok. reflexivity.
  - reflexivity.
  - lia.
  - split_and!; cbn; lia.
  - constructor.
Defined.

Lemma shared_region_dropped_witness :
  _regist_pub_buf (RegistryRuns.gives 5 15 25) RegistryRuns.final.1 MEM_TYPE_RAM 4100 8
    = Some (RegistryRuns.final.1, 1) /\
  exists c', utrans_dereg_mem (Some RegistryRuns.final.1) 4100 8 = Some (Some c', UTRANS_RET_SUCC) /\
    rs_regions (mr_set c') = region_remove 4096 (rs_regions (mr_set RegistryRuns.final.1)) /\
    heap c' = delete 1 (heap RegistryRuns.final.1) /\
    (forall b m, contains (Region 4096 100 1) b m -> region_ok (Region b m 0) ->
      rs_find (mr_set c') b m = 0).
Proof.
  apply (shared_region_dropped (RegistryRuns.gives 5 15 25) RegistryRuns.final.1 (Region 4096 100 1)
    MEM_TYPE_RAM 4100 8).
  - apply final_inv.
  - vm_compute. apply list_elem_of_here.
  - lia.
  - split_and!; cbn; lia.
  - split; cbn; lia.
Defined.
