(* ===== verification/UtransSetup.v ===== *)
(** * The set-up of a utrans context

    utrans/utrans.c and id_hash_map.c: the configuration, the UCX context and
    worker, and [utrans_setup], with the objects each call allocates and frees.
    The outcomes of the system calls and of UCX are parameters. *)

From S2P Require Import Prelude UtransUtils Registry.
From Stdlib Require Import Ascii.
Local Open Scope Z_scope.

(** ** Character arrays *)

Definition nul : ascii := "000"%char.

(** Reads past the end of an array are undefined. *)
Fixpoint strlen (a : list ascii) : result nat :=
  match a with
  | [] => Undef
  | c :: a' => if Ascii.eqb c nul then Ok O else n ← strlen a'; Ok (S n)
  end.

(** The characters [strncpy] reads of its source. *)
Fixpoint str_chars (a : list ascii) (n : nat) : result (list ascii) :=
  match n with
  | O => Ok []
  | S n' =>
      match a with
      | [] => Undef
      | c :: a' => if Ascii.eqb c nul then Ok [] else r ← str_chars a' n'; Ok (c :: r)
      end
  end.

Definition strncpy (dst src : list ascii) (n : nat) : result (list ascii) :=
  cs ← str_chars src n;
  if (n <=? length dst)%nat then Ok (cs ++ repeat nul (n - length cs) ++ drop n dst) else Undef.

(** A string in memory: its characters and a terminator. *)
Definition c_string (s : string) : list ascii := String.list_ascii_of_string s ++ [nul].

(** A character array of [n] elements that is initialised with a literal. *)
Definition c_array (n : nat) (s : string) : list ascii :=
  String.list_ascii_of_string s ++ repeat nul (n - String.length s).

Definition PATH_MAX : nat := 4096.
Definition NAME_MAX : nat := 255.

(** ** The configuration *)

Definition UTRANS_RET_INTERNAL_ERR : Z := -2.
Definition UTRANS_RET_NO_MEM : Z := -4.
Definition UTRANS_RET_UNSUPPORT : Z := -5.

Record utrans_log_config : Type := MkLogConfig {
  log_dir : list ascii; log_name : list ascii;
  log_max_line : Z; log_max_file_count : Z; log_max_size : Z; self_delete : Z;
}.

Record rdma_config : Type := MkRdmaConfig {
  valid_dev_patt : option string; num_pollers : Z; max_mr : Z;
}.

Record utrans_config : Type := MkUtransConfig {
  rpc_listen_port : Z; rdma_disabled : bool; log_conf : utrans_log_config; rdma_conf : rdma_config;
}.

(** [calloc] *)
Definition zero_config : utrans_config :=
  MkUtransConfig 0 false (MkLogConfig (repeat nul PATH_MAX) (repeat nul NAME_MAX) 0 0 0 0)
    (MkRdmaConfig None 0 0).

Definition default_cfg : utrans_config :=
  MkUtransConfig 0 false
    (MkLogConfig (c_array PATH_MAX ".") (c_array NAME_MAX "utrans") 2500000 2 (2 ^ 30) 1)
    (MkRdmaConfig None 8 1024).

(** [NUM_ARG_CHECK] *)
Definition num_arg (input def_val : Z) : option Z :=
  if 0 <? input then Some input else if input =? 0 then Some def_val else None.

(** [strncpy(dst, src, n - 1); dst[n - 1] = '\0'] on an array of [n] elements. *)
Definition copy_terminated (dst src : list ascii) : result (list ascii) :=
  let n := (length dst - 1)%nat in
  a ← strncpy dst src n; index_set a (Z.of_nat n) nul.

Section Setup.
Context (getenv : string -> option string).

Definition env_string (var : string) (dst : list ascii) : result (list ascii) :=
  match getenv var with Some v => copy_terminated dst (c_string v) | None => Ok dst end.

Definition _proc_env (c : utrans_config) : result utrans_config :=
  dir ← env_string "UTRANS_LOG_DIR" (log_dir (log_conf c));
  name ← env_string "UTRANS_LOG_NAME" (log_name (log_conf c));
  Ok (MkUtransConfig (rpc_listen_port c)
        (match getenv "UTRANS_DISABLE_RDMA" with Some _ => true | None => rdma_disabled c end)
        (MkLogConfig dir name (log_max_line (log_conf c)) (log_max_file_count (log_conf c))
           (log_max_size (log_conf c)) (self_delete (log_conf c)))
        (rdma_conf c)).

(** [if (strlen(src) != 0) strncpy(dst, src, sizeof(dst))] *)
Definition copy_nonempty (dst src : list ascii) : result (list ascii) :=
  n ← strlen src; if (n =? 0)%nat then Ok dst else strncpy dst src (length dst).

(** A directory without a name gets the default name, and the other way round. *)
Definition complete_log (l : utrans_log_config) : result utrans_log_config :=
  nd ← strlen (log_dir l);
  nn ← strlen (log_name l);
  name ← (if negb (nd =? 0)%nat && (nn =? 0)%nat
          then copy_terminated (log_name l) (log_name (log_conf default_cfg)) else Ok (log_name l));
  nn' ← strlen name;
  dir ← (if (nd =? 0)%nat && negb (nn' =? 0)%nat
         then copy_terminated (log_dir l) (log_dir (log_conf default_cfg)) else Ok (log_dir l));
  Ok (MkLogConfig dir name (log_max_line l) (log_max_file_count l) (log_max_size l) (self_delete l)).

(** The configuration of the context after the call; the fields checked before
    an invalid one are set. [patt_malloc] tells whether the copy of the device
    pattern finds memory. *)
Definition _parse_config (patt_malloc : bool) (config : option utrans_config) : result (Z * utrans_config) :=
  match config with
  | None => Ok (UTRANS_RET_SUCC, default_cfg)
  | Some c =>
      let l := log_conf c in
      let z := log_conf zero_config in
      let def := log_conf default_cfg in
      match num_arg (rpc_listen_port c) (rpc_listen_port default_cfg) with
      | None => Ok (UTRANS_RET_INVALID_ARGS, zero_config)
      | Some port =>
          dir ← copy_nonempty (log_dir z) (log_dir l);
          name ← copy_nonempty (log_name z) (log_name l);
          let at_log lines files size self :=
            MkUtransConfig port false (MkLogConfig dir name lines files size self) (MkRdmaConfig None 0 0) in
          match num_arg (log_max_line l) (log_max_line def) with
          | None => Ok (UTRANS_RET_INVALID_ARGS, at_log 0 0 0 0)
          | Some lines =>
              match num_arg (log_max_file_count l) (log_max_file_count def) with
              | None => Ok (UTRANS_RET_INVALID_ARGS, at_log lines 0 0 0)
              | Some files =>
                  match num_arg (log_max_size l) (log_max_size def) with
                  | None => Ok (UTRANS_RET_INVALID_ARGS, at_log lines files 0 0)
                  | Some size =>
                      let log := MkLogConfig dir name lines files size 1 in
                      let at_rdma patt pollers mr := MkUtransConfig port false log (MkRdmaConfig patt pollers mr) in
                      let patt := valid_dev_patt (rdma_conf c) in
                      if bool_decide (patt <> None) && negb patt_malloc
                      then Ok (UTRANS_RET_NO_MEM, at_rdma None 0 0) else
                      match num_arg (max_mr (rdma_conf c)) (max_mr (rdma_conf default_cfg)) with
                      | None => Ok (UTRANS_RET_INVALID_ARGS, at_rdma patt 0 0)
                      | Some mr =>
                          match num_arg (num_pollers (rdma_conf c)) (num_pollers (rdma_conf default_cfg)) with
                          | None => Ok (UTRANS_RET_INVALID_ARGS, at_rdma patt 0 mr)
                          | Some pollers =>
                              e ← _proc_env (MkUtransConfig port (rdma_disabled c) log (MkRdmaConfig patt pollers mr));
                              log' ← complete_log (log_conf e);
                              Ok (UTRANS_RET_SUCC,
                                  MkUtransConfig (rpc_listen_port e) (rdma_disabled e) log' (rdma_conf e))
                          end
                      end
                  end
              end
          end
      end
  end.

(** ** The context *)

(** What a set-up allocates. *)
Inductive obj : Type :=
| OCtx | OConf | OPatt | OLockPool | OMutex (i : nat) | OMap (i : nat) | OUcpContext | OUcpWorker | OUcpConfig.

#[export] Instance obj_eq_dec : EqDecision obj.
Proof. solve_decision. Defined.

Definition release (os : list obj) (live : list obj) : list obj := filter (fun o => o ∉ os) live.

(** The outcomes of the calls: memory found, a mutex initialised, UCX calls
    that return [UCS_OK]; the instance id. *)
Record setup_env : Type := MkSetupEnv {
  se_calloc_ctx : bool; se_calloc_conf : bool; se_malloc_patt : bool; se_malloc_locks : bool;
  se_mutex_init : nat -> bool;
  se_config_read : bool; se_ucp_init : bool; se_worker_create : bool;
  se_inst_id : Z;
}.

Record utrans_ctx : Type := MkUtransCtx {
  inst_id : Z; ctx_config : utrans_config; listen_port : Z; has_worker : bool; lock_num : nat;
}.

Definition UTRANS_PEER_MGR_LOCK_NUM : nat := 128.

(** [idhm_create] of id_hash_map.c: whether it returns a map. *)
Definition idhm_create (bucket_count lock_count : Z) : bool := false.

(** The locks from [i] on, [n] of them left; at a failure those before it are
    destroyed. *)
Fixpoint init_locks (env : setup_env) (n i : nat) (live : list obj) : bool * list obj :=
  match n with
  | O => (true, live)
  | S n' =>
      if se_mutex_init env i then init_locks env n' (S i) (OMutex i :: live)
      else (false, release (map OMutex (seq 0 i)) live)
  end.

Definition _ucp_worker_init (env : setup_env) : Z :=
  if se_worker_create env then UTRANS_RET_SUCC else UTRANS_RET_INTERNAL_ERR.

Definition _ucx_ctx_destroy (live : list obj) : list obj := release [OUcpContext] live.

(** [pucp_config] has no value when [ucp_config_read] fails, and is tested at
    the end. *)
Definition _ucx_ctx_init (env : setup_env) (live : list obj) : result (Z * list obj) :=
  if negb (se_config_read env) then Undef else
  let live := OUcpConfig :: live in
  if negb (se_ucp_init env) then Ok (UTRANS_RET_INTERNAL_ERR, release [OUcpConfig] live) else
  let live := OUcpContext :: live in
  let ret := _ucp_worker_init env in
  Ok (ret, release [OUcpConfig] (if ret =? UTRANS_RET_SUCC then OUcpWorker :: live else _ucx_ctx_destroy live)).

Section Context.
Context (idhm : Z -> Z -> bool) (env : setup_env).

(** The end of a set-up that failed: [utrans_clean] does nothing. *)
Definition setup_err (ret : Z) (live : list obj) : result (Z * option utrans_ctx * list obj) :=
  Ok (ret, None, release [OCtx; OConf] (_ucx_ctx_destroy live)).

(** The code, the context written to [*pputrz_ctx], and what stays allocated. *)
Definition utrans_setup (putrz_conf : option utrans_config) : result (Z * option utrans_ctx * list obj) :=
  let live := (if se_calloc_ctx env then [OCtx] else []) ++ (if se_calloc_conf env then [OConf] else []) in
  if negb (se_calloc_ctx env) || negb (se_calloc_conf env) then setup_err UTRANS_RET_NO_MEM live else
  '(ret, conf) ← _parse_config (se_malloc_patt env) putrz_conf;
  let live := (match valid_dev_patt (rdma_conf conf) with Some _ => [OPatt] | None => [] end) ++ live in
  if negb (ret =? UTRANS_RET_SUCC) then setup_err ret live else
  if rdma_disabled conf then setup_err UTRANS_RET_UNSUPPORT live else
  if negb (se_malloc_locks env) then setup_err UTRANS_RET_NO_MEM live else
  let '(ok, live) := init_locks env UTRANS_PEER_MGR_LOCK_NUM 0 (OLockPool :: live) in
  if negb ok then setup_err ret (release [OLockPool] live) else
  if negb (idhm 256 32) then setup_err UTRANS_RET_INTERNAL_ERR live else
  if negb (idhm 1024 64) then setup_err UTRANS_RET_INTERNAL_ERR (OMap 0 :: live) else
  '(ret, live) ← _ucx_ctx_init env (OMap 1 :: OMap 0 :: live);
  if negb (ret =? UTRANS_RET_SUCC) then setup_err ret live else
  Ok (ret, Some (MkUtransCtx (se_inst_id env) conf 0 true UTRANS_PEER_MGR_LOCK_NUM), live).
End Context.
End Setup.

Definition utrans_clean (pucx_ctx : option utrans_ctx) : Z := UTRANS_RET_SUCC.

(** The listener: the port [ucp_listener_create] is asked for, and its outcome. *)
Definition UTRANS_RET_RPC_SRV_ERR : Z := -15.

(** [htons] takes a [uint16_t]. *)
Definition u16 (x : Z) : Z := x mod 2 ^ 16.

Definition _ucx_srv_listen (listen : Z -> bool) (port : Z) : Z :=
  if listen (u16 port) then UTRANS_RET_SUCC else UTRANS_RET_RPC_SRV_ERR.

Definition utrans_setup_rpcsrv (listen : Z -> bool) (putrz_ctx : option utrans_ctx) : Z :=
  match putrz_ctx with
  | Some c => if has_worker c then _ucx_srv_listen listen (listen_port c) else UTRANS_RET_INVALID_ARGS
  | None => UTRANS_RET_INVALID_ARGS
  end.

Definition UTRANS_INVALID_INST_ID : Z := 0xFFFFFFFFFFFFFFFF.

Definition utrans_get_instid (putrz_ctx : option utrans_ctx) : Z :=
  match putrz_ctx with Some c => inst_id c | None => UTRANS_INVALID_INST_ID end.

Definition utrans_get_conf (putrz_ctx : option utrans_ctx) : option utrans_config :=
  option_map ctx_config putrz_ctx.

(** [utrans_get_conf(ctx)->rpc_listen_port = port] *)
Definition set_rpc_listen_port (port : Z) (c : utrans_ctx) : utrans_ctx :=
  let conf := ctx_config c in
  MkUtransCtx (inst_id c) (MkUtransConfig port (rdma_disabled conf) (log_conf conf) (rdma_conf conf))
    (listen_port c) (has_worker c) (lock_num c).

(** The operations that are not implemented. *)
Definition utrans_query_instid (peer_inst : Z) : Z * Z := (UTRANS_RET_SUCC, peer_inst).
Definition utrans_print_perf_info : Z := UTRANS_RET_UNSUPPORT.
Definition utrans_get_req_exec_result : Z := URES_SUCCESS.
(** The address of the request, null. *)
Definition utrans_exec_transfer : Z := 0.

(** ** Lemmas: character arrays *)

(** An array of [n] characters with a terminator. *)
Definition terminated (n : nat) (a : list ascii) : Prop := length a = n /\ nul ∈ a.

Lemma strlen_Ok a : nul ∈ a -> exists k, strlen a = Ok k /\ (k < length a)%nat.
Proof.
  induction a as [|c a IH]; intros H; [by apply not_elem_of_nil in H|]. cbn.
  destruct (Ascii.eqb_spec c nul) as [->|Hc]; [exists O; split; [done|lia]|].
  apply elem_of_cons in H as [E|H]; [congruence|]. destruct (IH H) as (k & -> & ?). exists (S k). split; [done|lia].
Qed.

Lemma str_chars_Ok a n : nul ∈ a -> exists cs k, str_chars a n = Ok cs /\ strlen a = Ok k /\
  length cs = Nat.min k n /\ (nul ∉ cs).
Proof.
  revert n. induction a as [|c a IH]; intros n H; [by apply not_elem_of_nil in H|].
  destruct (strlen_Ok (c :: a) H) as (k & Ek & _). destruct n as [|n].
  { exists [], k. split; [done|]. split; [done|]. split; [cbn; lia|apply not_elem_of_nil]. }
  cbn in Ek |- *. destruct (Ascii.eqb_spec c nul) as [->|Hc].
  { injection Ek as <-. exists [], O. split_and!; [done..|apply not_elem_of_nil]. }
  apply elem_of_cons in H as [E|H]; [congruence|].
  destruct (IH n H) as (cs & k' & -> & Ek' & Hl & Hn). rewrite Ek' in Ek. injection Ek as <-.
  exists (c :: cs), (S k'). cbn. rewrite Ek'. split_and!; [done..|lia|]. rewrite not_elem_of_cons. auto.
Qed.

Lemma strlen_app cs rest : (nul ∉ cs) -> strlen (cs ++ nul :: rest) = Ok (length cs).
Proof.
  induction cs as [|c cs IH]; cbn; [done|]. rewrite not_elem_of_cons. intros [Hc Hcs].
  destruct (Ascii.eqb_spec c nul); [by subst|]. by rewrite IH.
Qed.

Lemma copy_nonempty_Ok n dst src : terminated n dst -> terminated n src ->
  exists a, copy_nonempty dst src = Ok a /\ terminated n a.
Proof.
  intros [Hd Hdn] [Hs Hsn]. unfold copy_nonempty. destruct (strlen_Ok src Hsn) as (k & Ek & Hk).
  rewrite Ek. cbn. destruct (k =? 0)%nat; [by exists dst|].
  destruct (str_chars_Ok src (length dst) Hsn) as (cs & k' & E & Ek' & Hl & _).
  rewrite Ek in Ek'. injection Ek' as <-. unfold strncpy. rewrite E. cbn. rewrite Nat.leb_refl.
  eexists. split; [reflexivity|]. rewrite drop_all, app_nil_r. split.
  - rewrite length_app, repeat_length. lia.
  - apply elem_of_app. right. destruct (length dst - length cs)%nat eqn:El; [lia|]. left.
Qed.

Lemma copy_terminated_Ok n dst src : (0 < n)%nat -> length dst = n -> nul ∈ src ->
  exists cs k rest, copy_terminated dst src = Ok (cs ++ nul :: rest) /\ (nul ∉ cs) /\
    strlen src = Ok k /\ length cs = Nat.min k (n - 1) /\ terminated n (cs ++ nul :: rest).
Proof.
  intros Hn Hd Hs. unfold copy_terminated, strncpy. rewrite Hd.
  destruct (str_chars_Ok src (n - 1) Hs) as (cs & k & -> & Ek & Hl & Hcs). cbn [mbind result_bind].
  rewrite (proj2 (Nat.leb_le _ _)) by lia. cbn [mbind result_bind]. unfold index_set.
  rewrite (proj2 (Z.ltb_ge _ _)) by lia. rewrite Nat2Z.id.
  rewrite (proj2 (Nat.ltb_lt _ _)) by (rewrite !length_app, repeat_length, length_drop; lia).
  assert (length (drop (n - 1) dst) = 1%nat) as Hdr by (rewrite length_drop; lia).
  destruct (drop (n - 1) dst) as [|d [|]]; try discriminate Hdr.
  assert (<[(n - 1)%nat := nul]> (cs ++ repeat nul (n - 1 - length cs) ++ [d]) =
    cs ++ repeat nul (n - 1 - length cs) ++ [nul]) as ->.
  { rewrite insert_app_r_alt by lia. f_equal. rewrite insert_app_r_alt by (rewrite repeat_length; lia).
    rewrite repeat_length, Nat.sub_diag. done. }
  rewrite <-(repeat_cons (n - 1 - length cs) nul). exists cs, k, (repeat nul (n - 1 - length cs)).
  split_and!; [done..|]. split; [rewrite length_app; cbn; rewrite repeat_length; lia|].
  apply elem_of_app. right. left.
Qed.

#[local] Opaque PATH_MAX NAME_MAX.

Lemma c_array_terminated n s : (String.length s < n)%nat -> terminated n (c_array n s).
Proof.
  intros Hs. assert (length (String.list_ascii_of_string s) = String.length s) as Hl.
  { clear Hs. induction s as [|c s IH]; cbn; [done|]. by rewrite IH. }
  unfold c_array. split; [rewrite length_app, repeat_length; lia|].
  apply elem_of_app. right. destruct (n - String.length s)%nat eqn:E; [lia|]. left.
Qed.

Lemma path_max : PATH_MAX = 4096%nat.
Proof. reflexivity. Qed.

Lemma name_max : NAME_MAX = 255%nat.
Proof. reflexivity. Qed.

Lemma zeros_terminated n : (0 < n)%nat -> terminated n (repeat nul n).
Proof. intros Hn. split; [apply repeat_length|]. destruct n; [lia|]. left. Qed.

Lemma env_string_Ok getenv var n dst : (0 < n)%nat -> terminated n dst ->
  exists a, env_string getenv var dst = Ok a /\ terminated n a.
Proof.
  intros Hn [Hd Hdn]. unfold env_string. destruct (getenv var) as [v|]; [|by exists dst].
  destruct (copy_terminated_Ok n dst (c_string v) Hn Hd) as (cs & k & rest & -> & _ & _ & _ & Ht); [|eauto].
  apply elem_of_app. right. left.
Qed.

(** The arrays of a log configuration. *)
Definition log_arrays (l : utrans_log_config) : Prop :=
  terminated PATH_MAX (log_dir l) /\ terminated NAME_MAX (log_name l).

(** Logging goes to a directory and a file, or to neither. *)
Definition log_complete (l : utrans_log_config) : Prop :=
  log_arrays l /\ (strlen (log_dir l) = Ok O <-> strlen (log_name l) = Ok O).

Lemma fill_default n dst s : length dst = n -> (S (String.length s) < n)%nat -> (0 < String.length s)%nat ->
  (nul ∉ String.list_ascii_of_string s) ->
  exists a, copy_terminated dst (c_array n s) = Ok a /\ terminated n a /\ strlen a <> Ok O.
Proof.
  intros Hd Hs H0 Hn. pose proof (c_array_terminated n s ltac:(lia)) as [_ Hnul].
  destruct (copy_terminated_Ok n dst (c_array n s) ltac:(lia) Hd Hnul) as (cs & k & rest & E & Hcs & Ek & Hl & Ht).
  exists (cs ++ nul :: rest). split; [done|]. split; [done|]. rewrite strlen_app by done. intros [= H1].
  unfold c_array in Ek. destruct (n - String.length s)%nat eqn:En; [lia|]. cbn [repeat] in Ek.
  rewrite strlen_app in Ek by done. injection Ek as <-.
  assert (length (String.list_ascii_of_string s) = String.length s) as Hls.
  { clear. induction s as [|c s IH]; cbn; [done|]. by rewrite IH. }
  lia.
Qed.

Lemma complete_log_Ok l : log_arrays l -> exists l', complete_log l = Ok l' /\ log_complete l' /\
  log_max_line l' = log_max_line l /\ log_max_file_count l' = log_max_file_count l /\
  log_max_size l' = log_max_size l.
Proof.
  intros [Hd Hn]. pose proof Hd as [Hdl Hdn]. pose proof Hn as [Hnl Hnn]. unfold complete_log.
  change (log_dir (log_conf default_cfg)) with (c_array PATH_MAX ".").
  change (log_name (log_conf default_cfg)) with (c_array NAME_MAX "utrans").
  destruct (strlen_Ok _ Hdn) as (nd & Ed & _), (strlen_Ok _ Hnn) as (nn & En & _).
  rewrite Ed, En. cbn [mbind result_bind].
  destruct (Nat.eqb_spec nd 0) as [->|Hd0], (Nat.eqb_spec nn 0) as [->|Hn0]; cbn [negb andb mbind result_bind].
  - rewrite En. cbn. eexists. split; [reflexivity|]. split; [|done]. split; [by split|]. cbn. by rewrite Ed, En.
  - rewrite En. cbn [mbind result_bind]. rewrite (proj2 (Nat.eqb_neq nn 0)) by done. cbn [negb].
    destruct (fill_default PATH_MAX (log_dir l) ".") as (a & -> & Ha & Hz); [done|rewrite path_max; cbn; lia|cbn; lia|set_solver|].
    cbn. eexists. split; [reflexivity|]. split; [|done]. split; [by split|]. cbn. rewrite En. naive_solver.
  - destruct (fill_default NAME_MAX (log_name l) "utrans") as (a & -> & Ha & Hz); [done|rewrite name_max; cbn; lia|cbn; lia|set_solver|].
    cbn [mbind result_bind]. destruct (strlen_Ok _ (proj2 Ha)) as (na & Ea & _). rewrite Ea. cbn [mbind result_bind].
    eexists. split; [reflexivity|]. split; [|done]. split; [by split|]. cbn. rewrite Ed, Ea in *. naive_solver.
  - rewrite En. cbn. eexists. split; [reflexivity|]. split; [|done]. split; [by split|]. cbn. rewrite Ed, En. naive_solver.
Qed.

Lemma num_arg_pos x d y : num_arg x d = Some y -> 0 < d -> 0 < y.
Proof. unfold num_arg. destruct (Z.ltb_spec 0 x); [|destruct (x =? 0)]; intros [= <-]; lia. Qed.

(** ** Properties *)

(** A configuration the library can run with. *)
Definition config_ok (c : utrans_config) : Prop :=
  0 <= rpc_listen_port c /\ log_complete (log_conf c) /\ 0 < log_max_line (log_conf c) /\
  0 < log_max_file_count (log_conf c) /\ 0 < log_max_size (log_conf c) /\
  0 < num_pollers (rdma_conf c) /\ 0 < max_mr (rdma_conf c).

Lemma default_config_ok : config_ok default_cfg.
Proof.
  unfold config_ok. split; [done|]. split; [|split_and!; reflexivity].
  assert (forall n s, (0 < String.length s)%nat -> (String.length s < n)%nat -> (nul ∉ String.list_ascii_of_string s) ->
    strlen (c_array n s) <> Ok O) as H.
  { intros n s H0 Hs Hn. unfold c_array. destruct (n - String.length s)%nat eqn:E; [lia|]. cbn [repeat].
    rewrite strlen_app by done. destruct s; [cbn in H0; lia|]. done. }
  split; [split; apply c_array_terminated; rewrite ?path_max, ?name_max; cbn; lia|].
  pose proof (H PATH_MAX "." ltac:(cbn; lia) ltac:(rewrite path_max; cbn; lia) ltac:(set_solver)).
  pose proof (H NAME_MAX "utrans" ltac:(cbn; lia) ltac:(rewrite name_max; cbn; lia) ltac:(set_solver)). done.
Qed.

(** Reading the configuration never reads or writes outside of its
    character arrays, whatever the environment variables hold, and a
    configuration that is accepted has a usable value in every field: terminated
    names, a log directory if and only if there is a log name, and positive limits. *)
Theorem parse_config_safe getenv patt_malloc config :
  (forall c, config = Some c -> log_arrays (log_conf c)) ->
  exists ret conf, _parse_config getenv patt_malloc config = Ok (ret, conf) /\
    (ret = UTRANS_RET_SUCC -> config_ok conf).
Proof.
  intros Hc. destruct config as [c|]; [|do 2 eexists; split; [reflexivity|]; intros _; apply default_config_ok].
  destruct (Hc c eq_refl) as [Hd Hn]. unfold _parse_config.
  destruct (num_arg (rpc_listen_port c) _) as [port|] eqn:Ep; [|by do 2 eexists].
  assert (0 <= port).
  { unfold num_arg in Ep. destruct (Z.ltb_spec 0 (rpc_listen_port c)); [|destruct (_ =? 0)]; simplify_eq; cbn; lia. }
  destruct (copy_nonempty_Ok PATH_MAX (log_dir (log_conf zero_config)) (log_dir (log_conf c))) as (dir & -> & Hdir);
    [apply zeros_terminated; rewrite path_max; lia|done|].
  destruct (copy_nonempty_Ok NAME_MAX (log_name (log_conf zero_config)) (log_name (log_conf c))) as (name & -> & Hname);
    [apply zeros_terminated; rewrite name_max; lia|done|]. cbn [mbind result_bind].
  destruct (num_arg (log_max_line _) _) as [lines|] eqn:E1; [|by do 2 eexists].
  destruct (num_arg (log_max_file_count _) _) as [files|] eqn:E2; [|by do 2 eexists].
  destruct (num_arg (log_max_size _) _) as [size|] eqn:E3; [|by do 2 eexists].
  destruct (_ && _); [by do 2 eexists|].
  destruct (num_arg (max_mr _) _) as [mr|] eqn:E4; [|by do 2 eexists].
  destruct (num_arg (num_pollers _) _) as [pollers|] eqn:E5; [|by do 2 eexists].
  apply num_arg_pos in E1, E2, E3, E4, E5; [|done..].
  unfold _proc_env. cbn [log_conf log_dir log_name].
  destruct (env_string_Ok getenv "UTRANS_LOG_DIR" PATH_MAX dir) as (dir' & -> & Hdir'); [rewrite path_max; lia|done|].
  destruct (env_string_Ok getenv "UTRANS_LOG_NAME" NAME_MAX name) as (name' & -> & Hname'); [rewrite name_max; lia|done|].
  cbn [mbind result_bind log_conf].
  destruct (complete_log_Ok (MkLogConfig dir' name' lines files size 1)) as (l & E & Hl & H1 & H2 & H3); [by split|].
  cbn in E. cbn. rewrite E. cbn. do 2 eexists. split; [reflexivity|]. intros _. unfold config_ok. cbn in *.
  split; [done|]. split; [done|]. rewrite H1, H2, H3. done.
Qed.

Definition no_env (_ : string) : option string := None.

Lemma parse_config_safe_witness :
  exists ret conf, _parse_config no_env true (Some default_cfg) = Ok (ret, conf) /\
    (ret = UTRANS_RET_SUCC -> config_ok conf).
Proof. apply (parse_config_safe no_env true (Some default_cfg)). intros c [= <-]. apply default_config_ok. Defined.

Lemma init_locks_all env n i live : (forall j, se_mutex_init env j = true) ->
  init_locks env n i live = (true, rev (map OMutex (seq i n)) ++ live).
Proof.
  intros H. revert i live. induction n as [|n IH]; intros i live; cbn; [done|].
  rewrite H, IH. by rewrite <-app_assoc.
Qed.

Lemma release_keep o os l : o ∈ l -> (o ∉ os) -> o ∈ release os l.
Proof. intros Hl Ho. unfold release. by apply list_elem_of_filter. Qed.

(** A context that is set up has a worker, and no port to listen on. *)
Lemma utrans_setup_ctx getenv idhm env config ret u live :
  utrans_setup getenv idhm env config = Ok (ret, Some u, live) -> listen_port u = 0 /\ has_worker u = true.
Proof.
  intros H. unfold utrans_setup, setup_err in H.
  destruct (_ || _); [done|]. destruct (_parse_config _ _ _) as [[r conf]| |]; [|done..].
  cbn [mbind result_bind] in H. destruct (negb (r =? _)); [done|]. destruct (rdma_disabled conf); [done|].
  destruct (negb (se_malloc_locks env)); [done|]. destruct (init_locks _ _ _ _) as [[] l]; [|done]. cbn [negb] in H.
  destruct (idhm 256 32); [|done]. destruct (idhm 1024 64); [|done]. cbn [negb] in H.
  destruct (_ucx_ctx_init _ _) as [[r' l']| |]; [|done..]. cbn [mbind result_bind] in H.
  destruct (negb (r' =? _)); [done|]. by injection H as _ <- _.
Qed.

(** No set-up yields a context. *)
Lemma utrans_setup_no_ctx getenv env config ret ctx live :
  utrans_setup getenv idhm_create env config = Ok (ret, ctx, live) -> ctx = None.
Proof.
  intros H. unfold utrans_setup, setup_err in H.
  destruct (_ || _); [by injection H|]. destruct (_parse_config _ _ _) as [[r conf]| |]; [|done..].
  cbn [mbind result_bind] in H. destruct (negb (r =? _)); [by injection H|]. destruct (rdma_disabled conf); [by injection H|].
  destruct (negb (se_malloc_locks env)); [by injection H|]. destruct (init_locks _ _ _ _) as [[] l]; by injection H.
Qed.

(** The library cannot be set up.  The map [utrans_setup] needs is created
    by a function that always returns null, so no call ever yields a context;
    with memory, locks and an accepted configuration the call fails with an
    internal error and leaves the lock pool and its 128 mutexes allocated, and a
    mutex that cannot be initialised makes it return success without a context. *)
Theorem utrans_setup_fails getenv env config :
  (forall ret ctx live, utrans_setup getenv idhm_create env config = Ok (ret, ctx, live) -> ctx = None) /\
  (se_calloc_ctx env = true -> se_calloc_conf env = true -> se_malloc_locks env = true ->
   forall conf, _parse_config getenv (se_malloc_patt env) config = Ok (UTRANS_RET_SUCC, conf) ->
   rdma_disabled conf = false ->
   ((forall i, se_mutex_init env i = true) ->
      exists live, utrans_setup getenv idhm_create env config = Ok (UTRANS_RET_INTERNAL_ERR, None, live) /\
        OLockPool ∈ live /\ forall i, (i < UTRANS_PEER_MGR_LOCK_NUM)%nat -> OMutex i ∈ live) /\
   (se_mutex_init env 0 = false ->
      exists live, utrans_setup getenv idhm_create env config = Ok (UTRANS_RET_SUCC, None, live))).
Proof.
  split.
  - apply utrans_setup_no_ctx.
  - intros Hc1 Hc2 Hm conf Hp Hr. unfold utrans_setup. rewrite Hc1, Hc2, Hp, Hm. cbn [negb orb mbind result_bind].
    rewrite Z.eqb_refl, Hr. cbn [negb]. split.
    + intros Hi. rewrite init_locks_all by done. cbn [negb idhm_create]. eexists. split; [reflexivity|].
      assert (forall o, o <> OCtx -> o <> OConf -> o <> OUcpContext -> forall l, o ∈ l -> o ∈ release [OCtx; OConf] (_ucx_ctx_destroy l)) as Hrel.
      { intros o H1 H2 H3 l Hl. apply release_keep; [apply release_keep; [done|]|];
          rewrite !not_elem_of_cons; auto using not_elem_of_nil. }
      split; [apply Hrel; [done..|]; apply elem_of_app; right; left|].
      intros i Hi'. apply Hrel; [done..|]. apply elem_of_app. left. rewrite list_elem_of_In, <-in_rev, <-list_elem_of_In.
      apply list_elem_of_fmap_2. apply elem_of_seq. lia.
    + intros Hi. unfold UTRANS_PEER_MGR_LOCK_NUM. cbn [init_locks]. rewrite Hi. cbn [negb]. eexists. reflexivity.
Qed.

(** With a map that can be created, a set-up succeeds and frees what only the
    set-up needed. *)
Definition all_ok (id : Z) : setup_env := MkSetupEnv true true true true (fun _ => true) true true true id.

Theorem utrans_setup_succeeds getenv id config conf :
  _parse_config getenv true config = Ok (UTRANS_RET_SUCC, conf) -> rdma_disabled conf = false ->
  exists live, utrans_setup getenv (fun _ _ => true) (all_ok id) config =
      Ok (UTRANS_RET_SUCC, Some (MkUtransCtx id conf 0 true UTRANS_PEER_MGR_LOCK_NUM), live) /\
    OUcpContext ∈ live /\ OUcpWorker ∈ live /\ OUcpConfig ∉ live.
Proof.
  intros Hp Hr. unfold utrans_setup. cbn [all_ok se_calloc_ctx se_calloc_conf se_malloc_patt se_malloc_locks negb orb].
  rewrite Hp. cbn [mbind result_bind]. rewrite Z.eqb_refl, Hr. cbn [negb]. rewrite init_locks_all by done.
  unfold _ucx_ctx_init, _ucp_worker_init. cbn [all_ok se_config_read se_ucp_init se_worker_create negb mbind result_bind].
  rewrite Z.eqb_refl. cbn [negb]. eexists. split; [reflexivity|]. unfold release.
  rewrite !list_elem_of_filter, !list_elem_of_singleton. split_and!; [done|right; left|done|left|].
  intros [H _]. done.
Qed.

(** The port that is configured for the server is ignored: whatever port
    the transporter writes into the configuration of a context, the listener is
    created on the port 0. *)
Theorem rpc_port_ignored getenv id config conf ctx live listen port :
  _parse_config getenv true config = Ok (UTRANS_RET_SUCC, conf) -> rdma_disabled conf = false ->
  utrans_setup getenv (fun _ _ => true) (all_ok id) config = Ok (UTRANS_RET_SUCC, Some ctx, live) ->
  utrans_setup_rpcsrv listen (Some (set_rpc_listen_port port ctx)) =
    if listen 0 then UTRANS_RET_SUCC else UTRANS_RET_RPC_SRV_ERR.
Proof.
  intros Hp Hr E.
  apply utrans_setup_ctx in E as [H1 H2].
  unfold utrans_setup_rpcsrv, _ucx_srv_listen. cbn. by rewrite H1, H2.
Qed.

Definition demo_ctx : utrans_ctx := MkUtransCtx 5 default_cfg 0 true UTRANS_PEER_MGR_LOCK_NUM.

Lemma rpc_port_ignored_witness :
  utrans_setup_rpcsrv (fun p => p =? 0) (Some (set_rpc_listen_port 8000 demo_ctx)) = UTRANS_RET_SUCC.
Proof.
  eapply (rpc_port_ignored no_env 5 None default_cfg demo_ctx _ (fun p => p =? 0) 8000); [reflexivity..|].
  unfold utrans_setup. cbn [all_ok se_calloc_ctx se_calloc_conf se_malloc_patt se_malloc_locks negb orb].
  cbn [_parse_config mbind result_bind]. rewrite init_locks_all by done. reflexivity.
Defined.
