(* ===== verification/Log.v ===== *)
(** * The log files of utrans

    utrans/log.c, log.h and file_utils.c: a log that is split into files when it
    has too many lines or bytes, of which only the newest are kept.  The file
    system is a part of the state; that a call fails is decided by the
    parameter [deny], in which order a directory is listed by [readdir].

    The theorems show which part of everything that was logged is on disk, and
    that the files are bounded; when setting up a log ends; which file a restart
    forgets; what writing by buffers does to the limit on the size; and that
    the lock does not exclude other threads while a file is being changed. *)

From stdpp Require Import gmap strings.
From S2P Require Import Prelude StringUtils UtransSetup.
Local Open Scope Z_scope.

(** ** The system *)

Record sys : Type := MkSys { files : gmap string string; dirs : gset string; console : string; errno : Z }.

Definition set_files (f : gmap string string) (s : sys) : sys := MkSys f (dirs s) (console s) (errno s).
Definition set_errno (e : Z) (s : sys) : sys := MkSys (files s) (dirs s) (console s) e.

Inductive io : Type := IoAccess | IoMkdir | IoOpendir | IoLstat | IoOpen | IoRename | IoRemove | IoWrite.

(** The error that a call on a path ends with, and the entries of a directory. *)
Class OS : Type := {
  deny : io -> string -> sys -> option Z;
  readdir : string -> sys -> list string;
}.

Definition ENOENT : Z := 2.
Definition EEXIST : Z := 17.

Definition on_disk (path : string) (s : sys) : Prop := path ∈ dirs s \/ is_Some (files s !! path).
#[global] Instance on_disk_dec path s : Decision (on_disk path s).
Proof. apply or_dec; [apply _|]. destruct (files s !! path); [left|right]; [done|by intros [? ?]]. Defined.

(** [snprintf(buf, n, "%s", text)] *)
Definition snprintf (n : nat) (text : string) : string := String.substring 0 (n - 1) text.

(** [strtoul(str, &end, 10)]: the value and the text at [end]. *)
Fixpoint after_digits (s : string) : string :=
  match s with
  | String c s' => if is_digit c then after_digits s' else s
  | EmptyString => EmptyString
  end.

Definition skip_sign (s : string) : string :=
  match s with
  | String c s' => if bool_decide (c = "-"%char) || bool_decide (c = "+"%char) then s' else s
  | EmptyString => EmptyString
  end.

Definition strtoul (s : string) : Z * string :=
  match strto s with
  | None => (0, s)
  | Some (neg, m) =>
      (if 2 ^ 64 <=? m then 2 ^ 64 - 1 else if neg : bool then u64 (- m) else m, after_digits (skip_sign (trim_front s)))
  end.

Section System.
  Context `{OS}.

Definition access (path : string) (s : sys) : bool * sys :=
  match deny IoAccess path s with
  | Some e => (false, set_errno e s)
  | None => if decide (on_disk path s) then (true, s) else (false, set_errno ENOENT s)
  end.

Definition mkdir (path : string) (s : sys) : bool * sys :=
  match deny IoMkdir path s with
  | Some e => (false, set_errno e s)
  | None => if decide (on_disk path s) then (false, set_errno EEXIST s)
            else (true, MkSys (files s) ({[path]} ∪ dirs s) (console s) (errno s))
  end.

Definition opendir (path : string) (s : sys) : bool * sys :=
  match deny IoOpendir path s with
  | Some e => (false, set_errno e s)
  | None => if decide (path ∈ dirs s) then (true, s) else (false, set_errno ENOENT s)
  end.

(** Whether it is a directory. *)
Definition lstat (path : string) (s : sys) : option bool * sys :=
  match deny IoLstat path s with
  | Some e => (None, set_errno e s)
  | None => if decide (path ∈ dirs s) then (Some true, s)
            else match files s !! path with Some _ => (Some false, s) | None => (None, set_errno ENOENT s) end
  end.

(** [fopen(path, "wb+")] *)
Definition fopen (path : string) (s : sys) : bool * sys :=
  match deny IoOpen path s with
  | Some e => (false, set_errno e s)
  | None => (true, set_files (<[path := EmptyString]> (files s)) s)
  end.

Definition rename_file (old new : string) (s : sys) : bool * sys :=
  match deny IoRename old s with
  | Some e => (false, set_errno e s)
  | None => match files s !! old with
            | Some text => (true, set_files (<[new := text]> (delete old (files s))) s)
            | None => (false, set_errno ENOENT s)
            end
  end.

Definition remove_file (path : string) (s : sys) : bool * sys :=
  match deny IoRemove path s with
  | Some e => (false, set_errno e s)
  | None => match files s !! path with
            | Some _ => (true, set_files (delete path (files s)) s)
            | None => (false, set_errno ENOENT s)
            end
  end.

(** A stream that is written: a log file, or the standard output. *)
Inductive stream : Type := LogFile (path : string) | Stdout.

(** What is written to a file that was removed is lost. *)
Definition write_stream (f : stream) (text : string) (s : sys) : bool * sys :=
  match f with
  | Stdout => (true, MkSys (files s) (dirs s) (console s ++ text) (errno s))
  | LogFile path =>
      match deny IoWrite path s with
      | Some e => (false, set_errno e s)
      | None => match files s !! path with
                | Some old => (true, set_files (<[path := (old ++ text)%string]> (files s)) s)
                | None => (true, s)
                end
      end
  end.

(** The length of what was printed, or -1. *)
Definition vfprintf (f : stream) (text : string) (s : sys) : Z * sys :=
  let '(ok, s) := write_stream f text s in (if ok : bool then Z.of_nat (String.length text) else -1, s).

(** [fwrite(buf, buf_size, 1, f)]: the number of items, of which there is one. *)
Definition fwrite1 (f : stream) (buf : string) (s : sys) : Z * sys :=
  if decide (buf = EmptyString) then (0, s)
  else let '(ok, s) := write_stream f buf s in (if ok : bool then 1 else 0, s).

(** ** file_utils.c *)

(** The loop over [dir_name]: [before] are the characters before the index. *)
Fixpoint create_dir_loop (before rest : string) (s : sys) : Z * sys :=
  match rest with
  | EmptyString => (0, s)
  | String c rest' =>
      if bool_decide (c = "/"%char) then
        let '(ok, s) := access before s in
        if ok : bool then create_dir_loop (push_back before c) rest' s
        else
          let '(made, s) := mkdir before (set_errno 0 s) in
          if made : bool then create_dir_loop (push_back before c) rest' s else (-1, s)
      else create_dir_loop (push_back before c) rest' s
  end.

Fixpoint ends_with (c : ascii) (s : string) : bool :=
  match s with
  | EmptyString => false
  | String d EmptyString => bool_decide (d = c)
  | String _ s' => ends_with c s'
  end.

(** The index starts behind a leading slash. *)
Definition create_dir (dir : string) (s : sys) : Z * sys :=
  if decide (dir = EmptyString) then (-1, s)
  else
    let dir_name := if ends_with "/" dir then dir else push_back dir "/" in
    match dir_name with
    | String c rest => if bool_decide (c = "/"%char) then create_dir_loop (String c EmptyString) rest s
                       else create_dir_loop EmptyString dir_name s
    | EmptyString => (0, s)
    end.
End System.

(** "^[a-zA-Z0-9_/\\.-]+$": in brackets the backslash stands for itself. *)
Definition legal_char (c : ascii) : bool :=
  let n := nat_of_ascii c in
  is_digit c || ((65 <=? n) && (n <=? 90))%nat || ((97 <=? n) && (n <=? 122))%nat ||
  bool_decide (c ∈ ["_"%char; "/"%char; "\"%char; "."%char; "-"%char]).

Fixpoint all_legal (s : string) : bool :=
  match s with EmptyString => true | String c s' => legal_char c && all_legal s' end.

Definition check_file_path_legal (dir : string) : Z :=
  if negb (String.eqb dir EmptyString) && all_legal dir then 0 else -1.

(** ** A log *)

Definition LOG_DEFAULT_MAX_LINE : Z := 2500000.
Definition LOG_DEFAULT_MAX_FILE_COUNT : Z := 2.
Definition LOG_DEFAULT_MAX_SIZE : Z := 2 ^ 30.
Definition LOG_MAX_LINE_LIMIT : Z := 20000000.
Definition LOG_MAX_FILE_COUNT_LIMIT : Z := 20.
Definition LOG_MAX_SIZE_LIMIT : Z := 2 ^ 35.

Record log_config : Type := MkLogCfg { cfg_max_line : Z; cfg_max_file_count : Z; cfg_max_size : Z; cfg_self_delete : Z }.

Record log_instance : Type := MkLog {
  utils_log_file : option stream;
  log_lines : Z;
  log_file_name : string;
  dbg_level : Z;
  file_idx : Z;
  last_file_idx : Z;
  log_size : Z;
  log_cfg : log_config;
}.

(** All bytes zero. *)
Definition zero_log : log_instance := MkLog None 0 EmptyString 0 0 0 0 (MkLogCfg 0 0 0 0).

Definition set_log_file (f : option stream) (i : log_instance) : log_instance :=
  MkLog f (log_lines i) (log_file_name i) (dbg_level i) (file_idx i) (last_file_idx i) (log_size i) (log_cfg i).
Definition set_counts (lines sz : Z) (i : log_instance) : log_instance :=
  MkLog (utils_log_file i) lines (log_file_name i) (dbg_level i) (file_idx i) (last_file_idx i) sz (log_cfg i).
Definition set_idx (idx last_idx : Z) (i : log_instance) : log_instance :=
  MkLog (utils_log_file i) (log_lines i) (log_file_name i) (dbg_level i) idx last_idx (log_size i) (log_cfg i).

Definition utils_log_init_cfg (max_count max_line max_size self_del : Z) : Z * option log_config :=
  if LOG_MAX_FILE_COUNT_LIMIT <? max_count then (-1, None)
  else if LOG_MAX_LINE_LIMIT <? max_line then (-1, None)
  else if LOG_MAX_SIZE_LIMIT <? max_size then (-1, None)
  else (0, Some (MkLogCfg max_line max_count max_size (if self_del =? 0 then 0 else 1))).

Definition utils_log_inited__i (i : log_instance) : bool := match utils_log_file i with Some _ => true | None => false end.

Definition utils_log_has_stale__i (i : log_instance) : bool :=
  cfg_max_file_count (log_cfg i) <=? u64 (file_idx i - last_file_idx i).

Definition utils_log_obsolete_last_idx (i : log_instance) : Z * log_instance :=
  (last_file_idx i, set_idx (file_idx i) (u64 (last_file_idx i + 1)) i).

(** A signed [int] is counted. *)
Definition utils_log_addline__i (i : log_instance) : result log_instance :=
  if bool_decide (in_i32 (log_lines i + 1)) then Ok (set_counts (log_lines i + 1) (log_size i) i) else Undef.

Definition lib2easy_log_debug_level (i : log_instance) : Z := dbg_level i.
Definition lib2easy_log_debug_onoff (onoff : Z) (i : log_instance) : log_instance :=
  MkLog (utils_log_file i) (log_lines i) (log_file_name i) onoff (file_idx i) (last_file_idx i) (log_size i) (log_cfg i).

(** "%s.%lu" in a buffer with 22 bytes more than the name. *)
Definition rotated_name (base : string) (idx : Z) : string :=
  snprintf (String.length base + 20 + 2) (base ++ "." ++ to_string idx).

Section Log.
  Context `{OS}.

Definition open_log_file (i : log_instance) (s : sys) : log_instance * sys :=
  let '(ok, s) := fopen (log_file_name i) s in
  (set_log_file (Some (if ok : bool then LogFile (log_file_name i) else Stdout)) i, s).

Definition close_log_file (i : log_instance) : log_instance := set_log_file None i.

Definition remove_log_file (i : log_instance) (idx : Z) (s : sys) : sys :=
  (remove_file (rotated_name (log_file_name i) idx) s).2.

Definition remove_last_log_file (i : log_instance) (s : sys) : log_instance * sys :=
  let '(idx, i) := utils_log_obsolete_last_idx i in (i, remove_log_file i idx s).

Definition move_log_file (i : log_instance) (idx : Z) (s : sys) : log_instance * sys :=
  if decide (log_file_name i = EmptyString) then (i, s)
  else
    let s := (rename_file (log_file_name i) (rotated_name (log_file_name i) idx) s).2 in
    let i := if last_file_idx i =? 0 then set_idx (file_idx i) idx i else i in
    if (cfg_max_file_count (log_cfg i) <=? u64 (idx - last_file_idx i)) && negb (cfg_self_delete (log_cfg i) =? 0)
    then remove_last_log_file i s else (i, s).

(** One entry of the directory: the newest index, the last one, whether the
    log file exists. *)
Definition calc_entry (dir_name suf_name d_name : string) (st : Z * Z * bool * sys) : Z * Z * bool * sys :=
  let '(newest, last, exists_, s) := st in
  let '(kind, s) := lstat (snprintf 1024 (dir_name ++ "/" ++ d_name)) s in
  match kind with
  | None | Some true => (newest, last, exists_, s)
  | Some false =>
      if has_prefix suf_name d_name then
        match String.substring (String.length suf_name) (String.length d_name - String.length suf_name) d_name with
        | EmptyString => (newest, last, true, s)
        | String c rest =>
            if bool_decide (c = "."%char) then
              let '(idx, end_ptr) := strtoul rest in
              if decide (end_ptr = EmptyString) then
                (if newest <? idx then idx else newest, if (idx <? last) || (last =? 0) then idx else last, exists_, s)
              else (newest, last, exists_, s)
            else (newest, last, exists_, s)
        end
      else (newest, last, exists_, s)
  end.

(** The code, [*newest_idx] and [*last_idx]. *)
Definition calc_init_log_idx (dir_name name : string) (s : sys) : Z * Z * Z * sys :=
  let '(opened, s) := opendir dir_name s in
  if negb opened then (- errno s, 0, 0, s)
  else
    let suf_name := snprintf 64 (name ++ ".log") in
    let '(newest, last, exists_, s) :=
      foldl (fun st d_name => calc_entry dir_name suf_name d_name st) (0, 0, false, s) (readdir dir_name s) in
    if exists_ : bool then
      let str := snprintf 1024 (dir_name ++ "/" ++ suf_name) in
      let target := snprintf 1024 (dir_name ++ "/" ++ suf_name ++ "." ++ to_string (u64 (newest + 1))) in
      let '(moved, s) := rename_file str target s in
      (0, if moved : bool then u64 (newest + 1) else newest, last, s)
    else (0, newest, last, s).

(** The loop that removes stale files, for at most [fuel] rounds. *)
Fixpoint remove_stale (fuel : nat) (i : log_instance) (s : sys) : option (log_instance * sys) :=
  if utils_log_has_stale__i i then
    match fuel with
    | O => None
    | S fuel' => let '(i, s) := remove_last_log_file i s in remove_stale fuel' i s
    end
  else Some (i, s).

Definition default_log_config : log_config :=
  MkLogCfg LOG_DEFAULT_MAX_LINE LOG_DEFAULT_MAX_FILE_COUNT LOG_DEFAULT_MAX_SIZE 1.

(** [None] when the loop takes more than [fuel] rounds. *)
Definition utils_log_init__i (fuel : nat) (dir_name logname : string) (cfg : option log_config) (i : log_instance) (s : sys)
    : option (Z * log_instance * sys) :=
  if utils_log_inited__i i then Some (0, i, s)
  else
    let i := zero_log in
    let '(ret, s) := create_dir dir_name s in
    if negb (ret =? 0) then Some (- errno s, close_log_file i, s)
    else
      let '(ret, new_idx, last_idx, s) := calc_init_log_idx dir_name logname s in
      if ret <? 0 then Some (ret, close_log_file i, s)
      else
        let i := MkLog None 0 (snprintf 1024 (dir_name ++ "/" ++ logname ++ ".log")) 0 new_idx last_idx 0
                   (default default_log_config cfg) in
        let '(i, s) := open_log_file i s in
        '(i, s) ← remove_stale fuel i s;
        Some (ret, i, s).

Definition utils_log_init_again__i (fuel : nat) (dir logname : string) (cfg : option log_config) (i : log_instance) (s : sys)
    : option (Z * log_instance * sys) :=
  utils_log_init__i fuel dir logname cfg (if utils_log_inited__i i then close_log_file i else i) s.

(** Without memory, or after a set-up that failed, there is no log. *)
Definition utils_log_create (malloc : bool) (fuel : nat) (dir logname : string) (cfg : option log_config) (s : sys)
    : option (option log_instance * sys) :=
  if negb malloc then Some (None, s)
  else '(ret, i, s) ← utils_log_init__i fuel dir logname cfg zero_log s;
       Some (if ret <? 0 then None else Some i, s).

(** What is left of the log is freed. *)
Definition utils_log_destroy (i : option log_instance) : option log_instance := None.

Definition utils_log_checkline__i (i : log_instance) (s : sys) : log_instance * sys :=
  if (cfg_max_line (log_cfg i) <? u64 (log_lines i)) || (cfg_max_size (log_cfg i) <=? log_size i) then
    let i := close_log_file i in
    let i := set_idx (u64 (file_idx i + 1)) (last_file_idx i) i in
    let '(i, s) := move_log_file i (file_idx i) s in
    let '(i, s) := open_log_file i s in
    (set_counts 0 0 i, s)
  else (i, s).

Definition utils_log_lock__i (i : log_instance) : result log_instance :=
  if utils_log_inited__i i then utils_log_addline__i i else Ok i.

Definition utils_log_unlock__i (i : log_instance) (s : sys) : log_instance * sys :=
  if utils_log_inited__i i then utils_log_checkline__i i s else (i, s).

(** [utils_log_valist] and [utils_log_va], with the formatted text. *)
Definition utils_log_va (i : log_instance) (text : string) (s : sys) : log_instance * sys :=
  match utils_log_file i with
  | Some f => let '(n, s) := vfprintf f text s in (set_counts (log_lines i) (u64 (log_size i + n)) i, s)
  | None => (i, (vfprintf Stdout text s).2)
  end.

Definition utils_log_output_with_buffer (i : log_instance) (buf : string) (s : sys) : log_instance * sys :=
  match utils_log_file i with
  | Some f => let '(n, s) := fwrite1 f buf s in (set_counts (log_lines i) (u64 (log_size i + n)) i, s)
  | None => (i, (fwrite1 Stdout buf s).2)
  end.

(** What was written is in the files at once, and flushing changes nothing. *)
Definition utils_log_flush (i : log_instance) (s : sys) : log_instance * sys := (i, s).

Definition utils_log_flush_with_buffer (i : log_instance) (buf : string) (s : sys) : log_instance * sys :=
  let '(i, s) := utils_log_output_with_buffer i buf s in utils_log_flush i s.

(** The macro LOG; LOGI, LOGE and the others put the time before the text. *)
Definition LOG (i : log_instance) (text : string) (s : sys) : result (log_instance * sys) :=
  i ← utils_log_lock__i i;
  let '(i, s) := utils_log_va i text s in
  let '(i, s) := utils_log_flush i s in
  Ok (utils_log_unlock__i i s).

Fixpoint log_all (texts : list string) (i : log_instance) (s : sys) : result (log_instance * sys) :=
  match texts with
  | [] => Ok (i, s)
  | text :: texts' => '(i, s) ← LOG i text s; log_all texts' i s
  end.
End Log.

(** "%0wd" *)
Definition pad (w : nat) (n : Z) : string :=
  let digits := to_string n in
  (String.concat EmptyString (repeat "0"%string (w - String.length digits)) ++ digits)%string.

(** [struct tm] of [localtime_r] *)
Record tm : Type := MkTm { tm_year : Z; tm_mon : Z; tm_mday : Z; tm_hour : Z; tm_min : Z; tm_sec : Z }.

Definition format_tm (size : nat) (p : tm) (millis : Z) : string :=
  snprintf size (pad 4 (tm_year p + 1900) ++ "-" ++ pad 2 (tm_mon p + 1) ++ "-" ++ pad 2 (tm_mday p) ++ " " ++
                 pad 2 (tm_hour p) ++ ":" ++ pad 2 (tm_min p) ++ ":" ++ pad 2 (tm_sec p) ++ "," ++ pad 3 millis).

Definition utils_log_format_time (localtime : Z -> tm) (timep tv_usec : Z) (size : nat) : string :=
  format_tm size (localtime timep) (Z.quot tv_usec 1000).

Definition utils_log_format_user_time (localtime : Z -> tm) (dt : Z) (size : nat) : string :=
  format_tm size (localtime (i64 (dt / 1000))) (dt mod 1000).

(** ** Names of files *)

(** The buffer for the name is long enough. *)
Lemma rotated_name_full base k : in_u64 k -> rotated_name base k = (base ++ "." ++ to_string k)%string.
Proof.
  intros Hk. apply substring_all. pose proof (to_string_length_u64 k Hk). rewrite !string_length_app. cbn. lia.
Qed.

Lemma rotated_name_inj base j k : in_u64 j -> in_u64 k -> rotated_name base j = rotated_name base k -> j = k.
Proof.
  intros Hj Hk. rewrite !rotated_name_full by done. intros E. apply String.app_inj, String.app_inj in E.
  by apply to_string_inj.
Qed.

Lemma rotated_name_base base k : in_u64 k -> rotated_name base k <> base.
Proof.
  intros Hk E. rewrite rotated_name_full in E by done. apply (f_equal String.length) in E.
  rewrite !string_length_app in E. cbn in E. lia.
Qed.

(** ** What is on disk *)

Definition bytes (text : string) : Z := Z.of_nat (String.length text).
Definition cat (texts : list string) : string := foldr String.append EmptyString texts.

Lemma bytes_app a b : bytes (a ++ b)%string = bytes a + bytes b.
Proof. unfold bytes. rewrite string_length_app. lia. Qed.

Lemma bytes_nonneg a : 0 <= bytes a.
Proof. unfold bytes. lia. Qed.

Lemma cat_app l k : cat (l ++ k) = (cat l ++ cat k)%string.
Proof. induction l as [|a l IH]; [done|]. cbn [app cat foldr]. fold (cat (l ++ k)). rewrite IH. by rewrite string_app_assoc. Qed.

(** The last [n] of a list. *)
Definition newest {A} (n : nat) (l : list A) : list A := drop (length l - n) l.

Lemma newest_all {A} n (l : list A) : (length l <= n)%nat -> newest n l = l.
Proof. intros Hn. unfold newest. by replace (length l - n)%nat with 0%nat by lia. Qed.

Lemma length_newest {A} n (l : list A) : length (newest n l) = Nat.min n (length l).
Proof. unfold newest. rewrite length_drop. lia. Qed.

Lemma newest_snoc {A} n (l : list A) x : (0 < n)%nat -> newest n (newest n l ++ [x]) = newest n (l ++ [x]).
Proof.
  intros Hn. unfold newest. rewrite !length_app, length_drop. cbn [length].
  rewrite !drop_app_le by (rewrite ?length_drop; lia). rewrite drop_drop. do 2 f_equal. lia.
Qed.

Lemma Forall_newest {A} (P : A -> Prop) n l : Forall P l -> Forall P (newest n l).
Proof. apply Forall_drop. Qed.

(** What a log writes, without regard to files: those that were closed, the lines
    of the open one, and its text.  A file is closed after the line that reaches a limit. *)
Definition spec_line (cfg : log_config) (st : list string * Z * string) (text : string) : list string * Z * string :=
  let '(closed, lines, cur) := st in
  let cur := (cur ++ text)%string in
  if (cfg_max_line cfg <? lines + 1) || (cfg_max_size cfg <=? bytes cur) then (closed ++ [cur], 0, EmptyString)
  else (closed, lines + 1, cur).

Definition spec_log (cfg : log_config) (texts : list string) : list string * Z * string :=
  foldl (spec_line cfg) ([], 0, EmptyString) texts.

Lemma spec_log_cat cfg texts : forall closed lines cur,
  let '(closed', _, cur') := foldl (spec_line cfg) (closed, lines, cur) texts in
  (cat closed' ++ cur' = cat closed ++ cur ++ cat texts)%string.
Proof.
  induction texts as [|text texts IH]; intros closed lines cur; cbn [foldl].
  - cbn [cat foldr]. by rewrite string_app_nil.
  - unfold spec_line at 2. destruct (_ || _).
    + specialize (IH (closed ++ [cur ++ text]%string) 0 EmptyString). destruct (foldl _ _ _) as [[closed' l'] cur'].
      rewrite IH, cat_app. cbn [cat foldr]. fold (cat texts). by rewrite !string_app_nil, !string_app_assoc.
    + specialize (IH closed (lines + 1) (cur ++ text)%string). destruct (foldl _ _ _) as [[closed' l'] cur'].
      rewrite IH. cbn [cat foldr]. fold (cat texts). by rewrite !string_app_assoc.
Qed.

(** The files with an index hold [rot], the oldest first. *)
Definition rotated_files (base : string) (last idx : Z) (f : gmap string string) (rot : list string) : Prop :=
  (rot = [] -> last = 0) /\ (rot <> [] -> 0 < last /\ last + Z.of_nat (length rot) = idx + 1) /\
  forall k, in_u64 k -> f !! rotated_name base k = if last <=? k then rot !! Z.to_nat (k - last) else None.

Definition good_config (c : log_config) : Prop :=
  0 < cfg_max_file_count c < 2 ^ 63 /\ 0 <= cfg_max_line c < 2 ^ 31 - 1 /\ 0 < cfg_max_size c < 2 ^ 62 /\ cfg_self_delete c <> 0.

(** The log file holds [cur], the others [rot]; lines have at most [L] bytes. *)
Record log_holds (L : Z) (i : log_instance) (s : sys) (rot : list string) (cur : string) : Prop := {
  lh_cfg : good_config (log_cfg i);
  lh_file : utils_log_file i = Some (LogFile (log_file_name i));
  lh_name : log_file_name i <> EmptyString;
  lh_cur : files s !! log_file_name i = Some cur;
  lh_size : log_size i = bytes cur;
  lh_below : bytes cur < cfg_max_size (log_cfg i);
  lh_lines : 0 <= log_lines i <= cfg_max_line (log_cfg i);
  lh_idx : 0 <= file_idx i;
  lh_rot : rotated_files (log_file_name i) (last_file_idx i) (file_idx i) (files s) rot;
  lh_count : Z.of_nat (length rot) <= cfg_max_file_count (log_cfg i);
  lh_bytes : Forall (fun c => bytes c < cfg_max_size (log_cfg i) + L) rot;
}.

(** Moving the log file to the next index. *)
Lemma rotated_files_snoc base last idx f rot chunk : 0 <= idx -> idx + 1 < 2 ^ 64 -> f !! base = Some chunk ->
  rotated_files base last idx f rot ->
  rotated_files base (if last =? 0 then idx + 1 else last) (idx + 1)
    (<[rotated_name base (idx + 1) := chunk]> (delete base f)) (rot ++ [chunk]).
Proof.
  intros Hidx Hmax Hf (Hnil & Hcons & Hk). split; [by intros [_ ?]%app_nil|]. destruct (decide (rot = [])) as [->|Hne].
  - rewrite (Hnil eq_refl) in *. cbn. split; [lia|]. intros k Hku. destruct (decide (k = idx + 1)) as [->|Hd].
    + rewrite lookup_insert_eq, Z.leb_refl, Z.sub_diag. done.
    + rewrite lookup_insert_ne by (intros E; apply rotated_name_inj in E; unfold in_u64 in *; lia).
      rewrite lookup_delete_ne by (apply not_eq_sym, rotated_name_base; done). rewrite Hk by done.
      destruct Hku as [Hku _]. rewrite (proj2 (Z.leb_le 0 k)) by lia. rewrite lookup_nil.
      destruct (Z.leb_spec (idx + 1) k); [|done]. symmetry. apply lookup_ge_None_2. cbn. lia.
  - destruct (Hcons Hne) as [Hl He]. rewrite (proj2 (Z.eqb_neq last 0)) by lia. rewrite length_app. cbn.
    split; [lia|]. intros k Hku. destruct (decide (k = idx + 1)) as [->|Hd].
    + rewrite lookup_insert_eq, (proj2 (Z.leb_le last (idx + 1))) by lia. symmetry. apply list_lookup_middle. lia.
    + rewrite lookup_insert_ne by (intros E; apply rotated_name_inj in E; unfold in_u64 in *; lia).
      rewrite lookup_delete_ne by (apply not_eq_sym, rotated_name_base; done). rewrite Hk by done.
      destruct (Z.leb_spec last k); [|done]. destruct (decide (k < idx + 1)).
      * rewrite lookup_app_l by lia. done.
      * rewrite !lookup_ge_None_2; [done|rewrite length_app; cbn; lia|lia].
Qed.

(** Removing the oldest. *)
Lemma rotated_files_tail base last idx f chunk rot : rot <> [] -> idx < 2 ^ 64 - 1 ->
  rotated_files base last idx f (chunk :: rot) ->
  rotated_files base (last + 1) idx (delete (rotated_name base last) f) rot.
Proof.
  intros Hne Hmax (_ & Hcons & Hk). destruct (Hcons ltac:(done)) as [Hl He]. cbn [length] in He. split; [done|].
  split; [lia|]. intros k Hku. destruct (decide (k = last)) as [->|Hd].
  - rewrite lookup_delete_eq. by rewrite (proj2 (Z.leb_gt (last + 1) last)) by lia.
  - assert (Hlu : in_u64 last) by (unfold in_u64; destruct rot; cbn [length] in He; [done|lia]).
    rewrite lookup_delete_ne by (intros E; apply rotated_name_inj in E; auto). rewrite Hk by done.
    destruct (Z.leb_spec last k), (Z.leb_spec (last + 1) k); try done; [|lia..].
    replace (Z.to_nat (k - last)) with (S (Z.to_nat (k - (last + 1)))) by lia. done.
Qed.

Section Retention.
  Context `{OS}.
  Hypothesis never_denied : forall op path s, deny op path s = None.

(** The index of the file that was moved, and the files that are left. *)
Lemma move_log_file_spec i s rot chunk idx : good_config (log_cfg i) -> log_file_name i <> EmptyString ->
  files s !! log_file_name i = Some chunk -> 0 <= idx -> idx + 1 < 2 ^ 64 - 1 ->
  rotated_files (log_file_name i) (last_file_idx i) idx (files s) rot ->
  Z.of_nat (length rot) <= cfg_max_file_count (log_cfg i) ->
  let rot' := newest (Z.to_nat (cfg_max_file_count (log_cfg i))) (rot ++ [chunk]) in
  exists last' f',
    move_log_file i (idx + 1) s = (set_idx (file_idx i) last' i, set_files f' (set_errno (errno s) s)) /\
    f' !! log_file_name i = None /\ rotated_files (log_file_name i) last' (idx + 1) f' rot'.
Proof.
  cbv zeta. intros (Hc & _ & _ & Hself) Hname Hf Hidx Hmax Hrot Hlen. unfold move_log_file. rewrite decide_False by done.
  unfold rename_file. rewrite never_denied, Hf. cbn [snd].
  pose proof (rotated_files_snoc _ _ _ _ _ _ Hidx ltac:(lia) Hf Hrot) as Hsnoc.
  set (last1 := if last_file_idx i =? 0 then idx + 1 else last_file_idx i) in *.
  set (f1 := <[_ := chunk]> _) in *.
  assert (Hf1 : f1 !! log_file_name i = None).
  { unfold f1. rewrite lookup_insert_ne by (apply rotated_name_base; unfold in_u64; lia). apply lookup_delete_eq. }
  replace (if last_file_idx i =? 0 then set_idx (file_idx i) (idx + 1) i else i) with (set_idx (file_idx i) last1 i)
    by (unfold last1; destruct (last_file_idx i =? 0); [done|by destruct i]).
  cbn [last_file_idx log_cfg set_idx]. rewrite (proj2 (Z.eqb_neq _ 0) Hself), andb_true_r.
  destruct Hsnoc as (_ & Hcons & Hk). destruct (Hcons ltac:(by intros [_ ?]%app_nil)) as [Hl He].
  rewrite length_app in He. cbn [length] in He. rewrite u64_small by (unfold in_u64; lia).
  destruct (Z.leb_spec (cfg_max_file_count (log_cfg i)) (idx + 1 - last1)).
  - destruct rot as [|old rot]; [cbn in *; lia|]. unfold remove_last_log_file, utils_log_obsolete_last_idx.
    cbn [set_idx last_file_idx file_idx log_file_name]. unfold remove_log_file, remove_file. rewrite never_denied.
    cbn [set_idx files set_files log_file_name snd].
    assert (Hlast : f1 !! rotated_name (log_file_name i) last1 = Some old).
    { rewrite Hk by (unfold in_u64; lia). by rewrite Z.leb_refl, Z.sub_diag. }
    replace (newest _ _) with (rot ++ [chunk])
      by (unfold newest; rewrite length_app; cbn [length app] in *; by replace (S (length rot) + 1 - _)%nat with 1%nat by lia).
    rewrite Hlast. eexists (last1 + 1), _. split; [|split].
    + cbn [snd]. rewrite u64_small by (unfold in_u64; lia). by destruct s.
    + rewrite lookup_delete_ne by (apply rotated_name_base; unfold in_u64; lia). done.
    + apply rotated_files_tail with (chunk := old); [by intros [_ ?]%app_nil|lia|].
      split; [done|]. split; [intros _; cbn [length] in *; rewrite length_app; cbn; lia|done].
  - rewrite newest_all by (rewrite length_app; cbn [length]; lia).
    exists last1, f1. split; [by destruct s|]. split; [done|].
    split; [by intros [_ ?]%app_nil|]; split; [intros _; rewrite length_app; cbn; lia|done].
Qed.

Lemma checkline_rotates L i s rot chunk : good_config (log_cfg i) -> log_file_name i <> EmptyString ->
  files s !! log_file_name i = Some chunk -> 0 <= file_idx i -> file_idx i + 1 < 2 ^ 64 - 1 ->
  rotated_files (log_file_name i) (last_file_idx i) (file_idx i) (files s) rot ->
  Z.of_nat (length rot) <= cfg_max_file_count (log_cfg i) ->
  Forall (fun c => bytes c < cfg_max_size (log_cfg i) + L) (rot ++ [chunk]) ->
  (cfg_max_line (log_cfg i) <? u64 (log_lines i)) || (cfg_max_size (log_cfg i) <=? log_size i) = true ->
  exists i' s', utils_log_checkline__i i s = (i', s') /\
    log_holds L i' s' (newest (Z.to_nat (cfg_max_file_count (log_cfg i))) (rot ++ [chunk])) EmptyString /\
    log_lines i' = 0 /\ log_cfg i' = log_cfg i /\ log_file_name i' = log_file_name i /\ file_idx i' = file_idx i + 1.
Proof.
  intros Hc Hname Hf Hidx Hmax Hrot Hlen Hb Hover. unfold utils_log_checkline__i. rewrite Hover.
  cbn [file_idx set_idx close_log_file set_log_file last_file_idx]. rewrite u64_small by (unfold in_u64; lia).
  set (i1 := set_idx (file_idx i + 1) (last_file_idx i) (close_log_file i)).
  destruct (move_log_file_spec i1 s rot chunk (file_idx i)) as (last' & f' & -> & Hnone & Hrot');
    [done..|]. cbn [file_idx set_idx i1 close_log_file set_log_file].
  unfold open_log_file, fopen. rewrite never_denied. cbn [log_file_name set_idx i1 close_log_file set_log_file].
  eexists _, _. split; [reflexivity|]. split; [|done].
  pose proof Hc as (Hc1 & Hc2 & Hc3 & Hc4). split; cbn; try done.
  - apply lookup_insert_eq.
  - change (bytes EmptyString) with 0. lia.
  - lia.
  - lia.
  - destruct Hrot' as (R1 & R2 & R3). split; [done|]. split; [done|]. intros k Hk.
    rewrite lookup_insert_ne by (apply not_eq_sym, rotated_name_base; done). by apply R3.
  - rewrite length_newest. lia.
  - by apply Forall_newest.
Qed.

(** The log is where the specification is. *)
Definition follows (L : Z) (i : log_instance) (s : sys) (st : list string * Z * string) : Prop :=
  let '(closed, lines, cur) := st in
  log_holds L i s (newest (Z.to_nat (cfg_max_file_count (log_cfg i))) closed) cur /\
  log_lines i = lines /\ file_idx i = Z.of_nat (length closed).

(** One line. *)
Lemma LOG_follows L i s st text : follows L i s st -> bytes text <= L -> L < 2 ^ 62 ->
  file_idx i + 1 < 2 ^ 64 - 1 ->
  exists i' s', LOG i text s = Ok (i', s') /\ follows L i' s' (spec_line (log_cfg i) st text) /\
    log_cfg i' = log_cfg i /\ log_file_name i' = log_file_name i /\ file_idx i' <= file_idx i + 1.
Proof.
  destruct st as [[closed lines] cur].
  intros ([Hc Hfile Hname Hcur Hsize Hbelow Hlines Hidx Hrot Hcount Hbytes] & <- & Eidx) Ht HL Hmax.
  set (rot := newest _ closed) in *.
  pose proof Hc as (Hc1 & Hc2 & Hc3 & Hc4). unfold LOG, utils_log_lock__i, utils_log_inited__i, utils_log_addline__i. rewrite Hfile.
  rewrite bool_decide_eq_true_2 by (unfold in_i32; lia). cbn [mbind result_bind].
  unfold utils_log_va, vfprintf, write_stream. cbn [utils_log_file set_counts log_size]. rewrite Hfile, never_denied, Hcur.
  cbn [utils_log_flush]. unfold utils_log_unlock__i, utils_log_inited__i. cbn [utils_log_file set_counts]. rewrite Hfile.
  pose proof (bytes_nonneg cur). pose proof (bytes_nonneg text).
  set (i1 := set_counts _ _ (set_counts _ _ i)). set (s1 := set_files _ s).
  assert (Hsz : log_size i1 = bytes (cur ++ text)).
  { cbn. rewrite bytes_app, Hsize. fold (bytes text). apply u64_small. unfold in_u64. lia. }
  assert (Hln : u64 (log_lines i1) = log_lines i + 1) by (apply u64_small; unfold in_u64; lia).
  assert (Hr1 : rotated_files (log_file_name i) (last_file_idx i) (file_idx i) (files s1) rot).
  { destruct Hrot as (R1 & R2 & R3). split; [done|]. split; [done|]. intros k Hk. cbn.
    rewrite lookup_insert_ne by (apply not_eq_sym, rotated_name_base; done). by apply R3. }
  assert (Hov : (cfg_max_line (log_cfg i1) <? u64 (log_lines i1)) || (cfg_max_size (log_cfg i1) <=? log_size i1) =
    (cfg_max_line (log_cfg i) <? log_lines i + 1) || (cfg_max_size (log_cfg i) <=? bytes (cur ++ text))) by (by rewrite Hln, Hsz).
  cbn [spec_line]. rewrite <- Hov. destruct (_ || _) eqn:Hover.
  - destruct (checkline_rotates L i1 s1 rot (cur ++ text)%string) as (i' & s' & -> & Hh & E0 & E1 & E2 & E3);
      try done; [by cbn; rewrite lookup_insert_eq| |].
    { apply Forall_app. split; [done|]. apply Forall_singleton. rewrite bytes_app. cbn. lia. }
    exists i', s'. split; [done|]. cbn [log_cfg log_file_name file_idx i1 set_counts] in *. split; [|split_and!; auto; lia].
    split; [|split; [done|rewrite length_app; cbn [length]; lia]].
    rewrite E1. unfold rot in Hh. rewrite newest_snoc in Hh by lia. done.
  - unfold utils_log_checkline__i. rewrite Hover. exists i1, s1.
    apply orb_false_iff in Hover as [Ho1%Z.ltb_ge Ho2%Z.leb_gt]. rewrite Hln in Ho1. rewrite Hsz in Ho2.
    split; [done|]. split; [|cbn; split; [done|split; [done|lia]]]. split; [|done].
    split; cbn in *; try done; [by rewrite lookup_insert_eq|lia].
Qed.

Lemma log_all_follows L texts : L < 2 ^ 62 -> Forall (fun t => bytes t <= L) texts -> forall i s st,
  follows L i s st -> file_idx i + Z.of_nat (length texts) < 2 ^ 64 - 1 ->
  exists i' s', log_all texts i s = Ok (i', s') /\ follows L i' s' (foldl (spec_line (log_cfg i)) st texts) /\
    log_cfg i' = log_cfg i /\ log_file_name i' = log_file_name i.
Proof.
  intros HL. induction 1 as [|text texts Ht Hts IH]; intros i s st Hh Hidx; cbn [length] in Hidx.
  - by exists i, s.
  - destruct (LOG_follows L i s st text Hh Ht HL) as (i1 & s1 & E1 & Hh1 & Hc1 & Hn1 & Hi1); [lia|].
    destruct (IH i1 s1 _ Hh1) as (i2 & s2 & E2 & Hh2 & Hc2 & Hn2); [lia|].
    exists i2, s2. split; [cbn [log_all]; rewrite E1; exact E2|]. cbn [foldl]. rewrite Hc1 in *.
    split; [done|]. split; congruence.
Qed.

(** The numbered files, by what was closed. *)
Lemma newest_files base last f closed n : (0 < n)%nat -> rotated_files base last (Z.of_nat (length closed)) f (newest n closed) ->
  forall k, in_u64 k -> f !! rotated_name base k =
    if Z.max 0 (Z.of_nat (length closed) - Z.of_nat n) <? k then closed !! Z.to_nat (k - 1) else None.
Proof.
  intros Hn (R1 & R2 & R3) k Hk. rewrite R3 by done. destruct Hk as [Hk _].
  destruct (decide (closed = [])) as [->|Hne].
  { rewrite (R1 eq_refl). cbn. unfold newest. cbn. by repeat case_match. }
  pose proof (length_newest n closed) as Hl. assert (0 < length closed)%nat by (destruct closed; cbn; [done|lia]).
  destruct R2 as [R2 R2']; [intros E; rewrite E in Hl; cbn in Hl; lia|].
  destruct (Z.leb_spec last k), (Z.ltb_spec (Z.max 0 (Z.of_nat (length closed) - Z.of_nat n)) k); try lia; [|done].
  unfold newest. rewrite lookup_drop. f_equal. lia.
Qed.

(** Every prefix of the path is on disk in the end. *)
Lemma create_dir_loop_ok rest : forall before s, exists s', create_dir_loop before rest s = (0, s') /\
  files s' = files s /\ dirs s ⊆ dirs s' /\
  forall mid post, rest = (mid ++ String "/" post)%string -> on_disk (before ++ mid) s'.
Proof.
  induction rest as [|c rest IH]; intros before s; cbn [create_dir_loop].
  - exists s. split; [done|]. split; [done|]. split; [done|]. by intros [|] ?.
  - assert (Hnext : forall s1, files s1 = files s -> dirs s ⊆ dirs s1 -> (c = "/"%char -> on_disk before s1) ->
      exists s', create_dir_loop (push_back before c) rest s1 = (0, s') /\ files s' = files s /\ dirs s ⊆ dirs s' /\
        forall mid post, String c rest = (mid ++ String "/" post)%string -> on_disk (before ++ mid) s').
    { intros s1 Hf1 Hd1 Hb. destruct (IH (push_back before c) s1) as (s' & E & Hf & Hd & Hm). exists s'.
      split; [done|]. split; [congruence|]. split; [set_solver|]. intros [|c' mid] post Es.
      - injection Es as -> _. rewrite string_app_nil. destruct (Hb eq_refl) as [?|?]; [left; set_solver|right]. by rewrite Hf.
      - injection Es as <- Er. rewrite <- push_back_app. by eapply Hm. }
    case_bool_decide as Hc; [|by apply Hnext]. unfold access. rewrite never_denied. case_decide as Hon.
    + by apply Hnext.
    + unfold mkdir. rewrite never_denied. rewrite decide_False by done. apply Hnext; cbn; [done|set_solver|].
      intros _. left. cbn. set_solver.
Qed.

Lemma create_dir_ok dir s : dir <> EmptyString -> exists s', create_dir dir s = (0, s') /\ files s' = files s /\
  (ends_with "/" dir = false -> on_disk dir s').
Proof.
  intros Hne. unfold create_dir. rewrite decide_False by done. destruct (ends_with "/" dir) eqn:Ee.
  - destruct dir as [|c rest]; [done|]. case_bool_decide.
    + destruct (create_dir_loop_ok rest (String c EmptyString) s) as (s' & E & Hf & _ & _). by exists s'.
    + destruct (create_dir_loop_ok (String c rest) EmptyString s) as (s' & E & Hf & _ & _). by exists s'.
  - destruct dir as [|c rest]; [done|]. unfold push_back. rewrite string_app_cons. case_bool_decide.
    + destruct (create_dir_loop_ok (rest ++ "/") (String c EmptyString) s) as (s' & E & Hf & _ & Hm). exists s'.
      split; [done|]. split; [done|]. intros _. by apply (Hm rest EmptyString).
    + destruct (create_dir_loop_ok (String c (rest ++ "/")) EmptyString s) as (s' & E & Hf & _ & Hm). exists s'.
      split; [done|]. split; [done|]. intros _. by apply (Hm (String c rest) EmptyString).
Qed.

(** Without files no entry counts. *)
Lemma calc_entries_fresh dir suf l : forall s, files s = ∅ ->
  exists s', foldl (fun st d_name => calc_entry dir suf d_name st) (0, 0, false, s) l = (0, 0, false, s') /\ files s' = ∅.
Proof.
  induction l as [|n l IH]; intros s Hs; [by exists s|]. cbn [foldl calc_entry]. unfold lstat. rewrite never_denied.
  case_decide; [by apply IH|]. rewrite Hs, lookup_empty. by apply IH.
Qed.

Lemma log_init_fresh L fuel dir logname cfg s : dir <> EmptyString -> ends_with "/" dir = false -> files s = ∅ ->
  good_config cfg -> exists i s', utils_log_init__i fuel dir logname (Some cfg) zero_log s = Some (0, i, s') /\
    follows L i s' ([], 0, EmptyString) /\ log_cfg i = cfg /\ file_idx i = 0 /\
    log_file_name i = snprintf 1024 (dir ++ "/" ++ logname ++ ".log").
Proof.
  intros Hne Hends Hs Hc. unfold utils_log_init__i. change (utils_log_inited__i zero_log) with false. cbv iota zeta.
  destruct (create_dir_ok dir s Hne) as (s1 & -> & Hf1 & Hd). cbn [Z.eqb negb]. rewrite Hs in Hf1.
  destruct (Hd Hends) as [Hdir|[? Hx]]; [|by rewrite Hf1, lookup_empty in Hx].
  unfold calc_init_log_idx, opendir. rewrite never_denied, decide_True by done. cbn [negb].
  destruct (calc_entries_fresh dir (snprintf 64 (logname ++ ".log")) (readdir dir s1) s1 Hf1) as (s2 & -> & Hf2).
  cbv iota. change (0 <? 0) with false. cbv iota. cbn [from_option].
  set (name := snprintf 1024 _). unfold open_log_file, fopen. rewrite never_denied. cbn [log_file_name set_log_file].
  set (i := set_log_file _ _). set (s3 := set_files _ s2). pose proof Hc as (Hc1 & Hc2 & Hc3 & Hc4).
  assert (E : remove_stale fuel i s3 = Some (i, s3)).
  { destruct fuel; cbn [remove_stale]; unfold utils_log_has_stale__i; cbn; by rewrite (proj2 (Z.leb_gt _ 0)) by lia. }
  cbn [mbind]. rewrite E. exists i, s3. split; [done|]. split; [|done].
  assert (newest (Z.to_nat (cfg_max_file_count (log_cfg i))) (@nil string) = []) as Enil by done.
  split; [|done]. rewrite Enil. split; cbn; try done; try lia.
  - unfold name. destruct dir as [|c dir]; [done|]. by rewrite string_app_cons.
  - apply lookup_insert_eq.
  - change (bytes EmptyString) with 0. lia.
  - split; [done|]. split; [done|]. intros k Hk. cbn.
    rewrite lookup_insert_ne by (apply not_eq_sym, rotated_name_base; done). rewrite Hf2, lookup_empty. by case_match.
Qed.
End Retention.

(** C34: what is kept of a log refines what was written to it.  The log is set up
    in a directory without files, with a configuration that deletes old files, and is
    written only by [LOG]; no call of the system fails, and there are fewer lines
    than file indices.  The specification closes a file after the line that makes it
    reach a limit.  Then the log file holds the open text of the specification, and
    file [k] holds the [k]-th closed text if that is one of the last
    [log_max_file_count], and does not exist otherwise.  Nothing but the texts of
    removed files is lost, and a file is smaller than the size limit and one line. *)
Theorem log_retention `{OS} (fuel : nat) (dir logname : string) (cfg : log_config) (s : sys) (texts : list string) (L : Z) :
  (forall op path s, deny op path s = None) ->
  dir <> EmptyString -> ends_with "/" dir = false -> files s = ∅ -> good_config cfg ->
  Forall (fun t => bytes t <= L) texts -> L < 2 ^ 62 -> Z.of_nat (length texts) < 2 ^ 64 - 1 ->
  let name := snprintf 1024 (dir ++ "/" ++ logname ++ ".log") in
  let '(closed, _, cur) := spec_log cfg texts in
  exists i s1 i' s',
    utils_log_init__i fuel dir logname (Some cfg) zero_log s = Some (0, i, s1) /\ log_all texts i s1 = Ok (i', s') /\
    files s' !! name = Some cur /\
    (forall k, in_u64 k -> files s' !! rotated_name name k =
       if Z.max 0 (Z.of_nat (length closed) - cfg_max_file_count cfg) <? k then closed !! Z.to_nat (k - 1) else None) /\
    cat texts = (cat closed ++ cur)%string /\ bytes cur < cfg_max_size cfg /\
    Forall (fun c => bytes c < cfg_max_size cfg + L) (newest (Z.to_nat (cfg_max_file_count cfg)) closed).
Proof.
  intros Hnd Hne Hends Hs Hc Hts HL Hlen name.
  destruct (log_init_fresh Hnd L fuel dir logname cfg s Hne Hends Hs Hc) as (i & s1 & Ei & Hh & <- & Hi & Hn).
  destruct (log_all_follows Hnd L texts HL Hts i s1 _ Hh) as (i' & s' & El & Hh' & Hcfg & Hn'); [lia|].
  pose proof (spec_log_cat (log_cfg i) texts [] 0 EmptyString) as Hcat. unfold spec_log.
  destruct (foldl _ _ _) as [[closed lines] cur]. destruct Hh' as ([C1 C2 C3 C4 C5 C6 C7 C8 C9 C10 C11] & _ & Eidx).
  exists i, s1, i', s'. rewrite Hcfg in *. rewrite Hn', Hn in *. fold name in C4, C9. destruct C1 as [C1 _].
  split; [done|]. split; [done|]. split; [done|]. split; [|done].
  intros k Hk. rewrite Eidx in C9. rewrite (newest_files _ _ _ _ (Z.to_nat (cfg_max_file_count (log_cfg i))) ltac:(lia) C9 k Hk).
  by rewrite Z2Nat.id by lia.
Qed.

(** ** Setting up *)

Section Stale.
  Context `{OS}.

Lemma remove_last_diff i s : let i' := (remove_last_log_file i s).1 in
  0 < u64 (file_idx i - last_file_idx i) ->
  u64 (file_idx i' - last_file_idx i') = u64 (file_idx i - last_file_idx i) - 1 /\ log_cfg i' = log_cfg i.
Proof.
  cbn. unfold u64. intros Hd. split; [|done].
  rewrite Zminus_mod_idemp_r. replace (file_idx i - (last_file_idx i + 1)) with (file_idx i - last_file_idx i - 1) by lia.
  rewrite Zminus_mod. rewrite (Z.mod_small 1) by lia. apply Z.mod_small.
  pose proof (Z.mod_pos_bound (file_idx i - last_file_idx i) (2 ^ 64) ltac:(lia)). lia.
Qed.

Lemma remove_stale_ends n : forall i s, 0 < cfg_max_file_count (log_cfg i) ->
  u64 (file_idx i - last_file_idx i) <= Z.of_nat n -> exists r, remove_stale n i s = Some r.
Proof.
  induction n as [|n IH]; intros i s Hc Hd; cbn [remove_stale]; unfold utils_log_has_stale__i;
    destruct (Z.leb_spec (cfg_max_file_count (log_cfg i)) (u64 (file_idx i - last_file_idx i))); try (by eexists); [lia|].
  destruct (remove_last_diff i s ltac:(lia)) as [Hd' Hc']. destruct (remove_last_log_file i s) as [i' s']. cbn in Hd', Hc'.
  apply IH; [by rewrite Hc'|lia].
Qed.

Lemma remove_stale_hangs n : forall i s, cfg_max_file_count (log_cfg i) = 0 -> remove_stale n i s = None.
Proof.
  induction n as [|n IH]; intros i s Hc; cbn [remove_stale]; unfold utils_log_has_stale__i;
    rewrite Hc, (proj2 (Z.leb_le 0 _)) by apply u64_range; [done|].
  destruct (remove_last_log_file i s) as [i' s'] eqn:E. apply IH. unfold remove_last_log_file in E. cbn in E.
  injection E as <- _. done.
Qed.

Lemma open_log_file_cfg i s : log_cfg (open_log_file i s).1 = log_cfg i /\
  u64 (file_idx (open_log_file i s).1 - last_file_idx (open_log_file i s).1) = u64 (file_idx i - last_file_idx i).
Proof. unfold open_log_file. by destruct (fopen (log_file_name i) s). Qed.
End Stale.

(** Setting up a log ends, whatever the system answers, if the configuration
    keeps at least one file.  [utils_log_init_cfg] also accepts to keep none;
    then the loop that removes stale files never ends. *)
Theorem log_init_ends `{OS} (dir logname : string) (max_count max_line max_size self_del : Z) (cfg : log_config)
    (i : log_instance) (s : sys) : 0 <= max_count ->
  utils_log_init_cfg max_count max_line max_size self_del = (0, Some cfg) ->
  (0 < max_count -> exists n r, utils_log_init__i n dir logname (Some cfg) i s = Some r) /\
  (max_count = 0 -> utils_log_inited__i i = false -> (forall op path s, deny op path s = None) -> dir <> EmptyString ->
   ends_with "/" dir = false -> files s !! dir = None ->
   forall n, utils_log_init__i n dir logname (Some cfg) i s = None).
Proof.
  intros Hnn Hcfg. assert (Hcount : cfg_max_file_count cfg = max_count).
  { revert Hcfg. unfold utils_log_init_cfg. repeat case_match; intros [= <-]; done. }
  split.
  - intros Hpos. destruct (utils_log_inited__i i) eqn:Ei; [exists 0%nat; unfold utils_log_init__i; rewrite Ei; by eexists|].
    unfold utils_log_init__i. rewrite Ei. destruct (create_dir dir s) as [ret s1]. destruct (negb (ret =? 0)); [by exists 0%nat; eexists|].
    destruct (calc_init_log_idx dir logname s1) as [[[ret2 newest] last] s2]. destruct (ret2 <? 0); [by exists 0%nat; eexists|].
    set (i0 := MkLog _ _ _ _ _ _ _ _). pose proof (open_log_file_cfg i0 s2) as [Hc Hd].
    destruct (open_log_file i0 s2) as [i1 s3]. cbn [fst] in Hc, Hd.
    destruct (remove_stale_ends (Z.to_nat (u64 (newest - last))) i1 s3) as [[i2 s4] E].
    + rewrite Hc. cbn. lia.
    + rewrite Hd. cbn. pose proof (u64_range (newest - last)). unfold in_u64 in *. lia.
    + exists (Z.to_nat (u64 (newest - last))). cbn [mbind]. rewrite E. by eexists.
  - intros Hz Ei Hnd Hne Hends Hdir n. unfold utils_log_init__i. rewrite Ei.
    destruct (create_dir_ok Hnd dir s Hne) as (s1 & -> & Hf1 & Hd). cbn [Z.eqb negb].
    assert (dir ∈ dirs s1) as Hin.
    { destruct (Hd Hends) as [?|[? Hx]]; [done|]. by rewrite Hf1, Hdir in Hx. }
    unfold calc_init_log_idx at 1, opendir. rewrite Hnd, decide_True by done. cbn [negb].
    destruct (foldl _ _ _) as [[[newest last] ex] s2].
    assert (Hend : forall newest' s3, (let '(i, s) := open_log_file (MkLog None 0 (snprintf 1024 (dir ++ "/" ++ logname ++ ".log")) 0
                 newest' last 0 cfg) s3 in '(i, s) ← remove_stale n i s; Some (0, i, s)) = None).
    { intros newest' s3. set (i0 := MkLog _ _ _ _ _ _ _ _). pose proof (open_log_file_cfg i0 s3) as [Hc _].
      destruct (open_log_file i0 s3) as [i1 s4]. cbn [fst] in Hc.
      rewrite remove_stale_hangs; [done|]. rewrite Hc. cbn. lia. }
    destruct ex; [destruct (rename_file _ _ s2) as [[] s3]|]; apply Hend.
Qed.

(** ** Starting again *)

Section Restart.
  Context `{OS}.
  Hypothesis never_denied : forall op path s, deny op path s = None.

(** The file with index 1 holds [old], and no operation will touch it. *)
Definition forgotten (old : string) (i : log_instance) (s : sys) : Prop :=
  files s !! rotated_name (log_file_name i) 1 = Some old /\ 1 <= file_idx i /\
  (last_file_idx i = 0 \/ 2 <= last_file_idx i <= file_idx i) /\ 1 < cfg_max_file_count (log_cfg i) /\
  (utils_log_file i = Some Stdout \/ utils_log_file i = Some (LogFile (log_file_name i))).

Lemma write_other path f text s : f <> LogFile path -> files (write_stream f text s).2 !! path = files s !! path.
Proof.
  intros Hf. unfold write_stream. destruct f as [p|]; [|done]. rewrite never_denied.
  destruct (files s !! p) as [old|] eqn:E; [|done]. cbn. apply lookup_insert_ne. by intros ->.
Qed.

Lemma move_forgotten old i s : log_file_name i <> EmptyString -> files s !! rotated_name (log_file_name i) 1 = Some old ->
  2 <= file_idx i < 2 ^ 64 - 1 -> (last_file_idx i = 0 \/ 2 <= last_file_idx i <= file_idx i) -> 1 < cfg_max_file_count (log_cfg i) ->
  let '(i', s') := move_log_file i (file_idx i) s in
  files s' !! rotated_name (log_file_name i) 1 = Some old /\ file_idx i' = file_idx i /\
  2 <= last_file_idx i' <= file_idx i /\ log_file_name i' = log_file_name i /\ log_cfg i' = log_cfg i.
Proof.
  intros Hn Hf Hi Hl Hc. unfold move_log_file. rewrite decide_False by done.
  assert (Hren : files (rename_file (log_file_name i) (rotated_name (log_file_name i) (file_idx i)) s).2 !!
            rotated_name (log_file_name i) 1 = Some old).
  { unfold rename_file. rewrite never_denied. destruct (files s !! log_file_name i); [|done]. cbn.
    rewrite lookup_insert_ne by (intros E; apply rotated_name_inj in E; unfold in_u64; lia).
    rewrite lookup_delete_ne by (apply not_eq_sym, rotated_name_base; unfold in_u64; lia). done. }
  destruct (rename_file _ _ s) as [b s1]. cbn [snd] in *.
  set (i1 := if last_file_idx i =? 0 then _ else i).
  assert (Hi1 : file_idx i1 = file_idx i /\ 2 <= last_file_idx i1 <= file_idx i /\ log_file_name i1 = log_file_name i /\
                log_cfg i1 = log_cfg i).
  { unfold i1. destruct (Z.eqb_spec (last_file_idx i) 0); cbn; split_and!; try done; lia. }
  destruct Hi1 as (E1 & E2 & E3 & E4). destruct (_ && _) eqn:Eb; [|done].
  apply andb_true_iff in Eb as [Eb%Z.leb_le _]. rewrite E4, u64_small in Eb by (unfold in_u64; lia).
  cbn. unfold remove_log_file, remove_file. cbn [log_file_name set_idx]. rewrite never_denied, E3.
  split; [|split; [done|split; [rewrite u64_small by (unfold in_u64; lia); lia|done]]].
  destruct (files s1 !! rotated_name (log_file_name i) (last_file_idx i1)); [|done]. cbn.
  rewrite lookup_delete_ne; [done|]. intros E. apply rotated_name_inj in E; unfold in_u64; lia.
Qed.

Lemma LOG_forgotten old text i s i' s' : log_file_name i <> EmptyString -> file_idx i < 2 ^ 64 - 2 ->
  forgotten old i s -> LOG i text s = Ok (i', s') ->
  forgotten old i' s' /\ log_file_name i' = log_file_name i /\ file_idx i' <= file_idx i + 1.
Proof.
  intros Hn Hmax (Hf & Hi & Hl & Hc & Hfile). unfold LOG, utils_log_lock__i, utils_log_inited__i, utils_log_addline__i.
  assert (exists f, utils_log_file i = Some f /\ f <> LogFile (rotated_name (log_file_name i) 1)) as (f & Ef & Hne).
  { destruct Hfile as [E|E]; eexists; (split; [exact E|]); [done|]. intros [= Eb]. symmetry in Eb. revert Eb.
    apply rotated_name_base. unfold in_u64. lia. }
  rewrite Ef. case_bool_decide; [|done]. cbn [mbind result_bind]. unfold utils_log_va, vfprintf.
  cbn [utils_log_file set_counts]. rewrite Ef. pose proof (write_other _ f text s Hne) as Hw.
  destruct (write_stream f text s) as [ok s1]. cbn [snd] in Hw. cbn [utils_log_flush].
  unfold utils_log_unlock__i, utils_log_inited__i. cbn [utils_log_file set_counts]. rewrite Ef. intros [= E].
  revert E. set (i1 := set_counts _ _ (set_counts _ _ i)). unfold utils_log_checkline__i.
  case_match; [|intros [= <- <-]; unfold forgotten; cbn; split; [split_and!; [congruence|done..]|split; [done|lia]]].
  set (i2 := set_idx _ _ (close_log_file i1)).
  assert (Hi2 : file_idx i2 = file_idx i + 1) by (apply u64_small; unfold in_u64; lia).
  pose proof (move_forgotten old i2 s1) as Hm. destruct (move_log_file i2 (file_idx i2) s1) as [i3 s3].
  destruct Hm as (M1 & M2 & M3 & M4 & M5); [done|cbn; congruence|lia|rewrite Hi2; cbn; lia|done|].
  unfold open_log_file, fopen. rewrite never_denied. intros [= <- <-]. unfold forgotten. cbn. rewrite M4, M5.
  split; [|split; [done|lia]]. split; [|split_and!; [lia|right; lia|done|by right]].
  rewrite lookup_insert_ne by (apply not_eq_sym, rotated_name_base; unfold in_u64; lia). done.
Qed.

Lemma log_all_forgotten old texts : forall i s i' s', log_file_name i <> EmptyString ->
  file_idx i + Z.of_nat (length texts) < 2 ^ 64 - 1 -> forgotten old i s -> log_all texts i s = Ok (i', s') ->
  files s' !! rotated_name (log_file_name i) 1 = Some old.
Proof.
  induction texts as [|t texts IH]; intros i s i' s' Hn Hl Hf; cbn [log_all length] in *.
  - intros [= <- <-]. apply Hf.
  - destruct (LOG i t s) as [[i1 s1]| |] eqn:E; [|done..]. cbn [mbind result_bind].
    destruct (LOG_forgotten old t i s i1 s1 Hn ltac:(lia) Hf E) as (Hf1 & Hn1 & Hi1).
    rewrite <- Hn1. apply IH; [congruence|lia|done].
Qed.
End Restart.

Lemma substring_end (s : string) : String.substring (String.length s) 0 s = EmptyString.
Proof. by induction s. Qed.

(** A restart forgets a file.  When a log with one file is set up again, that
    file becomes number 1, but the oldest index stays 0 as if there were none,
    and the next file is taken for the oldest.  Number 1 then stays, whatever
    is logged, besides the [log_max_file_count] files that are kept. *)
Theorem restart_forgets `{OS} (fuel : nat) (dir logname old : string) (cfg : log_config) (s : sys) (texts : list string)
    (i' : log_instance) (s' : sys) :
  let name := (dir ++ "/" ++ logname ++ ".log")%string in
  (forall op path s, deny op path s = None) -> create_dir dir s = (0, s) -> dir ∈ dirs s ->
  readdir dir s = [(logname ++ ".log")%string] -> name ∉ dirs s -> files s !! name = Some old ->
  (String.length logname <= 59)%nat -> (String.length name <= 1000)%nat ->
  1 < cfg_max_file_count cfg -> Z.of_nat (length texts) < 2 ^ 63 ->
  exists i s1, utils_log_init__i fuel dir logname (Some cfg) zero_log s = Some (0, i, s1) /\
    file_idx i = 1 /\ last_file_idx i = 0 /\
    (log_all texts i s1 = Ok (i', s') -> files s' !! (name ++ ".1")%string = Some old).
Proof.
  intros name Hnd Hdir Hin Hread Hnot Hold Hl1 Hl2 Hc Hts.
  unfold utils_log_init__i. change (utils_log_inited__i zero_log) with false. cbv iota zeta. rewrite Hdir. cbn [Z.eqb negb].
  unfold calc_init_log_idx, opendir. rewrite Hnd, decide_True by done. cbn [negb]. rewrite Hread.
  assert (Hsuf : snprintf 64 (logname ++ ".log") = (logname ++ ".log")%string).
  { apply substring_all. rewrite string_length_app. cbn. lia. }
  assert (Hname : snprintf 1024 (dir ++ "/" ++ logname ++ ".log") = name) by (apply substring_all; fold name; lia).
  rewrite Hsuf. cbn [foldl calc_entry]. rewrite Hname. unfold lstat. rewrite Hnd, decide_False, Hold by done.
  rewrite has_prefix_refl, Nat.sub_diag, substring_end.
  change (u64 (0 + 1)) with 1.
  assert (Ht : snprintf 1024 (dir ++ "/" ++ (logname ++ ".log") ++ "." ++ to_string 1) = rotated_name name 1).
  { rewrite rotated_name_full by done. unfold name. rewrite !string_app_assoc. apply substring_all.
    unfold name in Hl2. rewrite !string_length_app in *. change (String.length (to_string 1)) with 1%nat. cbn in *. lia. }
  rewrite Ht. unfold rename_file. rewrite Hnd, Hold. change (0 <? 0) with false. cbv iota. cbn [from_option id].
  unfold open_log_file, fopen. rewrite Hnd. cbn [log_file_name set_log_file].
  set (i := set_log_file _ _). set (s1 := set_files _ (set_files _ _)).
  assert (E : remove_stale fuel i s1 = Some (i, s1)).
  { destruct fuel; cbn [remove_stale]; unfold utils_log_has_stale__i; cbn; by rewrite (proj2 (Z.leb_gt _ 1)) by lia. }
  exists i, s1. cbn [mbind]. rewrite E. split; [done|]. split; [done|]. split; [done|]. intros El.
  replace (name ++ ".1")%string with (rotated_name name 1) by by rewrite rotated_name_full.
  apply (log_all_forgotten Hnd old texts i s1 i' s'); [|cbn; lia| |done].
  - cbn. unfold name. by destruct dir.
  - split_and!; cbn; [|lia|by left|done|by right].
    rewrite lookup_insert_ne by (apply not_eq_sym, rotated_name_base; done). apply lookup_insert_eq.
Qed.

(** ** Writing by buffers *)

(** Buffers are counted as one byte each.  Whatever is written by
    [utils_log_output_with_buffer], the log file grows by all of it but the size
    that is compared with the limit by the number of buffers, so that a file
    with less lines and less buffers than the limits is not split, of
    whatever size it is. *)
Theorem buffers_not_counted `{OS} (bufs : list string) (i : log_instance) (s : sys) (cur : string) :
  (forall op path s, deny op path s = None) -> Forall (fun b => b <> EmptyString) bufs ->
  utils_log_file i = Some (LogFile (log_file_name i)) -> files s !! log_file_name i = Some cur ->
  0 <= log_size i -> log_size i + Z.of_nat (length bufs) < cfg_max_size (log_cfg i) < 2 ^ 64 ->
  0 <= log_lines i <= cfg_max_line (log_cfg i) -> cfg_max_line (log_cfg i) < 2 ^ 64 ->
  let r := foldl (fun st b => utils_log_flush_with_buffer st.1 b st.2) (i, s) bufs in
  files r.2 !! log_file_name i = Some (cur ++ cat bufs)%string /\
  log_size r.1 = log_size i + Z.of_nat (length bufs) /\ utils_log_unlock__i r.1 r.2 = r.
Proof.
  intros Hnd Hb. revert i s cur. induction Hb as [|b bufs Hb Hbs IH]; intros i s cur Hf Hcur H0 Hsz Hln Hln'; cbn [foldl].
  - cbn [cat foldr length fst snd]. rewrite string_app_nil. split; [done|]. split; [lia|].
    unfold utils_log_unlock__i, utils_log_inited__i. rewrite Hf. unfold utils_log_checkline__i. cbn [length] in Hsz.
    rewrite u64_small by (unfold in_u64; lia).
    rewrite (proj2 (Z.ltb_ge (cfg_max_line (log_cfg i)) (log_lines i))) by lia.
    by rewrite (proj2 (Z.leb_gt (cfg_max_size (log_cfg i)) (log_size i))) by lia.
  - cbn [length] in Hsz |- *. cbn [fst snd].
    assert (utils_log_flush_with_buffer i b s = (set_counts (log_lines i) (log_size i + 1) i,
              set_files (<[log_file_name i := (cur ++ b)%string]> (files s)) s)) as ->.
    { unfold utils_log_flush_with_buffer, utils_log_output_with_buffer, fwrite1, write_stream.
      rewrite Hf, decide_False, Hnd, Hcur by done. cbn [utils_log_flush]. by rewrite u64_small by (unfold in_u64; lia). }
    destruct (IH (set_counts (log_lines i) (log_size i + 1) i)
                (set_files (<[log_file_name i := (cur ++ b)%string]> (files s)) s) (cur ++ b)%string) as (E1 & E2 & E3).
    + done.
    + cbn. apply lookup_insert_eq.
    + cbn. lia.
    + cbn. lia.
    + done.
    + done.
    + split; [|split; [|exact E3]]; cbn [log_file_name set_counts log_size] in *.
      * rewrite E1. cbn [cat foldr]. by rewrite string_app_assoc.
      * rewrite E2. lia.
Qed.

(** ** Threads *)

(** Where a thread is in LOG: outside, before the mutex, in the body with or
    without it, writing to a stream (they are numbered as they are opened), before
    the unlock, in [utils_log_checkline__i], between closing and opening a file,
    and before the release. *)
Inductive log_pc : Type :=
| Outside | Waiting | Body | Writing (f : nat) | Written | Checking | Reopening | Releasing.

Record threads : Type := MkThreads { owner : option nat; stream_open : option nat; opened : nat; pcs : list log_pc }.

Definition goto (t : nat) (pc : log_pc) (x : threads) : threads :=
  MkThreads (owner x) (stream_open x) (opened x) (<[t := pc]> (pcs x)).

(** One step of a thread; files are split only if [splits]. *)
Inductive log_step (splits : bool) : threads -> threads -> Prop :=
| see_open x t f : pcs x !! t = Some Outside -> stream_open x = Some f -> log_step splits x (goto t Waiting x)
| see_closed x t : pcs x !! t = Some Outside -> stream_open x = None -> log_step splits x (goto t Body x)
| acquire x t : pcs x !! t = Some Waiting -> owner x = None ->
    log_step splits x (MkThreads (Some t) (stream_open x) (opened x) (<[t := Body]> (pcs x)))
| start_writing x t f : pcs x !! t = Some Body -> stream_open x = Some f -> log_step splits x (goto t (Writing f) x)
| to_console x t : pcs x !! t = Some Body -> stream_open x = None -> log_step splits x (goto t Written x)
| end_writing x t f : pcs x !! t = Some (Writing f) -> log_step splits x (goto t Written x)
| leave_closed x t : pcs x !! t = Some Written -> stream_open x = None -> log_step splits x (goto t Outside x)
| leave_open x t f : pcs x !! t = Some Written -> stream_open x = Some f -> log_step splits x (goto t Checking x)
| no_split x t : pcs x !! t = Some Checking -> log_step splits x (goto t Releasing x)
| split_close x t : splits = true -> pcs x !! t = Some Checking ->
    log_step splits x (MkThreads (owner x) None (opened x) (<[t := Reopening]> (pcs x)))
| split_open x t : pcs x !! t = Some Reopening ->
    log_step splits x (MkThreads (owner x) (Some (opened x)) (S (opened x)) (<[t := Releasing]> (pcs x)))
| release_mutex x t : pcs x !! t = Some Releasing ->
    log_step splits x (MkThreads None (stream_open x) (opened x) (<[t := Outside]> (pcs x))).

Definition threads_start (n : nat) : threads := MkThreads None (Some 0%nat) 1 (replicate n Outside).

(** A thread that is past the mutex. *)
Definition past_mutex (pc : log_pc) : bool := match pc with Outside | Waiting => false | _ => true end.

(** Without splits the stream stays open, and who is past the mutex owns it. *)
Definition log_locked (x : threads) : Prop :=
  stream_open x = Some 0%nat /\
  forall t pc, pcs x !! t = Some pc -> pc <> Reopening /\ (past_mutex pc = true -> owner x = Some t) /\
               forall f, pc = Writing f -> f = 0%nat.

Lemma log_locked_goto x t pc pc' : log_locked x -> pcs x !! t = Some pc -> past_mutex pc = past_mutex pc' ->
  pc' <> Reopening -> (forall f, pc' = Writing f -> f = 0%nat) -> log_locked (goto t pc' x).
Proof.
  intros [Ho Hl] Ht Hp Hr Hw. split; [done|]. intros u pcu Hu. cbn in Hu |- *. destruct (decide (u = t)) as [->|Hne].
  - rewrite list_lookup_insert_eq in Hu by (eapply lookup_lt_Some; done). injection Hu as <-.
    destruct (Hl t pc Ht) as (_ & H2 & _). split; [done|]. split; [by rewrite <- Hp|done].
  - rewrite list_lookup_insert_ne in Hu by done. by apply Hl.
Qed.

Lemma log_locked_step x y : log_locked x -> log_step false x y -> log_locked y.
Proof.
  intros Hx Hs. pose proof Hx as [Ho Hl].
  destruct Hs as [x t f Ht _|x t Ht Hn|x t Ht Hown|x t f Ht Hf|x t Ht Hn|x t f Ht|x t Ht Hn|x t f Ht _|x t Ht|x t Hsp|x t Ht|x t Ht];
    try congruence; try (by eapply log_locked_goto).
  - split; [done|]. intros u pc Hu. cbn in Hu |- *. destruct (decide (u = t)) as [->|Hne].
    + rewrite list_lookup_insert_eq in Hu by (eapply lookup_lt_Some; done). by injection Hu as <-.
    + rewrite list_lookup_insert_ne in Hu by done. destruct (Hl u pc Hu) as (H1 & H2 & H3). split; [done|]. split; [|done].
      intros Hp. specialize (H2 Hp). congruence.
  - eapply log_locked_goto; [done..|]. intros g [= <-]. congruence.
  - by destruct (Hl t Reopening Ht) as [? _].
  - destruct (Hl t Releasing Ht) as (_ & Hown & _). specialize (Hown eq_refl).
    split; [done|]. intros u pc Hu. cbn in Hu |- *. destruct (decide (u = t)) as [->|Hne].
    + rewrite list_lookup_insert_eq in Hu by (eapply lookup_lt_Some; done). by injection Hu as <-.
    + rewrite list_lookup_insert_ne in Hu by done. destruct (Hl u pc Hu) as (H1 & H2 & H3). split; [done|]. split; [|done].
      intros Hp. specialize (H2 Hp). congruence.
Qed.

Lemma log_locked_reachable n x : rtc (log_step false) (threads_start n) x -> log_locked x.
Proof.
  intros Hr. refine (rtc_invariant _ log_locked _ _ log_locked_step _ Hr).
  split; [done|]. intros t pc Ht. apply lookup_replicate in Ht as [-> _]. done.
Qed.

Ltac thread_step s n := eapply rtc_l; [eapply s with (t := n); reflexivity|]; cbn [goto owner stream_open opened pcs].

(** The lock and the split of a file.  As long as no file is split, at most one
    thread at a time is between the lock and the unlock.  But the test that a log
    is set up is made without the mutex, and a log counts as not set up while
    its file is being changed: with three threads there is a run in which one
    closes the file while another, which holds the mutex, is writing to it. *)
Theorem log_lock_race :
  (forall n x t u pt pu, rtc (log_step false) (threads_start n) x -> pcs x !! t = Some pt -> pcs x !! u = Some pu ->
     past_mutex pt = true -> past_mutex pu = true -> t = u) /\
  exists x t f, rtc (log_step true) (threads_start 3) x /\ pcs x !! t = Some (Writing f) /\ owner x = Some t /\
    stream_open x <> Some f.
Proof.
  split.
  - intros n x t u pt pu Hr Ht Hu Hpt Hpu. destruct (log_locked_reachable n x Hr) as [_ Hl].
    destruct (Hl t pt Ht) as (_ & H1 & _), (Hl u pu Hu) as (_ & H2 & _). rewrite H1 in H2 by done. by injection (H2 Hpu).
  - eexists _, 2%nat, 1%nat. split.
    + unfold threads_start. cbn [replicate].
      thread_step see_open 0%nat. thread_step acquire 0%nat. thread_step start_writing 0%nat.
      thread_step end_writing 0%nat. thread_step leave_open 0%nat. thread_step split_close 0%nat.
      thread_step see_closed 1%nat. thread_step split_open 0%nat. thread_step release_mutex 0%nat.
      thread_step see_open 2%nat. thread_step acquire 2%nat. thread_step start_writing 2%nat.
      thread_step start_writing 1%nat. thread_step end_writing 1%nat. thread_step leave_open 1%nat.
      thread_step split_close 1%nat. apply rtc_refl.
    + cbn. by split_and!.
Qed.

(** ** Examples *)

Module LogDemo.
#[export] Instance os : OS := {| deny _ _ _ := None; readdir _ s := if decide (files s = ∅) then [] else ["a.log"%string] |}.
Definition tiny : log_config := MkLogCfg 100 2 4 1.
Definition empty_disk : sys := MkSys ∅ ∅ EmptyString 0.
Definition old_log : sys := MkSys {["d/a.log"%string := "old"%string]} {["d"%string]} EmptyString 0.
Definition lines4 : list string := ["one "; "two "; "three "; "4"]%string.
Definition open_log : log_instance := MkLog (Some (LogFile "d/a.log")) 0 "d/a.log" 0 0 0 0 tiny.
End LogDemo.

#[local] Existing Instance LogDemo.os.

Lemma log_retention_witness : good_config LogDemo.tiny /\
  spec_log LogDemo.tiny LogDemo.lines4 = (["one "; "two "; "three "]%string, 1, "4"%string) /\
  exists i s1 i' s',
    utils_log_init__i 5 "d" "a" (Some LogDemo.tiny) zero_log LogDemo.empty_disk = Some (0, i, s1) /\
    log_all LogDemo.lines4 i s1 = Ok (i', s') /\ files s' !! "d/a.log"%string = Some "4"%string /\
    files s' !! rotated_name "d/a.log" 1 = None /\ files s' !! rotated_name "d/a.log" 2 = Some "two "%string.
Proof.
  assert (Hc : good_config LogDemo.tiny) by (unfold good_config; cbn; lia). split; [exact Hc|]. split; [reflexivity|].
  destruct (log_retention 5 "d" "a" LogDemo.tiny LogDemo.empty_disk LogDemo.lines4 6) as (i & s1 & i' & s' & E1 & E2 & E3 & E4 & _).
  - reflexivity.
  - done.
  - reflexivity.
  - reflexivity.
  - exact Hc.
  - repeat apply List.Forall_cons; try (vm_compute; discriminate). constructor.
  - lia.
  - cbn. lia.
  - exists i, s1, i', s'. split; [exact E1|]. split; [exact E2|]. split; [exact E3|].
    split; [apply (E4 1)|apply (E4 2)]; unfold in_u64; lia.
Defined.

Lemma log_init_ends_witness :
  utils_log_init_cfg 0 100 4096 1 = (0, Some (MkLogCfg 100 0 4096 1)) /\
  (forall n, utils_log_init__i n "d" "a" (Some (MkLogCfg 100 0 4096 1)) zero_log LogDemo.empty_disk = None) /\
  exists n r, utils_log_init__i n "d" "a" (Some LogDemo.tiny) zero_log LogDemo.old_log = Some r.
Proof.
  split; [reflexivity|]. split.
  - apply (log_init_ends "d" "a" 0 100 4096 1 (MkLogCfg 100 0 4096 1) zero_log LogDemo.empty_disk); try reflexivity; try lia; done.
  - apply (log_init_ends "d" "a" 2 100 4 1 LogDemo.tiny zero_log LogDemo.old_log); [lia|reflexivity|lia].
Defined.

Lemma restart_forgets_witness :
  exists i s1 i' s', utils_log_init__i 5 "d" "a" (Some LogDemo.tiny) zero_log LogDemo.old_log = Some (0, i, s1) /\
    log_all LogDemo.lines4 i s1 = Ok (i', s') /\ files s' !! "d/a.log.1"%string = Some "old"%string.
Proof.
  destruct (utils_log_init__i 5 "d" "a" (Some LogDemo.tiny) zero_log LogDemo.old_log) as [[[ret i] s1]|] eqn:Ei;
    [|vm_compute in Ei; discriminate Ei].
  destruct (log_all LogDemo.lines4 i s1) as [[i' s']| |] eqn:El.
  - destruct (restart_forgets 5 "d" "a" "old" LogDemo.tiny LogDemo.old_log LogDemo.lines4 i' s') as (j & t & Ej & _ & _ & Hf);
      [reflexivity|vm_compute; reflexivity|vm_compute; reflexivity|vm_compute; reflexivity|vm_compute; discriminate|reflexivity|
       cbn; lia|apply Nat.leb_le; vm_compute; reflexivity|cbn; lia|cbn; lia|].
    rewrite Ei in Ej. injection Ej as -> -> ->. exists j, t, i', s'. split; [reflexivity|]. split; [exact El|]. exact (Hf El).
  - exfalso. assert (is_ok (match utils_log_init__i 5 "d" "a" (Some LogDemo.tiny) zero_log LogDemo.old_log with
      | Some (_, i, s1) => log_all LogDemo.lines4 i s1 | None => Undef end) = true) as Hx by (vm_compute; reflexivity).
    rewrite Ei, El in Hx. discriminate Hx.
  - exfalso. assert (is_ok (match utils_log_init__i 5 "d" "a" (Some LogDemo.tiny) zero_log LogDemo.old_log with
      | Some (_, i, s1) => log_all LogDemo.lines4 i s1 | None => Undef end) = true) as Hx by (vm_compute; reflexivity).
    rewrite Ei, El in Hx. discriminate Hx.
Defined.

Lemma buffers_not_counted_witness :
  let r := foldl (fun st b => utils_log_flush_with_buffer st.1 b st.2) (LogDemo.open_log, LogDemo.old_log) ["12345678"%string; "12345678"%string] in
  cfg_max_size LogDemo.tiny = 4 /\ files r.2 !! "d/a.log"%string = Some "old1234567812345678"%string /\ utils_log_unlock__i r.1 r.2 = r.
Proof.
  destruct (buffers_not_counted ["12345678"%string; "12345678"%string] LogDemo.open_log LogDemo.old_log "old") as (E1 & _ & E3).
  - reflexivity.
  - repeat apply List.Forall_cons; try discriminate. constructor.
  - reflexivity.
  - reflexivity.
  - cbn. lia.
  - cbn. lia.
  - cbn. lia.
  - cbn. lia.
  - split; [reflexivity|]. split; [exact E1|exact E3].
Defined.
