(* ===== verification/RdmaTransport.v ===== *)
(** * The RDMA transporter

    transport/rdma_transporter.h and rdma_transporter.cpp: starting the
    transporter on a utrans context, the port of its server, registering
    memory, and the synchronous send and receive.  Set-up, registration and
    configuration are those of utrans.c; a transfer is an operation of an
    interface, with what utrans.h documents of it as its laws, and the
    functions of utrans.c are an instance.  The socket calls, UCX, CUDA and
    libnuma are parameters.

    The theorems show what a receive copies, which port is announced, and what
    becomes of the transporter over the utrans of this repository. *)

From stdpp Require Import gmap strings.
From S2P Require Import Prelude StateResult StringUtils Options Retry MrSet UtransUtils Registry UtransSetup Topology.
Local Open Scope Z_scope.

(** ** Transfers *)

Module UserOp.
Inductive t : Type := USER_OP_READ | USER_OP_WRITE.
End UserOp.

(** A request with one local segment, and the configuration of a transfer. *)
Record trans_req : Type := MkTransReq {
  req_inst_id : Z;
  opcode : UserOp.t;
  rbuf : Z;
  addr_beg : Z;
  trz_size : Z;
}.

Record trans_conf : Type := MkTransConf {
  max_num_slices : Z;
  min_slice_size : Z;
  wait_ms : Z;
}.

(** [query_instid]: the code and the id, which starts as the given one.
    [exec_transfer]: [None] for the null pointer, else the result of the request. *)
Class Utrans (W : Type) : Type := {
  query_instid : string -> Z -> Z -> W -> Z * Z * W;
  exec_transfer : trans_req -> trans_conf -> W -> option Z * W;
}.

(** The operations of utrans.c. *)
Definition utrans_c {W} : Utrans W := {|
  query_instid host port peer_inst w := (utrans_query_instid peer_inst, w);
  exec_transfer req conf w := ((if utrans_exec_transfer =? 0 then None else Some utrans_get_req_exec_result), w);
|}.

(** ** The transporter *)

(** [std::any] elements: [Some] for a [const void*]. *)
Abbreviation ExtendInfo := (list (option Z)).

Definition GetRemoteAddrFromExtendInfo (extend_info : option ExtendInfo) : result Z :=
  match extend_info with
  | None | Some [] => Ok 0
  | Some (Some a :: _) => Ok a
  | Some (None :: _) => Throw "bad any_cast"
  end.

Definition GetExtendInfoFromRemoteAddr (remote_addr : Z) : ExtendInfo := [Some remote_addr].

(** A context is the part that is set up and the registry of memory. *)
Record RDMATransporter (T : Type) : Type := MkRDMATransporter {
  options_ : Options;
  local_server_name : string;
  local_server_port : Z;
  meta_addr : string;
  write_timeout_ms : Z;
  read_timeout_ms : Z;
  ctx : option (utrans_ctx * ucx_ctx T);
  enable_perf_metrics : bool;
  perf_stats_interval_ms : Z;
  perf_logging_thread_running : bool;
  rdma_numa_node : Z;
  nic_nodes : list (string * Z);
  last_send_receive_time : Z;
  is_running : bool;
}.
Arguments MkRDMATransporter {T} _ _ _ _ _ _ _ _ _ _ _ _ _ _.
Arguments options_ {T} _.
Arguments local_server_name {T} _.
Arguments local_server_port {T} _.
Arguments meta_addr {T} _.
Arguments write_timeout_ms {T} _.
Arguments read_timeout_ms {T} _.
Arguments ctx {T} _.
Arguments enable_perf_metrics {T} _.
Arguments perf_stats_interval_ms {T} _.
Arguments perf_logging_thread_running {T} _.
Arguments rdma_numa_node {T} _.
Arguments nic_nodes {T} _.
Arguments last_send_receive_time {T} _.
Arguments is_running {T} _.

Definition new_RDMATransporter {T} : RDMATransporter T :=
  MkRDMATransporter ∅ EmptyString 0 EmptyString (-1) (-1) None true 500 false (-1) [] 0 false.

Definition kRdmaPortStart : Z := 51010.
Definition kBindPortMaxRetry : Z := 100.

(** What the process sees of the system, fixed during a call: the environment
    and the network, the answers to the set-up of a context, the files, the
    current CUDA device, the process id and the draw of the random port. *)
Record rdma_env : Type := MkRdmaEnv {
  re_getenv : Environment;
  re_network : network;
  re_setup : setup_env;
  re_system : system;
  re_cuda_device : option Z;
  re_pid : Z;
  re_random_offset : Z;
}.

(** The transporter, the topology manager that is shared by all, and the world. *)
Record rdma_state (T W : Type) : Type := MkRdmaState {
  self : RDMATransporter T;
  topology_manager : GpuTopologyManager;
  world : W;
}.
Arguments MkRdmaState {T W} _ _ _.
Arguments self {T W} _.
Arguments topology_manager {T W} _.
Arguments world {T W} _.

Definition set_timeouts {T} (name meta : string) (read write : Z) (t : RDMATransporter T) : RDMATransporter T :=
  MkRDMATransporter (options_ t) name (local_server_port t) meta write read (ctx t) (enable_perf_metrics t) (perf_stats_interval_ms t) (perf_logging_thread_running t) (rdma_numa_node t) (nic_nodes t) (last_send_receive_time t) (is_running t).
Definition set_nics {T} (numa : Z) (nics : list (string * Z)) (t : RDMATransporter T) : RDMATransporter T :=
  MkRDMATransporter (options_ t) (local_server_name t) (local_server_port t) (meta_addr t) (write_timeout_ms t) (read_timeout_ms t) (ctx t) (enable_perf_metrics t) (perf_stats_interval_ms t) (perf_logging_thread_running t) numa nics (last_send_receive_time t) (is_running t).
Definition set_ctx {T} (c : option (utrans_ctx * ucx_ctx T)) (t : RDMATransporter T) : RDMATransporter T :=
  MkRDMATransporter (options_ t) (local_server_name t) (local_server_port t) (meta_addr t) (write_timeout_ms t) (read_timeout_ms t) c (enable_perf_metrics t) (perf_stats_interval_ms t) (perf_logging_thread_running t) (rdma_numa_node t) (nic_nodes t) (last_send_receive_time t) (is_running t).
Definition set_port {T} (port : Z) (t : RDMATransporter T) : RDMATransporter T :=
  MkRDMATransporter (options_ t) (local_server_name t) port (meta_addr t) (write_timeout_ms t) (read_timeout_ms t) (ctx t) (enable_perf_metrics t) (perf_stats_interval_ms t) (perf_logging_thread_running t) (rdma_numa_node t) (nic_nodes t) (last_send_receive_time t) (is_running t).
Definition set_perf {T} (enable : bool) (interval : Z) (running : bool) (t : RDMATransporter T) : RDMATransporter T :=
  MkRDMATransporter (options_ t) (local_server_name t) (local_server_port t) (meta_addr t) (write_timeout_ms t) (read_timeout_ms t) (ctx t) enable interval running (rdma_numa_node t) (nic_nodes t) (last_send_receive_time t) (is_running t).
Definition set_last_time {T} (time : Z) (t : RDMATransporter T) : RDMATransporter T :=
  MkRDMATransporter (options_ t) (local_server_name t) (local_server_port t) (meta_addr t) (write_timeout_ms t) (read_timeout_ms t) (ctx t) (enable_perf_metrics t) (perf_stats_interval_ms t) (perf_logging_thread_running t) (rdma_numa_node t) (nic_nodes t) time (is_running t).
Definition set_running {T} (running : bool) (t : RDMATransporter T) : RDMATransporter T :=
  MkRDMATransporter (options_ t) (local_server_name t) (local_server_port t) (meta_addr t) (write_timeout_ms t) (read_timeout_ms t) (ctx t) (enable_perf_metrics t) (perf_stats_interval_ms t) (perf_logging_thread_running t) (rdma_numa_node t) (nic_nodes t) (last_send_receive_time t) running.

(** ** Starting *)

(** [std::copy] of at most [n - 1] characters into an array of [n], and a
    terminator after them. *)
Definition copy_to_array (n : nat) (s : string) : list ascii :=
  let cs := take (n - 1) (String.list_ascii_of_string s) in
  cs ++ nul :: repeat nul (n - length cs - 1).

Definition NumaNodeOfInfiniband (sys : system) (dev : string) : Z :=
  match open_file sys ("/sys/class/infiniband/" ++ dev ++ "/device/numa_node")%string with
  | Some text => default (-1) (read_int text)
  | None => -1
  end.

Definition InitializeLoggingConfig (pid : Z) (c : utrans_config) : utrans_config :=
  MkUtransConfig (rpc_listen_port c) (rdma_disabled c)
    (MkLogConfig (copy_to_array PATH_MAX "/tmp/astate") (copy_to_array NAME_MAX ("utrans-" ++ to_string pid))
       (log_max_line (log_conf c)) 16 (1024 * 1024 * 1024) 1)
    (rdma_conf c).

Section Transporter.
  Context {T W : Type} `{RegionSet T} `{Clock W} `{FloatLib} `{Utrans W}.
  (** The options, the empty set of regions, the creation of a hash map, the
      listener of UCX, and binding to a NUMA node. *)
  Context (defs : OptionDefinition) (empty_set : T) (idhm : Z -> Z -> bool) (listen : Z -> W -> bool * W)
          (numa_bind : Z -> W -> W) (env : rdma_env).

Abbreviation RS := (SR (rdma_state T W)).

Definition get_self : RS (RDMATransporter T) := fun s => (Ok (self s), s).
Definition modify_self (f : RDMATransporter T -> RDMATransporter T) : RS unit := fun s =>
  (Ok tt, MkRdmaState (f (self s)) (topology_manager s) (world s)).
Definition on_world {A} (f : W -> A * W) : RS A := fun s =>
  let '(a, w) := f (world s) in (Ok a, MkRdmaState (self s) (topology_manager s) w).
Definition on_topology {A} (f : GpuTopologyManager -> result (A * GpuTopologyManager)) : RS A := fun s =>
  match f (topology_manager s) with
  | Ok (a, m) => (Ok a, MkRdmaState (self s) m (world s))
  | Throw e => (Throw e, s)
  | Undef => (Undef, s)
  end.

Definition InitializeFromOptions (options : Options) : RS unit :=
  name ← sr_lift (GetLocalHostnameOrIP (re_getenv env) (re_network env));
  meta ← sr_lift (GetOptionString defs options "TRANSFER_ENGINE_META_SERVICE_ADDRESS");
  read ← sr_lift (GetOptionInt defs options "TRANSFER_ENGINE_READ_TIMEOUT_MS");
  write ← sr_lift (GetOptionInt defs options "TRANSFER_ENGINE_WRITE_TIMEOUT_MS");
  modify_self (set_timeouts name meta read write).

Definition RDMA_SelectRdmaDevices (options : Options) (rank_id : Z) : RS string :=
  max_devices ← sr_lift (GetOptionInt defs options "TRANSFER_ENGINE_MAX_RDMA_DEVICES");
  _ ← on_topology (Initialize (re_system env));
  match re_cuda_device env with
  | Some device =>
      if 0 <=? device then on_topology (fun m => SelectRdmaDevices (re_system env) m device max_devices)
      else on_topology (fun m => SelectRdmaDevicesByRank (re_system env) m rank_id max_devices)
  | None => on_topology (fun m => SelectRdmaDevicesByRank (re_system env) m rank_id max_devices)
  end.

Definition InitializeRdmaConfig (c : utrans_config) (options : Options) (role_rank : Z) : RS utrans_config :=
  pollers ← sr_lift (GetOptionInt defs options "TRANSFER_ENGINE_RDMA_NUM_POLLERS");
  selected_devices ← RDMA_SelectRdmaDevices options role_rank;
  let conf patt := MkUtransConfig (rpc_listen_port c) (rdma_disabled c) (log_conf c)
                     (MkRdmaConfig patt pollers (max_mr (rdma_conf c))) in
  if decide (selected_devices = EmptyString) then mret (conf None)
  else
    let nodes := (fun n => (n, NumaNodeOfInfiniband (re_system env) n)) <$> SplitByComma selected_devices false false true in
    let numa := match nodes with [] => -1 | n :: _ => n.2 end in
    _ ← modify_self (set_nics numa nodes);
    numa_enabled ← sr_lift (GetOptionBool defs options "TRANSFER_ENGINE_ENABLE_NUMA_ALLOCATION");
    _ ← (if (numa_enabled : bool) then on_world (fun w => (tt, numa_bind numa w)) else mret tt);
    mret (conf (Some selected_devices)).

Definition SetupUtransContext (c : utrans_config) : RS bool :=
  '(ret, o, _) ← sr_lift (utrans_setup (re_getenv env) idhm (re_setup env) (Some c));
  _ ← modify_self (set_ctx (option_map (fun u => (u, initial empty_set)) o));
  mret (ret =? UTRANS_RET_SUCC).

(** [utrans_setup_rpcsrv(ctx_)] *)
Definition setup_rpcsrv (u : utrans_ctx) (w : W) : Z * W :=
  let '(ok, w') := listen (u16 (UtransSetup.listen_port u)) w in
  (utrans_setup_rpcsrv (fun _ => ok) (Some u), w').

(** [utrans_get_conf(ctx_)->rpc_listen_port = port; utrans_setup_rpcsrv(ctx_)]:
    without a context a null pointer is written to. *)
Definition try_port (port : Z) : RS Z :=
  t ← get_self;
  match ctx t with
  | None => sr_lift Undef
  | Some (u, reg) =>
      let u := set_rpc_listen_port port u in
      _ ← modify_self (set_ctx (Some (u, reg)));
      on_world (setup_rpcsrv u)
  end.

(** The retried function, on the count of failed attempts, [success] and the
    state; [SetupRpcServerWithRetry] calls it only with a context. *)
Definition setup_func (base_port : Z) (st : Z * bool * rdma_state T W) : outcome unit * (Z * bool * rdma_state T W) :=
  let '(attempt_count, success, s) := st in
  let current_port := base_port + attempt_count in
  if kBindPortMaxRetry <=? attempt_count then (Failed "max retry attempts reached", st)
  else match try_port current_port s with
       | (Ok ret, s) =>
           if ret =? UTRANS_RET_SUCC
           then (Done tt, (attempt_count, true, (modify_self (set_port current_port) s).2))
           else (Failed "Port binding failed", (attempt_count + 1, success, s))
       | (_, s) => (Failed "no context", (attempt_count, success, s))
       end.

(** The policy allows [kBindPortMaxRetry + 1] attempts. *)
Definition SetupRpcServerWithRetry : RS bool := fun s =>
  match ctx (self s) with
  | None => (Undef, s)
  | Some _ =>
      match new_CountingRetry kBindPortMaxRetry with
      | Ok policy =>
          match Retry (setup_func (kRdmaPortStart + re_random_offset env)) (Z.to_nat kBindPortMaxRetry + 2) None policy
                  (0, false, s) with
          | Some (Ok (Returned _, _, (_, success, s'))) => (Ok success, s')
          | Some (Ok (_, _, (_, _, s'))) => (Ok false, s')
          | Some (Throw _) => (Ok false, s)
          | Some Undef | None => (Undef, s)
          end
      | _ => (Undef, s)
      end
  end.

Definition SetupRpcServer (options : Options) : RS bool :=
  fixed_port ← sr_lift (GetOptionBool defs options "TRANSFER_ENGINE_SERVICE_FIXED_PORT");
  if (fixed_port : bool) then
    port ← sr_lift (GetOptionInt defs options "TRANSFER_ENGINE_LOCAL_PORT");
    ret ← try_port port;
    if ret =? UTRANS_RET_SUCC then _ ← modify_self (set_port port); mret true else mret false
  else SetupRpcServerWithRetry.

Definition GetOptionLong (options : Options) (name : string) : result Z :=
  a ← GetOptionValue defs Tint64 options name;
  match a with AInt64 z => Ok z | _ => Undef end.

Definition InitializePerfMetricsThread (options : Options) : RS unit :=
  enable ← sr_lift (GetOptionBool defs options "TRANSFER_ENGINE_ENABLE_PERF_METRICS");
  interval ← sr_lift (GetOptionLong options "TRANSFER_ENGINE_PERF_STATS_INTERVAL_MS");
  modify_self (fun t =>
    set_perf enable interval (enable && bool_decide (is_Some (ctx t)) || perf_logging_thread_running t) t).

Definition RDMA_Start (options : Options) (role_rank : Z) : RS bool :=
  _ ← InitializeFromOptions options;
  c ← InitializeRdmaConfig (InitializeLoggingConfig (re_pid env) zero_config) options role_rank;
  ok ← SetupUtransContext c;
  if negb ok then mret false
  else
    ok ← SetupRpcServer options;
    if negb ok then mret false
    else
      _ ← InitializePerfMetricsThread options;
      _ ← modify_self (set_running true);
      _ ← on_world (fun w => (tt, sleep_for (ms 1000) w));
      mret true.

Definition stop_self (t : RDMATransporter T) : RDMATransporter T :=
  if negb (is_running t) then t
  else set_running false (set_perf (enable_perf_metrics t) (perf_stats_interval_ms t) false t).

Definition RDMA_Stop : RS unit := modify_self stop_self.

(** The destructor; [utrans_clean] does nothing. *)
Definition destroy_RDMATransporter : RS unit :=
  _ ← RDMA_Stop; modify_self (fun t => match ctx t with Some _ => set_ctx None t | None => t end).

(** A round of [PerfMetricsLoggingThread]: whether the information is printed. *)
Definition perf_round : RS bool :=
  t ← get_self;
  time ← on_world (fun w => let w' := sleep_for (ms (perf_stats_interval_ms t)) w in (to_ms (now w'), w'));
  mret ((time - last_send_receive_time t <? 1000) && bool_decide (is_Some (ctx t))).

(** ** Memory *)

Definition RegisterMemory (renv : regist_env) (addr len : Z) (is_vram : bool) (gpu_id_or_numa_node : Z) : RS bool :=
  t ← get_self;
  match ctx t with
  | None => mret false
  | Some (u, reg) =>
      match (if is_vram then utrans_regist_vram renv (Some reg) addr len gpu_id_or_numa_node
             else utrans_regist_ram renv (Some reg) addr len) with
      | Some (Some reg', mr) =>
          _ ← modify_self (set_ctx (Some (u, reg')));
          sr_lift (_ ← throw_if (mr =? 0) "Memory registration failed, mr is null"; Ok true)
      | _ => sr_lift Undef
      end
  end.

Definition DeregisterMemory (addr len : Z) : RS bool :=
  t ← get_self;
  match ctx t with
  | None => mret false
  | Some (u, reg) =>
      match utrans_dereg_mem (Some reg) addr len with
      | Some (Some reg', ret) => _ ← modify_self (set_ctx (Some (u, reg'))); mret (ret =? 0)
      | _ => sr_lift Undef
      end
  end.

(** ** Send and receive *)

(** [send_func] and [recv_func]: one attempt.  The size of the request is cut to 32 bits. *)
Definition transfer_func (op : UserOp.t) (timeout_ms local_addr size : Z) (remote_host : string) (remote_port remote_addr : Z)
    (w : W) : outcome bool * W :=
  let '(ret, remote_inst_id, w) := query_instid remote_host remote_port UTRANS_INVALID_INST_ID w in
  if negb (ret =? UTRANS_RET_SUCC) then (Failed "Query remote instance id failed", w)
  else
    let req := MkTransReq remote_inst_id op remote_addr local_addr (u32 size) in
    let conf := MkTransConf 4 (1024 * 1024) timeout_ms in
    match exec_transfer req conf w with
    | (None, w) => (Failed "utrans_exec_transfer failed", w)
    | (Some status, w) =>
        if negb (status =? URES_SUCCESS) then (Failed "Transfer execution failed with status", w) else (Done true, w)
    end.

(** The retried attempts: every exception ends in [false]. *)
Definition retry_transfer (retry_count retry_sleep_ms : Z) (func : W -> outcome bool * W) : RS bool := fun s =>
  match new_CountingRetry retry_count with
  | Ok base =>
      match Retry func (Z.to_nat retry_count + 2) None (MkCountingAndSleep base retry_sleep_ms) (world s) with
      | Some (Ok (Returned b, _, w)) => (Ok b, MkRdmaState (self s) (topology_manager s) w)
      | Some (Ok (_, _, w)) => (Ok false, MkRdmaState (self s) (topology_manager s) w)
      | Some (Throw _) => (Ok false, s)
      | Some Undef | None => (Undef, s)
      end
  | Throw _ => (Ok false, s)
  | Undef => (Undef, s)
  end.

Definition update_last_time : RS unit :=
  time ← on_world (fun w => (to_ms (now w), w)); modify_self (set_last_time time).

Definition RDMA_Send (local_addr send_size : Z) (remote_host : string) (remote_port : Z) (extend_info : option ExtendInfo)
    : RS bool :=
  t ← get_self;
  if bool_decide (ctx t = None) then mret false
  else
    _ ← sr_lift (throw_if ((local_addr =? 0) || (send_size =? 0)) "RDMATransporter::Send: send_data is null or size is zero");
    remote_addr ← sr_lift (GetRemoteAddrFromExtendInfo extend_info);
    _ ← sr_lift (throw_if (remote_addr =? 0) "RDMATransporter::Send: remote address is null");
    _ ← update_last_time;
    retry_count ← sr_lift (GetOptionInt defs (options_ t) "TRANSPORT_SEND_RETRY_COUNT");
    retry_sleep_ms ← sr_lift (GetOptionInt defs (options_ t) "TRANSPORT_SEND_RETRY_SLEEP_MS");
    retry_transfer retry_count retry_sleep_ms
      (transfer_func UserOp.USER_OP_WRITE (write_timeout_ms t) local_addr send_size remote_host remote_port remote_addr).

Definition RDMA_Receive (local_addr recv_size : Z) (remote_host : string) (remote_port : Z)
    (extend_info : option ExtendInfo) : RS bool :=
  t ← get_self;
  _ ← sr_lift (throw_if (bool_decide (ctx t = None)) "RDMATransporter::Receive: context not initialized");
  _ ← sr_lift (throw_if ((local_addr =? 0) || (recv_size =? 0)) "RDMATransporter::Receive: recv_data is null or size is zero");
  remote_addr ← sr_lift (GetRemoteAddrFromExtendInfo extend_info);
  _ ← sr_lift (throw_if (remote_addr =? 0) "RDMATransporter::Receive: remote address is null");
  _ ← update_last_time;
  retry_count ← sr_lift (GetOptionInt defs (options_ t) "TRANSPORT_RECEIVE_RETRY_COUNT");
  retry_sleep_ms ← sr_lift (GetOptionInt defs (options_ t) "TRANSPORT_RECEIVE_RETRY_SLEEP_MS");
  retry_transfer retry_count retry_sleep_ms
    (transfer_func UserOp.USER_OP_READ (read_timeout_ms t) local_addr recv_size remote_host remote_port remote_addr).

Definition AsyncSend : RS unit := sr_lift (Throw "Not implemented").
Definition AsyncReceive : RS unit := sr_lift (Throw "Not implemented").

End Transporter.

(** ** What utrans.h says of transfers *)

(** [local]: the bytes of this process; [remote]: those of an instance, here or
    elsewhere; [instance_of]: the instance that listens at an address.  A
    successful request has moved its bytes, and no request changes bytes of
    this process other than those it reads into. *)
Class UtransLaws (W : Type) `{Clock W} `{Utrans W} : Type := {
  local : W -> Z -> Z;
  remote : W -> Z -> Z -> Z;
  instance_of : string -> Z -> Z;
  query_law host port id w id' w' : query_instid host port id w = (UTRANS_RET_SUCC, id', w') ->
    id' = instance_of host port;
  query_frame host port id w ret id' w' : query_instid host port id w = (ret, id', w') -> local w' = local w;
  read_law req conf w w' : exec_transfer req conf w = (Some URES_SUCCESS, w') -> opcode req = UserOp.USER_OP_READ ->
    forall i, 0 <= i < trz_size req -> local w' (addr_beg req + i) = remote w (req_inst_id req) (rbuf req + i);
  read_frame req conf w o w' : exec_transfer req conf w = (o, w') -> opcode req = UserOp.USER_OP_READ ->
    forall a, ~ (addr_beg req <= a < addr_beg req + trz_size req) -> local w' a = local w a;
  sleep_frame d w : local (sleep_for d w) = local w;
}.

Section ReceiveLaws.
  Context {T W : Type} `{RegionSet T} `{UtransLaws W}.

(** The bytes from [size] on are left alone, and after success those before it
    are the remote ones. *)
Definition untouched (addr size : Z) (w w' : W) : Prop :=
  forall a, ~ (addr <= a < addr + size) -> local w' a = local w a.
Definition received (addr size : Z) (host : string) (port remote_addr : Z) (w' : W) : Prop :=
  exists w, forall i, 0 <= i < size -> local w' (addr + i) = remote w (instance_of host port) (remote_addr + i).

Lemma receive_attempt timeout addr size host port remote_addr w :
  let '(o, w') := transfer_func UserOp.USER_OP_READ timeout addr size host port remote_addr w in
  untouched addr (u32 size) w w' /\
  (forall b, o = Done b -> b = true /\ received addr (u32 size) host port remote_addr w') /\ (forall e, o <> Fatal e).
Proof.
  unfold transfer_func.
  destruct (query_instid host port UTRANS_INVALID_INST_ID w) as [[ret id] w1] eqn:Eq.
  pose proof (query_frame _ _ _ _ _ _ _ Eq) as Hq.
  destruct (Z.eqb_spec ret UTRANS_RET_SUCC) as [->|]; cbn [negb]; [|split; [intros a _; by rewrite Hq|done]].
  apply query_law in Eq. subst id. set (req := MkTransReq _ _ _ _ _).
  destruct (exec_transfer req (MkTransConf 4 (1024 * 1024) timeout) w1) as [o w2] eqn:Ee.
  assert (Hu : untouched addr (u32 size) w w2).
  { intros a Ha. rewrite <-Hq. by apply (read_frame _ _ _ _ _ Ee). }
  destruct o as [status|]; [|done]. destruct (Z.eqb_spec status URES_SUCCESS) as [->|]; cbn [negb]; [|done].
  split; [done|]. split; [|done]. intros b [= <-]. split; [done|]. exists w1. intros i Hi.
  by apply (read_law _ _ _ _ Ee).
Qed.

Lemma untouched_trans addr size w1 w2 w3 :
  untouched addr size w1 w2 -> untouched addr size w2 w3 -> untouched addr size w1 w3.
Proof. intros H1' H2' a Ha. rewrite H2' by done. by apply H1'. Qed.

(** All the attempts together. *)
Lemma receive_tries timeout addr size host port remote_addr sleep n : forall e w,
  let r := tries (transfer_func UserOp.USER_OP_READ timeout addr size host port remote_addr)
             (sleep_for (ms sleep)) n e w in
  untouched addr (u32 size) w r.2 /\
  (forall b, r.1 = Returned b -> b = true /\ received addr (u32 size) host port remote_addr r.2).
Proof.
  induction n as [|n IH]; intros e w r; [split; [by intros a _|done]|]. subst r. cbn [tries].
  pose proof (receive_attempt timeout addr size host port remote_addr (sleep_for (ms sleep) w)) as Ha.
  destruct (transfer_func _ _ _ _ _ _ _ _) as [[b|e'|e'] w'].
  - destruct Ha as (Hu & Hd & _). split; [|intros b' [= <-]; by apply Hd].
    intros a Ha. cbn. rewrite Hu by done. by rewrite sleep_frame.
  - destruct Ha as (Hu & _ & _). destruct (IH e' w') as [Hu' Hd']. split; [|done].
    eapply untouched_trans; [|exact Hu']. intros a Ha. rewrite Hu by done. by rewrite sleep_frame.
  - destruct Ha as (_ & _ & Hf). by destruct (Hf e').
Qed.

Lemma receive_counted timeout addr size host port remote_addr sleep n w :
  let r := counted (transfer_func UserOp.USER_OP_READ timeout addr size host port remote_addr)
             (sleep_for (ms sleep)) n w in
  untouched addr (u32 size) w r.2 /\
  (forall b, r.1 = Returned b -> b = true /\ received addr (u32 size) host port remote_addr r.2).
Proof.
  unfold counted. pose proof (receive_attempt timeout addr size host port remote_addr w) as Ha.
  destruct (transfer_func _ _ _ _ _ _ _ _) as [[b|e'|e'] w'].
  - destruct Ha as (Hu & Hd & _). split; [done|]. intros b' [= <-]. by apply Hd.
  - destruct Ha as (Hu & _ & _). destruct (receive_tries timeout addr size host port remote_addr sleep n e' w') as [Hu' Hd'].
    split; [|done]. by eapply untouched_trans.
  - destruct Ha as (_ & _ & Hf). by destruct (Hf e').
Qed.
End ReceiveLaws.

(** The retry options when none are set. *)
Lemma default_receive_retry `{FloatLib} :
  GetOptionInt option_definitions ∅ "TRANSPORT_RECEIVE_RETRY_COUNT" = Ok 30 /\
  GetOptionInt option_definitions ∅ "TRANSPORT_RECEIVE_RETRY_SLEEP_MS" = Ok 3000.
Proof. split; vm_compute; reflexivity. Qed.

Section Receive.
  Context {T W : Type} `{RegionSet T} `{FloatLib}.

(** What a receive is for arguments that pass the checks. *)
Lemma receive_checked `{Clock W} `{Utrans W} (s : rdma_state T W) addr size host port remote_addr :
  ctx (self s) <> None -> options_ (self s) = ∅ -> addr <> 0 -> size <> 0 -> remote_addr <> 0 ->
  RDMA_Receive option_definitions addr size host port (Some (GetExtendInfoFromRemoteAddr remote_addr)) s =
  retry_transfer 30 3000
    (transfer_func UserOp.USER_OP_READ (read_timeout_ms (self s)) addr size host port remote_addr)
    (MkRdmaState (set_last_time (to_ms (now (world s))) (self s)) (topology_manager s) (world s)).
Proof.
  intros Hc Ho Ha Hs Hr. unfold RDMA_Receive. unfold mbind, SR_bind, get_self at 1. cbn [self].
  rewrite bool_decide_eq_false_2 by done. cbn [throw_if sr_lift].
  replace ((addr =? 0) || (size =? 0)) with false by lia. cbn [throw_if sr_lift].
  cbn [GetRemoteAddrFromExtendInfo GetExtendInfoFromRemoteAddr]. replace (remote_addr =? 0) with false by lia.
  cbn [throw_if sr_lift]. rewrite Ho. destruct default_receive_retry as [-> ->]. reflexivity.
Qed.
End Receive.

Lemma retry_transfer_counted {T W} `{Clock W} (n sleep : Z) (func : W -> outcome bool * W) (s : rdma_state T W) :
  0 <= n < 2 ^ 31 - 1 ->
  let r := counted func (sleep_for (ms sleep)) (Z.to_nat n) (world s) in
  retry_transfer n sleep func s =
    (Ok (match r.1 with Returned b => b | _ => false end), MkRdmaState (self s) (topology_manager s) r.2).
Proof.
  intros Hn r. unfold retry_transfer, new_CountingRetry. replace (n <? 0) with false by lia. cbn [throw_if mbind result_bind].
  destruct (counting_sleep_retry func n sleep (Z.to_nat n + 2) (world s) Hn ltac:(lia)) as [p' ->]. fold r.
  by destruct r as [[b|e|] w].
Qed.

(** C11: A receive with valid arguments ends, whatever the transfers do.  It returns
    true only after a transfer succeeded, and then the bytes of the remote
    instance are at the local address: as many as the low 32 bits of the size
    say.  Bytes of this process after those, or elsewhere, are never changed,
    so that of 4 GiB or more only a part is received although the result is
    true. *)
Theorem receive_copies {T W} `{RegionSet T} `{FloatLib} `{UtransLaws W} (s : rdma_state T W)
    (local_addr recv_size : Z) (remote_host : string) (remote_port remote_addr : Z) :
  ctx (self s) <> None -> options_ (self s) = ∅ -> local_addr <> 0 -> recv_size <> 0 -> remote_addr <> 0 ->
  exists b s',
    RDMA_Receive option_definitions local_addr recv_size remote_host remote_port
      (Some (GetExtendInfoFromRemoteAddr remote_addr)) s = (Ok b, s') /\
    (forall a, ~ (local_addr <= a < local_addr + u32 recv_size) -> local (world s') a = local (world s) a) /\
    (b = true -> exists w, forall i, 0 <= i < u32 recv_size ->
       local (world s') (local_addr + i) = remote w (instance_of remote_host remote_port) (remote_addr + i)).
Proof.
  intros Hc Ho Ha Hs Hr. rewrite receive_checked by done.
  set (func := transfer_func UserOp.USER_OP_READ _ _ _ _ _ _).
  set (s1 := MkRdmaState _ _ (world s)).
  rewrite retry_transfer_counted by lia. eexists _, _. split; [reflexivity|].
  pose proof (receive_counted (read_timeout_ms (self s)) local_addr recv_size remote_host remote_port remote_addr
                3000 (Z.to_nat 30) (world s)) as [Hu Hd].
  split; [exact Hu|]. fold func in Hd. cbn [world s1].
  destruct (counted func (sleep_for (ms 3000)) (Z.to_nat 30) (world s)) as [r w'] eqn:E. cbn [fst snd] in *.
  destruct r as [b|e|]; [|done|done]. intros ->. by destruct (Hd true eq_refl).
Qed.

(** ** The options of a transporter *)

Section Starting.
  Context {T W : Type} `{RegionSet T} `{Clock W} `{FloatLib} `{Utrans W}.
  Context (defs : OptionDefinition) (empty_set : T) (idhm : Z -> Z -> bool) (listen : Z -> W -> bool * W)
          (numa_bind : Z -> W -> W) (env : rdma_env).

(** A property of the transporter, and those that calls leave alone. *)
Definition of_self (P : RDMATransporter T -> Prop) (s : rdma_state T W) : Prop := P (self s).

Lemma keeps_modify P f : (forall t, P t -> P (f t)) -> sr_keeps (of_self P) (modify_self (W := W) f).
Proof. intros Hf s Hs. by apply Hf. Qed.

Lemma keeps_world {A} P (f : W -> A * W) : sr_keeps (of_self P) (on_world (T := T) f).
Proof. intros s Hs. unfold on_world. destruct (f (world s)). done. Qed.

Lemma keeps_topology {A} P (f : GpuTopologyManager -> result (A * GpuTopologyManager)) :
  sr_keeps (of_self P) (on_topology (T := T) (W := W) f).
Proof. intros s Hs. unfold on_topology. by destruct (f _) as [[]| |]. Qed.

Lemma keeps_get_self P : sr_keeps (of_self P) (get_self (T := T) (W := W)).
Proof. by intros s. Qed.

Ltac keeps := repeat first
  [ apply sr_keeps_bind; [|intros ?] | apply sr_keeps_ret | apply sr_keeps_lift | apply keeps_get_self | apply keeps_world
  | apply keeps_topology | by apply keeps_modify | case_match ].

(** Up to the set-up of the context only names, devices and timeouts are assigned. *)
Lemma keeps_initialize P options rank c :
  (forall name meta read write t, P t -> P (set_timeouts name meta read write t)) ->
  (forall numa nics t, P t -> P (set_nics numa nics t)) ->
  sr_keeps (of_self P) (InitializeFromOptions defs env options) /\
  sr_keeps (of_self P) (InitializeRdmaConfig defs numa_bind env c options rank).
Proof.
  intros Ht Hn. unfold InitializeFromOptions, InitializeRdmaConfig, RDMA_SelectRdmaDevices.
  split; keeps; apply keeps_modify; auto.
Qed.

(** A transporter whose options are none. *)
Definition no_options : rdma_state T W -> Prop := of_self (fun t => options_ t = ∅).

Lemma keeps_try_port port : sr_keeps no_options (try_port (T := T) listen port).
Proof.
  unfold try_port, no_options. keeps.
Qed.

(** The retried attempts keep it too. *)
Lemma keeps_tries {A} (func : Z * bool * rdma_state T W -> outcome A * (Z * bool * rdma_state T W)) :
  (forall st, no_options st.2 -> no_options (func st).2.2) -> forall n e st,
  no_options st.2 -> no_options (tries func id n e st).2.2.
Proof.
  intros Hf n. induction n as [|n IH]; intros e st Hst; [done|]. cbn [tries]. unfold id.
  specialize (Hf st Hst). destruct (func st) as [[a|e'|e'] st']; [done|by apply IH|done].
Qed.

Lemma keeps_setup_func base st : no_options st.2 -> no_options (setup_func (T := T) listen base st).2.2.
Proof.
  destruct st as [[n ok] s]. intros Hs. unfold setup_func. destruct (_ <=? n); [done|].
  pose proof (keeps_try_port (base + n) s Hs) as Hk. destruct (try_port _ _ s) as [[ret| |] s1]; [|done..].
  destruct (ret =? _); [|done]. by apply keeps_modify.
Qed.

Lemma keeps_SetupRpcServerWithRetry : sr_keeps no_options (SetupRpcServerWithRetry (T := T) listen env).
Proof.
  intros s Hs. unfold SetupRpcServerWithRetry. destruct (ctx (self s)); [|done].
  change (new_CountingRetry kBindPortMaxRetry) with (Ok (MkCountingRetry kBindPortMaxRetry 0)). cbv iota.
  set (func := setup_func _ _). destruct (counting_retry func kBindPortMaxRetry (Z.to_nat kBindPortMaxRetry + 2) (0, false, s))
    as [p' ->]; [unfold kBindPortMaxRetry; lia|lia|].
  assert (Hk : no_options (counted func id (Z.to_nat kBindPortMaxRetry) (0, false, s)).2.2).
  { unfold counted. pose proof (keeps_setup_func (kRdmaPortStart + re_random_offset env) (0, false, s) Hs) as Hf.
    fold func in Hf. destruct (func (0, false, s)) as [[a|e|e] st']; [done| |done].
    apply keeps_tries; [|done]. intros st Hst. by apply keeps_setup_func. }
  destruct (counted _ _ _ _) as [[a|e|] [[n ok] s']]; done.
Qed.

Lemma keeps_Start options rank :
  sr_keeps no_options (RDMA_Start defs empty_set idhm listen numa_bind env options rank).
Proof.
  destruct (keeps_initialize (fun t => options_ t = ∅) options rank (InitializeLoggingConfig (re_pid env) zero_config))
    as [Hi Hc]; [done..|].
  unfold RDMA_Start, SetupUtransContext, SetupRpcServer, InitializePerfMetricsThread.
  apply sr_keeps_bind; [exact Hi|intros _]. apply sr_keeps_bind; [exact Hc|intros c]. unfold no_options.
  repeat first [apply keeps_SetupRpcServerWithRetry | apply keeps_try_port | keeps].
Qed.
End Starting.

(** Send and receive read their retry options from a member that nothing
    assigns: whatever options the transporter was started with, a receive makes
    up to 31 attempts, 3 seconds apart. *)
Theorem retry_options_ignored {T W} `{RegionSet T} `{Clock W} `{FloatLib} `{Utrans W} (empty_set : T)
    (idhm : Z -> Z -> bool) (listen : Z -> W -> bool * W) (numa_bind : Z -> W -> W) (env : rdma_env)
    (options : Options) (role_rank : Z) (m : GpuTopologyManager) (w : W)
    (local_addr recv_size : Z) (remote_host : string) (remote_port remote_addr : Z) :
  let s := (RDMA_Start option_definitions empty_set idhm listen numa_bind env options role_rank
              (MkRdmaState new_RDMATransporter m w)).2 in
  ctx (self s) <> None -> local_addr <> 0 -> recv_size <> 0 -> remote_addr <> 0 ->
  let attempt := transfer_func UserOp.USER_OP_READ (read_timeout_ms (self s)) local_addr recv_size
                   remote_host remote_port remote_addr in
  let r := counted attempt (sleep_for (ms 3000)) 30 (world s) in
  exists t, RDMA_Receive option_definitions local_addr recv_size remote_host remote_port
              (Some (GetExtendInfoFromRemoteAddr remote_addr)) s =
    (Ok (match r.1 with Returned b => b | _ => false end), MkRdmaState t (topology_manager s) r.2).
Proof.
  intros s Hc Ha Hs Hr attempt r.
  assert (Ho : options_ (self s) = ∅).
  { by apply (keeps_Start option_definitions empty_set idhm listen numa_bind env options role_rank
                (MkRdmaState new_RDMATransporter m w)). }
  rewrite receive_checked by done. rewrite retry_transfer_counted by lia. eexists. reflexivity.
Qed.

(** ** Over the utrans of this repository *)

(** A transporter that does not run and has no context. *)
Definition idle {T W} : rdma_state T W -> Prop := of_self (fun t => is_running t = false /\ ctx t = None).

Lemma server_needs_context {T W} `{FloatLib} (defs : OptionDefinition) (listen : Z -> W -> bool * W) env options
    (s : rdma_state T W) :
  idle s -> (forall b, (SetupRpcServer defs listen env options s).1 <> Ok b) /\
    idle (SetupRpcServer defs listen env options s).2.
Proof.
  intros [Hrun Hc]. unfold SetupRpcServer, try_port, SetupRpcServerWithRetry, mbind, SR_bind, sr_lift, get_self.
  destruct (GetOptionBool _ _ _) as [[]| |]; [|by rewrite Hc|done..].
  destruct (GetOptionInt _ _ _); [|done..]. by rewrite Hc.
Qed.

Lemma context_is_null {T W} (empty_set : T) env c (s : rdma_state T W) :
  idle s -> idle (SetupUtransContext empty_set idhm_create env c s).2.
Proof.
  intros [Hrun Hc]. unfold SetupUtransContext, mbind, SR_bind, sr_lift.
  destruct (utrans_setup _ _ _ _) as [[[ret o] l]| |] eqn:E; [|done..].
  apply utrans_setup_no_ctx in E. by subst o.
Qed.

Lemma RDMA_Start_idle {T W} `{RegionSet T} `{Clock W} `{FloatLib} `{Utrans W} (defs : OptionDefinition) (empty_set : T)
    (listen : Z -> W -> bool * W) (numa_bind : Z -> W -> W) (env : rdma_env) (options : Options) (role_rank : Z)
    (s0 : rdma_state T W) : idle s0 ->
  let r := RDMA_Start defs empty_set idhm_create listen numa_bind env options role_rank s0 in r.1 <> Ok true /\ idle r.2.
Proof.
  intros Hs0 r. set (P := fun t : RDMATransporter T => is_running t = false /\ ctx t = None).
  set (c := InitializeLoggingConfig (re_pid env) zero_config) in r.
  destruct (keeps_initialize (W := W) defs numa_bind env P options role_rank c) as [Hi Hc]; [unfold P; naive_solver..|].
  subst r. unfold RDMA_Start, mbind, SR_bind. fold c.
  specialize (Hi s0 Hs0). destruct (InitializeFromOptions _ _ _ s0) as [[u| |] s1]; [|by destruct Hi..].
  specialize (Hc s1 Hi). destruct (InitializeRdmaConfig _ _ _ _ _ _ s1) as [[conf| |] s2]; [|by destruct Hc..].
  pose proof (context_is_null empty_set env conf s2 Hc) as H3.
  destruct (SetupUtransContext _ _ _ _ s2) as [[ok| |] s3]; [|by destruct H3..].
  destruct ok; cbn [negb]; [|by destruct H3].
  destruct (server_needs_context defs listen env options s3 H3) as [Hno H4].
  destruct (SetupRpcServer _ _ _ _ s3) as [[b| |] s4]; [by destruct (Hno b)|by destruct H4..].
Qed.

(** [utrans_setup] yields no context, and a transporter without one cannot
    start: the call returns false, throws for an option that cannot be read, or
    writes through a null pointer when the set-up reports success, which it
    does if a mutex cannot be initialised.  The transporter never runs, a
    receive throws, and a send or a registration of memory returns false. *)
Theorem rdma_never_starts {T W} `{RegionSet T} `{Clock W} `{FloatLib} `{Utrans W} (defs : OptionDefinition) (empty_set : T)
    (listen : Z -> W -> bool * W) (numa_bind : Z -> W -> W) (env : rdma_env) (options : Options) (role_rank : Z)
    (m : GpuTopologyManager) (w : W) (renv : regist_env) (addr size : Z) (host : string) (port : Z)
    (info : option ExtendInfo) :
  let r := RDMA_Start defs empty_set idhm_create listen numa_bind env options role_rank
             (MkRdmaState new_RDMATransporter m w) in
  r.1 <> Ok true /\ is_running (self r.2) = false /\
  RDMA_Receive defs addr size host port info r.2 = (Throw "RDMATransporter::Receive: context not initialized", r.2) /\
  RDMA_Send defs addr size host port info r.2 = (Ok false, r.2) /\
  RegisterMemory renv addr size false (-1) r.2 = (Ok false, r.2).
Proof.
  intros r. destruct (RDMA_Start_idle defs empty_set listen numa_bind env options role_rank (MkRdmaState new_RDMATransporter m w))
    as (Hr & Hrun & Hc); [done|].
  split; [exact Hr|]. split; [exact Hrun|]. fold r in Hc.
  unfold RDMA_Receive, RDMA_Send, RegisterMemory, mbind, SR_bind, get_self. rewrite Hc. done.
Qed.

(** ** The port of the server *)

(** Up to [n] requests to listen on a port: how many failed before one succeeded. *)
Fixpoint first_listen {W} (listen : Z -> W -> bool * W) (port : Z) (n : nat) (w : W) : option nat * W :=
  match n with
  | O => (None, w)
  | S n' =>
      let '(ok, w) := listen port w in
      if ok then (Some O, w)
      else let '(r, w) := first_listen listen port n' w in (S <$> r, w)
  end.

Section Port.
  Context {T W : Type} (listen : Z -> W -> bool * W) (base : Z) (port : Z).

(** A state whose context listens on [port]. *)
Definition listens (s : rdma_state T W) : Prop :=
  exists u reg, ctx (self s) = Some (u, reg) /\ has_worker u = true /\ u16 (UtransSetup.listen_port u) = port.

Lemma try_port_listens p (s : rdma_state T W) : listens s ->
  let '(ok, w) := listen port (world s) in
  exists s', try_port listen p s = (Ok (if ok then UTRANS_RET_SUCC else UTRANS_RET_RPC_SRV_ERR), s') /\
    listens s' /\ world s' = w /\ topology_manager s' = topology_manager s.
Proof.
  intros (u & reg & Hc & Hw & Hp). destruct (listen port (world s)) as [ok w] eqn:El.
  unfold try_port, mbind, SR_bind, get_self. rewrite Hc. unfold modify_self, on_world, setup_rpcsrv. cbn.
  rewrite Hp, El. exists (MkRdmaState (set_ctx (Some (set_rpc_listen_port p u, reg)) (self s)) (topology_manager s) w).
  split; [|split; [|done]].
  - unfold _ucx_srv_listen. rewrite Hw. by destruct ok.
  - by exists (set_rpc_listen_port p u), reg.
Qed.

Lemma setup_func_listens k (s : rdma_state T W) : listens s -> k < kBindPortMaxRetry ->
  let '(ok, w) := listen port (world s) in
  exists s', world s' = w /\ topology_manager s' = topology_manager s /\
    if ok then setup_func listen base (k, false, s) = (Done tt, (k, true, s')) /\ local_server_port (self s') = base + k
    else setup_func listen base (k, false, s) = (Failed "Port binding failed", (k + 1, false, s')) /\ listens s'.
Proof.
  intros Hs Hk. pose proof (try_port_listens (base + k) s Hs) as Ht. cbn [setup_func].
  replace (kBindPortMaxRetry <=? k) with false by lia.
  destruct (listen port (world s)) as [ok w]. destruct Ht as (s' & -> & Hs' & Hw & Htopo).
  destruct ok; cbn; [|by exists s'].
  by eexists (MkRdmaState _ _ _).
Qed.

Lemma tries_listen n : forall k e (s : rdma_state T W), listens s -> k = kBindPortMaxRetry - Z.of_nat n ->
  let r := first_listen listen port n (world s) in
  let r' := tries (setup_func listen base) id (S n) e (k, false, s) in
  world r'.2.2 = r.2 /\ topology_manager r'.2.2 = topology_manager s /\
  match r.1 with
  | Some j => r'.1 = Returned tt /\ r'.2.1.2 = true /\ local_server_port (self r'.2.2) = base + k + Z.of_nat j
  | None => exists e', r'.1 = Rethrown e'
  end.
Proof.
  induction n as [|n IH]; intros k e s Hs Hk.
  { cbn [tries first_listen setup_func id]. replace (kBindPortMaxRetry <=? k) with true by lia. cbn. eauto. }
  pose proof (setup_func_listens k s Hs ltac:(lia)) as Hf.
  remember (S n) as m eqn:Em. cbn [tries]. change (id (k, false, s)) with (k, false, s).
  assert (Hfl : first_listen listen port m (world s) = let '(ok, w) := listen port (world s) in
    if ok then (Some O, w) else let '(r, w) := first_listen listen port n w in (S <$> r, w)) by (by subst m).
  cbv zeta. rewrite Hfl. clear Hfl.
  destruct (listen port (world s)) as [ok w]. destruct Hf as (s' & Hw & Htopo & Hf). destruct ok.
  { destruct Hf as [-> Hport]. cbn. split; [done|]. split; [done|]. split; [done|]. split; [done|]. lia. }
  destruct Hf as [-> Hs'].
  specialize (IH (k + 1) "Port binding failed"%string s' Hs' ltac:(lia)). rewrite Hw in IH. subst m.
  destruct (first_listen listen port n w) as [o w'] eqn:Ef. cbn [fst snd] in IH |- *.
  destruct IH as (H1 & H2 & H3). split; [exact H1|]. split; [by rewrite H2|].
  destruct o as [j|]; cbn [fmap option_fmap option_map]; [|exact H3]. destruct H3 as (H3 & H4 & H5). split; [exact H3|]. split; [exact H4|].
  rewrite H5. lia.
Qed.

(** The first attempt is like the others. *)
Lemma counted_listen (s : rdma_state T W) : listens s ->
  counted (setup_func listen base) id (Z.to_nat kBindPortMaxRetry) (0, false, s) =
  tries (setup_func listen base) id (S (Z.to_nat kBindPortMaxRetry)) EmptyString (0, false, s).
Proof. done. Qed.
End Port.

(** The port of the server.  A context that [utrans_setup] made asks UCX for a
    listener on the port 0, whatever port the transporter writes into its
    configuration: of up to 100 such requests the first that succeeds ends the
    search, and the transporter announces its random base port plus the number
    of requests that failed, on which nothing listens.  Without a success
    the call returns false. *)
Theorem announced_port {T W} `{RegionSet T} (listen : Z -> W -> bool * W) (env : rdma_env) (s : rdma_state T W)
    getenv idhm senv config ret u live reg :
  utrans_setup getenv idhm senv config = Ok (ret, Some u, live) -> ctx (self s) = Some (u, reg) ->
  let r := first_listen listen 0 100 (world s) in
  exists t, SetupRpcServerWithRetry listen env s = (Ok (bool_decide (is_Some r.1)), MkRdmaState t (topology_manager s) r.2) /\
    forall k, r.1 = Some k -> local_server_port t = kRdmaPortStart + re_random_offset env + Z.of_nat k.
Proof.
  intros Hu Hc r. apply utrans_setup_ctx in Hu as [Hp Hw].
  assert (Hl : listens 0 s) by (exists u, reg; by rewrite Hp).
  unfold SetupRpcServerWithRetry. rewrite Hc.
  change (new_CountingRetry kBindPortMaxRetry) with (Ok (MkCountingRetry kBindPortMaxRetry 0)). cbv iota.
  set (func := setup_func _ _). destruct (counting_retry func kBindPortMaxRetry (Z.to_nat kBindPortMaxRetry + 2) (0, false, s))
    as [p' ->]; [unfold kBindPortMaxRetry; lia|lia|].
  unfold func. rewrite (counted_listen _ _ 0) by done.
  pose proof (tries_listen listen (kRdmaPortStart + re_random_offset env) 0 (Z.to_nat kBindPortMaxRetry) 0 EmptyString s Hl eq_refl) as Ht.
  cbv zeta in Ht. change (Z.to_nat kBindPortMaxRetry) with 100%nat in *. fold r in Ht.
  destruct (tries _ _ _ _ _) as [o [[n ok] [t topo w]]]. cbn [fst snd world topology_manager self] in Ht.
  destruct Ht as (-> & -> & H3). exists t. destruct (r.1) as [k|].
  - destruct H3 as (-> & -> & H5). split; [done|]. intros k' [= <-]. rewrite H5. lia.
  - destruct H3 as [e ->]. done.
Qed.

(** ** A peer to receive from *)

Module Peer.

Record dworld : Type := MkWorld { time : Z; mem : Z -> Z }.

(** The byte at an address of the peer. *)
Definition peer (a : Z) : Z := a mod 256.

#[export] Instance clock : Clock dworld := {| now := time; sleep_for d w := MkWorld (time w + Z.max 0 d) (mem w) |}.

(** Transfers succeed from the time 5 on. *)
#[export] Instance transfers : Utrans dworld := {|
  query_instid host port id w := (UTRANS_RET_SUCC, 7, w);
  exec_transfer req conf w :=
    if time w <? 5 then (Some 2, MkWorld (time w + 1) (mem w))
    else (Some URES_SUCCESS, MkWorld (time w + 1) (fun a =>
            match opcode req with
            | UserOp.USER_OP_READ =>
                if (addr_beg req <=? a) && (a <? addr_beg req + trz_size req) then peer (rbuf req + (a - addr_beg req))
                else mem w a
            | UserOp.USER_OP_WRITE => mem w a
            end));
|}.

#[export] Instance transfers_laws : UtransLaws dworld.
Proof.
  refine {| local := mem; remote w id a := peer a; instance_of host port := 7 |}.
  - intros host port id w id' w' [= <- _]. done.
  - by intros host port id w ret id' w' [= _ _ <-].
  - intros req conf w w' H Hop i Hi. cbn in H. destruct (time w <? 5); [done|]. injection H as <-. cbn. rewrite Hop.
    replace ((addr_beg req <=? addr_beg req + i) && (addr_beg req + i <? addr_beg req + trz_size req)) with true by lia.
    f_equal. lia.
  - intros req conf w o w' H Hop a Ha. cbn in H. destruct (time w <? 5); [by injection H as _ <-|]. injection H as _ <-.
    cbn. rewrite Hop. by replace ((addr_beg req <=? a) && (a <? addr_beg req + trz_size req)) with false by lia.
  - done.
Defined.

#[export] Instance floats : FloatLib := {| float := unit; float_zero := tt; stof _ := None; stod _ := None |}.

Definition w0 : dworld := MkWorld 0 (fun _ => -1).
Definition connected : rdma_state mr_set_t dworld :=
  MkRdmaState (set_ctx (Some (demo_ctx, initial (MrSet NULL 0))) new_RDMATransporter) new_GpuTopologyManager w0.

(** Nothing but an address in the environment. *)
Definition env : rdma_env :=
  MkRdmaEnv (fun v => if String.eqb v "POD_IP" then Some "10.0.0.7"%string else None)
    {| route_address := None; interfaces := None |} (all_ok 7)
    (MkSystem (fun _ => None) (fun _ => None) (fun _ => None) None (fun l => l)) None 42 3.

Definition options : Options := {["TRANSPORT_RECEIVE_RETRY_COUNT"%string := "5"%string]}.

(** The first two requests to listen fail. *)
Definition listen (port : Z) (w : dworld) : bool * dworld := (2 <=? time w, MkWorld (time w + 1) (mem w)).

Lemma set_up : exists u live, utrans_setup (re_getenv env) (fun _ _ => true) (all_ok 7) None = Ok (UTRANS_RET_SUCC, Some u, live).
Proof.
  assert (E : match utrans_setup (re_getenv env) (fun _ _ => true) (all_ok 7) None with
              | Ok (ret, Some _, _) => ret =? UTRANS_RET_SUCC | _ => false end = true) by (vm_compute; reflexivity).
  destruct (utrans_setup _ _ _ _) as [[[ret [u|]] live]| |]; try discriminate E. apply Z.eqb_eq in E. subst ret. eauto.
Qed.

End Peer.

#[local] Existing Instances Peer.clock Peer.transfers Peer.transfers_laws Peer.floats.

Lemma receive_copies_witness :
  ctx (self Peer.connected) <> None /\
  exists s', RDMA_Receive option_definitions 4096 (2 ^ 32 + 8) "10.0.0.8" 51010 (Some (GetExtendInfoFromRemoteAddr 300)) Peer.connected = (Ok true, s') /\
    Peer.mem (world s') 4099 = 47 /\ Peer.mem (world s') 4104 = -1.
Proof.
  split; [done|].
  destruct (receive_copies Peer.connected 4096 (2 ^ 32 + 8) "10.0.0.8" 51010 300) as (b & s' & E & Hu & Hr); [done..|].
  assert (b = true) as ->.
  { apply (f_equal fst) in E. vm_compute in E. by injection E as <-. }
  exists s'. split; [exact E|]. destruct (Hr eq_refl) as [w Hw]. split.
  - change 4099 with (4096 + 3). change Peer.mem with local. rewrite Hw by (vm_compute; split; [discriminate|reflexivity]).
    vm_compute. reflexivity.
  - change Peer.mem with local. rewrite Hu by (change (u32 (2 ^ 32 + 8)) with 8; lia). reflexivity.
Defined.

Lemma retry_options_ignored_witness :
  let s := (RDMA_Start option_definitions (MrSet NULL 0) (fun _ _ => true) Peer.listen (fun _ w => w) Peer.env Peer.options 0
              (MkRdmaState new_RDMATransporter new_GpuTopologyManager Peer.w0)).2 in
  let attempt := transfer_func UserOp.USER_OP_READ (read_timeout_ms (self s)) 4096 16 "10.0.0.8" 51010 300 in
  let r := counted attempt (sleep_for (ms 3000)) 30 (world s) in
  exists t, RDMA_Receive option_definitions 4096 16 "10.0.0.8" 51010 (Some (GetExtendInfoFromRemoteAddr 300)) s =
    (Ok (match r.1 with Returned b => b | _ => false end), MkRdmaState t (topology_manager s) r.2).
Proof.
  apply (retry_options_ignored (MrSet NULL 0) (fun _ _ => true) Peer.listen (fun _ w => w) Peer.env Peer.options 0
           new_GpuTopologyManager Peer.w0 4096 16 "10.0.0.8" 51010 300); [|done..].
  intros E. apply (f_equal (fun o => bool_decide (is_Some o))) in E. vm_compute in E. discriminate E.
Defined.

Lemma announced_port_witness :
  exists u live, utrans_setup (re_getenv Peer.env) (fun _ _ => true) (all_ok 7) None = Ok (UTRANS_RET_SUCC, Some u, live) /\
  let s := MkRdmaState (set_ctx (Some (u, initial (MrSet NULL 0))) new_RDMATransporter) new_GpuTopologyManager Peer.w0 in
  exists t s', SetupRpcServerWithRetry Peer.listen Peer.env s = (Ok true, s') /\ t = self s' /\ local_server_port t = 51015.
Proof.
  destruct Peer.set_up as (u & live & E). exists u, live. split; [exact E|]. intros s.
  destruct (announced_port Peer.listen Peer.env s _ _ _ _ _ u live (initial (MrSet NULL 0)) E eq_refl) as (t & Es & Hk).
  exists t. eexists. split; [exact Es|]. split; [reflexivity|]. rewrite (Hk 2%nat); reflexivity.
Defined.
