(* ===== verification/Tensor.v ===== *)
(** * Tensors, sharded keys and their conversions

    The value types of the core (core/atensor.h, include/astate/sharded_key.h)
    and the conversions of core/utils.h.  The size and stride arrays of an
    [ATensor] are pointers: [None] is the null pointer. *)

From S2P Require Import Prelude.
From stdpp Require Import pretty.
Local Open Scope Z_scope.

(** ** Enumerations *)

Module ATDeviceType.
Inductive t : Type := UNKNOWN_DEV | CPU | CUDA.
End ATDeviceType.

Module ATDtype.
Inductive t : Type :=
  | Undefined | Byte | Char | Short | Int | Long | Half | Float | Double | ComplexHalf
  | ComplexFloat | ComplexDouble | Bool | QInt8 | QUInt8 | QInt32 | BFloat16 | QUInt4x2
  | QUInt2x4 | Bits1x8 | Bits2x4 | Bits4x2 | Bits8 | Bits16 | Float8_e5m2 | Float8_e4m3fn
  | Float8_e5m2fnuz | Float8_e4m3fnuz | UInt16 | UInt32 | UInt64 | UInt1 | UInt2 | UInt3
  | UInt4 | UInt5 | UInt6 | UInt7 | Int1 | Int2 | Int3 | Int4 | Int5 | Int6 | Int7
  | Float8_e8m0fnu.

Definition code (d : t) : Z :=
  match d with
  | Undefined => -1
  | Byte => 0
  | Char => 1
  | Short => 2
  | Int => 3
  | Long => 4
  | Half => 5
  | Float => 6
  | Double => 7
  | ComplexHalf => 8
  | ComplexFloat => 9
  | ComplexDouble => 10
  | Bool => 11
  | QInt8 => 12
  | QUInt8 => 13
  | QInt32 => 14
  | BFloat16 => 15
  | QUInt4x2 => 16
  | QUInt2x4 => 17
  | Bits1x8 => 18
  | Bits2x4 => 19
  | Bits4x2 => 20
  | Bits8 => 21
  | Bits16 => 22
  | Float8_e5m2 => 23
  | Float8_e4m3fn => 24
  | Float8_e5m2fnuz => 25
  | Float8_e4m3fnuz => 26
  | UInt16 => 27
  | UInt32 => 28
  | UInt64 => 29
  | UInt1 => 30
  | UInt2 => 31
  | UInt3 => 32
  | UInt4 => 33
  | UInt5 => 34
  | UInt6 => 35
  | UInt7 => 36
  | Int1 => 37
  | Int2 => 38
  | Int3 => 39
  | Int4 => 40
  | Int5 => 41
  | Int6 => 42
  | Int7 => 43
  | Float8_e8m0fnu => 44
  end.
End ATDtype.

(** [torch::ScalarType], by the names the conversions use; [Other] stands for
    the scalar types of torch they do not list. *)
Module ScalarType.
Inductive t : Type :=
  | Byte | Char | Short | Int | Long | Half | Float | Double | ComplexHalf | ComplexFloat
  | ComplexDouble | Bool | QInt8 | QUInt8 | QInt32 | BFloat16 | QUInt4x2 | QUInt2x4 | Bits1x8
  | Bits2x4 | Bits4x2 | Bits8 | Bits16 | Float8_e5m2 | Float8_e4m3fn | Float8_e5m2fnuz
  | Float8_e4m3fnuz | UInt16 | UInt32 | UInt64 | UInt1 | UInt2 | UInt3 | UInt4 | UInt5 | UInt6
  | UInt7 | Int1 | Int2 | Int3 | Int4 | Int5 | Int6 | Int7 | Other (code : Z).
End ScalarType.

Module TorchDeviceType.
Inductive t : Type := CPU | CUDA | Other (code : Z).
End TorchDeviceType.

#[export] Instance at_device_type_eq_dec : EqDecision ATDeviceType.t.
Proof. solve_decision. Defined.

#[export] Instance scalar_type_eq_dec : EqDecision ScalarType.t.
Proof. solve_decision. Defined.

#[export] Instance at_dtype_eq_dec : EqDecision ATDtype.t.
Proof. solve_decision. Defined.

Inductive ARole : Type := TRAINING | INFERENCE.

#[export] Instance arole_eq_dec : EqDecision ARole.
Proof. solve_decision. Defined.

Definition RoleToString (role : ARole) : string :=
  if decide (role = TRAINING) then "TRAINING" else "INFERENCE".

Definition FromString (str : string) : ARole :=
  if decide (str = "TRAINING"%string) then TRAINING else INFERENCE.

(** ** Data type and device conversions *)

Definition TorchDtypeToATDtype (scalar_type : ScalarType.t) : result ATDtype.t :=
  match scalar_type with
  | ScalarType.Byte => Ok ATDtype.Byte
  | ScalarType.Char => Ok ATDtype.Char
  | ScalarType.Short => Ok ATDtype.Short
  | ScalarType.Int => Ok ATDtype.Int
  | ScalarType.Long => Ok ATDtype.Long
  | ScalarType.Half => Ok ATDtype.Half
  | ScalarType.Float => Ok ATDtype.Float
  | ScalarType.Double => Ok ATDtype.Double
  | ScalarType.ComplexHalf => Ok ATDtype.ComplexHalf
  | ScalarType.ComplexFloat => Ok ATDtype.ComplexFloat
  | ScalarType.ComplexDouble => Ok ATDtype.ComplexDouble
  | ScalarType.Bool => Ok ATDtype.Bool
  | ScalarType.QInt8 => Ok ATDtype.QInt8
  | ScalarType.QUInt8 => Ok ATDtype.QUInt8
  | ScalarType.QInt32 => Ok ATDtype.QInt32
  | ScalarType.BFloat16 => Ok ATDtype.BFloat16
  | ScalarType.QUInt4x2 => Ok ATDtype.QUInt4x2
  | ScalarType.QUInt2x4 => Ok ATDtype.QUInt2x4
  | ScalarType.Bits1x8 => Ok ATDtype.Bits1x8
  | ScalarType.Bits2x4 => Ok ATDtype.Bits2x4
  | ScalarType.Bits4x2 => Ok ATDtype.Bits4x2
  | ScalarType.Bits8 => Ok ATDtype.Bits8
  | ScalarType.Bits16 => Ok ATDtype.Bits16
  | ScalarType.Float8_e5m2 => Ok ATDtype.Float8_e5m2
  | ScalarType.Float8_e4m3fn => Ok ATDtype.Float8_e4m3fn
  | ScalarType.Float8_e5m2fnuz => Ok ATDtype.Float8_e5m2fnuz
  | ScalarType.Float8_e4m3fnuz => Ok ATDtype.Float8_e4m3fnuz
  | ScalarType.UInt16 => Ok ATDtype.UInt16
  | ScalarType.UInt32 => Ok ATDtype.UInt32
  | ScalarType.UInt64 => Ok ATDtype.UInt64
  | ScalarType.UInt1 => Ok ATDtype.UInt1
  | ScalarType.UInt2 => Ok ATDtype.UInt2
  | ScalarType.UInt3 => Ok ATDtype.UInt3
  | ScalarType.UInt4 => Ok ATDtype.UInt4
  | ScalarType.UInt5 => Ok ATDtype.UInt5
  | ScalarType.UInt6 => Ok ATDtype.UInt6
  | ScalarType.UInt7 => Ok ATDtype.UInt7
  | ScalarType.Int1 => Ok ATDtype.Int1
  | ScalarType.Int2 => Ok ATDtype.Int2
  | ScalarType.Int3 => Ok ATDtype.Int3
  | ScalarType.Int4 => Ok ATDtype.Int4
  | ScalarType.Int5 => Ok ATDtype.Int5
  | ScalarType.Int6 => Ok ATDtype.Int6
  | ScalarType.Int7 => Ok ATDtype.Int7
  | ScalarType.Other _ => Throw "Unsupported torch::ScalarType: "
  end.

Definition ATDtypeToTorchDtype (atdtype : ATDtype.t) : result ScalarType.t :=
  match atdtype with
  | ATDtype.Byte => Ok ScalarType.Byte
  | ATDtype.Char => Ok ScalarType.Char
  | ATDtype.Short => Ok ScalarType.Short
  | ATDtype.Int => Ok ScalarType.Int
  | ATDtype.Long => Ok ScalarType.Long
  | ATDtype.Half => Ok ScalarType.Half
  | ATDtype.Float => Ok ScalarType.Float
  | ATDtype.Double => Ok ScalarType.Double
  | ATDtype.ComplexHalf => Ok ScalarType.ComplexHalf
  | ATDtype.ComplexFloat => Ok ScalarType.ComplexFloat
  | ATDtype.ComplexDouble => Ok ScalarType.ComplexDouble
  | ATDtype.Bool => Ok ScalarType.Bool
  | ATDtype.QInt8 => Ok ScalarType.QInt8
  | ATDtype.QUInt8 => Ok ScalarType.QUInt8
  | ATDtype.QInt32 => Ok ScalarType.QInt32
  | ATDtype.BFloat16 => Ok ScalarType.BFloat16
  | ATDtype.QUInt4x2 => Ok ScalarType.QUInt4x2
  | ATDtype.QUInt2x4 => Ok ScalarType.QUInt2x4
  | ATDtype.Bits1x8 => Ok ScalarType.Bits1x8
  | ATDtype.Bits2x4 => Ok ScalarType.Bits2x4
  | ATDtype.Bits4x2 => Ok ScalarType.Bits4x2
  | ATDtype.Bits8 => Ok ScalarType.Bits8
  | ATDtype.Bits16 => Ok ScalarType.Bits16
  | ATDtype.Float8_e5m2 => Ok ScalarType.Float8_e5m2
  | ATDtype.Float8_e4m3fn => Ok ScalarType.Float8_e4m3fn
  | ATDtype.Float8_e5m2fnuz => Ok ScalarType.Float8_e5m2fnuz
  | ATDtype.Float8_e4m3fnuz => Ok ScalarType.Float8_e4m3fnuz
  | ATDtype.UInt16 => Ok ScalarType.UInt16
  | ATDtype.UInt32 => Ok ScalarType.UInt32
  | ATDtype.UInt64 => Ok ScalarType.UInt64
  | ATDtype.UInt1 => Ok ScalarType.UInt1
  | ATDtype.UInt2 => Ok ScalarType.UInt2
  | ATDtype.UInt3 => Ok ScalarType.UInt3
  | ATDtype.UInt4 => Ok ScalarType.UInt4
  | ATDtype.UInt5 => Ok ScalarType.UInt5
  | ATDtype.UInt6 => Ok ScalarType.UInt6
  | ATDtype.UInt7 => Ok ScalarType.UInt7
  | ATDtype.Int1 => Ok ScalarType.Int1
  | ATDtype.Int2 => Ok ScalarType.Int2
  | ATDtype.Int3 => Ok ScalarType.Int3
  | ATDtype.Int4 => Ok ScalarType.Int4
  | ATDtype.Int5 => Ok ScalarType.Int5
  | ATDtype.Int6 => Ok ScalarType.Int6
  | ATDtype.Int7 => Ok ScalarType.Int7
  | ATDtype.Undefined | ATDtype.Float8_e8m0fnu => Throw "Unsupported ATDtype: "
  end.

Record ATDevice : Type := MkATDevice {
  device_type : ATDeviceType.t;
  device_index : Z; (* int8_t *)
}.

Record TorchDevice : Type := MkTorchDevice {
  td_type : TorchDeviceType.t;
  td_index : Z; (* c10::DeviceIndex, int8_t *)
}.

#[export] Instance at_device_eq_dec : EqDecision ATDevice.
Proof. solve_decision. Defined.

Definition TorchDeviceToATDevice (device : TorchDevice) : result ATDevice :=
  dt ← match td_type device with
       | TorchDeviceType.CPU => Ok ATDeviceType.CPU
       | TorchDeviceType.CUDA => Ok ATDeviceType.CUDA
       | TorchDeviceType.Other _ => Throw "Unsupported torch::DeviceType: "
       end;
  Ok (MkATDevice dt (td_index device)).

Definition ATDeviceToTorchDevice (atdevice : ATDevice) : result TorchDevice :=
  dt ← match device_type atdevice with
       | ATDeviceType.CPU => Ok TorchDeviceType.CPU
       | ATDeviceType.CUDA => Ok TorchDeviceType.CUDA
       | ATDeviceType.UNKNOWN_DEV => Throw "Unsupported ATDeviceType: "
       end;
  Ok (MkTorchDevice dt (device_index atdevice)).

(** ** Storage *)

Record ATStorage : Type := MkATStorage {
  storage_size : Z; (* size_t *)
  device : ATDevice;
  data : Z; (* address, 0 is nullptr *)
}.

#[export] Instance at_storage_eq_dec : EqDecision ATStorage.
Proof. solve_decision. Defined.

Definition GetATDeviceSize : Z := 1 + 1.

Definition GetStorageMetaSize : Z := 8 + GetATDeviceSize.

Definition storage_IsValid (s : ATStorage) : bool :=
  (0 <? storage_size s) &&
  negb (bool_decide (device_type (device s) = ATDeviceType.UNKNOWN_DEV)) &&
  (bool_decide (device_type (device s) = ATDeviceType.CPU) ||
   ((0 <=? device_index (device s)) && (device_index (device s) <? 10))) &&
  negb (data s =? 0).

(** ** Tensors *)

Record ATensor : Type := MkATensor {
  at_size : option (list Z);
  at_stride : option (list Z);
  storage_offset : Z; (* int64_t *)
  dim_num : Z; (* int32_t *)
  dtype : ATDtype.t;
  at_conj : bool;
  at_neg : bool;
  requires_grad : bool;
  storage : ATStorage;
}.

#[export] Instance atensor_eq_dec : EqDecision ATensor.
Proof. solve_decision. Defined.

Definition ATensor_default : ATensor :=
  MkATensor None None 0 0 ATDtype.Undefined false false false
    (MkATStorage 0 (MkATDevice ATDeviceType.UNKNOWN_DEV 0) 0).

(** [new int64_t[dim_num]] filled by [memcpy] of [dim_num] elements. *)
Definition copy_array (src : list Z) (dim_num : Z) : result (list Z) :=
  if dim_num <=? Z.of_nat (length src) then Ok (take (Z.to_nat dim_num) src) else Undef.

Definition copy_dims (src : option (list Z)) (dim_num : Z) : result (option (list Z)) :=
  match src with
  | Some l => if 0 <? dim_num then l' ← copy_array l dim_num; Ok (Some l') else Ok None
  | None => Ok None
  end.

(** The copy constructor; the assignment operator frees the old arrays and
    then copies the same way. *)
Definition ATensor_copy (other : ATensor) : result ATensor :=
  sz ← copy_dims (at_size other) (dim_num other);
  st ← copy_dims (at_stride other) (dim_num other);
  Ok (MkATensor sz st (storage_offset other) (dim_num other) (dtype other) (at_conj other)
        (at_neg other) (requires_grad other) (storage other)).

(** The move constructor: the new tensor and what is left of the source. *)
Definition ATensor_move (other : ATensor) : ATensor * ATensor :=
  (other,
   MkATensor None None (storage_offset other) 0 (dtype other) (at_conj other) (at_neg other)
     (requires_grad other) (storage other)).

Definition ATensor_new (size stride : list Z) (storage_offset dim_num : Z)
    (dtype : ATDtype.t) (conj neg : bool) (storage : ATStorage) (req_grad : bool)
    : result ATensor :=
  sz ← copy_array size dim_num;
  st ← copy_array stride dim_num;
  Ok (MkATensor (Some sz) (Some st) storage_offset dim_num dtype conj neg req_grad storage).

Definition GetTotalMetaSize (t : ATensor) : Z :=
  8 * dim_num t + 8 * dim_num t + 8 + 4 + 4 + 1 * 3 + GetStorageMetaSize.

Definition GetTotalSize (t : ATensor) : Z := GetTotalMetaSize t + storage_size (storage t).

(** Reads of the size and stride arrays. *)
Definition size_at (t : ATensor) (i : Z) : result Z :=
  match at_size t with Some l => index l i | None => Undef end.

Definition stride_at (t : ATensor) (i : Z) : result Z :=
  match at_stride t with Some l => index l i | None => Undef end.

(** [std::equal(a, a + n, b)] on two arrays of at least [n] elements. *)
Definition equal_n (a b : option (list Z)) (n : Z) : result bool :=
  if n <=? 0 then Ok true else
  match a, b with
  | Some la, Some lb =>
      x ← copy_array la n; y ← copy_array lb n; Ok (bool_decide (x = y))
  | _, _ => Undef
  end.

Definition IsShapeEqual (t other : ATensor) : result bool :=
  e ← equal_n (at_size t) (at_size other) (dim_num t);
  if e : bool then equal_n (at_stride t) (at_stride other) (dim_num t) else Ok false.

Definition IsValid (t : ATensor) : bool :=
  bool_decide (at_size t <> None) && bool_decide (at_stride t <> None) && (0 <? dim_num t) &&
  negb (bool_decide (dtype t = ATDtype.Undefined)) && (0 <=? storage_offset t) &&
  storage_IsValid (storage t).

Definition Clone (t : ATensor) (only_meta : bool) : result ATensor :=
  ret ← ATensor_copy t;
  if only_meta then Ok ret else
  Ok (MkATensor (at_size ret) (at_stride ret) (storage_offset ret) (dim_num ret) (dtype ret)
        (at_conj ret) (at_neg ret) (requires_grad ret)
        (MkATStorage 0 (MkATDevice ATDeviceType.UNKNOWN_DEV 0) 0)).

(** ** Sharded keys *)

Record ShardedKey : Type := MkShardedKey {
  key : string;
  global_shape : list Z;
  global_offset : list Z;
}.

#[export] Instance sharded_key_eq_dec : EqDecision ShardedKey.
Proof. solve_decision. Defined.

#[export] Program Instance sharded_key_countable : Countable ShardedKey :=
  inj_countable' (fun k => (key k, global_shape k, global_offset k))
    (fun '(a, b, c) => MkShardedKey a b c) _.
Next Obligation. by intros []. Qed.

(** [v[0], v[1], ...] *)
Fixpoint join_comma (l : list Z) : string :=
  match l with
  | [] => EmptyString
  | [x] => pretty x
  | x :: l' => (pretty x ++ ", " ++ join_comma l')%string
  end.

Definition ShardedKey_ToString (k : ShardedKey) : string :=
  ("key=" ++ key k ++ ", globalShape=[" ++ join_comma (global_shape k) ++
   "], globalOffset=[" ++ join_comma (global_offset k) ++ "]")%string.

(** The hash of a vector of 64-bit integers, with the [std::hash] of the
    element type as an argument; [size_t] arithmetic wraps. *)
Fixpoint hash_vector (hash_i64 : Z -> Z) (h : Z) (l : list Z) : Z :=
  match l with
  | [] => h
  | x :: l' => hash_vector hash_i64 (u64 (h * 31 + hash_i64 x)) l'
  end.

Definition ShardedKeyHash (hash_string : string -> Z) (hash_i64 : Z -> Z) (k : ShardedKey) : Z :=
  let h1 := hash_string (key k) in
  let h2 := hash_vector hash_i64 0 (global_shape k) in
  let h3 := hash_vector hash_i64 0 (global_offset k) in
  Z.lxor (Z.lxor h1 (u64 (Z.shiftl h2 1))) (u64 (Z.shiftl h3 2)).

(** ** Element counts and in-place narrowing (core/utils.h) *)

(** The product of the sizes. *)
Definition GetTensorTotalSize (t : ATensor) : result Z :=
  for_each (fun i acc => x ← size_at t i; chk64 (acc * x)) (seqZ 0 (dim_num t)) 1.

(** [itemsize] is torch's table of element sizes. *)
Definition GetTensorTotalByteSize (itemsize : ScalarType.t -> Z) (t : ATensor) : result Z :=
  n ← GetTensorTotalSize t;
  d ← ATDtypeToTorchDtype (dtype t);
  Ok (u64 (n * itemsize d)).

Definition GetStorageByteOffset (itemsize : ScalarType.t -> Z) (d : ATDtype.t)
    (storage_offset : Z) : result Z :=
  s ← ATDtypeToTorchDtype d; Ok (u64 (storage_offset * itemsize s)).

(** The loop of [IsContiguousShard] for [i = n, ..., 1]. *)
Fixpoint contiguous_loop (t : ATensor) (copy_shape : list Z) (n : nat) (stride : Z)
    : result bool :=
  match n with
  | O => Ok true
  | S n' =>
      let i := Z.of_nat n in
      si ← size_at t i; ci ← index copy_shape i; sti ← stride_at t i;
      if negb (si =? ci) || negb (sti =? stride) then Ok false
      else stride' ← chk64 (stride * si); contiguous_loop t copy_shape n' stride'
  end.

Definition IsContiguousShard (t : ATensor) (copy_shape : list Z) : result bool :=
  if dim_num t =? Z.of_nat (length copy_shape)
  then contiguous_loop t copy_shape (Z.to_nat (dim_num t - 1)) 1
  else Ok false.

(** [for (i < dim_num) atensor.size[i] = copy_shape[i]] *)
Definition overwrite_size (t : ATensor) (copy_shape : list Z) : result (list Z) :=
  match at_size t with
  | None => if dim_num t <=? 0 then Ok [] else Undef
  | Some l =>
      for_each (fun i l => c ← index copy_shape i; index_set l i c) (seqZ 0 (dim_num t)) l
  end.

Definition TryAdjustGlobalOffset (t : ATensor) (copy_shape copy_offset : list Z)
    (k : ShardedKey) : result (bool * ATensor * ShardedKey) :=
  c ← IsContiguousShard t copy_shape;
  if (c : bool) then
    sz ← overwrite_size t copy_shape;
    st0 ← stride_at t 0;
    co0 ← index copy_offset 0;
    m ← chk64 (st0 * co0);
    so ← chk64 (storage_offset t + m);
    go0 ← index (global_offset k) 0;
    go0' ← chk64 (go0 + co0);
    go ← index_set (global_offset k) 0 go0';
    Ok (true,
        MkATensor (Some sz) (at_stride t) so (dim_num t) (dtype t) (at_conj t) (at_neg t)
          (requires_grad t) (storage t),
        MkShardedKey (key k) (global_shape k) go)
  else Ok (false, t, k).

(** ** Specification *)

Fixpoint dot (a b : list Z) : Z :=
  match a, b with x :: a', y :: b' => x * y + dot a' b' | _, _ => 0 end.

Fixpoint prod_list (l : list Z) : Z :=
  match l with [] => 1 | s :: l' => s * prod_list l' end.

(** The row-major position of a coordinate. *)
Fixpoint row_major (sz c : list Z) : Z :=
  match sz, c with
  | _ :: sz', x :: c' => x * prod_list sz' + row_major sz' c'
  | _, _ => 0
  end.

(** The storage position, in elements, of a coordinate of a tensor. *)
Definition elem_pos (t : ATensor) (c : list Z) : Z :=
  storage_offset t + dot (default [] (at_stride t)) c.

(** A tensor whose arrays have [dim_num] elements. *)
Definition dims_ok (t : ATensor) (sz st : list Z) : Prop :=
  at_size t = Some sz /\ at_stride t = Some st /\
  dim_num t = Z.of_nat (length sz) /\ length st = length sz.

(** ** Lemmas *)

Lemma dtype_back d d' : TorchDtypeToATDtype d = Ok d' -> ATDtypeToTorchDtype d' = Ok d.
Proof. by destruct d; intros [= <-]. Qed.

Lemma dtype_forth d d' : ATDtypeToTorchDtype d = Ok d' -> TorchDtypeToATDtype d' = Ok d.
Proof. by destruct d; intros [= <-]. Qed.

Lemma size_at_Some t sz i : at_size t = Some sz -> size_at t i = index sz i.
Proof. intros E. unfold size_at. by rewrite E. Qed.

(** The number of elements of a tensor, when it is computed. *)
Lemma total_size_Ok t sz st n : dims_ok t sz st -> GetTensorTotalSize t = Ok n -> n = prod_list sz.
Proof.
  intros (Es & _ & Hn & _). unfold GetTensorTotalSize. rewrite Hn. clear Hn.
  assert (forall l pre acc, sz = pre ++ l ->
    for_each (fun i acc => x ← size_at t i; chk64 (acc * x)) (seqZ (Z.of_nat (length pre)) (Z.of_nat (length l))) acc = Ok n ->
    n = acc * prod_list l) as Hgen.
  { induction l as [|x l IH]; intros pre acc E H; cbn [length] in H.
    { cbn in H. injection H as <-. cbn. lia. }
    rewrite seqZ_cons in H by lia. cbn [for_each] in H. rewrite (size_at_Some t sz _ Es) in H.
    replace (index sz (Z.of_nat (length pre))) with (Ok x : result Z) in H
      by (symmetry; apply index_nat; rewrite E; by apply list_lookup_middle).
    ok_inv H. apply chk64_Ok in E0 as ->.
    replace (Z.succ (Z.of_nat (length pre))) with (Z.of_nat (length (pre ++ [x]))) in H by (rewrite length_app; cbn; lia).
    replace (Z.pred (Z.of_nat (S (length l)))) with (Z.of_nat (length l)) in H by lia.
    rewrite (IH (pre ++ [x]) _ ltac:(by rewrite <-app_assoc) H). cbn [prod_list]. lia. }
  intros H. rewrite (Hgen sz [] 1 eq_refl H). lia.
Qed.

Lemma stride_at_Some t st i : at_stride t = Some st -> stride_at t i = index st i.
Proof. intros E. unfold stride_at. by rewrite E. Qed.

(** What the loop of [IsContiguousShard] checked of dimensions [1 .. n]: below
    the first, the copy has the full sizes and the strides are row-major. *)
Lemma contiguous_loop_true t sz st cs n stride :
  at_size t = Some sz -> at_stride t = Some st ->
  contiguous_loop t cs n stride = Ok true ->
  stride = prod_list (drop (S n) sz) ->
  forall i, (1 <= i <= n)%nat ->
    exists x, sz !! i = Some x /\ cs !! i = Some x /\ st !! i = Some (prod_list (drop (S i) sz)).
Proof.
  intros Es Et. revert stride. induction n as [|n IH]; intros stride H Hst i Hi; [lia|].
  cbn [contiguous_loop] in H.
  rewrite (size_at_Some _ _ _ Es), (stride_at_Some _ _ _ Et) in H. do 3 ok_inv H.
  destruct (Z.eqb_spec a a0) as [<-|]; [|done]. destruct (Z.eqb_spec a1 stride) as [->|]; [|done].
  cbn in H. ok_inv H. apply chk64_Ok in E2 as ->.
  pose proof (index_drop _ _ _ E) as Ed.
  destruct (decide (i = S n)) as [->|].
  - apply index_Ok in E as [_ E], E0 as [_ E0], E1 as [_ E1]. rewrite Nat2Z.id in E, E0, E1.
    exists a. by rewrite E1, Hst.
  - apply (IH (stride * a)); [done| |lia]. rewrite Ed. cbn [prod_list]. lia.
Qed.

Lemma overwrite_loop cs n l :
  (n <= length cs)%nat -> (n <= length l)%nat ->
  for_each (fun i (l : list Z) => c ← index cs i; index_set l i c) (seqZ 0 (Z.of_nat n)) l =
  Ok (take n cs ++ drop n l).
Proof.
  intros Hc Hl. induction n as [|n IH]; [done|].
  rewrite seqZ_S, for_each_app, IH, Z.add_0_l by lia. cbn [mbind result_bind for_each].
  destruct (lookup_lt_is_Some_2 cs n ltac:(lia)) as [c Ec].
  rewrite (index_nat _ _ _ Ec). cbn [mbind result_bind]. unfold index_set.
  rewrite (proj2 (Z.ltb_ge _ _)), Nat2Z.id by lia.
  rewrite (proj2 (Nat.ltb_lt _ _)) by (rewrite length_app, length_take, length_drop; lia).
  cbn. f_equal. rewrite (take_S_r _ _ _ Ec).
  destruct (lookup_lt_is_Some_2 l n ltac:(lia)) as [x Ex]. rewrite (drop_S _ _ _ Ex).
  rewrite insert_app_r_alt by (rewrite length_take; lia).
  rewrite length_take, Nat.min_l, Nat.sub_diag by lia. cbn. by rewrite <-app_assoc.
Qed.

Lemma overwrite_size_Ok t sz st cs :
  dims_ok t sz st -> length cs = length sz -> overwrite_size t cs = Ok cs.
Proof.
  intros (Es & _ & Hd & _) Hl. unfold overwrite_size. rewrite Es, Hd.
  rewrite overwrite_loop by lia. f_equal.
  rewrite <-Hl, firstn_all, Hl, drop_all. apply app_nil_r.
Qed.

Lemma dot_row_major sz st c :
  length st = length sz -> length c = length sz ->
  (forall i, (i < length sz)%nat -> st !! i = Some (prod_list (drop (S i) sz))) ->
  dot st c = row_major sz c.
Proof.
  revert st c. induction sz as [|s sz IH]; intros [|x st] [|y c]; cbn; try lia.
  intros Hs Hc H. pose proof (H O ltac:(lia)) as H0. cbn in H0. injection H0 as ->.
  rewrite drop_0. rewrite IH; [lia|lia|lia|]. intros i Hi. apply (H (S i)). lia.
Qed.

(** A box inside the tensor that has full size below the first dimension
    starts at zero there. *)
Lemma inner_offsets_zero co cs sz :
  Forall3 (fun o n s => 0 <= o /\ 0 <= n /\ o + n <= s) co cs sz -> cs = sz ->
  co = map (fun _ => 0) sz.
Proof.
  intros H. induction H as [|o n s co cs sz Hb _ IH]; intros E; [done|].
  injection E as -> ->. cbn. rewrite <-IH by done. f_equal. lia.
Qed.

Lemma zip_add_zeros c (sz : list Z) : length c = length sz -> zip_with Z.add c (map (fun _ => 0) sz) = c.
Proof.
  revert sz. induction c as [|x c IH]; intros [|s sz]; cbn; try lia; [done|].
  intros. rewrite IH by lia. f_equal. lia.
Qed.

Lemma tails_equal (x y : Z) cs sz :
  length cs = length sz ->
  (forall i, (1 <= i <= length sz)%nat -> exists z, (x :: sz) !! i = Some z /\ (y :: cs) !! i = Some z) ->
  cs = sz.
Proof.
  intros Hl H. apply (list_eq_same_length cs sz (length sz)); [done..|].
  intros i a b Hi Ha Hb. destruct (H (S i)) as (z & E1 & E2); [lia|]. simpl in E1, E2. congruence.
Qed.

(** ** Properties *)

(** The two data type conversions are inverse to each other where they
    succeed; [ATDtype] has exactly two members without a torch counterpart and
    every torch type the source lists is converted. *)
Theorem dtype_conversion_roundtrip :
  (forall d s, ATDtypeToTorchDtype d = Ok s -> TorchDtypeToATDtype s = Ok d) /\
  (forall s d, TorchDtypeToATDtype s = Ok d -> ATDtypeToTorchDtype d = Ok s) /\
  (forall d, is_ok (ATDtypeToTorchDtype d) = false <->
     d = ATDtype.Undefined \/ d = ATDtype.Float8_e8m0fnu).
Proof.
  split_and!.
  - by intros [] s [= <-].
  - by intros [] d [= <-].
  - by intros []; cbn; split; intros; naive_solver.
Qed.

Lemma try_adjust_elements t sz st k copy_shape copy_offset t' k' c :
  dims_ok t sz st -> sz <> [] -> length (global_offset k) = length sz ->
  Forall3 (fun o n s => 0 <= o /\ 0 <= n /\ o + n <= s) copy_offset copy_shape sz ->
  TryAdjustGlobalOffset t copy_shape copy_offset k = Ok (true, t', k') ->
  length c = length sz ->
  dims_ok t' copy_shape st /\ tail copy_shape = tail sz /\ key k' = key k /\
  global_shape k' = global_shape k /\ length (global_offset k') = length (global_offset k) /\
  elem_pos t' c = elem_pos t (zip_with Z.add c copy_offset) /\
  zip_with Z.add c (global_offset k') =
    zip_with Z.add (zip_with Z.add c copy_offset) (global_offset k).
Proof.
  intros Hd Hne Hgo Hbox H Hc. pose proof Hd as (Es & Et & Hdn & Hst).
  destruct (Forall3_lengths _ _ _ _ Hbox) as [Hlcs Hlsz].
  unfold TryAdjustGlobalOffset in H. ok_inv H. destruct a; [|done].
  rewrite (overwrite_size_Ok t sz st) in H by (done || lia). cbn [mbind result_bind] in H.
  unfold IsContiguousShard in E. rewrite Hdn in E.
  destruct (Z.of_nat (length sz) =? Z.of_nat (length copy_shape)); [|done].
  destruct sz as [|s0 sz]; [done|]. destruct st as [|st0 st]; [cbn in Hst; lia|].
  destruct copy_shape as [|n0 cs], copy_offset as [|o0 co], (global_offset k) as [|g0 go] eqn:Eg,
    c as [|x c]; cbn in Hlcs, Hlsz, Hgo, Hc; try lia.
  cbn [length] in E. replace (Z.to_nat (Z.of_nat (S (length sz)) - 1)) with (length sz) in E by lia.
  assert (Hin : cs = sz).
  { apply (tails_equal s0 n0); [lia|]. intros i Hi.
    assert (E1 : 1 = prod_list (drop (S (length sz)) (s0 :: sz))) by (cbn; by rewrite drop_all).
    destruct (contiguous_loop_true t _ _ _ _ _ Es Et E E1 i Hi) as (z & ? & ? & _). eauto. }
  inversion Hbox as [|? ? ? ? ? ? Hb0 Hbox']; subst.
  rewrite (inner_offsets_zero co sz sz Hbox' eq_refl).
  rewrite (stride_at_Some _ _ _ Et) in H. change (index (st0 :: st) 0) with (Ok st0) in H.
  change (index (o0 :: co) 0) with (Ok o0) in H. change (index (g0 :: go) 0) with (Ok g0) in H.
  cbn [mbind result_bind] in H. do 3 ok_inv H.
  apply chk64_Ok in E0 as ->, E1 as ->, E2 as ->. injection H as <- <-.
  split; [split_and!; done|]. split; [done|]. split; [done|]. split; [done|].
  split; [done|]. unfold elem_pos. cbn. rewrite Et. cbn.
  rewrite !zip_add_zeros by lia. split; [lia|]. f_equal. lia.
Qed.

(** Pruning a shard in place names the same elements.  When
    [TryAdjustGlobalOffset] accepts a box of the tensor, the pruned tensor has
    the sizes of the box, its elements are stored where those of the box were,
    and they keep their global coordinates. *)
Theorem try_adjust_same_elements t sz st k copy_shape copy_offset t' k' c :
  dims_ok t sz st -> sz <> [] -> length (global_offset k) = length sz ->
  Forall3 (fun o n s => 0 <= o /\ 0 <= n /\ o + n <= s) copy_offset copy_shape sz ->
  TryAdjustGlobalOffset t copy_shape copy_offset k = Ok (true, t', k') ->
  length c = length sz ->
  at_size t' = Some copy_shape /\
  elem_pos t' c = elem_pos t (zip_with Z.add c copy_offset) /\
  zip_with Z.add c (global_offset k') =
    zip_with Z.add (zip_with Z.add c copy_offset) (global_offset k).
Proof.
  intros Hd Hne Hgo Hbox H Hc.
  destruct (try_adjust_elements t sz st k copy_shape copy_offset t' k' c Hd Hne Hgo Hbox H Hc)
    as ((? & _) & _ & _ & _ & _ & ? & ?). auto.
Qed.

Definition wide_tensor : ATensor :=
  MkATensor (Some [4; 8]) (Some [8; 1]) 16 2 ATDtype.Half false false false
    (MkATStorage 128 (MkATDevice ATDeviceType.CPU 0) 4096).

Lemma try_adjust_same_elements_witness :
  exists t' k',
    TryAdjustGlobalOffset wide_tensor [2; 8] [1; 0] (MkShardedKey "w" [8; 8] [4; 0]) = Ok (true, t', k') /\
    at_size t' = Some [2; 8] /\
    elem_pos t' [1; 3] = elem_pos wide_tensor (zip_with Z.add [1; 3] [1; 0]) /\
    zip_with Z.add [1; 3] (global_offset k') =
      zip_with Z.add (zip_with Z.add [1; 3] [1; 0]) [4; 0].
Proof.
  do 2 eexists. split; [vm_compute; reflexivity|].
  apply (try_adjust_same_elements wide_tensor [4; 8] [8; 1] (MkShardedKey "w" [8; 8] [4; 0]));
    [by split_and!|done|done|repeat constructor; lia|vm_compute; reflexivity|done].
Defined.

(** A shard accepted as contiguous occupies consecutive storage positions
    when the stride of its first dimension is also row-major: element [c] is at
    the row-major position of [c] in the box. *)
Theorem contiguous_shard_consecutive t sz st copy_shape c :
  dims_ok t sz st -> sz <> [] -> IsContiguousShard t copy_shape = Ok true ->
  st !! O = Some (prod_list (tail sz)) -> length c = length sz ->
  elem_pos t c = storage_offset t + row_major copy_shape c.
Proof.
  intros (Es & Et & Hdn & Hst) Hne H H0 Hc. unfold elem_pos. rewrite Et.
  change (default [] (Some st)) with st.
  unfold IsContiguousShard in H. rewrite Hdn in H.
  destruct (Z.eqb_spec (Z.of_nat (length sz)) (Z.of_nat (length copy_shape))) as [Hl|]; [|done].
  destruct sz as [|s0 sz]; [done|]. destruct copy_shape as [|n0 cs]; [cbn in Hl; lia|].
  cbn [length] in H. replace (Z.to_nat (Z.of_nat (S (length sz)) - 1)) with (length sz) in H by lia.
  assert (Hi : forall i, (1 <= i <= length sz)%nat -> exists x, (s0 :: sz) !! i = Some x /\
    (n0 :: cs) !! i = Some x /\ st !! i = Some (prod_list (drop (S i) (s0 :: sz)))).
  { apply (contiguous_loop_true t _ _ _ _ _ Es Et H). cbn. by rewrite drop_all. }
  assert (cs = sz) as ->.
  { apply (tails_equal s0 n0); [cbn in Hl; lia|]. intros i Hb. destruct (Hi i Hb) as (x & ? & ? & _). eauto. }
  rewrite (dot_row_major (s0 :: sz) st c); [|done|done|].
  - destruct c; [done|]. done.
  - intros [|i] Hb; [exact H0|]. destruct (Hi (S i)) as (x & _ & _ & ?); [cbn in Hb; lia|done].
Qed.

Lemma contiguous_shard_consecutive_witness :
  elem_pos wide_tensor [1; 3] = 16 + row_major [2; 8] [1; 3].
Proof.
  apply (contiguous_shard_consecutive wide_tensor [4; 8] [8; 1] [2; 8] [1; 3]);
    [by split_and!|done|vm_compute; reflexivity|done|done].
Defined.

(** The contiguity check does not look at the stride of the first
    dimension: rows of a wider buffer are accepted as contiguous although the
    elements of the second row lie beyond the size of the shard. *)
Theorem contiguous_shard_gap :
  exists t copy_shape c, dims_ok t [2; 2] [4; 1] /\ IsContiguousShard t copy_shape = Ok true /\
    GetTensorTotalSize t = Ok 4 /\ Forall2 (fun x n => 0 <= x < n) c copy_shape /\
    storage_offset t + 4 <= elem_pos t c.
Proof.
  exists (MkATensor (Some [2; 2]) (Some [4; 1]) 0 2 ATDtype.Float false false false
           (MkATStorage 32 (MkATDevice ATDeviceType.CPU 0) 4096)), [2; 2], [1; 1].
  split; [by split_and!|]. split; [vm_compute; reflexivity|]. split; [vm_compute; reflexivity|].
  split; [repeat constructor; lia|]. vm_compute. discriminate.
Qed.
