(* ===== verification/AtensorHeap.v ===== *)
(** * The arrays of an ATensor

    [ATensor] (core/atensor.h) owns two arrays made by [new[]], and has its own
    copy and move constructors, assignments and destructor.  Tensor.v models
    them on values; here they are modelled on a heap, with pointers, [new[]] and
    [delete[]].  Reading or deleting what is not allocated is undefined;
    exhausted memory is left out.

    The theorem shows, for every program that creates, copies, moves, assigns and
    destroys tensors, that it computes what Tensor.v says, that it never reads or
    deletes an array that is not allocated, that no two pointers share an array,
    and that every array is owned by a live tensor, so that nothing is left when
    all tensors are destroyed. *)

From S2P Require Import Prelude Tensor.
Local Open Scope Z_scope.

(** ** Tensors with pointers *)

Record c_tensor : Type := MkCTensor {
  c_size : Z; (* 0 is nullptr *)
  c_stride : Z;
  c_offset : Z;
  c_dim : Z;
  c_dtype : ATDtype.t;
  c_conj : bool;
  c_neg : bool;
  c_grad : bool;
  c_storage : ATStorage;
}.

Abbreviation heap := (gmap Z (list Z)).
Abbreviation var := nat.

Section Heap.
(** [new[]] returns memory that is not in use. *)
Context (alloc : gset Z -> Z).

Definition deref (h : heap) (p : Z) : option (list Z) := if p =? 0 then None else h !! p.

(** The value of a tensor. *)
Definition value_of (h : heap) (c : c_tensor) : ATensor :=
  MkATensor (deref h (c_size c)) (deref h (c_stride c)) (c_offset c) (c_dim c) (c_dtype c) (c_conj c) (c_neg c) (c_grad c) (c_storage c).

Definition delete_array (p : Z) (h : heap) : result heap :=
  if p =? 0 then Ok h else match h !! p with Some _ => Ok (base.delete p h) | None => Undef end.

Definition new_array (l : list Z) (h : heap) : Z * heap := let p := alloc ({[0]} ∪ dom h) in (p, <[p := l]> h).

(** [if (src != nullptr && dim_num > 0) { p = new int64_t[dim_num]; memcpy(p, src, ...); } else p = nullptr;] *)
Definition copy_ptr (src dim_num : Z) (h : heap) : result (Z * heap) :=
  if negb (src =? 0) && (0 <? dim_num) then
    match h !! src with Some l => l' ← copy_array l dim_num; Ok (new_array l' h) | None => Undef end
  else Ok (0, h).

(** *** Constructors *)

Definition c_default : c_tensor :=
  MkCTensor 0 0 0 0 ATDtype.Undefined false false false (MkATStorage 0 (MkATDevice ATDeviceType.UNKNOWN_DEV 0) 0).

Definition c_new (size stride : list Z) (offset dim_num : Z) (dtype : ATDtype.t) (cj ng : bool) (storage : ATStorage) (grad : bool)
    (h : heap) : result (c_tensor * heap) :=
  _ ← throw_if (dim_num <? 0) "std::bad_array_new_length";
  sz ← copy_array size dim_num;
  let '(p, h) := new_array sz h in
  st ← copy_array stride dim_num;
  let '(q, h) := new_array st h in
  Ok (MkCTensor p q offset dim_num dtype cj ng grad storage, h).

Definition with_ptrs (p q dim : Z) (c : c_tensor) : c_tensor :=
  MkCTensor p q (c_offset c) dim (c_dtype c) (c_conj c) (c_neg c) (c_grad c) (c_storage c).

Definition c_copy (other : c_tensor) (h : heap) : result (c_tensor * heap) :=
  '(p, h) ← copy_ptr (c_size other) (c_dim other) h;
  '(q, h) ← copy_ptr (c_stride other) (c_dim other) h;
  Ok (with_ptrs p q (c_dim other) other, h).

(** The new tensor and the source, with null pointers and no dimensions. *)
Definition c_move (other : c_tensor) : c_tensor * c_tensor := (other, with_ptrs 0 0 0 other).

(** *** Destructor and assignments *)

Definition c_destroy (c : c_tensor) (h : heap) : result heap :=
  h ← delete_array (c_size c) h; delete_array (c_stride c) h.

(** To another tensor: what the target had is deleted first. *)
Definition c_assign (self other : c_tensor) (h : heap) : result (c_tensor * heap) := h ← c_destroy self h; c_copy other h.
Definition c_move_assign (self other : c_tensor) (h : heap) : result (c_tensor * c_tensor * heap) :=
  h ← c_destroy self h; Ok (c_move other, h).

(** ** Programs *)

Inductive cmd : Type :=
| Default (x : var)
| New (x : var) (size stride : list Z) (offset dim_num : Z) (dtype : ATDtype.t) (cj ng : bool) (storage : ATStorage) (grad : bool)
| Copy (x y : var)
| Move (x y : var)
| Assign (x y : var)
| MoveAssign (x y : var)
| Destroy (x : var).

(** On values; [None] for programs that use a variable that is not there, or
    declare one that is. *)
Definition run_value (c : cmd) (s : gmap var ATensor) : option (result (gmap var ATensor)) :=
  match c with
  | Default x => match s !! x with None => Some (Ok (<[x := ATensor_default]> s)) | _ => None end
  | New x size stride offset dim_num dtype cj ng storage grad =>
      match s !! x with
      | None => Some (_ ← throw_if (dim_num <? 0) "std::bad_array_new_length";
                      t ← ATensor_new size stride offset dim_num dtype cj ng storage grad; Ok (<[x := t]> s))
      | _ => None
      end
  | Copy x y => match s !! x, s !! y with None, Some t => Some (t' ← ATensor_copy t; Ok (<[x := t']> s)) | _, _ => None end
  | Move x y => match s !! x, s !! y with
                | None, Some t => let '(t', r) := ATensor_move t in Some (Ok (<[x := t']> (<[y := r]> s))) | _, _ => None end
  | Assign x y => match s !! x, s !! y with
                  | Some _, Some t => if decide (x = y) then Some (Ok s) else Some (t' ← ATensor_copy t; Ok (<[x := t']> s))
                  | _, _ => None end
  | MoveAssign x y => match s !! x, s !! y with
                      | Some _, Some t => if decide (x = y) then Some (Ok s)
                                          else let '(t', r) := ATensor_move t in Some (Ok (<[x := t']> (<[y := r]> s)))
                      | _, _ => None end
  | Destroy x => match s !! x with Some _ => Some (Ok (base.delete x s)) | None => None end
  end.

(** On the heap. *)
Definition run_heap (c : cmd) (st : heap * gmap var c_tensor) : result (heap * gmap var c_tensor) :=
  let '(h, s) := st in
  match c with
  | Default x => Ok (h, <[x := c_default]> s)
  | New x size stride offset dim_num dtype cj ng storage grad =>
      '(t, h') ← c_new size stride offset dim_num dtype cj ng storage grad h; Ok (h', <[x := t]> s)
  | Copy x y => match s !! y with Some t => '(t', h') ← c_copy t h; Ok (h', <[x := t']> s) | None => Undef end
  | Move x y => match s !! y with Some t => let '(t', r) := c_move t in Ok (h, <[x := t']> (<[y := r]> s)) | None => Undef end
  | Assign x y =>
      match s !! x, s !! y with
      | Some self, Some t => if decide (x = y) then Ok (h, s) else '(t', h') ← c_assign self t h; Ok (h', <[x := t']> s)
      | _, _ => Undef
      end
  | MoveAssign x y =>
      match s !! x, s !! y with
      | Some self, Some t =>
          if decide (x = y) then Ok (h, s)
          else '(t', r, h') ← c_move_assign self t h; Ok (h', <[x := t']> (<[y := r]> s))
      | _, _ => Undef
      end
  | Destroy x => match s !! x with Some self => h' ← c_destroy self h; Ok (h', base.delete x s) | None => Undef end
  end.
End Heap.

(** ** Ownership *)

(** The pointer in a slot: a variable and which of its two arrays. *)
Definition ptr (s : gmap var c_tensor) (k : var * bool) : option Z :=
  match s !! k.1 with
  | Some c => let p := if k.2 then c_size c else c_stride c in if p =? 0 then None else Some p
  | None => None
  end.

(** Every array is owned by one slot, and every slot owns an array. *)
Definition owns (h : heap) (s : gmap var c_tensor) : Prop :=
  (forall k1 k2 p, ptr s k1 = Some p -> ptr s k2 = Some p -> k1 = k2) /\ (forall p, p ∈ dom h <-> exists k, ptr s k = Some p).

(** Slots other than [k] are the same. *)
Definition same_but (k : var * bool) (s s' : gmap var c_tensor) : Prop := forall k', k' <> k -> ptr s' k' = ptr s k'.

Lemma ptr_nonzero s k : ptr s k <> Some 0.
Proof. unfold ptr. destruct (s !! k.1) as [c|]; [|done]. cbn. destruct (Z.eqb_spec (if k.2 then c_size c else c_stride c) 0); congruence. Qed.

Lemma ptr_insert s x c b : ptr (<[x := c]> s) (x, b) = let p := if b then c_size c else c_stride c in if p =? 0 then None else Some p.
Proof. unfold ptr. cbn. by rewrite lookup_insert_eq. Qed.

Lemma ptr_insert_ne s x c y b : x <> y -> ptr (<[x := c]> s) (y, b) = ptr s (y, b).
Proof. intros Hxy. unfold ptr. cbn. by rewrite lookup_insert_ne. Qed.

Lemma owns_ext h s s' : (forall k, ptr s' k = ptr s k) -> owns h s -> owns h s'.
Proof.
  intros He [Hi Hd]. split.
  - intros k1 k2 p. rewrite !He. apply Hi.
  - intros p. rewrite Hd. split; intros [k Hk]; exists k; [by rewrite He|by rewrite <- He].
Qed.

Lemma owns_free h s s' k p : owns h s -> ptr s k = Some p -> ptr s' k = None -> same_but k s s' -> owns (base.delete p h) s'.
Proof.
  intros [Hi Hd] Hk Hk' Hs. split.
  - intros k1 k2 q H1 H2. assert (k1 <> k) by congruence. assert (k2 <> k) by congruence.
    rewrite Hs in H1 by done. rewrite Hs in H2 by done. by apply (Hi k1 k2 q).
  - intros q. rewrite dom_delete, elem_of_difference, Hd, elem_of_singleton. split.
    + intros [[k2 H2] Hq]. exists k2. rewrite Hs; [done|]. intros ->. congruence.
    + intros [k2 H2]. assert (k2 <> k) by congruence. rewrite Hs in H2 by done. split; [by exists k2|].
      intros ->. assert (k2 = k) by by apply (Hi k2 k p). done.
Qed.

(** A slot that gets a null pointer, or a new array. *)
Definition allocated (h h' : heap) (p : Z) : Prop := p = 0 /\ h' = h \/ p <> 0 /\ (p ∉ dom h) /\ exists l, h' = <[p := l]> h.

Lemma owns_slot h h' s s' k p : owns h s -> allocated h h' p -> ptr s k = None -> ptr s' k = (if p =? 0 then None else Some p) ->
  same_but k s s' -> owns h' s'.
Proof.
  intros [Hi Hd] Ha Hk Hk' Hs. destruct Ha as [[-> ->]|(Hp & Hf & l & ->)].
  { apply (owns_ext h s); [|by split]. intros k'. destruct (decide (k' = k)) as [->|]; [by rewrite Hk, Hk'|by apply Hs]. }
  rewrite (proj2 (Z.eqb_neq p 0) Hp) in Hk'.
  assert (Hold : forall k' q, k' <> k -> ptr s' k' = Some q -> q <> p).
  { intros k' q Hne Hq ->. rewrite Hs in Hq by done. apply Hf, Hd. by exists k'. }
  split.
  - intros k1 k2 q H1 H2. destruct (decide (k1 = k)) as [->|H1k], (decide (k2 = k)) as [->|H2k]; [done|..].
    + rewrite Hk' in H1. injection H1 as <-. by destruct (Hold k2 p H2k H2).
    + rewrite Hk' in H2. injection H2 as <-. by destruct (Hold k1 p H1k H1).
    + rewrite Hs in H1 by done. rewrite Hs in H2 by done. by apply (Hi k1 k2 q).
  - intros q. rewrite dom_insert, elem_of_union, elem_of_singleton, Hd. split.
    + intros [->|[k2 H2]]; [by exists k|]. exists k2. rewrite Hs; [done|]. intros ->. congruence.
    + intros [k2 H2]. destruct (decide (k2 = k)) as [->|]; [left; congruence|]. right. exists k2. by rewrite <- Hs.
Qed.

(** The arrays of [y] go to [x], which had none. *)
Lemma owns_move h s x y c : owns h s -> (forall b, ptr s (x, b) = None) -> x <> y -> s !! y = Some c ->
  owns h (<[x := c]> (<[y := with_ptrs 0 0 0 c]> s)).
Proof.
  intros [Hi Hd] Hx Hxy Hy. set (s' := <[x := c]> _).
  assert (Hsx : forall b, ptr s' (x, b) = ptr s (y, b)) by (intros b; unfold s'; rewrite ptr_insert; unfold ptr; cbn; by rewrite Hy).
  assert (Hsy : forall b, ptr s' (y, b) = None) by (intros b; unfold s'; rewrite ptr_insert_ne, ptr_insert by done; by destruct b).
  assert (Hsz : forall z b, z <> x -> z <> y -> ptr s' (z, b) = ptr s (z, b)) by (intros z b H1 H2; unfold s'; by rewrite !ptr_insert_ne by done).
  assert (Hback : forall k p, ptr s' k = Some p -> exists k0, ptr s k0 = Some p /\ k = (if decide (k0.1 = y) then x else k0.1, k0.2) /\ k0.1 <> x).
  { intros [z b] p Hp. destruct (decide (z = x)) as [->|Hzx]; [|destruct (decide (z = y)) as [->|Hzy]].
    - exists (y, b). rewrite <- Hsx. cbn. by rewrite decide_True.
    - by rewrite Hsy in Hp.
    - exists (z, b). rewrite <- Hsz by done. cbn. by rewrite decide_False. }
  split.
  - intros k1 k2 p H1 H2. destruct (Hback _ _ H1) as (k1' & P1 & -> & _). destruct (Hback _ _ H2) as (k2' & P2 & -> & _).
    by rewrite (Hi _ _ _ P1 P2).
  - intros p. rewrite Hd. split.
    + intros [[z b] Hp]. destruct (decide (z = y)) as [->|Hzy]; [exists (x, b); by rewrite Hsx|].
      destruct (decide (z = x)) as [->|Hzx]; [by rewrite Hx in Hp|]. exists (z, b). by rewrite Hsz.
    + intros [k Hk]. destruct (Hback _ _ Hk) as (k0 & P & _). by exists k0.
Qed.

(** ** The operations *)

Section Safety.
Context (alloc : gset Z -> Z) (alloc_fresh : forall used, alloc used ∉ used).

(** Arrays of a heap are kept by new ones. *)
Lemma deref_kept h h' p : h ⊆ h' -> p = 0 \/ p ∈ dom h -> deref h' p = deref h p.
Proof.
  intros Hs Hp. unfold deref. destruct (Z.eqb_spec p 0) as [|Hp0]; [done|]. destruct Hp as [|Hp]; [done|].
  apply elem_of_dom in Hp as [l Hl]. rewrite Hl. by eapply lookup_weaken.
Qed.

Lemma ptr_owned h s x c (b : bool) : owns h s -> s !! x = Some c ->
  (if b then c_size c else c_stride c) = 0 \/ (if b then c_size c else c_stride c) ∈ dom h.
Proof.
  intros [_ Hd] Hx. destruct (Z.eqb_spec (if b then c_size c else c_stride c) 0) as [E|E]; [by left|right].
  apply Hd. exists (x, b). unfold ptr. cbn. rewrite Hx. by rewrite (proj2 (Z.eqb_neq _ _) E).
Qed.

Lemma value_kept h h' s x c : owns h s -> s !! x = Some c -> h ⊆ h' -> value_of h' c = value_of h c.
Proof.
  intros Ho Hx Hs. unfold value_of. rewrite (deref_kept h h' (c_size c)), (deref_kept h h' (c_stride c)); [done|done| |done|].
  - by apply (ptr_owned h s x c false).
  - by apply (ptr_owned h s x c true).
Qed.

Lemma allocated_sub h h' p : allocated h h' p -> h ⊆ h'.
Proof. intros [[_ ->]|(_ & Hf & l & ->)]; [done|]. apply insert_subseteq. by apply not_elem_of_dom. Qed.

Lemma new_array_spec l h : let '(p, h') := new_array alloc l h in allocated h h' p /\ deref h' p = Some l.
Proof.
  unfold new_array. set (p := alloc _). pose proof (alloc_fresh ({[0]} ∪ dom h)) as Hf. fold p in Hf.
  assert (p <> 0) as Hp by set_solver. split; [right; split; [done|]; split; [set_solver|by eexists]|].
  unfold deref. rewrite (proj2 (Z.eqb_neq p 0) Hp). by rewrite lookup_insert_eq.
Qed.

(** [copy_ptr] makes the copy of the values. *)
Lemma copy_ptr_spec src dim h o : src = 0 \/ src ∈ dom h -> copy_dims (deref h src) dim = Ok o ->
  exists p h', copy_ptr alloc src dim h = Ok (p, h') /\ allocated h h' p /\ deref h' p = o.
Proof.
  intros Hsrc E. unfold copy_ptr, deref in *. destruct (Z.eqb_spec src 0) as [|Hs0]; cbn in *.
  { injection E as <-. exists 0, h. split; [done|]. split; [by left|done]. }
  destruct Hsrc as [|Hsrc]; [done|]. apply elem_of_dom in Hsrc as [l Hl]. rewrite Hl in *. cbn in E. destruct (0 <? dim).
  - destruct (copy_array l dim) as [l'| |]; [|done..]. cbn in E. injection E as <-. cbn [mbind result_bind].
    pose proof (new_array_spec l' h) as Hn. destruct (new_array alloc l' h) as [p h']. destruct Hn as [Ha Hd]. by exists p, h'.
  - injection E as <-. exists 0, h. split; [done|]. split; [by left|done].
Qed.

(** Two new arrays for a variable that has none. *)
Lemma owns_both h h1 h2 s x c p q : owns h s -> (forall b, ptr s (x, b) = None) -> allocated h h1 p -> allocated h1 h2 q ->
  c_size c = p -> c_stride c = q -> owns h2 (<[x := c]> s).
Proof.
  intros Ho Hx H1 H2 Hp Hq. set (s1 := <[x := with_ptrs p 0 (c_dim c) c]> s).
  assert (owns h1 s1) as Ho1.
  { apply (owns_slot h h1 s s1 (x, true) p); [done|done|done|by unfold s1; rewrite ptr_insert|].
    intros [y b] Hy. unfold s1. destruct (decide (x = y)) as [<-|]; [|by apply ptr_insert_ne].
    destruct b; [done|]. by rewrite ptr_insert, Hx. }
  apply (owns_slot h1 h2 s1 (<[x := c]> s) (x, false) q); [done|done|by unfold s1; rewrite ptr_insert|rewrite ptr_insert; cbn; by rewrite Hq|].
  intros [y b] Hy. destruct (decide (x = y)) as [<-|]; [|by unfold s1; rewrite !ptr_insert_ne].
  destruct b; [|done]. unfold s1. rewrite !ptr_insert. cbn. by rewrite Hp.
Qed.

Lemma c_copy_spec h s x y c t : owns h s -> (forall b, ptr s (x, b) = None) -> s !! y = Some c -> ATensor_copy (value_of h c) = Ok t ->
  exists c' h', c_copy alloc c h = Ok (c', h') /\ h ⊆ h' /\ owns h' (<[x := c']> s) /\ value_of h' c' = t.
Proof.
  intros Ho Hx Hy E. unfold ATensor_copy in E. cbn in E. ok_inv E. ok_inv E. injection E as <-.
  destruct (copy_ptr_spec _ _ _ _ (ptr_owned h s y c true Ho Hy) E0) as (p & h1 & Ep & Ha1 & Hd1).
  pose proof (allocated_sub _ _ _ Ha1) as Hs1.
  assert (c_stride c = 0 \/ c_stride c ∈ dom h1) as Hst.
  { destruct (ptr_owned h s y c false Ho Hy) as [|Hin]; [by left|right]. eapply subseteq_dom; done. }
  destruct (copy_ptr_spec (c_stride c) (c_dim c) h1 a0 Hst) as (q & h2 & Eq' & Ha2 & Hd2).
  { rewrite (deref_kept h h1); [done|done|]. by apply (ptr_owned h s y c false). }
  exists (with_ptrs p q (c_dim c) c), h2. unfold c_copy. rewrite Ep. cbn [mbind result_bind]. rewrite Eq'.
  split; [done|]. split; [etransitivity; [done|by eapply allocated_sub]|].
  split; [by apply (owns_both h h1 h2 s x _ p q)|]. unfold value_of. cbn. rewrite Hd2. f_equal.
  rewrite (deref_kept h1 h2); [done|by eapply allocated_sub|].
  destruct Ha1 as [[-> _]|(_ & _ & l & ->)]; [by left|right; set_solver].
Qed.

(** One slot of a variable, and the variable without its array. *)
Definition slot_of (b : bool) (c : c_tensor) : Z := if b then c_size c else c_stride c.
Definition clear_slot (b : bool) (c : c_tensor) : c_tensor :=
  if b then with_ptrs 0 (c_stride c) (c_dim c) c else with_ptrs (c_size c) 0 (c_dim c) c.

Lemma delete_slot h s x c b : owns h s -> s !! x = Some c ->
  exists h', delete_array (slot_of b c) h = Ok h' /\ owns h' (<[x := clear_slot b c]> s) /\
    forall p, p <> slot_of b c \/ p = 0 -> deref h' p = deref h p.
Proof.
  intros Ho Hx. unfold delete_array.
  assert (Hsame : same_but (x, b) s (<[x := clear_slot b c]> s)).
  { intros [y b'] Hy. destruct (decide (x = y)) as [<-|]; [|by apply ptr_insert_ne]. rewrite ptr_insert. unfold ptr. cbn. rewrite Hx.
    by destruct b, b'. }
  destruct (Z.eqb_spec (slot_of b c) 0) as [E0|E0].
  - exists h. split; [done|]. split; [|done]. apply (owns_ext h s); [|done]. intros k.
    destruct (decide (k = (x, b))) as [->|]; [|by apply Hsame]. rewrite ptr_insert. unfold ptr. cbn. rewrite Hx.
    change (if b then c_size c else c_stride c) with (slot_of b c). rewrite E0. by destruct b.
  - destruct (ptr_owned h s x c b Ho Hx) as [|Hin]; [done|]. change (if b then c_size c else c_stride c) with (slot_of b c) in Hin.
    apply elem_of_dom in Hin as [l Hl]. rewrite Hl. eexists. split; [reflexivity|]. split.
    + apply (owns_free h s _ (x, b) (slot_of b c)); [done| |rewrite ptr_insert; by destruct b|done].
      unfold ptr. cbn. rewrite Hx. change (if b then c_size c else c_stride c) with (slot_of b c). by rewrite (proj2 (Z.eqb_neq _ _) E0).
    + intros p Hp. unfold deref. destruct (Z.eqb_spec p 0); [done|]. destruct Hp; [|done]. by rewrite lookup_delete_ne.
Qed.

(** Pointers of two variables differ. *)
Lemma slots_apart h s x y c c2 b b' : owns h s -> s !! x = Some c -> s !! y = Some c2 -> y <> x ->
  slot_of b c2 <> slot_of b' c \/ slot_of b c2 = 0.
Proof.
  intros Ho Hx Hy Hyx. destruct (Z.eqb_spec (slot_of b c2) 0) as [|Hnz]; [by right|left]. intros Heq.
  assert ((y, b) = (x, b')) as [=]; [|done]. apply (proj1 Ho _ _ (slot_of b c2)).
  - unfold ptr. cbn. rewrite Hy. fold (slot_of b c2). by rewrite (proj2 (Z.eqb_neq _ _) Hnz).
  - unfold ptr. cbn. rewrite Hx. fold (slot_of b' c). rewrite <- Heq. by rewrite (proj2 (Z.eqb_neq _ _) Hnz).
Qed.

(** The arrays of a variable are freed; others keep their values. *)
Lemma c_destroy_spec h s x c : owns h s -> s !! x = Some c ->
  exists h', c_destroy c h = Ok h' /\
    (forall c', c_size c' = 0 -> c_stride c' = 0 -> owns h' (<[x := c']> s)) /\
    (forall y c2, y <> x -> s !! y = Some c2 -> value_of h' c2 = value_of h c2).
Proof.
  intros Ho Hx. destruct (delete_slot h s x c true Ho Hx) as (h1 & E1 & Ho1 & Hk1).
  destruct (delete_slot h1 _ x (clear_slot true c) false Ho1 (lookup_insert_eq _ _ _)) as (h2 & E2 & Ho2 & Hk2).
  exists h2. unfold c_destroy. change (c_size c) with (slot_of true c). rewrite E1. cbn [mbind result_bind]. split; [exact E2|]. split.
  - intros c' Hs Ht. eapply owns_ext; [|exact Ho2]. intros [y b]. destruct (decide (x = y)) as [<-|Hxy].
    + rewrite !ptr_insert. cbn. rewrite Hs, Ht. by destruct b.
    + by rewrite !ptr_insert_ne.
  - intros y c2 Hyx Hy.
    assert (Hkeep : forall b, deref h2 (slot_of b c2) = deref h (slot_of b c2)).
    { intros b. rewrite Hk2, Hk1; [done|by apply (slots_apart h s x y c c2 b true)|by apply (slots_apart h s x y c c2 b false)]. }
    unfold value_of. change (c_size c2) with (slot_of true c2). change (c_stride c2) with (slot_of false c2). by rewrite !Hkeep.
Qed.

(** *** Programs *)

Lemma null_slots s x (c : c_tensor) b : c_size c = 0 -> c_stride c = 0 -> ptr (<[x := c]> s) (x, b) = None.
Proof. intros Hs Ht. rewrite ptr_insert. cbn. rewrite Hs, Ht. by destruct b. Qed.

Lemma values_insert h h' (s : gmap var c_tensor) x c' t : (forall y c2, y <> x -> s !! y = Some c2 -> value_of h' c2 = value_of h c2) -> value_of h' c' = t ->
  value_of h' <$> <[x := c']> s = <[x := t]> (value_of h <$> s).
Proof.
  intros Hk Ht. apply map_eq. intros y. rewrite lookup_fmap. destruct (decide (x = y)) as [<-|Hxy].
  - rewrite !lookup_insert_eq. cbn. by rewrite Ht.
  - rewrite !lookup_insert_ne, lookup_fmap by done. destruct (s !! y) as [c2|] eqn:Hy; [|done]. cbn. by rewrite (Hk y c2).
Qed.

(** One command: the heap follows the values. *)
Definition simulates (h : heap) (s : gmap var c_tensor) (c : cmd) : Prop := forall v', run_value c (value_of h <$> s) = Some (Ok v') ->
  exists h' s', run_heap alloc c (h, s) = Ok (h', s') /\ owns h' s' /\ value_of h' <$> s' = v'.

Lemma sim_new h s x size stride offset dim_num dtype cj ng storage grad : owns h s ->
  simulates h s (New x size stride offset dim_num dtype cj ng storage grad).
Proof.
  intros Ho v' E. cbn in E. rewrite lookup_fmap in E. destruct (s !! x) as [|] eqn:Hx; [done|]. cbn in E. injection E as E.
  ok_inv E. unfold ATensor_new in E. ok_inv E. ok_inv E1. ok_inv E1. injection E1 as <-. injection E as <-.
  cbn. unfold c_new. rewrite E0. cbn [mbind result_bind]. rewrite E2. cbn [mbind result_bind].
  pose proof (new_array_spec a1 h) as Hn1. destruct (new_array alloc a1 h) as [p h1]. destruct Hn1 as [Ha1 Hd1]. rewrite E3. cbn [mbind result_bind].
  pose proof (new_array_spec a2 h1) as Hn2. destruct (new_array alloc a2 h1) as [q h2]. destruct Hn2 as [Ha2 Hd2].
  do 2 eexists. split; [reflexivity|].
  assert (h ⊆ h2) as Hsub by (etransitivity; by eapply allocated_sub). split.
  - apply (owns_both h h1 h2 s x _ p q); [done| |done|done|done|done]. intros b. unfold ptr. cbn. by rewrite Hx.
  - apply values_insert; [intros y c2 _ Hy; by apply (value_kept h h2 s y)|]. unfold value_of. cbn. rewrite Hd2. f_equal.
    rewrite (deref_kept h1 h2); [done|by eapply allocated_sub|]. destruct Ha1 as [[-> _]|(_ & _ & l & ->)]; [by left|right; set_solver].
Qed.

Lemma unbound_slots (s : gmap var c_tensor) x b : s !! x = None -> ptr s (x, b) = None.
Proof. intros Hx. unfold ptr. cbn. by rewrite Hx. Qed.

Lemma sim_copy h s x y : owns h s -> simulates h s (Copy x y).
Proof.
  intros Ho v' E. cbn in E. rewrite !lookup_fmap in E. destruct (s !! x) as [|] eqn:Hx; [done|].
  destruct (s !! y) as [c|] eqn:Hy; [|done]. cbn in E. injection E as E. ok_inv E. injection E as <-.
  destruct (c_copy_spec h s x y c a Ho) as (c' & h' & Ec & Hsub & Ho' & Hv); [intros b; by apply unbound_slots|done|done|].
  exists h', (<[x := c']> s). cbn. rewrite Hy, Ec. split; [done|]. split; [done|].
  apply values_insert; [|done]. intros z c2 _ Hz. by apply (value_kept h h' s z).
Qed.

Lemma moved_values h (s : gmap var c_tensor) x y c :
  value_of h <$> <[x := c]> (<[y := with_ptrs 0 0 0 c]> s) =
  <[x := (ATensor_move (value_of h c)).1]> (<[y := (ATensor_move (value_of h c)).2]> (value_of h <$> s)).
Proof. by rewrite !fmap_insert. Qed.

Lemma sim_move h s x y : owns h s -> simulates h s (Move x y).
Proof.
  intros Ho v' E. cbn in E. rewrite !lookup_fmap in E. destruct (s !! x) as [|] eqn:Hx; [done|].
  destruct (s !! y) as [c|] eqn:Hy; [|done]. cbn in E. injection E as <-. do 2 eexists. cbn. rewrite Hy. split; [reflexivity|].
  split; [|apply moved_values]. apply owns_move; [done|intros b; by apply unbound_slots|congruence|done].
Qed.

(** After the arrays of [x] are freed, [x] is as good as new. *)
Lemma freed h s x c : owns h s -> s !! x = Some c ->
  exists h', c_destroy c h = Ok h' /\ owns h' (<[x := with_ptrs 0 0 0 c]> s) /\ owns h' (base.delete x s) /\
    forall y c2, y <> x -> s !! y = Some c2 -> value_of h' c2 = value_of h c2.
Proof.
  intros Ho Hx. destruct (c_destroy_spec h s x c Ho Hx) as (h' & E & Ho' & Hk). exists h'. split; [done|].
  specialize (Ho' (with_ptrs 0 0 0 c) eq_refl eq_refl). split; [done|]. split; [|done].
  eapply owns_ext; [|exact Ho']. intros [y b]. destruct (decide (x = y)) as [<-|Hxy].
  - rewrite null_slots by done. unfold ptr. cbn. by rewrite lookup_delete_eq.
  - rewrite ptr_insert_ne by done. unfold ptr. cbn. by rewrite lookup_delete_ne.
Qed.

Lemma sim_assign h s x y : owns h s -> simulates h s (Assign x y).
Proof.
  intros Ho v' E. cbn in E. rewrite !lookup_fmap in E. destruct (s !! x) as [self|] eqn:Hx; [|done].
  destruct (s !! y) as [c|] eqn:Hy; [|done]. cbn in E. cbn. rewrite Hx, Hy. destruct (decide (x = y)) as [->|Hxy].
  { injection E as <-. by exists h, s. }
  injection E as E. ok_inv E. injection E as <-. destruct (freed h s x self Ho Hx) as (h1 & E1 & Ho1 & _ & Hk).
  destruct (c_copy_spec h1 (<[x := with_ptrs 0 0 0 self]> s) x y c a Ho1) as (c' & h' & Ec & Hsub & Ho' & Hv).
  { intros b. by apply null_slots. }
  { by rewrite lookup_insert_ne. }
  { rewrite (Hk y c) by done. done. }
  unfold c_assign. rewrite E1. cbn [mbind result_bind]. rewrite Ec. do 2 eexists. split; [reflexivity|].
  rewrite insert_insert_eq in Ho'. split; [done|]. apply values_insert; [|done]. intros z c2 Hz Hsz. rewrite <- (Hk z c2) by done.
  apply (value_kept h1 h' (<[x := with_ptrs 0 0 0 self]> s) z); [done|by rewrite lookup_insert_ne|done].
Qed.

Lemma sim_move_assign h s x y : owns h s -> simulates h s (MoveAssign x y).
Proof.
  intros Ho v' E. cbn in E. rewrite !lookup_fmap in E. destruct (s !! x) as [self|] eqn:Hx; [|done].
  destruct (s !! y) as [c|] eqn:Hy; [|done]. cbn in E. cbn. rewrite Hx, Hy. destruct (decide (x = y)) as [->|Hxy].
  { injection E as <-. by exists h, s. }
  injection E as <-. destruct (freed h s x self Ho Hx) as (h1 & E1 & Ho1 & _ & Hk).
  unfold c_move_assign. rewrite E1. cbn [mbind result_bind c_move]. do 2 eexists. split; [reflexivity|].
  assert (owns h1 (<[x := c]> (<[y := with_ptrs 0 0 0 c]> (<[x := with_ptrs 0 0 0 self]> s)))) as Ho2.
  { apply owns_move; [done|intros b; by apply null_slots|done|by rewrite lookup_insert_ne]. }
  split.
  - eapply owns_ext; [|exact Ho2]. intros [z b]. destruct (decide (x = z)) as [<-|Hxz]; [by rewrite !ptr_insert|].
    rewrite !(ptr_insert_ne _ x) by done. destruct (decide (y = z)) as [<-|Hyz]; [by rewrite !ptr_insert|].
    by rewrite !ptr_insert_ne by done.
  - apply map_eq. intros z. rewrite lookup_fmap. destruct (decide (x = z)) as [<-|Hxz].
    + rewrite !lookup_insert_eq. cbn. f_equal. by apply (Hk y).
    + rewrite !(lookup_insert_ne _ x) by done. destruct (decide (y = z)) as [<-|Hyz]; [by rewrite !lookup_insert_eq|].
      rewrite !lookup_insert_ne, lookup_fmap by done. destruct (s !! z) as [c2|] eqn:Hz; [|done]. cbn. f_equal. by apply (Hk z).
Qed.

Lemma sim_destroy h s x : owns h s -> simulates h s (Destroy x).
Proof.
  intros Ho v' E. cbn in E. rewrite lookup_fmap in E. destruct (s !! x) as [self|] eqn:Hx; [|done]. cbn in E. injection E as <-.
  destruct (freed h s x self Ho Hx) as (h1 & E1 & _ & Ho1 & Hk). cbn. rewrite Hx, E1. do 2 eexists. split; [reflexivity|].
  split; [done|]. rewrite fmap_delete. apply map_eq. intros z. destruct (decide (x = z)) as [<-|Hxz]; [by rewrite !lookup_delete_eq|].
  rewrite !lookup_delete_ne, !lookup_fmap by done. destruct (s !! z) as [c2|] eqn:Hz; [|done]. cbn. f_equal. by apply (Hk z).
Qed.

Lemma sim_default h s x : owns h s -> simulates h s (Default x).
Proof.
  intros Ho v' E. cbn in E. rewrite lookup_fmap in E. destruct (s !! x) as [|] eqn:Hx; [done|]. cbn in E. injection E as <-.
  exists h, (<[x := c_default]> s). split; [done|]. split; [|by rewrite fmap_insert].
  apply (owns_ext h s); [|done]. intros [y b]. destruct (decide (x = y)) as [<-|]; [|by apply ptr_insert_ne].
  rewrite null_slots, unbound_slots; done.
Qed.

Lemma sim_step h s c : owns h s -> simulates h s c.
Proof.
  destruct c; [apply sim_default|apply sim_new|apply sim_copy|apply sim_move|apply sim_assign|apply sim_move_assign|apply sim_destroy].
Qed.
End Safety.

(** ** Programs as lists of commands *)

Fixpoint run_values (cs : list cmd) (s : gmap var ATensor) : option (result (gmap var ATensor)) :=
  match cs with
  | [] => Some (Ok s)
  | c :: cs' => match run_value c s with Some (Ok s') => run_values cs' s' | r => r end
  end.

Definition run_heaps (alloc : gset Z -> Z) (cs : list cmd) (st : heap * gmap var c_tensor) : result (heap * gmap var c_tensor) :=
  for_each (run_heap alloc) cs st.

(** C22: the tensors on the heap refine those on values.  For every allocator and every
    program that is well-formed and whose reads of arrays are in range, the
    program on the heap ends without an undefined read or delete; its tensors
    have the values that the program on values computes; every array belongs to
    exactly one pointer of a live tensor; and if no tensor is left, the heap is
    empty. *)
Theorem atensor_memory_safe (alloc : gset Z -> Z) (cs : list cmd) (v : gmap var ATensor) :
  (forall used, alloc used ∉ used) -> run_values cs ∅ = Some (Ok v) ->
  exists h s, run_heaps alloc cs (∅, ∅) = Ok (h, s) /\ value_of h <$> s = v /\ owns h s /\ (v = ∅ -> h = ∅).
Proof.
  intros Ha E.
  assert (Hgen : forall cs h s v, owns h s -> run_values cs (value_of h <$> s) = Some (Ok v) ->
    exists h' s', run_heaps alloc cs (h, s) = Ok (h', s') /\ value_of h' <$> s' = v /\ owns h' s').
  { clear cs v E. induction cs as [|c cs IH]; intros h s v Ho E; cbn in E.
    - injection E as <-. by exists h, s.
    - destruct (run_value c (value_of h <$> s)) as [[v1| |]|] eqn:E1; try done.
      destruct (sim_step alloc Ha h s c Ho v1 E1) as (h1 & s1 & Eh & Ho1 & Hv1). subst v1.
      destruct (IH h1 s1 v Ho1 E) as (h' & s' & Er & Hv & Ho'). exists h', s'. split; [|done].
      unfold run_heaps. cbn [for_each]. rewrite Eh. exact Er. }
  destruct (Hgen cs ∅ ∅ v) as (h & s & Er & Hv & Ho).
  { split; [by intros k1 k2 p Hp|]. intros p. split; [set_solver|]. by intros [k Hk]. }
  { by rewrite fmap_empty. }
  exists h, s. split; [done|]. split; [done|]. split; [done|]. intros ->. apply fmap_empty_inv in Hv as ->.
  apply dom_empty_inv_L, elem_of_equiv_empty_L. intros p Hp. apply (proj2 Ho) in Hp as [k Hk]. unfold ptr in Hk.
  by rewrite lookup_empty in Hk.
Qed.

(** A copy survives the end of the tensor it was made of; a tensor that was moved
    from can be assigned to. *)
Lemma atensor_memory_safe_witness :
  let storage := MkATStorage 24 (MkATDevice ATDeviceType.CPU 0) 4096 in
  let cs := [New 0 [2; 3] [3; 1] 0 2 ATDtype.Float false false storage false; Copy 1 0; Move 2 0; Assign 0 1; MoveAssign 1 2;
             Destroy 2; Destroy 0] in
  exists h s, run_heaps (fun used => fresh used) cs (∅, ∅) = Ok (h, s) /\ size h = 2%nat /\
    (value_of h <$> s) !! 1%nat = Some (MkATensor (Some [2; 3]) (Some [3; 1]) 0 2 ATDtype.Float false false false storage).
Proof.
  intros storage cs.
  destruct (atensor_memory_safe (fun used => fresh used) cs
    {[1%nat := MkATensor (Some [2; 3]) (Some [3; 1]) 0 2 ATDtype.Float false false false storage]}) as (h & s & E & Hv & _).
  - intros used. apply is_fresh.
  - vm_compute. reflexivity.
  - exists h, s. split; [exact E|]. split; [vm_compute in E; injection E as <- _; vm_compute; reflexivity|].
    rewrite Hv. apply lookup_singleton_eq.
Defined.
