(* ===== verification/ShardedOps.v ===== *)
(** * Sharded copies (core/tensor_sharded_ops.h and .cpp)

    A shard is a box of a global tensor: a [ShardedKey] gives the global shape
    and the offset of the box, the [ATensor] its sizes.  The planner checks that
    the candidate shards cover a target shard, by merging intervals of the
    flattened global tensor, and lists the boxes to copy. *)

From S2P Require Import Prelude Tensor.
From stdpp Require Import sorting.
Local Open Scope Z_scope.

Record CopyOperation : Type := MkCopyOperation {
  candidate_index : Z;
  src_offset : list Z;
  target_offset : list Z;
  copy_shape : list Z;
}.

(** ** Flattening *)

(** The loop for [i = n-1, ..., 0]. *)
Fixpoint flat_index_loop (coords shape : list Z) (n : nat) (flat_index stride : Z) : result Z :=
  match n with
  | O => Ok flat_index
  | S i =>
      c ← index coords (Z.of_nat i);
      s ← index shape (Z.of_nat i);
      p ← chk64 (c * stride);
      flat_index' ← chk64 (flat_index + p);
      stride' ← chk64 (stride * s);
      flat_index_loop coords shape i flat_index' stride'
  end.

Definition CoordsToFlatIndex (coords shape : list Z) : result Z :=
  flat_index_loop coords shape (length shape) 0 1.

(** The number of rows: the product of the sizes but the last. *)
Definition num_rows_loop (tensor : ATensor) (dims : Z) : result Z :=
  for_each (fun i acc => s ← size_at tensor i; chk64 (acc * s)) (seqZ 0 (dims - 1)) 1.

(** The coordinates of a row, for [i = n-1, ..., 0]; division truncates and
    division by zero is undefined. *)
Fixpoint row_coords (tensor : ATensor) (global_offset : list Z) (n : nat) (temp : Z)
    (coords : list Z) : result (list Z) :=
  match n with
  | O => Ok coords
  | S i =>
      s ← size_at tensor (Z.of_nat i);
      o ← index global_offset (Z.of_nat i);
      if s =? 0 then Undef else
      c ← chk64 (Z.rem temp s + o);
      row_coords tensor global_offset i (Z.quot temp s) (c :: coords)
  end.

(** The interval of one row of the shard in the flattened global tensor. *)
Definition row_interval (sharded_key : ShardedKey) (tensor : ATensor) (row_idx : Z)
    : result (Z * Z) :=
  let dims := Z.of_nat (length (global_shape sharded_key)) in
  last ← index (global_offset sharded_key) (dims - 1);
  coords ← row_coords tensor (global_offset sharded_key) (Z.to_nat (dims - 1)) row_idx [last];
  flat_start ← CoordsToFlatIndex coords (global_shape sharded_key);
  row_length ← size_at tensor (dims - 1);
  flat_end ← chk64 (flat_start + row_length);
  Ok (flat_start, flat_end).

Definition ShardedTensorToFlatIntervals (sharded_key : ShardedKey) (tensor : ATensor)
    : result (list (Z * Z)) :=
  let dims := Z.of_nat (length (global_shape sharded_key)) in
  if dims =? 0 then Ok [(0, 1)] else
  num_rows ← num_rows_loop tensor dims;
  map_result (row_interval sharded_key tensor) (seqZ 0 num_rows).

(** ** Coverage *)

(** One iteration of the merge loop; the merged intervals are in reverse, the
    last one first. *)
Definition merge_step (merged : list (Z * Z)) (current : Z * Z) : list (Z * Z) :=
  match merged with
  | [] => [current]
  | last :: rest =>
      if current.1 <=? last.2 then (last.1, Z.max last.2 current.2) :: rest
      else current :: merged
  end.

Definition start_le (a b : Z * Z) : Prop := a.1 <= b.1.

#[export] Instance start_le_dec a b : Decision (start_le a b).
Proof. unfold start_le. apply _. Defined.

Definition merge_intervals (all_intervals : list (Z * Z)) : list (Z * Z) :=
  rev (foldl merge_step [] (merge_sort start_le all_intervals)).

Definition interval_covered (merged : list (Z * Z)) (target : Z * Z) : bool :=
  existsb (fun m => (m.1 <=? target.1) && (target.2 <=? m.2)) merged.

Definition CheckCandidatesCoverage (candidates : list (ShardedKey * ATensor))
    (target_shard : ShardedKey) (target_tensor : ATensor) : result unit :=
  target_intervals ← ShardedTensorToFlatIntervals target_shard target_tensor;
  candidate_intervals ←
    map_result (fun c => ShardedTensorToFlatIntervals c.1 c.2) candidates;
  let all_intervals := concat candidate_intervals in
  _ ← throw_if (bool_decide (all_intervals = [])) "No candidates provide any coverage";
  let merged := merge_intervals all_intervals in
  throw_if (negb (forallb (interval_covered merged) target_intervals))
    "Cannot find covering candidate for shardedKey: ".

(** ** Copy operations *)

(** The intersection of two shards along dimension [i], given their offsets
    and the reads of their sizes. *)
Definition dim_intersect (co : list Z) (cs : Z -> result Z) (to : list Z) (ts : Z -> result Z)
    (i : Z) : result (Z * Z) :=
  cand_start ← index co i;
  cand_size ← cs i;
  cand_end ← chk64 (cand_start + cand_size);
  target_start ← index to i;
  target_size ← ts i;
  target_end ← chk64 (target_start + target_size);
  Ok (Z.max cand_start target_start, Z.min cand_end target_end).

(** The loop over the dimensions; [None] is [has_intersection = false]. *)
Fixpoint intersect_loop (co : list Z) (cs : Z -> result Z) (to : list Z) (ts : Z -> result Z)
    (dims : list Z) : result (option (list (Z * Z))) :=
  match dims with
  | [] => Ok (Some [])
  | i :: dims' =>
      '(a, b) ← dim_intersect co cs to ts i;
      if b <=? a then Ok None else
      rest ← intersect_loop co cs to ts dims';
      Ok (match rest with Some l => Some ((a, b) :: l) | None => None end)
  end.

(** [intersect_start[i] - offset[i]] for every dimension. *)
Fixpoint sub_offsets (start : list (Z * Z)) (offset : list Z) (i : Z) : result (list Z) :=
  match start with
  | [] => Ok []
  | (a, _) :: start' =>
      o ← index offset i;
      d ← chk64 (a - o);
      ds ← sub_offsets start' offset (i + 1);
      Ok (d :: ds)
  end.

Definition make_copy_op (idx : Z) (ck tk : ShardedKey) (inter : list (Z * Z))
    : result CopyOperation :=
  so ← sub_offsets inter (global_offset ck) 0;
  to ← sub_offsets inter (global_offset tk) 0;
  sh ← map_result (fun ab => chk64 (ab.2 - ab.1)) inter;
  Ok (MkCopyOperation idx so to sh).

Fixpoint FindCoveringCandidatesUnsafe_loop (idx : Z) (candidates : list (ShardedKey * ATensor))
    (tk : ShardedKey) (tt : ATensor) : result (list CopyOperation) :=
  match candidates with
  | [] => Ok []
  | (ck, ct) :: rest =>
      inter ← intersect_loop (global_offset ck) (size_at ct) (global_offset tk) (size_at tt)
        (seqZ 0 (Z.of_nat (length (global_shape tk))));
      match inter with
      | None => FindCoveringCandidatesUnsafe_loop (idx + 1) rest tk tt
      | Some l =>
          op ← make_copy_op idx ck tk l;
          ops ← FindCoveringCandidatesUnsafe_loop (idx + 1) rest tk tt;
          Ok (op :: ops)
      end
  end.

Definition FindCoveringCandidatesUnsafe (candidates : list (ShardedKey * ATensor))
    (target_shard : ShardedKey) (target_tensor : ATensor) : result (list CopyOperation) :=
  FindCoveringCandidatesUnsafe_loop 0 candidates target_shard target_tensor.

(** ** Validation *)

Definition check_target_dim (tk : ShardedKey) (tt : ATensor) (i : Z) : result unit :=
  gs ← index (global_shape tk) i;
  go ← index (global_offset tk) i;
  max_shape ← chk64 (gs - go);
  s ← size_at tt i;
  throw_if (max_shape <? s) "Target tensor shape must be less than or equal to maxShape at dimension ".

Definition check_candidate_dim (ck tk : ShardedKey) (i : Z) : result unit :=
  a ← index (global_shape ck) i;
  b ← index (global_shape tk) i;
  throw_if (negb (a =? b)) "All candidates must have same globalShape as target".

Definition check_candidate (tk : ShardedKey) (tt : ATensor) (cand : ShardedKey * ATensor)
    : result unit :=
  let expected_dims := length (global_shape tk) in
  _ ← throw_if (negb (length (global_shape cand.1) =? expected_dims)%nat)
        "All candidates must have same dimension count as target";
  _ ← throw_if (negb (bool_decide (dtype cand.2 = dtype tt)))
        "All candidates must have same data type as target";
  for_each (fun i _ => check_candidate_dim cand.1 tk i) (seqZ 0 (Z.of_nat expected_dims)) ().

Definition ValidateCandidateFilterParams (candidates : list (ShardedKey * ATensor))
    (target_shard : ShardedKey) (target_tensor : ATensor) : result unit :=
  let dims := Z.of_nat (length (global_shape target_shard)) in
  _ ← throw_if (bool_decide (candidates = [])) "candidates cannot be empty";
  _ ← throw_if (negb (dims =? u64 (dim_num target_tensor)))
        "targetShard dimensions must match targetTensor dimensions";
  _ ← for_each (fun i _ => check_target_dim target_shard target_tensor i) (seqZ 0 dims) ();
  _ ← for_each (fun c _ => check_candidate target_shard target_tensor c) candidates ();
  CheckCandidatesCoverage candidates target_shard target_tensor.

Definition FindCoveringCandidates (candidates : list (ShardedKey * ATensor))
    (target_shard : ShardedKey) (target_tensor : ATensor) : result (list CopyOperation) :=
  _ ← ValidateCandidateFilterParams candidates target_shard target_tensor;
  FindCoveringCandidatesUnsafe candidates target_shard target_tensor.

Definition check_copy_dim (sk : ShardedKey) (st : ATensor) (tk : ShardedKey) (tt : ATensor)
    (i : Z) : result unit :=
  a ← index (global_shape sk) i;
  b ← index (global_shape tk) i;
  _ ← throw_if (negb (a =? b)) "Source and target ShardedKeys must have the same shape";
  so ← index (global_offset sk) i;
  src_max_shape ← chk64 (a - so);
  to ← index (global_offset tk) i;
  target_max_shape ← chk64 (b - to);
  ss ← size_at st i;
  _ ← throw_if (src_max_shape <? ss) "Source tensor shape exceeds available space at dimension ";
  ts ← size_at tt i;
  throw_if (target_max_shape <? ts) "Target tensor shape exceeds available space at dimension ".

Definition ValidateShardedCopyParams (sk : ShardedKey) (st : ATensor) (tk : ShardedKey)
    (tt : ATensor) : result unit :=
  let sdims := Z.of_nat (length (global_shape sk)) in
  let tdims := Z.of_nat (length (global_shape tk)) in
  _ ← throw_if (negb (sdims =? tdims))
        "Source and target ShardedKeys must have the same number of dimensions";
  _ ← throw_if (negb (sdims =? u64 (dim_num st)) || negb (tdims =? u64 (dim_num tt)))
        "ShardedKey dimensions must match corresponding tensor dimensions";
  _ ← throw_if (negb (bool_decide (dtype st = dtype tt)))
        "Source and target tensors must have the same data type";
  for_each (fun i _ => check_copy_dim sk st tk tt i) (seqZ 0 sdims) ().

(** ** The copy itself *)

Section Copy.
(** Torch tensors: [tensor.size(i)], and the narrowing of both tensors along
    every dimension followed by [target_view.copy_(src_view)], whose result is
    the target after the copy. *)
Context {T : Type} (tensor_size : T -> Z -> result Z)
  (narrow_copy : T -> T -> list Z -> list Z -> list Z -> result T).

Definition CopyTensorWithShardedKeysUnsafe (sk : ShardedKey) (src : T) (tk : ShardedKey)
    (target : T) : result (bool * T) :=
  inter ← intersect_loop (global_offset sk) (tensor_size src) (global_offset tk)
            (tensor_size target) (seqZ 0 (Z.of_nat (length (global_shape sk))));
  match inter with
  | None => Ok (false, target)
  | Some l =>
      op ← make_copy_op 0 sk tk l;
      target' ← narrow_copy src target (src_offset op) (target_offset op) (copy_shape op);
      Ok (true, target')
  end.

(** The copies of a transfer task: every shard read is copied to the target. *)
Fixpoint copy_all (tensors : list (ShardedKey * T)) (tk : ShardedKey) (target : T) : result T :=
  match tensors with
  | [] => Ok target
  | (sk, src) :: rest =>
      '(_, target') ← CopyTensorWithShardedKeysUnsafe sk src tk target;
      copy_all rest tk target'
  end.
End Copy.

(** ** Specification *)

(** A point of the box at [off] with sizes [sz]. *)
Definition in_box (off sz c : list Z) : Prop :=
  Forall3 (fun o s x => o <= x < o + s) off sz c.

(** A shard that lies within its global tensor. *)
Definition shard_ok (k : ShardedKey) (t : ATensor) : Prop :=
  exists sz, at_size t = Some sz /\
    Forall3 (fun g o s => 0 <= o /\ 0 <= s /\ o + s <= g) (global_shape k) (global_offset k) sz.

(** A global coordinate of the shard. *)
Definition in_shard (k : ShardedKey) (t : ATensor) (c : list Z) : Prop :=
  exists sz, at_size t = Some sz /\ in_box (global_offset k) sz c.

(** The flat index of a coordinate, least significant dimension first. *)
Fixpoint flat_r (shape coords : list Z) : Z :=
  match shape, coords with
  | s :: shape', c :: coords' => c + s * flat_r shape' coords'
  | _, _ => 0
  end.

(** The coordinate of a row index, least significant dimension first. *)
Fixpoint unflat_r (shape : list Z) (x : Z) : list Z :=
  match shape with
  | [] => []
  | s :: shape' => Z.rem x s :: unflat_r shape' (Z.quot x s)
  end.

Fixpoint prod (l : list Z) : Z :=
  match l with [] => 1 | s :: l' => s * prod l' end.

Definition covers (iv : Z * Z) (x : Z) : Prop := iv.1 <= x < iv.2.

(** ** Lemmas: flat indices *)

Lemma in_box_app o1 o2 s1 s2 c1 c2 :
  in_box o1 s1 c1 -> in_box o2 s2 c2 -> in_box (o1 ++ o2) (s1 ++ s2) (c1 ++ c2).
Proof. apply Forall3_app. Qed.

Definition zeros (l : list Z) : list Z := map (fun _ => 0) l.

Lemma in_box_cons o s off sz c :
  in_box (o :: off) (s :: sz) c <-> exists x cs, c = x :: cs /\ o <= x < o + s /\ in_box off sz cs.
Proof.
  unfold in_box. split; [inversion 1; subst; eauto|].
  intros (x & cs & -> & ? & ?). by constructor.
Qed.

Lemma in_box_nil c : in_box [] [] c <-> c = [].
Proof. unfold in_box. split; [by inversion 1|intros ->; constructor]. Qed.

Lemma flat_r_range shape c :
  in_box (zeros shape) shape c -> 0 <= flat_r shape c < prod shape.
Proof.
  revert c. induction shape as [|s shape IH]; cbn; intros c H.
  - apply in_box_nil in H as ->. lia.
  - apply in_box_cons in H as (x & cs & -> & Hx & Hcs). specialize (IH _ Hcs). nia.
Qed.

(** Distinct coordinates of the global tensor have distinct flat indices. *)
Lemma flat_r_inj shape c c' :
  in_box (zeros shape) shape c -> in_box (zeros shape) shape c' ->
  flat_r shape c = flat_r shape c' -> c = c'.
Proof.
  revert c c'. induction shape as [|s shape IH]; cbn; intros c c' H H' E.
  - apply in_box_nil in H as ->. by apply in_box_nil in H' as ->.
  - apply in_box_cons in H as (x & cs & -> & Hx & Hcs).
    apply in_box_cons in H' as (x' & cs' & -> & Hx' & Hcs').
    cbn in E. assert (Eq : flat_r shape cs = flat_r shape cs').
    { destruct (Z.lt_trichotomy (flat_r shape cs) (flat_r shape cs')) as [?|[?|?]]; [nia|done|nia]. }
    rewrite Eq in E. f_equal; [lia|]. by apply IH.
Qed.

Lemma unflat_r_box shape x :
  Forall (fun s => 0 <= s) shape -> 0 <= x < prod shape -> in_box (zeros shape) shape (unflat_r shape x).
Proof.
  intros H. revert x. induction H as [|s shape Hs H IH]; cbn; intros x Hx; [by apply in_box_nil|].
  assert (0 < s) by (destruct (Z.eq_dec s 0) as [->|]; lia).
  assert (0 < prod shape) by nia.
  apply in_box_cons. do 2 eexists. split; [done|]. split.
  - pose proof (Z.rem_bound_pos x s). lia.
  - apply IH. rewrite Z.quot_div_nonneg by lia.
    split; [apply Z.div_pos; lia|apply Z.div_lt_upper_bound; lia].
Qed.

Lemma unflat_flat_r shape c :
  in_box (zeros shape) shape c -> unflat_r shape (flat_r shape c) = c.
Proof.
  revert c. induction shape as [|s shape IH]; cbn; intros c H.
  - by apply in_box_nil in H as ->.
  - apply in_box_cons in H as (x & cs & -> & Hx & Hcs).
    pose proof (flat_r_range shape cs Hcs).
    rewrite Z.rem_mod_nonneg, Z.quot_div_nonneg by nia.
    rewrite (Z.mul_comm s), Z.mod_add, Z.div_add by lia.
    rewrite Z.mod_small, Z.div_small by lia. f_equal. by rewrite Z.add_0_l, IH.
Qed.

(** A box, as the points of the box at the origin shifted by the offset. *)
Lemma in_box_shift off sz c :
  length off = length sz ->
  in_box off sz c <-> exists d, in_box (zeros sz) sz d /\ c = zip_with Z.add d off.
Proof.
  revert sz c. induction off as [|o off IH]; intros [|s sz] c Hl; cbn; try discriminate Hl.
  - rewrite in_box_nil. setoid_rewrite in_box_nil. naive_solver.
  - injection Hl as Hl. setoid_rewrite in_box_cons. split.
    + intros (x & cs & -> & Hx & (d & Hd & ->)%IH); [|done].
      exists (x - o :: d). split; [exists (x - o), d; split_and!; [done|lia..|done]|].
      cbn. f_equal. lia.
    + intros (? & (x & d & -> & Hx & Hd) & ->). cbn.
      do 2 eexists. split; [done|]. split; [lia|]. apply IH; eauto.
Qed.

(** ** Lemmas: the loops compute flat indices and rows *)

Lemma prod_app l1 l2 : prod (l1 ++ l2) = prod l1 * prod l2.
Proof. induction l1 as [|x l1 IH]; cbn [app prod]; [lia|]. rewrite IH. lia. Qed.

Lemma prod_rev l : prod (rev l) = prod l.
Proof. induction l as [|x l IH]; cbn; [done|]. rewrite prod_app, IH. cbn [prod]. lia. Qed.

Lemma flat_index_loop_Ok coords shape n f st x :
  flat_index_loop coords shape n f st = Ok x ->
  x = f + st * flat_r (rev (take n shape)) (rev (take n coords)).
Proof.
  revert f st. induction n as [|n IH]; intros f st H; cbn [flat_index_loop] in H.
  - injection H as <-. rewrite !take_0. cbn [rev flat_r]. lia.
  - repeat ok_inv H. apply index_Ok in E as [_ E], E0 as [_ E0]. rewrite Nat2Z.id in E, E0.
    apply chk64_Ok in E1 as ->, E2 as ->, E3 as ->. apply IH in H.
    rewrite (rev_take_S _ _ _ E), (rev_take_S _ _ _ E0). cbn [flat_r]. lia.
Qed.

Lemma CoordsToFlatIndex_Ok coords shape x :
  length coords = length shape -> CoordsToFlatIndex coords shape = Ok x ->
  x = flat_r (rev shape) (rev coords).
Proof.
  intros Hl H. apply flat_index_loop_Ok in H.
  rewrite !take_ge in H by lia. lia.
Qed.

Lemma size_product_Ok t sz (n : nat) acc x :
  at_size t = Some sz ->
  for_each (fun i acc => s ← size_at t i; chk64 (acc * s)) (seqZ 0 (Z.of_nat n)) acc = Ok x ->
  x = acc * prod (take n sz).
Proof.
  intros Hsz. revert x. induction n as [|n IH]; intros x H.
  - cbn in H. injection H as <-. rewrite take_0. cbn [prod]. lia.
  - rewrite seqZ_S, for_each_app in H.
    ok_inv H. specialize (IH _ eq_refl). cbn in H.
    rewrite (size_at_Some _ sz) in H by done. ok_inv H. injection H as ->. ok_inv E0.
    apply index_Ok in E1 as [_ E1]. rewrite Z.add_0_l, Nat2Z.id in E1.
    apply chk64_Ok in E0 as ->. rewrite (take_S_r _ _ _ E1), prod_app. cbn [prod]. lia.
Qed.

Lemma row_coords_Ok t sz off n temp acc l :
  at_size t = Some sz -> row_coords t off n temp acc = Ok l ->
  exists p, l = p ++ acc /\ length p = n /\
    rev p = zip_with Z.add (unflat_r (rev (take n sz)) temp) (rev (take n off)).
Proof.
  intros Hsz. revert temp acc. induction n as [|n IH]; intros temp acc H; cbn [row_coords] in H.
  - injection H as <-. by exists [].
  - rewrite (size_at_Some _ sz) in H by done. do 2 ok_inv H.
    apply index_Ok in E as [_ E], E0 as [_ E0]. rewrite Nat2Z.id in E, E0.
    destruct (a =? 0); [done|]. ok_inv H. apply chk64_Ok in E1 as ->.
    apply IH in H as (p & -> & Hl & Hp).
    exists (p ++ [Z.rem temp a + a0]). split; [by rewrite <-app_assoc|].
    split; [rewrite length_app; cbn; lia|].
    rewrite rev_app_distr, (rev_take_S _ _ _ E), (rev_take_S _ _ _ E0). cbn. by rewrite Hp.
Qed.

(** The interval of row [r] of a shard of at least one dimension. *)
Lemma row_interval_Ok k t shp g offp o szp s r a b :
  global_shape k = shp ++ [g] -> global_offset k = offp ++ [o] -> at_size t = Some (szp ++ [s]) ->
  length offp = length shp -> length szp = length shp ->
  row_interval k t r = Ok (a, b) ->
  a = o + g * flat_r (rev shp) (zip_with Z.add (unflat_r (rev szp) r) (rev offp)) /\ b = a + s.
Proof.
  intros Eg Eo Es Hlo Hls H. unfold row_interval in H. rewrite Eg, Eo in H.
  rewrite (size_at_Some _ _ _ Es), length_app in H. cbn in H.
  replace (Z.of_nat (length shp + 1) - 1) with (Z.of_nat (length shp)) in H by lia.
  rewrite (index_nat (offp ++ [o]) _ o) in H by (rewrite <-Hlo; by apply list_lookup_middle).
  rewrite (index_nat (szp ++ [s]) _ s) in H by (rewrite <-Hls; by apply list_lookup_middle).
  cbn in H. rewrite Nat2Z.id in H. ok_inv H. do 2 ok_inv H. injection H as <- <-.
  apply chk64_Ok in E1 as ->. split; [|done].
  apply (row_coords_Ok _ _ _ _ _ _ _ Es) in E as (p & -> & Hl & Hp).
  rewrite take_app_length', take_app_length' in Hp by done.
  apply CoordsToFlatIndex_Ok in E0; [|rewrite !length_app, Hl; done].
  rewrite !rev_app_distr in E0. cbn in E0. by rewrite Hp in E0.
Qed.

(** ** Lemmas: the intervals of a shard are its flat indices *)

(** A shard within the global tensor has its last dimension apart. *)
Lemma shard_ok_snoc k t :
  shard_ok k t -> global_shape k <> [] ->
  exists shp g offp o szp s,
    global_shape k = shp ++ [g] /\ global_offset k = offp ++ [o] /\
    at_size t = Some (szp ++ [s]) /\ length offp = length shp /\ length szp = length shp /\
    Forall (fun s => 0 <= s) szp.
Proof.
  intros (sz & Es & H) Hne. pose proof (Forall3_lengths _ _ _ _ H) as [Hlo Hls].
  assert (Hnn : Forall (fun s => 0 <= s) sz) by (clear -H; induction H; constructor; lia || done).
  destruct (exists_last Hne) as (shp & g & Eg).
  rewrite Eg, length_app in Hlo, Hls. cbn in Hlo, Hls.
  destruct (global_offset k) as [|o' off'] eqn:Eo; [cbn in Hlo; lia|]. rewrite <-Eo in *.
  assert (Hone : global_offset k <> []) by (rewrite Eo; done).
  destruct (exists_last Hone) as (offp & o & Eo').
  assert (Hsne : sz <> []) by (destruct sz; [cbn in Hls; lia|done]).
  destruct (exists_last Hsne) as (szp & s & Es').
  rewrite Eo', length_app in Hlo. rewrite Es', length_app in Hls. cbn in Hlo, Hls.
  subst sz. apply Forall_app in Hnn as [? _].
  exists shp, g, offp, o, szp, s. rewrite Eo'. split_and!; auto; lia.
Qed.

Lemma in_shard_snoc k t offp o szp s c :
  global_offset k = offp ++ [o] -> at_size t = Some (szp ++ [s]) -> length offp = length szp ->
  in_shard k t c <->
  exists j d, 0 <= j < s /\ in_box (zeros (rev szp)) (rev szp) d /\
    rev c = o + j :: zip_with Z.add d (rev offp).
Proof.
  intros Eo Es Hl. unfold in_shard. rewrite Eo.
  assert (Hbox : in_box (offp ++ [o]) (szp ++ [s]) c <->
    exists x cs, rev c = x :: cs /\ o <= x < o + s /\ in_box (rev offp) (rev szp) cs).
  { unfold in_box at 1. rewrite Forall3_rev_iff, !rev_app_distr. apply in_box_cons. }
  assert (Hl' : length (rev offp) = length (rev szp)) by (by rewrite !length_rev).
  split.
  - intros (sz & E & H). rewrite Es in E. injection E as <-.
    apply Hbox in H as (x & cs & Er & Hx & H). apply in_box_shift in H as (d & Hd & ->); [|done].
    exists (x - o), d. rewrite Er. split_and!; [lia|lia|done|]. f_equal. lia.
  - intros (j & d & Hj & Hd & Er). exists (szp ++ [s]). split; [done|].
    apply Hbox. do 2 eexists. split; [exact Er|]. split; [lia|].
    apply in_box_shift; [done|]. eauto.
Qed.

(** The intervals of a shard cover exactly the flat indices of its elements. *)
Lemma intervals_cover k t ivs x :
  shard_ok k t -> ShardedTensorToFlatIntervals k t = Ok ivs ->
  (exists iv, iv ∈ ivs /\ covers iv x) <->
  (exists c, in_shard k t c /\ flat_r (rev (global_shape k)) (rev c) = x).
Proof.
  intros Hk H. unfold ShardedTensorToFlatIntervals in H.
  destruct (Z.eqb_spec (Z.of_nat (length (global_shape k))) 0) as [E0|Hne].
  - injection H as <-. destruct Hk as (sz & Es & Hk).
    destruct (Forall3_lengths _ _ _ _ Hk) as [Hlo Hls].
    destruct (global_shape k) eqn:Eg; [|cbn in E0; lia].
    destruct (global_offset k) eqn:Eo, sz; cbn in Hlo, Hls; try lia.
    unfold in_shard. rewrite Eo, Es. setoid_rewrite list_elem_of_singleton. split.
    + intros (iv & -> & Hc). exists []. split; [exists []; split; [done|by apply in_box_nil]|].
      unfold covers in Hc. cbn in *. lia.
    + intros (c & _ & <-). eexists. split; [done|]. unfold covers. cbn. lia.
  - destruct (shard_ok_snoc k t Hk) as (shp & g & offp & o & szp & s & Eg & Eo & Es & Hlo & Hls & Hnn).
    { by intros E; rewrite E in Hne. }
    ok_inv H. unfold num_rows_loop in E. rewrite Eg, length_app in E. cbn in E.
    replace (Z.of_nat (length shp + 1) - 1) with (Z.of_nat (length shp)) in E by lia.
    apply (size_product_Ok _ _ _ _ _ Es) in E.
    rewrite take_app_length', Z.mul_1_l, <-prod_rev in E by done.
    apply map_result_Ok in H.
    assert (Hrow : forall r iv, row_interval k t r = Ok iv ->
      iv = (o + g * flat_r (rev shp) (zip_with Z.add (unflat_r (rev szp) r) (rev offp)),
            o + g * flat_r (rev shp) (zip_with Z.add (unflat_r (rev szp) r) (rev offp)) + s)).
    { intros r [a' b'] Hr. by apply (row_interval_Ok k t shp g offp o szp s) in Hr as [-> ->]. }
    rewrite Eg, rev_app_distr. cbn [rev app]. split.
    + intros (iv & (r & Hr & ->%Hrow)%(Forall2_elem_r _ _ _ _ H) & Hc).
      apply elem_of_seqZ_0 in Hr. unfold covers in Hc. cbn in Hc.
      set (d := unflat_r (rev szp) r) in *.
      exists (rev (o + (x - (o + g * flat_r (rev shp) (zip_with Z.add d (rev offp)))) ::
                   zip_with Z.add d (rev offp))).
      rewrite rev_involutive. split; [|cbn [flat_r]; lia].
      apply (in_shard_snoc k t offp o szp s); [done..|lia|].
      do 2 eexists. split; [|split; [|by rewrite rev_involutive]]; [lia|].
      apply unflat_r_box; [by apply Forall_rev|]. lia.
    + intros (c & Hc & Ex). apply (in_shard_snoc k t offp o szp s) in Hc as (j & d & Hj & Hd & Er);
        [|done..|lia].
      rewrite Er in Ex. cbn in Ex.
      destruct (Forall2_elem_l _ _ _ (flat_r (rev szp) d) H) as (iv & Hiv & Hr%Hrow).
      { apply elem_of_seqZ_0. rewrite E. by apply flat_r_range. }
      exists iv. split; [done|]. subst iv x. rewrite unflat_flat_r by done.
      unfold covers. cbn. lia.
Qed.

(** ** Lemmas: merging *)

Lemma merge_step_sound (S : list (Z * Z)) merged cur :
  cur ∈ S -> (forall m x, m ∈ merged -> covers m x -> exists iv, iv ∈ S /\ covers iv x) ->
  forall m x, m ∈ merge_step merged cur -> covers m x -> exists iv, iv ∈ S /\ covers iv x.
Proof.
  intros Hcur H m x. destruct merged as [|last rest]; cbn.
  - intros ->%list_elem_of_singleton ?. eauto.
  - destruct (Z.leb_spec cur.1 last.2); intros [->|Hm]%elem_of_cons Hc; eauto.
    + destruct (decide (x < last.2)).
      * apply (H last); [set_solver|]. unfold covers in *. cbn in *. lia.
      * exists cur. unfold covers in *. cbn in *. split; [done|lia].
    + apply (H m); set_solver.
Qed.

Lemma merge_fold_sound (S : list (Z * Z)) l merged :
  (forall iv, iv ∈ l -> iv ∈ S) ->
  (forall m x, m ∈ merged -> covers m x -> exists iv, iv ∈ S /\ covers iv x) ->
  forall m x, m ∈ foldl merge_step merged l -> covers m x -> exists iv, iv ∈ S /\ covers iv x.
Proof.
  revert merged. induction l as [|cur l IH]; cbn; intros merged Hl Hm; [done|].
  apply IH; [set_solver|]. apply merge_step_sound; [set_solver|done].
Qed.

(** What the merged intervals cover, some original interval covers. *)
Lemma interval_covered_sound all tgt x :
  interval_covered (merge_intervals all) tgt = true -> covers tgt x ->
  exists iv, iv ∈ all /\ covers iv x.
Proof.
  intros (m & Hm & Hb)%existsb_exists Hx. unfold merge_intervals in Hm.
  rewrite <-in_rev, <-list_elem_of_In in Hm.
  apply (merge_fold_sound all (merge_sort start_le all) []) with (m := m); [| |done|].
  - intros iv. by rewrite merge_sort_Permutation.
  - set_solver.
  - apply andb_true_iff in Hb as [?%Z.leb_le ?%Z.leb_le]. unfold covers in *. lia.
Qed.

(** The merged intervals, last first: in order, and never touching. *)
Definition apart (later earlier : Z * Z) : Prop := earlier.2 < later.1.

Definition merged_ok (merged : list (Z * Z)) : Prop :=
  StronglySorted apart merged /\ Forall (fun m => m.1 <= m.2) merged.

Definition inside (iv m : Z * Z) : Prop := m.1 <= iv.1 /\ iv.2 <= m.2.

Lemma merge_step_complete merged cur :
  merged_ok merged -> cur.1 <= cur.2 -> (forall m, m ∈ merged -> m.1 <= cur.1) ->
  merged_ok (merge_step merged cur) /\
  (forall m, m ∈ merge_step merged cur -> m.1 <= cur.1) /\
  (forall iv, iv = cur \/ (exists m, m ∈ merged /\ inside iv m) ->
     exists m, m ∈ merge_step merged cur /\ inside iv m).
Proof.
  intros [Hs Hf] Hcur Hle. destruct merged as [|last rest]; cbn.
  - split_and!; [split; repeat constructor; lia|set_solver by lia|].
    intros iv [->|(? & ? & _)]; [exists cur; split; [set_solver|split; lia]|set_solver].
  - apply StronglySorted_cons_iff in Hs as [Hs Hl]. apply Forall_cons in Hf as [Hfl Hf].
    destruct (Z.leb_spec cur.1 last.2); (split; [|split]).
    + split; [apply StronglySorted_cons_iff; done|apply Forall_cons; cbn; split; [lia|done]].
    + intros m [->|Hm]%elem_of_cons; [apply (Hle last)|apply (Hle m)]; set_solver.
    + assert (last.1 <= cur.1) by (apply Hle; set_solver).
      intros iv [->|(m & [->|Hm]%elem_of_cons & Hi)].
      * eexists. split; [by left|]. unfold inside; cbn; lia.
      * eexists. split; [by left|]. unfold inside in *; cbn; lia.
      * exists m. split; [by right|done].
    + split; [apply StronglySorted_cons_iff; split; [by apply StronglySorted_cons_iff|]|
        by repeat (apply Forall_cons; split)].
      apply Forall_cons. split; [done|]. eapply Forall_impl; [exact Hl|].
      unfold apart. cbn. intros. lia.
    + intros m [->|Hm]%elem_of_cons; [lia|auto].
    + intros iv [->|(m & Hm & Hi)].
      * exists cur. split; [by left|split; lia].
      * exists m. split; [by right|done].
Qed.

Lemma merge_fold_complete l merged :
  merged_ok merged -> StronglySorted start_le l -> Forall (fun iv => iv.1 <= iv.2) l ->
  (forall m iv, m ∈ merged -> iv ∈ l -> m.1 <= iv.1) ->
  merged_ok (foldl merge_step merged l) /\
  (forall iv, iv ∈ l \/ (exists m, m ∈ merged /\ inside iv m) ->
     exists m, m ∈ foldl merge_step merged l /\ inside iv m).
Proof.
  revert merged. induction l as [|cur l IH]; cbn; intros merged Hm Hs Hl Hle.
  - split; [done|]. intros iv [Hiv|?]; [set_solver|done].
  - apply StronglySorted_cons_iff in Hs as [Hs Hcl]. apply Forall_cons in Hl as [Hc Hl].
    destruct (merge_step_complete merged cur Hm Hc) as (Hm' & Hle' & Hin); [set_solver|].
    destruct (IH (merge_step merged cur)) as [IH1 IH2]; auto.
    + intros m iv Hmm Hiv. specialize (Hle' _ Hmm).
      assert (start_le cur iv) by (by apply (Forall_forall _ l)). unfold start_le in *. lia.
    + split; [done|]. intros iv [[->|Hiv]%elem_of_cons|Hiv]; apply IH2; auto.
Qed.

Lemma merged_ok_apart merged m m' :
  merged_ok merged -> m ∈ merged -> m' ∈ merged -> m = m' \/ m.2 < m'.1 \/ m'.2 < m.1.
Proof.
  intros [Hs _] Hm Hm'. induction Hs as [|y l Hs IH Hy]; [set_solver|].
  rewrite Forall_forall in Hy. unfold apart in Hy.
  apply elem_of_cons in Hm as [->|Hm], Hm' as [->|Hm']; auto.
Qed.

(** An interval all of whose points are covered lies within one merged interval. *)
Lemma interval_covered_complete all tgt :
  Forall (fun iv => iv.1 <= iv.2) all -> tgt.1 < tgt.2 ->
  (forall x, covers tgt x -> exists iv, iv ∈ all /\ covers iv x) ->
  interval_covered (merge_intervals all) tgt = true.
Proof.
  intros Hall Htgt Hcov. unfold merge_intervals.
  destruct (merge_fold_complete (merge_sort start_le all) []) as [Hm Hin].
  - split; constructor.
  - apply StronglySorted_merge_sort; [intros ? ? ?; unfold start_le; lia|].
    intros ? ?. unfold start_le. lia.
  - by rewrite merge_sort_Permutation.
  - set_solver.
  - assert (Hpt : forall x, covers tgt x -> exists m,
      m ∈ foldl merge_step [] (merge_sort start_le all) /\ covers m x).
    { intros x (iv & Hiv & Hx)%Hcov. destruct (Hin iv) as (m & ? & Hi).
      - left. by rewrite merge_sort_Permutation.
      - exists m. split; [done|]. unfold inside, covers in *. lia. }
    destruct (Hpt tgt.1) as (m & Hmm & Hc); [unfold covers; lia|].
    apply existsb_exists. exists m. rewrite <-in_rev, <-list_elem_of_In. split; [done|].
    destruct (decide (tgt.2 <= m.2)) as [|Hlt].
    + unfold covers in Hc. apply andb_true_iff. split; apply Z.leb_le; lia.
    + exfalso. destruct (Hpt m.2) as (m' & Hm' & Hc'); [unfold covers in *; lia|].
      unfold covers in *.
      assert (m.1 <= m.2) by lia.
      destruct (merged_ok_apart _ m m' Hm Hmm Hm') as [->|[?|?]]; lia.
Qed.

(** ** Lemmas: intersections and copy operations *)

(** The intersection of two boxes, dimension by dimension. *)
Fixpoint inter_list (co cs to ts : list Z) : list (Z * Z) :=
  match co, cs, to, ts with
  | o :: co', s :: cs', o' :: to', s' :: ts' =>
      (Z.max o o', Z.min (o + s) (o' + s')) :: inter_list co' cs' to' ts'
  | _, _, _, _ => []
  end.

Definition nonempty (ab : Z * Z) : Prop := ab.1 < ab.2.

Lemma intersect_loop_Ok co csz to tsz cs ts n i r :
  (forall j, 0 <= j < Z.of_nat (length csz) -> cs j = index csz j) ->
  (forall j, 0 <= j < Z.of_nat (length tsz) -> ts j = index tsz j) ->
  length co = (i + n)%nat -> length csz = (i + n)%nat -> length tsz = (i + n)%nat ->
  intersect_loop co cs to ts (seqZ (Z.of_nat i) (Z.of_nat n)) = Ok r ->
  let l := inter_list (drop i co) (drop i csz) (drop i to) (drop i tsz) in
  match r with
  | Some l' => l' = l /\ Forall nonempty l
  | None => Exists (fun ab => ~ nonempty ab) l
  end.
Proof.
  intros Hcs Hts. revert i r. induction n as [|n IH]; intros i r Hco Hcsz Htsz H.
  - cbn in H. injection H as <-. cbn.
    rewrite (drop_ge co) by lia. cbn. done.
  - rewrite seqZ_cons in H by lia. cbn [intersect_loop] in H.
    replace (Z.succ (Z.of_nat i)) with (Z.of_nat (S i)) in H by lia.
    replace (Z.pred (Z.of_nat (S n))) with (Z.of_nat n) in H by lia.
    ok_inv H. destruct a as [a b]. unfold dim_intersect in E. rewrite Hcs, Hts in E by lia.
    repeat ok_inv E. injection E as <- <-.
    apply chk64_Ok in E2 as ->, E5 as ->.
    apply index_drop in E0 as ->, E1 as ->, E3 as ->, E4 as ->. cbn -[drop].
    destruct (Z.leb_spec (Z.min (a0 + a1) (a3 + a4)) (Z.max a0 a3)).
    + injection H as <-. apply Exists_cons_hd. unfold nonempty. cbn. lia.
    + ok_inv H. injection H as <-.
      assert (IH' := IH (S i) _ ltac:(lia) ltac:(lia) ltac:(lia) E). cbn -[drop] in IH'.
      destruct a as [l|].
      * destruct IH' as [-> HF]. split; [done|]. constructor; [unfold nonempty; cbn; lia|done].
      * by apply Exists_cons_tl.
Qed.

Lemma sub_offsets_Ok l off (i : nat) ds :
  sub_offsets l off (Z.of_nat i) = Ok ds -> ds = zip_with (fun ab o => ab.1 - o) l (drop i off).
Proof.
  revert i ds. induction l as [|[a b] l IH]; intros i ds H; cbn in H.
  - by injection H as <-.
  - ok_inv H. ok_inv H. replace (Z.of_nat i + 1) with (Z.of_nat (S i)) in H by lia.
    ok_inv H. injection H as <-. apply index_drop in E as ->. apply chk64_Ok in E0 as ->.
    cbn -[drop]. f_equal. by apply IH.
Qed.

Lemma copy_shape_Ok l sh :
  map_result (fun ab : Z * Z => chk64 (ab.2 - ab.1)) l = Ok sh -> sh = map (fun ab => ab.2 - ab.1) l.
Proof.
  intros H%map_result_Ok. induction H as [|ab x l sh Hx _ IH]; cbn; [done|].
  apply chk64_Ok in Hx as ->. by rewrite IH.
Qed.

Lemma make_copy_op_Ok idx ck tk l op :
  make_copy_op idx ck tk l = Ok op ->
  op = MkCopyOperation idx (zip_with (fun ab o => ab.1 - o) l (global_offset ck))
         (zip_with (fun ab o => ab.1 - o) l (global_offset tk)) (map (fun ab => ab.2 - ab.1) l).
Proof.
  unfold make_copy_op. intros H. ok_inv H. ok_inv H. ok_inv H. injection H as <-.
  apply (sub_offsets_Ok _ _ 0) in E as ->. apply (sub_offsets_Ok _ _ 0) in E0 as ->.
  apply copy_shape_Ok in E1 as ->. done.
Qed.

(** The local coordinate of a global coordinate in a shard. *)
Definition local (k : ShardedKey) (c : list Z) : list Z := zip_with Z.sub c (global_offset k).

(** A copy operation writes the target element of the global coordinate [c]
    with the source element of the same coordinate. *)
Definition op_copies (op : CopyOperation) (ck tk : ShardedKey) (c : list Z) : Prop :=
  in_box (target_offset op) (copy_shape op) (local tk c) /\
  zip_with Z.add (zip_with Z.sub (local tk c) (target_offset op)) (src_offset op) = local ck c.

(** A copy operation stays inside both tensors. *)
Definition op_within (op : CopyOperation) (csz tsz : list Z) : Prop :=
  Forall3 (fun o n s => 0 <= o /\ 0 < n /\ o + n <= s) (src_offset op) (copy_shape op) csz /\
  Forall3 (fun o n s => 0 <= o /\ 0 < n /\ o + n <= s) (target_offset op) (copy_shape op) tsz.

(** Every element a copy operation writes is an element of the target and gets
    the element of the candidate that has its global coordinate. *)
Definition op_exact (op : CopyOperation) (ck : ShardedKey) (csz : list Z) (tk : ShardedKey) (tsz : list Z) : Prop :=
  forall x, in_box (target_offset op) (copy_shape op) x ->
    exists c, in_box (global_offset tk) tsz c /\ in_box (global_offset ck) csz c /\ local tk c = x /\
      zip_with Z.add (zip_with Z.sub x (target_offset op)) (src_offset op) = local ck c.

Lemma inter_list_point co cs to ts c :
  in_box co cs c -> in_box to ts c ->
  let l := inter_list co cs to ts in
  Forall nonempty l /\
  in_box (zip_with (fun ab o => ab.1 - o) l to) (map (fun ab => ab.2 - ab.1) l) (zip_with Z.sub c to) /\
  zip_with Z.add (zip_with Z.sub (zip_with Z.sub c to) (zip_with (fun ab o => ab.1 - o) l to))
    (zip_with (fun ab o => ab.1 - o) l co) = zip_with Z.sub c co.
Proof.
  intros H. revert to ts. unfold in_box.
  induction H as [|o s x co cs c Hx _ IH]; intros to ts H2; inversion H2; subst; cbn.
  - split_and!; constructor.
  - destruct (IH _ _ ltac:(eassumption)) as (IH1 & IH2 & IH3).
    split; [constructor; [unfold nonempty; cbn; lia|done]|].
    split; [constructor; [lia|done]|]. f_equal; [lia|done].
Qed.

Lemma inter_list_exact co cs to ts x :
  length co = length cs -> length to = length co -> length ts = length co ->
  let l := inter_list co cs to ts in
  in_box (zip_with (fun ab o => ab.1 - o) l to) (map (fun ab => ab.2 - ab.1) l) x ->
  exists c, in_box to ts c /\ in_box co cs c /\ zip_with Z.sub c to = x /\
    zip_with Z.add (zip_with Z.sub x (zip_with (fun ab o => ab.1 - o) l to))
      (zip_with (fun ab o => ab.1 - o) l co) = zip_with Z.sub c co.
Proof.
  unfold in_box. revert cs to ts x. induction co as [|o co IH]; intros [|s cs] [|o' to] [|s' ts] x; cbn; try lia; intros ? ? ? H.
  - inversion H; subst. exists []. split_and!; constructor.
  - inversion H as [|? ? y ? ? x' Hy Hx]; subst. destruct (IH cs to ts x') as (c & ? & ? & ? & ?); [lia..|done|].
    exists (y + o' :: c). cbn. split; [constructor; [lia|done]|]. split; [constructor; [lia|done]|].
    split; (f_equal; [lia|done]).
Qed.

Lemma inter_list_within co cs to ts :
  length co = length cs -> length to = length co -> length ts = length co ->
  let l := inter_list co cs to ts in
  Forall nonempty l ->
  Forall3 (fun o n s => 0 <= o /\ 0 < n /\ o + n <= s)
    (zip_with (fun ab o => ab.1 - o) l co) (map (fun ab => ab.2 - ab.1) l) cs /\
  Forall3 (fun o n s => 0 <= o /\ 0 < n /\ o + n <= s)
    (zip_with (fun ab o => ab.1 - o) l to) (map (fun ab => ab.2 - ab.1) l) ts.
Proof.
  revert cs to ts. induction co as [|o co IH]; intros [|s cs] [|o' to] [|s' ts]; cbn; try lia.
  - split; constructor.
  - intros ? ? ? [Hn HF]%Forall_cons. unfold nonempty in Hn. cbn in Hn.
    destruct (IH cs to ts) as [IH1 IH2]; [lia..|done|].
    split; constructor; [lia|done|lia|done].
Qed.

(** ** Lemmas: the list of copy operations *)

Definition cand_ok (tk : ShardedKey) (cand : ShardedKey * ATensor) : Prop :=
  shard_ok cand.1 cand.2 /\ global_shape cand.1 = global_shape tk.

Lemma candidate_intersect ck ct tk tt r :
  cand_ok tk (ck, ct) -> shard_ok tk tt ->
  intersect_loop (global_offset ck) (size_at ct) (global_offset tk) (size_at tt)
    (seqZ 0 (Z.of_nat (length (global_shape tk)))) = Ok r ->
  exists csz tsz, at_size ct = Some csz /\ at_size tt = Some tsz /\
    length (global_offset ck) = length csz /\ length (global_offset tk) = length csz /\
    length tsz = length csz /\
    let l := inter_list (global_offset ck) csz (global_offset tk) tsz in
    match r with
    | Some l' => l' = l /\ Forall nonempty l
    | None => Exists (fun ab => ~ nonempty ab) l
    end.
Proof.
  intros [(csz & Ec & Hc) Eg] (tsz & Et & Ht) H. cbn in *.
  apply Forall3_lengths in Hc as [? ?], Ht as [? ?]. rewrite Eg in *.
  exists csz, tsz. split_and!; auto; [lia..|].
  apply (intersect_loop_Ok _ csz _ tsz) with (i := O) in H; auto; try lia;
    intros j _; by apply size_at_Some.
Qed.

Lemma find_loop_within idx cands tk tt ops :
  Forall (cand_ok tk) cands -> shard_ok tk tt ->
  FindCoveringCandidatesUnsafe_loop idx cands tk tt = Ok ops ->
  forall op, op ∈ ops -> exists (j : nat) ck ct csz tsz,
    candidate_index op = idx + Z.of_nat j /\ cands !! j = Some (ck, ct) /\
    at_size ct = Some csz /\ at_size tt = Some tsz /\ op_within op csz tsz /\ op_exact op ck csz tk tsz.
Proof.
  intros Hc Ht. revert idx ops. induction Hc as [|[ck ct] cands Hck Hc IH]; intros idx ops H op Hop.
  { injection H as <-. set_solver. }
  cbn [FindCoveringCandidatesUnsafe_loop] in H. ok_inv H.
  assert (Hnext : forall ops', FindCoveringCandidatesUnsafe_loop (idx + 1) cands tk tt = Ok ops' ->
    op ∈ ops' -> exists (j : nat) ck' ct' csz tsz, candidate_index op = idx + Z.of_nat j /\
      ((ck, ct) :: cands) !! j = Some (ck', ct') /\ at_size ct' = Some csz /\ at_size tt = Some tsz /\
      op_within op csz tsz /\ op_exact op ck' csz tk tsz).
  { intros ops' H' Ho. destruct (IH _ _ H' _ Ho) as (j & ck' & ct' & csz & tsz & ? & ?).
    exists (S j), ck', ct', csz, tsz. cbn [lookup list_lookup]. split; [lia|done]. }
  destruct a as [l|]; [|by eapply Hnext].
  ok_inv H. ok_inv H. injection H as <-.
  apply elem_of_cons in Hop as [->|Hop]; [|by eapply Hnext].
  destruct (candidate_intersect _ _ _ _ _ Hck Ht E)
    as (csz & tsz & Ec & Et & ? & ? & ? & -> & HF).
  apply make_copy_op_Ok in E0 as ->.
  exists O, ck, ct, csz, tsz. cbn. split; [lia|]. split; [done|]. split; [done|]. split; [done|].
  split; [apply inter_list_within; auto; lia|]. intros x. apply inter_list_exact; lia.
Qed.

Lemma find_loop_copies idx cands tk tt ops :
  Forall (cand_ok tk) cands -> shard_ok tk tt ->
  FindCoveringCandidatesUnsafe_loop idx cands tk tt = Ok ops ->
  forall j ck ct c, cands !! j = Some (ck, ct) -> in_shard ck ct c -> in_shard tk tt c ->
  exists op, op ∈ ops /\ candidate_index op = idx + Z.of_nat j /\ op_copies op ck tk c.
Proof.
  intros Hc Ht. revert idx ops.
  induction Hc as [|[ck0 ct0] cands Hck Hc IH]; intros idx ops H j ck ct c Hj Hcc Htc; [done|].
  cbn [FindCoveringCandidatesUnsafe_loop] in H. ok_inv H.
  destruct (candidate_intersect _ _ _ _ _ Hck Ht E) as (csz & tsz & Ec & Et & ? & ? & ? & Hl).
  destruct j as [|j].
  - cbn in Hj. injection Hj as -> ->.
    destruct Hcc as (csz' & Ec' & Hcc), Htc as (tsz' & Et' & Htc). simplify_eq.
    destruct (inter_list_point _ _ _ _ _ Hcc Htc) as (HF & Hp1 & Hp2).
    destruct a as [l|].
    + destruct Hl as [-> _]. ok_inv H. ok_inv H. injection H as <-.
      apply make_copy_op_Ok in E0 as ->. eexists. split; [by left|]. split; [cbn; lia|].
      split; done.
    + exfalso. apply Exists_exists in Hl as (ab & Hab & Hne). apply Hne.
      exact (proj1 (Forall_forall _ _) HF _ Hab).
  - cbn in Hj.
    assert (Hnext : forall ops', FindCoveringCandidatesUnsafe_loop (idx + 1) cands tk tt = Ok ops' ->
      exists op, op ∈ ops' /\ candidate_index op = idx + Z.of_nat (S j) /\ op_copies op ck tk c).
    { intros ops' H'. destruct (IH _ _ H' _ _ _ _ Hj Hcc Htc) as (op & ? & ? & ?).
      exists op. split_and!; [done|lia|done]. }
    destruct a as [l|]; [|by apply Hnext].
    ok_inv H. ok_inv H. injection H as <-.
    destruct (Hnext _ eq_refl) as (op & ? & ?). exists op. split; [by right|done].
Qed.

Lemma index_eq_lists (l1 l2 : list Z) :
  length l1 = length l2 ->
  (forall i, 0 <= i < Z.of_nat (length l2) -> exists x, index l1 i = Ok x /\ index l2 i = Ok x) ->
  l1 = l2.
Proof.
  intros Hl H. apply (list_eq_same_length l1 l2 (length l2)); [done..|].
  intros i x y Hi H1 H2. destruct (H (Z.of_nat i)) as (z & E1 & E2); [lia|].
  rewrite (index_nat _ _ _ H1) in E1. rewrite (index_nat _ _ _ H2) in E2. congruence.
Qed.

Lemma validate_Ok cands tk tt u :
  ValidateCandidateFilterParams cands tk tt = Ok u ->
  Forall (fun c => global_shape c.1 = global_shape tk) cands /\
  CheckCandidatesCoverage cands tk tt = Ok u.
Proof.
  unfold ValidateCandidateFilterParams. intros H. do 4 ok_inv H. split; [|done].
  apply Forall_forall. intros c Hc. apply (for_each_Ok _ _ _ _ E2) in Hc.
  unfold check_candidate in Hc. do 2 ok_inv Hc. apply throw_if_Ok in E3, E4.
  apply negb_false_iff, Nat.eqb_eq in E3. apply index_eq_lists; [done|].
  intros i Hi. apply (for_each_Ok _ _ _ i) in Hc; [|by apply elem_of_seqZ_0].
  unfold check_candidate_dim in Hc. do 2 ok_inv Hc. apply throw_if_Ok in Hc.
  apply negb_false_iff, Z.eqb_eq in Hc as ->. eauto.
Qed.

(** A shard within its global tensor only has coordinates of that tensor. *)
Lemma in_shard_global k t c :
  shard_ok k t -> in_shard k t c ->
  in_box (zeros (rev (global_shape k))) (rev (global_shape k)) (rev c).
Proof.
  intros (sz & Es & Hk) (sz' & Es' & Hc). simplify_eq.
  unfold in_box in *. assert (H : Forall3 (fun o s x => o <= x < o + s)
    (zeros (global_shape k)) (global_shape k) c).
  { clear Es. revert c Hc. induction Hk as [|g o s gs os ss Hg _ IH]; intros c Hc;
      inversion Hc; subst; cbn; constructor; [lia|auto]. }
  apply Forall3_rev in H. unfold zeros in *. by rewrite <-map_rev in H.
Qed.

Lemma coverage_sound cands tk tt u c :
  Forall (cand_ok tk) cands -> shard_ok tk tt ->
  CheckCandidatesCoverage cands tk tt = Ok u -> in_shard tk tt c ->
  exists j ck ct, cands !! j = Some (ck, ct) /\ in_shard ck ct c.
Proof.
  intros Hc Ht H Hin. unfold CheckCandidatesCoverage in H. do 3 ok_inv H.
  apply throw_if_Ok, negb_false_iff in H. rewrite forallb_forall in H.
  destruct (proj2 (intervals_cover tk tt a (flat_r (rev (global_shape tk)) (rev c)) Ht E)) as (iv & Hiv & Hcov); [by exists c|].
  apply list_elem_of_In in Hiv. apply H in Hiv.
  destruct (interval_covered_sound _ _ _ Hiv Hcov) as (iv' & Hiv' & Hcov').
  apply list_elem_of_In, in_concat in Hiv' as (ivs & Hivs & Hin'). apply list_elem_of_In in Hivs, Hin'.
  apply map_result_Ok in E0. destruct (Forall2_elem_r _ _ _ _ E0 Hivs) as ([ck ct] & Hck & Eck).
  assert (Hok : cand_ok tk (ck, ct)) by (by apply (Forall_forall (cand_ok tk) cands)).
  destruct Hok as [Hok Eg]. cbn in *.
  destruct (proj1 (intervals_cover ck ct ivs _ Hok Eck) (ex_intro _ iv' (conj Hin' Hcov')))
    as (c' & Hc' & Ef).
  assert (c' = c) as ->.
  { rewrite Eg in Ef. rewrite <-(rev_involutive c'), <-(rev_involutive c). f_equal.
    apply (flat_r_inj (rev (global_shape tk))); [|by eapply in_shard_global|done].
    rewrite <-Eg. by eapply in_shard_global. }
  apply list_elem_of_lookup in Hck as [j Hj]. eauto 6.
Qed.

(** ** Lemmas: no failure on shards of a global tensor of representable size *)

Definition max_i64 : Z := 2 ^ 63 - 1.

(** A box with no empty dimension within the global shape [gs]. *)
Definition box_pos (gs off sz : list Z) : Prop :=
  Forall3 (fun g o s => 0 <= o /\ 0 < s /\ o + s <= g) gs off sz.

(** A shard with no empty dimension that lies within its global tensor. *)
Definition shard_pos (k : ShardedKey) (t : ATensor) : Prop :=
  exists sz, at_size t = Some sz /\
    box_pos (global_shape k) (global_offset k) sz.

Lemma shard_pos_ok k t : shard_pos k t -> shard_ok k t.
Proof.
  intros (sz & E & H). exists sz. split; [done|]. eapply Forall3_impl; [exact H|]. cbn. lia.
Qed.

Lemma prod_take_pos l n : Forall (fun s => 0 < s) l -> 0 < prod (take n l).
Proof.
  intros H. revert n. induction H as [|x l Hx _ IH]; intros [|n]; cbn; try lia.
  specialize (IH n). lia.
Qed.

Lemma prod_take_S_le l n x :
  Forall (fun s => 0 < s) l -> l !! n = Some x -> prod (take (S n) l) = prod (take n l) * x.
Proof. intros H Hx. rewrite (take_S_r _ _ _ Hx), prod_app. cbn [prod]. lia. Qed.

Lemma flat_index_loop_total shape coords n f st :
  Forall2 (fun g c => 0 <= c < g) shape coords -> (n <= length shape)%nat ->
  0 <= f < st -> st * prod (take n shape) <= max_i64 ->
  exists x, flat_index_loop coords shape n f st = Ok x.
Proof.
  intros H. pose proof (Forall2_length _ _ _ H) as Hlen.
  assert (Hpos : Forall (fun s => 0 < s) shape) by (clear -H; induction H; constructor; lia || done).
  unfold max_i64. revert f st. induction n as [|n IH]; intros f st Hn Hf Hm; [cbn; eauto|].
  cbn [flat_index_loop].
  destruct (lookup_lt_is_Some_2 shape n ltac:(lia)) as [g Hg].
  destruct (Forall2_lookup_l _ _ _ _ _ H Hg) as (c & Hc & Hr).
  rewrite (index_nat _ _ _ Hc), (index_nat _ _ _ Hg). cbn.
  rewrite (prod_take_S_le _ _ _ Hpos Hg) in Hm. pose proof (prod_take_pos shape n Hpos).
  assert (st * g <= 2 ^ 63 - 1) by nia. assert (0 <= c * st /\ c * st + st <= st * g) by nia.
  rewrite (chk64_small (c * st)) by (unfold in_i64; lia). cbn.
  rewrite (chk64_small (f + c * st)) by (unfold in_i64; lia). cbn.
  rewrite (chk64_small (st * g)) by (unfold in_i64; lia). cbn.
  apply IH; [lia|lia|nia].
Qed.

Lemma CoordsToFlatIndex_total shape coords :
  Forall2 (fun g c => 0 <= c < g) shape coords -> prod shape <= max_i64 ->
  exists x, CoordsToFlatIndex coords shape = Ok x /\ 0 <= x < prod shape.
Proof.
  intros H Hp. destruct (flat_index_loop_total shape coords (length shape) 0 1) as [x Hx];
    [done|lia|lia|rewrite take_ge by lia; lia|].
  exists x. split; [exact Hx|].
  apply CoordsToFlatIndex_Ok in Hx as ->; [|symmetry; by eapply Forall2_length].
  rewrite <-(prod_rev shape). apply flat_r_range. unfold in_box, zeros. rewrite map_rev.
  apply Forall3_rev. clear -H. induction H; cbn; constructor; [lia|done].
Qed.

Lemma size_product_total t sz (n : nat) :
  at_size t = Some sz -> Forall (fun s => 0 < s) sz -> (n <= length sz)%nat ->
  prod (take n sz) <= max_i64 ->
  for_each (fun i acc => s ← size_at t i; chk64 (acc * s)) (seqZ 0 (Z.of_nat n)) 1 =
  Ok (prod (take n sz)).
Proof.
  intros Es Hpos. unfold max_i64. induction n as [|n IH]; intros Hn Hm; [done|].
  destruct (lookup_lt_is_Some_2 sz n ltac:(lia)) as [s Hs].
  assert (0 < s) by (by apply (Forall_lookup_1 _ _ _ _ Hpos Hs)).
  pose proof (prod_take_pos sz n Hpos). rewrite (prod_take_S_le _ _ _ Hpos Hs) in *.
  rewrite seqZ_S, for_each_app, IH, Z.add_0_l by nia. cbn [for_each mbind result_bind].
  rewrite (size_at_Some _ _ _ Es), (index_nat _ _ _ Hs). cbn.
  by rewrite chk64_small by (unfold in_i64; lia).
Qed.

Lemma row_coords_total k t sz n temp acc :
  at_size t = Some sz -> (n <= length (global_shape k))%nat -> 0 <= temp ->
  box_pos (global_shape k) (global_offset k) sz ->
  Forall (fun g => g <= max_i64) (global_shape k) ->
  exists p, row_coords t (global_offset k) n temp acc = Ok (p ++ acc) /\
    Forall2 (fun g c => 0 <= c < g) (take n (global_shape k)) p.
Proof.
  intros Es Hn Ht H Hg. unfold max_i64 in *.
  revert temp Ht acc. induction n as [|n IH]; intros temp Ht acc.
  { exists []. rewrite take_0. split; [done|constructor]. }
  destruct (lookup_lt_is_Some_2 (global_shape k) n ltac:(lia)) as [g Hgn].
  destruct (Forall3_lookup_l _ _ _ _ _ _ H Hgn) as (o & s & Ho & Hs & Hb).
  pose proof (Forall_lookup_1 _ _ _ _ Hg Hgn) as Hgb. cbn in Hgb.
  cbn [row_coords]. rewrite (size_at_Some _ _ _ Es), (index_nat _ _ _ Hs), (index_nat _ _ _ Ho). cbn.
  rewrite (proj2 (Z.eqb_neq s 0)) by lia.
  pose proof (Z.rem_bound_pos temp s). rewrite chk64_small by (unfold in_i64; lia). cbn.
  destruct (IH ltac:(lia) (Z.quot temp s) ltac:(apply Z.quot_pos; lia) (Z.rem temp s + o :: acc))
    as (p & -> & Hp).
  exists (p ++ [Z.rem temp s + o]). rewrite <-app_assoc. split; [done|].
  rewrite (take_S_r _ _ _ Hgn). apply Forall2_app; [done|]. repeat constructor; lia.
Qed.

Lemma Forall3_pos_sizes gs off sz :
  box_pos gs off sz ->
  Forall (fun s => 0 < s) sz /\ Forall (fun g => 0 < g) gs /\
  (forall n, prod (take n sz) <= prod (take n gs)).
Proof.
  induction 1 as [|g o s gs os ss Hb _ (IH1 & IH2 & IH3)]; cbn.
  - split_and!; [constructor..|]. intros n. by rewrite !take_nil.
  - split_and!; [constructor; [lia|done]..|]. intros [|n]; [cbn; lia|]. cbn.
    specialize (IH3 n). pose proof (prod_take_pos ss n IH1). nia.
Qed.

Lemma prod_take_le l n : Forall (fun g => 0 < g) l -> prod (take n l) <= prod l.
Proof.
  intros H. revert n. induction H as [|g l Hg Hl IH]; intros n; [by rewrite take_nil|].
  destruct n as [|n]; cbn.
  - pose proof (prod_take_pos l (length l) Hl) as Hp. rewrite take_ge in Hp by lia. nia.
  - specialize (IH n). nia.
Qed.

Lemma elem_le_prod l g : Forall (fun g => 0 < g) l -> g ∈ l -> g <= prod l.
Proof.
  intros H. induction H as [|x l Hx Hl IH]; [set_solver|]. cbn.
  pose proof (prod_take_pos l (length l) Hl) as Hp. rewrite take_ge in Hp by lia.
  intros [->|Hg]%elem_of_cons; [nia|]. specialize (IH Hg). nia.
Qed.

Lemma row_interval_total k t r :
  shard_pos k t -> global_shape k <> [] -> prod (global_shape k) <= max_i64 -> 0 <= r ->
  exists iv, row_interval k t r = Ok iv /\ iv.1 < iv.2.
Proof.
  intros (sz & Es & H) Hne Hp Hr. unfold row_interval.
  destruct (Forall3_pos_sizes _ _ _ H) as (Hsz & Hg & _).
  assert (Hgm : Forall (fun g => g <= max_i64) (global_shape k)).
  { apply Forall_forall. intros g Hgin. pose proof (elem_le_prod _ _ Hg Hgin). lia. }
  destruct (exists_last Hne) as (shp & g & Eg).
  assert (Hlen : length (global_shape k) = S (length shp)) by (rewrite Eg, length_app; cbn; lia).
  assert (Hgl : global_shape k !! length shp = Some g) by (rewrite Eg; by apply list_lookup_middle).
  destruct (Forall3_lookup_l _ _ _ _ _ _ H Hgl) as (o & s & Ho & Hs & Hb).
  rewrite Hlen. replace (Z.of_nat (S (length shp)) - 1) with (Z.of_nat (length shp)) by lia.
  rewrite (index_nat _ _ _ Ho), (size_at_Some _ _ _ Es), (index_nat _ _ _ Hs), Nat2Z.id.
  cbn [mbind result_bind].
  destruct (row_coords_total k t sz (length shp) r [o]) as (p & -> & Hpc); auto; [lia|].
  cbn [mbind result_bind].
  rewrite Eg, take_app_length in Hpc.
  destruct (CoordsToFlatIndex_total (global_shape k) (p ++ [o])) as (x & Ex & Hx); [|done|].
  { rewrite Eg. apply Forall2_app; [done|]. repeat constructor; lia. }
  rewrite Ex. cbn [mbind result_bind].
  destruct (CoordsToFlatIndex_total (global_shape k) (p ++ [o + s - 1])) as (y & Ey & Hy); [|done|].
  { rewrite Eg. apply Forall2_app; [done|]. repeat constructor; lia. }
  assert (Hlp : length p = length shp) by (symmetry; by eapply Forall2_length).
  apply CoordsToFlatIndex_Ok in Ex; [|rewrite length_app, Hlp, Hlen; cbn; lia].
  apply CoordsToFlatIndex_Ok in Ey; [|rewrite length_app, Hlp, Hlen; cbn; lia].
  rewrite Eg, !rev_app_distr in Ex, Ey. cbn in Ex, Ey.
  unfold max_i64 in Hp. rewrite chk64_small by (unfold in_i64; lia).
  eexists. split; [reflexivity|]. cbn. lia.
Qed.

Lemma intervals_total k t :
  shard_pos k t -> prod (global_shape k) <= max_i64 ->
  exists ivs, ShardedTensorToFlatIntervals k t = Ok ivs /\ Forall (fun iv => iv.1 < iv.2) ivs.
Proof.
  intros Hk Hp. unfold ShardedTensorToFlatIntervals.
  destruct (Z.eqb_spec (Z.of_nat (length (global_shape k))) 0) as [_|Hne].
  { eexists. split; [done|]. repeat constructor. }
  assert (Hsne : global_shape k <> []) by (by intros E; rewrite E in Hne).
  pose proof Hk as (sz & Es & H). destruct (Forall3_pos_sizes _ _ _ H) as (Hsz & Hg & Hle).
  destruct (Forall3_lengths _ _ _ _ H) as [_ Hlen].
  unfold num_rows_loop.
  replace (Z.of_nat (length (global_shape k)) - 1)
    with (Z.of_nat (length (global_shape k) - 1)) by lia.
  rewrite (size_product_total t sz); [|done|done|lia|].
  2:{ specialize (Hle (length (global_shape k) - 1)%nat).
      pose proof (prod_take_le (global_shape k) (length (global_shape k) - 1) Hg). lia. }
  cbn [mbind result_bind]. apply map_result_total.
  intros r Hr%elem_of_seqZ_0. apply row_interval_total; [done..|lia].
Qed.

Lemma shard_pos_point k t : shard_pos k t -> exists c, in_shard k t c.
Proof.
  intros (sz & Es & H). exists (global_offset k). exists sz. split; [done|]. unfold in_box.
  clear Es. induction H; constructor; [lia|done].
Qed.

(** The candidates cover the target: every global coordinate of the target is
    one of a candidate's. *)
Definition covered_by (cands : list (ShardedKey * ATensor)) (tk : ShardedKey) (tt : ATensor) : Prop :=
  forall c, in_shard tk tt c -> exists ck ct, (ck, ct) ∈ cands /\ in_shard ck ct c.

Lemma coverage_complete cands tk tt :
  cands <> [] -> Forall (fun c => shard_pos c.1 c.2 /\ global_shape c.1 = global_shape tk) cands ->
  shard_pos tk tt -> prod (global_shape tk) <= max_i64 -> covered_by cands tk tt ->
  CheckCandidatesCoverage cands tk tt = Ok ().
Proof.
  intros Hne Hc Ht Hp Hcov. unfold CheckCandidatesCoverage.
  destruct (intervals_total tk tt Ht Hp) as (tis & Et & Htis). rewrite Et. cbn [mbind result_bind].
  destruct (map_result_total (fun c : ShardedKey * ATensor => ShardedTensorToFlatIntervals c.1 c.2)
    (Forall (fun iv => iv.1 < iv.2)) cands) as (civs & Ec & Hciv).
  { intros c Hin. destruct (proj1 (Forall_forall _ _) Hc c Hin) as [Hpos Eg].
    apply intervals_total; [done|by rewrite Eg]. }
  rewrite Ec. cbn [mbind result_bind]. apply map_result_Ok in Ec.
  assert (Hpt : forall iv x, iv ∈ tis -> covers iv x -> exists iv', iv' ∈ concat civs /\ covers iv' x).
  { intros iv x Hiv Hx.
    destruct (proj1 (intervals_cover tk tt tis x (shard_pos_ok _ _ Ht) Et)) as (c & Hin & <-);
      [by exists iv|].
    destruct (Hcov c Hin) as (ck & ct & Hck & Hcin).
    destruct (Forall2_elem_l _ _ _ _ Ec Hck) as (ivs & Hivs & Eivs).
    destruct (proj1 (Forall_forall _ _) Hc _ Hck) as [Hpos Eg]. cbn in *.
    destruct (proj2 (intervals_cover ck ct ivs (flat_r (rev (global_shape ck)) (rev c))
      (shard_pos_ok _ _ Hpos) Eivs)) as (iv' & Hiv' & Hx'); [by exists c|].
    exists iv'. rewrite <-Eg. split; [|done]. apply list_elem_of_In, in_concat.
    exists ivs. by rewrite <-!list_elem_of_In. }
  assert (Htne : exists iv, iv ∈ tis).
  { destruct (shard_pos_point tk tt Ht) as [c Hc0].
    destruct (proj2 (intervals_cover tk tt tis (flat_r (rev (global_shape tk)) (rev c))
      (shard_pos_ok _ _ Ht) Et)) as (iv & ? & _); eauto. }
  rewrite bool_decide_false; cbn.
  2:{ destruct Htne as [iv Hiv]. pose proof (proj1 (Forall_forall _ _) Htis _ Hiv) as Hlt.
      destruct (Hpt iv iv.1 Hiv) as (iv' & Hin & _); [unfold covers; cbn in Hlt; lia|].
      intros E. rewrite E in Hin. set_solver. }
  rewrite (proj2 (forallb_forall _ _)); [done|].
  intros iv Hiv%list_elem_of_In. apply interval_covered_complete.
  - apply Forall_concat. eapply Forall_impl; [exact Hciv|]. cbn. intros l Hl.
    eapply Forall_impl; [exact Hl|]. cbn. lia.
  - exact (proj1 (Forall_forall _ _) Htis _ Hiv).
  - intros x Hx. by eapply Hpt.
Qed.

Lemma pos_lookup gs off sz (i : nat) :
  box_pos gs off sz -> prod gs <= max_i64 -> (i < length gs)%nat ->
  exists g o s, gs !! i = Some g /\ off !! i = Some o /\ sz !! i = Some s /\
    0 <= o /\ 0 < s /\ o + s <= g /\ g <= max_i64.
Proof.
  intros H Hp Hi. destruct (Forall3_pos_sizes _ _ _ H) as (_ & Hg & _).
  destruct (lookup_lt_is_Some_2 gs i Hi) as [g Hgl].
  destruct (Forall3_lookup_l _ _ _ _ _ _ H Hgl) as (o & s & ? & ? & ? & ? & ?).
  pose proof (elem_le_prod _ g Hg (list_elem_of_lookup_2 _ _ _ Hgl)).
  exists g, o, s. split_and!; auto; lia.
Qed.

Lemma validate_total cands tk tt :
  cands <> [] -> dim_num tt = Z.of_nat (length (global_shape tk)) -> in_u32 (dim_num tt) ->
  Forall (fun c => shard_pos c.1 c.2 /\ global_shape c.1 = global_shape tk /\ dtype c.2 = dtype tt) cands ->
  shard_pos tk tt -> prod (global_shape tk) <= max_i64 -> covered_by cands tk tt ->
  ValidateCandidateFilterParams cands tk tt = Ok ().
Proof.
  intros Hne Hd Hu Hc Ht Hp Hcov. unfold ValidateCandidateFilterParams.
  rewrite bool_decide_false by done. cbn [throw_if mbind result_bind].
  rewrite u64_small by (unfold in_u32, in_u64 in *; lia). rewrite Hd, Z.eqb_refl. cbn.
  pose proof Ht as (tsz & Es & H3).
  rewrite (for_each_total (check_target_dim tk tt)).
  2:{ intros i Hi%elem_of_seqZ_0.
      destruct (pos_lookup _ _ _ (Z.to_nat i) H3 Hp) as (g & o & s & Eg & Eo & Ez & ? & ? & ? & ?); [lia|].
      unfold check_target_dim, max_i64 in *. rewrite (size_at_Some _ _ _ Es).
      rewrite (proj2 (index_Ok (global_shape tk) i g)), (proj2 (index_Ok (global_offset tk) i o)),
        (proj2 (index_Ok tsz i s)) by (split; [lia|done]).
      cbn. rewrite chk64_small by (unfold in_i64; lia). cbn.
      by rewrite (proj2 (Z.ltb_ge _ _)) by lia. }
  cbn. rewrite (for_each_total (check_candidate tk tt)).
  2:{ intros c Hin. destruct (proj1 (Forall_forall _ _) Hc c Hin) as (_ & Eg & Ed).
      unfold check_candidate. rewrite Eg, Nat.eqb_refl, bool_decide_true by done. cbn.
      apply for_each_total. intros i Hi%elem_of_seqZ_0. unfold check_candidate_dim. rewrite Eg.
      destruct (lookup_lt_is_Some_2 (global_shape tk) (Z.to_nat i)) as [g Hg]; [lia|].
      rewrite (proj2 (index_Ok (global_shape tk) i g)) by (split; [lia|done]).
      cbn. by rewrite Z.eqb_refl. }
  cbn. apply coverage_complete; auto. eapply Forall_impl; [exact Hc|]. naive_solver.
Qed.

Lemma intersect_loop_total gs co csz cs to tsz ts n i :
  (forall j, 0 <= j < Z.of_nat (length csz) -> cs j = index csz j) ->
  (forall j, 0 <= j < Z.of_nat (length tsz) -> ts j = index tsz j) ->
  box_pos gs co csz -> box_pos gs to tsz -> prod gs <= max_i64 -> (i + n = length gs)%nat ->
  exists r, intersect_loop co cs to ts (seqZ (Z.of_nat i) (Z.of_nat n)) = Ok r /\
    (forall l, r = Some l -> length l = n /\ Forall (fun ab => 0 <= ab.1 <= ab.2 /\ ab.2 <= max_i64) l).
Proof.
  intros Ec Et Hc Ht Hp.
  destruct (Forall3_lengths _ _ _ _ Hc) as [_ Hlc], (Forall3_lengths _ _ _ _ Ht) as [_ Hlt].
  revert i. induction n as [|n IH]; intros i Hi.
  { eexists. split; [reflexivity|]. intros l [= <-]. by repeat constructor. }
  rewrite seqZ_cons by lia. cbn [intersect_loop].
  replace (Z.succ (Z.of_nat i)) with (Z.of_nat (S i)) by lia.
  replace (Z.pred (Z.of_nat (S n))) with (Z.of_nat n) by lia.
  destruct (pos_lookup gs co csz i Hc Hp) as (g & o & s & ? & Eo & Ez & ? & ? & ? & ?); [lia|].
  destruct (pos_lookup gs to tsz i Ht Hp) as (g' & o' & s' & ? & Eo' & Ez' & ? & ? & ? & ?); [lia|].
  unfold dim_intersect. rewrite Ec, Et by lia.
  rewrite (index_nat _ _ _ Eo), (index_nat _ _ _ Ez), (index_nat _ _ _ Eo'), (index_nat _ _ _ Ez').
  unfold max_i64 in *. cbn [mbind result_bind].
  rewrite (chk64_small (o + s)), (chk64_small (o' + s')) by (unfold in_i64; lia). cbn [mbind result_bind].
  destruct (Z.leb_spec (Z.min (o + s) (o' + s')) (Z.max o o')); [eexists; split; [done|]; done|].
  destruct (IH (S i)) as (r & -> & Hr); [lia|]. cbn [mbind result_bind].
  destruct r as [l|]; eexists; (split; [reflexivity|]); [|done].
  intros ? [= <-]. destruct (Hr l eq_refl) as [Hl HF]. cbn. split; [lia|].
  constructor; [cbn; lia|done].
Qed.

Lemma sub_offsets_total l off (i : nat) :
  (i + length l <= length off)%nat -> Forall (fun ab => 0 <= ab.1 <= ab.2 /\ ab.2 <= max_i64) l ->
  Forall (fun o => 0 <= o <= max_i64) off -> exists ds, sub_offsets l off (Z.of_nat i) = Ok ds.
Proof.
  intros Hl HF Ho. revert i Hl. induction HF as [|[a b] l Hab _ IH]; intros i Hl; cbn [sub_offsets]; [eauto|].
  cbn in Hl. destruct (lookup_lt_is_Some_2 off i ltac:(lia)) as [o Hoi].
  pose proof (Forall_lookup_1 _ _ _ _ Ho Hoi) as Hob. cbn in Hob, Hab. unfold max_i64 in *.
  rewrite (index_nat _ _ _ Hoi). cbn. rewrite chk64_small by (unfold in_i64; lia). cbn.
  replace (Z.of_nat i + 1) with (Z.of_nat (S i)) by lia.
  destruct (IH (S i)) as [ds ->]; [lia|]. cbn. eauto.
Qed.

Lemma offsets_bounded gs off sz :
  box_pos gs off sz -> prod gs <= max_i64 -> Forall (fun o => 0 <= o <= max_i64) off.
Proof.
  intros H Hp. apply Forall_lookup. intros i o Ho.
  destruct (Forall3_lengths _ _ _ _ H) as [Hl _].
  destruct (pos_lookup gs off sz i H Hp) as (g & o' & s & ? & E & ? & ? & ? & ? & ?).
  { rewrite <-Hl. by eapply lookup_lt_Some. }
  simplify_eq. lia.
Qed.

Lemma make_copy_op_total gs csz tsz idx ck tk l :
  box_pos gs (global_offset ck) csz -> box_pos gs (global_offset tk) tsz -> prod gs <= max_i64 ->
  length l = length gs -> Forall (fun ab => 0 <= ab.1 <= ab.2 /\ ab.2 <= max_i64) l ->
  exists op, make_copy_op idx ck tk l = Ok op.
Proof.
  intros Hc Ht Hp Hl HF.
  destruct (Forall3_lengths _ _ _ _ Hc) as [Hlc _], (Forall3_lengths _ _ _ _ Ht) as [Hlt _].
  unfold make_copy_op.
  destruct (sub_offsets_total l (global_offset ck) 0) as [d1 E1];
    [lia|done|by apply (offsets_bounded gs _ csz)|].
  destruct (sub_offsets_total l (global_offset tk) 0) as [d2 E2];
    [lia|done|by apply (offsets_bounded gs _ tsz)|].
  change (Z.of_nat 0) with 0 in E1, E2.
  rewrite E1; cbn [mbind result_bind]; rewrite E2; cbn [mbind result_bind].
  destruct (map_result_total (fun ab : Z * Z => chk64 (ab.2 - ab.1)) (fun _ => True) l) as (sh & -> & _).
  { intros ab Hab. pose proof (proj1 (Forall_forall _ _) HF _ Hab) as Hb. cbn in Hb.
    unfold max_i64 in *. rewrite chk64_small by (unfold in_i64; lia). eauto. }
  cbn. eauto.
Qed.

Lemma find_loop_total idx cands tk tt :
  Forall (fun c => shard_pos c.1 c.2 /\ global_shape c.1 = global_shape tk) cands ->
  shard_pos tk tt -> prod (global_shape tk) <= max_i64 ->
  exists ops, FindCoveringCandidatesUnsafe_loop idx cands tk tt = Ok ops.
Proof.
  intros Hc (tsz & Et & Ht) Hp. revert idx.
  induction Hc as [|[ck ct] cands [(csz & Ec & Hck) Eg] _ IH]; intros idx;
    cbn [FindCoveringCandidatesUnsafe_loop]; [eauto|]. cbn [fst snd] in *. rewrite Eg in Hck.
  destruct (intersect_loop_total (global_shape tk) (global_offset ck) csz (size_at ct)
    (global_offset tk) tsz (size_at tt) (length (global_shape tk)) 0) as (r & E & Hr); auto;
    [intros; by apply size_at_Some..|].
  change (Z.of_nat 0) with 0 in E. rewrite E. cbn [mbind result_bind].
  destruct (IH (idx + 1)) as [ops ->].
  destruct r as [l|]; [|eauto]. destruct (Hr l eq_refl) as [Hl HF].
  destruct (make_copy_op_total (global_shape tk) csz tsz idx ck tk l) as [op ->]; auto.
  cbn. eauto.
Qed.

(** ** Lemmas: copying shards into a target *)

Lemma inter_list_point_inv co cs to ts c :
  length cs = length co -> length to = length co -> length ts = length co -> length c = length co ->
  in_box (zip_with (fun ab o => ab.1 - o) (inter_list co cs to ts) to)
    (map (fun ab => ab.2 - ab.1) (inter_list co cs to ts)) (zip_with Z.sub c to) ->
  in_box co cs c.
Proof.
  revert cs to ts c. induction co as [|o co IH]; intros [|s cs] [|o' to] [|s' ts] [|x c]; cbn; try lia.
  - intros. by apply in_box_nil.
  - intros ? ? ? ? (y & ys & [= <- <-] & Hx & H)%in_box_cons.
    apply in_box_cons. do 2 eexists. split; [done|]. split; [lia|].
    apply (IH cs to ts c); [lia..|done].
Qed.

#[export] Instance in_box_dec off sz c : Decision (in_box off sz c).
Proof.
  revert sz c. induction off as [|o off IH]; intros [|s sz] [|x c];
    try (right; by inversion 1).
  - left. constructor.
  - destruct (IH sz c) as [H|H].
    + destruct (decide (o <= x < o + s)) as [Hx|Hx]; [left; by constructor|].
      right. by inversion 1.
    + right. by inversion 1.
Defined.

Section CopySpec.
Context {T V : Type} (tensor_size : T -> Z -> result Z)
  (narrow_copy : T -> T -> list Z -> list Z -> list Z -> result T)
  (sizes : T -> list Z) (elem : T -> list Z -> V).

(** [Tensor::size(i)] is the [i]-th size. *)
Definition size_spec : Prop :=
  forall t i x, sizes t !! i = Some x -> tensor_size t (Z.of_nat i) = Ok x.

(** [narrow] along every dimension selects a box, and [copy_] overwrites the
    elements of the target's box with those of the source's. *)
Definition narrow_copy_spec : Prop :=
  forall src tgt so to sh,
    Forall3 (fun o n s => 0 <= o /\ 0 < n /\ o + n <= s) so sh (sizes src) ->
    Forall3 (fun o n s => 0 <= o /\ 0 < n /\ o + n <= s) to sh (sizes tgt) ->
    exists tgt', narrow_copy src tgt so to sh = Ok tgt' /\ sizes tgt' = sizes tgt /\
      forall p, elem tgt' p =
        if decide (in_box to sh p)
        then elem src (zip_with Z.add (zip_with Z.sub p to) so) else elem tgt p.

(** The shard [sk], [src] of a global tensor of shape [gs] and contents [G]. *)
Definition shard_of (gs : list Z) (G : list Z -> V) (sk : ShardedKey) (src : T) : Prop :=
  global_shape sk = gs /\
  box_pos gs (global_offset sk) (sizes src) /\
  forall c, in_box (global_offset sk) (sizes src) c -> elem src (local sk c) = G c.

Hypothesis Hsize : size_spec.
Hypothesis Hcopy : narrow_copy_spec.

Lemma size_index t j : 0 <= j < Z.of_nat (length (sizes t)) -> tensor_size t j = index (sizes t) j.
Proof.
  intros Hj. destruct (lookup_lt_is_Some_2 (sizes t) (Z.to_nat j)) as [x Hx]; [lia|].
  pose proof (Hsize t (Z.to_nat j) x Hx) as E. rewrite Z2Nat.id in E by lia.
  rewrite E. symmetry. apply index_Ok. split; [lia|done].
Qed.
Lemma copy_one gs G sk src tk tgt :
  shard_of gs G sk src -> global_shape tk = gs -> box_pos gs (global_offset tk) (sizes tgt) ->
  prod gs <= max_i64 ->
  exists b tgt', CopyTensorWithShardedKeysUnsafe tensor_size narrow_copy sk src tk tgt = Ok (b, tgt') /\
    sizes tgt' = sizes tgt /\
    forall c, in_box (global_offset tk) (sizes tgt) c ->
      elem tgt' (local tk c) =
        if decide (in_box (global_offset sk) (sizes src) c) then G c else elem tgt (local tk c).
Proof.
  intros (Eg & Hs & HG) Etk Ht Hp.
  destruct (Forall3_lengths _ _ _ _ Hs) as [Hls1 Hls2], (Forall3_lengths _ _ _ _ Ht) as [Hlt1 Hlt2].
  unfold CopyTensorWithShardedKeysUnsafe. rewrite Eg.
  destruct (intersect_loop_total gs (global_offset sk) (sizes src) (tensor_size src)
    (global_offset tk) (sizes tgt) (tensor_size tgt) (length gs) 0) as (r & E & Hr);
    [by apply size_index..|done|done|done|done|].
  pose proof (intersect_loop_Ok (global_offset sk) (sizes src) (global_offset tk) (sizes tgt)
    (tensor_size src) (tensor_size tgt) (length gs) O r (size_index src) (size_index tgt) ltac:(lia) ltac:(lia) ltac:(lia) E) as Hl.
  cbn zeta in Hl. rewrite !drop_0 in Hl. change (Z.of_nat 0) with 0 in E. rewrite E. cbn [mbind result_bind].
  destruct r as [l|].
  - destruct Hl as [-> HF]. destruct (Hr _ eq_refl) as [Hlen Hbnd].
    destruct (make_copy_op_total gs (sizes src) (sizes tgt) 0 sk tk _ Hs Ht Hp Hlen Hbnd) as [op Eop].
    rewrite Eop. cbn [mbind result_bind]. apply make_copy_op_Ok in Eop as ->. cbn.
    destruct (inter_list_within (global_offset sk) (sizes src) (global_offset tk) (sizes tgt))
      as [Hw1 Hw2]; [lia..|done|].
    destruct (Hcopy _ _ _ _ _ Hw1 Hw2) as (tgt' & -> & Hsz & Hel). cbn.
    do 2 eexists. split; [done|]. split; [done|]. intros c Hc. rewrite Hel.
    destruct (decide (in_box (global_offset sk) (sizes src) c)) as [Hin|Hout].
    + destruct (inter_list_point _ _ _ _ _ Hin Hc) as (_ & Hp1 & Hp2).
      rewrite decide_True by exact Hp1. rewrite <-HG by done. unfold local. by rewrite Hp2.
    + rewrite decide_False; [done|]. intros Hp1. apply Hout.
      destruct (Forall3_lengths _ _ _ _ Hc) as [_ Hlc].
      apply (inter_list_point_inv _ _ (global_offset tk) (sizes tgt)); [lia..|exact Hp1].
  - do 2 eexists. split; [done|]. split; [done|]. intros c Hc.
    rewrite decide_False; [done|]. intros Hin.
    destruct (inter_list_point _ _ _ _ _ Hin Hc) as (HF & _).
    apply Exists_exists in Hl as (ab & Hab & Hne). apply Hne.
    exact (proj1 (Forall_forall _ _) HF _ Hab).
Qed.

Lemma copy_all_spec gs G tensors tk tgt :
  Forall (fun p => shard_of gs G p.1 p.2) tensors -> global_shape tk = gs ->
  box_pos gs (global_offset tk) (sizes tgt) -> prod gs <= max_i64 ->
  exists tgt', copy_all tensor_size narrow_copy tensors tk tgt = Ok tgt' /\ sizes tgt' = sizes tgt /\
    forall c, in_box (global_offset tk) (sizes tgt) c ->
      ((exists p, p ∈ tensors /\ in_box (global_offset p.1) (sizes p.2) c) ->
         elem tgt' (local tk c) = G c) /\
      (elem tgt (local tk c) = G c -> elem tgt' (local tk c) = G c).
Proof.
  intros H Etk. revert tgt. induction H as [|[sk src] tensors Hs _ IH]; intros tgt Ht Hp; cbn.
  { eexists. split; [done|]. split; [done|]. intros c _. split; [|done]. intros (? & ? & _). set_solver. }
  destruct (copy_one gs G sk src tk tgt Hs Etk Ht Hp) as (b & t1 & -> & Hsz & Hel). cbn.
  destruct (IH t1) as (tgt' & -> & Hsz' & Hel'); [by rewrite Hsz|done|].
  eexists. split; [done|]. split; [by rewrite Hsz'|].
  intros c Hc. rewrite Hsz in Hel'. destruct (Hel' c Hc) as [H1 H2]. specialize (Hel c Hc). split.
  - intros (p & [->|Hp']%elem_of_cons & Hin); [|apply H1; eauto].
    apply H2. rewrite Hel. by rewrite decide_True.
  - intros Eold. apply H2. rewrite Hel. by destruct (decide _).
Qed.
End CopySpec.

(** ** Properties *)

(** C2: when the planner accepts a target, its copy operations are right and
    complete.  Every operation names a candidate and stays within the sizes of the
    candidate and of the target; every element it writes gets the element of the
    candidate that has the same global coordinate; and every element of the target
    is written by some operation.  The candidates and the target are shards that lie
    within their global shapes, which the planner does not check. *)
Theorem find_covering_sound cands tk tt ops :
  Forall (fun cand => shard_ok cand.1 cand.2) cands -> shard_ok tk tt ->
  FindCoveringCandidates cands tk tt = Ok ops ->
  (forall op, op ∈ ops -> exists (j : nat) ck ct csz tsz, candidate_index op = Z.of_nat j /\
     cands !! j = Some (ck, ct) /\ at_size ct = Some csz /\ at_size tt = Some tsz /\
     op_within op csz tsz /\ op_exact op ck csz tk tsz) /\
  (forall c, in_shard tk tt c -> exists op (j : nat) ck ct, op ∈ ops /\ candidate_index op = Z.of_nat j /\
     cands !! j = Some (ck, ct) /\ in_shard ck ct c /\ op_copies op ck tk c).
Proof.
  intros Hc Ht H. unfold FindCoveringCandidates in H. ok_inv H.
  apply validate_Ok in E as [Hg Hcov].
  assert (Hok : Forall (cand_ok tk) cands) by (apply Forall_and; done). split.
  - exact (find_loop_within 0 cands tk tt ops Hok Ht H).
  - intros c Hin. destruct (coverage_sound _ _ _ _ _ Hok Ht Hcov Hin) as (j & ck & ct & Hj & Hcin).
    destruct (find_loop_copies _ _ _ _ _ Hok Ht H j ck ct c Hj Hcin Hin) as (op & ? & ? & ?).
    exists op, j, ck, ct. split_and!; auto.
Qed.

(** Two row shards and a target across their boundary. *)
Definition demo_tensor (sz : list Z) : ATensor :=
  MkATensor (Some sz) (Some [4; 1]) 0 2 ATDtype.Float false false false
    (MkATStorage 64 (MkATDevice ATDeviceType.CPU 0) 4096).

Definition demo_cands : list (ShardedKey * ATensor) :=
  [(MkShardedKey "w" [4; 4] [0; 0], demo_tensor [2; 4]);
   (MkShardedKey "w" [4; 4] [2; 0], demo_tensor [2; 4])].

Definition demo_target : ShardedKey := MkShardedKey "w" [4; 4] [1; 1].

Definition demo_copy_ops : list CopyOperation :=
  [MkCopyOperation 0 [1; 1] [0; 0] [1; 3]; MkCopyOperation 1 [0; 1] [1; 0] [1; 3]].

Lemma find_covering_sound_witness :
  FindCoveringCandidates demo_cands demo_target (demo_tensor [2; 3]) = Ok demo_copy_ops /\
  forall op, op ∈ demo_copy_ops -> exists (j : nat) ck ct csz tsz, candidate_index op = Z.of_nat j /\
    demo_cands !! j = Some (ck, ct) /\ at_size ct = Some csz /\ at_size (demo_tensor [2; 3]) = Some tsz /\
    op_within op csz tsz /\ op_exact op ck csz demo_target tsz.
Proof.
  split; [vm_compute; reflexivity|].
  apply (find_covering_sound demo_cands demo_target (demo_tensor [2; 3])).
  - repeat constructor; cbn; eexists; (split; [reflexivity|]); cbn; repeat constructor; lia.
  - eexists; (split; [reflexivity|]); cbn; repeat constructor; lia.
  - vm_compute; reflexivity.
Defined.

(** C5: the interval arithmetic of the planner decides exactly the coverage of
    boxes: it accepts a target if and only if every element of the target is an
    element of some candidate, when there is a candidate, the shards are nonempty
    boxes within one global shape of fewer than 2^63 elements, and the candidates
    have the data type of the target, whose number of dimensions is that shape's. *)
Theorem find_covering_iff_covered cands tk tt :
  cands <> [] -> dim_num tt = Z.of_nat (length (global_shape tk)) -> in_u32 (dim_num tt) ->
  Forall (fun c => shard_pos c.1 c.2 /\ global_shape c.1 = global_shape tk /\ dtype c.2 = dtype tt) cands ->
  shard_pos tk tt -> prod (global_shape tk) <= max_i64 ->
  (exists ops, FindCoveringCandidates cands tk tt = Ok ops) <-> covered_by cands tk tt.
Proof.
  intros Hne Hd Hu Hc Ht Hp. split.
  - intros [ops H] c Hin. unfold FindCoveringCandidates in H. ok_inv H. apply validate_Ok in E as [_ Hcov].
    destruct (coverage_sound cands tk tt a c) as (j & ck & ct & Hj & ?); [|by apply shard_pos_ok|done..|].
    + eapply Forall_impl; [exact Hc|]. intros p (Hp' & ? & _). split; [by apply shard_pos_ok|done].
    + exists ck, ct. split; [by eapply list_elem_of_lookup_2|done].
  - intros Hcov. unfold FindCoveringCandidates.
    rewrite (validate_total _ _ _ Hne Hd Hu Hc Ht Hp Hcov). cbn [mbind result_bind].
    apply find_loop_total; [|done..]. eapply Forall_impl; [exact Hc|]. naive_solver.
Qed.

Lemma find_covering_iff_covered_witness :
  exists ops, FindCoveringCandidates demo_cands demo_target (demo_tensor [2; 3]) = Ok ops.
Proof.
  apply find_covering_iff_covered; [done|done|split; cbn; lia|..].
  - repeat constructor; cbn; try reflexivity;
      (eexists; split; [reflexivity|]); cbn; repeat constructor; lia.
  - eexists; (split; [reflexivity|]); cbn; repeat constructor; lia.
  - vm_compute. discriminate.
  - intros c (sz & [= <-] & H). apply in_box_cons in H as (x & cs & -> & Hx & H).
    apply in_box_cons in H as (y & cs' & -> & Hy & H). apply in_box_nil in H as ->.
    cbn in Hx, Hy. destruct (decide (x < 2)).
    + do 2 eexists. split; [left|]. eexists. split; [reflexivity|]. cbn. repeat constructor; lia.
    + do 2 eexists. split; [right; left|]. eexists. split; [reflexivity|]. cbn. repeat constructor; lia.
Defined.

(** C7: copying shards into a target restores the global tensor on the target:
    if the shards read agree with a global tensor and together cover the target,
    the copies return and every element of the target is the global element at
    its coordinate, whatever it was before and in whatever order they are made. *)
Theorem copy_shards_correct {T V : Type} tensor_size narrow_copy (sizes : T -> list Z)
    (elem : T -> list Z -> V) gs G tensors tk tgt :
  size_spec tensor_size sizes -> narrow_copy_spec narrow_copy sizes elem ->
  Forall (fun p => shard_of sizes elem gs G p.1 p.2) tensors ->
  global_shape tk = gs -> box_pos gs (global_offset tk) (sizes tgt) -> prod gs <= max_i64 ->
  (forall c, in_box (global_offset tk) (sizes tgt) c ->
     exists p, p ∈ tensors /\ in_box (global_offset p.1) (sizes p.2) c) ->
  exists tgt', copy_all tensor_size narrow_copy tensors tk tgt = Ok tgt' /\
    forall c, in_box (global_offset tk) (sizes tgt) c -> elem tgt' (local tk c) = G c.
Proof.
  intros Hsize Hcopy Hs Etk Ht Hp Hcov.
  destruct (copy_all_spec tensor_size narrow_copy sizes elem Hsize Hcopy gs G tensors tk tgt Hs Etk Ht Hp)
    as (tgt' & E & _ & Hel).
  exists tgt'. split; [done|]. intros c Hc. apply (proj1 (Hel c Hc)). by apply Hcov.
Qed.

(** Tensors as sizes and an element function. *)
Definition fun_tensor : Type := list Z * (list Z -> Z).

Definition fun_size (t : fun_tensor) (i : Z) : result Z := index t.1 i.

Definition fun_narrow_copy (src tgt : fun_tensor) (so to sh : list Z) : result fun_tensor :=
  Ok (tgt.1, fun p => if decide (in_box to sh p)
                      then src.2 (zip_with Z.add (zip_with Z.sub p to) so) else tgt.2 p).

Definition demo_global (c : list Z) : Z :=
  match c with [x; y] => 10 * x + y | _ => 0 end.

Lemma copy_shards_correct_witness :
  exists tgt',
    copy_all fun_size fun_narrow_copy
      [(MkShardedKey "w" [4; 4] [0; 0], ([2; 4], demo_global));
       (MkShardedKey "w" [4; 4] [2; 0], ([2; 4], fun c => demo_global (zip_with Z.add c [2; 0])))]
      demo_target ([2; 3], fun _ => 0) = Ok tgt' /\
    forall c, in_box [1; 1] [2; 3] c -> tgt'.2 (local demo_target c) = demo_global c.
Proof.
  apply (copy_shards_correct fun_size fun_narrow_copy fst snd [4; 4] demo_global).
  - intros t i x H. by apply index_nat.
  - intros src tgt so to sh _ _. eexists. split; [reflexivity|]. by split.
  - apply Forall_cons. split; [|apply Forall_cons; split; [|done]]; (split; [done|]);
      (split; [repeat constructor; lia|]); intros c H;
      apply in_box_cons in H as (x & cs & -> & Hx & H);
      apply in_box_cons in H as (y & cs' & -> & Hy & H); apply in_box_nil in H as ->; cbn; lia.
  - done.
  - cbn. repeat constructor; lia.
  - vm_compute. discriminate.
  - intros c H. cbn in H. apply in_box_cons in H as (x & cs & -> & Hx & H).
    apply in_box_cons in H as (y & cs' & -> & Hy & H). apply in_box_nil in H as ->.
    destruct (decide (x < 2)).
    + eexists. split; [left|]. cbn. repeat constructor; lia.
    + eexists. split; [right; left|]. cbn. repeat constructor; lia.
Defined.

(** The planner does not check that a candidate lies within the global
    tensor: a candidate row that runs past the end of its row is counted as
    covering the next row, so a target is accepted although no copy operation
    writes its second row. *)
Theorem find_covering_unchecked_candidate :
  exists cands tk tt ops,
    shard_ok tk tt /\ FindCoveringCandidates cands tk tt = Ok ops /\ in_shard tk tt [1; 0] /\
    forall op, op ∈ ops -> ~ in_box (target_offset op) (copy_shape op) (local tk [1; 0]).
Proof.
  exists [(MkShardedKey "w" [2; 2] [0; 0], demo_tensor [1; 1]);
          (MkShardedKey "w" [2; 2] [0; 1], demo_tensor [1; 3])],
    (MkShardedKey "w" [2; 2] [0; 0]), (demo_tensor [2; 2]).
  eexists. split; [eexists; split; [reflexivity|]; cbn; repeat constructor; lia|].
  split; [vm_compute; reflexivity|].
  split; [eexists; split; [reflexivity|]; cbn; repeat constructor; lia|].
  intros op [->|[->|[]%not_elem_of_nil]%elem_of_cons]%elem_of_cons;
    intros (x & cs & [= <- <-] & Hx & _)%in_box_cons; lia.
Qed.
