(* ===== verification/Messages.v ===== *)
(** * Control messages and their JSON form

    protocol/messages.h and protocol/messages.cpp.  JsonCpp is not part of the
    sources: its operations are the class [JsonLib], an argument of every
    definition that uses them, and what the code relies on is the class
    [JsonLaws], stated through the JSON document a value stands for. *)

From S2P Require Import Prelude StringUtils Tensor.
Local Open Scope Z_scope.

(** ** JsonCpp *)

(** [Json::ValueType] *)
Inductive ValueType : Type :=
| nullValue | intValue | uintValue | realValue | stringValue | booleanValue | arrayValue
| objectValue.

#[export] Instance value_type_eq_dec : EqDecision ValueType.
Proof. solve_decision. Defined.

(** The operations of [Json::Value], [Json::writeString] and
    [Json::parseFromStream].  Operations that throw on a value of the wrong
    type return a [result]. *)
Class JsonLib : Type := {
  Value : Type;
  json_null : Value; (* Json::Value() *)
  json_array : Value; (* Json::Value(Json::arrayValue) *)
  json_object : Value; (* Json::Value(Json::objectValue) *)
  of_int : Z -> Value; (* Value(Int), Value(Int64) *)
  of_uint : Z -> Value; (* Value(UInt64) *)
  of_string : string -> Value;
  of_bool : bool -> Value;
  set_member : Value -> string -> Value -> Value; (* root[key] = v *)
  append : Value -> Value -> Value;
  vtype : Value -> ValueType;
  isMember : Value -> string -> result bool;
  member : Value -> string -> result Value; (* root[key], const *)
  elements : Value -> list Value; (* begin() .. end() of an array *)
  getMemberNames : Value -> list string;
  asString : Value -> result string;
  asInt : Value -> result Z;
  asInt64 : Value -> result Z;
  asUInt64 : Value -> result Z;
  asBool : Value -> result bool;
  isInt : Value -> bool;
  isInt64 : Value -> bool;
  writeString : Value -> string;
  parseFromStream : string -> option Value;
}.

(** ** Message types *)

Record NodeInfo : Type := MkNodeInfo {
  hostname_or_ip : string;
  rdma_port : Z; (* int *)
  ctrl_flow_port : Z; (* int *)
}.

#[export] Instance node_info_eq_dec : EqDecision NodeInfo.
Proof. solve_decision. Defined.

#[export] Program Instance node_info_countable : Countable NodeInfo :=
  inj_countable' (fun n => (hostname_or_ip n, rdma_port n, ctrl_flow_port n))
    (fun '(a, b, c) => MkNodeInfo a b c) _.
Next Obligation. by intros []. Qed.

Definition GetHostWithRdmaPort (n : NodeInfo) : string :=
  (hostname_or_ip n ++ ":" ++ to_string (rdma_port n))%string.

Definition PEERS_HOST_STR_LEN : nat := 3.

(** One iteration of [GetNodeInfos]: a host that does not have three fields is
    logged and skipped. *)
Definition node_info_of_host (host : string) : result (option NodeInfo) :=
  match SplitString host COLON with
  | [h; r; c] => rp ← stoi r; cp ← stoi c; Ok (Some (MkNodeInfo h rp cp))
  | _ => Ok None
  end.

Definition GetNodeInfos (peers_host : list string) : result (list NodeInfo) :=
  for_each (fun host nodes =>
    n ← node_info_of_host host;
    Ok (match n with Some node_info => nodes ++ [node_info] | None => nodes end)) peers_host [].

Record TensorMemoryRDMAInfo : Type := MkTensorMemoryRDMAInfo {
  mi_addr : Z; (* void* *)
  mi_size : Z; (* size_t *)
  mi_rkey : string;
  atensor_meta : ATensor;
}.

Record TensorRDMAMetaPublishMessage : Type := MkTensorRDMAMetaPublishMessage {
  pm_seq_id : Z; (* int64_t *)
  pm_node_info : NodeInfo;
  tensor_rdma_metas : gmap ShardedKey TensorMemoryRDMAInfo;
}.

Record WeightReadyMessage : Type := MkWeightReadyMessage {
  wr_seq_id : Z; (* int64_t *)
  wr_node_info : NodeInfo;
}.

Record WeightConsumedMessage : Type := MkWeightConsumedMessage {
  wc_seq_id : Z; (* int64_t *)
  wc_node_info : NodeInfo;
}.

(** ** Enumerations as integers

    [static_cast] of an [int] to an enumeration with underlying type
    [int8_t]; a value that names no enumerator is outside of the model. *)

Definition i8 (x : Z) : Z := (x + 2 ^ 7) mod 2 ^ 8 - 2 ^ 7.

Definition device_type_code (d : ATDeviceType.t) : Z :=
  match d with
  | ATDeviceType.UNKNOWN_DEV => -1
  | ATDeviceType.CPU => 0
  | ATDeviceType.CUDA => 1
  end.

Definition cast_device_type (z : Z) : result ATDeviceType.t :=
  if i8 z =? -1 then Ok ATDeviceType.UNKNOWN_DEV
  else if i8 z =? 0 then Ok ATDeviceType.CPU
  else if i8 z =? 1 then Ok ATDeviceType.CUDA
  else Undef.

Definition all_dtypes : list ATDtype.t :=
  [ATDtype.Undefined; ATDtype.Byte; ATDtype.Char; ATDtype.Short; ATDtype.Int;
   ATDtype.Long; ATDtype.Half; ATDtype.Float; ATDtype.Double; ATDtype.ComplexHalf;
   ATDtype.ComplexFloat; ATDtype.ComplexDouble; ATDtype.Bool; ATDtype.QInt8;
   ATDtype.QUInt8; ATDtype.QInt32; ATDtype.BFloat16; ATDtype.QUInt4x2; ATDtype.QUInt2x4;
   ATDtype.Bits1x8; ATDtype.Bits2x4; ATDtype.Bits4x2; ATDtype.Bits8; ATDtype.Bits16;
   ATDtype.Float8_e5m2; ATDtype.Float8_e4m3fn; ATDtype.Float8_e5m2fnuz;
   ATDtype.Float8_e4m3fnuz; ATDtype.UInt16; ATDtype.UInt32; ATDtype.UInt64;
   ATDtype.UInt1; ATDtype.UInt2; ATDtype.UInt3; ATDtype.UInt4; ATDtype.UInt5;
   ATDtype.UInt6; ATDtype.UInt7; ATDtype.Int1; ATDtype.Int2; ATDtype.Int3; ATDtype.Int4;
   ATDtype.Int5; ATDtype.Int6; ATDtype.Int7; ATDtype.Float8_e8m0fnu].

Definition cast_dtype (z : Z) : result ATDtype.t :=
  match list_find (fun d => ATDtype.code d = i8 z) all_dtypes with
  | Some (_, d) => Ok d
  | None => Undef
  end.

(** ** Serialization *)

Section Json.
Context `{JsonLib}.

Definition checkRequiredField (root : Value) (field : string) : result unit :=
  b ← isMember root field;
  throw_if (negb b) ("Missing required field: " ++ field)%string.

Definition checkFieldType (root : Value) (field : string) (type : ValueType) : result unit :=
  v ← member root field;
  throw_if (negb (bool_decide (vtype v = type))) ("Invalid type for field: " ++ field)%string.

Definition toJson_NodeInfo (info : NodeInfo) : Value :=
  let root := json_null in
  let root := set_member root "hostname_or_ip" (of_string (hostname_or_ip info)) in
  let root := set_member root "rdma_port" (of_int (rdma_port info)) in
  set_member root "ctrl_flow_port" (of_int (ctrl_flow_port info)).

Definition fromJson_NodeInfo (root : Value) : result NodeInfo :=
  checkRequiredField root "hostname_or_ip";;
  checkRequiredField root "rdma_port";;
  checkRequiredField root "ctrl_flow_port";;
  checkFieldType root "hostname_or_ip" stringValue;;
  checkFieldType root "rdma_port" intValue;;
  checkFieldType root "ctrl_flow_port" intValue;;
  h ← (v ← member root "hostname_or_ip"; asString v);
  rdma_port ← (v ← member root "rdma_port"; asInt v);
  ctrl_flow_port ← (v ← member root "ctrl_flow_port"; asInt v);
  throw_if ((rdma_port <=? 0) || (65535 <? rdma_port)) "Invalid RDMA port number: ";;
  throw_if ((ctrl_flow_port <=? 0) || (65535 <? ctrl_flow_port))
    "Invalid control flow port number: ";;
  Ok (MkNodeInfo h rdma_port ctrl_flow_port).

Definition toJson_ATDeviceType (device_type : ATDeviceType.t) : Value :=
  of_int (device_type_code device_type).

Definition fromJsonDeviceType (json : Value) : result ATDeviceType.t :=
  throw_if (negb (isInt json)) "Invalid ATDeviceType JSON format";;
  n ← asInt json; cast_device_type n.

Definition toJson_ATDevice (device : ATDevice) : Value :=
  let root := json_null in
  let root := set_member root "device_type" (toJson_ATDeviceType (device_type device)) in
  set_member root "device_index" (of_int (device_index device)).

Definition fromJsonDevice (root : Value) : result ATDevice :=
  checkRequiredField root "device_type";;
  checkRequiredField root "device_index";;
  checkFieldType root "device_type" intValue;;
  checkFieldType root "device_index" intValue;;
  dt ← (v ← member root "device_type"; fromJsonDeviceType v);
  di ← (v ← member root "device_index"; asInt v);
  Ok (MkATDevice dt (i8 di)).

Definition toJson_ATStorage (storage : ATStorage) : Value :=
  let root := json_null in
  let root := set_member root "storage_size" (of_uint (storage_size storage)) in
  set_member root "device" (toJson_ATDevice (device storage)).

Definition fromJsonStorage (root : Value) : result ATStorage :=
  checkRequiredField root "storage_size";;
  checkRequiredField root "device";;
  checkFieldType root "device" objectValue;;
  sz ← (v ← member root "storage_size"; asUInt64 v);
  dev ← (v ← member root "device"; fromJsonDevice v);
  Ok (MkATStorage sz dev 0).

(** [array.append(Json::Value::Int64(x))] for the elements of a list. *)
Definition int_array (l : list Z) : Value :=
  foldl (fun a x => append a (of_int x)) json_array l.

(** The size or stride array of a tensor: [dim_num] elements read through the
    pointer, none when it is null. *)
Definition dims_array (p : option (list Z)) (dim_num : Z) : result Value :=
  match p with
  | Some l => if 0 <? dim_num then l' ← copy_array l dim_num; Ok (int_array l')
              else Ok json_array
  | None => Ok json_array
  end.

Definition toJson_ATensor (atensor : ATensor) : result Value :=
  let root := json_null in
  let root := set_member root "storage_offset" (of_int (storage_offset atensor)) in
  let root := set_member root "dim_num" (of_int (dim_num atensor)) in
  let root := set_member root "dtype" (of_int (ATDtype.code (dtype atensor))) in
  let root := set_member root "conj" (of_bool (at_conj atensor)) in
  let root := set_member root "neg" (of_bool (at_neg atensor)) in
  let root := set_member root "requires_grad" (of_bool (requires_grad atensor)) in
  sizeArray ← dims_array (at_size atensor) (dim_num atensor);
  let root := set_member root "size" sizeArray in
  strideArray ← dims_array (at_stride atensor) (dim_num atensor);
  let root := set_member root "stride" strideArray in
  Ok (set_member root "storage" (toJson_ATStorage (storage atensor))).

(** The size or stride array of a tensor read back: its length is compared, as
    an unsigned integer, with the announced number of dimensions. *)
Definition read_dims (arr : Value) (dim_num : Z) (what : string) : result (list Z) :=
  if bool_decide (vtype arr = arrayValue) &&
     (Z.of_nat (length (elements arr)) =? u32 dim_num)
  then map_result asInt64 (elements arr)
  else Throw what.

Definition fromJsonATensor (root : Value) : result ATensor :=
  checkRequiredField root "storage_offset";;
  checkRequiredField root "dim_num";;
  checkRequiredField root "dtype";;
  checkRequiredField root "conj";;
  checkRequiredField root "neg";;
  checkRequiredField root "requires_grad";;
  checkRequiredField root "size";;
  checkRequiredField root "stride";;
  checkRequiredField root "storage";;
  so ← (v ← member root "storage_offset"; asInt64 v);
  dn ← (v ← member root "dim_num"; asInt v);
  dt ← (v ← member root "dtype"; n ← asInt v; cast_dtype n);
  cj ← (v ← member root "conj"; asBool v);
  ng ← (v ← member root "neg"; asBool v);
  rg ← (v ← member root "requires_grad"; asBool v);
  sz ← (v ← member root "size"; read_dims v dn "Invalid size array in ATensor JSON");
  st ← (v ← member root "stride"; read_dims v dn "Invalid stride array in ATensor JSON");
  storage ← (v ← member root "storage"; fromJsonStorage v);
  Ok (MkATensor (Some sz) (Some st) so dn dt cj ng rg storage).

Definition toJson_TensorMemoryRDMAInfo (info : TensorMemoryRDMAInfo) : result Value :=
  let root := json_null in
  let root := set_member root "addr" (of_string (to_string (mi_addr info))) in
  let root := set_member root "size" (of_uint (mi_size info)) in
  let root := set_member root "rkey" (of_string (mi_rkey info)) in
  tmeta ← toJson_ATensor (atensor_meta info);
  Ok (set_member root "tmeta" tmeta).

Definition fromJson_TensorMemoryRDMAInfo (root : Value) : result TensorMemoryRDMAInfo :=
  checkRequiredField root "addr";;
  checkRequiredField root "size";;
  checkRequiredField root "rkey";;
  checkRequiredField root "tmeta";;
  checkFieldType root "addr" stringValue;;
  checkFieldType root "rkey" stringValue;;
  checkFieldType root "tmeta" objectValue;;
  addr ← (v ← member root "addr"; s ← asString v; stoull s);
  size ← (v ← member root "size"; asUInt64 v);
  throw_if (size <=? 0) "Invalid memory size: ";;
  atensor_meta ← (v ← member root "tmeta"; fromJsonATensor v);
  rkey ← (v ← member root "rkey"; asString v);
  Ok (MkTensorMemoryRDMAInfo addr size rkey atensor_meta).

Definition ToJson_ShardedKey (k : ShardedKey) : Value :=
  let root := json_null in
  let root := set_member root "key" (of_string (key k)) in
  let root := set_member root "global_shape" (int_array (global_shape k)) in
  set_member root "global_offset" (int_array (global_offset k)).

(** The loops over [global_shape] and [global_offset]. *)
Definition read_int64s (arr : Value) (what : string) : result (list Z) :=
  map_result (fun dim => throw_if (negb (isInt64 dim)) what;; asInt64 dim) (elements arr).

Definition FromJson_ShardedKey (root : Value) : result ShardedKey :=
  checkRequiredField root "key";;
  checkRequiredField root "global_shape";;
  checkRequiredField root "global_offset";;
  checkFieldType root "key" stringValue;;
  checkFieldType root "global_shape" arrayValue;;
  checkFieldType root "global_offset" arrayValue;;
  k ← (v ← member root "key"; asString v);
  shape ← (v ← member root "global_shape"; read_int64s v "Invalid shape dimension type");
  offset ← (v ← member root "global_offset"; read_int64s v "Invalid offset dimension type");
  throw_if (negb (length shape =? length offset)%nat) "Shape and offset dimensions do not match";;
  Ok (MkShardedKey k shape offset).

Definition Serialize (json : Value) : string := writeString json.

Definition Deserialize (str : string) : result Value :=
  match parseFromStream str with Some root => Ok root | None => Throw "JSON parsing failed" end.

Definition ToJson_TensorRDMAMetaPublishMessage (msg : TensorRDMAMetaPublishMessage)
    : result Value :=
  let root := json_null in
  let root := set_member root "seq_id" (of_int (pm_seq_id msg)) in
  let root := set_member root "node_info" (toJson_NodeInfo (pm_node_info msg)) in
  metas ← for_each (fun (pair : ShardedKey * TensorMemoryRDMAInfo) metas =>
            valueJson ← toJson_TensorMemoryRDMAInfo pair.2;
            Ok (set_member metas (Serialize (ToJson_ShardedKey pair.1)) valueJson))
          (map_to_list (tensor_rdma_metas msg)) json_object;
  Ok (set_member root "tensor_rdma_metas" metas).

Definition FromJson_TensorRDMAMetaPublishMessage (root : Value)
    : result TensorRDMAMetaPublishMessage :=
  checkRequiredField root "seq_id";;
  checkRequiredField root "node_info";;
  checkRequiredField root "tensor_rdma_metas";;
  checkFieldType root "seq_id" intValue;;
  checkFieldType root "node_info" objectValue;;
  checkFieldType root "tensor_rdma_metas" objectValue;;
  seq_id ← (v ← member root "seq_id"; asInt64 v);
  node_info ← (v ← member root "node_info"; fromJson_NodeInfo v);
  metas ← member root "tensor_rdma_metas";
  tensor_rdma_metas ← for_each (fun key (acc : gmap ShardedKey TensorMemoryRDMAInfo) =>
      keyJson ← Deserialize key;
      shardKey ← FromJson_ShardedKey keyJson;
      info ← (v ← member metas key; fromJson_TensorMemoryRDMAInfo v);
      Ok (<[shardKey := info]> acc)) (getMemberNames metas) ∅;
  Ok (MkTensorRDMAMetaPublishMessage seq_id node_info tensor_rdma_metas).

(** [WeightReadyMessage] and [WeightConsumedMessage] have the same fields. *)
Definition ToJson_WeightReadyMessage (msg : WeightReadyMessage) : Value :=
  let root := json_null in
  let root := set_member root "seq_id" (of_int (wr_seq_id msg)) in
  set_member root "node_info" (toJson_NodeInfo (wr_node_info msg)).

Definition FromJson_WeightReadyMessage (root : Value) : result WeightReadyMessage :=
  checkRequiredField root "seq_id";;
  checkRequiredField root "node_info";;
  checkFieldType root "seq_id" intValue;;
  checkFieldType root "node_info" objectValue;;
  seq_id ← (v ← member root "seq_id"; asInt64 v);
  node_info ← (v ← member root "node_info"; fromJson_NodeInfo v);
  Ok (MkWeightReadyMessage seq_id node_info).

Definition ToJson_WeightConsumedMessage (msg : WeightConsumedMessage) : Value :=
  let root := json_null in
  let root := set_member root "seq_id" (of_int (wc_seq_id msg)) in
  set_member root "node_info" (toJson_NodeInfo (wc_node_info msg)).

Definition FromJson_WeightConsumedMessage (root : Value) : result WeightConsumedMessage :=
  checkRequiredField root "seq_id";;
  checkRequiredField root "node_info";;
  checkFieldType root "seq_id" intValue;;
  checkFieldType root "node_info" objectValue;;
  seq_id ← (v ← member root "seq_id"; asInt64 v);
  node_info ← (v ← member root "node_info"; fromJson_NodeInfo v);
  Ok (MkWeightConsumedMessage seq_id node_info).

End Json.

(** ** What the code relies on of JsonCpp *)

(** The JSON document of a value; [JInt] and [JUint] are the two integer
    representations, real numbers are not used by the messages. *)
Inductive json : Type :=
| JNull
| JInt (n : Z)
| JUint (n : Z)
| JReal
| JString (s : string)
| JBool (b : bool)
| JArray (l : list json)
| JObject (m : gmap string json).

Definition type_of (v : json) : ValueType :=
  match v with
  | JNull => nullValue
  | JInt _ => intValue
  | JUint _ => uintValue
  | JReal => realValue
  | JString _ => stringValue
  | JBool _ => booleanValue
  | JArray _ => arrayValue
  | JObject _ => objectValue
  end.

(** The reader makes an integer that fits [Int64] an [intValue], whatever
    representation it was written from. *)
Fixpoint reread (v : json) : json :=
  match v with
  | JUint n => if n <? 2 ^ 63 then JInt n else JUint n
  | JArray l => JArray (map reread l)
  | JObject m => JObject (reread <$> m)
  | _ => v
  end.

(** 7-bit text without NUL, which is written and read back as it is. *)
Definition text (s : string) : Prop :=
  all_chars (fun c => (1 <= nat_of_ascii c <= 127)%nat) s.

(** Documents whose numbers fit their representation and whose strings are text. *)
Inductive json_ok : json -> Prop :=
| ok_int n : in_i64 n -> json_ok (JInt n)
| ok_uint n : in_u64 n -> json_ok (JUint n)
| ok_string s : text s -> json_ok (JString s)
| ok_bool b : json_ok (JBool b)
| ok_array l : (forall v, v ∈ l -> json_ok v) -> json_ok (JArray l)
| ok_object m : (forall k v, m !! k = Some v -> text k) ->
    (forall k v, m !! k = Some v -> json_ok v) -> json_ok (JObject m).

Class JsonLaws `{JsonLib} : Type := {
  view : Value -> json;
  view_null : view json_null = JNull;
  view_array : view json_array = JArray [];
  view_object : view json_object = JObject ∅;
  view_of_int n : view (of_int n) = JInt n;
  view_of_uint n : view (of_uint n) = JUint n;
  view_of_string s : view (of_string s) = JString s;
  view_of_bool b : view (of_bool b) = JBool b;
  view_set_null v k w : view v = JNull -> view (set_member v k w) = JObject {[k := view w]};
  view_set_object v k w m : view v = JObject m ->
    view (set_member v k w) = JObject (<[k := view w]> m);
  view_append v w l : view v = JArray l -> view (append v w) = JArray (l ++ [view w]);
  vtype_view v : vtype v = type_of (view v);
  isMember_view v k m : view v = JObject m -> isMember v k = Ok (bool_decide (is_Some (m !! k)));
  member_view v k m w : view v = JObject m -> m !! k = Some w ->
    exists x, member v k = Ok x /\ view x = w;
  elements_view v l : view v = JArray l -> map view (elements v) = l;
  getMemberNames_view v m : view v = JObject m ->
    getMemberNames v ≡ₚ (map_to_list m).*1;
  asString_view v s : view v = JString s -> asString v = Ok s;
  asInt_view v n : view v = JInt n -> in_i32 n -> asInt v = Ok n;
  asInt64_view v n : view v = JInt n -> in_i64 n -> asInt64 v = Ok n;
  asUInt64_view v n : view v = JInt n \/ view v = JUint n -> in_u64 n -> asUInt64 v = Ok n;
  asBool_view v b : view v = JBool b -> asBool v = Ok b;
  isInt_view v n : view v = JInt n -> in_i32 n -> isInt v = true;
  isInt64_view v n : view v = JInt n -> in_i64 n -> isInt64 v = true;
  write_text v : json_ok (view v) -> text (writeString v);
  parse_write v : json_ok (view v) ->
    exists w, parseFromStream (writeString v) = Some w /\ view w = reread (view v);
}.

(** ** The documents of the messages *)

Definition int_array_json (l : list Z) : json := JArray (map JInt l).

Definition node_json (n : NodeInfo) : json :=
  JObject (<["ctrl_flow_port" := JInt (ctrl_flow_port n)]>
          (<["rdma_port" := JInt (rdma_port n)]>
          {["hostname_or_ip" := JString (hostname_or_ip n)]})).

Definition device_json (d : ATDevice) : json :=
  JObject (<["device_index" := JInt (device_index d)]>
          {["device_type" := JInt (device_type_code (device_type d))]}).

Definition storage_json (s : ATStorage) : json :=
  JObject (<["device" := device_json (device s)]> {["storage_size" := JUint (storage_size s)]}).

Definition tensor_json (t : ATensor) (sz st : list Z) : json :=
  JObject (<["storage" := storage_json (storage t)]>
          (<["stride" := int_array_json st]>
          (<["size" := int_array_json sz]>
          (<["requires_grad" := JBool (requires_grad t)]>
          (<["neg" := JBool (at_neg t)]>
          (<["conj" := JBool (at_conj t)]>
          (<["dtype" := JInt (ATDtype.code (dtype t))]>
          (<["dim_num" := JInt (dim_num t)]>
          {["storage_offset" := JInt (storage_offset t)]})))))))).

Definition info_json (i : TensorMemoryRDMAInfo) (sz st : list Z) : json :=
  JObject (<["tmeta" := tensor_json (atensor_meta i) sz st]>
          (<["rkey" := JString (mi_rkey i)]>
          (<["size" := JUint (mi_size i)]> {["addr" := JString (to_string (mi_addr i))]}))).

Definition key_json (k : ShardedKey) : json :=
  JObject (<["global_offset" := int_array_json (global_offset k)]>
          (<["global_shape" := int_array_json (global_shape k)]>
          {["key" := JString (key k)]})).

Definition seq_node_json (seq_id : Z) (n : NodeInfo) : gmap string json :=
  <["node_info" := node_json n]> {["seq_id" := JInt seq_id]}.

(** ** Messages that can be sent *)

Definition port_ok (p : Z) : Prop := 1 <= p <= 65535.

Definition node_ok (n : NodeInfo) : Prop :=
  text (hostname_or_ip n) /\ port_ok (rdma_port n) /\ port_ok (ctrl_flow_port n).

Definition tensor_ok (t : ATensor) (sz st : list Z) : Prop :=
  at_size t = Some sz /\ at_stride t = Some st /\
  dim_num t = Z.of_nat (length sz) /\ length st = length sz /\ in_i32 (dim_num t) /\
  Forall in_i64 sz /\ Forall in_i64 st /\ in_i64 (storage_offset t) /\
  in_u64 (storage_size (storage t)) /\ - 2 ^ 7 <= device_index (device (storage t)) < 2 ^ 7.

Definition info_ok (i : TensorMemoryRDMAInfo) : Prop :=
  in_u64 (mi_addr i) /\ 0 < mi_size i < 2 ^ 64 /\ text (mi_rkey i) /\
  exists sz st, tensor_ok (atensor_meta i) sz st.

Definition key_ok (k : ShardedKey) : Prop :=
  text (key k) /\ length (global_shape k) = length (global_offset k) /\
  Forall in_i64 (global_shape k) /\ Forall in_i64 (global_offset k).

Definition publish_ok (msg : TensorRDMAMetaPublishMessage) : Prop :=
  in_i64 (pm_seq_id msg) /\ node_ok (pm_node_info msg) /\
  map_Forall (fun k i => key_ok k /\ info_ok i) (tensor_rdma_metas msg).

(** What arrives: the data pointer of the tensor is not sent. *)
Definition without_data (t : ATensor) : ATensor :=
  MkATensor (at_size t) (at_stride t) (storage_offset t) (dim_num t) (dtype t) (at_conj t)
    (at_neg t) (requires_grad t)
    (MkATStorage (storage_size (storage t)) (device (storage t)) 0).

Definition received_info (i : TensorMemoryRDMAInfo) : TensorMemoryRDMAInfo :=
  MkTensorMemoryRDMAInfo (mi_addr i) (mi_size i) (mi_rkey i) (without_data (atensor_meta i)).

Definition received (msg : TensorRDMAMetaPublishMessage) : TensorRDMAMetaPublishMessage :=
  MkTensorRDMAMetaPublishMessage (pm_seq_id msg) (pm_node_info msg)
    (received_info <$> tensor_rdma_metas msg).

(** ** Lemmas *)

Lemma i8_small z : - 2 ^ 7 <= z < 2 ^ 7 -> i8 z = z.
Proof. intros Hz. unfold i8. rewrite Z.mod_small; lia. Qed.

Lemma cast_device_type_code d : cast_device_type (device_type_code d) = Ok d.
Proof. by destruct d. Qed.

Lemma cast_dtype_code d : cast_dtype (ATDtype.code d) = Ok d.
Proof. by destruct d. Qed.

Lemma dtype_code_range d : in_i32 (ATDtype.code d).
Proof. unfold in_i32. destruct d; cbn; lia. Qed.

Lemma device_code_range d : in_i32 (device_type_code d).
Proof. unfold in_i32. destruct d; cbn; lia. Qed.

Lemma in_i32_i64 n : in_i32 n -> in_i64 n.
Proof. unfold in_i32, in_i64. lia. Qed.

Lemma foldl_insert_list_to_map `{Countable K} {A} (l : list (K * A)) (m : gmap K A) :
  NoDup l.*1 -> foldl (fun m p => <[p.1 := p.2]> m) m l = list_to_map l ∪ m.
Proof.
  revert m. induction l as [|[k v] l IH]; intros m Hnd; cbn; [by rewrite (left_id_L ∅ _)|].
  apply NoDup_cons in Hnd as [Hk Hnd]. rewrite IH by done. cbn in *.
  rewrite <- insert_union_r by (by apply not_elem_of_list_to_map_1).
  by rewrite insert_union_l.
Qed.

Lemma fst_prod_map {A B C} (f : B -> C) (l : list (A * B)) : (prod_map id f <$> l).*1 = l.*1.
Proof. rewrite <- list_fmap_compose. by apply list_fmap_ext. Qed.

(** ** Writing: the document a serializer produces *)

Section JsonProofs.
Context `{JsonLaws}.

Lemma view_int_array l : view (int_array l) = int_array_json l.
Proof.
  unfold int_array, int_array_json.
  assert (Hgen : forall a l0, view a = JArray l0 ->
    view (foldl (fun a x => append a (of_int x)) a l) = JArray (l0 ++ map JInt l)).
  { induction l as [|x l IH]; intros a l0 Ha; cbn; [by rewrite app_nil_r|].
    rewrite (IH _ (l0 ++ [JInt x])); [by rewrite <- app_assoc|].
    rewrite (view_append _ _ _ Ha). by rewrite view_of_int. }
  by rewrite (Hgen _ [] view_array).
Qed.

Lemma view_set v k w m j : view v = JObject m -> view w = j ->
  view (set_member v k w) = JObject (<[k := j]> m).
Proof. intros Hv <-. by apply view_set_object. Qed.

Lemma view_set_first k w j : view w = j -> view (set_member json_null k w) = JObject {[k := j]}.
Proof. intros <-. apply view_set_null, view_null. Qed.

(** The document of a value built by successive [root[key] = v]. *)
Ltac view_sets :=
  repeat first
    [ assumption | apply view_of_int | apply view_of_uint | apply view_of_string
    | apply view_of_bool | apply view_int_array | apply view_set_first | apply view_set ].

Lemma view_node n : view (toJson_NodeInfo n) = node_json n.
Proof. view_sets. Qed.

Lemma view_device d : view (toJson_ATDevice d) = device_json d.
Proof. view_sets. Qed.

Lemma view_storage s : view (toJson_ATStorage s) = storage_json s.
Proof. pose proof (view_device (device s)). view_sets. Qed.

Lemma view_key k : view (ToJson_ShardedKey k) = key_json k.
Proof. view_sets. Qed.

Lemma dims_array_ok l : exists v, dims_array (Some l) (Z.of_nat (length l)) = Ok v /\
  view v = int_array_json l.
Proof.
  unfold dims_array, copy_array. destruct (Z.ltb_spec 0 (Z.of_nat (length l))).
  - rewrite Z.leb_refl, Nat2Z.id, take_ge by lia. cbn. eauto using view_int_array.
  - destruct l; [|cbn in *; lia]. eauto using view_array.
Qed.

Lemma view_tensor t sz st : tensor_ok t sz st -> exists v, toJson_ATensor t = Ok v /\
  view v = tensor_json t sz st.
Proof.
  intros (Hsz & Hst & Hd & Hlen & _). unfold toJson_ATensor. cbn zeta.
  rewrite Hsz, Hst, Hd. destruct (dims_array_ok sz) as (a & -> & Ha).
  rewrite <- Hlen. destruct (dims_array_ok st) as (b & -> & Hb). cbn.
  eexists. split; [done|]. rewrite Hlen, <- Hd.
  pose proof (view_storage (storage t)). view_sets.
Qed.

Lemma view_info i sz st : tensor_ok (atensor_meta i) sz st ->
  exists v, toJson_TensorMemoryRDMAInfo i = Ok v /\ view v = info_json i sz st.
Proof.
  intros Ht. destruct (view_tensor _ _ _ Ht) as (v & Hv & Hvv).
  unfold toJson_TensorMemoryRDMAInfo. cbn zeta. rewrite Hv. cbn.
  eexists. split; [done|]. view_sets.
Qed.

(** ** Reading back *)

Lemma dec_required v m k w : view v = reread (JObject m) -> m !! k = Some w ->
  checkRequiredField v k = Ok tt.
Proof.
  intros Hv Hk. unfold checkRequiredField. rewrite (isMember_view _ _ _ Hv), lookup_fmap, Hk.
  cbn. done.
Qed.

Lemma dec_member_some v m k w : view v = reread (JObject m) -> m !! k = Some w ->
  exists x, member v k = Ok x /\ view x = reread w.
Proof.
  intros Hv Hk. eapply member_view; [exact Hv|]. by rewrite lookup_fmap, Hk.
Qed.

Lemma dec_type v m k w t : view v = reread (JObject m) -> m !! k = Some w ->
  type_of (reread w) = t -> checkFieldType v k t = Ok tt.
Proof.
  intros Hv Hk Ht. destruct (dec_member_some _ _ _ _ Hv Hk) as (x & Hx & Hvx).
  unfold checkFieldType. rewrite Hx. cbn. by rewrite vtype_view, Hvx, bool_decide_eq_true_2.
Qed.

Lemma dec_member {A} v m k w (f : Value -> result A) r :
  view v = reread (JObject m) -> m !! k = Some w ->
  (forall x, view x = reread w -> f x = Ok r) -> (member v k ≫= f) = Ok r.
Proof.
  intros Hv Hk Hf. destruct (dec_member_some _ _ _ _ Hv Hk) as (x & -> & Hvx). by apply Hf.
Qed.

Lemma bind_ok {A B} (m : result A) (f : A -> result B) a r :
  m = Ok a -> f a = Ok r -> (m ≫= f) = Ok r.
Proof. by intros -> ?. Qed.

Lemma throw_if_false c what : c = false -> throw_if c what = Ok tt.
Proof. by intros ->. Qed.

(** Lookup in a map written with insertions. *)
Ltac look :=
  repeat first
    [ apply lookup_insert_eq | apply lookup_singleton_eq | rewrite lookup_insert_ne by discriminate ].

(** The checks at the start of a deserializer. *)
Ltac dec_checks Hv :=
  repeat (eapply bind_ok;
    [ first [ eapply dec_required; [exact Hv|look] | eapply dec_type; [exact Hv|look|reflexivity] ] | ]).

(** One field read: [tac] closes the conversion of its value. *)
Ltac dec_field Hv tac :=
  eapply bind_ok; [ eapply dec_member; [exact Hv|look|intros ?x ?Hx; tac] | ].

Lemma dec_uint x n : view x = reread (JUint n) -> in_u64 n -> asUInt64 x = Ok n.
Proof.
  cbn. intros Hx Hn. apply asUInt64_view; [|done]. destruct (n <? 2 ^ 63); auto.
Qed.

Lemma dec_map_int l x : view x = reread (int_array_json l) -> Forall in_i64 l ->
  exists vs, elements x = vs /\ Forall2 (fun v n => view v = JInt n /\ in_i64 n) vs l.
Proof.
  intros Hx Hl. eexists. split; [done|]. cbn in Hx. apply elements_view in Hx.
  revert Hx. generalize (elements x) as vs. induction Hl as [|n l Hn Hl IH]; intros [|v vs] Hx;
    try discriminate; constructor; injection Hx; intros; auto.
Qed.

Lemma map_result_Forall2 {A B} (f : A -> result B) vs l :
  Forall2 (fun v n => f v = Ok n) vs l -> map_result f vs = Ok l.
Proof. induction 1 as [|v n vs l Hv _ IH]; [done|]. cbn. rewrite Hv. cbn. by rewrite IH. Qed.

Lemma dec_node v n : view v = reread (node_json n) -> node_ok n -> fromJson_NodeInfo v = Ok n.
Proof.
  intros Hv (_ & Hr & Hc). unfold node_json in Hv. unfold fromJson_NodeInfo.
  unfold port_ok in *. dec_checks Hv.
  dec_field Hv ltac:(by apply asString_view).
  dec_field Hv ltac:(apply asInt_view; [eassumption|unfold in_i32; lia]).
  dec_field Hv ltac:(apply asInt_view; [eassumption|unfold in_i32; lia]).
  eapply bind_ok; [apply throw_if_false; case_cmp; try lia; done|].
  eapply bind_ok; [apply throw_if_false; case_cmp; try lia; done|].
  by destruct n.
Qed.

Lemma dec_device v d : view v = reread (device_json d) -> - 2 ^ 7 <= device_index d < 2 ^ 7 ->
  fromJsonDevice v = Ok d.
Proof.
  intros Hv Hd. unfold device_json in Hv. unfold fromJsonDevice. dec_checks Hv.
  pose proof (device_code_range (device_type d)) as Hc.
  dec_field Hv ltac:(idtac).
  { unfold fromJsonDeviceType. eapply bind_ok; [apply throw_if_false; by erewrite isInt_view|].
    eapply bind_ok; [by apply asInt_view|]. apply cast_device_type_code. }
  dec_field Hv ltac:(apply asInt_view; [eassumption|unfold in_i32; lia]).
  rewrite i8_small by done. by destruct d.
Qed.

Lemma dec_storage v s : view v = reread (storage_json s) -> in_u64 (storage_size s) ->
  - 2 ^ 7 <= device_index (device s) < 2 ^ 7 ->
  fromJsonStorage v = Ok (MkATStorage (storage_size s) (device s) 0).
Proof.
  intros Hv Hs Hd. unfold storage_json in Hv. unfold fromJsonStorage. dec_checks Hv.
  dec_field Hv ltac:(by apply dec_uint). dec_field Hv ltac:(by apply dec_device). done.
Qed.

Lemma dec_dims x l what : view x = reread (int_array_json l) -> Forall in_i64 l ->
  in_i32 (Z.of_nat (length l)) -> read_dims x (Z.of_nat (length l)) what = Ok l.
Proof.
  intros Hx Hl Hlen. unfold read_dims. rewrite vtype_view, Hx. cbn [reread int_array_json type_of].
  destruct (dec_map_int _ _ Hx Hl) as (vs & -> & Hvs).
  rewrite (Forall2_length _ _ _ Hvs). unfold in_i32 in Hlen.
  rewrite u32_small by (unfold in_u32; lia). rewrite bool_decide_eq_true_2, Z.eqb_refl by done.
  cbn [andb]. apply map_result_Forall2. eapply Forall2_impl; [exact Hvs|].
  intros v n [? ?]. by apply asInt64_view.
Qed.

Lemma dec_tensor v t sz st : view v = reread (tensor_json t sz st) -> tensor_ok t sz st ->
  fromJsonATensor v = Ok (without_data t).
Proof.
  intros Hv (Hsz & Hst & Hd & Hlen & Hdn & Hisz & Hist & Hso & Hss & Hdi).
  unfold tensor_json in Hv. unfold fromJsonATensor. dec_checks Hv.
  pose proof (dtype_code_range (dtype t)) as Hdt.
  dec_field Hv ltac:(by apply asInt64_view).
  dec_field Hv ltac:(by apply asInt_view).
  dec_field Hv ltac:(eapply bind_ok; [by apply asInt_view|apply cast_dtype_code]).
  do 3 dec_field Hv ltac:(by apply asBool_view).
  rewrite Hd in *. dec_field Hv ltac:(by apply dec_dims).
  rewrite <- Hlen in *. dec_field Hv ltac:(by apply dec_dims).
  dec_field Hv ltac:(by apply dec_storage).
  unfold without_data. by rewrite Hsz, Hst, Hd.
Qed.

Lemma dec_info v i sz st : view v = reread (info_json i sz st) -> info_ok i ->
  tensor_ok (atensor_meta i) sz st -> fromJson_TensorMemoryRDMAInfo v = Ok (received_info i).
Proof.
  intros Hv (Ha & Hs & _ & _) Ht. unfold info_json in Hv. unfold fromJson_TensorMemoryRDMAInfo.
  dec_checks Hv.
  dec_field Hv ltac:(eapply bind_ok; [by apply asString_view|by apply stoull_to_string]).
  dec_field Hv ltac:(apply dec_uint; [eassumption|unfold in_u64; lia]).
  eapply bind_ok; [apply throw_if_false; apply Z.leb_gt; lia|].
  dec_field Hv ltac:(by eapply dec_tensor). dec_field Hv ltac:(by apply asString_view).
  done.
Qed.

Lemma dec_int64s x l what : view x = reread (int_array_json l) -> Forall in_i64 l ->
  read_int64s x what = Ok l.
Proof.
  intros Hx Hl. unfold read_int64s. destruct (dec_map_int _ _ Hx Hl) as (vs & -> & Hvs).
  apply map_result_Forall2. eapply Forall2_impl; [exact Hvs|]. intros v n [? ?]. cbn beta.
  eapply bind_ok; [apply throw_if_false; by erewrite isInt64_view|]. by apply asInt64_view.
Qed.

Lemma dec_key v k : view v = reread (key_json k) -> key_ok k -> FromJson_ShardedKey v = Ok k.
Proof.
  intros Hv (_ & Hlen & Hsh & Hof). unfold key_json in Hv. unfold FromJson_ShardedKey.
  dec_checks Hv. dec_field Hv ltac:(by apply asString_view).
  dec_field Hv ltac:(by apply dec_int64s). dec_field Hv ltac:(by apply dec_int64s).
  eapply bind_ok; [apply throw_if_false; by rewrite Hlen, Nat.eqb_refl|]. by destruct k.
Qed.

(** ** The documents can be written *)

Fixpoint text_b (s : string) : bool :=
  match s with
  | EmptyString => true
  | String c s' => ((1 <=? nat_of_ascii c) && (nat_of_ascii c <=? 127))%nat && text_b s'
  end.

Lemma text_b_text s : text_b s = true -> text s.
Proof.
  induction s as [|c s IH]; cbn [text_b]; [done|]. rewrite !andb_true_iff, !Nat.leb_le.
  intros [? Hs]. split; [done|exact (IH Hs)].
Qed.

(** A literal string is text. *)
Ltac solve_text := apply text_b_text; reflexivity.

Lemma json_ok_insert m k v : json_ok (JObject m) -> text k -> json_ok v ->
  json_ok (JObject (<[k := v]> m)).
Proof.
  intros Hm Hk Hv. inversion Hm as [| | | | |m' Hm1 Hm2 E]; subst. constructor; intros k' v' Hl;
  apply lookup_insert_Some in Hl as [[<- <-]|[_ Hl]]; eauto.
Qed.

Lemma json_ok_singleton k v : text k -> json_ok v -> json_ok (JObject {[k := v]}).
Proof.
  intros Hk Hv. constructor; intros k' v' Hl; by apply lookup_singleton_Some in Hl as [<- <-].
Qed.

Lemma json_ok_int32 n : in_i32 n -> json_ok (JInt n).
Proof. intros. by apply ok_int, in_i32_i64. Qed.

Lemma json_ok_ints l : Forall in_i64 l -> json_ok (int_array_json l).
Proof.
  intros Hl. constructor. intros v Hv. apply list_elem_of_fmap in Hv as (n & -> & Hn).
  constructor. rewrite Forall_forall in Hl. by apply Hl.
Qed.

Lemma to_string_text z : text (to_string z).
Proof.
  eapply all_chars_impl; [|apply to_string_chars]. intros c [Hc| ->]; [|by split; apply Nat.leb_le].
  unfold is_digit in Hc. apply Is_true_true, andb_true_iff in Hc as [H1 H2].
  apply Nat.leb_le in H1, H2. lia.
Qed.

(** Documents written with insertions: one goal per field. *)
Ltac doc_ok :=
  repeat first [ match goal with H : json_ok ?j |- json_ok ?j => exact H end
               | apply json_ok_singleton; [solve_text|]
               | apply json_ok_insert; [|solve_text|] ];
  auto using ok_int, ok_uint, ok_string, ok_bool, json_ok_ints, json_ok_int32, to_string_text,
    dtype_code_range, device_code_range.

Lemma node_json_ok n : node_ok n -> json_ok (node_json n).
Proof. intros (Ht & Hr & Hc). unfold port_ok in *. doc_ok; apply ok_int; unfold in_i64; lia. Qed.

Lemma device_json_ok d : - 2 ^ 7 <= device_index d < 2 ^ 7 -> json_ok (device_json d).
Proof. intros Hd. doc_ok. apply ok_int. unfold in_i64. lia. Qed.

Lemma tensor_json_ok t sz st : tensor_ok t sz st -> json_ok (tensor_json t sz st).
Proof.
  intros (Hsz & Hst & Hd & Hlen & Hdn & Hisz & Hist & Hso & Hss & Hdi).
  pose proof (device_json_ok _ Hdi). assert (json_ok (storage_json (storage t))) by doc_ok.
  doc_ok.
Qed.

Lemma info_json_ok i sz st : info_ok i -> tensor_ok (atensor_meta i) sz st ->
  json_ok (info_json i sz st).
Proof.
  intros (Ha & Hs & Hr & _) Ht. pose proof (tensor_json_ok _ _ _ Ht). doc_ok.
  apply ok_uint. unfold in_u64. lia.
Qed.

Lemma key_json_ok k : key_ok k -> json_ok (key_json k).
Proof. intros (Ht & _ & Hsh & Hof). doc_ok. Qed.

Lemma seq_node_json_ok seq n : in_i64 seq -> node_ok n -> json_ok (JObject (seq_node_json seq n)).
Proof. intros Hs Hn%node_json_ok. doc_ok. Qed.

Lemma Deserialize_Serialize v j : view v = j -> json_ok j ->
  exists w, Deserialize (Serialize v) = Ok w /\ view w = reread j.
Proof.
  intros <- Hok. destruct (parse_write _ Hok) as (w & Hw & Hvw).
  unfold Deserialize, Serialize. rewrite Hw. eauto.
Qed.

(** A sharded key survives its trip through a string; so distinct keys have
    distinct strings. *)
Lemma key_string_roundtrip k : key_ok k ->
  (keyJson ← Deserialize (Serialize (ToJson_ShardedKey k)); FromJson_ShardedKey keyJson) = Ok k.
Proof.
  intros Hk. destruct (Deserialize_Serialize _ _ (view_key k) (key_json_ok k Hk)) as (w & -> & Hw).
  by apply dec_key.
Qed.

Lemma key_string_inj k1 k2 : key_ok k1 -> key_ok k2 ->
  Serialize (ToJson_ShardedKey k1) = Serialize (ToJson_ShardedKey k2) -> k1 = k2.
Proof.
  intros H1 H2 E. pose proof (key_string_roundtrip _ H1) as R1.
  rewrite E, (key_string_roundtrip _ H2) in R1. by injection R1.
Qed.

(** ** Messages *)

Lemma ready_message_roundtrip seq n : in_i64 seq -> node_ok n ->
  (json ← Deserialize (Serialize (ToJson_WeightReadyMessage (MkWeightReadyMessage seq n)));
   FromJson_WeightReadyMessage json) = Ok (MkWeightReadyMessage seq n).
Proof.
  intros Hseq Hn. pose proof (view_node n) as Hvn.
  pose proof (seq_node_json_ok _ _ Hseq Hn) as Hok.
  edestruct Deserialize_Serialize as (w & -> & Hw); [|exact Hok|]; [view_sets|].
  unfold seq_node_json in Hw. cbn [mbind result_bind]. unfold FromJson_WeightReadyMessage.
  dec_checks Hw. dec_field Hw ltac:(by apply asInt64_view).
  dec_field Hw ltac:(by apply dec_node). done.
Qed.

Lemma consumed_message_roundtrip seq n : in_i64 seq -> node_ok n ->
  (json ← Deserialize (Serialize (ToJson_WeightConsumedMessage (MkWeightConsumedMessage seq n)));
   FromJson_WeightConsumedMessage json) = Ok (MkWeightConsumedMessage seq n).
Proof.
  intros Hseq Hn. pose proof (view_node n) as Hvn.
  pose proof (seq_node_json_ok _ _ Hseq Hn) as Hok.
  edestruct Deserialize_Serialize as (w & -> & Hw); [|exact Hok|]; [view_sets|].
  unfold seq_node_json in Hw. cbn [mbind result_bind]. unfold FromJson_WeightConsumedMessage.
  dec_checks Hw. dec_field Hw ltac:(by apply asInt64_view).
  dec_field Hw ltac:(by apply dec_node). done.
Qed.

(** The object of the tensors of a message, built in any order of its keys. *)
Lemma publish_metas l acc m : view acc = JObject m ->
  Forall (fun p => key_ok p.1 /\ info_ok p.2) l ->
  exists v js, for_each (fun (pair : ShardedKey * TensorMemoryRDMAInfo) metas =>
        valueJson ← toJson_TensorMemoryRDMAInfo pair.2;
        Ok (set_member metas (Serialize (ToJson_ShardedKey pair.1)) valueJson)) l acc = Ok v /\
    view v = JObject (foldl (fun m p => <[p.1 := p.2]> m) m
                       (zip (map (fun p => Serialize (ToJson_ShardedKey p.1)) l) js)) /\
    Forall2 (fun p j => exists sz st, tensor_ok (atensor_meta p.2) sz st /\
                                      j = info_json p.2 sz st) l js.
Proof.
  intros Hacc Hl. revert acc m Hacc. induction Hl as [|[k i] l [Hk Hi] Hl IH]; intros acc m Hacc.
  - exists acc, []. done.
  - destruct Hi as (Ha & Hs & Hr & sz & st & Ht).
    destruct (view_info _ _ _ Ht) as (v & Hv & Hvv).
    destruct (IH (set_member acc (Serialize (ToJson_ShardedKey k)) v) _
                (view_set _ _ _ _ _ Hacc Hvv)) as (v' & js & Hv' & Hview & Hjs).
    exists v', (info_json i sz st :: js). split_and!; [|done|].
    + cbn [for_each]. cbn [snd fst] in *. rewrite Hv. cbn. exact Hv'.
    + constructor; [eauto|done].
Qed.

(** Reading the object of the tensors, in any order of its member names. *)
Lemma read_metas w (mj : gmap string json) l acc : view w = reread (JObject mj) ->
  Forall (fun p => key_ok p.1 /\ info_ok p.2 /\ exists sz st,
    tensor_ok (atensor_meta p.2) sz st /\
    mj !! Serialize (ToJson_ShardedKey p.1) = Some (info_json p.2 sz st)) l ->
  for_each (fun key (acc : gmap ShardedKey TensorMemoryRDMAInfo) =>
      keyJson ← Deserialize key;
      shardKey ← FromJson_ShardedKey keyJson;
      info ← (v ← member w key; fromJson_TensorMemoryRDMAInfo v);
      Ok (<[shardKey := info]> acc))
    (map (fun p : ShardedKey * TensorMemoryRDMAInfo => Serialize (ToJson_ShardedKey p.1)) l) acc =
  Ok (foldl (fun m p => <[p.1 := p.2]> m) acc (prod_map id received_info <$> l)).
Proof.
  intros Hw Hl. revert acc. induction Hl as [|[k i] l (Hk & Hi & sz & st & Ht & Hm) Hl IH];
    intros acc; [done|]. cbn [for_each map fmap list_fmap foldl fst snd prod_map id] in *.
  assert ((keyJson ← Deserialize (Serialize (ToJson_ShardedKey k));
           shardKey ← FromJson_ShardedKey keyJson;
           info ← (v ← member w (Serialize (ToJson_ShardedKey k)); fromJson_TensorMemoryRDMAInfo v);
           Ok (<[shardKey := info]> acc)) = Ok (<[k := received_info i]> acc)) as ->.
  { pose proof (key_string_roundtrip _ Hk) as Hr.
    destruct (Deserialize _) as [kj| |]; [|discriminate Hr..]. cbn in Hr. cbn. rewrite Hr. cbn.
    destruct (dec_member_some _ _ _ _ Hw Hm) as (x & -> & Hx). cbn.
    by rewrite (dec_info _ _ _ _ Hx Hi Ht). }
  apply IH.
Qed.

Lemma metas_keys_nodup (M : gmap ShardedKey TensorMemoryRDMAInfo) :
  map_Forall (fun k i => key_ok k /\ info_ok i) M ->
  NoDup (map (fun p => Serialize (ToJson_ShardedKey p.1)) (map_to_list M)).
Proof.
  intros HM. apply NoDup_fmap_2_strong; [|apply NoDup_map_to_list].
  intros [k1 i1] [k2 i2] H1 H2 E. apply elem_of_map_to_list in H1, H2.
  destruct (HM _ _ H1) as [Hk1 _], (HM _ _ H2) as [Hk2 _].
  pose proof (key_string_inj _ _ Hk1 Hk2 E) as ->. congruence.
Qed.

(** What is known of the object of the tensors of a valid message. *)
Lemma publish_object (M : gmap ShardedKey TensorMemoryRDMAInfo) :
  map_Forall (fun k i => key_ok k /\ info_ok i) M ->
  exists v mj, for_each (fun (pair : ShardedKey * TensorMemoryRDMAInfo) metas =>
        valueJson ← toJson_TensorMemoryRDMAInfo pair.2;
        Ok (set_member metas (Serialize (ToJson_ShardedKey pair.1)) valueJson))
      (map_to_list M) json_object = Ok v /\
    view v = JObject mj /\ json_ok (JObject mj) /\
    (map_to_list mj).*1 ≡ₚ map (fun p => Serialize (ToJson_ShardedKey p.1)) (map_to_list M) /\
    map_Forall (fun k i => exists sz st, tensor_ok (atensor_meta i) sz st /\
      mj !! Serialize (ToJson_ShardedKey k) = Some (info_json i sz st)) M.
Proof.
  intros HM. pose proof (metas_keys_nodup _ HM) as Hnd.
  assert (HL : Forall (fun p => key_ok p.1 /\ info_ok p.2) (map_to_list M)).
  { apply Forall_forall. intros [k i] Hki%elem_of_map_to_list. by apply (HM k i). }
  destruct (publish_metas _ _ _ view_object HL) as (v & js & Hv & Hview & Hjs).
  set (ks := map (fun p => Serialize (ToJson_ShardedKey p.1)) (map_to_list M)) in *.
  assert (Hfst : (zip ks js).*1 = ks).
  { apply fst_zip. unfold ks. rewrite length_map, (Forall2_length _ _ _ Hjs). done. }
  rewrite foldl_insert_list_to_map, (right_id_L ∅ _) in Hview by (by rewrite Hfst).
  eexists v, _. split_and!; [exact Hv|exact Hview|..].
  - enough (Hobj : forall k j, (list_to_map (zip ks js) : gmap string json) !! k = Some j ->
      text k /\ json_ok j) by (constructor; intros k j Hkj; by apply (Hobj k j)).
    intros k j Hkj%elem_of_list_to_map; [|by rewrite Hfst].
    apply elem_of_lookup_zip_with in Hkj as (n & k' & j' & E & Hk & Hj). injection E as -> ->.
    unfold ks in Hk. rewrite list_lookup_fmap in Hk.
    destruct (Forall2_lookup_r _ _ _ _ _ Hjs Hj) as ([key i] & Hp & sz & st & Ht & ->).
    cbn in Ht. rewrite Hp in Hk. injection Hk as <-. apply list_elem_of_lookup_2 in Hp.
    apply elem_of_map_to_list in Hp. destruct (HM _ _ Hp) as [Hkey Hi]. split.
    + apply write_text. rewrite view_key. by apply key_json_ok.
    + by apply info_json_ok.
  - rewrite map_to_list_to_map by (by rewrite Hfst). by rewrite Hfst.
  - intros k i Hki. apply elem_of_map_to_list, list_elem_of_lookup in Hki as (n & Hn).
    destruct (Forall2_lookup_l _ _ _ _ _ Hjs Hn) as (j & Hj & sz & st & Ht & ->).
    exists sz, st. split; [done|]. apply elem_of_list_to_map; [by rewrite Hfst|].
    apply elem_of_lookup_zip_with. exists n, (Serialize (ToJson_ShardedKey k)), (info_json i sz st).
    split_and!; [done| |done]. unfold ks. by rewrite list_lookup_fmap, Hn.
Qed.

(** C21: A publish message is read back as it was sent, whatever order the tensors are
    written and read in: the same sequence id and node, and for each sharded key the same
    address, size, key and tensor, with a null data pointer. *)
Theorem publish_message_roundtrip (msg : TensorRDMAMetaPublishMessage) : publish_ok msg ->
  (v ← ToJson_TensorRDMAMetaPublishMessage msg;
   json ← Deserialize (Serialize v);
   FromJson_TensorRDMAMetaPublishMessage json) = Ok (received msg).
Proof.
  destruct msg as [seq n M]. intros (Hseq & Hn & HM). cbn [pm_seq_id pm_node_info tensor_rdma_metas] in *.
  destruct (publish_object _ HM) as (v & mj & Hv & Hview & Hok & Hnames & Hmj).
  unfold ToJson_TensorRDMAMetaPublishMessage. cbn [pm_seq_id pm_node_info tensor_rdma_metas].
  rewrite Hv. cbn [mbind result_bind].
  edestruct Deserialize_Serialize as (w & -> & Hw).
  { pose proof (view_node n). view_sets. exact Hview. }
  { pose proof (node_json_ok _ Hn). doc_ok. }
  cbn [mbind result_bind]. unfold FromJson_TensorRDMAMetaPublishMessage. dec_checks Hw.
  dec_field Hw ltac:(by apply asInt64_view). dec_field Hw ltac:(by apply dec_node).
  eapply dec_member; [exact Hw|look|]. intros metas Hmetas.
  pose proof (getMemberNames_view _ _ Hmetas) as Hperm.
  rewrite map_to_list_fmap, fst_prod_map, Hnames in Hperm.
  apply Permutation_map_inv in Hperm as (L & -> & HL).
  rewrite (read_metas _ mj); [|done|].
  - cbn. unfold received. do 2 f_equal. cbn.
    rewrite foldl_insert_list_to_map, (right_id_L ∅ _).
    + rewrite list_to_map_fmap. f_equal. rewrite <- (list_to_map_to_list M) at 1.
      apply list_to_map_proper; [|done]. rewrite <- HL. apply NoDup_fst_map_to_list.
    + rewrite fst_prod_map, <- HL. apply NoDup_fst_map_to_list.
  - apply Forall_forall. intros [k i] Hki. rewrite <- HL in Hki.
    apply elem_of_map_to_list in Hki. destruct (HM _ _ Hki). split_and!; auto.
Qed.

End JsonProofs.

(** ** What a receiver accepts *)

(** The tensor of a received message has both arrays, of the announced length. *)
Definition dims_complete (t : ATensor) : Prop :=
  exists sz st, at_size t = Some sz /\ at_stride t = Some st /\
    Z.of_nat (length sz) = u32 (dim_num t) /\ Z.of_nat (length st) = u32 (dim_num t).

Section Accepted.
Context `{JsonLib}.

Lemma map_result_length {A B} (f : A -> result B) l r : map_result f l = Ok r -> length r = length l.
Proof. intros Hr%map_result_Ok. by apply Forall2_length in Hr. Qed.

Lemma read_dims_length arr d what l : read_dims arr d what = Ok l -> Z.of_nat (length l) = u32 d.
Proof.
  unfold read_dims. destruct (bool_decide _ && _) eqn:E; [|discriminate].
  intros Hl%map_result_length. apply andb_true_iff in E as [_ E%Z.eqb_eq]. congruence.
Qed.

(** Invert every step of a deserializer that returned. *)
Ltac ok_invs H :=
  repeat ok_inv H;
  repeat match goal with E : (member _ _ ≫= _) = Ok _ |- _ => repeat ok_inv E end;
  repeat match goal with
  | E : throw_if _ _ = Ok _ |- _ => apply throw_if_Ok in E
  | E : read_dims _ _ _ = Ok _ |- _ => apply read_dims_length in E
  end.

Lemma fromJson_NodeInfo_ports root n : fromJson_NodeInfo root = Ok n ->
  port_ok (rdma_port n) /\ port_ok (ctrl_flow_port n).
Proof.
  unfold fromJson_NodeInfo. intros Hn. ok_invs Hn. injection Hn as <-. cbn. unfold port_ok.
  repeat match goal with E : _ || _ = false |- _ => apply orb_false_iff in E as [??] end. lia.
Qed.

Lemma fromJsonATensor_dims root t : fromJsonATensor root = Ok t -> dims_complete t.
Proof.
  unfold fromJsonATensor. intros Ht. ok_invs Ht. injection Ht as <-.
  unfold dims_complete. cbn. eauto 10.
Qed.

Lemma FromJson_ShardedKey_dims root k : FromJson_ShardedKey root = Ok k ->
  length (global_shape k) = length (global_offset k).
Proof.
  unfold FromJson_ShardedKey. intros Hk. ok_invs Hk. injection Hk as <-. cbn.
  match goal with E : negb _ = false |- _ => by apply negb_false_iff, Nat.eqb_eq in E end.
Qed.

Lemma fromJson_info_valid root i : fromJson_TensorMemoryRDMAInfo root = Ok i ->
  0 < mi_size i /\ dims_complete (atensor_meta i).
Proof.
  unfold fromJson_TensorMemoryRDMAInfo. intros Hi. ok_invs Hi. injection Hi as <-. cbn.
  split; [lia|]. eauto using fromJsonATensor_dims.
Qed.

(** Whatever the JSON library does, a publish message that is accepted names a node
    with valid ports, and each of its tensors has a key with as many offsets as
    dimensions, a positive size, and complete size and stride arrays. *)
Theorem accepted_publish_valid (root : Value) (msg : TensorRDMAMetaPublishMessage) :
  FromJson_TensorRDMAMetaPublishMessage root = Ok msg ->
  port_ok (rdma_port (pm_node_info msg)) /\ port_ok (ctrl_flow_port (pm_node_info msg)) /\
  map_Forall (fun k i => length (global_shape k) = length (global_offset k) /\
                         0 < mi_size i /\ dims_complete (atensor_meta i))
    (tensor_rdma_metas msg).
Proof.
  unfold FromJson_TensorRDMAMetaPublishMessage. intros Hm. repeat ok_inv Hm.
  injection Hm as <-. cbn [pm_node_info tensor_rdma_metas].
  repeat match goal with E : (member _ _ ≫= _) = Ok _ |- _ => ok_inv E end.
  match goal with E : fromJson_NodeInfo _ = Ok _ |- _ => destruct (fromJson_NodeInfo_ports _ _ E) end.
  split_and!; [done..|].
  match goal with E : for_each _ _ ?acc = Ok _ |- _ =>
    assert (Hacc : map_Forall (fun k i => length (global_shape k) = length (global_offset k) /\
      0 < mi_size i /\ dims_complete (atensor_meta i)) acc) by apply map_Forall_empty;
    revert E Hacc; generalize acc end.
  induction (getMemberNames _) as [|name names IH]; intros acc Hf Hacc; cbn [for_each] in Hf.
  - by injection Hf as <-.
  - ok_inv Hf. eapply IH; [exact Hf|].
    match goal with E : (Deserialize _ ≫= _) = Ok _ |- _ => repeat ok_inv E; injection E as <- end.
    repeat match goal with E : (member _ _ ≫= _) = Ok _ |- _ => ok_inv E end.
    apply map_Forall_insert_2; [|done]. split; [by eapply FromJson_ShardedKey_dims|].
    by eapply fromJson_info_valid.
Qed.

End Accepted.

(** ** Hosts given as text *)

(** The text of a node in the peers option: [host:rdma_port:ctrl_flow_port]. *)
Definition host_text (n : NodeInfo) : string :=
  join COLON [hostname_or_ip n; to_string (rdma_port n); to_string (ctrl_flow_port n)].

Lemma to_string_no_colon z : all_chars (fun c => c <> COLON) (to_string z).
Proof.
  eapply all_chars_impl; [|apply to_string_chars]. intros c Hc. by apply int_char_not.
Qed.

Lemma node_info_of_host_text n : all_chars (fun c => c <> COLON) (hostname_or_ip n) ->
  in_i32 (rdma_port n) -> in_i32 (ctrl_flow_port n) ->
  node_info_of_host (host_text n) = Ok (Some n).
Proof.
  intros Hh Hr Hc. unfold node_info_of_host, host_text.
  rewrite (SplitString_join _ _ (to_string (ctrl_flow_port n))).
  - rewrite !stoi_to_string by done. by destruct n.
  - repeat constructor; auto using to_string_no_colon.
  - done.
  - apply to_string_chars.
Qed.

(** The peers option lists every node it was written for: nodes printed as
    [host:rdma_port:ctrl_port], with hosts without a colon, are parsed back in order. *)
Theorem node_infos_roundtrip (nodes : list NodeInfo) :
  Forall (fun n => all_chars (fun c => c <> COLON) (hostname_or_ip n) /\
                   in_i32 (rdma_port n) /\ in_i32 (ctrl_flow_port n)) nodes ->
  GetNodeInfos (map host_text nodes) = Ok nodes.
Proof.
  intros Hn. unfold GetNodeInfos. set (body := fun host acc => _).
  enough (Hgen : forall acc, for_each body (map host_text nodes) acc = Ok (acc ++ nodes))
    by apply Hgen.
  induction Hn as [|n nodes (H1 & H2 & H3) Hn IH]; intros acc; cbn [map for_each].
  - by rewrite app_nil_r.
  - assert (body (host_text n) acc = Ok (acc ++ [n])) as ->.
    { unfold body. by rewrite node_info_of_host_text. }
    cbn [mbind result_bind]. rewrite IH. by rewrite <- app_assoc.
Qed.

Lemma node_infos_roundtrip_witness :
  GetNodeInfos (map host_text [MkNodeInfo "10.0.0.1" 8000 9000; MkNodeInfo "trainer" 1 2]) =
  Ok [MkNodeInfo "10.0.0.1" 8000 9000; MkNodeInfo "trainer" 1 2].
Proof.
  apply node_infos_roundtrip. repeat constructor; cbn; unfold in_i32; try lia; discriminate.
Defined.

(** ** A JSON library

    Documents themselves, written as the bits of their code: an instance that
    shows the laws can hold together. *)

Module PlainJson.

Definition leaf : Type := Z + (string + bool).

Fixpoint to_tree (v : json) : gen_tree leaf :=
  match v with
  | JNull => GenNode 0 []
  | JInt n => GenNode 1 [GenLeaf (inl n)]
  | JUint n => GenNode 2 [GenLeaf (inl n)]
  | JReal => GenNode 3 []
  | JString s => GenNode 4 [GenLeaf (inr (inl s))]
  | JBool b => GenNode 5 [GenLeaf (inr (inr b))]
  | JArray l => GenNode 6 (map to_tree l)
  | JObject m => GenNode 7 (map_fold (fun k v acc =>
                    GenNode 8 [GenLeaf (inr (inl k)); to_tree v] :: acc) [] m)
  end.

Fixpoint of_tree (t : gen_tree leaf) : json :=
  match t with
  | GenNode 1 [GenLeaf (inl n)] => JInt n
  | GenNode 2 [GenLeaf (inl n)] => JUint n
  | GenNode 3 [] => JReal
  | GenNode 4 [GenLeaf (inr (inl s))] => JString s
  | GenNode 5 [GenLeaf (inr (inr b))] => JBool b
  | GenNode 6 ts => JArray (map of_tree ts)
  | GenNode 7 ts =>
      JObject (list_to_map (map (fun t =>
        match t with
        | GenNode 8 [GenLeaf (inr (inl k)); t'] => (k, of_tree t')
        | _ => (EmptyString, JNull)
        end) ts))
  | _ => JNull
  end.

Lemma of_to_tree v : json_ok v -> of_tree (to_tree v) = v.
Proof.
  induction 1 as [| | | |l Hl IH|m Hk Hm IH]; [done..| |]; cbn.
  - f_equal. rewrite map_map. rewrite <- (map_id l) at 2. apply map_ext_in.
    intros v Hv. by apply IH, list_elem_of_In.
  - f_equal. rewrite map_fold_foldr. rewrite <- (list_to_map_to_list m) at 2. f_equal.
    assert (Hl : forall k v, (k, v) ∈ map_to_list m -> of_tree (to_tree v) = v).
    { intros k v Hkv%elem_of_map_to_list. by eapply IH. }
    induction (map_to_list m) as [|[k v] l IHl]; [done|]. cbn. rewrite (Hl k v) by left.
    f_equal. apply IHl. intros k' v' Hkv. apply (Hl k' v'). by right.
Qed.

Fixpoint bits (p : positive) : string :=
  match p with
  | xH => EmptyString
  | xO p => String "0" (bits p)
  | xI p => String "1" (bits p)
  end.

Fixpoint unbits (s : string) : positive :=
  match s with
  | EmptyString => xH
  | String c s' => if decide (c = "0"%char) then xO (unbits s') else xI (unbits s')
  end.

Lemma unbits_bits p : unbits (bits p) = p.
Proof. induction p as [p IH|p IH|]; cbn; rewrite ?IH; done. Qed.

Lemma bits_text p : text (bits p).
Proof.
  induction p as [p IH|p IH|]; [..|done]; (split; [split; by apply Nat.leb_le|exact IH]).
Qed.

Definition throws {A} : result A := Throw "Json::LogicError".

Definition lib : JsonLib := {|
  Value := json;
  json_null := JNull;
  json_array := JArray [];
  json_object := JObject ∅;
  of_int := JInt;
  of_uint := JUint;
  of_string := JString;
  of_bool := JBool;
  set_member v k w := match v with JObject m => JObject (<[k := w]> m) | _ => JObject {[k := w]} end;
  append v w := match v with JArray l => JArray (l ++ [w]) | _ => JArray [w] end;
  vtype := type_of;
  isMember v k := match v with
                  | JObject m => Ok (bool_decide (is_Some (m !! k))) | JNull => Ok false
                  | _ => throws end;
  member v k := match v with
                | JObject m => Ok (default JNull (m !! k)) | JNull => Ok JNull | _ => throws end;
  elements v := match v with JArray l => l | _ => [] end;
  getMemberNames v := match v with JObject m => (map_to_list m).*1 | _ => [] end;
  asString v := match v with JString s => Ok s | _ => throws end;
  asInt v := match v with
             | JInt n | JUint n => if bool_decide (in_i32 n) then Ok n else throws | _ => throws end;
  asInt64 v := match v with
               | JInt n | JUint n => if bool_decide (in_i64 n) then Ok n else throws | _ => throws end;
  asUInt64 v := match v with
                | JInt n | JUint n => if bool_decide (in_u64 n) then Ok n else throws
                | _ => throws end;
  asBool v := match v with JBool b => Ok b | _ => throws end;
  isInt v := match v with JInt n | JUint n => bool_decide (in_i32 n) | _ => false end;
  isInt64 v := match v with JInt n | JUint n => bool_decide (in_i64 n) | _ => false end;
  writeString v := bits (encode (to_tree v));
  parseFromStream s := reread ∘ of_tree <$> decode (unbits s);
|}.

#[refine]
Definition laws : @JsonLaws lib := {| view := (fun v => v) : @Value lib -> json |}.
Proof.
  all: cbn; try done.
  - by intros v k w ->.
  - by intros v k w m ->.
  - by intros v w l ->.
  - by intros v k m ->.
  - intros v k m w -> Hk. eexists. split; [done|]. by rewrite Hk.
  - intros v l ->. apply map_id.
  - by intros v m ->.
  - by intros v s ->.
  - intros v n -> ?. by rewrite bool_decide_eq_true_2.
  - intros v n -> ?. by rewrite bool_decide_eq_true_2.
  - intros v n [-> | ->] ?; by rewrite bool_decide_eq_true_2.
  - by intros v b ->.
  - intros v n -> ?. by rewrite bool_decide_eq_true_2.
  - intros v n -> ?. by rewrite bool_decide_eq_true_2.
  - intros v _. apply bits_text.
  - intros v Hv. eexists. split; [|done]. rewrite unbits_bits, decode_encode. cbn.
    rewrite of_to_tree; [done|exact Hv].
Defined.

End PlainJson.

#[local] Existing Instances PlainJson.lib PlainJson.laws.

Definition demo_node : NodeInfo := MkNodeInfo "10.0.0.1" 8000 9000.

Lemma demo_node_ok : node_ok demo_node.
Proof. split; [by apply text_b_text|]. unfold port_ok. cbn. lia. Qed.

Definition demo_key : ShardedKey := MkShardedKey "layer.0.w" [4; 8] [0; 4].

Definition demo_info : TensorMemoryRDMAInfo :=
  MkTensorMemoryRDMAInfo 140000000 64 EmptyString
    (MkATensor (Some [4; 4]) (Some [4; 1]) 0 2 ATDtype.Float false false false
       (MkATStorage 64 (MkATDevice ATDeviceType.CUDA 3) 140000000)).

Definition demo_publish : TensorRDMAMetaPublishMessage :=
  MkTensorRDMAMetaPublishMessage 7 demo_node {[demo_key := demo_info]}.

Lemma demo_publish_ok : publish_ok demo_publish.
Proof.
  split_and!; [by unfold in_i64|apply demo_node_ok|]. apply map_Forall_singleton. split.
  - split; [by apply text_b_text|]. split; [done|]. split; repeat constructor; done.
  - split_and!; [by unfold in_u64|done|done|by apply text_b_text|]. exists [4; 4], [4; 1].
    unfold tensor_ok. split_and!; try done; repeat constructor; done.
Qed.

Lemma publish_message_roundtrip_witness :
  (v ← @ToJson_TensorRDMAMetaPublishMessage PlainJson.lib demo_publish;
   json ← Deserialize (Serialize v);
   FromJson_TensorRDMAMetaPublishMessage json) = Ok (received demo_publish).
Proof.
  apply (@publish_message_roundtrip PlainJson.lib PlainJson.laws), demo_publish_ok.
Defined.

(** A document accepted by the receiver, as its JSON text would be parsed. *)
Definition demo_document : @Value PlainJson.lib :=
  match @ToJson_TensorRDMAMetaPublishMessage PlainJson.lib demo_publish with
  | Ok v => v
  | _ => JNull
  end.

Lemma accepted_publish_valid_witness :
  port_ok (rdma_port (pm_node_info (received demo_publish))).
Proof.
  apply (@accepted_publish_valid PlainJson.lib (reread demo_document) (received demo_publish)).
  vm_compute. reflexivity.
Defined.
