(* ===== verification/Discovery.v ===== *)
(** * Service discovery

    discovery/service_discovery.h, discovery/tcpstore_discovery.cpp and
    discovery/discovery_manager.cpp, and the part of
    transfer/tensor_transfer_pull.cpp that starts the service and turns the
    discovered nodes into peers: how the nodes of a job find the store, agree
    on the world sizes, register themselves and learn about each other.

    The store and the config center are the interfaces of ConfigCenter.v; the
    state of the discovery is paired with the world they work on, and an
    operation leaves both, also when it throws. *)

From stdpp Require Import gmap strings.
From S2P Require Import Prelude StateResult StringUtils Options Retry Tensor Messages ConfigCenter.
Local Open Scope Z_scope.

Record NodeEntry : Type := MkNodeEntry {
  rank : Z;
  node_info : NodeInfo;
  role : ARole;
}.

#[export] Instance NodeEntry_eq_dec : EqDecision NodeEntry.
Proof. solve_decision. Defined.

(** ** The text of a node *)

Definition COLON_str : string := ":".

(** [snprintf] into [char buf[256]]. *)
Definition NodeToString (entry : NodeEntry) : string :=
  String.substring 0 255
    ((match role entry with TRAINING => "T" | INFERENCE => "I" end) ++ COLON_str ++
     to_string (rank entry) ++ COLON_str ++
     c_str (hostname_or_ip (node_info entry)) ++ COLON_str ++
     to_string (rdma_port (node_info entry)) ++ COLON_str ++
     to_string (ctrl_flow_port (node_info entry)))%string.

(** The conversions of [sscanf]: the value and the rest of the input, [None]
    where the input does not match. *)
Definition scan_char (s : string) : option (ascii * string) :=
  match s with String c s' => Some (c, s') | EmptyString => None end.

Definition scan_colon (s : string) : option string :=
  match s with String c s' => if decide (c = COLON) then Some s' else None | EmptyString => None end.

Fixpoint span_digits (s : string) : string * string :=
  match s with
  | String c s' => if is_digit c then let '(d, r) := span_digits s' in (String c d, r)
                   else (EmptyString, s)
  | EmptyString => (EmptyString, EmptyString)
  end.

(** [%d]: a number that an [int] cannot hold is undefined. *)
Definition scan_int (s : string) : result (option (Z * string)) :=
  let s := trim_front s in
  let '(neg, s) := match s with
                   | String c s' => if decide (c = "-"%char) then (true, s')
                                    else if decide (c = "+"%char) then (false, s')
                                    else (false, s)
                   | EmptyString => (false, s)
                   end in
  let '(digits, rest) := span_digits s in
  if decide (digits = EmptyString) then Ok None
  else
    let v := read_digits 0 digits in
    let v := if (neg : bool) then - v else v in
    if bool_decide (in_i32 v) then Ok (Some (v, rest)) else Undef.

(** [%127[^:]] *)
Fixpoint span_field (n : nat) (s : string) : string * string :=
  match n, s with
  | S n', String c s' =>
      if decide (c = COLON) then (EmptyString, s)
      else let '(f, r) := span_field n' s' in (String c f, r)
  | _, _ => (EmptyString, s)
  end.

Definition scan_field (n : nat) (s : string) : option (string * string) :=
  let '(f, r) := span_field n s in if decide (f = EmptyString) then None else Some (f, r).

Definition scan_node (s : string) : result (option NodeEntry) :=
  match scan_char s with
  | None => Ok None
  | Some (role_char, s) =>
  match scan_colon s with
  | None => Ok None
  | Some s =>
  o ← scan_int s;
  match o with
  | None => Ok None
  | Some (rank, s) =>
  match scan_colon s with
  | None => Ok None
  | Some s =>
  match scan_field 127 s with
  | None => Ok None
  | Some (ip, s) =>
  match scan_colon s with
  | None => Ok None
  | Some s =>
  o ← scan_int s;
  match o with
  | None => Ok None
  | Some (rdma, s) =>
  match scan_colon s with
  | None => Ok None
  | Some s =>
  o ← scan_int s;
  match o with
  | None => Ok None
  | Some (ctrl, _) =>
      Ok (Some (MkNodeEntry rank (MkNodeInfo ip rdma ctrl)
                  (if decide (role_char = "T"%char) then TRAINING else INFERENCE)))
  end end end end end end end end end.

Definition StringToNode (str : string) : result NodeEntry :=
  o ← scan_node (c_str str);
  match o with Some entry => Ok entry | None => Throw "node string parse error: " end.

(** ** Keys *)

Definition GenerateKeyPrefix : string := "astate".

Definition NodeKey (rank : Z) (role : ARole) : string :=
  (GenerateKeyPrefix ++
   (match role with TRAINING => ".node_train_" | INFERENCE => ".node_inference_" end) ++
   to_string rank)%string.

Definition WorldSizeKey (role : ARole) : string :=
  (GenerateKeyPrefix ++
   (match role with TRAINING => ".train_world_size" | INFERENCE => ".inference_world_size" end))%string.

Definition TcpStoreAddressKey : string := (GenerateKeyPrefix ++ ".tcpstore.address")%string.

Definition kMaxRetry : nat := 3.
Definition kPortStart : Z := 49500.
Definition kPortEnd : Z := 49600.

(** ** TCPStoreServiceDiscovery *)

(** Making a client or a server of the store, and destroying the server. *)
Class StoreNet (W : Type) : Type := {
  connect : string -> Z -> SR W unit;
  serve : string -> Z -> Z -> SR W unit;
  shut_down : W -> W;
}.

(** [connected] and [serving]: the two pointers are not null. *)
Record Impl : Type := MkImpl {
  connected : bool;
  serving : bool;
  master_running : bool;
  local_addr : string;
  master_addr : string;
  master_port : Z;
  impl_rank : Z;
  role_world_size : Z;
  train_world_size : Z;
  inference_world_size : Z;
  control_master : bool;
  impl_role : ARole;
  impl_options : Options;
  discovered_nodes_cache : gmap string NodeEntry;
}.

Definition set_connected (i : Impl) : Impl :=
  MkImpl true (serving i) (master_running i) (local_addr i) (master_addr i) (master_port i) (impl_rank i)
    (role_world_size i) (train_world_size i) (inference_world_size i) (control_master i) (impl_role i)
    (impl_options i) (discovered_nodes_cache i).

Definition set_master (serving' running : bool) (addr : string) (port : Z) (i : Impl) : Impl :=
  MkImpl (connected i) serving' running (local_addr i) addr port (impl_rank i)
    (role_world_size i) (train_world_size i) (inference_world_size i) (control_master i) (impl_role i)
    (impl_options i) (discovered_nodes_cache i).

Definition set_world_sizes (train inference : Z) (i : Impl) : Impl :=
  MkImpl (connected i) (serving i) (master_running i) (local_addr i) (master_addr i) (master_port i) (impl_rank i)
    (role_world_size i) train inference (control_master i) (impl_role i)
    (impl_options i) (discovered_nodes_cache i).

Definition set_cache (c : gmap string NodeEntry) (i : Impl) : Impl :=
  MkImpl (connected i) (serving i) (master_running i) (local_addr i) (master_addr i) (master_port i) (impl_rank i)
    (role_world_size i) (train_world_size i) (inference_world_size i) (control_master i) (impl_role i)
    (impl_options i) c.

Section Discovery.
  Context {W : Type} `{Clock W} `{TCPStore W} `{StoreNet W} `{ConfigCenter W} `{FloatLib}.

  Local Abbreviation D := (SR (Impl * W)).

Definition sleep (millis : Z) : D unit := fun '(i, w) => (Ok tt, (i, sleep_for (ms millis) w)).
Definition set_impl (f : Impl -> Impl) : D unit := fun '(i, w) => (Ok tt, (f i, w)).
Definition get_impl : D Impl := fun s => (Ok s.1, s).

(** The attempts from [retry] on. *)
Fixpoint connect_loop (tries : nat) : D unit :=
  match tries with
  | O => mret tt
  | S tries' =>
      i ← get_impl;
      sr_catch (_ ← on_snd (connect (master_addr i) (master_port i)); set_impl set_connected)
        (fun e => if decide (tries' = O) then sr_lift (Throw e)
                  else _ ← sleep 3000; connect_loop tries')
  end.

Definition MakeSureConnect : D unit :=
  i ← get_impl;
  if connected i then mret tt else connect_loop kMaxRetry.

(** *** The address of the master *)

(** The checks of the function that [FetchMasterConfig] retries. *)
Definition parse_master (addr_port : string) : result (string * Z) :=
  match split_line COLON addr_port with
  | None => Throw "Invalid config format: "
  | Some (addr, port_str) =>
      if decide (port_str = EmptyString) then Throw "Invalid config format: "
      else if negb (all_charsb (fun c => is_digit c) port_str) then Throw "Invalid port: "
      else match stoi port_str with
           | Ok port => Ok (addr, port)
           | Throw _ => Throw "Failed to parse port: "
           | Undef => Undef
           end
  end.

Definition fetch_attempt (w : W) : outcome (string * Z) * W :=
  match GetConfig TcpStoreAddressKey w with
  | (Ok (Some addr_port), w') =>
      (match parse_master addr_port with
       | Ok r => Done r
       | Throw e => Failed e
       | Undef => Failed EmptyString
       end, w')
  | (Ok None, w') => (Failed "Config not found", w')
  | (Throw e, w') => (if non_retryable_exception e then Fatal e else Failed e, w')
  | (Undef, w') => (Failed EmptyString, w')
  end.

Definition FetchMasterConfig (fuel : nat) : D unit := fun '(i, w) =>
  match new_TimeoutRetry 600000 10000 with
  | Ok retry_policy =>
      match @Retry _ _ _ Timeout_policy fetch_attempt fuel None retry_policy w with
      | Some (Ok (Returned (addr, port), _, w')) =>
          (Ok tt, (set_master (serving i) (master_running i) addr port i, w'))
      | Some (Ok (_, _, w')) =>
          (Throw "Failed to fetch master config after 10 minutes timeout: ", (i, w'))
      | Some (Throw e) => (Throw e, (i, w))
      | _ => (Undef, (i, w))
      end
  | Throw e => (Throw e, (i, w))
  | Undef => (Undef, (i, w))
  end.

(** The body of the loop over the ports: a server and its published address. *)
Definition start_master_at (port : Z) : D bool :=
  i ← get_impl;
  num_workers ← sr_lift (chk32 (role_world_size i * 2));
  _ ← on_snd (serve (master_addr i) port num_workers);
  _ ← set_impl (fun i => set_master true true (master_addr i) port i);
  let addr_port := (master_addr i ++ COLON_str ++ to_string port)%string in
  _ ← on_snd (SetConfig TcpStoreAddressKey addr_port);
  mret true.

Fixpoint start_master_loop (ports : list Z) : D bool :=
  match ports with
  | [] => _ ← set_impl (fun i => set_master (serving i) false (master_addr i) (master_port i) i); mret false
  | port :: ports' =>
      sr_catch (start_master_at port) (fun _ => _ ← sleep 2000; start_master_loop ports')
  end.

Definition StartMasterService : D bool :=
  i ← get_impl;
  if master_running i then mret true
  else
    _ ← set_impl (fun i => set_master (serving i) (master_running i) (local_addr i) (master_port i) i);
    start_master_loop (seqZ kPortStart (kPortEnd - kPortStart + 1)).

Definition StopMasterService : D unit := fun '(i, w) =>
  if master_running i
  then (Ok tt, (set_master false false (master_addr i) (master_port i) i, shut_down w))
  else (Ok tt, (i, w)).

(** The destructor of [Impl]. *)
Definition destroy_Impl : D unit :=
  i ← get_impl;
  if control_master i && master_running i then
    _ ← sleep 1000;
    _ ← on_snd (RemoveConfig TcpStoreAddressKey);
    StopMasterService
  else mret tt.

(** *** World sizes *)

Definition other_role (r : ARole) : ARole := match r with TRAINING => INFERENCE | INFERENCE => TRAINING end.

Definition my_world_size (i : Impl) : Z :=
  match impl_role i with TRAINING => train_world_size i | INFERENCE => inference_world_size i end.

(** The block that looks for an earlier registration; what it throws, a
    mismatch included, is caught: the answer is [should_register]. *)
Definition check_registered (my_key : string) (my_world_size : Z) : D bool :=
  sr_catch
    (existing_value ← on_snd (store_get my_key);
     existing_world_size ← sr_lift (stoi existing_value);
     if existing_world_size =? my_world_size then mret false
     else sr_lift (Throw " world size mismatch for "))
    (fun _ => mret true).

Definition world_size_attempt : D unit :=
  _ ← MakeSureConnect;
  i ← get_impl;
  let my_key := WorldSizeKey (impl_role i) in
  let other_key := WorldSizeKey (other_role (impl_role i)) in
  should_register ← check_registered my_key (my_world_size i);
  _ ← (if (should_register : bool) then on_snd (store_set my_key (to_string (my_world_size i)))
       else mret tt);
  sr_catch
    (other_value ← on_snd (store_get other_key);
     other_world_size ← sr_lift (stoi other_value);
     set_impl (fun i => match impl_role i with
                        | TRAINING => set_world_sizes (train_world_size i) other_world_size i
                        | INFERENCE => set_world_sizes other_world_size (inference_world_size i) i
                        end))
    (fun _ => _ ← sleep 1000; sr_lift (Throw "Other world size not available, will retry")).

(** The attempt has no undefined behaviour of its own. *)
Definition as_outcome {A} (m : D A) (s : Impl * W) : outcome A * (Impl * W) :=
  match m s with
  | (Ok a, s') => (Done a, s')
  | (Throw e, s') => (Failed e, s')
  | (Undef, s') => (Failed EmptyString, s')
  end.

Definition DISCOVERY_WORLD_SIZE_RETRY_COUNT : string := "DISCOVERY_WORLD_SIZE_RETRY_COUNT".

Definition RegisterAndFetchWorldSizes (fuel : nat) : D unit := fun '(i, w) =>
  match (retry_count ← GetOptionInt option_definitions (impl_options i) DISCOVERY_WORLD_SIZE_RETRY_COUNT;
         new_CountingRetry retry_count) with
  | Ok retry_policy =>
      match @Retry (Impl * W) _ _ CountingRetry_policy (as_outcome world_size_attempt) fuel None
              retry_policy (i, w) with
      | Some (Ok (Returned _, _, s')) => (Ok tt, s')
      | Some (Ok (_, _, s')) => (Throw "Failed to fetch other world size after ", s')
      | Some (Throw e) => (Throw e, (i, w))
      | _ => (Undef, (i, w))
      end
  | Throw e => (Throw e, (i, w))
  | Undef => (Undef, (i, w))
  end.

(** The constructor of [Impl]. *)
Definition new_Impl (fuel : nat) (addr : string) (rank : Z) (role : ARole) (world_size : Z)
    (control : bool) (options : Options) (w : W) : result unit * (Impl * W) :=
  let i := MkImpl false false false addr addr 0 rank world_size
             (match role with TRAINING => world_size | INFERENCE => 0 end)
             (match role with TRAINING => 0 | INFERENCE => world_size end)
             control role options ∅ in
  (_ ← (if control && bool_decide (role = TRAINING) && (rank =? 0) then
          init ← StartMasterService;
          if (init : bool) then mret tt else sr_lift (Throw "Failed to start master service")
        else FetchMasterConfig fuel);
   RegisterAndFetchWorldSizes fuel) (i, w).

(** *** Nodes *)

Definition RegisterNode (entry : NodeEntry) : D bool :=
  sr_catch
    (_ ← MakeSureConnect;
     _ ← on_snd (store_set (NodeKey (rank entry) (role entry)) (NodeToString entry));
     mret true)
    (fun _ => mret false).

Definition Refresh (entry : NodeEntry) : D bool := RegisterNode entry.

Definition Unregister (entry : NodeEntry) : D bool :=
  sr_catch
    (_ ← MakeSureConnect;
     _ ← on_snd (store_deleteKey (NodeKey (rank entry) (role entry)));
     mret true)
    (fun _ => mret false).

Definition cache_node (key : string) (entry : NodeEntry) : D unit :=
  set_impl (fun i => set_cache (<[key := entry]> (discovered_nodes_cache i)) i).

(** The body of the loops of [DiscoverNodes]. *)
Definition discover_one (r : ARole) (n : Z) (result : list NodeEntry) : D (list NodeEntry) :=
  let key := NodeKey n r in
  i ← get_impl;
  match discovered_nodes_cache i !! key with
  | Some entry => mret (result ++ [entry])
  | None =>
      sr_catch
        (value ← on_snd (store_get key);
         entry ← sr_lift (StringToNode value);
         _ ← cache_node key entry;
         mret (result ++ [entry]))
        (fun _ => mret result)
  end.

Definition ranks (world_size : Z) : list Z := seqZ 0 world_size.

(** Both scans; a world size that is not positive is skipped. *)
Definition scan_nodes : D (list NodeEntry) :=
  i ← get_impl;
  result ← sr_for_each (discover_one TRAINING) (ranks (train_world_size i)) [];
  sr_for_each (discover_one INFERENCE) (ranks (inference_world_size i)) result.

Definition DiscoverNodes : D (list NodeEntry) :=
  sr_catch (_ ← MakeSureConnect; scan_nodes) (fun _ => mret []).

Definition expected_keys (i : Impl) : list string :=
  ((fun n => NodeKey n TRAINING) <$> ranks (train_world_size i)) ++
  ((fun n => NodeKey n INFERENCE) <$> ranks (inference_world_size i)).

Definition missing_keys (i : Impl) : list string :=
  filter (fun key => discovered_nodes_cache i !! key = None) (expected_keys i).

(** The text after the last underscore. *)
Fixpoint after_last (d : ascii) (s : string) : option string :=
  match s with
  | EmptyString => None
  | String c s' =>
      match after_last d s' with
      | Some r => Some r
      | None => if decide (c = d) then Some s' else None
      end
  end.

(** The rank and the role a key stands for; [None] where the loop continues. *)
Definition parse_node_key (key : string) : option (Z * ARole) :=
  match after_last "_" key with
  | None => None
  | Some rank_str =>
      match stoi rank_str with
      | Ok expected_rank =>
          if contains "train" key then Some (expected_rank, TRAINING)
          else if contains "inference" key then Some (expected_rank, INFERENCE)
          else None
      | _ => None
      end
  end.

(** The body of the loop over the keys; [data_vec[i]] is undefined where
    [multiGet] gave fewer values. *)
Definition accept_node (kv : string * option string) (result : list NodeEntry) : D (list NodeEntry) :=
  let '(key, data) := kv in
  value ← sr_lift (match data with Some value => Ok value | None => Undef end);
  entry ← sr_lift (StringToNode value);
  match parse_node_key key with
  | Some (expected_rank, expected_role) =>
      if decide (role entry = expected_role /\ rank entry = expected_rank) then
        _ ← cache_node key entry; mret (result ++ [entry])
      else mret result
  | None => mret result
  end.

(** A loop whose result so far survives an exception. *)
Fixpoint for_each_until {A B : Type} (body : A -> B -> D B) (l : list A) (b : B) : D B :=
  match l with
  | [] => mret b
  | x :: l' => fun s =>
      match body x b s with
      | (Ok b', s') => for_each_until body l' b' s'
      | (Throw _, s') => (Ok b, s')
      | (Undef, s') => (Undef, s')
      end
  end.

Definition multi_get (keys : list string) : D (list NodeEntry) :=
  sr_catch
    (values ← on_snd (store_multiGet keys);
     for_each_until accept_node (imap (fun i key => (key, values !! i)) keys) [])
    (fun _ => mret []).

(** [random_ms]: the draw of [dis(gen)]. *)
Definition DiscoverNodesBatch (random_ms : Z) : D (list NodeEntry) :=
  i ← get_impl;
  match missing_keys i with
  | [] => mret []
  | keys =>
      if negb (connected i) then sr_lift Undef
      else
        _ ← sr_catch (on_snd (store_wait keys))
              (fun _ => sr_lift (Throw "Batch wait for missing nodes timed out: "));
        _ ← sleep random_ms;
        multi_get keys
  end.

End Discovery.

(** ** DiscoveryManager *)

Inductive ConfigCenterType : Type := TypeTCPStore | TypeHTTP | TypeFILE.

Definition DISCOVERY_CONFIG_CENTER_TYPE : string := "DISCOVERY_CONFIG_CENTER_TYPE".
Definition DISCOVERY_USE_BATCH_API : string := "DISCOVERY_USE_BATCH_API".

(** The kind of config center [CreateFromOptions] asks for. *)
Definition config_center_type `{FloatLib} (options : Options) : result ConfigCenterType :=
  s ← GetOptionString option_definitions options DISCOVERY_CONFIG_CENTER_TYPE;
  if decide (s = "TCPStore"%string) then Ok TypeTCPStore
  else if decide (s = "HTTP"%string) then Ok TypeHTTP
  else if decide (s = "FILE"%string) then Ok TypeFILE
  else Throw "Unknown config center type: ".

Record DiscoveryManager : Type := MkDiscoveryManager {
  options_ : Options;
  current_node_ : NodeEntry;
  current_node_registered_ : bool;
  started_ : bool;
  should_stop_ : bool;
  enable_discovery_thread_ : bool;
  discovered_nodes_ : list NodeEntry;
  all_nodes_ready_ : bool;
  nodes_cached_ : bool;
  cached_training_nodes_ : list NodeEntry;
  cached_inference_nodes_ : list NodeEntry;
}.

(** The members after construction; [enable_discovery_thread_] has its default. *)
Definition new_manager (options : Options) (local_addr_ip : string) (role_rank : Z) (r : ARole)
    (rdma_port ctrl_port : Z) : DiscoveryManager :=
  MkDiscoveryManager options (MkNodeEntry role_rank (MkNodeInfo local_addr_ip rdma_port ctrl_port) r)
    false false false false [] false false [] [].

Definition set_flags (registered started stop : bool) (m : DiscoveryManager) : DiscoveryManager :=
  MkDiscoveryManager (options_ m) (current_node_ m) registered started stop (enable_discovery_thread_ m)
    (discovered_nodes_ m) (all_nodes_ready_ m) (nodes_cached_ m) (cached_training_nodes_ m)
    (cached_inference_nodes_ m).

Definition set_discovered (nodes : list NodeEntry) (m : DiscoveryManager) : DiscoveryManager :=
  MkDiscoveryManager (options_ m) (current_node_ m) (current_node_registered_ m) (started_ m) (should_stop_ m)
    (enable_discovery_thread_ m) nodes (all_nodes_ready_ m) (nodes_cached_ m) (cached_training_nodes_ m)
    (cached_inference_nodes_ m).

(** The update of the local cache once all nodes are there. *)
Definition set_ready (nodes : list NodeEntry) (m : DiscoveryManager) : DiscoveryManager :=
  MkDiscoveryManager (options_ m) (current_node_ m) (current_node_registered_ m) (started_ m) true
    (enable_discovery_thread_ m) (discovered_nodes_ m) true true
    (filter (fun n => role n = TRAINING) nodes) (filter (fun n => role n = INFERENCE) nodes).

Definition count_role (r : ARole) (nodes : list NodeEntry) : Z :=
  Z.of_nat (length (filter (fun n => role n = r) nodes)).

Definition CheckNodesCount (i : Impl) (nodes : list NodeEntry) : bool :=
  (train_world_size i <=? count_role TRAINING nodes) &&
  (inference_world_size i <=? count_role INFERENCE nodes).

Section Manager.
  Context {W : Type} `{Clock W} `{TCPStore W} `{StoreNet W} `{ConfigCenter W} `{FloatLib}.
  (** The random sleeps of the batch discovery. *)
  Context (random_ms : W -> Z).

  Local Abbreviation Mgr := (SR (DiscoveryManager * (Impl * W))).

Definition modify_manager (f : DiscoveryManager -> DiscoveryManager) : Mgr unit :=
  fun '(m, s) => (Ok tt, (f m, s)).
Definition get_manager : Mgr DiscoveryManager := fun s => (Ok s.1, s).

Definition Start : Mgr bool :=
  _ ← modify_manager (fun m => set_flags (current_node_registered_ m) true (should_stop_ m) m);
  mret true.

Definition RegisterCurrentNode : Mgr bool :=
  m ← get_manager;
  ok ← on_snd (RegisterNode (current_node_ m));
  if (ok : bool) then
    _ ← modify_manager (fun m => set_flags true (started_ m) (should_stop_ m) m); mret true
  else mret false.

Definition UnregisterCurrentNode : Mgr bool :=
  m ← get_manager;
  if negb (current_node_registered_ m) then mret false
  else
    ok ← on_snd (Unregister (current_node_ m));
    if (ok : bool) then
      _ ← modify_manager (fun m => set_flags false (started_ m) (should_stop_ m) m); mret true
    else mret false.

Definition Manager_Stop : Mgr unit :=
  m ← get_manager;
  if negb (started_ m) then mret tt
  else
    _ ← modify_manager (fun m => set_flags (current_node_registered_ m) (started_ m) true m);
    _ ← (if current_node_registered_ m then UnregisterCurrentNode else mret true);
    modify_manager (fun m => set_flags (current_node_registered_ m) false (should_stop_ m) m).

Definition kDiscoveryInterval : Z := 1000.
Definition kManagerTimeout : Z := 1800000.

Definition discover_round (use_batch : bool) : SR (Impl * W) (list NodeEntry) := fun s =>
  if use_batch then DiscoverNodesBatch (random_ms s.2) s else DiscoverNodes s.

(** The loop of [DiscoverAllNodes]; [None] is a loop that has not ended within
    the fuel. *)
Fixpoint discover_loop (fuel : nat) (use_batch : bool) (start_time : Z) (s : Impl * W)
    : option (result (list NodeEntry) * (Impl * W)) :=
  match fuel with
  | O => None
  | S fuel' =>
      if now s.2 - start_time <? ms kManagerTimeout then
        match discover_round use_batch s with
        | (Ok nodes, s') =>
            if CheckNodesCount s'.1 nodes then Some (Ok nodes, s')
            else discover_loop fuel' use_batch start_time (s'.1, sleep_for (ms kDiscoveryInterval) s'.2)
        | (Throw e, s') => Some (Throw e, s')
        | (Undef, s') => Some (Undef, s')
        end
      else Some (Throw "Timeout waiting for all nodes to be discovered", s)
  end.

Definition DiscoverAllNodes (fuel : nat) : SR (DiscoveryManager * (Impl * W)) (list NodeEntry) := fun '(m, s) =>
  match GetOptionBool option_definitions (options_ m) DISCOVERY_USE_BATCH_API with
  | Ok use_batch =>
      match discover_loop fuel use_batch (now s.2) s with
      | Some (r, s') => (r, (m, s'))
      | None => (Undef, (m, s))
      end
  | Throw e => (Throw e, (m, s))
  | Undef => (Undef, (m, s))
  end.

Definition check_ready (nodes : list NodeEntry) : Mgr unit := fun '(m, s) =>
  if CheckNodesCount s.1 nodes && negb (all_nodes_ready_ m)
  then (Ok tt, (set_ready nodes m, s))
  else (Ok tt, (m, s)).

(** One round of the discovery thread, which only runs when it is enabled. *)
Definition discovery_thread_round : Mgr unit :=
  nodes ← on_snd DiscoverNodes;
  _ ← modify_manager (set_discovered nodes);
  check_ready nodes.

(** What the two waits on the cache give once [wait_for] has returned. *)
Definition GetAllTrainingNodes (m : DiscoveryManager) : result (list NodeEntry) :=
  if nodes_cached_ m then Ok (cached_training_nodes_ m)
  else Throw "Timeout waiting for training nodes cache to be ready (10 minutes)".

Definition GetAllInferenceNodes (m : DiscoveryManager) : result (list NodeEntry) :=
  if nodes_cached_ m then Ok (cached_inference_nodes_ m)
  else Throw "Timeout waiting for inference nodes cache to be ready (10 minutes)".

(** What a manager does: a call of its operations by any thread, or a round of
    its own thread. *)
Inductive manager_step : DiscoveryManager * (Impl * W) -> DiscoveryManager * (Impl * W) -> Prop :=
| step_start s : manager_step s (Start s).2
| step_stop s : manager_step s (Manager_Stop s).2
| step_register s : manager_step s (RegisterCurrentNode s).2
| step_unregister s : manager_step s (UnregisterCurrentNode s).2
| step_discover_all fuel s : manager_step s (DiscoverAllNodes fuel s).2
| step_discover m s : manager_step (m, s) (m, (DiscoverNodes s).2)
| step_thread s : enable_discovery_thread_ s.1 = true -> should_stop_ s.1 = false ->
    manager_step s (discovery_thread_round s).2.

End Manager.

(** ** Peers *)

(** The loop of [TensorTransferPull::Start] over the discovered nodes: the peers
    and the nodes of the own group. *)
Definition assign_hosts (own : ARole) (nodes : list NodeEntry) : list NodeInfo * list NodeInfo :=
  foldl (fun '(peer_hosts, group_hosts) node =>
           if decide (role node <> own) then (peer_hosts ++ [node_info node], group_hosts)
           else (peer_hosts, group_hosts ++ [node_info node])) ([], []) nodes.

(** ** The text of a node is read back *)

Lemma span_digits_app ds rest :
  all_chars (fun c => is_digit c) ds -> starts_with_digit rest = false ->
  span_digits (ds ++ rest) = (ds, rest).
Proof.
  intros Hd Hr. induction ds as [|c ds IH].
  - change (EmptyString ++ rest)%string with rest. destruct rest as [|c rest]; [done|].
    cbn in *. by rewrite Hr.
  - destruct Hd as [Hc Hd]. rewrite string_app_cons. cbn [span_digits].
    apply Is_true_true in Hc. by rewrite Hc, IH.
Qed.

Lemma trim_front_digit c s : is_digit c -> trim_front (String c s) = String c s.
Proof. intros Hc. cbn. by rewrite digit_not_space. Qed.

(** The digits of a number without its sign. *)
Lemma to_string_digits z :
  exists ds, all_chars (fun c => is_digit c) ds /\ ds <> EmptyString /\ read_digits 0 ds = Z.abs z /\
    to_string z = if z <? 0 then String "-" ds else ds.
Proof.
  unfold to_string. destruct z as [|p|p].
  - by exists "0"%string.
  - exists (pretty (N.pos p)). destruct (pretty_N_spec (N.pos p)) as (H1 & H2 & H3). by rewrite H3.
  - exists (pretty (N.pos p)). destruct (pretty_N_spec (N.pos p)) as (H1 & H2 & H3). by rewrite H3.
Qed.

Lemma scan_int_to_string z rest :
  in_i32 z -> starts_with_digit rest = false ->
  scan_int (to_string z ++ rest) = Ok (Some (z, rest)).
Proof.
  intros Hz Hr. destruct (to_string_digits z) as (ds & Hd & Hne & Hv & ->).
  destruct ds as [|c ds]; [done|]. pose proof Hd as [Hc _].
  assert (Hs : forall a : ascii, ~ is_digit a -> c <> a) by (by intros a Ha ->).
  unfold scan_int. destruct (z <? 0) eqn:Ez.
  - change ((String "-" (String c ds) ++ rest)%string) with (String "-" (String c ds ++ rest)).
    cbn [trim_front]. change (isspace "-") with false. cbn iota. rewrite decide_True by done.
    rewrite span_digits_app by done. rewrite decide_False by done. rewrite Hv, bool_decide_eq_true_2.
    + do 3 f_equal. lia.
    + apply Z.ltb_lt in Ez. replace (- Z.abs z) with z by lia. done.
  - rewrite string_app_cons, trim_front_digit by done.
    rewrite !decide_False by (apply Hs; by intros H'; vm_compute in H').
    rewrite <-string_app_cons, span_digits_app by done. rewrite decide_False by done.
    apply Z.ltb_ge in Ez. rewrite Hv, Z.abs_eq, bool_decide_eq_true_2 by done. done.
Qed.

Lemma span_field_app n f rest :
  all_chars (fun c => c <> COLON) f -> (String.length f <= n)%nat ->
  span_field n (f ++ String COLON rest) = (f, String COLON rest).
Proof.
  revert n. induction f as [|c f IH]; intros n Hf Hn.
  - change (EmptyString ++ String COLON rest)%string with (String COLON rest).
    destruct n; cbn [span_field]; [done|]. by rewrite decide_True.
  - destruct n as [|n]; [cbn in Hn; lia|]. destruct Hf as [Hc Hf]. rewrite string_app_cons. cbn [span_field].
    rewrite decide_False by done. rewrite IH; [done|done|cbn in Hn; lia].
Qed.

Lemma scan_colon_cons s : scan_colon (COLON_str ++ s) = Some s.
Proof. reflexivity. Qed.

(** What a reader of a node's text sees: the host name ends at its first zero
    byte. *)
Definition as_read (e : NodeEntry) : NodeEntry :=
  MkNodeEntry (rank e)
    (MkNodeInfo (c_str (hostname_or_ip (node_info e))) (rdma_port (node_info e)) (ctrl_flow_port (node_info e)))
    (role e).

(** The host is not empty, fits the buffer of the reader and has no colon. *)
Definition entry_ok (e : NodeEntry) : Prop :=
  let host := c_str (hostname_or_ip (node_info e)) in
  host <> EmptyString /\ (String.length host <= 127)%nat /\ all_chars (fun c => c <> COLON) host /\
  in_i32 (rank e) /\ in_i32 (rdma_port (node_info e)) /\ in_i32 (ctrl_flow_port (node_info e)).

Lemma c_str_no_zero s : all_chars (fun c => c <> zero) (c_str s).
Proof. induction s as [|c s IH]; [done|]. cbn. by case_decide. Qed.

Lemma c_str_id s : all_chars (fun c => c <> zero) s -> c_str s = s.
Proof.
  intros Hs. rewrite <-(string_app_nil s) at 1. rewrite c_str_app by done. apply string_app_nil.
Qed.

Lemma to_string_no_zero z : all_chars (fun c => c <> zero) (to_string z).
Proof.
  destruct (to_string_digits z) as (ds & Hd & _ & _ & ->).
  assert (all_chars (fun c => c <> zero) ds) as Hds
    by (eapply all_chars_impl, Hd; intros c Hc ->; by vm_compute in Hc).
  destruct (z <? 0); [|done]. by split.
Qed.

Lemma node_text_length e : entry_ok e ->
  NodeToString e =
    ((match role e with TRAINING => "T" | INFERENCE => "I" end) ++ COLON_str ++
     to_string (rank e) ++ COLON_str ++ c_str (hostname_or_ip (node_info e)) ++ COLON_str ++
     to_string (rdma_port (node_info e)) ++ COLON_str ++ to_string (ctrl_flow_port (node_info e)))%string.
Proof.
  intros (_ & Hl & _ & H1 & H2 & H3). unfold NodeToString. apply substring_all.
  pose proof (to_string_length _ H1). pose proof (to_string_length _ H2). pose proof (to_string_length _ H3).
  rewrite !string_length_app. destruct (role e); cbn [String.length]; unfold COLON_str; cbn [String.length]; lia.
Qed.

Lemma StringToNode_NodeToString e : entry_ok e -> StringToNode (NodeToString e) = Ok (as_read e).
Proof.
  intros He. pose proof He as (Hne & Hl & Hc & H1 & H2 & H3). unfold StringToNode.
  rewrite node_text_length by done. rewrite c_str_id.
  2: { repeat apply all_chars_app; try apply to_string_no_zero; try apply c_str_no_zero; try done.
       by destruct (role e). }
  assert (Hrole : exists rc, (match role e with TRAINING => "T" | INFERENCE => "I" end)%string
      = String rc EmptyString /\ (if decide (rc = "T"%char) then TRAINING else INFERENCE) = role e).
  { destruct (role e); eexists; split; reflexivity. }
  destruct Hrole as (rc & -> & Hrc). rewrite string_app_cons.
  change (EmptyString ++ ?s)%string with s. unfold scan_node. cbn [scan_char].
  rewrite scan_colon_cons, scan_int_to_string by done. cbn [mbind result_bind].
  rewrite scan_colon_cons. unfold scan_field.
  change (COLON_str ++ to_string (rdma_port (node_info e)) ++ COLON_str ++ to_string (ctrl_flow_port (node_info e)))%string
    with (String COLON (to_string (rdma_port (node_info e)) ++ COLON_str ++ to_string (ctrl_flow_port (node_info e)))).
  rewrite span_field_app by done. rewrite decide_False by done. cbn [scan_colon]. rewrite decide_True by done.
  rewrite scan_int_to_string by done. cbn [mbind result_bind]. rewrite scan_colon_cons.
  rewrite <-(string_app_nil (to_string (ctrl_flow_port _))), scan_int_to_string by done. cbn [mbind result_bind].
  unfold as_read. by rewrite Hrc.
Qed.

Lemma after_last_none d s : all_chars (fun c => c <> d) s -> after_last d s = None.
Proof. induction s as [|c s IH]; [done|]. intros [Hc Hs]. cbn. rewrite IH by done. by rewrite decide_False. Qed.

Lemma after_last_app d a s : all_chars (fun c => c <> d) s -> after_last d (a ++ String d s) = Some s.
Proof.
  intros Hs. induction a as [|c a IH].
  - change (EmptyString ++ String d s)%string with (String d s). cbn. rewrite after_last_none by done.
    by rewrite decide_True.
  - rewrite string_app_cons. cbn. by rewrite IH.
Qed.

Lemma contains_digits ds : all_chars (fun c => is_digit c) ds -> contains "train" ds = false.
Proof.
  induction ds as [|c ds IH]; [done|]. intros [Hc Hd]. cbn [contains has_prefix].
  rewrite bool_decide_eq_false_2 by (intros <-; by vm_compute in Hc). cbn [andb orb]. by apply IH.
Qed.

Lemma rank_digits n : 0 <= n -> all_chars (fun c => is_digit c) (to_string n).
Proof.
  intros Hn. destruct (to_string_digits n) as (ds & Hd & _ & _ & ->).
  by rewrite (proj2 (Z.ltb_ge n 0)).
Qed.

(** The rank and the role are read back from a key. *)
Lemma parse_NodeKey n r : 0 <= n < 2 ^ 31 -> parse_node_key (NodeKey n r) = Some (n, r).
Proof.
  intros Hn. pose proof (rank_digits n (proj1 Hn)) as Hd. unfold parse_node_key.
  assert (Hu : all_chars (fun c => c <> "_"%char) (to_string n)).
  { eapply all_chars_impl, Hd. intros c Hc ->. by vm_compute in Hc. }
  assert (Ha : after_last "_" (NodeKey n r) = Some (to_string n)).
  { destruct r.
    - change (NodeKey n TRAINING) with ("astate.node_train" ++ String "_" (to_string n))%string.
      by apply after_last_app.
    - change (NodeKey n INFERENCE) with ("astate.node_inference" ++ String "_" (to_string n))%string.
      by apply after_last_app. }
  rewrite Ha, stoi_to_string by (unfold in_i32; lia). destruct r; [done|].
  assert (Ht : contains "train" (NodeKey n INFERENCE) = false).
  { change (NodeKey n INFERENCE) with ("astate.node_inference_" ++ to_string n)%string.
    generalize (to_string n), (contains_digits _ Hd). intros ds Hds.
    repeat (rewrite string_app_cons; cbn [contains has_prefix];
            rewrite ?bool_decide_eq_true_2 by done; rewrite ?bool_decide_eq_false_2 by done;
            cbn [andb orb]). done. }
  by rewrite Ht.
Qed.

Lemma NodeKey_inj n n' r r' : 0 <= n < 2 ^ 31 -> 0 <= n' < 2 ^ 31 -> NodeKey n r = NodeKey n' r' ->
  n = n' /\ r = r'.
Proof.
  intros Hn Hn' E. pose proof (parse_NodeKey n r Hn) as H1. rewrite E, parse_NodeKey in H1 by done.
  by injection H1.
Qed.

(** ** Discovery finds the registered nodes *)

Definition world_size (i : Impl) (r : ARole) : Z :=
  match r with TRAINING => train_world_size i | INFERENCE => inference_world_size i end.

(** The nodes a discovery looks for, in the order of the scans. *)
Definition expected (i : Impl) : list (ARole * Z) :=
  ((fun n => (TRAINING, n)) <$> ranks (train_world_size i)) ++
  ((fun n => (INFERENCE, n)) <$> ranks (inference_world_size i)).

Definition key_of (p : ARole * Z) : string := NodeKey p.2 p.1.

Lemma expected_keys_of i : expected_keys i = key_of <$> expected i.
Proof. unfold expected_keys, expected. rewrite fmap_app, <-!list_fmap_compose. done. Qed.

Lemma elem_of_expected i r n : (r, n) ∈ expected i <-> 0 <= n < world_size i r.
Proof.
  unfold expected, ranks. rewrite elem_of_app, !list_elem_of_fmap. split.
  - intros [(x & [= -> ->] & Hx)|(x & [= -> ->] & Hx)]; apply elem_of_seqZ in Hx; cbn; lia.
  - intros Hn. destruct r; [left|right]; exists n; (split; [done|]); apply elem_of_seqZ; cbn in Hn; lia.
Qed.

Section DiscoverCorrect.
  Context {W : Type} `{Clock W} `{TCPStoreLaws W} `{StoreNet W} `{ConfigCenter W} `{FloatLib}.
  Hypothesis quiet_sleep : forall d w, contents (sleep_for d w) = contents w.
  (** The nodes of the job. *)
  Context (e : ARole -> Z -> NodeEntry).

Definition entry_of (p : ARole * Z) : NodeEntry := e p.1 p.2.

(** Every node of the job has registered itself. *)
Definition registered (i : Impl) (w : W) : Prop :=
  forall r n, 0 <= n < world_size i r ->
    n < 2 ^ 31 /\ entry_ok (e r n) /\ rank (e r n) = n /\ role (e r n) = r /\
    contents w !! NodeKey n r = Some (NodeToString (e r n)).

(** The cache holds nodes of the job. *)
Definition cache_ok (i : Impl) : Prop :=
  forall p, p ∈ expected i -> forall entry, discovered_nodes_cache i !! key_of p = Some entry ->
    entry = as_read (entry_of p).

(** What a discovery may change. *)
Definition extends (s s' : Impl * W) : Prop :=
  s'.1 = set_cache (discovered_nodes_cache s'.1) s.1 /\ contents s'.2 = contents s.2 /\
  discovered_nodes_cache s.1 ⊆ discovered_nodes_cache s'.1.

Lemma extends_refl s : extends s s.
Proof. split; [by destruct s as [[]]|]. done. Qed.

Lemma extends_trans s1 s2 s3 : extends s1 s2 -> extends s2 s3 -> extends s1 s3.
Proof.
  intros (E1 & C1 & S1) (E2 & C2 & S2). split; [|split; [congruence|by etransitivity]].
  rewrite E2. rewrite E1 at 1. done.
Qed.

Lemma extends_expected s s' : extends s s' -> expected s'.1 = expected s.1.
Proof. intros (E & _). by rewrite E. Qed.

Lemma extends_registered s s' : extends s s' -> registered s.1 s.2 -> registered s'.1 s'.2.
Proof. intros (E & C & _) R r n Hn. rewrite C. apply R. by rewrite E in Hn. Qed.

Lemma registered_at i w r n : registered i w -> (r, n) ∈ expected i ->
  contents w !! key_of (r, n) = Some (NodeToString (e r n)).
Proof. intros R Hp%elem_of_expected. by destruct (R r n Hp) as (_ & _ & _ & _ & E). Qed.

Lemma expected_key_inj i w p q : registered i w -> p ∈ expected i -> q ∈ expected i ->
  key_of p = key_of q -> p = q.
Proof.
  intros R Hp Hq Hk. destruct p as [r n], q as [r' n'].
  apply elem_of_expected in Hp, Hq. pose proof (R r n Hp) as (? & _). pose proof (R r' n' Hq) as (? & _).
  destruct (NodeKey_inj n n' r r') as [-> ->]; [lia|lia|exact Hk|done].
Qed.

(** Adding a node of the job to the cache. *)
Lemma cache_node_ok i w p :
  registered i w -> p ∈ expected i -> cache_ok i -> discovered_nodes_cache i !! key_of p = None ->
  let i' := set_cache (<[key_of p := as_read (entry_of p)]> (discovered_nodes_cache i)) i in
  cache_ok i' /\ extends (i, w) (i', w).
Proof.
  intros R Hp Hc Hn. split.
  - intros q Hq entry. cbn in *. destruct (decide (key_of q = key_of p)) as [Ek|Ek].
    + apply (expected_key_inj i w q p R Hq Hp) in Ek as ->. rewrite lookup_insert_eq. congruence.
    + rewrite lookup_insert_ne by done. by apply Hc.
  - split; [done|]. split; [done|]. by apply insert_subseteq.
Qed.

Lemma discover_one_ok i w r n acc :
  registered i w -> (r, n) ∈ expected i -> cache_ok i ->
  exists s', discover_one r n acc (i, w) = (Ok (acc ++ [as_read (e r n)]), s') /\
    extends (i, w) s' /\ cache_ok s'.1 /\
    discovered_nodes_cache s'.1 !! key_of (r, n) = Some (as_read (e r n)).
Proof.
  intros R Hp Hc. unfold discover_one, get_impl. unfold mbind at 1, SR_bind at 1. cbn [fst].
  destruct (discovered_nodes_cache i !! NodeKey n r) as [entry|] eqn:Ec.
  - pose proof (Hc _ Hp entry Ec) as ->. exists (i, w). split; [done|]. split; [apply extends_refl|]. done.
  - destruct (get_present _ _ _ (registered_at i w r n R Hp)) as (w' & Hg & Hw).
    pose proof (R r n (proj1 (elem_of_expected i r n) Hp)) as (_ & He & _).
    unfold sr_catch, mbind, SR_bind, on_snd. cbn [fst snd].
    change (key_of (r, n)) with (NodeKey n r) in Hg. rewrite Hg. cbn [sr_lift].
    unfold sr_lift. rewrite StringToNode_NodeToString by done.
    assert (R' : registered i w') by (eapply (extends_registered (i, w) (i, w')), R; split; [by destruct i|done]).
    destruct (cache_node_ok i w' (r, n) R' Hp Hc Ec) as [Hc' He'].
    eexists. split; [reflexivity|]. split; [|split; [exact Hc'|apply lookup_insert_eq]].
    destruct He' as (E1 & E2 & E3). split; [done|]. split; [exact Hw|done].
Qed.

(** One of the two scans. *)
Lemma scan_role_ok r : forall ns i w acc,
  registered i w -> (forall n, n ∈ ns -> (r, n) ∈ expected i) -> cache_ok i ->
  exists s', sr_for_each (discover_one r) ns acc (i, w) = (Ok (acc ++ ((fun n => as_read (e r n)) <$> ns)), s') /\
    extends (i, w) s' /\ cache_ok s'.1 /\
    forall n, n ∈ ns -> is_Some (discovered_nodes_cache s'.1 !! key_of (r, n)).
Proof.
  induction ns as [|n ns IH]; intros i w acc R Hns Hc.
  { exists (i, w). split; [cbn; by rewrite app_nil_r|]. split; [apply extends_refl|]. split; [done|].
    intros n Hn. by apply not_elem_of_nil in Hn. }
  destruct (discover_one_ok i w r n acc R (Hns n ltac:(by left)) Hc) as ([i1 w1] & G1 & X1 & C1 & K1).
  destruct (IH i1 w1 (acc ++ [as_read (e r n)])) as (s2 & G2 & X2 & C2 & K2).
  - exact (extends_registered _ _ X1 R).
  - intros m Hm. rewrite (extends_expected _ _ X1 : expected i1 = expected i). apply Hns. by right.
  - done.
  - exists s2. split; [|split; [by eapply extends_trans|split; [done|]]].
    + cbn [sr_for_each]. unfold mbind, SR_bind. rewrite G1, G2. by rewrite <-app_assoc.
    + intros m [->|Hm]%elem_of_cons; [|by apply K2].
      destruct X2 as (_ & _ & S2). eexists. eapply lookup_weaken; [exact K1|exact S2].
Qed.

(** All nodes of the job, as they are read. *)
Definition all_nodes (i : Impl) : list NodeEntry := (fun p => as_read (entry_of p)) <$> expected i.

(** All of them are in the cache. *)
Definition cache_full (i : Impl) : Prop :=
  forall p, p ∈ expected i -> is_Some (discovered_nodes_cache i !! key_of p).

Lemma scan_nodes_ok i w :
  registered i w -> cache_ok i ->
  exists s', scan_nodes (i, w) = (Ok (all_nodes i), s') /\ extends (i, w) s' /\ cache_ok s'.1 /\ cache_full s'.1.
Proof.
  intros R Hc. unfold scan_nodes, get_impl. unfold mbind at 1, SR_bind at 1. cbn [fst].
  destruct (scan_role_ok TRAINING (ranks (train_world_size i)) i w [] R) as ([i1 w1] & G1 & X1 & C1 & K1); [|done|].
  { intros n Hn. apply elem_of_expected. apply elem_of_seqZ in Hn. cbn. lia. }
  destruct (scan_role_ok INFERENCE (ranks (inference_world_size i)) i1 w1
              ([] ++ ((fun n => as_read (e TRAINING n)) <$> ranks (train_world_size i))))
    as (s2 & G2 & X2 & C2 & K2); [exact (extends_registered _ _ X1 R)| |done|].
  { intros n Hn. rewrite (extends_expected _ _ X1 : expected i1 = expected i). apply elem_of_expected. apply elem_of_seqZ in Hn. cbn. lia. }
  pose proof (extends_trans _ _ _ X1 X2) as X. exists s2. split; [|split; [done|split; [done|]]].
  - unfold mbind, SR_bind. rewrite G1, G2. unfold all_nodes, expected.
    by rewrite fmap_app, <-!list_fmap_compose.
  - intros [r n] Hp. rewrite (extends_expected _ _ X : expected s2.1 = expected i) in Hp. apply elem_of_expected in Hp.
    destruct r.
    + destruct (K1 n) as [x Hx]; [apply elem_of_seqZ; cbn in Hp; lia|].
      destruct X2 as (_ & _ & S2). eexists. eapply lookup_weaken; [exact Hx|exact S2].
    + apply K2. apply elem_of_seqZ. cbn in Hp. lia.
Qed.

Lemma DiscoverNodes_ok i w :
  connected i = true -> registered i w -> cache_ok i ->
  exists s', DiscoverNodes (i, w) = (Ok (all_nodes i), s') /\ extends (i, w) s' /\ cache_ok s'.1 /\ cache_full s'.1.
Proof.
  intros Hcon R Hc. destruct (scan_nodes_ok i w R Hc) as (s' & Hs & X).
  exists s'. split; [|done]. unfold DiscoverNodes, sr_catch, mbind, SR_bind, MakeSureConnect, get_impl.
  unfold mbind, SR_bind. cbn [fst]. rewrite Hcon. cbn. by rewrite Hs.
Qed.

(** *** The batch *)

Definition uncached (i : Impl) : list (ARole * Z) :=
  filter (fun p => discovered_nodes_cache i !! key_of p = None) (expected i).

Lemma missing_keys_uncached i : missing_keys i = key_of <$> uncached i.
Proof.
  unfold missing_keys, uncached. rewrite expected_keys_of. induction (expected i) as [|p l IH]; [done|].
  rewrite fmap_cons, !filter_cons. by case_decide; rewrite IH.
Qed.

Lemma NoDup_expected i : NoDup (expected i).
Proof.
  unfold expected, ranks. apply NoDup_app. split_and!.
  - apply NoDup_fmap_2; [congruence|apply NoDup_seqZ].
  - intros x (n & -> & _)%list_elem_of_fmap (n' & [=] & _)%list_elem_of_fmap.
  - apply NoDup_fmap_2; [congruence|apply NoDup_seqZ].
Qed.

Lemma accept_node_ok i w p acc :
  registered i w -> p ∈ expected i ->
  accept_node (key_of p, Some (NodeToString (entry_of p))) acc (i, w) =
  (Ok (acc ++ [as_read (entry_of p)]),
   (set_cache (<[key_of p := as_read (entry_of p)]> (discovered_nodes_cache i)) i, w)).
Proof.
  intros R Hp. destruct p as [r n]. pose proof (proj1 (elem_of_expected i r n) Hp) as Hn.
  pose proof (R r n Hn) as (Hmax & He & Hrank & Hrole & _).
  assert (Hparse : parse_node_key (key_of (r, n)) = Some (n, r)) by (apply parse_NodeKey; lia).
  unfold accept_node, mbind, SR_bind, sr_lift, entry_of. cbn [fst snd].
  rewrite StringToNode_NodeToString by done. rewrite Hparse. by rewrite decide_True.
Qed.

(** The loop over the answers for nodes that are not in the cache. *)
Lemma accept_nodes_ok ps : forall i w acc,
  registered i w -> NoDup ps -> cache_ok i ->
  (forall p, p ∈ ps -> p ∈ expected i /\ discovered_nodes_cache i !! key_of p = None) ->
  exists i', for_each_until accept_node ((fun p => (key_of p, Some (NodeToString (entry_of p)))) <$> ps) acc (i, w)
    = (Ok (acc ++ ((fun p => as_read (entry_of p)) <$> ps)), (i', w)) /\
    extends (i, w) (i', w) /\ cache_ok i' /\
    forall p, p ∈ ps -> is_Some (discovered_nodes_cache i' !! key_of p).
Proof.
  induction ps as [|[r n] ps IH]; intros i w acc R Hnd Hc Hps.
  { exists i. split; [cbn; by rewrite app_nil_r|]. split; [apply extends_refl|]. split; [done|].
    intros p Hp. by apply not_elem_of_nil in Hp. }
  apply NoDup_cons in Hnd as [Hnp Hnd]. destruct (Hps (r, n) ltac:(by left)) as [Hp Hn].
  destruct (cache_node_ok i w (r, n) R Hp Hc Hn) as [C1 X1].
  destruct (IH (set_cache (<[key_of (r, n):=as_read (entry_of (r, n))]> (discovered_nodes_cache i)) i) w
              (acc ++ [as_read (entry_of (r, n))])) as (i' & H' & X' & C' & K').
  - exact (extends_registered _ _ X1 R).
  - done.
  - done.
  - intros p Hin. destruct (Hps p ltac:(by right)) as [Hpe Hpn].
    split; [exact Hpe|]. cbn. rewrite lookup_insert_ne; [done|].
    intros Ek. apply (expected_key_inj i w _ _ R Hp Hpe) in Ek as <-. done.
  - exists i'. split; [|split; [by eapply extends_trans|split; [done|]]].
    + rewrite fmap_cons. cbn [for_each_until]. rewrite (accept_node_ok i w (r, n) acc R Hp), H'.
      by rewrite <-app_assoc.
    + intros p [->|Hin]%elem_of_cons; [|by apply K'].
      destruct X' as (_ & _ & S'). eexists. eapply lookup_weaken, S'. cbn. apply lookup_insert_eq.
Qed.

Lemma imap_lookup {A B} (f : A -> string) (g : A -> B) ps :
  imap (fun i key => (key, (g <$> ps) !! i)) (f <$> ps) = (fun p => (f p, Some (g p))) <$> ps.
Proof.
  apply list_eq. intros i. rewrite list_lookup_imap, !list_lookup_fmap.
  by destruct (ps !! i).
Qed.

Lemma uncached_elem i p : p ∈ uncached i -> p ∈ expected i /\ discovered_nodes_cache i !! key_of p = None.
Proof. unfold uncached. rewrite list_elem_of_filter. naive_solver. Qed.

Lemma uncached_cons_missing i p ps : uncached i = p :: ps -> exists k ks, missing_keys i = k :: ks.
Proof. rewrite missing_keys_uncached. intros ->. eauto. Qed.

(** The batch gives the nodes that are not yet in the cache, and puts them
    there. *)
Lemma DiscoverNodesBatch_ok i w random_ms :
  connected i = true -> registered i w -> cache_ok i ->
  exists s', DiscoverNodesBatch random_ms (i, w) =
      (Ok ((fun p => as_read (entry_of p)) <$> uncached i), s') /\
    extends (i, w) s' /\ cache_ok s'.1 /\ cache_full s'.1.
Proof.
  intros Hcon R Hc. unfold DiscoverNodesBatch, get_impl. unfold mbind at 1, SR_bind at 1. cbn [fst].
  destruct (uncached i) as [|p ps] eqn:Eu.
  { rewrite missing_keys_uncached, Eu. exists (i, w). split; [done|]. split; [apply extends_refl|]. split; [done|].
    intros p Hp. destruct (discovered_nodes_cache i !! key_of p) eqn:E; [done|].
    assert (p ∈ uncached i) as Hin by (by apply list_elem_of_filter). rewrite Eu in Hin.
    by apply not_elem_of_nil in Hin. }
  assert (Hk : missing_keys i = key_of <$> p :: ps) by (by rewrite missing_keys_uncached, Eu).
  destruct (uncached_cons_missing i p ps Eu) as (k0 & ks & Ek). rewrite Ek, Hcon. cbn [negb]. rewrite <-Ek, Hk.
  assert (Hps : forall q, q ∈ p :: ps -> q ∈ expected i /\ discovered_nodes_cache i !! key_of q = None)
    by (intros q Hq; apply uncached_elem; by rewrite Eu).
  assert (Hpres : Forall2 (fun k v => contents w !! k = Some v) (key_of <$> p :: ps)
                    ((fun q => NodeToString (entry_of q)) <$> p :: ps)).
  { apply Forall2_fmap, Forall_Forall2_diag, Forall_forall. intros [r n] Hq.
    apply (registered_at i w r n R), Hps, Hq. }
  destruct (wait_present (key_of <$> p :: ps) w) as (w1 & Hw1 & C1).
  { apply Forall_fmap, Forall_forall. intros [r n] Hq. eexists. cbn. apply (registered_at i w r n R), Hps, Hq. }
  set (w2 := sleep_for (ms random_ms) w1).
  assert (C2 : contents w2 = contents w) by (unfold w2; by rewrite quiet_sleep).
  destruct (multiGet_present (key_of <$> p :: ps) ((fun q => NodeToString (entry_of q)) <$> p :: ps) w2)
    as (w3 & Hw3 & C3); [by rewrite C2|].
  assert (X3 : extends (i, w) (i, w3)).
  { split; [by destruct i|]. split; [cbn; congruence|done]. }
  destruct (accept_nodes_ok (p :: ps) i w3 []) as (i' & Ha & X' & C' & K').
  - exact (extends_registered _ _ X3 R).
  - rewrite <-Eu. apply NoDup_filter, NoDup_expected.
  - done.
  - exact Hps.
  - exists (i', w3). split; [|split; [by eapply extends_trans|split; [done|]]].
    + unfold sr_catch, sleep, multi_get, sr_catch, mbind, SR_bind, on_snd. cbn [fst snd].
      rewrite Hw1. fold w2. cbn [fst snd]. rewrite Hw3, imap_lookup, Ha. done.
    + intros q Hq. cbn [fst] in Hq |- *. rewrite (extends_expected _ _ X' : expected i' = expected i) in Hq.
      destruct (discovered_nodes_cache i !! key_of q) as [x|] eqn:E.
      * destruct X' as (_ & _ & S'). exists x. by eapply lookup_weaken, S'.
      * apply K'. rewrite <-Eu. by apply list_elem_of_filter.
Qed.

End DiscoverCorrect.

(** ** Properties *)

Section DiscoveryProperties.
  Context {W : Type} `{ClockLaws W} `{TCPStoreLaws W} `{StoreNet W} `{ConfigCenter W} `{FloatLib}.
  Hypothesis quiet_sleep : forall d w, contents (sleep_for d w) = contents w.
  Context (random_ms : W -> Z) (e : ARole -> Z -> NodeEntry).

(** The nodes of one role, in rank order. *)
Definition nodes_of (i : Impl) (r : ARole) : list NodeEntry := (fun n => as_read (e r n)) <$> ranks (world_size i r).

Lemma all_nodes_split i : all_nodes e i = nodes_of i TRAINING ++ nodes_of i INFERENCE.
Proof. unfold all_nodes, nodes_of, expected. by rewrite fmap_app, <-!list_fmap_compose. Qed.

Lemma nodes_of_role i w r : registered e i w -> Forall (fun x => role x = r) (nodes_of i r).
Proof.
  intros R. apply Forall_fmap, Forall_forall. intros n Hn. apply elem_of_seqZ in Hn.
  destruct (R r n) as (_ & _ & _ & Hr & _); [lia|]. done.
Qed.

Lemma filter_all_nodes i w r : registered e i w -> filter (fun x => role x = r) (all_nodes e i) = nodes_of i r.
Proof.
  intros R. rewrite all_nodes_split, filter_app.
  pose proof (nodes_of_role i w TRAINING R) as HT. pose proof (nodes_of_role i w INFERENCE R) as HI.
  assert (HT' : Forall (fun x => role x <> INFERENCE) (nodes_of i TRAINING))
    by (eapply Forall_impl; [exact HT|]; intros x Hx; cbn in Hx; by rewrite Hx).
  assert (HI' : Forall (fun x => role x <> TRAINING) (nodes_of i INFERENCE))
    by (eapply Forall_impl; [exact HI|]; intros x Hx; cbn in Hx; by rewrite Hx).
  destruct r.
  - rewrite (filter_all _ (nodes_of i TRAINING) HT), (filter_none _ _ HI'). apply app_nil_r.
  - by rewrite (filter_all _ (nodes_of i INFERENCE) HI), (filter_none _ _ HT').
Qed.

Lemma all_nodes_complete i w : registered e i w -> CheckNodesCount i (all_nodes e i) = true.
Proof.
  intros R. unfold CheckNodesCount, count_role. rewrite !(filter_all_nodes i w) by done.
  unfold nodes_of, ranks. rewrite !length_fmap, !length_seqZ. cbn [world_size].
  apply andb_true_iff. rewrite !Z.leb_le. lia.
Qed.

Lemma assign_hosts_filter own nodes : assign_hosts own nodes =
  (node_info <$> filter (fun x => role x = other_role own) nodes, node_info <$> filter (fun x => role x = own) nodes).
Proof.
  induction nodes as [|x nodes IH] using rev_ind; [done|]. unfold assign_hosts in *.
  rewrite foldl_app, IH, !filter_app. cbn [foldl]. rewrite !fmap_app, !filter_cons.
  destruct (role x) eqn:Ex, own; cbn [other_role];
    rewrite ?(decide_True (P := _ <> _)) by done; rewrite ?(decide_False (P := _ <> _)) by (intros E; by destruct E);
    rewrite ?(decide_True (P := _ = _)) by done; rewrite ?(decide_False (P := _ = _)) by done;
    by rewrite ?app_nil_r.
Qed.

Lemma cache_ok_empty i : discovered_nodes_cache i = ∅ -> cache_ok e i.
Proof. intros E p _ entry Hp. by rewrite E, lookup_empty in Hp. Qed.

Lemma uncached_empty i : discovered_nodes_cache i = ∅ -> uncached i = expected i.
Proof.
  intros E. apply filter_all, Forall_forall. intros p _. rewrite E. apply lookup_empty.
Qed.

(** C19: the two ways of discovering nodes agree on a fresh discovery: with every node
    of the job registered, both find all of them, each as it registered itself, in
    the order of roles and ranks. *)
Theorem discovery_equivalent (i : Impl) (w : W) (r : Z) :
  connected i = true -> registered e i w -> discovered_nodes_cache i = ∅ ->
  (DiscoverNodes (i, w)).1 = Ok (all_nodes e i) /\
  (DiscoverNodesBatch r (i, w)).1 = (DiscoverNodes (i, w)).1.
Proof.
  intros Hc R E. destruct (DiscoverNodes_ok e i w Hc R (cache_ok_empty i E)) as (s & Hs & _).
  destruct (DiscoverNodesBatch_ok quiet_sleep e i w r Hc R (cache_ok_empty i E)) as (s' & Hs' & _).
  rewrite Hs, Hs', uncached_empty by done. done.
Qed.

Lemma discover_round_ok (b : bool) i w :
  connected i = true -> registered e i w -> discovered_nodes_cache i = ∅ ->
  exists s', discover_round random_ms b (i, w) = (Ok (all_nodes e i), s') /\ extends (i, w) s' /\ cache_full s'.1.
Proof.
  intros Hc R E. destruct b; cbn [discover_round].
  - destruct (DiscoverNodesBatch_ok quiet_sleep e i w (random_ms w) Hc R (cache_ok_empty i E)) as (s' & Hs' & X & _ & F).
    exists s'. unfold discover_round. cbn [snd]. rewrite Hs', uncached_empty by done. done.
  - destruct (DiscoverNodes_ok e i w Hc R (cache_ok_empty i E)) as (s & Hs & X & _ & F).
    by exists s.
Qed.

Lemma discover_all_peers (fuel : nat) (m : DiscoveryManager) (i : Impl) (w : W) (use_batch : bool) :
  GetOptionBool option_definitions (options_ m) DISCOVERY_USE_BATCH_API = Ok use_batch ->
  connected i = true -> registered e i w -> discovered_nodes_cache i = ∅ ->
  exists s', DiscoverAllNodes random_ms (S fuel) (m, (i, w)) = (Ok (all_nodes e i), s').
Proof.
  intros Ho Hc R E. destruct (discover_round_ok use_batch i w Hc R E) as ([i' w'] & Hr & X & _).
  exists (m, (i', w')). unfold DiscoverAllNodes. rewrite Ho. cbn [discover_loop snd]. rewrite Z.sub_diag.
  change (0 <? ms kManagerTimeout) with true. cbn iota. rewrite Hr. cbn [fst]. destruct X as (Ei & _). cbn [fst] in Ei.
  replace (CheckNodesCount i' (all_nodes e i)) with (CheckNodesCount i (all_nodes e i)) by (by rewrite Ei).
  by rewrite (all_nodes_complete i w R).
Qed.

(** C18: starting the service on a node once all nodes have registered entries that
    can be read back ([entry_ok]) and nothing is cached yet: whichever way of
    discovery the options choose, its peers are the nodes of the other role and its
    group the nodes of its own, in rank order and each as registered, with its host
    name up to the first NUL ([as_read]). *)
Theorem discovered_peers (fuel : nat) (m : DiscoveryManager) (i : Impl) (w : W) (use_batch : bool) :
  GetOptionBool option_definitions (options_ m) DISCOVERY_USE_BATCH_API = Ok use_batch ->
  connected i = true -> registered e i w -> discovered_nodes_cache i = ∅ ->
  exists nodes s', DiscoverAllNodes random_ms (S fuel) (m, (i, w)) = (Ok nodes, s') /\
    forall own, assign_hosts own nodes =
      (node_info <$> nodes_of i (other_role own), node_info <$> nodes_of i own).
Proof.
  intros Ho Hc R E. destruct (discover_all_peers fuel m i w use_batch Ho Hc R E) as (s' & Hd). exists (all_nodes e i), s'. split; [done|].
  intros own. rewrite assign_hosts_filter. by rewrite !(filter_all_nodes i w).
Qed.

Lemma uncached_full i : cache_full i -> uncached i = [].
Proof.
  intros F. apply filter_none, Forall_forall. intros p Hp E. destruct (F p Hp) as [x Hx]. congruence.
Qed.

Lemma batch_full i w r : cache_full i -> DiscoverNodesBatch r (i, w) = (Ok [], (i, w)).
Proof.
  intros F. unfold DiscoverNodesBatch, get_impl, mbind, SR_bind. cbn [fst].
  by rewrite missing_keys_uncached, uncached_full.
Qed.

Lemma discover_loop_expires fuel : forall start i w,
  cache_full i -> CheckNodesCount i [] = false ->
  ms kManagerTimeout - (now w - start) <= Z.of_nat fuel * ms kDiscoveryInterval ->
  exists s', discover_loop random_ms (S fuel) true start (i, w) =
    Some (Throw "Timeout waiting for all nodes to be discovered", s').
Proof.
  induction fuel as [|fuel IH]; intros start i w F Hn Ht; cbn [discover_loop snd].
  - rewrite (proj2 (Z.ltb_ge _ _)) by lia. eauto.
  - destruct (now w - start <? ms kManagerTimeout); [|eauto].
    unfold discover_round. rewrite batch_full by done. cbn [fst snd]. rewrite Hn.
    apply IH; [done|done|]. pose proof (sleep_now (ms kDiscoveryInterval) w) as Hs.
    change (ms kDiscoveryInterval) with 1000000000 in *. lia.
Qed.

(** The batch discovery leaves out the nodes it has found before.  Once all nodes
    are in the cache it finds none, and a second [DiscoverAllNodes] waits for half
    an hour and throws, although every node is registered; 1800 rounds are
    what the timeout allows. *)
Theorem batch_discovery_forgets (fuel : nat) (m : DiscoveryManager) (i : Impl) (w : W) :
  GetOptionBool option_definitions (options_ m) DISCOVERY_USE_BATCH_API = Ok true ->
  connected i = true -> registered e i w -> discovered_nodes_cache i = ∅ ->
  0 < train_world_size i \/ 0 < inference_world_size i -> 1800 <= Z.of_nat fuel ->
  exists s', DiscoverAllNodes random_ms (S fuel) (m, (i, w)) = (Ok (all_nodes e i), s') /\
    (DiscoverAllNodes random_ms (S fuel) s').1 = Throw "Timeout waiting for all nodes to be discovered".
Proof.
  intros Ho Hc R E Hpos Hf. destruct (discover_round_ok true i w Hc R E) as ([i' w'] & Hr & X & Full).
  destruct X as (Ei & _). cbn [fst] in Ei, Full.
  exists (m, (i', w')). split.
  - unfold DiscoverAllNodes. rewrite Ho. cbn [discover_loop snd]. rewrite Z.sub_diag.
    change (0 <? ms kManagerTimeout) with true. cbn iota. rewrite Hr. cbn [fst].
    replace (CheckNodesCount i' (all_nodes e i)) with (CheckNodesCount i (all_nodes e i)) by (by rewrite Ei).
    by rewrite (all_nodes_complete i w R).
  - unfold DiscoverAllNodes. rewrite Ho. cbn [snd].
    destruct (discover_loop_expires fuel (now w') i' w' Full) as (s2 & Hl).
    + rewrite Ei. unfold CheckNodesCount. cbn. apply andb_false_iff.
      destruct Hpos; [left|right]; apply Z.leb_gt; done.
    + rewrite Z.sub_diag, Z.sub_0_r. change (ms kManagerTimeout) with 1800000000000.
      change (ms kDiscoveryInterval) with 1000000000. lia.
    + by rewrite Hl.
Qed.

(** *** World sizes *)

Lemma MakeSureConnect_connected i w : connected i = true -> MakeSureConnect (i, w) = (Ok tt, (i, w)).
Proof. intros Hc. unfold MakeSureConnect, get_impl, mbind, SR_bind. cbn. by rewrite Hc. Qed.

(** Whether to register: unless the value that is there is the own one. *)
Lemma check_registered_ok key n i w : in_i32 n ->
  exists b w', check_registered key n (i, w) = (Ok b, (i, w')) /\ contents w' = contents w /\
    (b = false -> exists v, contents w !! key = Some v /\ stoi v = Ok n).
Proof.
  intros Hn. unfold check_registered, sr_catch, mbind, SR_bind, on_snd, sr_lift. cbn [fst snd].
  destruct (contents w !! key) as [v|] eqn:Ev.
  - destruct (get_present key v w Ev) as (w' & Hg & Hw). rewrite Hg.
    destruct (stoi v) as [x| |] eqn:Es.
    + destruct (Z.eqb_spec x n) as [->|Hx].
      * exists false, w'. split; [done|]. split; [done|]. eauto.
      * exists true, w'. done.
    + by exists true, w'.
    + unfold stoi in Es. by repeat case_match.
  - destruct (get_absent key w Ev) as (err & w' & Hg & Hw). rewrite Hg. by exists true, w'.
Qed.

Lemma WorldSizeKey_ne r : WorldSizeKey (other_role r) <> WorldSizeKey r.
Proof. by destruct r. Qed.

(** The own size is in the store after the two blocks that register it. *)
Lemma register_world_size i w : in_i32 (my_world_size i) ->
  let key := WorldSizeKey (impl_role i) in
  exists b w1 w2,
    check_registered key (my_world_size i) (i, w) = (Ok b, (i, w1)) /\
    (if b then on_snd (store_set key (to_string (my_world_size i))) else mret tt) (i, w1) = (Ok tt, (i, w2)) /\
    (exists v, contents w2 !! key = Some v /\ stoi v = Ok (my_world_size i)) /\
    forall k, k <> key -> contents w2 !! k = contents w !! k.
Proof.
  intros Hn key. destruct (check_registered_ok key (my_world_size i) i w Hn) as (b & w1 & Hb & C1 & Hv).
  destruct b.
  - destruct (set_stores key (to_string (my_world_size i)) w1) as (w2 & Hs & C2).
    exists true, w1, w2. split; [done|]. split; [unfold on_snd; cbn [fst snd]; by rewrite Hs|].
    split.
    + exists (to_string (my_world_size i)). rewrite C2, lookup_insert_eq. split; [done|]. by apply stoi_to_string.
    + intros k Hk. by rewrite C2, lookup_insert_ne, C1 by done.
  - exists false, w1, w1. split; [done|]. split; [done|]. split; [rewrite C1; by apply Hv|]. intros k _. by rewrite C1.
Qed.

(** An attempt of the exchange of world sizes by a connected node: its own size
    is in the store afterwards, whatever was registered for its role before; when the
    other role has registered its size the node knows both, and otherwise the
    attempt throws. *)
Theorem world_sizes_exchanged (i : Impl) (w : W) :
  connected i = true -> in_i32 (my_world_size i) ->
  exists r s', world_size_attempt (i, w) = (r, s') /\
    (exists v, contents s'.2 !! WorldSizeKey (impl_role i) = Some v /\ stoi v = Ok (my_world_size i)) /\
    (forall n, in_i32 n -> contents w !! WorldSizeKey (other_role (impl_role i)) = Some (to_string n) ->
       r = Ok tt /\ world_size s'.1 (impl_role i) = my_world_size i /\
       world_size s'.1 (other_role (impl_role i)) = n) /\
    (contents w !! WorldSizeKey (other_role (impl_role i)) = None -> exists err, r = Throw err).
Proof.
  intros Hc Hn. destruct (register_world_size i w Hn) as (b & w1 & w2 & H1' & H2' & Hv & Hk).
  pose proof (Hk _ (WorldSizeKey_ne (impl_role i))) as Ho.
  unfold world_size_attempt. unfold mbind at 1, SR_bind at 1. rewrite MakeSureConnect_connected by done.
  unfold mbind at 1, SR_bind at 1. cbn [get_impl fst]. unfold get_impl. cbn [fst].
  unfold mbind at 1, SR_bind at 1. rewrite H1'. unfold mbind at 1, SR_bind at 1. rewrite H2'.
  unfold sr_catch, mbind, SR_bind, on_snd. cbn [fst snd].
  destruct (contents w2 !! WorldSizeKey (other_role (impl_role i))) as [ov|] eqn:Eo.
  - destruct (get_present _ ov w2 Eo) as (w3 & Hg & C3). rewrite Hg. unfold sr_lift.
    destruct (stoi ov) as [x|err|] eqn:Ex.
    + eexists _, _. split; [reflexivity|]. cbn [fst snd]. rewrite C3. split; [done|]. split; [|congruence].
      intros n Hi Hw. rewrite <-Ho in Hw. injection Hw as ->. rewrite stoi_to_string in Ex by done.
      injection Ex as <-. unfold world_size, my_world_size in *. by destruct (impl_role i).
    + eexists _, _. split; [reflexivity|]. cbn [fst snd]. rewrite quiet_sleep, C3. split; [done|]. split; [|eauto].
      intros n Hi Hw. rewrite <-Ho in Hw. injection Hw as ->. by rewrite stoi_to_string in Ex.
    + unfold stoi in Ex. by repeat case_match.
  - destruct (get_absent _ w2 Eo) as (err & w3 & Hg & C3). rewrite Hg.
    eexists _, _. split; [reflexivity|]. cbn [fst snd]. rewrite quiet_sleep, C3. split; [done|]. split; [|eauto].
    intros n _ Hw. congruence.
Qed.

End DiscoveryProperties.

(** *** The address of the master *)

Section MasterAddress.
  Context {W : Type} `{StoreNet W} `{ConfigCenterLaws W} `{FloatLib}.

Lemma digits_all s : all_chars (fun c => is_digit c) s -> all_charsb (fun c => is_digit c) s = true.
Proof. induction s as [|c s IH]; [done|]. intros [Hc Hs]. cbn. apply Is_true_true in Hc. by rewrite Hc, IH. Qed.

Lemma parse_master_ok addr port : all_chars (fun c => c <> COLON) addr -> 0 <= port < 2 ^ 31 ->
  parse_master (addr ++ COLON_str ++ to_string port) = Ok (addr, port).
Proof.
  intros Ha Hp. unfold parse_master.
  change (COLON_str ++ to_string port)%string with (String COLON (to_string port)).
  rewrite split_line_app by done. pose proof (rank_digits port (proj1 Hp)) as Hd.
  rewrite decide_False by apply to_string_nonempty. rewrite digits_all by done. cbn [negb].
  by rewrite stoi_to_string by (unfold in_i32; lia).
Qed.

Lemma all_charsb_app p a b : all_charsb p (a ++ b) = all_charsb p a && all_charsb p b.
Proof. induction a as [|c a IH]; [done|]. rewrite string_app_cons. cbn. by rewrite IH, andb_assoc. Qed.

Lemma parse_master_colon a b port : all_chars (fun c => c <> COLON) a ->
  parse_master ((a ++ COLON_str ++ b) ++ COLON_str ++ to_string port) = Throw "Invalid port: ".
Proof.
  intros Ha. unfold parse_master. rewrite !string_app_assoc.
  change (COLON_str ++ b ++ COLON_str ++ to_string port)%string
    with (String COLON (b ++ COLON_str ++ to_string port)).
  rewrite split_line_app by done. rewrite decide_False by (by destruct b).
  by rewrite !all_charsb_app, andb_false_r.
Qed.

(** A master that started and whose address the config center accepted is
    found by the other nodes at the address and port it listens on; an address with a
    colon, such as every IPv6 address, is published just the same and never
    understood. *)
Theorem master_address_found (i : Impl) (port : Z) (w w1 w2 : W) :
  in_i32 (role_world_size i * 2) -> 0 <= port < 2 ^ 31 ->
  serve (master_addr i) port (role_world_size i * 2) w = (Ok tt, w1) ->
  config_ok TcpStoreAddressKey (master_addr i ++ COLON_str ++ to_string port) ->
  SetConfig TcpStoreAddressKey (master_addr i ++ COLON_str ++ to_string port) w1 = (Ok true, w2) ->
  start_master_at port (i, w) = (Ok true, (set_master true true (master_addr i) port i, w2)) /\
  (all_chars (fun c => c <> COLON) (master_addr i) ->
     (fetch_attempt w2).1 = Done (master_addr i, port)) /\
  (forall a b, all_chars (fun c => c <> COLON) a -> master_addr i = (a ++ COLON_str ++ b)%string ->
     (fetch_attempt w2).1 = Failed "Invalid port: ").
Proof.
  intros Hws Hp Hserve Hok Hset. destruct (set_get_config _ _ _ _ Hok Hset) as (w3 & Hget). split; [|split].
  - unfold start_master_at, get_impl, sr_lift, set_impl, on_snd, mbind, SR_bind. cbn [fst snd].
    rewrite chk32_small by done. rewrite Hserve. cbn [fst snd]. by rewrite Hset.
  - intros Ha. unfold fetch_attempt. rewrite Hget, parse_master_ok by done. done.
  - intros a b Ha E. unfold fetch_attempt. rewrite Hget, E, parse_master_colon by done. done.
Qed.

End MasterAddress.

(** *** The cache of the manager *)

Section ManagerCache.
  Context {W : Type} `{Clock W} `{TCPStore W} `{StoreNet W} `{ConfigCenter W} `{FloatLib} (random_ms : W -> Z).

Definition no_cache (m : DiscoveryManager) : Prop :=
  enable_discovery_thread_ m = false /\ nodes_cached_ m = false /\ all_nodes_ready_ m = false.

Lemma no_cache_modify f : (forall m, no_cache m -> no_cache (f m)) ->
  sr_keeps (fun s : DiscoveryManager * (Impl * W) => no_cache s.1) (modify_manager f).
Proof. intros Hf [m s] Hm. by apply Hf. Qed.

Lemma no_cache_get : sr_keeps (fun s : DiscoveryManager * (Impl * W) => no_cache s.1) get_manager.
Proof. by intros [m s] Hm. Qed.

Lemma no_cache_on_snd {A} (c : SR (Impl * W) A) :
  sr_keeps (fun s : DiscoveryManager * (Impl * W) => no_cache s.1) (on_snd c).
Proof. intros [m s] Hm. unfold on_snd. cbn. by destruct (c s). Qed.

Hint Resolve no_cache_get no_cache_on_snd sr_keeps_ret : astate.

Ltac keep_manager :=
  repeat first
    [ apply sr_keeps_bind; [|intros ?]
    | apply no_cache_modify; by intros ? ?
    | match goal with |- sr_keeps _ (if ?b then _ else _) => destruct b end
    | solve [auto with astate] ].

Lemma no_cache_unregister : sr_keeps (fun s : DiscoveryManager * (Impl * W) => no_cache s.1) UnregisterCurrentNode.
Proof. unfold UnregisterCurrentNode. keep_manager. Qed.

Hint Resolve no_cache_unregister : astate.

Lemma no_cache_step s s' : manager_step random_ms s s' -> no_cache s.1 -> no_cache s'.1.
Proof.
  intros Hs Hm. destruct Hs as [s|s|s|s|fuel s|m s|s He _].
  - revert s Hm. change (sr_keeps (fun s : DiscoveryManager * (Impl * W) => no_cache s.1) Start).
    unfold Start. keep_manager.
  - revert s Hm. change (sr_keeps (fun s : DiscoveryManager * (Impl * W) => no_cache s.1) Manager_Stop).
    unfold Manager_Stop. keep_manager.
  - revert s Hm. change (sr_keeps (fun s : DiscoveryManager * (Impl * W) => no_cache s.1) RegisterCurrentNode).
    unfold RegisterCurrentNode. keep_manager.
  - by apply no_cache_unregister.
  - destruct s as [m s]. unfold DiscoverAllNodes. destruct (GetOptionBool _ _ _); [|done|done].
    by destruct (discover_loop _ _ _ _ _) as [[]|].
  - done.
  - destruct Hm as [Hf _]. congruence.
Qed.

(** Nothing ever fills the node cache of a manager: the discovery thread that
    would is not enabled.  Whatever is called on the manager, the two
    operations that wait for the cache can only time out. *)
Theorem node_cache_never_ready (options : Options) (addr : string) (role_rank : Z) (r : ARole)
    (rdma_port ctrl_port : Z) (s : Impl * W) (s' : DiscoveryManager * (Impl * W)) :
  rtc (manager_step random_ms) (new_manager options addr role_rank r rdma_port ctrl_port, s) s' ->
  is_ok (GetAllTrainingNodes s'.1) = false /\ is_ok (GetAllInferenceNodes s'.1) = false.
Proof.
  intros Hs. assert (Hn : no_cache s'.1).
  { revert Hs. apply (rtc_invariant _ (fun x => no_cache x.1)); [|done].
    intros a b Ha Hab. by eapply no_cache_step. }
  destruct Hn as (_ & Hc & _). unfold GetAllTrainingNodes, GetAllInferenceNodes. by rewrite Hc.
Qed.

End ManagerCache.

(** ** A job of three nodes *)

Module Job.

(** A world that is its time and the contents of the store. *)
Definition world : Type := Z * gmap string string.

#[local] Existing Instance PlainStore.store.
#[local] Existing Instance PlainStore.store_laws.

Definition on_store {A} (op : SR (gmap string string) A) : SR world A := fun w =>
  let '(r, c) := op w.2 in (r, (w.1 + 1, c)).

#[export] Instance clock : Clock world := {|
  now := fst; sleep_for d w := (w.1 + Z.max 0 d, w.2)
|}.
#[export] Instance clock_laws : ClockLaws world.
Proof. constructor. intros d w. cbn. lia. Qed.

#[export] Instance store : TCPStore world := {|
  store_set k v := on_store (store_set k v);
  store_get k := on_store (store_get k);
  store_multiGet ks := on_store (store_multiGet ks);
  store_wait ks := on_store (store_wait ks);
  store_deleteKey k := on_store (store_deleteKey k);
|}.

Lemma on_store_law {A} (op : SR (gmap string string) A) (w : world) r c (P : gmap string string -> Prop) :
  op w.2 = (r, c) -> P c -> exists w', on_store op w = (r, w') /\ P w'.2.
Proof. intros E Hp. unfold on_store. rewrite E. by eexists. Qed.

#[export] Instance store_laws : TCPStoreLaws world.
Proof.
  refine (Build_TCPStoreLaws _ store snd _ _ _ _ _ _ _).
  - intros k v w Hk. destruct (get_present (W := gmap string string) k v w.2) as (c & E & Hc); [exact Hk|].
    by apply (on_store_law _ w _ c (fun x => x = w.2)).
  - intros k w Hk. destruct (get_absent (W := gmap string string) k w.2) as (err & c & E & Hc); [exact Hk|].
    exists err. by apply (on_store_law _ w _ c (fun x => x = w.2)).
  - intros k v w. destruct (set_stores (W := gmap string string) k v w.2) as (c & E & Hc).
    by apply (on_store_law _ w _ c (fun x => x = <[k := v]> w.2)).
  - intros ks w Hk. destruct (wait_present (W := gmap string string) ks w.2) as (c & E & Hc); [exact Hk|].
    by apply (on_store_law _ w _ c (fun x => x = w.2)).
  - intros ks w Hk. destruct (wait_absent (W := gmap string string) ks w.2) as (err & c & E & Hc); [exact Hk|].
    exists err. by apply (on_store_law _ w _ c (fun x => x = w.2)).
  - intros ks vs w Hk. destruct (multiGet_present (W := gmap string string) ks vs w.2) as (c & E & Hc); [exact Hk|].
    by apply (on_store_law _ w _ c (fun x => x = w.2)).
  - intros k w. destruct (delete_removes (W := gmap string string) k w.2) as (c & E & Hc).
    by apply (on_store_law _ w _ c (fun x => x = delete k w.2)).
Defined.

#[export] Instance center : ConfigCenter world := TCPStoreCenter.TCPStoreConfigCenter.
#[export] Instance center_laws : ConfigCenterLaws world := TCPStoreCenter.TCPStoreConfigCenter_laws.

#[export] Instance net : StoreNet world := {|
  connect _ _ := mret tt; serve _ _ _ := mret tt; shut_down := id
|}.

#[export] Instance floats : FloatLib := {|
  float := unit; float_zero := tt; stof := fun _ => None; stod := fun _ => None
|}.

Definition node (r : ARole) (n : Z) : NodeEntry := MkNodeEntry n (MkNodeInfo "10.0.0.7" (7000 + n) (8000 + n)) r.

Definition impl : Impl :=
  MkImpl true false false "10.0.0.7" "10.0.0.7" 49500 0 2 2 1 true TRAINING ∅ ∅.

Definition full_store : gmap string string :=
  <[NodeKey 0 TRAINING := NodeToString (node TRAINING 0)]>
    (<[NodeKey 1 TRAINING := NodeToString (node TRAINING 1)]>
      (<[NodeKey 0 INFERENCE := NodeToString (node INFERENCE 0)]> ∅)).

Definition start : world := (0, full_store).

Definition manager : DiscoveryManager := new_manager ∅ "10.0.0.7" 0 TRAINING 7000 8000.

Lemma quiet d (w : world) : contents (sleep_for d w) = contents w.
Proof. done. Qed.

Lemma node_ok r n : 0 <= n < 2 -> entry_ok (node r n).
Proof.
  intros Hn. unfold entry_ok, in_i32. cbn [node rank node_info hostname_or_ip rdma_port ctrl_flow_port].
  change (c_str "10.0.0.7") with "10.0.0.7"%string. split; [done|]. split; [cbn; lia|].
  split; [apply (bool_decide_unpack _); vm_compute; exact I|]. lia.
Qed.

Lemma all_registered : registered node impl start.
Proof.
  intros r n Hn. assert (Hr : r = TRAINING /\ n = 0 \/ r = TRAINING /\ n = 1 \/ r = INFERENCE /\ n = 0).
  { destruct r; cbn in Hn; [|right; right; split; [done|lia]].
    destruct (decide (n = 0)); [left|right; left]; (split; [done|lia]). }
  split; [destruct r; cbn in Hn; lia|]. split; [apply node_ok; destruct r; cbn in Hn; lia|].
  split; [done|]. split; [done|].
  destruct Hr as [[-> ->]|[[-> ->]|[-> ->]]]; vm_compute; reflexivity.
Qed.

Lemma use_batch : GetOptionBool option_definitions (options_ manager) DISCOVERY_USE_BATCH_API = Ok true.
Proof. vm_compute. reflexivity. Qed.

End Job.

Import Job.

Lemma discovery_equivalent_witness :
  connected impl = true /\ (DiscoverNodesBatch 5 (impl, start)).1 = (DiscoverNodes (impl, start)).1.
Proof.
  split; [reflexivity|].
  exact (proj2 (discovery_equivalent quiet node impl start 5 eq_refl all_registered eq_refl)).
Defined.

Lemma discovered_peers_witness :
  exists nodes s', DiscoverAllNodes (fun _ => 5) 1 (manager, (impl, start)) = (Ok nodes, s') /\
    (assign_hosts TRAINING nodes).1 = [MkNodeInfo "10.0.0.7" 7000 8000].
Proof.
  destruct (discovered_peers quiet (fun _ => 5) node 0 manager impl start true use_batch eq_refl
              all_registered eq_refl) as (nodes & s' & Hd & Ha).
  exists nodes, s'. split; [exact Hd|]. rewrite (Ha TRAINING). vm_compute. reflexivity.
Defined.

Lemma batch_discovery_forgets_witness :
  exists s', DiscoverAllNodes (fun _ => 5) (S (Z.to_nat 1800)) (manager, (impl, start)) = (Ok (all_nodes node impl), s') /\
    (DiscoverAllNodes (fun _ => 5) (S (Z.to_nat 1800)) s').1 = Throw "Timeout waiting for all nodes to be discovered".
Proof.
  apply (batch_discovery_forgets quiet (fun _ => 5) node (Z.to_nat 1800) manager impl start use_batch eq_refl
           all_registered eq_refl); [by left|lia].
Defined.

Lemma world_sizes_exchanged_witness :
  let w := (0, <[WorldSizeKey INFERENCE := "1"%string]> (<[WorldSizeKey TRAINING := "7"%string]> ∅)) : world in
  exists r s', world_size_attempt (impl, w) = (r, s') /\
    exists v, contents s'.2 !! WorldSizeKey TRAINING = Some v /\ stoi v = Ok 2.
Proof.
  destruct (world_sizes_exchanged quiet impl
    (0, <[WorldSizeKey INFERENCE := "1"%string]> (<[WorldSizeKey TRAINING := "7"%string]> ∅)))
    as (r & s' & E & Hv & _); [done|unfold in_i32; cbn; lia|].
  exists r, s'. by split.
Defined.

Lemma master_address_found_witness :
  exists w2 : world, (fetch_attempt w2).1 = Done ("10.0.0.7"%string, 49500).
Proof.
  eexists.
  refine (proj1 (proj2 (master_address_found impl 49500 start start _ _ _ _ _ _)) _).
  - unfold in_i32. cbn. lia.
  - lia.
  - reflexivity.
  - exact I.
  - reflexivity.
  - apply (bool_decide_unpack _). vm_compute. exact I.
Defined.

Lemma node_cache_never_ready_witness :
  let s := (manager, (impl, start)) in
  is_ok (GetAllTrainingNodes (discovery_thread_round s).2.1) = true /\
  is_ok (GetAllTrainingNodes (RegisterCurrentNode s).2.1) = false.
Proof.
  split; [vm_compute; reflexivity|].
  apply (node_cache_never_ready (fun _ => 5) ∅ "10.0.0.7" 0 TRAINING 7000 8000 (impl, start)).
  apply rtc_once, step_register.
Defined.

(** A node that registers itself is read back by the others exactly as it is, when
    its host name has no zero byte, fits the buffers and has no colon; and
    its key names its rank and role. *)
Theorem node_text_roundtrip (entry : NodeEntry) :
  entry_ok entry -> all_chars (fun c => c <> zero) (hostname_or_ip (node_info entry)) -> 0 <= rank entry ->
  StringToNode (NodeToString entry) = Ok entry /\
  parse_node_key (NodeKey (rank entry) (role entry)) = Some (rank entry, role entry).
Proof.
  intros He Hz Hr. rewrite StringToNode_NodeToString by done. split.
  - unfold as_read. rewrite c_str_id by done. by destruct entry as [? [] ?].
  - apply parse_NodeKey. destruct He as (_ & _ & _ & Hi & _). unfold in_i32 in Hi. lia.
Qed.

Lemma node_text_roundtrip_witness :
  StringToNode (NodeToString (node INFERENCE 1)) = Ok (node INFERENCE 1) /\
  parse_node_key (NodeKey 1 INFERENCE) = Some (1, INFERENCE).
Proof.
  apply (node_text_roundtrip (node INFERENCE 1)).
  - apply node_ok. lia.
  - apply (bool_decide_unpack _). vm_compute. exact I.
  - cbn. lia.
Defined.
