(* ===== verification/Serializer.v ===== *)
(** * The binary form of a tensor

    transport/atensor_serializer.h and .cpp: the meta data of a tensor as
    bytes in host memory, and the copies of its data between host and device
    memory.  Integers are stored as on the little-endian machines the library
    runs on. *)

From S2P Require Import Prelude Tensor Messages.
Local Open Scope Z_scope.

(** ** Bytes *)

(** The [n] bytes of an integer in memory, and the unsigned integer of bytes. *)
Fixpoint le_bytes (n : nat) (x : Z) : list Z :=
  match n with O => [] | S n' => x mod 256 :: le_bytes n' (x / 256) end.

Fixpoint le_value (bytes : list Z) : Z :=
  match bytes with [] => 0 | b :: bytes' => b + 256 * le_value bytes' end.

(** [memcpy(buffer + pos, bytes, ...)] and [memcpy(..., buffer + pos, n)]. *)
Definition write_bytes (buffer : list Z) (pos : nat) (bytes : list Z) : result (list Z) :=
  if (pos + length bytes <=? length buffer)%nat
  then Ok (take pos buffer ++ bytes ++ drop (pos + length bytes) buffer) else Undef.

Definition read_bytes (buffer : list Z) (pos n : nat) : result (list Z) :=
  if (pos + n <=? length buffer)%nat then Ok (take n (drop pos buffer)) else Undef.

(** ** Meta data *)

(** The bytes of a size or stride array of [dim_num] elements. *)
Definition dims_bytes (p : option (list Z)) (dim_num : Z) : result (list Z) :=
  match p with
  | Some l => if dim_num <? 0 then Undef else l' ← copy_array l dim_num; Ok (concat (map (le_bytes 8) l'))
  | None => if dim_num =? 0 then Ok [] else Undef
  end.

Definition bool_byte (b : bool) : Z := if b then 1 else 0.

(** The fields in the order in which they are written. *)
Definition meta_fields (t : ATensor) : result (list (list Z)) :=
  sz ← dims_bytes (at_size t) (dim_num t);
  st ← dims_bytes (at_stride t) (dim_num t);
  Ok [le_bytes 4 (dim_num t); sz; st; le_bytes 1 (ATDtype.code (dtype t));
      [bool_byte (at_conj t)]; [bool_byte (at_neg t)]; [bool_byte (requires_grad t)];
      le_bytes 4 (storage_size (storage t));
      le_bytes 1 (device_index (device (storage t)));
      le_bytes 1 (device_type_code (device_type (device (storage t))))].

(** [SERIALIZE_FIELD_H2H] *)
Definition write_field (field : list Z) (bc : list Z * nat) : result (list Z * nat) :=
  buffer ← write_bytes bc.1 bc.2 field; Ok (buffer, (bc.2 + length field)%nat).

(** The buffer after the call; the returned size is [GetTotalMetaSize]. *)
Definition SerializeTensorMeta (t : ATensor) (buffer : list Z) : result (Z * list Z) :=
  fields ← meta_fields t;
  '(buffer', _) ← for_each write_field fields (buffer, O);
  Ok (GetTotalMetaSize t, buffer').

(** The overload that returns a string: [result.resize(meta_size)] first. *)
Definition SerializeTensorMetaToString (t : ATensor) : result (list Z) :=
  '(_, s) ← SerializeTensorMeta t (repeat 0 (Z.to_nat (GetTotalMetaSize t))); Ok s.

(** [DESERIALIZE_FIELD_H2H]: the bytes of a field, and the cursor after it. *)
Definition read_field (buffer : list Z) (pos n : nat) : result (list Z * nat) :=
  bytes ← read_bytes buffer pos n; Ok (bytes, (pos + n)%nat).

(** An array of [n] 64-bit integers. *)
Fixpoint int64s_of_bytes (n : nat) (bytes : list Z) : list Z :=
  match n with O => [] | S n' => i64 (le_value (take 8 bytes)) :: int64s_of_bytes n' (drop 8 bytes) end.

(** The fields that are not in the buffer keep their initial values; the four
    bytes of the storage size go to the low half of a zero [size_t]. *)
Definition DeserializeTensorMeta (buffer : list Z) : result ATensor :=
  '(b, pos) ← read_field buffer 0 4;
  let dim_num := i32 (le_value b) in
  _ ← throw_if (dim_num <? 0) "std::bad_array_new_length";
  let n := Z.to_nat dim_num in
  '(sz, pos) ← read_field buffer pos (8 * n);
  '(st, pos) ← read_field buffer pos (8 * n);
  '(b, pos) ← read_field buffer pos 1;
  dtype ← cast_dtype (le_value b);
  '(cj, pos) ← read_field buffer pos 1;
  '(ng, pos) ← read_field buffer pos 1;
  '(grad, pos) ← read_field buffer pos 1;
  '(size, pos) ← read_field buffer pos 4;
  '(index, pos) ← read_field buffer pos 1;
  '(b, pos) ← read_field buffer pos 1;
  dev ← cast_device_type (le_value b);
  Ok (MkATensor (Some (int64s_of_bytes n sz)) (Some (int64s_of_bytes n st)) 0 dim_num dtype
        (negb (le_value cj =? 0)) (negb (le_value ng =? 0)) (negb (le_value grad =? 0))
        (MkATStorage (le_value size) (MkATDevice dev (i8 (le_value index))) 0)).

(** The overload on a string calls itself: the call [DeserializeTensorMeta(data)]
    selects the overload that takes the string.  [None]: the fuel is used up. *)
Fixpoint DeserializeTensorMetaFromString (fuel : nat) (data : list Z) : option (option ATensor) :=
  match fuel with
  | O => None
  | S fuel' =>
      match data with
      | [] => Some None
      | _ => DeserializeTensorMetaFromString fuel' data
      end
  end.

(** ** Data *)

Inductive cudaMemcpyKind : Type := HostToHost | HostToDevice | DeviceToHost | DeviceToDevice.

Definition GetCudaMemcpyKind (from_device to_device : bool) : cudaMemcpyKind :=
  if from_device then (if to_device then DeviceToDevice else DeviceToHost)
  else (if to_device then HostToDevice else HostToHost).

(** Blocks of host and of device memory by their address. *)
Record memory : Type := MkMemory { host : gmap Z (list Z); dev_mem : gmap Z (list Z) }.

Definition memcpy (m : memory) (dst src n : Z) : result memory :=
  match host m !! dst, host m !! src with
  | Some d, Some b =>
      if (n <=? Z.of_nat (length d)) && (n <=? Z.of_nat (length b))
      then Ok (MkMemory (<[dst := take (Z.to_nat n) b ++ drop (Z.to_nat n) d]> (host m)) (dev_mem m))
      else Undef
  | _, _ => Undef
  end.

Section Data.
(** The CUDA runtime and the allocators: the address of the new block, 0 for
    a failure, and the memory after the call. *)
Context (cudaMemcpy : memory -> Z -> Z -> Z -> cudaMemcpyKind -> memory)
  (malloc cudaMalloc : memory -> Z -> Z * memory) (free cudaFree : memory -> Z -> memory).

Definition MallocData (s : ATStorage) (data_size : Z) (m : memory) : ATStorage * memory :=
  match device_type (device s) with
  | ATDeviceType.CPU =>
      let m := if data s =? 0 then m else free m (data s) in
      let '(p, m) := malloc m data_size in (MkATStorage (storage_size s) (device s) p, m)
  | ATDeviceType.CUDA =>
      let m := if data s =? 0 then m else cudaFree m (data s) in
      let '(p, m) := cudaMalloc m data_size in (MkATStorage (storage_size s) (device s) p, m)
  | ATDeviceType.UNKNOWN_DEV => (s, m)
  end.

Definition SerializeTensorData (t : ATensor) (buffer : Z) (to_device : bool) (m : memory)
    : result (Z * memory) :=
  let n := storage_size (storage t) in
  match device_type (device (storage t)) with
  | ATDeviceType.CPU =>
      m' ← match GetCudaMemcpyKind false to_device with
           | HostToHost => memcpy m buffer (data (storage t)) n
           | HostToDevice => Ok (cudaMemcpy m buffer (data (storage t)) n HostToDevice)
           | _ => Ok m
           end;
      Ok (n, m')
  | ATDeviceType.CUDA =>
      Ok (n, cudaMemcpy m buffer (data (storage t)) n (GetCudaMemcpyKind true to_device))
  | ATDeviceType.UNKNOWN_DEV => Ok (0, m)
  end.

Definition with_storage (t : ATensor) (s : ATStorage) : ATensor :=
  MkATensor (at_size t) (at_stride t) (storage_offset t) (dim_num t) (dtype t) (at_conj t) (at_neg t)
    (requires_grad t) s.

Definition DeserializeTensorData (t : ATensor) (buffer : Z) (from_device : bool) (m : memory)
    : result (ATensor * memory) :=
  let data_size := storage_size (storage t) in
  match device_type (device (storage t)) with
  | ATDeviceType.CPU =>
      let '(s, m) := MallocData (storage t) data_size m in
      m' ← match GetCudaMemcpyKind from_device false with
           | HostToHost => memcpy m (data s) buffer data_size
           | DeviceToHost => Ok (cudaMemcpy m (data s) buffer data_size DeviceToHost)
           | _ => Ok m
           end;
      Ok (with_storage t s, m')
  | ATDeviceType.CUDA =>
      let '(s, m) := MallocData (storage t) data_size m in
      Ok (with_storage t s, cudaMemcpy m (data s) buffer data_size (GetCudaMemcpyKind from_device true))
  | ATDeviceType.UNKNOWN_DEV => Ok (t, m)
  end.
End Data.

(** ** Lemmas *)

Lemma le_bytes_length n x : length (le_bytes n x) = n.
Proof. revert x. induction n as [|n IH]; intros x; cbn; [done|]. by rewrite IH. Qed.

Lemma le_value_bytes n x : le_value (le_bytes n x) = x mod 256 ^ Z.of_nat n.
Proof.
  revert x. induction n as [|n IH]; intros x.
  - cbn. by rewrite Z.mod_1_r.
  - cbn [le_bytes le_value]. rewrite IH, Nat2Z.inj_succ, Z.pow_succ_r by lia.
    rewrite Z.rem_mul_r by lia. lia.
Qed.

Lemma write_fields fields buffer pos :
  (pos + length (concat fields) <= length buffer)%nat ->
  for_each write_field fields (buffer, pos) =
    Ok (take pos buffer ++ concat fields ++ drop (pos + length (concat fields)) buffer,
        (pos + length (concat fields))%nat).
Proof.
  revert buffer pos. induction fields as [|f fields IH]; intros buffer pos Hl; cbn.
  { by rewrite Nat.add_0_r, take_drop. }
  cbn in Hl. rewrite length_app in Hl. unfold write_field, write_bytes. cbn [fst snd].
  rewrite (proj2 (Nat.leb_le _ _)) by lia. cbn. rewrite IH.
  - assert (length (take pos buffer ++ f) = pos + length f)%nat as Hlen by (rewrite length_app, length_take; lia).
    rewrite length_app, Nat.add_assoc. f_equal. f_equal.
    rewrite (app_assoc (take pos buffer) f (drop _ _)), take_app_length' by done.
    rewrite drop_app_ge by lia. rewrite Hlen, drop_drop, <-!app_assoc. do 4 f_equal. lia.
  - rewrite !length_app, length_take, length_drop. lia.
Qed.

(** The cursor of the reader is at [tape]. *)
Definition at_tape (buffer : list Z) (pos : nat) (tape : list Z) : Prop :=
  drop pos buffer = tape /\ (pos <= length buffer)%nat.

Lemma read_field_at buffer pos n field rest : at_tape buffer pos (field ++ rest) -> length field = n ->
  read_field buffer pos n = Ok (field, (pos + n)%nat) /\ at_tape buffer (pos + n) rest.
Proof.
  intros [Hd Hp] <-. pose proof (f_equal length Hd) as Hl. rewrite length_drop, length_app in Hl.
  unfold read_field, read_bytes. rewrite (proj2 (Nat.leb_le _ _)) by lia. cbn. rewrite Hd, take_app_length.
  split; [done|]. split; [|lia]. by rewrite <-drop_drop, Hd, drop_app_length.
Qed.

Lemma i64_of_bytes x : in_i64 x -> i64 (le_value (le_bytes 8 x)) = x.
Proof.
  intros Hx. rewrite le_value_bytes. change (256 ^ Z.of_nat 8) with (2 ^ 64). unfold i64, in_i64 in *.
  rewrite Zplus_mod_idemp_l, Z.mod_small; lia.
Qed.

Lemma int64s_roundtrip l : Forall in_i64 l -> int64s_of_bytes (length l) (concat (map (le_bytes 8) l)) = l.
Proof.
  induction 1 as [|x l Hx _ IH]; [done|]. cbn [length int64s_of_bytes map concat].
  rewrite take_app_length', drop_app_length' by (by rewrite le_bytes_length). by rewrite i64_of_bytes, IH.
Qed.

Lemma dims_bytes_Ok l n : Z.of_nat (length l) = n -> dims_bytes (Some l) n = Ok (concat (map (le_bytes 8) l)).
Proof.
  intros <-. unfold dims_bytes, copy_array. rewrite (proj2 (Z.ltb_ge _ _)) by lia.
  rewrite Z.leb_refl. cbn. by rewrite Nat2Z.id, firstn_all.
Qed.

Lemma int64s_length l : length (concat (map (le_bytes 8) l)) = (8 * length l)%nat.
Proof.
  induction l as [|x l IH]; [done|]. cbn [map concat length]. rewrite length_app, le_bytes_length, IH. lia.
Qed.

(** The fields of a tensor with the arrays [sz] and [st]. *)
Definition meta_list (t : ATensor) (sz st : list Z) : list (list Z) :=
  [le_bytes 4 (dim_num t); concat (map (le_bytes 8) sz); concat (map (le_bytes 8) st);
   le_bytes 1 (ATDtype.code (dtype t));
   [bool_byte (at_conj t)]; [bool_byte (at_neg t)]; [bool_byte (requires_grad t)];
   le_bytes 4 (storage_size (storage t));
   le_bytes 1 (device_index (device (storage t)));
   le_bytes 1 (device_type_code (device_type (device (storage t))))].

Lemma meta_fields_Ok t sz st : dims_ok t sz st -> meta_fields t = Ok (meta_list t sz st).
Proof.
  intros (Hsz & Hst & Hdn & Hlen). unfold meta_fields. by rewrite Hsz, Hst, !dims_bytes_Ok by congruence.
Qed.

Lemma meta_list_length t sz st : dims_ok t sz st ->
  Z.of_nat (length (concat (meta_list t sz st))) + 15 = GetTotalMetaSize t.
Proof.
  intros (_ & _ & Hdn & Hlen). unfold meta_list. cbn [concat].
  rewrite !length_app, !int64s_length, !le_bytes_length. cbn [length].
  unfold GetTotalMetaSize, GetStorageMetaSize, GetATDeviceSize. lia.
Qed.

Lemma serialize_fields t fields : meta_fields t = Ok fields ->
  Z.of_nat (length (concat fields)) <= GetTotalMetaSize t ->
  exists pad, SerializeTensorMetaToString t = Ok (concat fields ++ pad) /\
    Z.of_nat (length (concat fields ++ pad)) = GetTotalMetaSize t.
Proof.
  intros E Hl. unfold SerializeTensorMetaToString, SerializeTensorMeta. rewrite E. cbn [mbind result_bind].
  rewrite write_fields by (rewrite repeat_length; lia). eexists. split; [reflexivity|].
  rewrite length_app, length_drop, repeat_length. lia.
Qed.

Ltac read_next Htape :=
  match type of Htape with at_tape ?b ?pos (?f ++ ?rest) =>
    match goal with |- context [read_field b pos ?n] =>
      let E := fresh in
      destruct (read_field_at b pos n f rest Htape) as [E Htape']; [|rewrite E; clear E Htape; rename Htape' into Htape; cbn [mbind result_bind]]
    end
  end.

(** A tensor whose fields have the values of their machine types. *)
Definition fields_in_range (t : ATensor) : Prop :=
  exists sz st, dims_ok t sz st /\ in_i32 (dim_num t) /\ Forall in_i64 sz /\ Forall in_i64 st /\
    i8 (device_index (device (storage t))) = device_index (device (storage t)) /\
    in_u64 (storage_size (storage t)).

Lemma i32_of_bytes x : in_i32 x -> i32 (le_value (le_bytes 4 x)) = x.
Proof.
  intros Hx. rewrite le_value_bytes. change (256 ^ Z.of_nat 4) with (2 ^ 32). unfold i32, in_i32 in *.
  rewrite Zplus_mod_idemp_l, Z.mod_small; lia.
Qed.

Lemma i8_of_byte x : i8 (le_value (le_bytes 1 x)) = i8 x.
Proof.
  rewrite le_value_bytes. change (256 ^ Z.of_nat 1) with (2 ^ 8). unfold i8. by rewrite Zplus_mod_idemp_l.
Qed.

Lemma cast_dtype_byte d : cast_dtype (le_value (le_bytes 1 (ATDtype.code d))) = Ok d.
Proof. unfold cast_dtype. rewrite i8_of_byte. apply cast_dtype_code. Qed.

Lemma cast_device_byte d : cast_device_type (le_value (le_bytes 1 (device_type_code d))) = Ok d.
Proof. unfold cast_device_type. rewrite i8_of_byte. apply cast_device_type_code. Qed.

Lemma bool_of_byte b : negb (le_value [bool_byte b] =? 0) = b.
Proof. by destruct b. Qed.

Lemma deserialize_fields t sz st pad : dims_ok t sz st -> fields_in_range t ->
  DeserializeTensorMeta (concat (meta_list t sz st) ++ pad) =
    Ok (MkATensor (at_size t) (at_stride t) 0 (dim_num t) (dtype t) (at_conj t) (at_neg t) (requires_grad t)
          (MkATStorage (u32 (storage_size (storage t))) (device (storage t)) 0)).
Proof.
  intros (Hsz & Hst & Hdn & Hlen) (sz' & st' & (E1 & E2 & _) & Hi & Fsz & Fst & Hdev & Hu).
  rewrite Hsz in E1. rewrite Hst in E2. injection E1 as <-. injection E2 as <-.
  match goal with |- DeserializeTensorMeta ?b = _ =>
    assert (at_tape b 0 b) as Htape by (split; [done|lia]); revert Htape; generalize b at 1 3 as buffer end.
  intros buffer Htape. unfold meta_list in Htape. cbn [concat] in Htape. rewrite <-!app_assoc in Htape. unfold DeserializeTensorMeta.
  read_next Htape; [apply le_bytes_length|]. rewrite i32_of_bytes by done.
  rewrite (proj2 (Z.ltb_ge _ _)) by lia. cbn [throw_if mbind result_bind].
  read_next Htape; [rewrite int64s_length; lia|]. read_next Htape; [rewrite int64s_length; lia|].
  read_next Htape; [apply le_bytes_length|]. rewrite cast_dtype_byte. cbn [mbind result_bind].
  do 3 (read_next Htape; [done|]). do 3 (read_next Htape; [apply le_bytes_length|]).
  rewrite cast_device_byte. cbn [mbind result_bind]. rewrite !bool_of_byte, i8_of_byte, Hdev.
  rewrite le_value_bytes. change (256 ^ Z.of_nat 4) with (2 ^ 32). rewrite Hdn, Nat2Z.id.
  rewrite int64s_roundtrip by done. rewrite <-Hlen at 1. rewrite int64s_roundtrip by done.
  rewrite Hsz, Hst. by destruct (device (storage t)).
Qed.

(** ** Properties *)

(** C37: the meta data of a tensor survives its binary form except for what
    the form does not hold: the reader gets the tensor with a zero storage
    offset, a null data pointer and the storage size modulo 2^32.  The string has
    the announced size, 15 bytes more than are written. *)
Theorem tensor_meta_roundtrip t : fields_in_range t ->
  exists s, SerializeTensorMetaToString t = Ok s /\
    Z.of_nat (length s) = GetTotalMetaSize t /\
    DeserializeTensorMeta s = Ok (MkATensor (at_size t) (at_stride t) 0 (dim_num t) (dtype t) (at_conj t)
      (at_neg t) (requires_grad t)
      (MkATStorage (u32 (storage_size (storage t))) (device (storage t)) 0)).
Proof.
  intros Ht. pose proof Ht as (sz & st & Hd & _).
  destruct (serialize_fields t _ (meta_fields_Ok _ _ _ Hd)) as (pad & Es & Hl).
  { pose proof (meta_list_length t sz st Hd). lia. }
  eexists. split; [exact Es|]. split; [done|]. by apply deserialize_fields.
Qed.

Lemma tensor_meta_roundtrip_witness :
  exists s, SerializeTensorMetaToString wide_tensor = Ok s /\
    Z.of_nat (length s) = GetTotalMetaSize wide_tensor /\
    DeserializeTensorMeta s = Ok (MkATensor (Some [4; 8]) (Some [8; 1]) 0 2 ATDtype.Half false false false
      (MkATStorage 128 (MkATDevice ATDeviceType.CPU 0) 0)).
Proof.
  apply (tensor_meta_roundtrip wide_tensor). exists [4; 8], [8; 1]. split; [by split_and!|].
  split; [by split|]. split; [repeat constructor; unfold in_i64; lia|].
  split; [repeat constructor; unfold in_i64; lia|]. by split.
Defined.

(** The string overload of [DeserializeTensorMeta] never returns a tensor: on
    any nonempty input it calls itself until the stack is used up. *)
Theorem deserialize_string_diverges fuel data : data <> [] ->
  DeserializeTensorMetaFromString fuel data = None.
Proof. intros Hd. induction fuel as [|fuel IH]; [done|]. by destruct data. Qed.

(** The data of a host tensor survives a copy through a host buffer: the new
    tensor has a block of its own with the bytes of the first one. *)
Theorem tensor_data_roundtrip cudaMemcpy malloc cudaMalloc free cudaFree t t' buffer m b d p m2 :
  device_type (device (storage t)) = ATDeviceType.CPU ->
  host m !! data (storage t) = Some b -> host m !! buffer = Some d -> data (storage t) <> buffer ->
  storage_size (storage t) = Z.of_nat (length b) -> (length b <= length d)%nat ->
  t' = with_storage t (MkATStorage (storage_size (storage t)) (device (storage t)) 0) ->
  (forall m' n, malloc m' n = (p, m2 m' n) /\ host (m2 m' n) = <[p := repeat 0 (Z.to_nat n)]> (host m')) ->
  host m !! p = None ->
  exists m1 t2 m3, SerializeTensorData cudaMemcpy t buffer false m = Ok (storage_size (storage t), m1) /\
    DeserializeTensorData cudaMemcpy malloc cudaMalloc free cudaFree t' buffer false m1 = Ok (t2, m3) /\
    data (storage t2) = p /\ host m3 !! p = Some b.
Proof.
  intros Hdev Hb Hd Hne Hs Hl -> Hm Hp. unfold SerializeTensorData, DeserializeTensorData, MallocData. cbn.
  rewrite Hdev. cbn. unfold memcpy. rewrite Hd, Hb, Hs.
  rewrite !(proj2 (Z.leb_le _ _)) by lia. cbn. rewrite Nat2Z.id, firstn_all.
  destruct (Hm (MkMemory (<[buffer := b ++ drop (length b) d]> (host m)) (dev_mem m)) (Z.of_nat (length b))) as [E Eh].
  do 3 eexists. split; [reflexivity|]. rewrite E. cbn in Eh |- *. rewrite Eh, lookup_insert_eq.
  assert (p <> buffer) as Hpb by (intros ->; congruence).
  rewrite lookup_insert_ne by done. rewrite lookup_insert_eq, Nat2Z.id, repeat_length, length_app, length_drop.
  rewrite !(proj2 (Z.leb_le _ _)) by lia. cbn. split; [reflexivity|]. cbn. split; [done|].
  rewrite lookup_insert_eq, take_app_length, drop_ge, app_nil_r; [done|]. by rewrite repeat_length.
Qed.
