(* ===== verification/Transfer.v ===== *)
(** * The pull transfer service

    transfer/tensor_transfer_pull.h and .cpp, transfer/types.h,
    transfer/tensor_transfer_service.h and [WaitCondition] of
    common/time_utils.h.

    A service is a configuration, fixed once it has started, and a state.
    Its operations are written in the monad [M]: they change the state, may
    throw, and record in [io] the calls made to the transports, whose
    outcomes are given by a [pull_env].  [others] is the effect of the other
    threads, the message handlers among them, between two polls of a
    condition that is waited for. *)

From S2P Require Import Prelude StringUtils Tensor Messages.
Local Open Scope Z_scope.

(** ** Data (transfer/types.h) *)

Record TensorRDMAInfo : Type := MkTensorRDMAInfo {
  ri_addr : Z; (* void* *)
  ri_size : Z; (* size_t *)
  ri_rkey : string;
  ri_node_info : NodeInfo;
  ri_atensor : ATensor; (* never null in a cache *)
}.

Abbreviation TransferTensorMeta := (gmap ShardedKey (list TensorRDMAInfo)).
Abbreviation TransferCache := (gmap Z TransferTensorMeta).

Record CompactTensorInfo : Type := MkCompactTensorInfo {
  ci_addr : Z;
  ci_size : Z;
  ci_rkey : string;
  ci_node_info : NodeInfo;
  ci_atensors : gmap ShardedKey ATensor;
}.

Definition GetTensorRDMAInfoVector (tensor_key : ShardedKey) (tx_tensor_data : TransferTensorMeta)
    : option (list TensorRDMAInfo) := tx_tensor_data !! tensor_key.

Definition HasTensorRDMAInfo (tensor_key : ShardedKey) (tx_tensor_data : TransferTensorMeta)
    : bool := bool_decide (is_Some (tx_tensor_data !! tensor_key)).

Definition AddTensorRDMAInfo (tx_tensor_data : TransferTensorMeta) (tensor_key : ShardedKey)
    (rdma_info : TensorRDMAInfo) : TransferTensorMeta :=
  match tx_tensor_data !! tensor_key with
  | Some vec => <[tensor_key := vec ++ [rdma_info]]> tx_tensor_data
  | None => <[tensor_key := [rdma_info]]> tx_tensor_data
  end.

(** A shard published by several nodes must have the same shape on each.
    [emplace] on a key that is present (with an empty vector) changes nothing. *)
Definition EmplaceTensorRDMAInfo (tx_tensor_data : TransferTensorMeta) (tensor_key : ShardedKey)
    (info : TensorRDMAInfo) : result TransferTensorMeta :=
  match tx_tensor_data !! tensor_key with
  | Some vec =>
      match last vec with
      | Some back =>
          same ← IsShapeEqual (ri_atensor back) (ri_atensor info);
          throw_if (negb same) "illegal state: Tensor shape mismatch";;
          Ok (<[tensor_key := vec ++ [info]]> tx_tensor_data)
      | None => Ok tx_tensor_data
      end
  | None => Ok (<[tensor_key := [info]]> tx_tensor_data)
  end.

(** ** Data operations (transfer/tensor_transfer_service.h) *)

Definition NO_OP : Z := 0.
Definition READ : Z := 1.
Definition WRITE : Z := 2.

Definition IsRead (type : Z) : bool := negb (Z.land type READ =? NO_OP).
Definition IsWrite (type : Z) : bool := negb (Z.land type WRITE =? NO_OP).
Definition SetRead (type : Z) : Z := if IsRead type then type else Z.lor type READ.
Definition SetWrite (type : Z) : Z := if IsWrite type then type else Z.lor type WRITE.
Definition Clear (type : Z) : Z := NO_OP.
Definition GetDataOperationString (type : Z) : string :=
  if IsRead type then "READ" else if IsWrite type then "WRITE" else "NO_OP".

(** ** The service *)

Definition INIT_SEQ_ID : Z := -1.
Definition TENSOR_RDMA_META_REQUEST : string := "publish_tensor_rdma_meta".
Definition WEIGHT_READY_REQUEST : string := "weight_ready".
Definition WEIGHT_CONSUMED_REQUEST : string := "weight_consumed".

(** Calls made to the transports, and tasks given to the thread pool. *)
Inductive action : Type :=
| ActRegister (addr size : Z) (is_cuda : bool) (device_index : Z)
| ActReceive (local_addr len : Z) (host : string) (port : Z) (remote_addr : Z)
| ActSend (request message host : string) (port : Z)
| ActPrefetch (seq_id : Z).

Record pull_config : Type := MkPullConfig {
  role_rank : Z; (* parallel_config_.role_rank *)
  local_node_info : NodeInfo;
  peer_hosts : list NodeInfo;
  tensor_ready_timeout_ms : Z;
  skip_rdma_exception_for_test : bool;
  enable_perf_metrics : bool;
  perf_stats_interval_ms : Z;
  enable_local_cache_prefetch : bool;
  has_tensor_table : bool; (* ctx_ and its tensor table are not null *)
}.

Record pull_state : Type := MkPullState {
  rdma_running : bool; (* data_rdma_transport_->IsRunning() *)
  ctrl_running : bool; (* control_transport_->IsRunning() *)
  current_data_operation : Z;
  current_seq_id : Z;
  is_publish_meta : bool;
  last_completed_seq_id : Z;
  consumed_nodes : gset NodeInfo;
  remote_tensor_cache : TransferCache;
  ready_nodes : gset NodeInfo;
  throughput_stats : gmap Z Z;
  throughput_stats_per_host : gmap string (gmap Z Z);
  io : list action;
}.

Definition set_operation (o : Z) (s : pull_state) : pull_state :=
  MkPullState (rdma_running s) (ctrl_running s) o (current_seq_id s) (is_publish_meta s)
    (last_completed_seq_id s) (consumed_nodes s) (remote_tensor_cache s) (ready_nodes s)
    (throughput_stats s) (throughput_stats_per_host s) (io s).
Definition set_seq_id (q : Z) (s : pull_state) : pull_state :=
  MkPullState (rdma_running s) (ctrl_running s) (current_data_operation s) q (is_publish_meta s)
    (last_completed_seq_id s) (consumed_nodes s) (remote_tensor_cache s) (ready_nodes s)
    (throughput_stats s) (throughput_stats_per_host s) (io s).
Definition set_consumed (c : gset NodeInfo) (s : pull_state) : pull_state :=
  MkPullState (rdma_running s) (ctrl_running s) (current_data_operation s) (current_seq_id s)
    (is_publish_meta s) (last_completed_seq_id s) c (remote_tensor_cache s) (ready_nodes s)
    (throughput_stats s) (throughput_stats_per_host s) (io s).
Definition set_ready (r : gset NodeInfo) (s : pull_state) : pull_state :=
  MkPullState (rdma_running s) (ctrl_running s) (current_data_operation s) (current_seq_id s)
    (is_publish_meta s) (last_completed_seq_id s) (consumed_nodes s) (remote_tensor_cache s) r
    (throughput_stats s) (throughput_stats_per_host s) (io s).
Definition set_cache (c : TransferCache) (s : pull_state) : pull_state :=
  MkPullState (rdma_running s) (ctrl_running s) (current_data_operation s) (current_seq_id s)
    (is_publish_meta s) (last_completed_seq_id s) (consumed_nodes s) c (ready_nodes s)
    (throughput_stats s) (throughput_stats_per_host s) (io s).
Definition set_stats (t : gmap Z Z) (h : gmap string (gmap Z Z)) (s : pull_state) : pull_state :=
  MkPullState (rdma_running s) (ctrl_running s) (current_data_operation s) (current_seq_id s)
    (is_publish_meta s) (last_completed_seq_id s) (consumed_nodes s) (remote_tensor_cache s)
    (ready_nodes s) t h (io s).
Definition add_io (a : action) (s : pull_state) : pull_state :=
  MkPullState (rdma_running s) (ctrl_running s) (current_data_operation s) (current_seq_id s)
    (is_publish_meta s) (last_completed_seq_id s) (consumed_nodes s) (remote_tensor_cache s)
    (ready_nodes s) (throughput_stats s) (throughput_stats_per_host s) (io s ++ [a]).

(** The state of a new service, its transports started or not. *)
Definition pull_init (rdma ctrl : bool) : pull_state :=
  MkPullState rdma ctrl NO_OP INIT_SEQ_ID false INIT_SEQ_ID ∅ ∅ ∅ ∅ ∅ [].

(** What the transports answer, and the interference of other threads. *)
Record pull_env : Type := MkPullEnv {
  RegisterMemory : Z -> Z -> bool -> Z -> result bool;
  Receive : Z -> Z -> string -> Z -> Z -> result bool;
  Send : string -> string -> string -> Z -> result bool;
  now_ms : Z;
  itemsize : ScalarType.t -> Z;
  others : nat -> pull_state -> pull_state;
}.

(** ** The monad of the service *)

Definition M (A : Type) : Type := pull_state -> result A * pull_state.

#[export] Instance M_ret : MRet M := fun A a s => (Ok a, s).
#[export] Instance M_bind : MBind M := fun A B f m s =>
  match m s with
  | (Ok a, s') => f a s'
  | (Throw e, s') => (Throw e, s')
  | (Undef, s') => (Undef, s')
  end.

Definition get_state : M pull_state := fun s => (Ok s, s).
Definition modify (f : pull_state -> pull_state) : M unit := fun s => (Ok tt, f s).
Definition lift {A} (r : result A) : M A := fun s => (r, s).

(** [try { m } catch (const std::exception& e) { h }] *)
Definition try_catch {A} (m : M A) (h : string -> M A) : M A := fun s =>
  match m s with (Throw e, s') => h e s' | r => r end.

Fixpoint for_each_M {A B : Type} (body : A -> B -> M B) (l : list A) (b : B) : M B :=
  match l with
  | [] => mret b
  | x :: l' => b' ← body x b; for_each_M body l' b'
  end.

(** ** Waiting (common/time_utils.h)

    [cond] is evaluated on the state of each poll; between two polls the
    other threads run.  [None] is a loop that has not ended within the fuel. *)
Fixpoint wait_loop (fuel : nat) (others : nat -> pull_state -> pull_state)
    (cond : pull_state -> bool) (i : nat) (wait_time_ms max_ms interval_ms : Z) (s : pull_state)
    : option (bool * pull_state) :=
  match fuel with
  | O => None
  | S fuel' =>
      if cond s then Some (true, s)
      else if max_ms <? wait_time_ms then Some (false, s)
      else wait_loop fuel' others cond (S i) (wait_time_ms + interval_ms) max_ms interval_ms
             (others i s)
  end.

(** The number of polls: one at each multiple of the interval up to the first
    one after [max_ms]. *)
Definition wait_polls (max_ms interval_ms : Z) : nat := Z.to_nat (max_ms / interval_ms + 2).

Definition WaitCondition (others : nat -> pull_state -> pull_state) (cond : pull_state -> bool)
    (max_ms interval_ms : Z) : M bool := fun s =>
  match wait_loop (S (wait_polls max_ms interval_ms)) others cond 0 0 max_ms interval_ms s with
  | Some (b, s') => (Ok b, s')
  | None => (Undef, s)
  end.

(** ** Operations *)

Section Pull.
Context `{JsonLib} (env : pull_env) (cfg : pull_config).

Definition IsRunning (s : pull_state) : bool := rdma_running s && ctrl_running s.

Definition Stop : M unit := modify (fun s =>
  MkPullState false false (current_data_operation s) (current_seq_id s) (is_publish_meta s)
    (last_completed_seq_id s) (consumed_nodes s) (remote_tensor_cache s) (ready_nodes s)
    (throughput_stats s) (throughput_stats_per_host s) (io s)).

Definition RegisterMemoryOrThrow (addr size : Z) (is_cuda : bool) (device_index : Z) : M unit :=
  modify (add_io (ActRegister addr size is_cuda device_index));;
  try_catch
    (success ← lift (RegisterMemory env addr size is_cuda device_index);
     lift (throw_if (negb success) "Failed to register memory"))
    (fun e => if skip_rdma_exception_for_test cfg then mret tt else lift (Throw e)).

(** The memory of a storage. *)
Definition RegisterStorage (storage : ATStorage) : M unit :=
  RegisterMemoryOrThrow (data storage) (storage_size storage)
    (bool_decide (device_type (device storage) = ATDeviceType.CUDA)) (device_index (device storage)).

Definition ValidateSeqId (seq_id : Z) : M bool :=
  s ← get_state; mret (seq_id =? current_seq_id s).

Definition CheckAndUpdateCurrentSeqId (seq_id : Z) : M bool :=
  s ← get_state;
  if current_seq_id s =? INIT_SEQ_ID then modify (set_seq_id seq_id);; mret true
  else mret (seq_id =? current_seq_id s).

Definition all_ready (s : pull_state) : bool :=
  (size (ready_nodes s) =? length (peer_hosts cfg))%nat.

Definition WaitForAllTensorReady (max_wait_ms : Z) : M bool :=
  WaitCondition (others env) all_ready max_wait_ms 1.

(** The metas of the last completed sequence are reused for the next one. *)
Definition move_cache (seq_id : Z) : M unit :=
  s ← get_state;
  match remote_tensor_cache s !! seq_id with
  | Some _ => mret tt
  | None =>
      match remote_tensor_cache s !! last_completed_seq_id s with
      | None => lift (Throw "Cannot find remote_tensor_cache, using key(last_seq_id)=")
      | Some transfer_meta =>
          modify (set_cache (delete (last_completed_seq_id s)
                               (<[seq_id := transfer_meta]> (remote_tensor_cache s))))
      end
  end.

Definition has_tensor_meta (seq_id : Z) (tensor_key : ShardedKey) (s : pull_state) : bool :=
  match remote_tensor_cache s !! seq_id with
  | Some transfer_meta => bool_decide (is_Some (transfer_meta !! tensor_key))
  | None => false
  end.

Definition WaitForTensorReady (seq_id : Z) (tensor_key : ShardedKey) (max_wait_ms : Z) : M bool :=
  s ← get_state;
  if is_publish_meta s then
    move_cache seq_id;; WaitCondition (others env) all_ready max_wait_ms 1
  else WaitCondition (others env) (has_tensor_meta seq_id tensor_key) max_wait_ms 1000.

(** *** Control messages *)

Definition SendCtrlMessage (request_name : string) (seq_id : Z) (message : string)
    (node_info : NodeInfo) : M bool :=
  try_catch
    (valid ← ValidateSeqId seq_id;
     if valid : bool then
       modify (add_io (ActSend request_name message (hostname_or_ip node_info)
                         (ctrl_flow_port node_info)));;
       lift (Send env request_name message (hostname_or_ip node_info) (ctrl_flow_port node_info))
     else mret false)
    (fun _ => mret false).

Definition SendCtrlMessageToMultiPeers (request_name : string) (seq_id : Z) (message : string)
    (node_infos : list NodeInfo) : M bool :=
  try_catch
    (if decide (node_infos = []) then mret false
     else for_each_M (fun peer all_success =>
            b ← SendCtrlMessage request_name seq_id message peer; mret (all_success && b))
            node_infos true)
    (fun _ => mret false).

Definition SendTensorRDMAMeta (meta : TensorRDMAMetaPublishMessage) : M bool :=
  json ← lift (ToJson_TensorRDMAMetaPublishMessage meta);
  SendCtrlMessageToMultiPeers TENSOR_RDMA_META_REQUEST (pm_seq_id meta) (Serialize json)
    (peer_hosts cfg).

Definition SendWeightReady (msg : WeightReadyMessage) : M bool :=
  SendCtrlMessageToMultiPeers WEIGHT_READY_REQUEST (wr_seq_id msg)
    (Serialize (ToJson_WeightReadyMessage msg)) (peer_hosts cfg).

Definition SendWeightConsumed (msg : WeightConsumedMessage) : M bool :=
  SendCtrlMessageToMultiPeers WEIGHT_CONSUMED_REQUEST (wc_seq_id msg)
    (Serialize (ToJson_WeightConsumedMessage msg)) (peer_hosts cfg).

(** [ResponseStatus]: success and its message. *)
Definition ResponseStatus : Type := bool * string.

(** The tensors before the first one of a mismatched shape stay in the cache. *)
Fixpoint add_metas_M (seq_id : Z) (node_info : NodeInfo)
    (metas : list (ShardedKey * TensorMemoryRDMAInfo)) : M unit :=
  match metas with
  | [] => mret tt
  | (key, info) :: metas' =>
      s ← get_state;
      tm ← lift (EmplaceTensorRDMAInfo (default ∅ (remote_tensor_cache s !! seq_id)) key
             (MkTensorRDMAInfo (mi_addr info) (mi_size info) (mi_rkey info) node_info
                (atensor_meta info)));
      modify (set_cache (<[seq_id := tm]> (remote_tensor_cache s)));;
      add_metas_M seq_id node_info metas'
  end.

Definition HandleTensorRDMAMeta (message : string) : M ResponseStatus :=
  try_catch
    (msg ← lift (json ← Deserialize message; FromJson_TensorRDMAMetaPublishMessage json);
     s ← get_state;
     (if decide (remote_tensor_cache s !! pm_seq_id msg = None)
      then modify (set_cache (<[pm_seq_id msg := ∅]> (remote_tensor_cache s)))
      else mret tt);;
     add_metas_M (pm_seq_id msg) (pm_node_info msg) (map_to_list (tensor_rdma_metas msg));;
     mret (true, "Success"))
    (fun e => mret (false, e)).

Definition HandleWeightReady (message : string) : M ResponseStatus :=
  try_catch
    (msg ← lift (json ← Deserialize message; FromJson_WeightReadyMessage json);
     modify (fun s => set_ready ({[wr_node_info msg]} ∪ ready_nodes s) s);;
     s ← get_state;
     (if all_ready s && enable_local_cache_prefetch cfg && has_tensor_table cfg
      then modify (add_io (ActPrefetch (wr_seq_id msg))) else mret tt);;
     mret (true, "Success"))
    (fun e => mret (false, e)).

Definition HandleWeightConsumed (message : string) : M ResponseStatus :=
  try_catch
    (msg ← lift (json ← Deserialize message; FromJson_WeightConsumedMessage json);
     s ← get_state;
     if wc_seq_id msg <? current_seq_id s then mret (false, "Outdated sequence ID")
     else modify (fun s => set_consumed ({[wc_node_info msg]} ∪ consumed_nodes s) s);;
          mret (true, "Success"))
    (fun e => mret (false, e)).

(** *** Put *)

Definition storage_info (atensor : ATensor) : TensorMemoryRDMAInfo :=
  MkTensorMemoryRDMAInfo (data (storage atensor)) (storage_size (storage atensor)) EmptyString atensor.

Definition Put (seq_id : Z) (tensor_key : ShardedKey) (atensor : ATensor) : M bool :=
  s ← get_state;
  if negb (IsRunning s) then mret false else
  if negb (IsValid atensor) then mret false else
  modify (fun s => set_operation (SetWrite (current_data_operation s)) s);;
  ok ← CheckAndUpdateCurrentSeqId seq_id;
  if negb ok then mret false else
  RegisterStorage (storage atensor);;
  let meta_msg := MkTensorRDMAMetaPublishMessage seq_id (local_node_info cfg)
                    {[tensor_key := storage_info atensor]} in
  s ← get_state;
  if negb (is_publish_meta s) then SendTensorRDMAMeta meta_msg else mret true.

Definition MultiPut (seq_id : Z) (atensors : list (ShardedKey * ATensor)) : M bool :=
  s ← get_state;
  if negb (IsRunning s) then mret false else
  if decide (atensors = []) then mret false else
  modify (fun s => set_operation (SetWrite (current_data_operation s)) s);;
  ok ← CheckAndUpdateCurrentSeqId seq_id;
  if negb ok then mret false else
  s ← get_state;
  if negb (is_publish_meta s) then
    metas ← for_each_M (fun (pair : ShardedKey * ATensor) metas =>
      RegisterStorage (storage pair.2);;
      mret (<[pair.1 := storage_info pair.2]> metas)) atensors ∅;
    SendTensorRDMAMeta (MkTensorRDMAMetaPublishMessage seq_id (local_node_info cfg) metas)
  else mret true.

(** *** Get *)

Definition UpdateThroughputStatistic (node_info : string) (tx_data_bytes : Z) : M unit :=
  if negb (enable_perf_metrics cfg) then mret tt else
  if perf_stats_interval_ms cfg =? 0 then lift Undef else
  let window := now_ms env - now_ms env mod perf_stats_interval_ms cfg in
  modify (fun s =>
    let t := throughput_stats s in
    let t := if decide (t !! window = None) then <[window := tx_data_bytes]> t else t in
    let t := <[window := u64 (default 0 (t !! window) + tx_data_bytes)]> t in
    let per_host := default ∅ (throughput_stats_per_host s !! node_info) in
    let per_host := match per_host !! window with
                    | None => <[window := tx_data_bytes]> per_host
                    | Some b => <[window := u64 (b + tx_data_bytes)]> per_host
                    end in
    set_stats t (<[node_info := per_host]> (throughput_stats_per_host s)) s).

(** The offset, in the remote storage, of the tensor to read. *)
Definition remote_offset (atensor : ATensor) (rdma_info : TensorRDMAInfo) : result Z :=
  if negb (storage_offset atensor =? storage_offset (ri_atensor rdma_info)) &&
     negb (storage_offset atensor =? 0)
  then GetStorageByteOffset (itemsize env) (dtype atensor) (storage_offset (ri_atensor rdma_info));;
       GetStorageByteOffset (itemsize env) (dtype atensor) (storage_offset atensor)
  else GetStorageByteOffset (itemsize env) (dtype atensor) (storage_offset (ri_atensor rdma_info)).

(** The read of a tensor once it is ready. *)
Definition read_tensor (seq_id : Z) (tensor_key : ShardedKey) (atensor : ATensor) : M bool :=
  s ← get_state;
  match remote_tensor_cache s !! seq_id with
  | None => lift (Throw "illegal state: Tensor RDMA info not found with corresponding seq_id")
  | Some meta =>
      match GetTensorRDMAInfoVector tensor_key meta with
      | None | Some [] => lift (Throw "illegal state: Tensor RDMA info not found")
      | Some rdma_info_list =>
          let random_index := u64 (role_rank cfg) mod Z.of_nat (length rdma_info_list) in
          rdma_info ← lift (index rdma_info_list random_index);
          remote_byte_offset ← lift (remote_offset atensor rdma_info);
          byte_size ← lift (GetTensorTotalByteSize (itemsize env) atensor);
          lift (throw_if (ri_size rdma_info <? u64 (remote_byte_offset + byte_size))
            "illegal state: Tensor data size exceeds the size of the remote storage");;
          let node := ri_node_info rdma_info in
          let remote_addr := u64 (ri_addr rdma_info + remote_byte_offset) in
          modify (add_io (ActReceive (data (storage atensor)) byte_size (hostname_or_ip node)
                            (rdma_port node) remote_addr));;
          ret ← lift (Receive env (data (storage atensor)) byte_size (hostname_or_ip node)
                        (rdma_port node) remote_addr);
          UpdateThroughputStatistic (GetHostWithRdmaPort node) byte_size;;
          mret ret
      end
  end.

Definition Get (seq_id : Z) (tensor_key : ShardedKey) (atensor : ATensor) : M bool :=
  if negb (IsValid atensor) then mret false else
  s ← get_state;
  if negb (IsRunning s) then mret false else
  modify (fun s => set_operation (SetRead (current_data_operation s)) s);;
  ok ← CheckAndUpdateCurrentSeqId seq_id;
  if negb ok then mret false else
  RegisterStorage (storage atensor);;
  ready ← WaitForTensorReady seq_id tensor_key (i32 (tensor_ready_timeout_ms cfg));
  if negb ready then mret false else
  read_tensor seq_id tensor_key atensor.

(** The reads of a [MultiGet] run on a thread pool; here one after the other. *)
Definition MultiGet (seq_id : Z) (atensors : list (ShardedKey * ATensor)) : M bool :=
  if decide (atensors = []) then mret false else
  s ← get_state;
  if negb (IsRunning s) then mret false else
  modify (fun s => set_operation (SetRead (current_data_operation s)) s);;
  ok ← CheckAndUpdateCurrentSeqId seq_id;
  if negb ok then mret false else
  for_each_M (fun (pair : ShardedKey * ATensor) success =>
    b ← Get seq_id pair.1 pair.2; mret (success && b)) atensors true.

Definition PreRegisterMemory (atensor_storage : ATStorage) : M bool :=
  RegisterStorage atensor_storage;; mret true.

Definition RawGet (seq_id : Z) (astorage : ATStorage) (node_info : NodeInfo) (remote_addr len : Z)
    : M bool :=
  lift (throw_if (storage_size astorage <? len) "illegal state: memory size mismatch");;
  s ← get_state;
  if negb (IsRunning s) then mret false else
  modify (fun s => set_operation (SetRead (current_data_operation s)) s);;
  ok ← CheckAndUpdateCurrentSeqId seq_id;
  if negb ok then mret false else
  ready ← WaitForAllTensorReady (tensor_ready_timeout_ms cfg);
  if negb ready then mret false else
  RegisterStorage astorage;;
  UpdateThroughputStatistic (GetHostWithRdmaPort node_info) len;;
  modify (add_io (ActReceive (data astorage) len (hostname_or_ip node_info) (rdma_port node_info)
                    remote_addr));;
  lift (Receive env (data astorage) len (hostname_or_ip node_info) (rdma_port node_info) remote_addr).

Definition GetAllTensorShards (seq_id : Z) (filter : ShardedKey -> bool)
    : M (list (ShardedKey * ATensor)) :=
  ready ← WaitForAllTensorReady (tensor_ready_timeout_ms cfg);
  if negb ready then mret [] else
  s ← get_state;
  match remote_tensor_cache s !! seq_id with
  | None => mret []
  | Some transfer_meta =>
      mret (omap (fun entry : ShardedKey * list TensorRDMAInfo =>
        if filter entry.1 then
          match last entry.2 with Some info => Some (entry.1, ri_atensor info) | None => None end
        else None) (map_to_list transfer_meta))
  end.

(** *** Complete *)

Definition all_consumed (s : pull_state) : bool :=
  (size (consumed_nodes s) =? length (peer_hosts cfg))%nat.

(** The loop of [Complete]: no bound on the wait; [None] when the fuel ends. *)
Fixpoint wait_consumed (fuel : nat) (i : nat) (s : pull_state) : option pull_state :=
  match fuel with
  | O => None
  | S fuel' => if all_consumed s then Some s else wait_consumed fuel' (S i) (others env i s)
  end.

(** The reset at the end of [Complete]; [LogThroughputStatistic] clears the
    statistics when the metrics are enabled. *)
Definition finish_seq (s : pull_state) : pull_state :=
  MkPullState (rdma_running s) (ctrl_running s) NO_OP INIT_SEQ_ID true (current_seq_id s) ∅
    (remote_tensor_cache s) ∅
    (if enable_perf_metrics cfg then ∅ else throughput_stats s)
    (if enable_perf_metrics cfg then ∅ else throughput_stats_per_host s) (io s).

Definition WaitConsumed (fuel : nat) : M unit := fun s =>
  match wait_consumed fuel 0 s with Some s' => (Ok tt, s') | None => (Undef, s) end.

Definition Complete (fuel : nat) : M unit :=
  s ← get_state;
  (if IsRead (current_data_operation s) then
     SendWeightConsumed (MkWeightConsumedMessage (current_seq_id s) (local_node_info cfg));; mret tt
   else mret tt);;
  s ← get_state;
  (if IsWrite (current_data_operation s) then
     SendWeightReady (MkWeightReadyMessage (current_seq_id s) (local_node_info cfg));;
     WaitConsumed fuel
   else mret tt);;
  modify finish_seq.

End Pull.

(** ** Reasoning about the monad *)

Lemma M_bind_Ok {A B} (m : M A) (f : A -> M B) s b s' :
  (m ≫= f) s = (Ok b, s') -> exists a s1, m s = (Ok a, s1) /\ f a s1 = (Ok b, s').
Proof.
  unfold mbind, M_bind. destruct (m s) as [[a|e|] s1]; intros H; [eauto|discriminate H..].
Qed.

(** Inversion of one successful bind. *)
Ltac M_inv H :=
  let a := fresh "a" in let s1 := fresh "s" in let E := fresh "E" in
  apply M_bind_Ok in H as (a & s1 & E & H).

Tactic Notation "M_open" hyp(H) "as" ident(a) ident(s1) ident(E) :=
  apply M_bind_Ok in H as (a & s1 & E & H).

(** The part of the state that the control protocol is about. *)
Definition same_ctl (s s' : pull_state) : Prop :=
  ready_nodes s' = ready_nodes s /\ consumed_nodes s' = consumed_nodes s /\
  current_seq_id s' = current_seq_id s /\ current_data_operation s' = current_data_operation s /\
  is_publish_meta s' = is_publish_meta s /\ last_completed_seq_id s' = last_completed_seq_id s /\
  rdma_running s' = rdma_running s /\ ctrl_running s' = ctrl_running s.

#[export] Instance same_ctl_preorder : PreOrder same_ctl.
Proof. split; [done|]. intros x y z; unfold same_ctl; intuition congruence. Qed.

(** However it ends, the computation leaves that part as it was. *)
Definition keeps_ctl {A} (m : M A) : Prop := forall s, same_ctl s (m s).2.

Create HintDb pull.

Lemma keeps_ret {A} (a : A) : keeps_ctl (mret a).
Proof. done. Qed.
Lemma keeps_get : keeps_ctl get_state.
Proof. done. Qed.
Lemma keeps_lift {A} (r : result A) : keeps_ctl (lift r).
Proof. done. Qed.
Lemma keeps_io a : keeps_ctl (modify (add_io a)).
Proof. done. Qed.
Lemma keeps_cache c : keeps_ctl (modify (set_cache c)).
Proof. done. Qed.
Lemma keeps_bind {A B} (m : M A) (f : A -> M B) :
  keeps_ctl m -> (forall a, keeps_ctl (f a)) -> keeps_ctl (m ≫= f).
Proof.
  intros Hm Hf s. specialize (Hm s). unfold mbind, M_bind.
  destruct (m s) as [[a|e|] s1]; cbn in *; [|done..]. etrans; [exact Hm|apply Hf].
Qed.
Lemma keeps_catch {A} (m : M A) h :
  keeps_ctl m -> (forall e, keeps_ctl (h e)) -> keeps_ctl (try_catch m h).
Proof.
  intros Hm Hh s. specialize (Hm s). unfold try_catch.
  destruct (m s) as [[a|e|] s1]; cbn in *; [done| |done]. etrans; [exact Hm|apply Hh].
Qed.
Lemma keeps_if {A} (b : bool) (m1 m2 : M A) :
  keeps_ctl m1 -> keeps_ctl m2 -> keeps_ctl (if b then m1 else m2).
Proof. by destruct b. Qed.
Lemma keeps_for_each {A B} (body : A -> B -> M B) l b :
  (forall x b, keeps_ctl (body x b)) -> keeps_ctl (for_each_M body l b).
Proof.
  intros Hb. revert b. induction l as [|x l IH]; intros b; cbn [for_each_M].
  - apply keeps_ret.
  - by apply keeps_bind.
Qed.

#[export] Hint Resolve keeps_ret keeps_get keeps_lift keeps_io keeps_cache keeps_bind
  keeps_catch keeps_if keeps_for_each : pull.
#[export] Hint Extern 3 (keeps_ctl (match ?x with _ => _ end)) => destruct x : pull.

(** ** Waiting *)

(** The state of the [j]-th poll after poll [i]. *)
Fixpoint poll_from (others : nat -> pull_state -> pull_state) (i j : nat) (s : pull_state)
    : pull_state :=
  match j with O => s | S j' => poll_from others (S i) j' (others i s) end.

Lemma wait_loop_spec fuel others cond max_ms interval_ms : 0 < interval_ms ->
  forall i w s, max_ms < w + (Z.of_nat fuel - 1) * interval_ms -> (0 < fuel)%nat ->
  exists b j, wait_loop fuel others cond i w max_ms interval_ms s = Some (b, poll_from others i j s) /\
    (forall j', (j' < j)%nat -> cond (poll_from others i j' s) = false) /\
    cond (poll_from others i j s) = b /\
    (j = 0%nat \/ w + (Z.of_nat j - 1) * interval_ms <= max_ms) /\
    (b = false -> max_ms < w + Z.of_nat j * interval_ms).
Proof.
  intros Hi. induction fuel as [|fuel IH]; intros i w s Hmax Hf; [lia|]. cbn [wait_loop].
  destruct (cond s) eqn:Hc.
  { exists true, 0%nat. split_and!; auto; [lia|done]. }
  destruct (Z.ltb_spec max_ms w) as [Hw|Hw].
  { exists false, 0%nat. split_and!; auto; lia. }
  destruct (IH (S i) (w + interval_ms) (others i s)) as (b & j & -> & H1 & H2 & H3 & H4).
  { lia. } { destruct fuel; [nia|lia]. }
  exists b, (S j). cbn [poll_from]. split_and!; auto.
  - intros [|j'] Hj; cbn [poll_from]; [done|]. apply H1. lia.
  - right. destruct H3 as [->|H3]; lia.
  - intros Hb. specialize (H4 Hb). lia.
Qed.

Lemma wait_polls_enough max_ms interval_ms : 0 < interval_ms ->
  max_ms < 0 + (Z.of_nat (S (wait_polls max_ms interval_ms)) - 1) * interval_ms.
Proof.
  intros Hi. unfold wait_polls. pose proof (Z.div_mod max_ms interval_ms).
  pose proof (Z.mod_pos_bound max_ms interval_ms).
  assert (max_ms / interval_ms + 2 <= Z.of_nat (Z.to_nat (max_ms / interval_ms + 2))) by lia.
  nia.
Qed.

(** A wait with a positive interval always ends, after at most one poll past the
    timeout; it returns true exactly when the condition holds on the state of its last
    poll, and false only once the timeout has passed with the condition false on every
    poll. *)
Theorem wait_condition_spec others cond max_ms interval_ms s : 0 < interval_ms ->
  exists b j, WaitCondition others cond max_ms interval_ms s = (Ok b, poll_from others 0 j s) /\
    (forall j', (j' < j)%nat -> cond (poll_from others 0 j' s) = false) /\
    cond (poll_from others 0 j s) = b /\
    (j = 0%nat \/ (Z.of_nat j - 1) * interval_ms <= max_ms) /\
    (b = false -> max_ms < Z.of_nat j * interval_ms).
Proof.
  intros Hi. destruct (wait_loop_spec (S (wait_polls max_ms interval_ms)) others cond max_ms
    interval_ms Hi 0 0 s) as (b & j & Hw & H); [|lia|].
  - by apply wait_polls_enough.
  - exists b, j. unfold WaitCondition. rewrite Hw. done.
Qed.

Lemma wait_condition_spec_witness :
  exists b j, WaitCondition (fun _ s => set_ready {[demo_node]} s)
      (fun s => (size (ready_nodes s) =? 1)%nat) 5 2 (pull_init true true) =
    (Ok b, poll_from (fun _ s => set_ready {[demo_node]} s) 0 j (pull_init true true)) /\
    (forall j', (j' < j)%nat -> (size (ready_nodes (poll_from
      (fun _ s => set_ready {[demo_node]} s) 0 j' (pull_init true true))) =? 1)%nat = false) /\
    (size (ready_nodes (poll_from (fun _ s => set_ready {[demo_node]} s) 0 j
      (pull_init true true))) =? 1)%nat = b /\
    (j = 0%nat \/ (Z.of_nat j - 1) * 2 <= 5) /\ (b = false -> 5 < Z.of_nat j * 2).
Proof.
  apply (wait_condition_spec (fun _ s => set_ready {[demo_node]} s)
    (fun s => (size (ready_nodes s) =? 1)%nat) 5 2 (pull_init true true)). lia.
Defined.

(** Without interference a wait returns the state it started from. *)
Lemma wait_alone cond max_ms interval_ms s b s' :
  WaitCondition (fun _ s => s) cond max_ms interval_ms s = (Ok b, s') ->
  s' = s /\ (b = true -> cond s = true).
Proof.
  unfold WaitCondition. generalize (S (wait_polls max_ms interval_ms)) as fuel.
  generalize 0%nat as i, 0 as w. intros i w fuel. revert i w.
  assert (Hgen : forall i w, match wait_loop fuel (fun _ s => s) cond i w max_ms interval_ms s with
    | Some (b, s') => s' = s /\ (b = true -> cond s = true) | None => True end).
  { induction fuel as [|fuel IH]; intros i w; cbn [wait_loop]; [done|].
    destruct (cond s) eqn:Hc; [done|]. destruct (max_ms <? w); [done|].
    specialize (IH (S i) (w + interval_ms)). cbv beta. exact IH. }
  intros i w. specialize (Hgen i w).
  destruct (wait_loop _ _ _ _ _ _ _ _) as [[b' s1]|]; intros [= <- <-]. done.
Qed.

(** A wait for something that does not come times out. *)
Lemma wait_alone_false cond max_ms interval_ms s : 0 < interval_ms -> cond s = false ->
  WaitCondition (fun _ s => s) cond max_ms interval_ms s = (Ok false, s).
Proof.
  intros Hi Hc. destruct (wait_loop_spec (S (wait_polls max_ms interval_ms)) (fun _ s => s) cond max_ms interval_ms Hi 0 0 s)
    as (b & j & Hw & _ & Hb & _); [|lia|].
  - apply wait_polls_enough. done.
  - assert (forall i j, poll_from (fun _ s => s) i j s = s) as Hp by (intros i j'; revert i; by induction j'; cbn).
    unfold WaitCondition. rewrite Hw, Hp. rewrite Hp in Hb. congruence.
Qed.

(** ** The control part of the state, through the operations *)

Section Keeps.
Context `{JsonLib} (env : pull_env) (cfg : pull_config).

Lemma keeps_register st : keeps_ctl (RegisterStorage env cfg st).
Proof. unfold RegisterStorage, RegisterMemoryOrThrow. eauto 10 with pull. Qed.

Lemma keeps_send req seq m n : keeps_ctl (SendCtrlMessage env req seq m n).
Proof. unfold SendCtrlMessage, ValidateSeqId. eauto 10 with pull. Qed.

Lemma keeps_send_multi req seq m ns : keeps_ctl (SendCtrlMessageToMultiPeers env req seq m ns).
Proof.
  unfold SendCtrlMessageToMultiPeers. apply keeps_catch; [|auto with pull].
  destruct (decide _); [auto with pull|]. apply keeps_for_each. eauto using keeps_send with pull.
Qed.

Lemma keeps_send_meta m : keeps_ctl (SendTensorRDMAMeta env cfg m).
Proof. unfold SendTensorRDMAMeta. eauto using keeps_send_multi with pull. Qed.

Lemma keeps_stats n b : keeps_ctl (UpdateThroughputStatistic env cfg n b).
Proof. unfold UpdateThroughputStatistic. by repeat apply keeps_if. Qed.

Lemma keeps_read_tensor q k a : keeps_ctl (read_tensor env cfg q k a).
Proof.
  unfold read_tensor. apply keeps_bind; [apply keeps_get|]. intros s.
  destruct (_ !! _) as [meta|]; [|apply keeps_lift].
  destruct (GetTensorRDMAInfoVector _ _) as [[|i l]|]; try apply keeps_lift.
  repeat (apply keeps_bind; [auto using keeps_stats with pull|intros ?]). apply keeps_ret.
Qed.

Lemma keeps_move_cache q : keeps_ctl (move_cache q).
Proof.
  unfold move_cache. apply keeps_bind; [apply keeps_get|]. intros s.
  destruct (_ !! q); [apply keeps_ret|]. destruct (_ !! _); auto with pull.
Qed.

Lemma keeps_add_metas q n l : keeps_ctl (add_metas_M q n l).
Proof.
  induction l as [|[k i] l IH]; cbn [add_metas_M]; [apply keeps_ret|].
  repeat (apply keeps_bind; [auto with pull|intros ?]). exact IH.
Qed.

Lemma keeps_handle_meta m : keeps_ctl (HandleTensorRDMAMeta m).
Proof.
  unfold HandleTensorRDMAMeta. apply keeps_catch; [|auto with pull].
  repeat (apply keeps_bind; [|intros ?]); auto using keeps_add_metas with pull.
Qed.

End Keeps.

(** An operation has joined the sequence [seq_id]: the data operation is set,
    nothing else of the control state has changed. *)
Definition joined (seq_id : Z) (set_op : Z -> Z) (s s' : pull_state) : Prop :=
  (current_seq_id s = INIT_SEQ_ID \/ current_seq_id s = seq_id) /\
  current_seq_id s' = seq_id /\ ready_nodes s' = ready_nodes s /\
  consumed_nodes s' = consumed_nodes s /\ is_publish_meta s' = is_publish_meta s /\
  last_completed_seq_id s' = last_completed_seq_id s /\
  current_data_operation s' = set_op (current_data_operation s).

Lemma joined_keeps q f s s1 s2 : joined q f s s1 -> same_ctl s1 s2 -> joined q f s s2.
Proof. unfold joined, same_ctl. intuition congruence. Qed.

Lemma keeps_eq {A} (m : M A) s r s' : keeps_ctl m -> m s = (r, s') -> same_ctl s s'.
Proof. intros Hm E. specialize (Hm s). by rewrite E in Hm. Qed.

Lemma check_seq_joined q f s s' :
  CheckAndUpdateCurrentSeqId q (set_operation (f (current_data_operation s)) s) = (Ok true, s') ->
  joined q f s s'.
Proof.
  unfold CheckAndUpdateCurrentSeqId, get_state, mbind, M_bind. cbn.
  destruct (Z.eqb_spec (current_seq_id s) INIT_SEQ_ID) as [E|E].
  - intros [= <-]. unfold joined. cbn. auto 10.
  - cbn. intros [= Hq <-]. apply Z.eqb_eq in Hq. subst. unfold joined. cbn. auto 10.
Qed.

(** An operation that has taken part in the sequence [seq_id], however it ended: the
    data operation may be set, and then a node without a sequence has joined it. *)
Definition touched (seq_id : Z) (set_op : Z -> Z) (s s' : pull_state) : Prop :=
  ready_nodes s' = ready_nodes s /\ consumed_nodes s' = consumed_nodes s /\
  is_publish_meta s' = is_publish_meta s /\ last_completed_seq_id s' = last_completed_seq_id s /\
  ((current_data_operation s' = current_data_operation s /\ current_seq_id s' = current_seq_id s) \/
   (current_data_operation s' = set_op (current_data_operation s) /\
    current_seq_id s' = if current_seq_id s =? INIT_SEQ_ID then seq_id else current_seq_id s)).

Lemma keeps_touched q f s s' : same_ctl s s' -> touched q f s s'.
Proof. unfold same_ctl, touched. intuition congruence. Qed.

Lemma touched_keeps q f s s1 s2 : touched q f s s1 -> same_ctl s1 s2 -> touched q f s s2.
Proof. unfold touched, same_ctl. intuition congruence. Qed.

(** The part that all operations share. *)
Lemma started_touched q f (rest : M bool) s : keeps_ctl rest ->
  touched q f s ((modify (fun s => set_operation (f (current_data_operation s)) s);;
    ok ← CheckAndUpdateCurrentSeqId q; if negb ok then mret false else rest) s).2.
Proof.
  intros Hr. unfold mbind at 1, M_bind at 1, modify. unfold mbind at 1, M_bind at 1.
  set (s1 := set_operation _ s).
  assert (exists b s2, CheckAndUpdateCurrentSeqId q s1 = (Ok b, s2) /\ touched q f s s2) as (b & s2 & -> & Ht).
  { unfold CheckAndUpdateCurrentSeqId, get_state, modify, mbind, M_bind, touched, s1. cbn.
    destruct (Z.eqb_spec (current_seq_id s) INIT_SEQ_ID); (do 2 eexists; split; [reflexivity|]); cbn; auto 10. }
  destruct b; cbn [negb]; [|exact Ht]. eapply touched_keeps; [exact Ht|apply Hr].
Qed.

Section Specs.
Context `{JsonLib} (env : pull_env) (cfg : pull_config).

Lemma Put_touched q k a s : touched q SetWrite s (Put env cfg q k a s).2.
Proof.
  unfold Put. unfold mbind at 1, M_bind at 1, get_state. destruct (IsRunning s); cbn [negb]; [|by apply keeps_touched].
  destruct (IsValid a); cbn [negb]; [|by apply keeps_touched].
  apply (started_touched q SetWrite). apply keeps_bind; [apply keeps_register|]. intros _.
  apply keeps_bind; [apply keeps_get|]. intros s1. destruct (negb _); [apply keeps_send_meta|apply keeps_ret].
Qed.

Lemma MultiPut_touched q l s : touched q SetWrite s (MultiPut env cfg q l s).2.
Proof.
  unfold MultiPut. unfold mbind at 1, M_bind at 1, get_state at 1. destruct (IsRunning s); cbn [negb]; [|by apply keeps_touched].
  destruct (decide (l = [])); [by apply keeps_touched|].
  apply (started_touched q SetWrite). apply keeps_bind; [apply keeps_get|]. intros s1. destruct (negb _); [|apply keeps_ret].
  apply keeps_bind; [|intros; apply keeps_send_meta]. apply keeps_for_each. intros x b.
  apply keeps_bind; [apply keeps_register|intros; apply keeps_ret].
Qed.

Lemma Put_joined q k a s s' : Put env cfg q k a s = (Ok true, s') -> joined q SetWrite s s'.
Proof.
  unfold Put. intros Hp. M_inv Hp. injection E as <- <-.
  destruct (IsRunning s); [|discriminate Hp]. cbn [negb] in Hp.
  destruct (IsValid a); [|discriminate Hp]. cbn [negb] in Hp.
  M_inv Hp. injection E as <- <-. M_inv Hp. destruct a0; [|discriminate Hp]. cbn [negb] in Hp.
  apply check_seq_joined in E. M_inv Hp. apply (keeps_eq _ _ _ _ (keeps_register env cfg _)) in E0.
  apply (joined_keeps _ _ _ _ _ E) in E0. eapply joined_keeps; [exact E0|].
  M_inv Hp. injection E1 as <- <-. destruct (is_publish_meta _); cbn [negb] in Hp.
  - injection Hp as <-. reflexivity.
  - exact (keeps_eq _ _ _ _ (keeps_send_meta env cfg _) Hp).
Qed.

Hypothesis alone : others env = fun _ s => s.

Lemma all_ready_joined q f s s' : joined q f s s' -> all_ready cfg s' = all_ready cfg s.
Proof. unfold all_ready. intros (_ & _ & -> & _). done. Qed.

Lemma keeps_wait cond max_ms interval_ms : keeps_ctl (WaitCondition (others env) cond max_ms interval_ms).
Proof.
  intros s. rewrite alone. destruct (WaitCondition _ cond max_ms interval_ms s) as [r s'] eqn:E. cbn.
  destruct r as [b|e|]; [by apply wait_alone in E as [-> _]| |];
    unfold WaitCondition in E; destruct (wait_loop _ _ _ _ _ _ _ _) as [[? ?]|]; try discriminate E. by injection E as <-.
Qed.

Lemma Get_touched q k a s : touched q SetRead s (Get env cfg q k a s).2.
Proof.
  unfold Get. destruct (IsValid a); cbn [negb]; [|by apply keeps_touched].
  unfold mbind at 1, M_bind at 1, get_state. destruct (IsRunning s); cbn [negb]; [|by apply keeps_touched].
  apply (started_touched q SetRead). apply keeps_bind; [apply keeps_register|]. intros _.
  apply keeps_bind; [|intros []; [apply keeps_read_tensor|apply keeps_ret]].
  unfold WaitForTensorReady. apply keeps_bind; [apply keeps_get|]. intros s1.
  destruct (is_publish_meta s1); [|apply keeps_wait]. apply keeps_bind; [apply keeps_move_cache|]. intros _. apply keeps_wait.
Qed.

Lemma RawGet_touched q st n addr len s : touched q SetRead s (RawGet env cfg q st n addr len s).2.
Proof.
  unfold RawGet. unfold mbind at 1, M_bind at 1, lift at 1. destruct (throw_if _ _); [|by apply keeps_touched..].
  unfold mbind at 1, M_bind at 1, get_state. destruct (IsRunning s); cbn [negb]; [|by apply keeps_touched].
  apply (started_touched q SetRead). apply keeps_bind; [apply keeps_wait|]. intros []; cbn [negb]; [|apply keeps_ret].
  apply keeps_bind; [apply keeps_register|]. intros _. apply keeps_bind; [apply keeps_stats|]. intros _.
  apply keeps_bind; [apply keeps_io|]. intros _. apply keeps_lift.
Qed.

Lemma RawGet_joined q st n addr len s s' : RawGet env cfg q st n addr len s = (Ok true, s') ->
  joined q SetRead s s' /\ all_ready cfg s = true.
Proof.
  unfold RawGet. intros Hp. M_inv Hp. injection E as _ <-. M_inv Hp. injection E as <- <-.
  destruct (IsRunning s); [|discriminate Hp]. cbn [negb] in Hp.
  M_inv Hp. injection E as <- <-. M_inv Hp. destruct a0; [|discriminate Hp]. cbn [negb] in Hp.
  apply check_seq_joined in E. M_inv Hp. destruct a0; [|discriminate Hp]. cbn [negb] in Hp.
  unfold WaitForAllTensorReady in E0. rewrite alone in E0. apply wait_alone in E0 as [-> Hr].
  split; [|rewrite <- (all_ready_joined _ _ _ _ E); auto].
  eapply joined_keeps; [exact E|]. M_inv Hp.
  apply (keeps_eq _ _ _ _ (keeps_register env cfg _)) in E0. M_inv Hp.
  apply (keeps_eq _ _ _ _ (keeps_stats env cfg _ _)) in E1. M_inv Hp.
  apply (keeps_eq _ _ _ _ (keeps_io _)) in E2. injection Hp as _ <-.
  do 2 (etrans; [eassumption|]). done.
Qed.

Lemma Get_joined q k a s s' : Get env cfg q k a s = (Ok true, s') ->
  joined q SetRead s s' /\ (is_publish_meta s = true -> all_ready cfg s = true).
Proof.
  unfold Get. intros Hp. destruct (IsValid a); [|discriminate Hp]. cbn [negb] in Hp.
  M_inv Hp. injection E as <- <-. destruct (IsRunning s); [|discriminate Hp]. cbn [negb] in Hp.
  M_inv Hp. injection E as <- <-. M_open Hp as ok s1 E. destruct ok; [|discriminate Hp].
  cbn [negb] in Hp. apply check_seq_joined in E. M_open Hp as u s2 E0.
  apply (keeps_eq _ _ _ _ (keeps_register env cfg _)) in E0.
  apply (joined_keeps _ _ _ _ _ E) in E0. M_open Hp as ready s3 E1.
  destruct ready; [|discriminate Hp]. cbn [negb] in Hp.
  apply (keeps_eq _ _ _ _ (keeps_read_tensor env cfg _ _ _)) in Hp.
  unfold WaitForTensorReady in E1. M_open E1 as s2' s2'' E2. injection E2 as <- <-.
  assert (Hpub : is_publish_meta s2 = is_publish_meta s) by apply E0.
  destruct (is_publish_meta s2).
  - M_open E1 as u' s4 E2. apply (keeps_eq _ _ _ _ (keeps_move_cache _)) in E2.
    rewrite alone in E1. apply wait_alone in E1 as [-> Hr].
    pose proof (joined_keeps _ _ _ _ _ E0 E2) as E3.
    split; [by eapply joined_keeps|]. intros _. rewrite <- (all_ready_joined _ _ _ _ E3). auto.
  - rewrite alone in E1. apply wait_alone in E1 as [-> _].
    split; [by eapply joined_keeps|]. congruence.
Qed.

End Specs.

(** ** Handlers on the messages of the peers *)

Section Handlers.
Context `{JsonLaws} (cfg : pull_config).

Lemma handle_ready q n s : in_i64 q -> node_ok n ->
  let s1 := set_ready ({[n]} ∪ ready_nodes s) s in
  HandleWeightReady cfg (Serialize (ToJson_WeightReadyMessage (MkWeightReadyMessage q n))) s =
    (Ok (true, "Success"),
     if all_ready cfg s1 && enable_local_cache_prefetch cfg && has_tensor_table cfg
     then add_io (ActPrefetch q) s1 else s1).
Proof.
  intros Hq Hn. cbn zeta. unfold HandleWeightReady. rewrite ready_message_roundtrip by done.
  unfold try_catch, mbind, M_bind, lift, modify, get_state. cbn [wr_node_info wr_seq_id].
  by destruct (all_ready _ _ && _ && _).
Qed.

Lemma handle_consumed q n s : in_i64 q -> node_ok n ->
  HandleWeightConsumed (Serialize (ToJson_WeightConsumedMessage (MkWeightConsumedMessage q n))) s =
    if q <? current_seq_id s then (Ok (false, "Outdated sequence ID"), s)
    else (Ok (true, "Success"), set_consumed ({[n]} ∪ consumed_nodes s) s).
Proof.
  intros Hq Hn. unfold HandleWeightConsumed. rewrite consumed_message_roundtrip by done.
  unfold try_catch, mbind, M_bind, lift, modify, get_state. cbn [wc_node_info wc_seq_id].
  by destruct (q <? current_seq_id s).
Qed.

End Handlers.

(** ** Statistics *)

(** The first transfer of a time window is counted twice in the total of the window
    and once for its host; later ones are counted once in both. *)
Theorem throughput_first_counted_twice env cfg node bytes s :
  let window := now_ms env - now_ms env mod perf_stats_interval_ms cfg in
  let per_host s := throughput_stats_per_host s !! node ≫= fun m => m !! window in
  enable_perf_metrics cfg = true -> perf_stats_interval_ms cfg <> 0 -> per_host s = None ->
  let s' := (UpdateThroughputStatistic env cfg node bytes s).2 in
  throughput_stats s' !! window = Some (u64 (match throughput_stats s !! window with
                                             | None => 2 * bytes
                                             | Some b => b + bytes end)) /\
  per_host s' = Some bytes.
Proof.
  intros window per_host Hen Hi Hh. unfold UpdateThroughputStatistic. rewrite Hen. cbn [negb].
  destruct (Z.eqb_spec (perf_stats_interval_ms cfg) 0) as [|_]; [done|]. cbn.
  fold window. rewrite lookup_insert_eq. unfold per_host. cbn. rewrite lookup_insert_eq. cbn. split.
  - destruct (throughput_stats s !! window) as [b|] eqn:E; case_decide; try done.
    + by rewrite E.
    + rewrite lookup_insert_eq. cbn. do 2 f_equal. lia.
  - assert (default ∅ (throughput_stats_per_host s !! node) !! window = None) as ->.
    { unfold per_host in Hh. by destruct (_ !! node). }
    by rewrite lookup_insert_eq.
Qed.

Definition quiet_env : pull_env :=
  MkPullEnv (fun _ _ _ _ => Ok true) (fun _ _ _ _ _ => Ok true) (fun _ _ _ _ => Ok true) 1234
    (fun _ => 4) (fun _ s => s).

Definition quiet_cfg (local : NodeInfo) (peers : list NodeInfo) : pull_config :=
  MkPullConfig 0 local peers 60000 false true 1000 false false.

Lemma throughput_first_counted_twice_witness :
  throughput_stats (UpdateThroughputStatistic quiet_env (quiet_cfg demo_node []) "h" 100
    (pull_init true true)).2 !! 1000 = Some 200.
Proof.
  apply (throughput_first_counted_twice quiet_env (quiet_cfg demo_node []) "h" 100
    (pull_init true true)); [reflexivity|discriminate|reflexivity].
Defined.

(** ** What a read touches on the remote node *)

(** The offset and the size of the read do not wrap around together. *)
Definition no_wrap (env : pull_env) (a : ATensor) (info : TensorRDMAInfo) : Prop :=
  forall off len, remote_offset env a info = Ok off ->
    GetTensorTotalByteSize (itemsize env) a = Ok len -> off + len < 2 ^ 64.

(** The memory a peer has published. *)
Definition info_in_memory (info : TensorRDMAInfo) : Prop :=
  0 <= ri_addr info /\ ri_addr info + ri_size info < 2 ^ 64.

Lemma u64_nonneg x : 0 <= u64 x.
Proof. apply u64_range. Qed.

Lemma byte_size_nonneg f a n : GetTensorTotalByteSize f a = Ok n -> 0 <= n.
Proof.
  unfold GetTensorTotalByteSize. intros H. ok_inv H. ok_inv H. injection H as <-. apply u64_nonneg.
Qed.

Lemma remote_offset_nonneg env a i n : remote_offset env a i = Ok n -> 0 <= n.
Proof.
  unfold remote_offset, GetStorageByteOffset. intros H.
  destruct (_ && _); repeat ok_inv H; injection H as <-; apply u64_nonneg.
Qed.

(** C10: A read of a tensor makes at most one transfer; it goes to the node of one of the
    infos cached for the tensor's key, and every byte it reads there lies in the memory
    that this node published for the tensor.  This is so when the published memory
    ends below 2^64, and the offset and the size of the read do not wrap around
    together ([no_wrap]), as they do for an offset that a peer publishes as
    negative ([read_before_published]). *)
Theorem read_within_published env cfg seq_id tensor_key a s r s' :
  read_tensor env cfg seq_id tensor_key a s = (r, s') ->
  (forall meta infos info, remote_tensor_cache s !! seq_id = Some meta ->
     meta !! tensor_key = Some infos -> info ∈ infos -> info_in_memory info /\ no_wrap env a info) ->
  io s' = io s \/
  exists meta infos info len addr,
    remote_tensor_cache s !! seq_id = Some meta /\ meta !! tensor_key = Some infos /\
    info ∈ infos /\
    io s' = io s ++ [ActReceive (data (storage a)) len (hostname_or_ip (ri_node_info info))
                       (rdma_port (ri_node_info info)) addr] /\
    ri_addr info <= addr /\ addr + len <= ri_addr info + ri_size info.
Proof.
  unfold read_tensor, mbind, M_bind, get_state, lift, modify, GetTensorRDMAInfoVector. intros Hr Hok.
  destruct (remote_tensor_cache s !! seq_id) as [meta|] eqn:Hm; [|left; by injection Hr as _ <-].
  destruct (meta !! tensor_key) as [infos|] eqn:Hk; [|left; by injection Hr as _ <-].
  destruct infos as [|i0 infos]; [left; by injection Hr as _ <-|].
  set (l := i0 :: infos) in *.
  destruct (index l _) as [info| |] eqn:Hi; [|left; by injection Hr as _ <-..].
  assert (Hin : info ∈ l).
  { apply index_Ok in Hi as [_ Hi]. by eapply list_elem_of_lookup_2. }
  destruct (Hok _ _ _ eq_refl Hk Hin) as [[Ha Hs] Hw].
  destruct (remote_offset env a info) as [off| |] eqn:Ho; [|left; by injection Hr as _ <-..].
  destruct (GetTensorTotalByteSize _ _) as [len| |] eqn:Hl; [|left; by injection Hr as _ <-..].
  destruct (throw_if _ _) as [u| |] eqn:Ht; [|left; by injection Hr as _ <-..].
  apply throw_if_Ok, Z.ltb_ge in Ht. specialize (Hw _ _ Ho Hl).
  pose proof (remote_offset_nonneg _ _ _ _ Ho). pose proof (byte_size_nonneg _ _ _ Hl).
  rewrite u64_small in Ht by (unfold in_u64; lia).
  right. exists meta, l, info, len, (u64 (ri_addr info + off)). split_and!; try done.
  - assert (Hio : forall n b s1, io (UpdateThroughputStatistic env cfg n b s1).2 = io s1).
    { intros n b s1. unfold UpdateThroughputStatistic. destruct (negb _); [done|].
      by destruct (_ =? 0). }
    destruct (Receive _ _ _ _ _ _) as [b| |]; [|by injection Hr as _ <-..].
    match type of Hr with context [UpdateThroughputStatistic ?e ?c ?n ?b ?s1] =>
      pose proof (Hio n b s1) as Hio'; destruct (UpdateThroughputStatistic e c n b s1) as [[] s2] end;
    injection Hr as _ <-; cbn in Hio'; by rewrite Hio'.
  - rewrite u64_small by (unfold in_u64; lia). lia.
  - rewrite u64_small by (unfold in_u64; lia). lia.
Qed.

(** A state whose cache holds one info for [demo_key] of sequence 7. *)
Definition cached (info : TensorRDMAInfo) : pull_state :=
  set_cache {[7 := {[demo_key := [info]]}]} (pull_init true true).

Definition demo_remote (offset : Z) : TensorRDMAInfo :=
  MkTensorRDMAInfo 4096 64 EmptyString demo_node
    (MkATensor (Some [4; 4]) (Some [4; 1]) offset 2 ATDtype.Float false false false
       (MkATStorage 64 (MkATDevice ATDeviceType.CPU 0) 0)).

(** The first row of the remote tensor. *)
Definition demo_local : ATensor :=
  MkATensor (Some [1; 4]) (Some [4; 1]) 0 2 ATDtype.Float false false false
    (MkATStorage 16 (MkATDevice ATDeviceType.CPU 0) 8192).

Lemma read_within_published_witness :
  io (read_tensor quiet_env (quiet_cfg demo_node []) 7 demo_key demo_local
        (cached (demo_remote 4))).2 = io (cached (demo_remote 4)) \/
  exists meta infos info len addr,
    remote_tensor_cache (cached (demo_remote 4)) !! 7 = Some meta /\
    meta !! demo_key = Some infos /\ info ∈ infos /\
    io (read_tensor quiet_env (quiet_cfg demo_node []) 7 demo_key demo_local
          (cached (demo_remote 4))).2 =
      io (cached (demo_remote 4)) ++ [ActReceive 8192 len (hostname_or_ip (ri_node_info info))
            (rdma_port (ri_node_info info)) addr] /\
    ri_addr info <= addr /\ addr + len <= ri_addr info + ri_size info.
Proof.
  apply (read_within_published quiet_env (quiet_cfg demo_node []) 7 demo_key demo_local
    (cached (demo_remote 4)) (Ok true)); [vm_compute; reflexivity|].
  intros meta infos info Hm Hk Hi. cbn [cached set_cache remote_tensor_cache] in Hm.
  apply lookup_singleton_Some in Hm as [_ <-]. apply lookup_singleton_Some in Hk as [_ <-]. apply list_elem_of_singleton in Hi. subst info. split.
  - split; reflexivity || discriminate.
  - intros off len Ho Hl. vm_compute in Ho, Hl. injection Ho as <-. injection Hl as <-. reflexivity.
Defined.

(** The bound check of a read wraps: a peer that publishes a negative storage offset
    makes the reader transfer bytes that lie before the published memory. *)
Theorem read_before_published :
  exists r s', read_tensor quiet_env (quiet_cfg demo_node []) 7 demo_key demo_local
                 (cached (demo_remote (-1))) = (r, s') /\ r = Ok true /\
    io s' = [ActReceive 8192 16 "10.0.0.1" 8000 4092] /\
    4092 < ri_addr (demo_remote (-1)).
Proof. eexists _, _. split; [vm_compute; reflexivity|]. split_and!; reflexivity. Qed.
