(* ===== verification/Distribution.v ===== *)
(** * Distribution of transfers

    transfer/tensor_transfer_utils.cpp: checking the metas of the tensor
    shards and choosing, for each shard, the nodes that transfer it.  A
    priority queue is the list of its elements, [pq_pop] takes a maximal one; the
    order in which a hash map is visited is an argument.

    The theorems show that a shard is given to as many of the nodes that
    have it as were asked for and to no others, and that the choice among
    them goes to the node with the most work so far. *)

From stdpp Require Import gmap strings.
From Stdlib Require Import String.
From S2P Require Import Prelude StringUtils Tensor Messages Transfer.
Local Open Scope Z_scope.

(** ** Checking *)

(** [memcmp(a, b, sizeof(int64_t) * n) == 0] *)
Definition memcmp64_eq (a b : option (list Z)) (n : Z) : result bool :=
  if n <? 0 then Undef
  else if n =? 0 then Ok true
  else match a, b with
       | Some x, Some y =>
           if (Z.to_nat n <=? length x)%nat && (Z.to_nat n <=? length y)%nat
           then Ok (bool_decide (take (Z.to_nat n) x = take (Z.to_nat n) y)) else Undef
       | _, _ => Undef
       end.

(** The body of the inner loop, against the first meta of the shard. *)
Definition validate_meta (sample meta : TensorRDMAInfo) : result unit :=
  let t := ri_atensor meta in
  let st := ri_atensor sample in
  _ ← throw_if ((ri_addr meta =? 0) || (ri_size meta =? 0) || bool_decide (ri_rkey meta = EmptyString) ||
                bool_decide (hostname_or_ip (ri_node_info meta) = EmptyString) ||
                (rdma_port (ri_node_info meta) =? 0) || (ctrl_flow_port (ri_node_info meta) =? 0))
         "meta is invalid, tensor_key: ";
  _ ← throw_if (negb (bool_decide (dtype t = dtype st))) "mismatch dtype, tensor_key: ";
  _ ← throw_if (negb (dim_num t =? dim_num st)) "mismatch dim_num, tensor_key: ";
  same_size ← memcmp64_eq (at_size t) (at_size st) (dim_num t);
  _ ← throw_if (negb same_size) "mismatch size, tensor_key: ";
  same_stride ← memcmp64_eq (at_stride t) (at_stride st) (dim_num t);
  throw_if (negb same_stride) "mismatch stride, tensor_key: ".

Definition validate_shard (shard : ShardedKey * list TensorRDMAInfo) : result unit :=
  match shard.2 with
  | [] => Throw "transfer_meta_list is empty, tensor_key: "
  | sample :: _ => for_each (fun meta _ => validate_meta sample meta) shard.2 tt
  end.

Definition ValidateTensorTransferMeta (order : list (ShardedKey * list TensorRDMAInfo)) : result unit :=
  for_each (fun shard _ => validate_shard shard) order tt.

(** ** Orders *)

Definition node_info_lt (a b : NodeInfo) : bool :=
  if negb (bool_decide (hostname_or_ip a = hostname_or_ip b))
  then String.ltb (hostname_or_ip a) (hostname_or_ip b)
  else if negb (rdma_port a =? rdma_port b) then rdma_port a <? rdma_port b
  else ctrl_flow_port a <? ctrl_flow_port b.

(** [node_infocompare]: loads first. *)
Definition node_load_lt (a b : Z * NodeInfo) : bool :=
  if negb (a.1 =? b.1) then a.1 <? b.1 else node_info_lt a.2 b.2.

(** A shard with its metas and its size in bytes. *)
Record shard_pair : Type := MkShardPair {
  sp_key : ShardedKey;
  sp_metas : list TensorRDMAInfo;
  sp_bytes : Z;
}.

Fixpoint offsets_lt (a b : list Z) : option bool :=
  match a, b with
  | x :: a', y :: b' => if x =? y then offsets_lt a' b' else Some (x <? y)
  | _, _ => None
  end.

(** [tensor_shard_pair_compare] *)
Definition shard_pair_lt (a b : shard_pair) : bool :=
  if negb (length (sp_metas a) =? length (sp_metas b))%nat then (length (sp_metas a) <? length (sp_metas b))%nat
  else if negb (sp_bytes a =? sp_bytes b) then sp_bytes a <? sp_bytes b
  else if negb (bool_decide (key (sp_key a) = key (sp_key b))) then String.ltb (key (sp_key a)) (key (sp_key b))
  else
    let na := length (global_offset (sp_key a)) in
    let nb := length (global_offset (sp_key b)) in
    match (if (na =? nb)%nat then offsets_lt (global_offset (sp_key a)) (global_offset (sp_key b)) else None) with
    | Some r => r
    | None => (na <? nb)%nat
    end.

(** [top] and [pop] of a priority queue: an element that no other is greater
    than, and the rest. *)
Fixpoint pq_pop {A} (lt : A -> A -> bool) (l : list A) : option (A * list A) :=
  match l with
  | [] => None
  | x :: l' =>
      match pq_pop lt l' with
      | None => Some (x, [])
      | Some (m, r) => if lt x m then Some (m, x :: r) else Some (x, l')
      end
  end.

(** [std::sort] of the metas by node. *)
Fixpoint insert_meta (x : TensorRDMAInfo) (l : list TensorRDMAInfo) : list TensorRDMAInfo :=
  match l with
  | [] => [x]
  | y :: l' => if node_info_lt (ri_node_info y) (ri_node_info x) then y :: insert_meta x l' else x :: l
  end.

Definition sort_metas (l : list TensorRDMAInfo) : list TensorRDMAInfo := foldr insert_meta [] l.

(** ** Choosing nodes *)

(** The loop over [main_replica]. *)
Fixpoint take_nodes (n : nat) (total_size : Z) (pq : list (Z * NodeInfo)) (ret : list NodeInfo)
    (node_size_map : gmap NodeInfo Z) : result (list NodeInfo * gmap NodeInfo Z) :=
  match n with
  | O => Ok (ret, node_size_map)
  | S n' =>
      match pq_pop node_load_lt pq with
      | None => Ok (ret, node_size_map)
      | Some ((node_size, node), pq') =>
          new_size ← chk64 (node_size + total_size);
          take_nodes n' total_size pq' (ret ++ [node]) (<[node := new_size]> node_size_map)
      end
  end.

(** A negative count is a huge argument of [reserve]. *)
Definition DetermineTopNodeForShard (sp : shard_pair) (main_replica : Z) (node_size_map : gmap NodeInfo Z)
    : result (list NodeInfo * gmap NodeInfo Z) :=
  _ ← throw_if (main_replica <? 0) "vector::reserve";
  let pq := (fun m => (default 0 (node_size_map !! ri_node_info m), ri_node_info m)) <$> sp_metas sp in
  take_nodes (Z.to_nat main_replica) (i64 (sp_bytes sp)) pq [] node_size_map.

Abbreviation TensorTransferDistribution := (gmap NodeInfo (gset ShardedKey)).

(** [ret[node].emplace(key)] *)
Definition give_shard (k : ShardedKey) (ret : TensorTransferDistribution) (node : NodeInfo) : TensorTransferDistribution :=
  <[node := {[k]} ∪ default ∅ (ret !! node)]> ret.

(** The loop over the queue of shards. *)
Fixpoint distribute_loop (fuel : nat) (main_replica : Z) (pq : list shard_pair) (node_size_map : gmap NodeInfo Z)
    (ret : TensorTransferDistribution) : result TensorTransferDistribution :=
  match fuel with
  | O => Ok ret
  | S fuel' =>
      match pq_pop shard_pair_lt pq with
      | None => Ok ret
      | Some (sp, pq') =>
          '(nodes, node_size_map) ← DetermineTopNodeForShard sp main_replica node_size_map;
          distribute_loop fuel' main_replica pq' node_size_map (foldl (give_shard (sp_key sp)) ret nodes)
      end
  end.

Section Distribute.
  Context (itemsize : ScalarType.t -> Z).

(** The element of the queue for a shard; the size is that of its first meta. *)
Definition make_pair (shard : ShardedKey * list TensorRDMAInfo) : result shard_pair :=
  let metas := sort_metas shard.2 in
  match metas with
  | [] => Undef
  | first :: _ =>
      bytes ← GetTensorTotalByteSize itemsize (ri_atensor first);
      Ok (MkShardPair shard.1 metas bytes)
  end.

(** [order]: the order in which the map of the metas is visited.  The loop takes
    one shard from the queue each time, so that their number is enough fuel. *)
Definition DistributeTensorTransferMeta (order : list (ShardedKey * list TensorRDMAInfo)) (main_replica : Z)
    : result TensorTransferDistribution :=
  _ ← ValidateTensorTransferMeta order;
  pairs ← map_result make_pair order;
  distribute_loop (length pairs) main_replica pairs ∅ ∅.

End Distribute.

(** ** Lemmas *)

Lemma pq_pop_perm {A} (lt : A -> A -> bool) l m r : pq_pop lt l = Some (m, r) -> l ≡ₚ m :: r.
Proof.
  revert m r. induction l as [|x l IH]; intros m r H; [done|]. cbn in H.
  destruct (pq_pop lt l) as [[m' r']|] eqn:E.
  - destruct (lt x m'); injection H as <- <-; [|done].
    rewrite (IH _ _ eq_refl). apply perm_swap.
  - injection H as <- <-. destruct l as [|y l]; [done|]. cbn in E. by destruct (pq_pop lt l) as [[]|]; try destruct (lt _ _).
Qed.

Lemma pq_pop_None {A} (lt : A -> A -> bool) l : pq_pop lt l = None -> l = [].
Proof. destruct l as [|x l]; [done|]. cbn. by destruct (pq_pop lt l) as [[]|]; try destruct (lt _ _). Qed.

(** The load of the top is the greatest. *)
Lemma pq_pop_load l m r : pq_pop node_load_lt l = Some (m, r) -> forall x, x ∈ l -> x.1 <= m.1.
Proof.
  assert (Hlt : forall a b, node_load_lt a b = true -> a.1 <= b.1).
  { intros a b. unfold node_load_lt. destruct (Z.eqb_spec a.1 b.1); cbn; [lia|]. intros ?%Z.ltb_lt. lia. }
  assert (Hge : forall a b, node_load_lt a b = false -> b.1 <= a.1).
  { intros a b. unfold node_load_lt. destruct (Z.eqb_spec a.1 b.1); cbn; [lia|]. intros ?%Z.ltb_ge. lia. }
  revert m r. induction l as [|y l IH]; intros m r H x Hx; [done|]. cbn in H.
  destruct (pq_pop node_load_lt l) as [[m' r']|] eqn:E.
  - specialize (IH _ _ eq_refl). destruct (node_load_lt y m') eqn:Ey; injection H as <- <-;
      apply elem_of_cons in Hx as [->|Hx]; auto; [lia|]. specialize (IH x Hx). apply Hge in Ey. lia.
  - injection H as <- <-. apply pq_pop_None in E as ->. apply list_elem_of_singleton in Hx as ->. lia.
Qed.

Lemma sort_metas_perm l : sort_metas l ≡ₚ l.
Proof.
  assert (Hi : forall x l, insert_meta x l ≡ₚ x :: l).
  { intros x l'. induction l' as [|y l' IH]; cbn; [done|]. destruct (node_info_lt _ _); [|done].
    rewrite IH. apply perm_swap. }
  induction l as [|x l IH]; [done|]. cbn. by rewrite Hi, IH.
Qed.

(** The nodes that are taken are as many as were asked for, or all, and come
    from the queue. *)
Lemma take_nodes_spec n t : forall pq ret nsm ret' nsm',
  take_nodes n t pq ret nsm = Ok (ret', nsm') ->
  exists chosen rest, ret' = ret ++ chosen /\ (snd <$> pq) ≡ₚ chosen ++ rest /\ length chosen = Nat.min n (length pq).
Proof.
  induction n as [|n IH]; intros pq ret nsm ret' nsm' H; cbn in H.
  { injection H as <- <-. exists [], (snd <$> pq). by rewrite app_nil_r. }
  destruct (pq_pop node_load_lt pq) as [[[sz node] pq']|] eqn:E.
  - ok_inv H. apply IH in H as (chosen & rest & -> & Hp & Hl). apply pq_pop_perm in E.
    exists (node :: chosen), rest. rewrite <-app_assoc. split; [done|]. split.
    + rewrite E, fmap_cons, Hp. done.
    + rewrite E. cbn. by rewrite Hl.
  - injection H as <- <-. apply pq_pop_None in E as ->. exists [], []. by rewrite app_nil_r.
Qed.

Lemma DetermineTopNode_spec p r nsm nodes nsm' :
  DetermineTopNodeForShard p r nsm = Ok (nodes, nsm') ->
  exists rest, (ri_node_info <$> sp_metas p) ≡ₚ nodes ++ rest /\
    length nodes = Nat.min (Z.to_nat r) (length (sp_metas p)).
Proof.
  intros H. unfold DetermineTopNodeForShard in H. ok_inv H. apply take_nodes_spec in H as (chosen & rest & -> & Hp & Hl).
  exists rest. rewrite <-list_fmap_compose in Hp. rewrite length_fmap in Hl. done.
Qed.

(** The shards of a node after adding one shard to some nodes. *)
Lemma give_shards_lookup k nodes ret n x :
  x ∈ default ∅ (foldl (give_shard k) ret nodes !! n) <-> (x = k /\ n ∈ nodes) \/ x ∈ default ∅ (ret !! n).
Proof.
  revert ret. induction nodes as [|m nodes IH]; intros ret; cbn [foldl].
  { rewrite elem_of_nil. naive_solver. }
  rewrite IH. unfold give_shard at 1. rewrite elem_of_cons. destruct (decide (n = m)) as [->|Hne].
  - rewrite lookup_insert_eq. cbn. rewrite elem_of_union, elem_of_singleton. naive_solver.
  - rewrite lookup_insert_ne by done. naive_solver.
Qed.

(** The loop assigns every shard of the queue. *)
Lemma distribute_loop_spec r fuel : forall pq nsm ret d,
  (length pq <= fuel)%nat -> distribute_loop fuel r pq nsm ret = Ok d ->
  exists chosen : list (shard_pair * list NodeInfo), pq ≡ₚ chosen.*1 /\
    Forall (fun c => exists rest, (ri_node_info <$> sp_metas c.1) ≡ₚ c.2 ++ rest /\
              length c.2 = Nat.min (Z.to_nat r) (length (sp_metas c.1))) chosen /\
    forall n x, x ∈ default ∅ (d !! n) <->
      (exists c, c ∈ chosen /\ x = sp_key c.1 /\ n ∈ c.2) \/ x ∈ default ∅ (ret !! n).
Proof.
  induction fuel as [|fuel IH]; intros pq nsm ret d Hf H; cbn in H.
  { injection H as <-. destruct pq; [|cbn in Hf; lia]. exists []. split; [done|]. split; [done|].
    intros n x. split; [by right|]. intros [(c & Hc & _)|?]; [by apply not_elem_of_nil in Hc|done]. }
  destruct (pq_pop shard_pair_lt pq) as [[p pq']|] eqn:E.
  2: { injection H as <-. apply pq_pop_None in E as ->. exists []. split; [done|]. split; [done|].
       intros n x. split; [by right|]. intros [(c & Hc & _)|?]; [by apply not_elem_of_nil in Hc|done]. }
  destruct (DetermineTopNodeForShard p r nsm) as [[nodes nsm']| |] eqn:En; [|discriminate H..].
  cbn [mbind result_bind] in H. apply pq_pop_perm in E.
  apply IH in H as (chosen & Hp & Hc & Hd); [|apply Permutation_length in E; cbn in E; lia].
  exists ((p, nodes) :: chosen). split; [by rewrite E, Hp|]. split.
  - constructor; [by eapply DetermineTopNode_spec|done].
  - intros n x. rewrite Hd, give_shards_lookup. setoid_rewrite elem_of_cons. naive_solver.
Qed.

(** Every load stays at most the bytes given out so far. *)
Definition loads_within (node_size_map : gmap NodeInfo Z) (bytes : Z) : Prop :=
  forall n, 0 <= default 0 (node_size_map !! n) <= bytes.

Definition total_bytes (pq : list shard_pair) : Z := foldr (fun p => Z.add (sp_bytes p)) 0 pq.

Lemma total_bytes_perm pq pq' : pq ≡ₚ pq' -> total_bytes pq = total_bytes pq'.
Proof. unfold total_bytes. induction 1; cbn; lia. Qed.

Lemma total_bytes_nonneg pq : Forall (fun p => 0 <= sp_bytes p) pq -> 0 <= total_bytes pq.
Proof. unfold total_bytes. induction 1; cbn; lia. Qed.

Lemma take_nodes_total n t S : 0 <= t -> S + t < 2 ^ 63 -> forall pq ret nsm,
  Forall (fun x => 0 <= x.1 <= S) pq -> loads_within nsm (S + t) ->
  exists ret' nsm', take_nodes n t pq ret nsm = Ok (ret', nsm') /\ loads_within nsm' (S + t).
Proof.
  intros Ht HS. induction n as [|n IH]; intros pq ret nsm Hpq Hn; cbn; [eauto|].
  destruct (pq_pop node_load_lt pq) as [[[sz node] pq']|] eqn:E; [|eauto].
  rewrite (pq_pop_perm _ _ _ _ E) in Hpq. apply Forall_cons in Hpq as [Hsz Hpq]. cbn in Hsz.
  rewrite chk64_small by (unfold in_i64; lia). cbn [mbind result_bind]. apply IH; [done|].
  intros m. destruct (decide (m = node)) as [->|Hne]; [rewrite lookup_insert_eq; cbn; lia|].
  rewrite lookup_insert_ne by done. apply Hn.
Qed.

Lemma DetermineTopNode_total p r nsm S : 0 <= r -> 0 <= sp_bytes p -> S + sp_bytes p < 2 ^ 63 -> loads_within nsm S ->
  exists nodes nsm', DetermineTopNodeForShard p r nsm = Ok (nodes, nsm') /\ loads_within nsm' (S + sp_bytes p).
Proof.
  intros Hr Hb HS Hn. assert (HS0 : 0 <= S) by (specialize (Hn (MkNodeInfo EmptyString 0 0)); lia).
  unfold DetermineTopNodeForShard. replace (r <? 0) with false by lia. cbn [throw_if mbind result_bind].
  rewrite i64_small by (unfold in_i64; lia). apply take_nodes_total; [done|done| |].
  - apply Forall_forall. intros x (m & -> & _)%list_elem_of_fmap. apply Hn.
  - intros n. specialize (Hn n). lia.
Qed.

(** The loop takes all shards when their sizes together fit. *)
Lemma distribute_loop_total r fuel : 0 <= r -> forall pq nsm ret S,
  Forall (fun p => 0 <= sp_bytes p) pq -> S + total_bytes pq < 2 ^ 63 -> loads_within nsm S ->
  exists d, distribute_loop fuel r pq nsm ret = Ok d.
Proof.
  intros Hr. induction fuel as [|fuel IH]; intros pq nsm ret S Hpq HS Hn; cbn; [eauto|].
  destruct (pq_pop shard_pair_lt pq) as [[p pq']|] eqn:E; [|eauto]. apply pq_pop_perm in E.
  rewrite (total_bytes_perm _ _ E) in HS. cbn in HS. fold (total_bytes pq') in HS.
  rewrite E in Hpq. apply Forall_cons in Hpq as [Hb Hpq]. pose proof (total_bytes_nonneg _ Hpq).
  destruct (DetermineTopNode_total p r nsm S) as (nodes & nsm' & -> & Hn'); [lia|done|lia|done|].
  cbn [mbind result_bind]. eapply IH; [done| |exact Hn']. lia.
Qed.

(** ** Properties *)

Lemma make_pair_Ok itemsize sh p : make_pair itemsize sh = Ok p ->
  sp_key p = sh.1 /\ sp_metas p ≡ₚ sh.2 /\
  exists first, first ∈ sh.2 /\ GetTensorTotalByteSize itemsize (ri_atensor first) = Ok (sp_bytes p).
Proof.
  unfold make_pair. pose proof (sort_metas_perm sh.2) as Hp. destruct (sort_metas sh.2) as [|first l]; [done|].
  intros H. ok_inv H. injection H as <-. cbn. split; [done|]. split; [done|].
  exists first. split; [|done]. rewrite <-Hp. by left.
Qed.

Lemma NoDup_fmap_elem {A B} (f : A -> B) (l : list A) x y :
  NoDup (f <$> l) -> x ∈ l -> y ∈ l -> f x = f y -> x = y.
Proof.
  intros Hnd [i Hi]%list_elem_of_lookup [j Hj]%list_elem_of_lookup E.
  assert (i = j) as <-; [|congruence].
  eapply (NoDup_lookup (f <$> l) i j (f x)); [done|..]; rewrite list_lookup_fmap, ?Hi, ?Hj; cbn; congruence.
Qed.

Lemma make_pairs_keys itemsize order pairs :
  Forall2 (fun sh p => make_pair itemsize sh = Ok p) order pairs -> sp_key <$> pairs = order.*1.
Proof.
  induction 1 as [|sh p order pairs E _ IH]; [done|]. rewrite !fmap_cons, IH.
  by destruct (make_pair_Ok _ _ _ E) as (-> & _).
Qed.

(** Nothing fails before the loop on shards that have passed the checks. *)
Lemma validated_nonempty order sh : ValidateTensorTransferMeta order = Ok tt -> sh ∈ order -> sh.2 <> [].
Proof.
  intros H Hin. apply (for_each_Ok _ _ _ _ H) in Hin. unfold validate_shard in Hin. by destruct sh.2.
Qed.

Lemma make_pairs_total itemsize order bytes :
  Forall2 (fun sh b => sh.2 <> [] /\
    forall m, m ∈ sh.2 -> GetTensorTotalByteSize itemsize (ri_atensor m) = Ok b) order bytes ->
  exists pairs, map_result (make_pair itemsize) order = Ok pairs /\ sp_bytes <$> pairs = bytes.
Proof.
  induction 1 as [|sh b order bytes [Hne Hb] _ (pairs & E & <-)]; [by exists []|].
  assert (exists p, make_pair itemsize sh = Ok p /\ sp_bytes p = b) as (p & Ep & <-).
  { unfold make_pair. pose proof (sort_metas_perm sh.2) as Hp.
    destruct (sort_metas sh.2) as [|first l]; [by apply Permutation_nil_l in Hp|].
    rewrite (Hb first) by (rewrite <-Hp; by left). cbn. by eexists. }
  cbn. rewrite Ep. cbn. rewrite E. cbn. eauto.
Qed.

Lemma distribution_spec (itemsize : ScalarType.t -> Z) (order : list (ShardedKey * list TensorRDMAInfo))
    (main_replica : Z) (d : TensorTransferDistribution) :
  NoDup order.*1 -> DistributeTensorTransferMeta itemsize order main_replica = Ok d ->
  (forall k metas, (k, metas) ∈ order ->
     exists nodes rest, (ri_node_info <$> metas) ≡ₚ nodes ++ rest /\
       length nodes = Nat.min (Z.to_nat main_replica) (length metas) /\
       forall n, k ∈ default ∅ (d !! n) <-> n ∈ nodes) /\
  (forall n k, k ∈ default ∅ (d !! n) -> k ∈ order.*1).
Proof.
  intros Hnd H. unfold DistributeTensorTransferMeta in H. ok_inv H.
  destruct (map_result (make_pair itemsize) order) as [pairs| |] eqn:Ep; [|discriminate H..].
  cbn [mbind result_bind] in H. apply map_result_Ok in Ep.
  apply distribute_loop_spec in H as (chosen & Hp & Hc & Hd); [|done].
  pose proof (make_pairs_keys _ _ _ Ep) as Hkeys.
  assert (Hperm : (fun c => sp_key c.1) <$> chosen ≡ₚ order.*1).
  { rewrite <-Hkeys, Hp, <-list_fmap_compose. done. }
  split.
  - intros k metas Hin. destruct (Forall2_elem_l _ _ _ _ Ep Hin) as (p & Hpin & Em).
    assert (p ∈ chosen.*1) as Hpc by (by rewrite <-Hp). apply list_elem_of_fmap in Hpc as ([p' nodes] & -> & Hcin).
    rewrite Forall_forall in Hc. destruct (Hc _ Hcin) as (rest & Hr & Hl). cbn [fst snd] in *.
    destruct (make_pair_Ok _ _ _ Em) as (Ek & Hm & _). cbn [fst snd] in Ek, Hm.
    exists nodes, rest. rewrite <-Hm. split; [done|]. split; [done|].
    intros n. rewrite Hd, lookup_empty. split.
    + intros [(c & Hc2 & E2 & Hn)|Hx]; [|by apply elem_of_empty in Hx].
      assert (c = (p', nodes)) as ->; [|done].
      apply (NoDup_fmap_elem (fun c => sp_key c.1) chosen); [by rewrite Hperm|done|done|cbn; congruence].
    + intros Hn. left. by exists (p', nodes).
  - intros n k. rewrite Hd, lookup_empty. intros [(c & Hcin & -> & _)|Hx]; [|by apply elem_of_empty in Hx].
    rewrite <-Hperm. by apply (list_elem_of_fmap_2 (fun c => sp_key c.1)).
Qed.

(** Shards that pass the checks are all distributed when their sizes together
    fit a signed 64-bit integer: every shard is given to as many of the nodes
    that have it as were asked for, or to all of them when there are fewer,
    and to no other node. *)
Theorem distribution_correct (itemsize : ScalarType.t -> Z) (order : list (ShardedKey * list TensorRDMAInfo))
    (main_replica : Z) (bytes : list Z) :
  NoDup order.*1 -> ValidateTensorTransferMeta order = Ok tt -> 0 <= main_replica ->
  Forall2 (fun sh b => forall m, m ∈ sh.2 -> GetTensorTotalByteSize itemsize (ri_atensor m) = Ok b) order bytes ->
  Forall (Z.le 0) bytes -> foldr Z.add 0 bytes < 2 ^ 63 ->
  exists d, DistributeTensorTransferMeta itemsize order main_replica = Ok d /\
    (forall k metas, (k, metas) ∈ order ->
       exists nodes rest, (ri_node_info <$> metas) ≡ₚ nodes ++ rest /\
         length nodes = Nat.min (Z.to_nat main_replica) (length metas) /\
         forall n, k ∈ default ∅ (d !! n) <-> n ∈ nodes) /\
    (forall n k, k ∈ default ∅ (d !! n) -> k ∈ order.*1).
Proof.
  intros Hnd Hv Hr Hb Hb0 HS.
  enough (exists d, DistributeTensorTransferMeta itemsize order main_replica = Ok d) as [d H].
  { exists d. split; [done|]. by apply (distribution_spec itemsize). }
  destruct (make_pairs_total itemsize order bytes) as (pairs & E & Eb).
  { apply Forall2_same_length_lookup_2; [by eapply Forall2_length|]. intros i sh b Hi Hbi. split.
    - eapply validated_nonempty; [done|]. by eapply list_elem_of_lookup_2.
    - by eapply Forall2_lookup_lr in Hb. }
  unfold DistributeTensorTransferMeta. rewrite Hv. cbn [mbind result_bind]. rewrite E. cbn [mbind result_bind].
  apply (distribute_loop_total _ _ Hr) with (S := 0); [..|intros n; rewrite lookup_empty; cbn; lia].
  - rewrite <-Eb, Forall_fmap in Hb0. exact Hb0.
  - unfold total_bytes. rewrite <-Eb, foldr_fmap in HS. exact HS.
Qed.

(** One node has all the work so far, and gets the next shard it has. *)
Lemma loaded_node_wins p n load :
  0 < load -> n ∈ (ri_node_info <$> sp_metas p) -> 0 < sp_bytes p < 2 ^ 63 ->
  forall r, DetermineTopNodeForShard p 1 {[n := load]} = Ok r -> r = ([n], {[n := load + sp_bytes p]}).
Proof.
  intros Hl Hn Hb r H. unfold DetermineTopNodeForShard in H. change (Z.to_nat 1) with 1%nat in H. cbn in H.
  set (pq := (fun m => _) <$> sp_metas p) in H.
  destruct (pq_pop node_load_lt pq) as [[[sz node] pq']|] eqn:E.
  - assert (Hmax : load <= sz).
    { apply (pq_pop_load _ _ _ E (load, n)). apply list_elem_of_fmap in Hn as (m & -> & Hm).
      apply list_elem_of_fmap. exists m. by rewrite lookup_singleton_eq. }
    assert (Hin : (sz, node) ∈ pq) by (rewrite (pq_pop_perm _ _ _ _ E); by left).
    apply list_elem_of_fmap in Hin as (m & [= Hsz Hnode] & _).
    destruct (decide (ri_node_info m = n)) as [En|En].
    + rewrite En, lookup_singleton_eq in Hsz. cbn in Hsz. ok_inv H. apply chk64_Ok in E0 as ->. injection H as <-.
      rewrite i64_small by (unfold in_i64; lia). rewrite Hnode, En, Hsz. by rewrite insert_singleton_eq.
    + rewrite lookup_singleton_ne in Hsz by done. cbn in Hsz. lia.
  - apply pq_pop_None in E. subst pq. apply fmap_nil_inv in E. rewrite E in Hn. by apply not_elem_of_nil in Hn.
Qed.

Lemma first_node p : 0 < sp_bytes p < 2 ^ 63 -> sp_metas p <> [] ->
  forall r, DetermineTopNodeForShard p 1 ∅ = Ok r ->
  exists n, n ∈ (ri_node_info <$> sp_metas p) /\ r = ([n], {[n := sp_bytes p]}).
Proof.
  intros Hb Hne r H. unfold DetermineTopNodeForShard in H. change (Z.to_nat 1) with 1%nat in H. cbn in H.
  set (pq := (fun m => _) <$> sp_metas p) in H.
  destruct (pq_pop node_load_lt pq) as [[[sz node] pq']|] eqn:E.
  - assert (Hin : (sz, node) ∈ pq) by (rewrite (pq_pop_perm _ _ _ _ E); by left).
    apply list_elem_of_fmap in Hin as (m & [= Hsz Hnode] & Hm). rewrite lookup_empty in Hsz. cbn in Hsz.
    ok_inv H. apply chk64_Ok in E0 as ->. injection H as <-. exists node. split.
    + rewrite Hnode. by apply list_elem_of_fmap_2.
    + rewrite i64_small by (unfold in_i64; lia). by rewrite Hsz.
  - apply pq_pop_None in E. subst pq. by apply fmap_nil_inv in E.
Qed.

(** Once a node has some work, it gets every shard it has. *)
Lemma loop_piles_up n fuel : forall pq load ret d,
  0 < load -> (length pq <= fuel)%nat ->
  Forall (fun p => n ∈ (ri_node_info <$> sp_metas p) /\ 0 < sp_bytes p < 2 ^ 63) pq ->
  distribute_loop fuel 1 pq {[n := load]} ret = Ok d ->
  forall m x, x ∈ default ∅ (d !! m) <-> (m = n /\ x ∈ (sp_key <$> pq)) \/ x ∈ default ∅ (ret !! m).
Proof.
  induction fuel as [|fuel IH]; intros pq load ret d Hl Hf Hpq H m x; cbn [distribute_loop] in H.
  { injection H as <-. destruct pq; [|cbn in Hf; lia]. rewrite elem_of_nil. naive_solver. }
  destruct (pq_pop shard_pair_lt pq) as [[p pq']|] eqn:E.
  2: { injection H as <-. apply pq_pop_None in E as ->. rewrite elem_of_nil. naive_solver. }
  apply pq_pop_perm in E. rewrite E in Hpq. apply Forall_cons in Hpq as [[Hn Hb] Hpq].
  destruct (DetermineTopNodeForShard p 1 {[n := load]}) as [r| |] eqn:Er; [|discriminate H..].
  apply (loaded_node_wins p n load Hl Hn Hb) in Er as ->. cbn [mbind result_bind foldl] in H.
  assert (Hl' : 0 < load + sp_bytes p) by lia.
  assert (Hf' : (length pq' <= fuel)%nat) by (apply Permutation_length in E; cbn in E; lia).
  rewrite (IH pq' _ _ _ Hl' Hf' Hpq H).
  pose proof (give_shards_lookup (sp_key p) [n] ret m x) as Ha. cbn [foldl] in Ha. rewrite Ha.
  rewrite E, fmap_cons, !elem_of_cons, elem_of_nil. naive_solver.
Qed.

(** When one replica is asked for, the node that was given the first shard is
    given every shard: any number of shards that the same nodes have, of any
    positive sizes, are all transferred by a single node, and the others by none. *)
Theorem distribution_piles_up (itemsize : ScalarType.t -> Z) (order : list (ShardedKey * list TensorRDMAInfo))
    (nodes : list NodeInfo) (d : TensorTransferDistribution) :
  order <> [] ->
  Forall (fun sh => ri_node_info <$> sh.2 ≡ₚ nodes /\
            forall m b, m ∈ sh.2 -> GetTensorTotalByteSize itemsize (ri_atensor m) = Ok b -> 0 < b < 2 ^ 63) order ->
  DistributeTensorTransferMeta itemsize order 1 = Ok d ->
  exists n, n ∈ nodes /\
    forall m k, k ∈ default ∅ (d !! m) <-> m = n /\ k ∈ order.*1.
Proof.
  intros Hne Hall H. unfold DistributeTensorTransferMeta in H. ok_inv H.
  destruct (map_result (make_pair itemsize) order) as [pairs| |] eqn:Ep; [|discriminate H..].
  cbn [mbind result_bind] in H. apply map_result_Ok in Ep. pose proof (make_pairs_keys _ _ _ Ep) as Hkeys.
  assert (Hpairs : Forall (fun p => ri_node_info <$> sp_metas p ≡ₚ nodes /\ sp_metas p <> [] /\ 0 < sp_bytes p < 2 ^ 63) pairs).
  { apply Forall_forall. intros p Hp. destruct (Forall2_elem_r _ _ _ _ Ep Hp) as (sh & Hsh & Em).
    rewrite Forall_forall in Hall. destruct (Hall sh Hsh) as [Hnodes Hbytes].
    destruct (make_pair_Ok _ _ _ Em) as (_ & Hm & first & Hfirst & Hb). split; [by rewrite Hm|]. split.
    - intros E'. rewrite E' in Hm. apply Permutation_nil_l in Hm. rewrite <-Hm in Hfirst.
      by apply not_elem_of_nil in Hfirst.
    - by apply (Hbytes first). }
  destruct pairs as [|p0 pairs0]; [by destruct order|]. set (pairs := p0 :: pairs0) in *.
  change (length pairs) with (S (length pairs0)) in H. cbn [distribute_loop] in H.
  destruct (pq_pop shard_pair_lt pairs) as [[p pq']|] eqn:E'; [|by apply pq_pop_None in E'].
  apply pq_pop_perm in E'. rewrite E' in Hpairs. apply Forall_cons in Hpairs as [(Hn & Hm & Hb) Hpairs].
  destruct (DetermineTopNodeForShard p 1 ∅) as [r| |] eqn:Er; [|discriminate H..].
  apply (first_node p Hb Hm) in Er as (n & Hin & ->). cbn [mbind result_bind foldl] in H. rewrite Hn in Hin.
  exists n. split; [done|]. intros m k.
  assert (Hlen : (length pq' <= length pairs0)%nat) by (apply Permutation_length in E'; cbn in E'; lia).
  assert (Hpq : Forall (fun q => n ∈ (ri_node_info <$> sp_metas q) /\ 0 < sp_bytes q < 2 ^ 63) pq').
  { eapply Forall_impl; [exact Hpairs|]. intros q (Hq1 & _ & Hq2). by rewrite Hq1. }
  rewrite (loop_piles_up n _ pq' _ _ _ (proj1 Hb) Hlen Hpq H).
  pose proof (give_shards_lookup (sp_key p) [n] ∅ m k) as Ha. cbn [foldl] in Ha. rewrite Ha, lookup_empty.
  rewrite <-Hkeys, E', fmap_cons, !elem_of_cons, elem_of_nil. cbn. rewrite elem_of_empty. naive_solver.
Qed.

(** Two shards that two nodes have. *)
Module TwoShards.

Definition tensor : ATensor :=
  MkATensor (Some [4; 4]) (Some [4; 1]) 0 2 ATDtype.Float false false false
    (MkATStorage 64 (MkATDevice ATDeviceType.CPU 0) 4096).
Definition node_a : NodeInfo := MkNodeInfo "10.0.0.1" 7000 8000.
Definition node_b : NodeInfo := MkNodeInfo "10.0.0.2" 7000 8000.
Definition meta (n : NodeInfo) : TensorRDMAInfo := MkTensorRDMAInfo 4096 64 "rkey" n tensor.
Definition shard (offset : Z) : ShardedKey := MkShardedKey "w" [8; 4] [offset; 0].
Definition order : list (ShardedKey * list TensorRDMAInfo) :=
  [(shard 0, [meta node_a; meta node_b]); (shard 4, [meta node_a; meta node_b])].

Lemma distributed : exists d, DistributeTensorTransferMeta (fun _ => 4) order 1 = Ok d.
Proof.
  assert (E : is_ok (DistributeTensorTransferMeta (fun _ => 4) order 1) = true) by (vm_compute; reflexivity).
  destruct (DistributeTensorTransferMeta (fun _ => 4) order 1) as [d| |]; [by exists d|discriminate E..].
Qed.

End TwoShards.
Import TwoShards.

Lemma distribution_correct_witness :
  exists d, DistributeTensorTransferMeta (fun _ => 4) order 1 = Ok d /\
  exists nodes rest, (ri_node_info <$> [meta node_a; meta node_b]) ≡ₚ nodes ++ rest /\
    length nodes = 1%nat /\ forall n, shard 0 ∈ default ∅ (d !! n) <-> n ∈ nodes.
Proof.
  destruct (distribution_correct (fun _ => 4) order 1 [64; 64]) as (d & H & Hd & _); [| | | | | |exists d; split; [exact H|]].
  - apply (bool_decide_unpack _). vm_compute. exact I.
  - vm_compute. reflexivity.
  - lia.
  - repeat constructor; intros m Hm; apply list_elem_of_In in Hm; destruct Hm as [<-|[<-|[]]]; vm_compute; reflexivity.
  - repeat constructor; lia.
  - vm_compute. reflexivity.
  -  apply (Hd (shard 0)). unfold order. by left.
Defined.

Lemma distribution_piles_up_witness :
  exists d n, DistributeTensorTransferMeta (fun _ => 4) order 1 = Ok d /\
    n ∈ [node_a; node_b] /\ forall m k, k ∈ default ∅ (d !! m) <-> m = n /\ k ∈ order.*1.
Proof.
  destruct distributed as [d H]. exists d.
  enough (exists n, n ∈ [node_a; node_b] /\ forall m k, k ∈ default ∅ (d !! m) <-> m = n /\ k ∈ order.*1)
    as (n & Hn) by (by exists n).
  apply (distribution_piles_up (fun _ => 4) order [node_a; node_b] d); [done| |exact H].
  assert (Hb : forall m b, m ∈ [meta node_a; meta node_b] ->
    GetTensorTotalByteSize (fun _ => 4) (ri_atensor m) = Ok b -> 0 < b < 2 ^ 63).
  { intros m b Hm Hb. assert (ri_atensor m = tensor) as E.
    { apply list_elem_of_In in Hm. destruct Hm as [<-|[<-|[]]]; reflexivity. }
    rewrite E in Hb. vm_compute in Hb. injection Hb as <-. lia. }
  repeat constructor; cbn [snd]; try done; by apply (Hb m b).
Defined.
