(* ===== verification/Compact.v ===== *)
(** * Compact reads

    [GetCompactTensorInfos] and [CompactTensorInfos] of
    transfer/tensor_transfer_pull.cpp: the requested shards are grouped by the
    memory of the node they live in, so that each memory is read once. *)

From S2P Require Import Prelude StringUtils Tensor Messages Transfer.
Local Open Scope Z_scope.

Abbreviation TensorShardMap := (gmap ShardedKey ATensor).
Abbreviation AddrMap := (gmap Z TensorShardMap).
Abbreviation NodeMap := (gmap NodeInfo AddrMap).

(** [map.emplace(key, value)]: an existing entry is kept. *)
Definition emplace {V} (k : ShardedKey) (v : V) (m : gmap ShardedKey V) : gmap ShardedKey V :=
  match m !! k with Some _ => m | None => <[k := v]> m end.

Definition add_shard (sharded_key : ShardedKey) (node_map : NodeMap) (info : TensorRDMAInfo)
    : NodeMap :=
  let addr_map := default ∅ (node_map !! ri_node_info info) in
  let shards := default ∅ (addr_map !! ri_addr info) in
  <[ri_node_info info := <[ri_addr info := emplace sharded_key (ri_atensor info) shards]> addr_map]>
    node_map.

(** The loop over the cached metas: the metas of the requested tensors, and
    the shards of each address of each node. *)
Definition collect_step (atensors : list (ShardedKey * ATensor))
    (acc : NodeMap * TransferTensorMeta) (entry : ShardedKey * list TensorRDMAInfo)
    : NodeMap * TransferTensorMeta :=
  if decide (entry.1 ∈ atensors.*1) then
    (foldl (add_shard entry.1) acc.1 entry.2, emplace entry.1 entry.2 acc.2)
  else acc.

(** The inner loop of [CompactTensorInfos]: the shards of one address. *)
Definition take_shard (acc : TransferTensorMeta * TensorShardMap) (shard : ShardedKey * ATensor)
    : TransferTensorMeta * TensorShardMap :=
  match acc.1 !! shard.1 with
  | Some _ => (delete shard.1 acc.1, emplace shard.1 shard.2 acc.2)
  | None => acc
  end.

Definition compact_step (node_map : NodeMap) (entry : ShardedKey * ATensor)
    (acc : TransferTensorMeta * list CompactTensorInfo)
    : result (TransferTensorMeta * list CompactTensorInfo) :=
  match acc.1 !! entry.1 with
  | None => Ok acc (* already contained in results *)
  | Some infos =>
      match last infos with
      | None => Undef
      | Some rdma_info =>
          match node_map !! ri_node_info rdma_info with
          | None => Throw "illegal state: no meta info found for corresponding node"
          | Some addr_map =>
              match addr_map !! ri_addr rdma_info with
              | None => Throw "illegal state: no meta info found for corresponding addr"
              | Some shards =>
                  match shards !! entry.1 with
                  | None => Throw "illegal state: no meta info found for corresponding shard"
                  | Some _ =>
                      let '(meta, atensors) :=
                        foldl take_shard (acc.1, {[entry.1 := entry.2]}) (map_to_list shards) in
                      Ok (meta, acc.2 ++ [MkCompactTensorInfo (ri_addr rdma_info)
                            (ri_size rdma_info) (ri_rkey rdma_info) (ri_node_info rdma_info)
                            atensors])
                  end
              end
          end
      end
  end.

Definition CompactTensorInfos (atensors : list (ShardedKey * ATensor)) (node_map : NodeMap)
    (target_transfer_meta : TransferTensorMeta) : result (list CompactTensorInfo) :=
  r ← for_each (compact_step node_map) atensors (target_transfer_meta, []); Ok r.2.

(** The body of [GetCompactTensorInfos] after the wait, on the metas of the
    sequence ([None]: not ready, or not cached).  [atensors] lists the request
    in the order its map is visited. *)
Definition compact_request (meta : option TransferTensorMeta)
    (atensors : list (ShardedKey * ATensor)) : result (list CompactTensorInfo) :=
  let '(node_map, target) :=
    match meta with
    | Some transfer_meta => foldl (collect_step atensors) (∅, ∅) (map_to_list transfer_meta)
    | None => (∅, ∅)
    end in
  throw_if (negb (size target =? length atensors)%nat)
    "illegal state: target_transfer_meta.size() != atensors.size()";;
  CompactTensorInfos atensors node_map target.

Definition GetCompactTensorInfos (env : pull_env) (cfg : pull_config) (seq_id : Z)
    (atensors : list (ShardedKey * ATensor)) : M (list CompactTensorInfo) :=
  ready ← WaitForAllTensorReady env cfg (tensor_ready_timeout_ms cfg);
  s ← get_state;
  lift (compact_request (if ready : bool then remote_tensor_cache s !! seq_id else None) atensors).

(** ** Compact reads *)

(** The shard of a key at an address of a node. *)
Definition shard_at (nm : NodeMap) (n : NodeInfo) (addr : Z) (k : ShardedKey) : option ATensor :=
  nm !! n ≫= fun am => am !! addr ≫= fun sh => sh !! k.

(** Some info of the list is at this address of this node. *)
Definition located (infos : list TensorRDMAInfo) (n : NodeInfo) (addr : Z) : Prop :=
  exists info, info ∈ infos /\ ri_node_info info = n /\ ri_addr info = addr.

Lemma emplace_is_Some {V} k (v : V) m k' :
  is_Some (emplace k v m !! k') <-> k' = k \/ is_Some (m !! k').
Proof.
  unfold emplace. destruct (m !! k) eqn:E; [naive_solver|].
  destruct (decide (k' = k)) as [->|]; [rewrite lookup_insert_eq|rewrite lookup_insert_ne by done];
    naive_solver.
Qed.

Lemma shard_at_add k nm info n addr k' :
  is_Some (shard_at (add_shard k nm info) n addr k') <->
  (k' = k /\ ri_node_info info = n /\ ri_addr info = addr) \/ is_Some (shard_at nm n addr k').
Proof.
  unfold shard_at, add_shard. destruct (decide (ri_node_info info = n)) as [->|Hn];
    [rewrite lookup_insert_eq|rewrite lookup_insert_ne by done; naive_solver].
  cbn. destruct (decide (ri_addr info = addr)) as [->|Ha];
    [rewrite lookup_insert_eq|rewrite lookup_insert_ne by done].
  - cbn. rewrite emplace_is_Some. destruct (nm !! n) as [am|]; cbn; [|naive_solver].
    destruct (am !! addr); naive_solver.
  - destruct (nm !! n) as [am|]; cbn; [naive_solver|]. rewrite lookup_empty. naive_solver.
Qed.

Lemma shard_at_add_list k infos nm n addr k' :
  is_Some (shard_at (foldl (add_shard k) nm infos) n addr k') <->
  (k' = k /\ located infos n addr) \/ is_Some (shard_at nm n addr k').
Proof.
  revert nm. induction infos as [|info infos IH]; intros nm; cbn [foldl].
  - unfold located. setoid_rewrite elem_of_nil. naive_solver.
  - rewrite IH, shard_at_add. unfold located. setoid_rewrite elem_of_cons. naive_solver.
Qed.

(** What the loop over the cached metas collects. *)
Lemma collect_spec atensors l nm tm : NoDup l.*1 -> (forall k, k ∈ l.*1 -> tm !! k = None) ->
  let r := foldl (collect_step atensors) (nm, tm) l in
  (forall k infos, r.2 !! k = Some infos <->
     (k ∈ atensors.*1 /\ (k, infos) ∈ l) \/ tm !! k = Some infos) /\
  (forall n addr k, is_Some (shard_at r.1 n addr k) <->
     (exists infos, k ∈ atensors.*1 /\ (k, infos) ∈ l /\ located infos n addr) \/
     is_Some (shard_at nm n addr k)).
Proof.
  revert nm tm. induction l as [|[k0 i0] l IH]; intros nm tm Hnd Htm; cbn zeta; cbn [foldl].
  - split; intros; setoid_rewrite elem_of_nil; naive_solver.
  - apply NoDup_cons in Hnd as [Hk0 Hnd]. unfold collect_step at 2 4. cbn [fst snd].
    assert (Hl : forall k, k ∈ l.*1 -> k <> k0) by (intros k Hk ->; done).
    case_decide as Hin.
    + assert (tm !! k0 = None) as E by (apply Htm; left).
      destruct (IH (foldl (add_shard k0) nm i0) (emplace k0 i0 tm) Hnd) as [H1 H2].
      { intros k Hk. unfold emplace. rewrite E, lookup_insert_ne by (symmetry; auto).
        apply Htm. by right. }
      split.
      * intros k infos. rewrite H1, elem_of_cons. unfold emplace. rewrite E, lookup_insert_Some.
        destruct (decide (k0 = k)) as [<-|]; [|naive_solver].
        assert ((k0, infos) ∉ l) by (intros Hp; apply Hk0; by apply (list_elem_of_fmap_2 fst) in Hp).
        naive_solver.
      * intros n addr k. rewrite H2, shard_at_add_list. setoid_rewrite elem_of_cons. naive_solver.
    + destruct (IH nm tm Hnd) as [H1 H2]; [intros k Hk; apply Htm; by right|].
      split; [intros k infos; rewrite H1|intros n addr k; rewrite H2];
        setoid_rewrite elem_of_cons; naive_solver.
Qed.

Lemma take_shards_spec l tm ats : NoDup l.*1 ->
  let r := foldl take_shard (tm, ats) l in
  (forall k, r.1 !! k = if decide (k ∈ l.*1) then None else tm !! k) /\
  (forall k, k ∈ dom r.2 <-> k ∈ dom ats \/ (k ∈ l.*1 /\ is_Some (tm !! k))).
Proof.
  revert tm ats. induction l as [|[k0 a0] l IH]; intros tm ats Hnd; cbn zeta; cbn [foldl].
  - split; [done|]. intros k. setoid_rewrite elem_of_nil. naive_solver.
  - apply NoDup_cons in Hnd as [Hk0 Hnd]. cbn in Hk0. unfold take_shard at 2 4. cbn [fst snd].
    destruct (tm !! k0) as [i0|] eqn:E.
    + destruct (IH (delete k0 tm) (emplace k0 a0 ats) Hnd) as [H1 H2]. split.
      * intros k. rewrite H1. cbn [fmap list_fmap]. destruct (decide (k ∈ l.*1)) as [Hk|Hk].
        { by rewrite decide_True by (by right). }
        destruct (decide (k = k0)) as [->|]; [by rewrite lookup_delete_eq, decide_True by left|].
        rewrite lookup_delete_ne, decide_False by (rewrite ?elem_of_cons; naive_solver). done.
      * intros k. rewrite H2, !elem_of_dom, emplace_is_Some, lookup_delete_is_Some.
        cbn [fmap list_fmap]. rewrite elem_of_cons.
        destruct (decide (k = k0)) as [->|]; [rewrite E|]; intuition (eauto; congruence).
    + destruct (IH tm ats Hnd) as [H1 H2]. split.
      * intros k. rewrite H1. cbn [fmap list_fmap]. destruct (decide (k ∈ l.*1)) as [Hk|Hk].
        { by rewrite decide_True by (by right). }
        destruct (decide (k = k0)) as [->|]; [by rewrite decide_True by left|].
        rewrite decide_False by (rewrite ?elem_of_cons; naive_solver). done.
      * intros k. rewrite H2. cbn [fmap list_fmap]. rewrite elem_of_cons.
        destruct (decide (k = k0)) as [->|]; [rewrite E|]; naive_solver.
Qed.

(** The invariant of [CompactTensorInfos]: what is left of the metas, and the
    infos found so far, share the requested keys between them. *)
Record compact_inv (meta : TransferTensorMeta) (keys : list ShardedKey)
    (tm : TransferTensorMeta) (infos : list CompactTensorInfo) : Prop := {
  inv_left k l : tm !! k = Some l -> k ∈ keys /\ meta !! k = Some l;
  inv_all k : k ∈ keys <-> is_Some (tm !! k) \/ exists c, c ∈ infos /\ k ∈ dom (ci_atensors c);
  inv_done c k : c ∈ infos -> k ∈ dom (ci_atensors c) -> tm !! k = None;
  inv_once i j c c' k : infos !! i = Some c -> infos !! j = Some c' ->
    k ∈ dom (ci_atensors c) -> k ∈ dom (ci_atensors c') -> i = j;
  inv_located c k : c ∈ infos -> k ∈ dom (ci_atensors c) ->
    exists l, meta !! k = Some l /\ located l (ci_node_info c) (ci_addr c);
}.

(** The shards of each address of each node, of the requested keys. *)
Definition node_map_ok (meta : TransferTensorMeta) (keys : list ShardedKey) (nm : NodeMap) : Prop :=
  forall n addr k, is_Some (shard_at nm n addr k) <->
    exists l, k ∈ keys /\ meta !! k = Some l /\ located l n addr.

Lemma shard_at_Some nm n addr k a : shard_at nm n addr k = Some a ->
  exists am sh, nm !! n = Some am /\ am !! addr = Some sh /\ sh !! k = Some a.
Proof.
  unfold shard_at. destruct (nm !! n) as [am|]; [|done]. cbn.
  destruct (am !! addr) as [sh|] eqn:E; [|done]. cbn. eauto.
Qed.

(** One more info: the shards [sh] of one address that were still left. *)
Lemma compact_inv_add meta keys tm infos tm' (sh : TensorShardMap) c :
  compact_inv meta keys tm infos ->
  (forall k, tm' !! k = if decide (is_Some (sh !! k)) then None else tm !! k) ->
  (forall k, k ∈ dom (ci_atensors c) <-> is_Some (sh !! k) /\ is_Some (tm !! k)) ->
  (forall k, is_Some (sh !! k) -> exists l, k ∈ keys /\ meta !! k = Some l /\
     located l (ci_node_info c) (ci_addr c)) ->
  compact_inv meta keys tm' (infos ++ [c]).
Proof.
  intros [I1 I2 I3 I4 I5] Htm Hc Hsh.
  assert (Hold : forall c' k, c' ∈ infos -> k ∈ dom (ci_atensors c') -> k ∉ dom (ci_atensors c)).
  { intros c' k Hc' Hk Hk'. apply Hc in Hk' as [_ [l Hl]]. by rewrite (I3 _ _ Hc' Hk) in Hl. }
  split.
  - intros k l. rewrite Htm. case_decide; [done|]. apply I1.
  - intros k. rewrite I2, Htm. setoid_rewrite elem_of_app. setoid_rewrite list_elem_of_singleton.
    case_decide as Hd; split; [intros [Ht|(c' & ? & ?)]|intros [[? ?]|(c' & [?| ->] & Hk)]|
                               intros [Ht|(c' & ? & ?)]|intros [Ht|(c' & [?| ->] & Hk)]];
      eauto 6; try done.
    + right. exists c. split; [by right|]. by apply Hc.
    + left. by apply Hc.
    + left. by apply Hc.
  - intros c' k [Hc'|Hc']%elem_of_app Hk; rewrite Htm; case_decide as Hd; try done; [by eapply I3|].
    apply list_elem_of_singleton in Hc'. subst c'. by apply Hc in Hk as [? _].
  - intros i j c1 c2 k H1 H2 Hk1 Hk2.
    apply lookup_snoc_Some in H1 as [[Hi H1]|[-> ->]], H2 as [[Hj H2]|[-> ->]]; try done.
    + by eapply I4.
    + exfalso. eapply Hold; [|exact Hk1|exact Hk2]. by eapply list_elem_of_lookup_2.
    + exfalso. eapply Hold; [|exact Hk2|exact Hk1]. by eapply list_elem_of_lookup_2.
  - intros c' k [Hc'|Hc']%elem_of_app Hk; [by apply I5|].
    apply list_elem_of_singleton in Hc'. subst c'. apply Hc in Hk as [Hk _].
    destruct (Hsh k Hk) as (l & _ & ? & ?). eauto.
Qed.

Lemma map_to_list_keys {V} (m : gmap ShardedKey V) k : k ∈ (map_to_list m).*1 <-> is_Some (m !! k).
Proof.
  rewrite list_elem_of_fmap. split.
  - intros ([k' x] & -> & Hx%elem_of_map_to_list). eauto.
  - intros [x Hx]. exists (k, x). by rewrite elem_of_map_to_list.
Qed.

Lemma compact_step_inv meta keys nm entry tm infos :
  node_map_ok meta keys nm -> (forall k l, meta !! k = Some l -> l <> []) ->
  compact_inv meta keys tm infos ->
  exists tm' infos', compact_step nm entry (tm, infos) = Ok (tm', infos') /\
    compact_inv meta keys tm' infos' /\ tm' !! entry.1 = None /\
    (forall k, tm !! k = None -> tm' !! k = None).
Proof.
  intros Hnm Hne Hinv. destruct entry as [k0 a0]. unfold compact_step. cbn [fst snd].
  destruct (tm !! k0) as [l0|] eqn:E0; [|by eexists _, _].
  destruct (inv_left _ _ _ _ Hinv _ _ E0) as [Hk0 Hm0].
  destruct (last l0) as [info|] eqn:El; [|by apply last_None in El; apply Hne in Hm0].
  assert (Hloc : located l0 (ri_node_info info) (ri_addr info)).
  { exists info. split; [|done]. apply last_Some in El as (l' & ->). apply elem_of_app. right. by left. }
  destruct (proj2 (Hnm (ri_node_info info) (ri_addr info) k0)) as [a Ha]; [eauto|].
  apply shard_at_Some in Ha as (am & sh & Ham & Hsh & Ha). rewrite Ham, Hsh, Ha.
  destruct (take_shards_spec (map_to_list sh) tm {[k0 := a0]} (NoDup_fst_map_to_list _)) as [H1 H2].
  destruct (foldl take_shard _ _) as [tm' ats]. cbn [fst snd] in *.
  assert (Htm' : forall k, tm' !! k = if decide (is_Some (sh !! k)) then None else tm !! k).
  { intros k. rewrite H1. pose proof (map_to_list_keys sh k). repeat case_decide; tauto. }
  eexists tm', _. split; [reflexivity|]. split_and!.
  - apply (compact_inv_add _ _ tm _ _ sh); [done|done| |].
    + intros k. cbn [ci_atensors]. rewrite H2, map_to_list_keys, dom_singleton, elem_of_singleton.
      split; [intros [->|]; [rewrite E0; eauto|done]|auto].
    + intros k Hk. cbn [ci_node_info ci_addr]. apply Hnm. unfold shard_at. rewrite Ham. cbn.
      by rewrite Hsh.
  - rewrite Htm'. rewrite decide_True by (rewrite Ha; eauto). done.
  - intros k Hk. rewrite Htm'. by case_decide.
Qed.

Lemma compact_loop_inv meta keys nm l tm infos :
  node_map_ok meta keys nm -> (forall k l, meta !! k = Some l -> l <> []) ->
  compact_inv meta keys tm infos ->
  exists tm' infos', for_each (compact_step nm) l (tm, infos) = Ok (tm', infos') /\
    compact_inv meta keys tm' infos' /\ (forall k, k ∈ l.*1 \/ tm !! k = None -> tm' !! k = None).
Proof.
  intros Hnm Hne. revert tm infos. induction l as [|e l IH]; intros tm infos Hinv.
  - exists tm, infos. split_and!; [done..|]. intros k [Hk|]; [by apply elem_of_nil in Hk|done].
  - destruct (compact_step_inv _ _ _ e _ _ Hnm Hne Hinv) as (tm1 & i1 & E1 & Hi1 & He & Hk1).
    destruct (IH _ _ Hi1) as (tm2 & i2 & E2 & Hi2 & Hk2). exists tm2, i2. cbn [for_each].
    rewrite E1. cbn [mbind result_bind]. split_and!; [done..|].
    intros k [Hk|Hk]; [|by auto]. cbn in Hk. apply elem_of_cons in Hk as [->|Hk]; auto.
Qed.

(** C9: A compact request succeeds whenever every requested shard has been published, and
    it shares the shards out: every requested key is in exactly one of the compact infos,
    and every key of an info was published at that node and that address. *)
Theorem compact_partition (meta : TransferTensorMeta) (atensors : list (ShardedKey * ATensor)) :
  NoDup atensors.*1 -> (forall k l, meta !! k = Some l -> l <> []) ->
  (forall k, k ∈ atensors.*1 -> is_Some (meta !! k)) ->
  exists infos, compact_request (Some meta) atensors = Ok infos /\
    (forall k, k ∈ atensors.*1 <-> exists c, c ∈ infos /\ k ∈ dom (ci_atensors c)) /\
    (forall i j c c' k, infos !! i = Some c -> infos !! j = Some c' ->
       k ∈ dom (ci_atensors c) -> k ∈ dom (ci_atensors c') -> i = j) /\
    (forall c k, c ∈ infos -> k ∈ dom (ci_atensors c) ->
       exists l, meta !! k = Some l /\ located l (ci_node_info c) (ci_addr c)).
Proof.
  intros Hnd Hne Hall. unfold compact_request.
  destruct (collect_spec atensors (map_to_list meta) ∅ ∅) as [H1 H2];
    [apply NoDup_fst_map_to_list|intros; apply lookup_empty|].
  destruct (foldl _ _ _) as [nm tm]. cbn [fst snd] in *.
  setoid_rewrite elem_of_map_to_list in H1. setoid_rewrite elem_of_map_to_list in H2.
  assert (Hdom : dom tm = list_to_set atensors.*1).
  { apply set_eq. intros k. rewrite elem_of_dom, elem_of_list_to_set. split.
    - intros [l Hl]. apply H1 in Hl as [[? _]|Hl]; [done|by rewrite lookup_empty in Hl].
    - intros Hk. destruct (Hall k Hk) as [l Hl]. exists l. apply H1. auto. }
  assert (size tm = length atensors) as ->.
  { rewrite <- size_dom, Hdom, size_list_to_set by done. apply length_fmap. }
  rewrite Nat.eqb_refl. cbn [negb throw_if mbind result_bind].
  destruct (compact_loop_inv meta atensors.*1 nm atensors tm []) as (tm' & infos & E & Hinv & Hleft).
  - intros n addr k. rewrite H2. unfold shard_at. rewrite lookup_empty. cbn.
    split; [intros [?|[? ?]]; done|auto].
  - done.
  - split.
    + intros k l Hl. apply H1 in Hl as [?|Hl]; [done|by rewrite lookup_empty in Hl].
    + intros k. rewrite <- elem_of_dom, Hdom, elem_of_list_to_set.
      split; [auto|]. intros [?|(c & Hc & _)]; [done|by apply elem_of_nil in Hc].
    + intros c k Hc. by apply elem_of_nil in Hc.
    + done.
    + intros c k Hc. by apply elem_of_nil in Hc.
  - exists infos. unfold CompactTensorInfos. rewrite E. split; [done|].
    destruct Hinv as [I1 I2 I3 I4 I5]. split_and!; [|exact I4|exact I5].
    intros k. rewrite I2. split; [|auto]. intros [[l Hl]|?]; [|done].
    rewrite Hleft in Hl; [done|]. left. apply I1 in Hl as [? _]. done.
Qed.

Definition shard_key (name : string) : ShardedKey := MkShardedKey name [4] [0].

Definition shard_info (addr : Z) : TensorRDMAInfo :=
  MkTensorRDMAInfo addr 64 EmptyString demo_node (ri_atensor (demo_remote 0)).

(** Two shards in one memory, a third one in two memories. *)
Definition demo_meta : TransferTensorMeta :=
  {[shard_key "a" := [shard_info 4096]; shard_key "b" := [shard_info 4096];
    shard_key "c" := [shard_info 4096; shard_info 8192]]}.

Definition demo_request : list (ShardedKey * ATensor) :=
  [(shard_key "a", demo_local); (shard_key "b", demo_local); (shard_key "c", demo_local)].

Lemma compact_partition_witness :
  exists infos, compact_request (Some demo_meta) demo_request = Ok infos /\
    forall k, k ∈ demo_request.*1 <-> exists c, c ∈ infos /\ k ∈ dom (ci_atensors c).
Proof.
  destruct (compact_partition demo_meta demo_request) as (infos & E & H & _).
  - apply (bool_decide_unpack _). vm_compute. exact I.
  - change (map_Forall (fun _ l => l <> []) demo_meta). apply (bool_decide_unpack _).
    vm_compute. exact I.
  - apply Forall_forall. apply (bool_decide_unpack _). vm_compute. exact I.
  - exists infos. split; assumption.
Defined.
