(* ===== verification/PullSystem.v ===== *)
(** * The pull protocol between trainers and inference nodes

    A system of writers (training nodes) and readers (inference nodes), each
    running the pull service of [Transfer].  A writer puts the tensors of a
    round, then completes it: it tells every reader that its weights are
    ready, waits until every reader has consumed them, and clears its state.
    A reader reads the tensors of the round once they are ready, then completes
    it: it tells every writer, and clears its state.  The steps of a node are
    interleaved with those of the others, and between the phases of [Complete].

    A control message is sent in attempts: every attempt puts a copy into the
    network, which is handled at any later time or is lost, and the send returns
    when one of them is answered or when it gives up.  An operation may fail: a
    read that is not ready times out, a registration throws.  What the safety of
    the protocol needs besides is not in the steps but named by their events: reads
    that did not wait, rounds completed without a read, and messages handled
    although their sender does not learn of it. *)

From S2P Require Import Prelude StringUtils Tensor Messages Transfer.
Local Open Scope Z_scope.

(** Where a node is: the round and, inside of [Complete], the peers that are
    still to be told. *)
Inductive pc : Type :=
| WPut (k : Z)
| WReady (k : Z) (todo : list NodeInfo)
| WWait (k : Z)
| RWait (k : Z)
| RRead (k : Z)
| RConsume (k : Z) (todo : list NodeInfo)
| RClear (k : Z).

Definition round (p : pc) : Z :=
  match p with
  | WPut k | WReady k _ | WWait k | RWait k | RRead k | RConsume k _ | RClear k => k
  end.

(** A copy of a control message on its way. *)
Inductive kind : Type := KReady | KConsumed.

Record flight : Type := MkFlight { fl_kind : kind; fl_seq : Z; fl_from : NodeInfo; fl_to : NodeInfo }.

Record system : Type := System {
  node_pc : NodeInfo -> pc;
  node_state : NodeInfo -> pull_state;
  in_flight : list flight;
}.

(** What a node is sending: the message, its round and the peers left. *)
Definition send_of (p : pc) : option (kind * Z * list NodeInfo) :=
  match p with
  | WReady k todo => Some (KReady, k, todo)
  | RConsume k todo => Some (KConsumed, k, todo)
  | _ => None
  end.

Definition with_todo (p : pc) (todo : list NodeInfo) : pc :=
  match p with WReady k _ => WReady k todo | RConsume k _ => RConsume k todo | _ => p end.

(** Where a node goes when all peers were told. *)
Definition after_send (p : pc) : pc :=
  match p with WReady k _ => WWait k | RConsume k _ => RClear k | _ => p end.

Definition upd {A} (f : NodeInfo -> A) (n : NodeInfo) (a : A) : NodeInfo -> A :=
  fun m => if decide (m = n) then a else f m.

(** What a step is, as far as safety depends on it: [EarlyGet], a read of a tensor
    that returned although not all writers had announced the round; [Unread], a
    reader that completes a round without a read that returned true; [Stray], a
    message that is handled and whose sender, which has timed out or has lost the
    answer, sends it again or has given up; [Plain], anything else. *)
Inductive event : Type := Plain | EarlyGet | Unread | Stray.

Section System.
Context `{JsonLib} (cfg : NodeInfo -> pull_config) (W R : list NodeInfo).

Definition sys_init : system :=
  System (fun n => if decide (n ∈ W) then WPut 0 else RWait 0) (fun _ => pull_init true true) [].

(** The transports of one operation; its own waits see no interference, the
    steps of the system are the interference.  A read that starts before its round
    is ready is a step that times out and one that succeeds later. *)
Definition alone (env : pull_env) : Prop := others env = fun _ s => s.

Definition text_of (f : flight) : string :=
  match fl_kind f with
  | KReady => Serialize (ToJson_WeightReadyMessage (MkWeightReadyMessage (fl_seq f) (fl_from f)))
  | KConsumed => Serialize (ToJson_WeightConsumedMessage (MkWeightConsumedMessage (fl_seq f) (fl_from f)))
  end.

(** The handler of a message at its receiver. *)
Definition handle (f : flight) (s : pull_state) : pull_state :=
  match fl_kind f with
  | KReady => (HandleWeightReady (cfg (fl_to f)) (text_of f) s).2
  | KConsumed => (HandleWeightConsumed (text_of f) s).2
  end.

Definition handled (f : flight) (S : system) : NodeInfo -> pull_state :=
  upd (node_state S) (fl_to f) (handle f (node_state S (fl_to f))).

(** The reader is reading once a read has returned true. *)
Definition after_get (p : pc) (res : result bool) : pc :=
  match res, p with Ok true, RWait k => RRead k | _, _ => p end.

Definition get_event (c : pull_config) (s : pull_state) (res : result bool) : event :=
  match res with
  | Ok true => if is_publish_meta s || all_ready c s then Plain else EarlyGet
  | _ => Plain
  end.

Definition idle (p : pc) (s : pull_state) : Prop :=
  match p with WPut _ | RWait _ => True | _ => False end /\
  IsRead (current_data_operation s) = false /\ IsWrite (current_data_operation s) = false.

Inductive step : event -> system -> system -> Prop :=
(* Writers *)
| step_put env S w k key a : w ∈ W -> node_pc S w = WPut k -> in_i64 k ->
    step Plain S (System (node_pc S) (upd (node_state S) w (Put env (cfg w) k key a (node_state S w)).2) (in_flight S))
| step_multi_put env S w k l : w ∈ W -> node_pc S w = WPut k -> in_i64 k ->
    step Plain S (System (node_pc S) (upd (node_state S) w (MultiPut env (cfg w) k l (node_state S w)).2) (in_flight S))
| step_complete_write S w k : w ∈ W -> node_pc S w = WPut k ->
    IsWrite (current_data_operation (node_state S w)) = true ->
    step Plain S (System (upd (node_pc S) w (WReady k R)) (node_state S) (in_flight S))
| step_write_finish S w k : w ∈ W -> node_pc S w = WWait k ->
    all_consumed (cfg w) (node_state S w) = true ->
    step Plain S (System (upd (node_pc S) w (WPut (k + 1)))
              (upd (node_state S) w (finish_seq (cfg w) (node_state S w))) (in_flight S))
(* Readers *)
| step_meta S r message : r ∈ R ->
    step Plain S (System (node_pc S) (upd (node_state S) r (HandleTensorRDMAMeta message (node_state S r)).2) (in_flight S))
| step_raw_get env S r k st n addr len res s' : r ∈ R ->
    (node_pc S r = RWait k \/ node_pc S r = RRead k) -> in_i64 k -> alone env ->
    RawGet env (cfg r) k st n addr len (node_state S r) = (res, s') ->
    step Plain S (System (upd (node_pc S) r (after_get (node_pc S r) res)) (upd (node_state S) r s') (in_flight S))
| step_get env S r k key a res s' : r ∈ R ->
    (node_pc S r = RWait k \/ node_pc S r = RRead k) -> in_i64 k -> alone env ->
    Get env (cfg r) k key a (node_state S r) = (res, s') ->
    step (get_event (cfg r) (node_state S r) res) S
      (System (upd (node_pc S) r (after_get (node_pc S r) res)) (upd (node_state S) r s') (in_flight S))
| step_complete_read S r k : r ∈ R -> node_pc S r = RRead k ->
    IsRead (current_data_operation (node_state S r)) = true ->
    step Plain S (System (upd (node_pc S) r (RConsume k W)) (node_state S) (in_flight S))
| step_complete_unread S r k : r ∈ R -> node_pc S r = RWait k ->
    IsRead (current_data_operation (node_state S r)) = true ->
    step Unread S (System (upd (node_pc S) r (RConsume k W)) (node_state S) (in_flight S))
| step_read_finish S r k : r ∈ R -> node_pc S r = RClear k ->
    step Plain S (System (upd (node_pc S) r (RWait (k + 1)))
              (upd (node_state S) r (finish_seq (cfg r) (node_state S r))) (in_flight S))
(* [Complete] of a node that has neither read nor written *)
| step_complete_idle S n : n ∈ W ++ R -> idle (node_pc S n) (node_state S n) ->
    step Plain S (System (node_pc S) (upd (node_state S) n (finish_seq (cfg n) (node_state S n))) (in_flight S))
(* The sends of [Complete] *)
| step_attempt S n kd k todo m : n ∈ W ++ R -> send_of (node_pc S n) = Some (kd, k, todo) -> m ∈ todo ->
    step Plain S (System (node_pc S) (node_state S)
              (in_flight S ++ [MkFlight kd (current_seq_id (node_state S n)) n m]))
| step_answered S n kd k todo1 m todo2 fl1 fl2 : n ∈ W ++ R ->
    send_of (node_pc S n) = Some (kd, k, todo1 ++ m :: todo2) ->
    let f := MkFlight kd k n m in
    in_flight S = fl1 ++ f :: fl2 ->
    step Plain S (System (upd (node_pc S) n (with_todo (node_pc S n) (todo1 ++ todo2))) (handled f S) (fl1 ++ fl2))
| step_gave_up S n kd k todo1 m todo2 : n ∈ W ++ R ->
    send_of (node_pc S n) = Some (kd, k, todo1 ++ m :: todo2) ->
    step Plain S (System (upd (node_pc S) n (with_todo (node_pc S n) (todo1 ++ todo2))) (node_state S) (in_flight S))
| step_sent S n kd k : n ∈ W ++ R -> send_of (node_pc S n) = Some (kd, k, []) ->
    step Plain S (System (upd (node_pc S) n (after_send (node_pc S n))) (node_state S) (in_flight S))
(* The network *)
| step_lost S f fl1 fl2 : in_flight S = fl1 ++ f :: fl2 ->
    step Plain S (System (node_pc S) (node_state S) (fl1 ++ fl2))
| step_stray S f fl1 fl2 : in_flight S = fl1 ++ f :: fl2 ->
    step Stray S (System (node_pc S) (handled f S) (fl1 ++ fl2)).

(** The states that runs whose steps are all of some events lead to. *)
Inductive runs (allowed : event -> Prop) (S0 : system) : system -> Prop :=
| run_none : runs allowed S0 S0
| run_step e S S' : runs allowed S0 S -> allowed e -> step e S S' -> runs allowed S0 S'.

Definition reachable (allowed : event -> Prop) : system -> Prop := runs allowed sys_init.

End System.

(** ** The invariant *)

(** The writer has told this reader that its weights are ready (or has tried). *)
Definition told_ready (p : pc) (r : NodeInfo) : Prop :=
  match p with WReady _ todo => r ∉ todo | WWait _ => True | _ => False end.

(** The reader has told this writer that it has read (or has tried). *)
Definition told_consumed (p : pc) (w : NodeInfo) : Prop :=
  match p with RConsume _ todo => w ∉ todo | RClear _ => True | _ => False end.

(** The reader is past the point where it waits for the weights. *)
Definition past_wait (p : pc) : Prop :=
  match p with RRead _ | RConsume _ _ | RClear _ => True | _ => False end.

Definition writer_pc (p : pc) : Prop :=
  match p with WPut _ | WReady _ _ | WWait _ => True | _ => False end.

(** A writer's sequence id and the peers it still has to tell. *)
Definition writer_ok (R : list NodeInfo) (p : pc) (s : pull_state) : Prop :=
  match p with
  | WPut k => 0 <= k /\ (current_seq_id s = INIT_SEQ_ID \/ current_seq_id s = k) /\
      (IsWrite (current_data_operation s) = true -> current_seq_id s = k)
  | WReady k todo => 0 <= k /\ current_seq_id s = k /\ NoDup todo /\ forall r, r ∈ todo -> r ∈ R
  | WWait k => 0 <= k /\ current_seq_id s = k
  | _ => False
  end /\ in_i64 (current_seq_id s) /\ forall r, r ∈ consumed_nodes s -> r ∈ R.

Definition reader_ok (W : list NodeInfo) (p : pc) (s : pull_state) : Prop :=
  match p with
  | RWait k => 0 <= k
  | RRead k | RClear k => 0 <= k /\ current_seq_id s = k
  | RConsume k todo => 0 <= k /\ current_seq_id s = k /\ NoDup todo /\ forall w, w ∈ todo -> w ∈ W
  | _ => False
  end /\ in_i64 (current_seq_id s) /\ forall w, w ∈ ready_nodes s -> w ∈ W.

(** What holds between a writer and a reader: they are in the same round, or
    one of them is one round ahead because the other has not cleared yet. *)
Record pair_ok (w r : NodeInfo) (pw pr : pc) (sw sr : pull_state) : Prop := {
  pair_consumed : r ∈ consumed_nodes sw ->
    (round pr = round pw /\ told_consumed pr w) \/ round pr = round pw + 1;
  pair_rounds : round pr = round pw \/
    (round pr = round pw - 1 /\ told_consumed pr w) \/
    (round pr = round pw + 1 /\ ~ past_wait pr /\ told_ready pw r /\ w ∉ ready_nodes sr);
  pair_ready : round pr = round pw -> w ∈ ready_nodes sr -> told_ready pw r;
  pair_read : round pr = round pw -> past_wait pr -> told_ready pw r;
}.

Record sys_ok (W R : list NodeInfo) (S : system) : Prop := {
  sys_writers w : w ∈ W -> writer_ok R (node_pc S w) (node_state S w);
  sys_readers r : r ∈ R -> reader_ok W (node_pc S r) (node_state S r);
  sys_pairs w r : w ∈ W -> r ∈ R ->
    pair_ok w r (node_pc S w) (node_pc S r) (node_state S w) (node_state S r);
}.

Lemma upd_eq {A} (f : NodeInfo -> A) n a : upd f n a n = a.
Proof. unfold upd. by rewrite decide_True. Qed.

Lemma upd_ne {A} (f : NodeInfo -> A) n a m : m <> n -> upd f n a m = f m.
Proof. intros. unfold upd. by rewrite decide_False. Qed.

Lemma init_in_i64 : in_i64 INIT_SEQ_ID.
Proof. unfold in_i64, INIT_SEQ_ID. lia. Qed.

(** All messages of a full set of peers: a set of peers as large as their list. *)
Lemma full_set (X : gset NodeInfo) (l : list NodeInfo) : NoDup l -> (forall n, n ∈ X -> n ∈ l) ->
  size X = length l -> forall n, n ∈ l -> n ∈ X.
Proof.
  intros Hnd Hsub Hsize. assert (X = list_to_set l) as ->; [|intros n Hn; by apply elem_of_list_to_set].
  apply set_subseteq_size_eq.
  - intros n Hn. by apply elem_of_list_to_set, Hsub.
  - rewrite size_list_to_set by done. lia.
Qed.

Section Invariant.
Context `{JsonLaws} (cfg : NodeInfo -> pull_config) (W R : list NodeInfo).

(** The nodes know each other, and can be named in messages. *)
Record topology : Prop := {
  top_writers : NoDup W;
  top_readers : NoDup R;
  top_disjoint n : n ∈ W -> n ∈ R -> False;
  top_nodes n : n ∈ W \/ n ∈ R -> node_ok n;
  top_writer_peers w : w ∈ W -> peer_hosts (cfg w) = R;
  top_reader_peers r : r ∈ R -> peer_hosts (cfg r) = W;
}.
Hypothesis top : topology.

Definition agree_except (x : NodeInfo) (S S' : system) : Prop :=
  forall n, n <> x -> node_pc S' n = node_pc S n /\ node_state S' n = node_state S n.

(** Only a writer has moved. *)
Lemma sys_ok_writer S S' w : sys_ok W R S -> w ∈ W -> agree_except w S S' ->
  writer_ok R (node_pc S' w) (node_state S' w) ->
  (forall r, r ∈ R -> pair_ok w r (node_pc S w) (node_pc S r) (node_state S w) (node_state S r) ->
     pair_ok w r (node_pc S' w) (node_pc S r) (node_state S' w) (node_state S r)) ->
  sys_ok W R S'.
Proof.
  intros [Hw Hr Hp] HwW Hag Hnew Hpair. split.
  - intros w' Hw'. destruct (decide (w' = w)) as [->|Hne]; [done|].
    destruct (Hag w' Hne) as [-> ->]. auto.
  - intros r Hr'. assert (r <> w) as Hne by (intros ->; exact (top_disjoint top _ HwW Hr')).
    destruct (Hag r Hne) as [-> ->]. auto.
  - intros w' r Hw' Hr'. assert (r <> w) as Hne by (intros ->; exact (top_disjoint top _ HwW Hr')).
    destruct (Hag r Hne) as [-> ->]. destruct (decide (w' = w)) as [->|Hne']; [auto|].
    destruct (Hag w' Hne') as [-> ->]. auto.
Qed.

(** Only a reader has moved. *)
Lemma sys_ok_reader S S' r : sys_ok W R S -> r ∈ R -> agree_except r S S' ->
  reader_ok W (node_pc S' r) (node_state S' r) ->
  (forall w, w ∈ W -> pair_ok w r (node_pc S w) (node_pc S r) (node_state S w) (node_state S r) ->
     pair_ok w r (node_pc S w) (node_pc S' r) (node_state S w) (node_state S' r)) ->
  sys_ok W R S'.
Proof.
  intros [Hw Hr Hp] HrR Hag Hnew Hpair. split.
  - intros w Hw'. assert (w <> r) as Hne by (intros ->; exact (top_disjoint top _ Hw' HrR)).
    destruct (Hag w Hne) as [-> ->]. auto.
  - intros r' Hr'. destruct (decide (r' = r)) as [->|Hne]; [done|].
    destruct (Hag r' Hne) as [-> ->]. auto.
  - intros w r' Hw' Hr'. assert (w <> r) as Hne by (intros ->; exact (top_disjoint top _ Hw' HrR)).
    destruct (Hag w Hne) as [-> ->]. destruct (decide (r' = r)) as [->|Hne']; [auto|].
    destruct (Hag r' Hne') as [-> ->]. auto.
Qed.

(** A writer moves within its round. *)
Lemma pair_writer_move w r pw pw' pr sw sw' sr : pair_ok w r pw pr sw sr ->
  round pw' = round pw -> (told_ready pw r -> told_ready pw' r) ->
  consumed_nodes sw' = consumed_nodes sw -> pair_ok w r pw' pr sw' sr.
Proof. intros [P1 P2 P3 P4] Hround Htold Hc. split; rewrite ?Hround, ?Hc; tauto. Qed.

(** A reader moves within its round, without passing the wait. *)
Lemma pair_reader_move w r pw pr pr' sw sr sr' : pair_ok w r pw pr sw sr ->
  round pr' = round pr -> (told_consumed pr w -> told_consumed pr' w) ->
  (past_wait pr' -> past_wait pr) -> ready_nodes sr' = ready_nodes sr ->
  pair_ok w r pw pr' sw sr'.
Proof. intros [P1 P2 P3 P4] Hround Htold Hpast Hr. split; rewrite ?Hround, ?Hr; tauto. Qed.

Lemma ready_fields q w r s : in_i64 q -> node_ok w ->
  let s' := (HandleWeightReady (cfg r)
              (Serialize (ToJson_WeightReadyMessage (MkWeightReadyMessage q w))) s).2 in
  ready_nodes s' = {[w]} ∪ ready_nodes s /\ current_seq_id s' = current_seq_id s.
Proof. intros Hq Hw. cbn zeta. rewrite handle_ready by done. by destruct (_ && _). Qed.

Lemma ok_put S w k s' fl : sys_ok W R S -> w ∈ W -> node_pc S w = WPut k -> in_i64 k ->
  touched k SetWrite (node_state S w) s' ->
  sys_ok W R (System (node_pc S) (upd (node_state S) w s') fl).
Proof.
  intros HS Hw Hpc Hk (Hr & Hc & _ & _ & Hs).
  pose proof (sys_writers _ _ _ HS w Hw) as Hok. rewrite Hpc in Hok. destruct Hok as [(Hk0 & Hseq & Hwr) [Hi Hsub]].
  eapply sys_ok_writer; [exact HS|exact Hw| | |].
  - intros n Hn. cbn. by rewrite upd_ne.
  - cbn. rewrite upd_eq, Hpc. unfold writer_ok. rewrite Hc. destruct Hs as [[Eo Es]|[Eo Es]].
    + rewrite Eo, Es. auto.
    + assert (current_seq_id s' = k) as -> by (rewrite Es; destruct Hseq as [-> | ->]; [done|by destruct (k =? INIT_SEQ_ID)]). auto.
  - intros r HrR Hp. cbn. rewrite upd_eq. by eapply pair_writer_move.
Qed.

(** [Complete] of a node that has nothing to complete. *)
Lemma ok_idle S n fl : sys_ok W R S -> n ∈ W ++ R -> idle (node_pc S n) (node_state S n) ->
  sys_ok W R (System (node_pc S) (upd (node_state S) n (finish_seq (cfg n) (node_state S n))) fl).
Proof.
  intros HS Hn [Hpc _]. apply elem_of_app in Hn as [Hw|Hr].
  - pose proof (sys_writers _ _ _ HS n Hw) as [Hok _].
    eapply sys_ok_writer; [exact HS|exact Hw| | |]; cbn [node_pc node_state].
    + intros m Hm. cbn [node_pc node_state]. by rewrite upd_ne.
    + rewrite upd_eq. destruct (node_pc S n); try done. cbn in *. split; [split; [tauto|]; split; [by left|done]|].
      split; [exact init_in_i64|]. set_solver.
    + intros r _ [P1 P2 P3 P4]. rewrite upd_eq. split; auto. cbn. set_solver.
  - pose proof (sys_readers _ _ _ HS n Hr) as [Hok _].
    eapply sys_ok_reader; [exact HS|exact Hr| | |]; cbn [node_pc node_state].
    + intros m Hm. cbn [node_pc node_state]. by rewrite upd_ne.
    + rewrite upd_eq. by destruct (node_pc S n).
    + intros w _ [P1 P2 P3 P4]. rewrite upd_eq. split; auto; cbn; [|set_solver].
      destruct P2 as [?|[?|(? & ? & ? & _)]]; auto. right; right. split_and!; auto. set_solver.
Qed.

Lemma ok_meta S r message fl : sys_ok W R S -> r ∈ R ->
  sys_ok W R (System (node_pc S) (upd (node_state S) r (HandleTensorRDMAMeta message (node_state S r)).2) fl).
Proof.
  intros HS Hr. pose proof (keeps_handle_meta message (node_state S r)) as (E1 & _ & E3 & _).
  pose proof (sys_readers _ _ _ HS r Hr) as [Hok1 [Hok2 Hok3]].
  eapply sys_ok_reader; [exact HS|exact Hr| | |].
  - intros n Hn. cbn. by rewrite upd_ne.
  - cbn. rewrite upd_eq. unfold reader_ok. rewrite E1, E3. auto.
  - intros w Hw Hp. cbn. rewrite upd_eq. by eapply pair_reader_move.
Qed.

(** A writer changes its place within its round. *)
Lemma ok_writer_pc S w p' fl : sys_ok W R S -> w ∈ W ->
  writer_ok R p' (node_state S w) -> round p' = round (node_pc S w) ->
  (forall r, r ∈ R -> told_ready (node_pc S w) r -> told_ready p' r) ->
  sys_ok W R (System (upd (node_pc S) w p') (node_state S) fl).
Proof.
  intros HS Hw Hok Hround Htold. eapply sys_ok_writer; [exact HS|exact Hw| | |].
  - intros n Hn. cbn. by rewrite upd_ne.
  - cbn. by rewrite upd_eq.
  - intros r HrR Hp. cbn. rewrite upd_eq. eapply pair_writer_move; eauto.
Qed.

(** A reader changes its place within its round. *)
Lemma ok_reader_pc S r p' fl : sys_ok W R S -> r ∈ R ->
  reader_ok W p' (node_state S r) -> round p' = round (node_pc S r) ->
  (forall w, w ∈ W -> told_consumed (node_pc S r) w -> told_consumed p' w) ->
  (past_wait p' -> past_wait (node_pc S r)) ->
  sys_ok W R (System (upd (node_pc S) r p') (node_state S) fl).
Proof.
  intros HS Hr Hok Hround Htold Hpast. eapply sys_ok_reader; [exact HS|exact Hr| | |].
  - intros n Hn. cbn. by rewrite upd_ne.
  - cbn. by rewrite upd_eq.
  - intros w Hw Hp. cbn. rewrite upd_eq. eapply pair_reader_move; eauto.
Qed.

Lemma ok_ready_lost S w k todo1 r todo2 fl : sys_ok W R S -> w ∈ W ->
  node_pc S w = WReady k (todo1 ++ r :: todo2) ->
  sys_ok W R (System (upd (node_pc S) w (WReady k (todo1 ++ todo2))) (node_state S) fl).
Proof.
  intros HS Hw Hpc. pose proof (sys_writers _ _ _ HS w Hw) as Hok. rewrite Hpc in Hok.
  destruct Hok as [(Hk & Hcur & Hnd & Hsub) Hok]. apply ok_writer_pc; try done; rewrite ?Hpc.
  - split; [|done]. split_and!; [done..| |].
    + rewrite <- Permutation_middle in Hnd. by apply NoDup_cons in Hnd as [_ ?].
    + intros x Hx. apply Hsub. rewrite elem_of_app, elem_of_cons in *. tauto.
  - done.
  - intros r' _ Htold Hin. apply Htold. rewrite elem_of_app, elem_of_cons in *. tauto.
Qed.

Lemma ok_consumed_lost S r k todo1 w todo2 fl : sys_ok W R S -> r ∈ R ->
  node_pc S r = RConsume k (todo1 ++ w :: todo2) ->
  sys_ok W R (System (upd (node_pc S) r (RConsume k (todo1 ++ todo2))) (node_state S) fl).
Proof.
  intros HS Hr Hpc. pose proof (sys_readers _ _ _ HS r Hr) as Hok. rewrite Hpc in Hok.
  destruct Hok as [(Hk & Hcur & Hnd & Hsub) Hok]. apply ok_reader_pc; try done; rewrite ?Hpc.
  - split; [|done]. split_and!; [done..| |].
    + rewrite <- Permutation_middle in Hnd. by apply NoDup_cons in Hnd as [_ ?].
    + intros x Hx. apply Hsub. rewrite elem_of_app, elem_of_cons in *. tauto.
  - done.
  - intros w' _ Htold Hin. apply Htold. rewrite elem_of_app, elem_of_cons in *. tauto.
  - done.
Qed.

Lemma ok_ready S w k todo1 r todo2 fl : sys_ok W R S -> w ∈ W -> r ∈ R ->
  node_pc S w = WReady k (todo1 ++ r :: todo2) ->
  sys_ok W R (System (upd (node_pc S) w (WReady k (todo1 ++ todo2))) (handled cfg (MkFlight KReady k w r) S) fl).
Proof.
  intros HS Hw Hr Hpc. unfold handled. cbn [fl_to].
  pose proof (ok_ready_lost _ _ _ _ _ _ fl HS Hw Hpc) as HS1.
  pose proof (sys_writers _ _ _ HS w Hw) as Hwok. rewrite Hpc in Hwok.
  destruct Hwok as [(_ & Hcur & Hnd & _) [Hi64 _]]. rewrite Hcur in Hi64.
  destruct (ready_fields k w r (node_state S r) Hi64 (top_nodes top _ (or_introl Hw))) as [E1 E2].
  change (handle cfg (MkFlight KReady k w r) (node_state S r)) with (HandleWeightReady (cfg r)
    (Serialize (ToJson_WeightReadyMessage (MkWeightReadyMessage k w))) (node_state S r)).2.
  assert (Hwr : w <> r) by (intros ->; exact (top_disjoint top _ Hw Hr)).
  pose proof (sys_readers _ _ _ HS r Hr) as [Hok1 [Hok2 Hok3]].
  eapply sys_ok_reader; [exact HS1|exact Hr| | |]; cbn [node_pc node_state].
  - intros n Hn. cbn. split; [done|by apply upd_ne].
  - rewrite upd_eq, upd_ne by done. unfold reader_ok. rewrite E1, E2. split_and!; try done.
    intros w'. rewrite elem_of_union, elem_of_singleton. intros [->|]; auto.
  - intros w' Hw'. rewrite upd_eq, (upd_ne _ w _ r) by done. intros [P1 P2 P3 P4].
    destruct (decide (w' = w)) as [->|Hne].
    + rewrite upd_eq in *. assert (Htold : told_ready (WReady k (todo1 ++ todo2)) r).
      { cbn. rewrite <- Permutation_middle in Hnd. by apply NoDup_cons in Hnd as [? _]. }
      pose proof (pair_rounds _ _ _ _ _ _ (sys_pairs _ _ _ HS w r Hw Hr)) as Hrd.
      rewrite Hpc in Hrd. cbn [round told_ready] in Hrd. split; auto.
      cbn [round] in *. destruct Hrd as [?|[?|(_ & _ & Hin & _)]]; [auto..|].
      exfalso. apply Hin. rewrite elem_of_app, elem_of_cons. auto.
    + split; auto; rewrite E1; rewrite ?elem_of_union, ?elem_of_singleton; intuition.
Qed.

Lemma ok_write_finish S w k fl : sys_ok W R S -> w ∈ W -> node_pc S w = WWait k ->
  all_consumed (cfg w) (node_state S w) = true ->
  sys_ok W R (System (upd (node_pc S) w (WPut (k + 1)))
    (upd (node_state S) w (finish_seq (cfg w) (node_state S w))) fl).
Proof.
  intros HS Hw Hpc Hall. pose proof (sys_writers _ _ _ HS w Hw) as Hok. rewrite Hpc in Hok.
  destruct Hok as [[Hk Hcur] [_ Hsub]].
  unfold all_consumed in Hall. apply Nat.eqb_eq in Hall. rewrite (top_writer_peers top w Hw) in Hall.
  pose proof (full_set _ _ (top_readers top) Hsub Hall) as Hfull.
  eapply sys_ok_writer; [exact HS|exact Hw| | |]; cbn [node_pc node_state].
  - intros n Hn. cbn. by rewrite !upd_ne.
  - rewrite !upd_eq. split; [cbn; split; [lia|]; split; [by left|done]|]. split; [exact init_in_i64|].
    intros r. cbn. set_solver.
  - intros r Hr [P1 P2 P3 P4]. rewrite !upd_eq. rewrite Hpc in *. cbn [round] in *.
    specialize (P1 (Hfull r Hr)). split; cbn [round].
    + cbn. set_solver.
    + destruct P1 as [[-> ?]| ->]; [right; left; split; [lia|done]|by left].
    + intros E Hin. exfalso. destruct P2 as [?|[[? _]|(_ & _ & _ & Hno)]]; [lia..|done].
    + intros E Hp. exfalso. destruct P2 as [?|[[? _]|(_ & Hno & _)]]; [lia..|done].
Qed.

(** A reader passes the wait: every writer is in its set of ready nodes. *)
Lemma ok_read S r k s' fl : sys_ok W R S -> r ∈ R ->
  (node_pc S r = RWait k \/ node_pc S r = RRead k) -> in_i64 k ->
  joined k SetRead (node_state S r) s' -> all_ready (cfg r) (node_state S r) = true ->
  sys_ok W R (System (upd (node_pc S) r (RRead k)) (upd (node_state S) r s') fl).
Proof.
  intros HS Hr Hpc Hk (Hcur & Hcur' & Er & _) Hall.
  pose proof (sys_readers _ _ _ HS r Hr) as [Hok1 [_ Hsub]].
  unfold all_ready in Hall. apply Nat.eqb_eq in Hall. rewrite (top_reader_peers top r Hr) in Hall.
  pose proof (full_set _ _ (top_writers top) Hsub Hall) as Hfull.
  assert (Hround : round (node_pc S r) = k) by (by destruct Hpc as [-> | ->]).
  assert (Hnot : forall w, ~ told_consumed (node_pc S r) w) by (intros w; destruct Hpc as [-> | ->]; auto).
  eapply sys_ok_reader; [exact HS|exact Hr| | |]; cbn [node_pc node_state].
  - intros n Hn. cbn. by rewrite !upd_ne.
  - rewrite !upd_eq. unfold reader_ok. rewrite Er, Hcur'.
    split_and!; try done. destruct Hpc as [E|E]; rewrite E in Hok1; [done|apply Hok1].
  - intros w Hw [P1 P2 P3 P4]. rewrite !upd_eq. rewrite Hround in *. cbn [round].
    specialize (Hfull w Hw). specialize (Hnot w). split; cbn [round told_consumed past_wait]; rewrite ?Er.
    + intros Hc. destruct (P1 Hc) as [[_ ?]|?]; [done|auto].
    + destruct P2 as [?|[[_ ?]|(_ & _ & _ & ?)]]; [auto|done..].
    + auto.
    + auto.
Qed.

(** A read that fails. *)
Lemma ok_unread S r k s' fl : sys_ok W R S -> r ∈ R ->
  (node_pc S r = RWait k \/ node_pc S r = RRead k) -> in_i64 k -> touched k SetRead (node_state S r) s' ->
  sys_ok W R (System (upd (node_pc S) r (node_pc S r)) (upd (node_state S) r s') fl).
Proof.
  intros HS Hr Hpc Hk (Er & _ & _ & _ & Hs). pose proof (sys_readers _ _ _ HS r Hr) as [Hok1 [Hok2 Hok3]].
  assert (Hseq : node_pc S r = RRead k -> current_seq_id s' = k).
  { intros E. rewrite E in Hok1. destruct Hok1 as [_ Hcur]. rewrite Hcur in Hs.
    destruct Hs as [[_ ->]|[_ ->]]; [done|]. by destruct (k =? INIT_SEQ_ID). }
  eapply sys_ok_reader; [exact HS|exact Hr| | |]; cbn [node_pc node_state].
  - intros n Hn. cbn [node_pc node_state]. by rewrite !upd_ne.
  - rewrite !upd_eq. split; [|split; [|by rewrite Er]].
    + destruct Hpc as [E|E]; rewrite E in *; [done|]. split; [tauto|auto].
    + destruct Hs as [[_ ->]|[_ ->]]; [done|]. by destruct (_ =? _).
  - intros w Hw Hp. rewrite !upd_eq. by eapply pair_reader_move.
Qed.

Lemma ok_consumed S r k todo1 w todo2 fl : sys_ok W R S -> r ∈ R -> w ∈ W ->
  node_pc S r = RConsume k (todo1 ++ w :: todo2) ->
  sys_ok W R (System (upd (node_pc S) r (RConsume k (todo1 ++ todo2))) (handled cfg (MkFlight KConsumed k r w) S) fl).
Proof.
  intros HS Hr Hw Hpc. unfold handled. cbn [fl_to].
  pose proof (ok_consumed_lost _ _ _ _ _ _ fl HS Hr Hpc) as HS1.
  pose proof (sys_readers _ _ _ HS r Hr) as Hrok. rewrite Hpc in Hrok.
  destruct Hrok as [(_ & Hcur & Hnd & _) [Hi64 _]]. rewrite Hcur in Hi64.
  pose proof (sys_pairs _ _ _ HS w r Hw Hr) as [_ Q2 _ Q4]. rewrite Hpc in Q2, Q4.
  cbn [round told_consumed past_wait] in Q2, Q4.
  assert (Hk : k = round (node_pc S w)).
  { destruct Q2 as [->|[[_ Hin]|(_ & Hp & _)]]; [done| |by exfalso; apply Hp].
    exfalso. apply Hin. rewrite elem_of_app, elem_of_cons. auto. }
  pose proof (sys_writers _ _ _ HS w Hw) as [Hw1 [Hw2 Hw3]].
  assert (Hcw : current_seq_id (node_state S w) = k).
  { specialize (Q4 Hk I). destruct (node_pc S w); cbn in *; try done; [|]; destruct Hw1 as (_ & ? & _)||destruct Hw1; congruence. }
  assert (Hwr : w <> r) by (intros ->; exact (top_disjoint top _ Hw Hr)).
  assert (handle cfg (MkFlight KConsumed k r w) (node_state S w) =
    set_consumed ({[r]} ∪ consumed_nodes (node_state S w)) (node_state S w)) as ->.
  { unfold handle, text_of. cbn [fl_kind fl_seq fl_from fl_to].
    rewrite handle_consumed by (done || apply (top_nodes top); auto). by rewrite Hcw, Z.ltb_irrefl. }
  eapply sys_ok_writer; [exact HS1|exact Hw| | |]; cbn [node_pc node_state].
  - intros n Hn. cbn. split; [done|by apply upd_ne].
  - rewrite upd_eq, upd_ne by done. unfold writer_ok in *. cbn. split_and!; try done.
    intros r'. rewrite elem_of_union, elem_of_singleton. intros [->|]; auto.
  - intros r' Hr'. rewrite upd_eq, (upd_ne _ r _ w) by done. intros [P1 P2 P3 P4].
    split; auto. cbn. rewrite elem_of_union, elem_of_singleton. intros [->|]; [|auto].
    rewrite upd_eq. left. split; [done|]. cbn. rewrite <- Permutation_middle in Hnd.
    by apply NoDup_cons in Hnd as [? _].
Qed.

Lemma ok_read_finish S r k fl : sys_ok W R S -> r ∈ R -> node_pc S r = RClear k ->
  sys_ok W R (System (upd (node_pc S) r (RWait (k + 1)))
    (upd (node_state S) r (finish_seq (cfg r) (node_state S r))) fl).
Proof.
  intros HS Hr Hpc. pose proof (sys_readers _ _ _ HS r Hr) as Hok. rewrite Hpc in Hok.
  destruct Hok as [[Hk _] _].
  eapply sys_ok_reader; [exact HS|exact Hr| | |]; cbn [node_pc node_state].
  - intros n Hn. cbn. by rewrite !upd_ne.
  - rewrite !upd_eq. split; [cbn; lia|]. split; [exact init_in_i64|].
    intros w. cbn. set_solver.
  - intros w Hw [P1 P2 P3 P4]. rewrite !upd_eq. rewrite Hpc in *. cbn [round past_wait] in *.
    split; cbn [round told_consumed past_wait].
    + intros Hc. destruct (P1 Hc) as [[? _]|?]; [right; lia|].
      destruct P2 as [?|[[? _]|(_ & Hp & _)]]; [lia..|by exfalso; apply Hp].
    + destruct P2 as [E|[[E _]|(_ & Hp & _)]]; [|left; lia|by exfalso; apply Hp].
      right; right. split_and!; [lia|tauto|auto|]. cbn. set_solver.
    + cbn. set_solver.
    + done.
Qed.

Lemma ok_init : sys_ok W R (sys_init W).
Proof.
  split; cbn.
  - intros w Hw. rewrite decide_True by done. split; [split; [lia|]; split; [by left|done]|].
    split; [exact init_in_i64|]. set_solver.
  - intros r Hr. rewrite decide_False by (intros Hw; exact (top_disjoint top _ Hw Hr)).
    split; [lia|]. split; [exact init_in_i64|]. set_solver.
  - intros w r Hw Hr. rewrite decide_True by done.
    rewrite decide_False by (intros Hw'; exact (top_disjoint top _ Hw' Hr)).
    split; cbn; [set_solver|auto|set_solver|done].
Qed.

(** Where a node that sends is. *)
Lemma sender_pc S n kd k todo : sys_ok W R S -> n ∈ W ++ R -> send_of (node_pc S n) = Some (kd, k, todo) ->
  (n ∈ W /\ kd = KReady /\ node_pc S n = WReady k todo /\ forall m, m ∈ todo -> m ∈ R) \/
  (n ∈ R /\ kd = KConsumed /\ node_pc S n = RConsume k todo /\ forall m, m ∈ todo -> m ∈ W).
Proof.
  intros HS [Hw|Hr]%elem_of_app Hs.
  - pose proof (sys_writers _ _ _ HS n Hw) as [Hok _].
    destruct (node_pc S n); try done. injection Hs as <- <- <-. left. destruct Hok as (_ & _ & _ & ?). done.
  - pose proof (sys_readers _ _ _ HS n Hr) as [Hok _].
    destruct (node_pc S n); try done. injection Hs as <- <- <-. right. destruct Hok as (_ & _ & _ & ?). done.
Qed.

Lemma ok_sent S n kd k fl : sys_ok W R S -> n ∈ W ++ R -> send_of (node_pc S n) = Some (kd, k, []) ->
  sys_ok W R (System (upd (node_pc S) n (after_send (node_pc S n))) (node_state S) fl).
Proof.
  intros HS Hn Hs. destruct (sender_pc _ _ _ _ _ HS Hn Hs) as [(Hw & -> & Hpc & _)|(Hr & -> & Hpc & _)]; rewrite Hpc.
  - pose proof (sys_writers _ _ _ HS n Hw) as Hok. rewrite Hpc in Hok. destruct Hok as [(? & ? & ? & _) ?].
    by apply ok_writer_pc; rewrite ?Hpc.
  - pose proof (sys_readers _ _ _ HS n Hr) as Hok. rewrite Hpc in Hok. destruct Hok as [(? & ? & ? & _) ?].
    by apply ok_reader_pc; rewrite ?Hpc.
Qed.

Lemma ok_complete_write S w k fl : sys_ok W R S -> w ∈ W -> node_pc S w = WPut k ->
  IsWrite (current_data_operation (node_state S w)) = true ->
  sys_ok W R (System (upd (node_pc S) w (WReady k R)) (node_state S) fl).
Proof.
  intros HS Hw Hpc Hop. pose proof (sys_writers _ _ _ HS w Hw) as Hok. rewrite Hpc in Hok.
  destruct Hok as [(? & _ & Hk) ?]. apply ok_writer_pc; try done; [|by rewrite Hpc|by rewrite Hpc].
  split; [|done]. split_and!; auto. apply (top_readers top).
Qed.

Lemma ok_complete_read S r k fl : sys_ok W R S -> r ∈ R -> node_pc S r = RRead k ->
  sys_ok W R (System (upd (node_pc S) r (RConsume k W)) (node_state S) fl).
Proof.
  intros HS Hr Hpc. pose proof (sys_readers _ _ _ HS r Hr) as Hok. rewrite Hpc in Hok.
  destruct Hok as [[? ?] ?]. apply ok_reader_pc; try done; [|by rewrite Hpc..].
  split; [|done]. split_and!; auto. apply (top_writers top).
Qed.

(** A read, however it ends. *)
Lemma ok_get S r k res s' fl : sys_ok W R S -> r ∈ R -> (node_pc S r = RWait k \/ node_pc S r = RRead k) -> in_i64 k ->
  touched k SetRead (node_state S r) s' ->
  (res = Ok true -> joined k SetRead (node_state S r) s' /\ all_ready (cfg r) (node_state S r) = true) ->
  sys_ok W R (System (upd (node_pc S) r (after_get (node_pc S r) res)) (upd (node_state S) r s') fl).
Proof.
  intros HS Hr Hpc Hk Ht Hj.
  assert (Hfail : sys_ok W R (System (upd (node_pc S) r (node_pc S r)) (upd (node_state S) r s') fl)) by by eapply ok_unread.
  destruct res as [[]|e|]; [|exact Hfail..]. destruct (Hj eq_refl) as [Hj1 Hj2].
  replace (after_get (node_pc S r) (Ok true)) with (RRead k) by (by destruct Hpc as [-> | ->]). by apply ok_read.
Qed.

Lemma ok_step S S' : sys_ok W R S -> step cfg W R Plain S S' -> sys_ok W R S'.
Proof.
  intros HS Hstep. remember Plain as e eqn:He. destruct Hstep; try discriminate He.
  - eapply ok_put; eauto using Put_touched.
  - eapply ok_put; eauto using MultiPut_touched.
  - by apply ok_complete_write.
  - by apply ok_write_finish.
  - by apply ok_meta.
  - match goal with E : RawGet ?env ?c ?k ?st ?n ?addr ?len ?s = _ |- _ =>
      pose proof (RawGet_touched env c ltac:(eassumption) k st n addr len s) as Ht; rewrite E in Ht end.
    eapply ok_get; eauto. intros ->. eapply RawGet_joined; eassumption.
  - match goal with E : Get ?env ?c ?k ?key ?a ?s = _ |- _ =>
      pose proof (Get_touched env c ltac:(eassumption) k key a s) as Ht; rewrite E in Ht end.
    eapply ok_get; eauto. intros ->. edestruct Get_joined as [? Hall]; [eassumption..|]. split; [done|].
    unfold get_event in He. destruct (is_publish_meta _); [auto|]. cbn in He. by destruct (all_ready _ _).
  - by apply ok_complete_read.
  - by apply ok_read_finish.
  - by apply ok_idle.
  - destruct HS. by split.
  - destruct (sender_pc _ _ _ _ _ HS ltac:(eassumption) ltac:(eassumption)) as [(Hw & -> & Hpc & Hs)|(Hr & -> & Hpc & Hs)];
      rewrite Hpc; cbn [with_todo]; [apply ok_ready|apply ok_consumed]; auto; apply Hs; set_solver.
  - destruct (sender_pc _ _ _ _ _ HS ltac:(eassumption) ltac:(eassumption)) as [(Hw & -> & Hpc & Hs)|(Hr & -> & Hpc & Hs)];
      rewrite Hpc; cbn [with_todo]; [by eapply ok_ready_lost|by eapply ok_consumed_lost].
  - by eapply ok_sent.
  - destruct HS. by split.
Qed.

Lemma ok_reachable S : reachable cfg W R (fun e => e = Plain) S -> sys_ok W R S.
Proof. unfold reachable. induction 1 as [|e S S' _ IH -> Hs]; [exact ok_init|by eapply ok_step]. Qed.

End Invariant.

(** C6: no writer touches its tensors while a reader reads them.  The writers and
    the readers are each other's peers and number their rounds from 0 on; they run any
    interleaving of the operations of the service, reads that time out and other
    failures, repeated attempts and lost messages included; of the runs this is
    about those in which (1) a reader reads its first round only once all writers
    have announced it, which [Get] alone does not check but the plan that a table makes
    before it does ([planned_when_ready] of ReadCorrect.v), (2) a reader
    completes a round only after a read of it returned true, and (3) every message that
    is handled is answered to the send that waits for it.  In every state such a
    run reaches, where a reader reads round [k], every writer is in round [k] too, has
    told the reader that it is ready, and has not finished the round: it is waiting,
    or still telling others. *)
Theorem no_write_while_reading `{JsonLaws} (cfg : NodeInfo -> pull_config) (W R : list NodeInfo)
    (S : system) (w r : NodeInfo) (k : Z) :
  topology cfg W R -> reachable cfg W R (fun e => e = Plain) S -> w ∈ W -> r ∈ R -> node_pc S r = RRead k ->
  (node_pc S w = WWait k \/ exists todo, node_pc S w = WReady k todo /\ r ∉ todo) /\
  current_seq_id (node_state S w) = k.
Proof.
  intros top Hreach Hw Hr Hpc. apply (ok_reachable cfg W R top) in Hreach as HS.
  pose proof (sys_writers _ _ _ HS w Hw) as [Hok _].
  destruct (sys_pairs _ _ _ HS w r Hw Hr) as [_ P2 _ P4]. rewrite Hpc in P2, P4.
  cbn [round told_consumed past_wait] in P2, P4.
  assert (Hk : k = round (node_pc S w)) by (destruct P2 as [?|[[_ []]|(_ & Hp & _)]]; tauto).
  specialize (P4 Hk I). destruct (node_pc S w); cbn in *; try done; subst.
  - destruct Hok as (_ & ? & _). eauto.
  - destruct Hok as [_ ?]. auto.
Qed.

(** ** Runs of one writer and one reader *)

Module Runs.
#[local] Existing Instances PlainJson.lib PlainJson.laws.

Definition wn : NodeInfo := demo_node.
Definition rn : NodeInfo := MkNodeInfo "10.0.0.2" 8001 9001.

Definition cfg (n : NodeInfo) : pull_config :=
  if decide (n = wn) then quiet_cfg wn [rn] else quiet_cfg rn [wn].

Definition weights : ATensor :=
  MkATensor (Some [4; 4]) (Some [4; 1]) 0 2 ATDtype.Float false false false
    (MkATStorage 64 (MkATDevice ATDeviceType.CPU 0) 4096).

Definition ready (k : Z) : flight := MkFlight KReady k wn rn.
Definition consumed (k : Z) : flight := MkFlight KConsumed k rn wn.

(** The message a writer publishes for its tensor. *)
Definition publish_text : string :=
  match ToJson_TensorRDMAMetaPublishMessage
          (MkTensorRDMAMetaPublishMessage 0 wn {[demo_key := storage_info weights]}) with
  | Ok v => Serialize v
  | _ => EmptyString
  end.

Definition do_put (k : Z) (S : system) : system :=
  System (node_pc S) (upd (node_state S) wn
    (Put quiet_env (cfg wn) k demo_key weights (node_state S wn)).2) (in_flight S).
Definition do_pc (n : NodeInfo) (p : pc) (S : system) : system :=
  System (upd (node_pc S) n p) (node_state S) (in_flight S).
Definition do_meta (S : system) : system :=
  System (node_pc S) (upd (node_state S) rn (HandleTensorRDMAMeta publish_text (node_state S rn)).2) (in_flight S).
(** An attempt that is answered, and one whose answer is lost. *)
Definition do_told (n : NodeInfo) (p : pc) (f : flight) (S : system) : system :=
  System (upd (node_pc S) n p) (handled cfg f S) (in_flight S).
Definition do_stray (f : flight) (S : system) : system := System (node_pc S) (handled cfg f S) (in_flight S).
Definition do_raw_get (k : Z) (S : system) : system :=
  let '(res, s') := RawGet quiet_env (cfg rn) k (storage weights) wn 4096 64 (node_state S rn) in
  System (upd (node_pc S) rn (after_get (node_pc S rn) res)) (upd (node_state S) rn s') (in_flight S).
Definition do_get (k : Z) (S : system) : system :=
  let '(res, s') := Get quiet_env (cfg rn) k demo_key weights (node_state S rn) in
  System (upd (node_pc S) rn (after_get (node_pc S rn) res)) (upd (node_state S) rn s') (in_flight S).
Definition do_unread (k : Z) (S : system) : system :=
  System (upd (node_pc S) rn (RConsume k [wn])) (node_state S) (in_flight S).
Definition do_finish (n : NodeInfo) (p : pc) (S : system) : system :=
  System (upd (node_pc S) n p) (upd (node_state S) n (finish_seq (cfg n) (node_state S n))) (in_flight S).

Section Moves.
Variable allowed : event -> Prop.
Variable S0 : system.
Hypothesis plain : allowed Plain.
Abbreviation reach := (runs cfg [wn] [rn] allowed S0).

Lemma in_w : wn ∈ [wn].
Proof. by left. Qed.
Lemma in_r : rn ∈ [rn].
Proof. by left. Qed.

Lemma m_put k S : reach S -> node_pc S wn = WPut k -> in_i64 k -> reach (do_put k S).
Proof. intros HS Hpc Hk. eapply run_step; [exact HS|exact plain|]. by apply step_put; [exact in_w|..]. Qed.

Lemma m_meta S : reach S -> reach (do_meta S).
Proof. intros HS. eapply run_step; [exact HS|exact plain|]. apply step_meta, in_r. Qed.

Lemma m_complete_write k S : reach S -> node_pc S wn = WPut k ->
  IsWrite (current_data_operation (node_state S wn)) = true -> reach (do_pc wn (WReady k [rn]) S).
Proof. intros HS H1 H2. eapply run_step; [exact HS|exact plain|]. by apply step_complete_write; [exact in_w|..]. Qed.

Definition do_attempt (f : flight) (S : system) : system :=
  System (node_pc S) (node_state S) (in_flight S ++ [f]).

(** One attempt, from a network without a copy to one without. *)
Lemma m_attempt n kd k m S : reach S -> n ∈ [wn] ++ [rn] -> send_of (node_pc S n) = Some (kd, k, [m]) ->
  current_seq_id (node_state S n) = k ->
  reach (do_attempt (MkFlight kd k n m) S).
Proof.
  intros HS Hn Hs <-. eapply run_step; [exact HS|exact plain|]. eapply step_attempt; [exact Hn|exact Hs|by left].
Qed.

Lemma m_told n kd k m S : reach S -> n ∈ [wn] ++ [rn] -> send_of (node_pc S n) = Some (kd, k, [m]) ->
  current_seq_id (node_state S n) = k ->
  reach (do_told n (with_todo (node_pc S n) []) (MkFlight kd k n m) S).
Proof.
  intros HS Hn Hs Hk. pose proof (m_attempt n kd k m S HS Hn Hs Hk) as HS1.
  pose proof (run_step cfg [wn] [rn] _ _ _ _ _ HS1 plain (step_answered cfg [wn] [rn] (do_attempt (MkFlight kd k n m) S) n kd k [] m [] (in_flight S) [] Hn Hs eq_refl)) as HS2.
  rewrite (app_nil_r (in_flight S)) in HS2. exact HS2.
Qed.

Lemma m_stray n kd k m S : allowed Stray -> reach S -> n ∈ [wn] ++ [rn] ->
  send_of (node_pc S n) = Some (kd, k, [m]) -> current_seq_id (node_state S n) = k ->
  reach (do_stray (MkFlight kd k n m) S).
Proof.
  intros Ha HS Hn Hs Hk. pose proof (m_attempt n kd k m S HS Hn Hs Hk) as HS1.
  pose proof (run_step cfg [wn] [rn] _ _ _ _ _ HS1 Ha (step_stray cfg [wn] [rn] (do_attempt (MkFlight kd k n m) S) (MkFlight kd k n m) (in_flight S) [] eq_refl)) as HS2.
  rewrite (app_nil_r (in_flight S)) in HS2. exact HS2.
Qed.

Lemma m_ready k S : reach S -> node_pc S wn = WReady k [rn] -> current_seq_id (node_state S wn) = k ->
  reach (do_told wn (WReady k []) (ready k) S).
Proof.
  intros HS Hpc Hk. pose proof (m_told wn KReady k rn S HS ltac:(by left)) as Ht.
  rewrite Hpc in Ht. exact (Ht eq_refl Hk).
Qed.

Lemma m_consumed k S : reach S -> node_pc S rn = RConsume k [wn] -> current_seq_id (node_state S rn) = k ->
  reach (do_told rn (RConsume k []) (consumed k) S).
Proof.
  intros HS Hpc Hk. pose proof (m_told rn KConsumed k wn S HS ltac:(by right; left)) as Ht.
  rewrite Hpc in Ht. exact (Ht eq_refl Hk).
Qed.

Lemma m_ready_stray k S : allowed Stray -> reach S -> node_pc S wn = WReady k [rn] ->
  current_seq_id (node_state S wn) = k -> reach (do_stray (ready k) S).
Proof. intros Ha HS Hpc Hk. apply (m_stray wn KReady k rn S Ha HS); [by left|by rewrite Hpc|done]. Qed.

Lemma m_ready_done k S : reach S -> node_pc S wn = WReady k [] -> reach (do_pc wn (WWait k) S).
Proof.
  intros HS Hpc. eapply run_step; [exact HS|exact plain|]. unfold do_pc.
  replace (WWait k) with (after_send (node_pc S wn)) by by rewrite Hpc. eapply step_sent; [by left|by rewrite Hpc].
Qed.

Lemma m_consumed_done k S : reach S -> node_pc S rn = RConsume k [] -> reach (do_pc rn (RClear k) S).
Proof.
  intros HS Hpc. eapply run_step; [exact HS|exact plain|]. unfold do_pc.
  replace (RClear k) with (after_send (node_pc S rn)) by by rewrite Hpc. eapply step_sent; [by right; left|by rewrite Hpc].
Qed.

Lemma m_write_finish k S : reach S -> node_pc S wn = WWait k ->
  all_consumed (cfg wn) (node_state S wn) = true -> reach (do_finish wn (WPut (k + 1)) S).
Proof. intros HS H1 H2. eapply run_step; [exact HS|exact plain|]. by apply step_write_finish; [exact in_w|..]. Qed.

Lemma m_raw_get k S : reach S -> node_pc S rn = RWait k -> in_i64 k -> reach (do_raw_get k S).
Proof.
  intros HS Hpc Hk. eapply run_step; [exact HS|exact plain|]. unfold do_raw_get.
  destruct (RawGet _ _ _ _ _ _ _ _) as [res s'] eqn:E.
  eapply (step_raw_get _ _ _ quiet_env); [exact in_r|by left|exact Hk|reflexivity|exact E].
Qed.

Lemma m_get k S : reach S -> node_pc S rn = RWait k -> in_i64 k ->
  allowed (get_event (cfg rn) (node_state S rn) (Get quiet_env (cfg rn) k demo_key weights (node_state S rn)).1) ->
  reach (do_get k S).
Proof.
  intros HS Hpc Hk Ha. unfold do_get. destruct (Get _ _ _ _ _ _) as [res s'] eqn:E.
  eapply run_step; [exact HS|exact Ha|].
  eapply (step_get _ _ _ quiet_env); [exact in_r|by left|exact Hk|reflexivity|exact E].
Qed.

Lemma m_complete_read k S : reach S -> node_pc S rn = RRead k ->
  IsRead (current_data_operation (node_state S rn)) = true -> reach (do_pc rn (RConsume k [wn]) S).
Proof. intros HS H1 H2. eapply run_step; [exact HS|exact plain|]. by apply step_complete_read; [exact in_r|..]. Qed.

Lemma m_complete_unread k S : allowed Unread -> reach S -> node_pc S rn = RWait k ->
  IsRead (current_data_operation (node_state S rn)) = true -> reach (do_unread k S).
Proof. intros Ha HS H1 H2. eapply run_step; [exact HS|exact Ha|]. by apply step_complete_unread; [exact in_r|..]. Qed.

Lemma m_read_finish k S : reach S -> node_pc S rn = RClear k -> reach (do_finish rn (RWait (k + 1)) S).
Proof. intros HS H1. eapply run_step; [exact HS|exact plain|]. by apply step_read_finish; [exact in_r|]. Qed.

End Moves.

(** The moves that lead to a state, from the last one back. *)
Ltac run_one := match goal with
  | |- runs _ _ _ _ ?S ?S => apply run_none
  | |- runs _ _ _ _ _ (do_put _ _) => apply m_put
  | |- runs _ _ _ _ _ (do_meta _) => apply m_meta
  | |- runs _ _ _ _ _ (do_told wn _ _ _) => apply m_ready
  | |- runs _ _ _ _ _ (do_told rn _ _ _) => apply m_consumed
  | |- runs _ _ _ _ _ (do_stray _ _) => apply m_ready_stray
  | |- runs _ _ _ _ _ (do_raw_get _ _) => apply m_raw_get
  | |- runs _ _ _ _ _ (do_get _ _) => apply m_get
  | |- runs _ _ _ _ _ (do_unread _ _) => apply m_complete_unread
  | |- runs _ _ _ _ _ (do_pc _ (RConsume _ _) _) => apply m_complete_read
  | |- runs _ _ _ _ _ (do_pc _ (WReady _ _) _) => apply m_complete_write
  | |- runs _ _ _ _ _ (do_pc _ (WWait _) _) => apply m_ready_done
  | |- runs _ _ _ _ _ (do_pc _ (RClear _) _) => apply m_consumed_done
  | |- runs _ _ _ _ _ (do_finish _ (WPut _) _) => apply m_write_finish
  | |- runs _ _ _ _ _ (do_finish _ (RWait _) _) => apply m_read_finish
  end.
Ltac run := repeat match goal with
  | |- in_i64 _ => unfold in_i64; lia
  | |- runs _ _ _ _ _ _ => run_one
  | |- _ \/ _ => vm_compute; tauto
  | |- _ = _ => vm_compute; reflexivity
  end.

(** The writer puts a round, announces it and waits; the reader reports a round. *)
Definition announced (k : Z) (S : system) : system :=
  do_pc wn (WWait k) (do_told wn (WReady k []) (ready k) (do_pc wn (WReady k [rn]) (do_put k S))).
Definition reported (k : Z) (S : system) : system :=
  do_pc rn (RClear k) (do_told rn (RConsume k []) (consumed k) S).

(** The reader has read round 0. *)
Definition reading : system := do_raw_get 0 (announced 0 (sys_init [wn])).

Lemma reading_reachable : reachable cfg [wn] [rn] (fun e => e = Plain) reading.
Proof. unfold reachable, reading, announced. run. Qed.

Lemma demo_topology : topology cfg [wn] [rn].
Proof.
  split.
  - apply NoDup_singleton.
  - apply NoDup_singleton.
  - intros n Hw Hr. apply list_elem_of_singleton in Hw, Hr. subst. discriminate.
  - intros n Hn. rewrite !list_elem_of_singleton in Hn.
    destruct Hn as [-> | ->]; (split; [by apply text_b_text|]; split; split; discriminate).
  - intros w Hw. apply list_elem_of_singleton in Hw. by subst.
  - intros r Hr. apply list_elem_of_singleton in Hr. by subst.
Qed.

(** The first round is over and the reader is about to clear its state. *)
Definition after_reading : system := reported 0 (do_pc rn (RConsume 0 [wn]) reading).

(** The writer finishes round 0, puts round 1 and tells the reader before the
    reader clears its state. *)
Definition stuck_system : system :=
  do_finish rn (RWait (0 + 1)) (announced 1 (do_finish wn (WPut (0 + 1)) after_reading)).

Lemma stuck_reachable : reachable cfg [wn] [rn] (fun e => e = Plain) stuck_system.
Proof. unfold reachable, stuck_system, after_reading, reading, announced, reported. run. Qed.

(** The writer waits for the reader, which waits for a readiness it has forgotten. *)
Definition stuck (S : system) : Prop :=
  node_pc S wn = WWait 1 /\ node_pc S rn = RWait 1 /\
  consumed_nodes (node_state S wn) = ∅ /\ ready_nodes (node_state S rn) = ∅ /\
  is_publish_meta (node_state S rn) = true /\ in_flight S = [].

(** No read of the reader returns true. *)
Lemma stuck_reads S env q : stuck S -> alone env ->
  (forall st n addr len, (RawGet env (cfg rn) q st n addr len (node_state S rn)).1 <> Ok true) /\
  (forall key a, (Get env (cfg rn) q key a (node_state S rn)).1 <> Ok true).
Proof.
  intros (_ & _ & _ & Hrd & Hpub & _) He.
  assert (Hno : all_ready (cfg rn) (node_state S rn) <> true) by (unfold all_ready; rewrite Hrd; discriminate). split.
  - intros st n addr len E. apply Hno. destruct (RawGet _ _ _ _ _ _ _ _) as [res s'] eqn:Eg. cbn in E. subst res.
    eapply RawGet_joined; eassumption.
  - intros key a E. apply Hno. destruct (Get _ _ _ _ _ _) as [res s'] eqn:Eg. cbn in E. subst res.
    eapply Get_joined; eassumption.
Qed.

(** A state of the reader that keeps what it waits for. *)
Lemma stuck_reader S s' : stuck S -> ready_nodes s' = ∅ -> is_publish_meta s' = true ->
  stuck (System (node_pc S) (upd (node_state S) rn s') (in_flight S)).
Proof.
  intros (Hw & Hr & Hc & _ & _ & Hf) E1 E2. unfold stuck. cbn [node_pc node_state in_flight].
  rewrite upd_eq, upd_ne by discriminate. done.
Qed.

Lemma stuck_touched S q s' res : stuck S -> touched q SetRead (node_state S rn) s' -> res <> Ok true ->
  stuck (System (upd (node_pc S) rn (after_get (node_pc S rn) res)) (upd (node_state S) rn s') (in_flight S)).
Proof.
  intros HS (E1 & _ & E3 & _) Hres. pose proof HS as (Hw & Hr & Hc & Hrd & Hpub & Hf).
  destruct (stuck_reader S s' HS) as (Gw & Gr & G); [congruence..|].
  replace (after_get (node_pc S rn) res) with (node_pc S rn) by (by destruct res as [[]|e|]).
  split; [cbn; by rewrite upd_ne|]. split; [cbn; by rewrite upd_eq|exact G].
Qed.

Lemma stuck_step e S S' : stuck S -> e <> Unread -> step cfg [wn] [rn] e S S' -> stuck S'.
Proof.
  intros HS He Hstep. pose proof HS as (Hw & Hr & Hc & Hrd & Hpub & Hf).
  destruct Hstep; repeat match goal with
    | Hn : _ ∈ [_] |- _ => apply list_elem_of_singleton in Hn; subst
    | Hn : _ ∈ _ ++ _ |- _ => rewrite elem_of_app, !list_elem_of_singleton in Hn; destruct Hn as [-> | ->]
    | E : node_pc _ _ = _ \/ _ |- _ => destruct E
    | E : send_of (node_pc _ _) = _ |- _ => rewrite ?Hw, ?Hr in E; discriminate E
    | E : in_flight _ = _ ++ _ :: _ |- _ => rewrite Hf in E; by destruct fl1
    end; try congruence.
  - match goal with E : all_consumed _ _ = true |- _ => unfold all_consumed in E; rewrite Hc in E; discriminate E end.
  - pose proof (keeps_handle_meta message (node_state S rn)) as (E1 & _ & _ & _ & E5 & _).
    apply stuck_reader; [done|congruence..].
  - match goal with E : RawGet ?v ?c ?q ?st ?n ?addr ?len ?s = _, Ha : alone ?v |- _ =>
      pose proof (RawGet_touched v c Ha q st n addr len s) as Ht; pose proof (proj1 (stuck_reads S v q HS Ha) st n addr len) as Hn;
      rewrite E in Ht, Hn; by eapply stuck_touched end.
  - match goal with E : Get ?v ?c ?q ?key ?a ?s = _, Ha : alone ?v |- _ =>
      pose proof (Get_touched v c Ha q key a s) as Ht; pose proof (proj2 (stuck_reads S v q HS Ha) key a) as Hn;
      rewrite E in Ht, Hn; by eapply stuck_touched end.
  - match goal with E : idle _ _ |- _ => rewrite Hw in E; by destruct E end.
  - by apply stuck_reader.
Qed.

(** After a read that times out the reader completes round 1 all the same. *)
Definition given_up : system :=
  do_finish rn (RWait (1 + 1)) (do_finish wn (WPut (1 + 1)) (reported 1 (do_unread 1 (do_raw_get 1 stuck_system)))).

Lemma given_up_reachable : runs cfg [wn] [rn] (fun e => e = Plain \/ e = Unread) stuck_system given_up.
Proof.
  unfold given_up, reported. run.
Qed.

(** The writer is told that round 0 has been read before it says that it is
    ready, and says so afterwards. *)
Definition early_reader : system :=
  do_finish rn (RWait (0 + 1)) (reported 0 (do_pc rn (RConsume 0 [wn]) (do_get 0 (do_meta (do_put 0 (sys_init [wn])))))).

Definition stale_system : system :=
  do_get 1 (do_finish wn (WPut (0 + 1)) (do_pc wn (WWait 0) (do_told wn (WReady 0 []) (ready 0)
    (do_pc wn (WReady 0 [rn]) early_reader)))).

Lemma stale_reachable : reachable cfg [wn] [rn] (fun e => e = Plain \/ e = EarlyGet) stale_system.
Proof. unfold reachable, stale_system, early_reader, reported. run. Qed.

(** The readiness of round 0 is handled, its answer is lost, and it is sent again
    after the reader has finished the round. *)
Definition repeated_system : system :=
  do_raw_get 1 (do_finish wn (WPut (0 + 1)) (do_pc wn (WWait 0) (do_told wn (WReady 0 []) (ready 0)
    (do_finish rn (RWait (0 + 1)) (reported 0 (do_pc rn (RConsume 0 [wn]) (do_raw_get 0
      (do_stray (ready 0) (do_pc wn (WReady 0 [rn]) (do_put 0 (sys_init [wn]))))))))))).

Lemma repeated_reachable : reachable cfg [wn] [rn] (fun e => e = Plain \/ e = Stray) repeated_system.
Proof. unfold reachable, repeated_system, reported. run. Qed.

(** The reader gives up round 0 before the writer has announced it. *)
Definition unread_system : system :=
  do_raw_get 1 (do_finish wn (WPut (0 + 1)) (do_pc wn (WWait 0) (do_told wn (WReady 0 []) (ready 0)
    (do_pc wn (WReady 0 [rn]) (do_finish rn (RWait (0 + 1)) (reported 0 (do_unread 0 (do_raw_get 0
      (do_put 0 (sys_init [wn])))))))))).

Lemma unread_reachable : reachable cfg [wn] [rn] (fun e => e = Plain \/ e = Unread) unread_system.
Proof. unfold reachable, unread_system, reported. run. Qed.

End Runs.

Lemma no_write_while_reading_witness :
  (node_pc Runs.reading Runs.wn = WWait 0 \/
   exists todo, node_pc Runs.reading Runs.wn = WReady 0 todo /\ Runs.rn ∉ todo) /\
  current_seq_id (node_state Runs.reading Runs.wn) = 0.
Proof.
  apply (@no_write_while_reading PlainJson.lib PlainJson.laws Runs.cfg [Runs.wn] [Runs.rn]
    Runs.reading Runs.wn Runs.rn 0).
  - exact Runs.demo_topology.
  - exact Runs.reading_reachable.
  - exact Runs.in_w.
  - exact Runs.in_r.
  - vm_compute. reflexivity.
Defined.

(** C12: A readiness can be lost for good.  In a run without any lost message and with a
    first round that was read, a writer may announce round 1 after the reader has
    reported round 0 and before the reader clears its set of ready nodes.  From then on,
    as long as the reader does not complete round 1 without having read it, the writer
    waits, for which it has no timeout, and every read of the reader fails, whenever it
    is made; completing the round unread is what lets both of them go on. *)
Theorem lost_ready_starves :
  exists S, @reachable PlainJson.lib Runs.cfg [Runs.wn] [Runs.rn] (fun e => e = Plain) S /\
    (forall S', @runs PlainJson.lib Runs.cfg [Runs.wn] [Runs.rn] (fun e => e <> Unread) S S' ->
      node_pc S' Runs.wn = WWait 1 /\ node_pc S' Runs.rn = RWait 1 /\
      forall env, alone env ->
        (forall st n addr len, (RawGet env (Runs.cfg Runs.rn) 1 st n addr len (node_state S' Runs.rn)).1 <> Ok true) /\
        (forall key a, (Get env (Runs.cfg Runs.rn) 1 key a (node_state S' Runs.rn)).1 <> Ok true)) /\
    exists S'', @runs PlainJson.lib Runs.cfg [Runs.wn] [Runs.rn] (fun e => e = Plain \/ e = Unread) S S'' /\
      node_pc S'' Runs.wn = WPut 2 /\ node_pc S'' Runs.rn = RWait 2.
Proof.
  exists Runs.stuck_system. split; [exact Runs.stuck_reachable|]. split.
  - assert (H0 : Runs.stuck Runs.stuck_system) by (vm_compute; auto 10).
    intros S' Hrun. assert (Runs.stuck S') as Hst.
    { induction Hrun as [|e S1 S2 _ IH He Hs]; [done|]. by eapply Runs.stuck_step. }
    pose proof Hst as (? & ? & _). split; [done|]. split; [done|]. intros env. by apply Runs.stuck_reads.
  - exists Runs.given_up. split; [exact Runs.given_up_reachable|]. split; vm_compute; reflexivity.
Qed.

(** C16: A reader that reads its first round with [Get], which does not wait for the
    writers to be ready, may take the late readiness of round 0 for that of round 1: it
    reads round 1 while the writer has not put anything for it. *)
Theorem stale_ready_read :
  exists S, @reachable PlainJson.lib Runs.cfg [Runs.wn] [Runs.rn] (fun e => e = Plain \/ e = EarlyGet) S /\
    node_pc S Runs.rn = RRead 1 /\ node_pc S Runs.wn = WPut 1 /\
    current_seq_id (node_state S Runs.rn) = 1 /\
    current_seq_id (node_state S Runs.wn) = INIT_SEQ_ID.
Proof.
  exists Runs.stale_system. split; [exact Runs.stale_reachable|].
  split_and!; vm_compute; reflexivity.
Qed.

(** C40: the reader does not look at the sequence number of a readiness, so that two more
    things make a reader read round 1 while the writer has not put anything for it: an
    announcement of round 0 that was handled, and is sent again because its answer was
    lost; and a reader that completes round 0, after a read that timed out, before the
    writer announces it. *)
Theorem repeated_ready_read :
  (exists S, @reachable PlainJson.lib Runs.cfg [Runs.wn] [Runs.rn] (fun e => e = Plain \/ e = Stray) S /\
    node_pc S Runs.rn = RRead 1 /\ node_pc S Runs.wn = WPut 1 /\ current_seq_id (node_state S Runs.wn) = INIT_SEQ_ID) /\
  (exists S, @reachable PlainJson.lib Runs.cfg [Runs.wn] [Runs.rn] (fun e => e = Plain \/ e = Unread) S /\
    node_pc S Runs.rn = RRead 1 /\ node_pc S Runs.wn = WPut 1 /\ current_seq_id (node_state S Runs.wn) = INIT_SEQ_ID).
Proof.
  split.
  - exists Runs.repeated_system. split; [exact Runs.repeated_reachable|]. split_and!; vm_compute; reflexivity.
  - exists Runs.unread_system. split; [exact Runs.unread_reachable|]. split_and!; vm_compute; reflexivity.
Qed.
