(* ===== verification/RemoteWrite.v ===== *)
(** * The remote tensor table: the sender's half

    core/remote_tensor_table.h and .cpp, what a training node runs: the
    parallel configuration, the resharding of a tensor into column pieces,
    the local copies of the tensors it publishes (small ones packed in shared
    cache buffers) and the puts.  Torch's tensors are seen through the
    arguments of the calls made to torch: a local copy is a buffer of its own,
    or a slice of a cache buffer. *)

From S2P Require Import Prelude StateResult StringUtils Tensor Messages Transfer.
Local Open Scope Z_scope.

(** ** Parallel configuration *)

Record GlobalParallelConfig : Type := MkGlobalParallelConfig {
  g_dp : Z; g_tp : Z; g_pp : Z; g_cp : Z; g_ep : Z; g_etp : Z;
}.

Definition no_parallel_config : GlobalParallelConfig := MkGlobalParallelConfig 0 0 0 0 0 0.

(** [str.find(c)] with the two parts around it. *)
Fixpoint split_at (c : ascii) (str : string) : option (string * string) :=
  match str with
  | EmptyString => None
  | String d rest =>
      if Ascii.eqb c d then Some (EmptyString, rest)
      else '(a, b) ← split_at c rest; Some (String d a, b)
  end.

Definition set_parallel (config : GlobalParallelConfig) (key : string) (value : Z)
    : GlobalParallelConfig :=
  let '(MkGlobalParallelConfig dp tp pp cp ep etp) := config in
  if bool_decide (key = "dp"%string) then MkGlobalParallelConfig value tp pp cp ep etp
  else if bool_decide (key = "tp"%string) then MkGlobalParallelConfig dp value pp cp ep etp
  else if bool_decide (key = "pp"%string) then MkGlobalParallelConfig dp tp value cp ep etp
  else if bool_decide (key = "cp"%string) then MkGlobalParallelConfig dp tp pp value ep etp
  else if bool_decide (key = "ep"%string) then MkGlobalParallelConfig dp tp pp cp value etp
  else if bool_decide (key = "etp"%string) then MkGlobalParallelConfig dp tp pp cp ep value
  else config.

Definition ParseParallelConfig (config_str : list string) : result GlobalParallelConfig :=
  for_each (fun str config =>
    match split_at "=" str with
    | Some (key, rest) => value ← stoi rest; Ok (set_parallel config key value)
    | None => Ok config
    end) config_str no_parallel_config.

(** The configuration and the resharding keys; a failure to parse leaves what
    was assigned before it. *)
Definition UpdateGlobalParallelConfig (train infer reshard_keys : list string)
    : GlobalParallelConfig * GlobalParallelConfig * gset string :=
  match ParseParallelConfig train with
  | Ok t =>
      match ParseParallelConfig infer with
      | Ok i => (t, i, list_to_set (filter (fun k => k <> EmptyString) reshard_keys))
      | _ => (t, no_parallel_config, ∅)
      end
  | _ => (no_parallel_config, no_parallel_config, ∅)
  end.

(** [tensor_key.key.find(reshard_key) != npos] for some key. *)
Definition IsTensorReshardingKey (keys : gset string) (tensor_key : ShardedKey) : bool :=
  existsb (fun k => bool_decide (is_Some (String.index 0 k (key tensor_key)))) (base.elements keys).

(** ** Sources and copies *)

(** What the table reads of a source tensor. *)
Record source : Type := Source { src_sizes : list Z; src_numel : Z; src_dtype : ScalarType.t }.

(** A buffer of its own, or [slice(0, start, stop).view(sizes)] of the
    [length] elements of a cache buffer. *)
Inductive local_copy : Type :=
| OwnBuffer (buffer : Z) (sizes : list Z) (dtype : ScalarType.t)
| CacheSlice (buffer length start stop : Z) (sizes : list Z) (dtype : ScalarType.t).

Record ReshardingInfo : Type := MkReshardingInfo {
  ri_key : ShardedKey; ri_dim_index : Z; ri_start : Z; ri_offset : Z;
}.

Record table_config : Type := MkTableConfig {
  small_tensor_compact_cache_size : Z;
  small_tensor_size : Z;
  copy_bucket_mem_size : Z;
  inference_tp_size : Z;
  resharding_keys : gset string;
}.

(** [next_buffer] numbers the buffers torch allocates. *)
Record sender : Type := MkSender {
  local_tensor_mapping : gmap ShardedKey local_copy;
  compact_cache_offset : Z;
  compact_cache : Z;
  compact_cache_list : list Z;
  tensor_resharding_map : gmap ShardedKey (list ReshardingInfo);
  next_buffer : Z;
}.

Section Sender.
Context (itemsize : ScalarType.t -> Z) (cfg : table_config).

(** The constructor on a training node. *)
Definition new_sender : result sender :=
  _ ← throw_if (small_tensor_compact_cache_size cfg <? small_tensor_size cfg)
        "illegal state: small_tensor_compact_cache_size_ < small_tensor_size_";
  _ ← throw_if (copy_bucket_mem_size cfg <? small_tensor_compact_cache_size cfg)
        "illegal state: small_tensor_compact_cache_size_ > copy_bucket_mem_size";
  Ok (MkSender ∅ 0 0 [] ∅ 1).

Definition source_bytes (src : source) : Z := u64 (src_numel src * itemsize (src_dtype src)).

(** The [%] and [/] are on [size_t]. *)
Definition AlignStorageOffset (offset : Z) (dtype : ScalarType.t) : result Z :=
  let item_size := itemsize dtype in
  if item_size =? 0 then Undef
  else if u64 offset mod item_size =? 0 then Ok (u64 offset)
  else Ok (u64 (u64 (u64 offset + (item_size - 1)) / item_size * item_size)).

Definition with_copy (t : sender) (k : ShardedKey) (copy : local_copy) : sender :=
  MkSender (<[k := copy]> (local_tensor_mapping t)) (compact_cache_offset t) (compact_cache t)
    (compact_cache_list t) (tensor_resharding_map t) (next_buffer t).

(** The section under the write lock: another thread may have made the copy. *)
Definition create_copy (tensor_key : ShardedKey) (src : source) : SR sender local_copy := fun t =>
  match local_tensor_mapping t !! tensor_key with
  | Some copy => (Ok copy, t)
  | None =>
      let bytes := source_bytes src in
      if u64 (small_tensor_size cfg) <? bytes then
        let copy := OwnBuffer (next_buffer t) (src_sizes src) (src_dtype src) in
        (Ok copy, with_copy (MkSender (local_tensor_mapping t) (compact_cache_offset t)
           (compact_cache t) (compact_cache_list t) (tensor_resharding_map t) (next_buffer t + 1))
           tensor_key copy)
      else
        match AlignStorageOffset (compact_cache_offset t) (src_dtype src) with
        | Ok aligned =>
            let full := u64 (small_tensor_compact_cache_size cfg) <? u64 (aligned + bytes) in
            let off := if full then 0 else i64 aligned in
            let buffer := if full then next_buffer t else compact_cache t in
            let element_size := i64 (itemsize (src_dtype src)) in
            let element_offset := Z.quot off element_size in
            let copy := CacheSlice buffer (Z.quot (small_tensor_compact_cache_size cfg) element_size)
                          element_offset (element_offset + src_numel src) (src_sizes src) (src_dtype src) in
            (Ok copy, with_copy (MkSender (local_tensor_mapping t) (i64 (off + i64 bytes)) buffer
               (if full then compact_cache_list t ++ [compact_cache t] else compact_cache_list t)
               (tensor_resharding_map t) (if full then next_buffer t + 1 else next_buffer t))
               tensor_key copy)
        | Throw e => (Throw e, t)
        | Undef => (Undef, t)
        end
  end.

Definition GetOrCreateLocalTensorCopy (tensor_key : ShardedKey) (src : source)
    : SR sender local_copy :=
  t ← sr_get;
  match local_tensor_mapping t !! tensor_key with
  | Some copy => mret copy
  | None => create_copy tensor_key src
  end.

(** ** Resharding *)

(** The loop; [split_num] is not negative, the counter is an [int]. *)
Fixpoint reshard_loop (tensor_key : ShardedKey) (split_size : Z) (n : nat) (i : Z)
    : result (list ReshardingInfo) :=
  match n with
  | O => Ok []
  | S n' =>
      o ← index (global_offset tensor_key) 1;
      o' ← chk64 (o + i64 (u64 (i * split_size)));
      offs ← index_set (global_offset tensor_key) 1 o';
      i' ← (if i + 1 <? 2 ^ 31 then Ok (i + 1) else Undef);
      rest ← reshard_loop tensor_key split_size n' i';
      Ok (MkReshardingInfo (MkShardedKey (key tensor_key) (global_shape tensor_key) offs) 1
            (u64 (i * split_size)) split_size :: rest)
  end.

(** [source_size] is [source_tensor.size(i)]. *)
Definition ReshardTensor (tensor_key : ShardedKey) (source_size : Z -> result Z)
    : result (list ReshardingInfo) :=
  if inference_tp_size cfg <=? 0 then Ok [] else
  origin ← source_size 1;
  g ← index (global_shape tensor_key) 1;
  let split_size := u64 (Z.quot g (inference_tp_size cfg)) in
  if split_size =? 0 then Undef else
  reshard_loop tensor_key split_size (Z.to_nat (u64 origin / split_size)) 0.

(** [narrow] of torch: the tensor restricted to a range of a dimension. *)
Context (source_size : source -> Z -> result Z) (narrow : source -> Z -> Z -> Z -> result source).

Definition with_resharding (t : sender) (k : ShardedKey) (infos : list ReshardingInfo) : sender :=
  MkSender (local_tensor_mapping t) (compact_cache_offset t) (compact_cache t)
    (compact_cache_list t) (<[k := infos]> (tensor_resharding_map t)) (next_buffer t).

Definition reshard_infos (tensor_key : ShardedKey) (src : source) : SR sender (list ReshardingInfo) :=
  t ← sr_get;
  match tensor_resharding_map t !! tensor_key with
  | Some infos => mret infos
  | None =>
      infos ← sr_lift (ReshardTensor tensor_key (source_size src));
      sr_modify (fun t => with_resharding t tensor_key infos);; mret infos
  end.

(** The pieces in the order of the loop; an equal key keeps the first. *)
Definition GetOrCreateLocalReshardTensors (tensor_key : ShardedKey) (src : source)
    : SR sender (list (ShardedKey * source)) :=
  if negb (IsTensorReshardingKey (resharding_keys cfg) tensor_key) ||
     (source_bytes src <=? u64 (small_tensor_size cfg)) then mret [(tensor_key, src)]
  else
    infos ← reshard_infos tensor_key src;
    if decide (infos = []) then mret [(tensor_key, src)]
    else sr_for_each (fun info acc =>
           piece ← sr_lift (narrow src (ri_dim_index info) (ri_start info) (ri_offset info));
           mret (if decide (ri_key info ∈ acc.*1) then acc else acc ++ [(ri_key info, piece)]))
         infos [].

(** ** Puts

    [TensorToATensor] of a local copy, after [copy_] of the source into it. *)
Context `{JsonLib} (env : pull_env) (pcfg : pull_config) (to_atensor : local_copy -> result ATensor).

Definition table_Put (seq_id : Z) (tensor_key : ShardedKey) (src : source)
    : SR (sender * pull_state) bool :=
  rethrow (copy ← on_fst (GetOrCreateLocalTensorCopy tensor_key src);
           atensor ← sr_lift (to_atensor copy);
           on_snd (Put env pcfg seq_id tensor_key atensor)).

(** The task of one tensor of [MultiPut]; the tasks run one after the other. *)
Definition put_task (pair : ShardedKey * source) (atensor_list : list (ShardedKey * ATensor))
    : SR sender (list (ShardedKey * ATensor)) :=
  pieces ← GetOrCreateLocalReshardTensors pair.1 pair.2;
  sr_for_each (fun piece acc =>
    copy ← GetOrCreateLocalTensorCopy piece.1 piece.2;
    atensor ← sr_lift (to_atensor copy);
    mret (acc ++ [(piece.1, atensor)])) pieces atensor_list.

Definition table_MultiPut (seq_id : Z) (tensor_list : list (ShardedKey * source))
    : SR (sender * pull_state) bool :=
  rethrow (atensor_list ← on_fst (sr_for_each put_task tensor_list []);
           on_snd (MultiPut env pcfg seq_id atensor_list)).
End Sender.

(** ** The compact cache: specification *)

(** The buffer a copy lies in and, for a slice, its bytes. *)
Definition copy_buffer (copy : local_copy) : Z :=
  match copy with OwnBuffer b _ _ | CacheSlice b _ _ _ _ _ => b end.

Section CompactCache.
Context (itemsize : ScalarType.t -> Z) (cfg : table_config).

Definition slice_bytes (copy : local_copy) : option (Z * Z) :=
  match copy with
  | OwnBuffer _ _ _ => None
  | CacheSlice _ _ start stop _ d => Some (start * itemsize d, stop * itemsize d)
  end.

(** Two copies share no byte. *)
Definition apart (c1 c2 : local_copy) : Prop :=
  copy_buffer c1 <> copy_buffer c2 \/
  match slice_bytes c1, slice_bytes c2 with
  | Some (lo1, hi1), Some (lo2, hi2) => hi1 <= lo2 \/ hi2 <= lo1
  | _, _ => False
  end.

(** A slice that torch takes as it is asked for: it lies inside of the
    elements of the buffer, and these inside of the buffer. *)
Definition slice_ok (copy : local_copy) : Prop :=
  match copy with
  | OwnBuffer _ _ _ => True
  | CacheSlice _ length start stop _ d =>
      0 <= start <= stop /\ stop <= length /\
      length * itemsize d <= small_tensor_compact_cache_size cfg
  end.

(** Torch's element sizes, and the sizes the options may ask for. *)
Record sizes_ok : Prop := {
  so_item d : 1 <= itemsize d <= 16;
  so_small : 0 <= small_tensor_size cfg <= small_tensor_compact_cache_size cfg;
  so_cache : small_tensor_compact_cache_size cfg <= 2 ^ 62;
}.

Definition source_ok (src : source) : Prop :=
  0 <= src_numel src /\ src_numel src * itemsize (src_dtype src) < 2 ^ 63.

Record cache_ok (t : sender) : Prop := {
  co_offset : 0 <= compact_cache_offset t <= small_tensor_compact_cache_size cfg;
  co_current : compact_cache t < next_buffer t;
  co_buffers : map_Forall (fun _ c => copy_buffer c < next_buffer t) (local_tensor_mapping t);
  co_slices : map_Forall (fun _ c => slice_ok c) (local_tensor_mapping t);
  co_below : map_Forall (fun _ c => copy_buffer c = compact_cache t ->
               exists lo hi, slice_bytes c = Some (lo, hi) /\ hi <= compact_cache_offset t)
               (local_tensor_mapping t);
  co_apart k1 k2 c1 c2 : k1 <> k2 -> local_tensor_mapping t !! k1 = Some c1 ->
    local_tensor_mapping t !! k2 = Some c2 -> apart c1 c2;
}.

Lemma apart_sym c1 c2 : apart c1 c2 -> apart c2 c1.
Proof.
  unfold apart. intros [?|Hd]; [by left; apply not_eq_sym|right].
  destruct (slice_bytes c1) as [[]|], (slice_bytes c2) as [[]|]; tauto.
Qed.

Lemma new_sender_ok t : sizes_ok -> new_sender cfg = Ok t -> cache_ok t.
Proof.
  intros [_ Hs _] Ht. unfold new_sender in Ht. do 2 ok_inv Ht. injection Ht as <-.
  split; cbn; [lia|lia|apply map_Forall_empty..|]. intros k1 k2 c1 c2 _. by rewrite lookup_empty.
Qed.

(** A copy in a buffer that is fresh, or behind everything in the current one. *)
Lemma cache_ok_add t k c off buffer lst next : cache_ok t ->
  local_tensor_mapping t !! k = None ->
  0 <= off <= small_tensor_compact_cache_size cfg -> buffer < next -> next_buffer t <= next ->
  copy_buffer c < next -> slice_ok c ->
  (buffer = compact_cache t \/ next_buffer t <= buffer) ->
  (buffer = compact_cache t -> compact_cache_offset t <= off) ->
  (copy_buffer c = buffer -> exists lo hi, slice_bytes c = Some (lo, hi) /\ hi <= off) ->
  (next_buffer t <= copy_buffer c \/
   (copy_buffer c = compact_cache t /\ exists lo hi, slice_bytes c = Some (lo, hi) /\
      compact_cache_offset t <= lo)) ->
  cache_ok (MkSender (<[k := c]> (local_tensor_mapping t)) off buffer lst (tensor_resharding_map t) next).
Proof.
  intros [Ho Hcur Hb Hsl Hbel Hap] Hk Hoff Hbuf Hnext Hcb Hc Hsame Hgrow Hin Hnew. split; cbn; auto.
  - apply map_Forall_insert_2; [done|]. intros k' c' Hc'. specialize (Hb k' c' Hc'). cbn in Hb. lia.
  - by apply map_Forall_insert_2.
  - apply map_Forall_insert_2; [done|]. intros k' c' Hc' Heq. specialize (Hb k' c' Hc'). cbn in Hb.
    assert (buffer = compact_cache t) as Hcc by lia.
    destruct (Hbel k' c' Hc' ltac:(lia)) as (lo & hi & ? & ?). exists lo, hi. split; [done|].
    specialize (Hgrow Hcc). lia.
  - assert (forall k' c', local_tensor_mapping t !! k' = Some c' -> apart c' c) as Hone.
    { intros k' c' Hc'. pose proof (Hb k' c' Hc') as Hlt. cbn in Hlt.
      destruct (decide (copy_buffer c' = copy_buffer c)) as [Heq|]; [right|by left].
      destruct Hnew as [|[Hcc (lo & hi & -> & Hlo)]]; [lia|].
      destruct (Hbel k' c' Hc') as (lo' & hi' & -> & Hhi'); [congruence|]. left. lia. }
    intros k1 k2 c1 c2 Hne. rewrite !lookup_insert_Some.
    intros [[<- <-]|[Hk1 H1]] [[? ?]|[Hk2 H2]]; subst; try done.
    + apply apart_sym. by eapply Hone.
    + by eapply Hone.
    + exact (Hap k1 k2 c1 c2 Hne H1 H2).
Qed.

Lemma align_storage_offset off d : sizes_ok -> 0 <= off <= 2 ^ 62 ->
  exists a, AlignStorageOffset itemsize off d = Ok a /\ off <= a < off + itemsize d /\
    a mod itemsize d = 0.
Proof.
  intros [Hi _ _] Ho. specialize (Hi d). unfold AlignStorageOffset.
  rewrite (proj2 (Z.eqb_neq (itemsize d) 0)) by lia.
  rewrite (u64_small off) by (unfold in_u64; lia).
  destruct (Z.eqb_spec (off mod itemsize d) 0) as [E|E]; [exists off; split; [done|lia]|].
  set (n := itemsize d) in *.
  assert (off + (n - 1) = n * ((off + (n - 1)) / n) + (off + (n - 1)) mod n) as Hdm by (apply Z.div_mod; lia).
  pose proof (Z.mod_pos_bound (off + (n - 1)) n ltac:(lia)).
  rewrite (u64_small (off + (n - 1))) by (unfold in_u64; lia).
  rewrite u64_small by (unfold in_u64; nia).
  eexists. split; [reflexivity|]. split; [lia|]. apply Z_mod_mult.
Qed.

(** The slice of [bytes] bytes at the aligned offset [off]. *)
Lemma slice_at_ok off numel sizes d b : sizes_ok -> 0 <= off -> off mod itemsize d = 0 -> 0 <= numel ->
  off + numel * itemsize d <= small_tensor_compact_cache_size cfg ->
  let c := CacheSlice b (Z.quot (small_tensor_compact_cache_size cfg) (itemsize d))
             (Z.quot off (itemsize d)) (Z.quot off (itemsize d) + numel) sizes d in
  slice_ok c /\ slice_bytes c = Some (off, off + numel * itemsize d).
Proof.
  intros Hsz Hoff Hmod Hnum Hfit. pose proof (so_item Hsz d) as Hitem. cbn.
  set (n := itemsize d) in *. rewrite !Z.quot_div_nonneg by lia.
  assert (off = n * (off / n)) as Hdiv by (rewrite (Z.div_mod off n) at 1 by lia; lia).
  split; [|f_equal; f_equal; lia]. split_and!.
  - apply Z.div_pos; lia.
  - lia.
  - apply Z.div_le_lower_bound; lia.
  - rewrite Z.mul_comm. apply Z.mul_div_le. lia.
Qed.

Lemma create_copy_spec t k src : sizes_ok -> source_ok src -> cache_ok t ->
  exists c t', create_copy itemsize cfg k src t = (Ok c, t') /\ cache_ok t' /\
    local_tensor_mapping t' !! k = Some c /\ local_tensor_mapping t ⊆ local_tensor_mapping t'.
Proof.
  intros Hsz [Hnum Hbytes] Hok. pose proof (so_item Hsz (src_dtype src)) as Hitem.
  pose proof (so_small Hsz) as Hsmall. pose proof (so_cache Hsz) as Hcache.
  pose proof (co_offset _ Hok) as Hoff. pose proof (co_current _ Hok) as Hcur.
  unfold create_copy. destruct (local_tensor_mapping t !! k) as [c|] eqn:Hk; [by exists c, t|].
  unfold source_bytes. rewrite (u64_small (src_numel src * _)) by (unfold in_u64; nia).
  rewrite (u64_small (small_tensor_size cfg)) by (unfold in_u64; lia).
  destruct (Z.ltb_spec (small_tensor_size cfg) (src_numel src * itemsize (src_dtype src))) as [Hbig|Hfit].
  - do 2 eexists. split; [reflexivity|]. cbn. split; [|by rewrite lookup_insert_eq; split; [|apply insert_subseteq]].
    apply (cache_ok_add t); cbn; auto; lia.
  - destruct (align_storage_offset (compact_cache_offset t) (src_dtype src) Hsz ltac:(lia)) as (a & -> & Ha & Hmod).
    rewrite (u64_small (small_tensor_compact_cache_size cfg)) by (unfold in_u64; lia).
    rewrite (u64_small (a + _)) by (unfold in_u64; nia).
    rewrite (i64_small (itemsize _)), (i64_small a), (i64_small (src_numel src * _)) by (unfold in_i64; nia).
    do 2 eexists. split; [reflexivity|]. cbn. split; [|by rewrite lookup_insert_eq; split; [|apply insert_subseteq]].
    destruct (Z.ltb_spec (small_tensor_compact_cache_size cfg) (a + src_numel src * itemsize (src_dtype src))).
    + destruct (slice_at_ok 0 (src_numel src) (src_sizes src) (src_dtype src) (next_buffer t) Hsz) as [Hs Hb];
        [lia|by rewrite Z.mod_0_l by lia|lia|lia|].
      rewrite i64_small by (unfold in_i64; nia). unfold with_copy; cbn; apply (cache_ok_add t); auto; cbn [copy_buffer]; try lia.
      intros _. do 2 eexists. split; [exact Hb|lia].
    + destruct (slice_at_ok a (src_numel src) (src_sizes src) (src_dtype src) (compact_cache t) Hsz) as [Hs Hb];
        [lia|done|lia|lia|].
      rewrite i64_small by (unfold in_i64; nia). unfold with_copy; cbn; apply (cache_ok_add t); auto; cbn [copy_buffer]; try nia.
      { intros _. do 2 eexists. split; [exact Hb|lia]. }
      right. split; [done|]. do 2 eexists. split; [exact Hb|lia].
Qed.

Lemma copy_spec t k src : sizes_ok -> source_ok src -> cache_ok t ->
  exists c t', GetOrCreateLocalTensorCopy itemsize cfg k src t = (Ok c, t') /\ cache_ok t' /\
    local_tensor_mapping t' !! k = Some c /\ local_tensor_mapping t ⊆ local_tensor_mapping t'.
Proof.
  intros Hsz Hsrc Hok. unfold GetOrCreateLocalTensorCopy, mbind, SR_bind, sr_get.
  destruct (local_tensor_mapping t !! k) as [c|] eqn:Hk; [by exists c, t|]. by apply create_copy_spec.
Qed.

(** A sequence of requests for copies, and what each returned. *)
Definition copies (calls : list (ShardedKey * source)) : SR sender (list (ShardedKey * local_copy)) :=
  sr_for_each (fun call acc =>
    c ← GetOrCreateLocalTensorCopy itemsize cfg call.1 call.2; mret (acc ++ [(call.1, c)])) calls [].

(** What was returned is still mapped. *)
Definition returned (t : sender) (acc : list (ShardedKey * local_copy)) : Prop :=
  Forall (fun kc => local_tensor_mapping t !! kc.1 = Some kc.2) acc.

Lemma copies_spec calls t acc : sizes_ok -> Forall (fun call => source_ok call.2) calls ->
  cache_ok t -> returned t acc ->
  exists acc' t', sr_for_each (fun call acc =>
      c ← GetOrCreateLocalTensorCopy itemsize cfg call.1 call.2; mret (acc ++ [(call.1, c)])) calls acc t
    = (Ok acc', t') /\ cache_ok t' /\ returned t' acc' /\ acc'.*1 = acc.*1 ++ calls.*1.
Proof.
  intros Hsz Hcalls. revert t acc. induction Hcalls as [|[k src] calls Hsrc _ IH]; intros t acc Hok Hret.
  { exists acc, t. split_and!; auto. by rewrite app_nil_r. }
  destruct (copy_spec t k src Hsz Hsrc Hok) as (c & t1 & E & Hok1 & Hk & Hsub).
  destruct (IH t1 (acc ++ [(k, c)])) as (acc' & t' & E' & ? & ? & Hkeys); [done| |].
  { apply Forall_app. split; [|by repeat constructor].
    eapply Forall_impl; [exact Hret|]. intros kc Hkc. cbn in *. exact (lookup_weaken _ _ _ _ Hkc Hsub). }
  exists acc', t'. cbn. unfold mbind, SR_bind in *. rewrite E. cbn. split_and!; auto.
  rewrite Hkeys, fmap_app, <- (assoc_L (++)). done.
Qed.

(** C24: the local copies of a sender.  For any sequence of requests, every request
    returns a copy; requests for the same tensor return the same copy; copies of
    different tensors share no byte; and a copy packed in a cache buffer is a slice that
    lies inside of that buffer at a multiple of its element size. *)
Theorem small_tensor_cache calls t0 :
  sizes_ok -> Forall (fun call => source_ok call.2) calls -> new_sender cfg = Ok t0 ->
  exists acc t, copies calls t0 = (Ok acc, t) /\ acc.*1 = calls.*1 /\
    Forall (fun kc => slice_ok kc.2) acc /\
    (forall k1 k2 c1 c2, (k1, c1) ∈ acc -> (k2, c2) ∈ acc ->
       if decide (k1 = k2) then c1 = c2 else apart c1 c2).
Proof.
  intros Hsz Hcalls H0. pose proof (new_sender_ok _ Hsz H0) as Hok0.
  destruct (copies_spec calls t0 [] Hsz Hcalls Hok0) as (acc & t & E & Hok & Hret & Hkeys); [constructor|].
  exists acc, t. unfold returned in Hret. rewrite Forall_forall in Hret. split_and!; auto.
  - apply Forall_forall. intros [k c] Hin. exact (co_slices _ Hok k c (Hret _ Hin)).
  - intros k1 k2 c1 c2 H1%Hret H2%Hret. cbn in *. destruct (decide (k1 = k2)); [congruence|].
    by eapply (co_apart _ Hok).
Qed.
End CompactCache.

Definition demo_itemsize (d : ScalarType.t) : Z :=
  match d with ScalarType.Byte | ScalarType.Char | ScalarType.Bool => 1
             | ScalarType.Half | ScalarType.BFloat16 => 2 | _ => 4 end.
Definition demo_table_config : table_config := MkTableConfig 64 32 128 4 {["qkv"%string]}.
Definition demo_calls : list (ShardedKey * source) :=
  [(MkShardedKey "a" [3] [0], Source [3] 3 ScalarType.Byte);
   (MkShardedKey "b" [7] [0], Source [7] 7 ScalarType.Float);
   (MkShardedKey "c" [16] [0], Source [16] 16 ScalarType.Half);
   (MkShardedKey "d" [100] [0], Source [100] 100 ScalarType.Float);
   (MkShardedKey "b" [7] [0], Source [7] 7 ScalarType.Float)].

Lemma demo_sizes_ok : sizes_ok demo_itemsize demo_table_config.
Proof. split; cbn; [|lia..]. intros []; cbn; lia. Qed.

Lemma small_tensor_cache_witness :
  exists acc t, copies demo_itemsize demo_table_config demo_calls (MkSender ∅ 0 0 [] ∅ 1) = (Ok acc, t) /\
    acc.*1 = demo_calls.*1 /\ Forall (fun kc => slice_ok demo_itemsize demo_table_config kc.2) acc /\
    (forall k1 k2 c1 c2, (k1, c1) ∈ acc -> (k2, c2) ∈ acc ->
       if decide (k1 = k2) then c1 = c2 else apart demo_itemsize c1 c2).
Proof.
  apply (small_tensor_cache demo_itemsize demo_table_config demo_calls).
  - apply demo_sizes_ok.
  - repeat constructor; cbn; lia.
  - reflexivity.
Defined.

(** ** Resharding: specification *)

(** The [i]-th piece of [split] columns of a tensor at column [o]. *)
Definition piece (k : ShardedKey) (o split i : Z) : ReshardingInfo :=
  MkReshardingInfo (MkShardedKey (key k) (global_shape k) (<[1%nat := o + i * split]> (global_offset k)))
    1 (i * split) split.

(** The columns of a piece. *)
Definition has_column (info : ReshardingInfo) (x : Z) : Prop :=
  ri_start info <= x < ri_start info + ri_offset info.

Lemma reshard_loop_spec k o split n i : global_offset k !! 1%nat = Some o -> 0 <= o -> 0 <= i ->
  0 < split -> o + (i + Z.of_nat n) * split < 2 ^ 63 -> i + Z.of_nat n < 2 ^ 31 ->
  reshard_loop k split n i = Ok (map (piece k o split) (seqZ i (Z.of_nat n))).
Proof.
  intros Ho Ho0 Hi Hs. revert i Hi. induction n as [|n IH]; intros i Hi Hb Hc; [done|].
  cbn [reshard_loop]. unfold index at 1. cbn [Z.ltb Z.compare]. change (Z.to_nat 1) with 1%nat. rewrite Ho.
  cbn [mbind result_bind]. rewrite (u64_small (i * split)) by (unfold in_u64; nia).
  rewrite (i64_small (i * split)) by (unfold in_i64; nia).
  unfold chk64. rewrite bool_decide_true by (unfold in_i64; nia). cbn [mbind result_bind].
  unfold index_set. cbn [Z.ltb Z.compare]. change (Z.to_nat 1) with 1%nat.
  rewrite (proj2 (Nat.ltb_lt _ _)) by (by eapply lookup_lt_Some). cbn [mbind result_bind].
  rewrite (proj2 (Z.ltb_lt _ _)) by lia. cbn [mbind result_bind]. rewrite IH by (lia || nia). cbn [mbind result_bind].
  replace (Z.of_nat (S n)) with (Z.succ (Z.of_nat n)) by lia.
  rewrite (seqZ_cons i) by lia. cbn [map]. rewrite Z.pred_succ. done.
Qed.

Lemma piece_column k o split i x : 0 < split -> has_column (piece k o split i) x <-> x / split = i.
Proof.
  intros Hs. unfold has_column. cbn. pose proof (Z.div_mod x split ltac:(lia)).
  pose proof (Z.mod_pos_bound x split Hs). split; [intros Hx|intros <-; lia].
  symmetry. apply (Z.div_unique x split i (x - split * i)); lia.
Qed.

(** C25: resharding a tensor by columns.  With [n] columns and pieces of [split] columns
    the pieces are the first [n / split] consecutive ranges, each with the global offset
    of its first column; a column before [n / split * split] is in exactly one piece, and
    a column after it, when [split] does not divide [n], is in none: it is not published.
    The pieces are counted in an [int]. *)
Theorem reshard_partition cfg k source_size n g o :
  0 < inference_tp_size cfg <= g -> global_shape k !! 1%nat = Some g ->
  global_offset k !! 1%nat = Some o -> source_size 1 = Ok n ->
  0 <= o -> 0 <= n -> o + n <= g -> g < 2 ^ 63 -> n / (g / inference_tp_size cfg) < 2 ^ 31 ->
  let split := g / inference_tp_size cfg in
  ReshardTensor cfg k source_size = Ok (map (piece k o split) (seqZ 0 (n / split))) /\
  (forall x, 0 <= x < n -> x < n / split * split -> forall i, 0 <= i < n / split ->
     has_column (piece k o split i) x <-> i = x / split) /\
  (forall x, 0 <= x < n -> n / split * split <= x -> forall i, 0 <= i < n / split ->
     ~ has_column (piece k o split i) x) /\
  (n mod split = 0 <-> n / split * split = n).
Proof.
  intros Htp Hg Ho Hn Ho0 Hn0 Hin Hmax Hcount split. fold split in Hcount.
  assert (0 < split) as Hs by (apply Z.div_str_pos; lia).
  assert (split <= g) as Hsg by (apply Z.div_le_upper_bound; nia).
  pose proof (Z.div_mod n split ltac:(lia)) as Hdm. pose proof (Z.mod_pos_bound n split Hs) as Hmod.
  split_and!.
  - unfold ReshardTensor. rewrite (proj2 (Z.leb_gt _ 0)) by lia. rewrite Hn. cbn [mbind result_bind].
    unfold index. cbn [Z.ltb Z.compare]. change (Z.to_nat 1) with 1%nat. rewrite Hg. cbn [mbind result_bind].
    rewrite Z.quot_div_nonneg by lia. fold split. rewrite (u64_small split) by (unfold in_u64; lia).
    rewrite (proj2 (Z.eqb_neq split 0)) by lia. rewrite (u64_small n) by (unfold in_u64; lia).
    assert (0 <= n / split) by (apply Z.div_pos; lia).
    rewrite (reshard_loop_spec k o) by (auto; rewrite ?Z2Nat.id by done; nia). by rewrite Z2Nat.id.
  - intros x Hx Hlt i Hi. rewrite piece_column by done. split; congruence.
  - intros x Hx Hge i Hi. rewrite piece_column by done. intros <-.
    assert (n / split <= x / split) by (apply Z.div_le_lower_bound; lia). lia.
  - lia.
Qed.

(** Eight columns of sixteen, on four inference nodes. *)
Lemma reshard_partition_witness :
  ReshardTensor demo_table_config (MkShardedKey "qkv" [2; 16] [0; 8]) (fun _ => Ok 8)
    = Ok (map (piece (MkShardedKey "qkv" [2; 16] [0; 8]) 8 4) (seqZ 0 2)).
Proof.
  apply (reshard_partition demo_table_config (MkShardedKey "qkv" [2; 16] [0; 8]) (fun _ => Ok 8) 8 16 8);
    first [reflexivity|cbn; lia].
Defined.
