(* ===== verification/RemoteRead.v ===== *)
(** * The remote tensor table: the receiver's half

    core/remote_tensor_table.h and .cpp, what an inference node runs: the plan
    of the remote shards a tensor is read from, the reads into a copy bucket,
    the copies into the target, the compact reads of small tensors, and the
    local cache that is filled before it is asked for.  A value of [T] is a
    torch tensor with its elements; torch's views of memory, and the tensors it
    allocates, are parameters.  The bytes in the copy bucket are what the
    transfers that were made have put there, one after the other. *)

From S2P Require Import Prelude StateResult StringUtils Tensor ShardedOps Messages Transfer Compact.
Local Open Scope Z_scope.

(** <raw key, adjusted key, tensor> *)
Record ShardedATensorTuple : Type := MkTuple {
  raw_key : ShardedKey; adjusted_key : ShardedKey; shard : ATensor;
}.

(** ** The plan of a read *)

(** [pair.first.key == sharded_key.key] *)
Definition candidates_of (metas : list (ShardedKey * ATensor)) (sharded_key : ShardedKey)
    : list (ShardedKey * ATensor) := filter (fun p => key p.1 = key sharded_key) metas.

(** The loop over the copy operations; [TryAdjustGlobalOffset] changes the
    tensor in the list. *)
Fixpoint collect_shards (prune : bool) (atensor_list : list (ShardedKey * ATensor))
    (ops : list CopyOperation) : result (list ShardedATensorTuple) :=
  match ops with
  | [] => Ok []
  | op :: ops' =>
      '(k, t) ← index atensor_list (candidate_index op);
      '(_, t', k') ← (if prune then TryAdjustGlobalOffset t (copy_shape op) (src_offset op) k
                      else Ok (false, t, k));
      atensor_list' ← index_set atensor_list (candidate_index op) (k, t');
      rest ← collect_shards prune atensor_list' ops';
      Ok (MkTuple k k' t' :: rest)
  end.

Definition remote_shards (metas : list (ShardedKey * ATensor)) (sharded_key : ShardedKey)
    (target_tensor : ATensor) (prune : bool) : result (list ShardedATensorTuple) :=
  let atensor_list := candidates_of metas sharded_key in
  ops ← FindCoveringCandidates atensor_list sharded_key target_tensor;
  collect_shards prune atensor_list ops.

(** ** The layout of a read in the copy bucket *)

(** [std::vector<int64_t>(p, p + dim_num)] *)
Definition dims_vector (p : option (list Z)) (dim_num : Z) : result (list Z) :=
  match p with
  | Some l => copy_array l dim_num
  | None => if dim_num =? 0 then Ok [] else Undef
  end.

(** [TensorToATensor] of [from_blob], with the storage offset of the shard;
    [blob_nbytes] are the bytes torch computes for the blob. *)
Definition blob_atensor (blob_nbytes : list Z -> list Z -> ScalarType.t -> Z) (ptr : Z) (t : ATensor) : result ATensor :=
  sizes ← dims_vector (at_size t) (dim_num t);
  strides ← dims_vector (at_stride t) (dim_num t);
  d ← ATDtypeToTorchDtype (dtype t);
  d' ← TorchDtypeToATDtype d;
  dev ← TorchDeviceToATDevice (MkTorchDevice TorchDeviceType.CPU (-1));
  Ok (MkATensor (Some sizes) (Some strides) (storage_offset t) (i32 (Z.of_nat (length sizes))) d'
        false false false (MkATStorage (blob_nbytes sizes strides d) dev ptr)).

(** The loop over the shards: the byte offset of each in the bucket of
    [total_size] bytes at [base], and the tensor the transfer is asked for. *)
Fixpoint place_shards (itemsize : ScalarType.t -> Z)
    (blob_nbytes : list Z -> list Z -> ScalarType.t -> Z) (base total_size offset : Z)
    (shards : list ShardedATensorTuple) : result (list (Z * ShardedATensorTuple * ATensor)) :=
  match shards with
  | [] => Ok []
  | sh :: rest =>
      b ← GetTensorTotalByteSize itemsize (shard sh);
      end_ ← chk64 (offset + i64 b);
      _ ← throw_if (total_size <? u64 end_) "Copy bucket memory size is too small for tensor ";
      a ← blob_atensor blob_nbytes (base + offset) (shard sh);
      ps ← place_shards itemsize blob_nbytes base total_size end_ rest;
      Ok ((offset, sh, a) :: ps)
  end.

(** ** The memory of a read *)

(** What a receive that succeeded leaves in the memory of this process; the
    transport copies the low 32 bits of the length ([receive_copies] of
    RdmaTransport.v).  [remote] is the memory of the peer behind a host and port. *)
Definition after_receive (remote : string -> Z -> Z -> Z) (m : Z -> Z) (a : action) : Z -> Z :=
  match a with
  | ActReceive local_addr len host port remote_addr => fun x =>
      if (local_addr <=? x) && (x <? local_addr + u32 len) then remote host port (remote_addr + (x - local_addr)) else m x
  | _ => m
  end.

Definition memory_after (remote : string -> Z -> Z -> Z) (acts : list action) (m : Z -> Z) : Z -> Z :=
  foldl (after_receive remote) m acts.

(** The calls made to the transports between two states. *)
Definition actions_since (s s' : pull_state) : list action := drop (length (io s)) (io s').

(** [torch::from_blob] with the sizes, the strides and the type of a shard. *)
Definition blob_view {T} (from_blob : (Z -> Z) -> Z -> list Z -> list Z -> ScalarType.t -> T)
    (m : Z -> Z) (ptr : Z) (t : ATensor) : result T :=
  sizes ← dims_vector (at_size t) (dim_num t);
  strides ← dims_vector (at_stride t) (dim_num t);
  d ← ATDtypeToTorchDtype (dtype t);
  Ok (from_blob m ptr sizes strides d).

(** ** State *)

Record receiver (T : Type) : Type := MkReceiver {
  shard_mapping : gmap ShardedKey (list ShardedATensorTuple);
  tensor_meta_list : option (list (ShardedKey * ATensor));
  local_cached_tensors : gmap ShardedKey (T * bool);
  local_cached_tensors_size : Z;
  compact_tensor_infos : list CompactTensorInfo;
  cached_small_tensor_shards : gmap ShardedKey ATensor;
  reading_tensors_meta : gmap ShardedKey ATensor;
  copy_task_counter : Z;
  copy_large_task_counter : Z;
}.
Arguments MkReceiver {T} _ _ _ _ _ _ _ _ _.
Arguments shard_mapping {T} _.
Arguments tensor_meta_list {T} _.
Arguments local_cached_tensors {T} _.
Arguments local_cached_tensors_size {T} _.
Arguments compact_tensor_infos {T} _.
Arguments cached_small_tensor_shards {T} _.
Arguments reading_tensors_meta {T} _.
Arguments copy_task_counter {T} _.
Arguments copy_large_task_counter {T} _.

Definition new_receiver {T} : receiver T := MkReceiver ∅ None ∅ 0 [] ∅ ∅ 0 0.

Section Setters.
Context {T : Type}.
Implicit Types r : receiver T.

Definition set_mapping m r : receiver T :=
  MkReceiver m (tensor_meta_list r) (local_cached_tensors r) (local_cached_tensors_size r)
    (compact_tensor_infos r) (cached_small_tensor_shards r) (reading_tensors_meta r)
    (copy_task_counter r) (copy_large_task_counter r).
Definition set_metas l r : receiver T :=
  MkReceiver (shard_mapping r) (Some l) (local_cached_tensors r) (local_cached_tensors_size r)
    (compact_tensor_infos r) (cached_small_tensor_shards r) (reading_tensors_meta r)
    (copy_task_counter r) (copy_large_task_counter r).
Definition set_cached m n r : receiver T :=
  MkReceiver (shard_mapping r) (tensor_meta_list r) m n
    (compact_tensor_infos r) (cached_small_tensor_shards r) (reading_tensors_meta r)
    (copy_task_counter r) (copy_large_task_counter r).
Definition set_compact infos shards r : receiver T :=
  MkReceiver (shard_mapping r) (tensor_meta_list r) (local_cached_tensors r)
    (local_cached_tensors_size r) infos shards (reading_tensors_meta r)
    (copy_task_counter r) (copy_large_task_counter r).
Definition set_reading m r : receiver T :=
  MkReceiver (shard_mapping r) (tensor_meta_list r) (local_cached_tensors r)
    (local_cached_tensors_size r) (compact_tensor_infos r) (cached_small_tensor_shards r) m
    (copy_task_counter r) (copy_large_task_counter r).
Definition set_counters a b r : receiver T :=
  MkReceiver (shard_mapping r) (tensor_meta_list r) (local_cached_tensors r)
    (local_cached_tensors_size r) (compact_tensor_infos r) (cached_small_tensor_shards r)
    (reading_tensors_meta r) a b.
End Setters.

(** [emplace] of [std::unordered_map] on the list of its entries. *)
Definition emplace_entry {V} (l : list (ShardedKey * V)) (k : ShardedKey) (v : V)
    : list (ShardedKey * V) := if decide (k ∈ l.*1) then l else l ++ [(k, v)].

Record receive_config : Type := MkReceiveConfig {
  rc_enable_prefetch : bool;
  rc_cached_size_limit : Z;
  rc_small_tensor_size : Z;
  rc_copy_bucket : Z;
  rc_copy_large_bucket : Z;
  rc_tp_size : Z;
}.

(** A copy bucket: the memory of [local_cache]. *)
Record bucket : Type := MkBucket { bk_data : Z; bk_bytes : Z }.

Record TorchTensorMeta : Type := MkTorchTensorMeta {
  tm_dtype : ScalarType.t; tm_size : list Z; tm_device : TorchDevice;
}.

Definition GetTorchTensorMeta (atensor : ATensor) : result TorchTensorMeta :=
  d ← ATDtypeToTorchDtype (dtype atensor);
  size ← dims_vector (at_size atensor) (dim_num atensor);
  dev ← ATDeviceToTorchDevice (device (storage atensor));
  Ok (MkTorchTensorMeta d size dev).

Section Receiver.
Context `{JsonLib} (env : pull_env) (pcfg : pull_config) (cfg : receive_config).

(** Torch: the sizes and the copy of ShardedOps.v; [TensorToATensor] and the
    byte size of a tensor; a CPU tensor of the sizes of another, not
    initialised; a zero tensor; the bytes [from_blob] claims. *)
Context {T : Type} (tensor_size : T -> Z -> result Z)
  (narrow_copy : T -> T -> list Z -> list Z -> list Z -> result T)
  (to_atensor : T -> result ATensor) (tensor_bytes : T -> Z)
  (empty_cpu : T -> T * ATStorage) (zero_tensor : TorchTensorMeta -> T)
  (blob_nbytes : list Z -> list Z -> ScalarType.t -> Z).

(** The tensor over some memory, as it is when it is copied; the memory of the
    peers, and what the memory of this process holds before a read. *)
Context (from_blob : (Z -> Z) -> Z -> list Z -> list Z -> ScalarType.t -> T)
  (remote_memory : string -> Z -> Z -> Z) (memory : Z -> Z).

(** The buckets of the two thread pools, and the order in which a map is visited. *)
Context (small_bucket large_bucket : bucket)
  (visit : list (ShardedKey * T) -> list (ShardedKey * T)).

Abbreviation R := (SR (receiver T * pull_state)).

Definition get_receiver : R (receiver T) := s ← sr_get; mret s.1.
Definition modify_receiver (f : receiver T -> receiver T) : R unit := sr_modify (fun s => (f s.1, s.2)).

(** *** Planning *)

Definition GetRemoteTensorShards (sharded_key : ShardedKey) (seq_id : Z) (target_tensor : ATensor)
    (try_prune_redundant_shard : bool) : R (list ShardedATensorTuple) :=
  r ← get_receiver;
  match shard_mapping r !! sharded_key with
  | Some shards => mret shards
  | None =>
      metas ← match tensor_meta_list r with
              | Some metas => mret metas
              | None =>
                  metas ← on_snd (GetAllTensorShards env pcfg seq_id (fun _ => true));
                  modify_receiver (set_metas metas);; mret metas
              end;
      ret ← sr_lift (remote_shards metas sharded_key target_tensor try_prune_redundant_shard);
      modify_receiver (fun r =>
        set_mapping (match shard_mapping r !! sharded_key with
                     | Some _ => shard_mapping r
                     | None => <[sharded_key := ret]> (shard_mapping r)
                     end) r);;
      r ← get_receiver;
      match shard_mapping r !! sharded_key with
      | Some shards => mret shards
      | None => sr_lift (Throw "Failed to get remote tensor shards for seq_id ")
      end
  end.

(** *** Reading *)

Definition GetLocalPrefetchCachedTensor (sharded_key : ShardedKey) (target_tensor : T) : R (option T) :=
  if negb (rc_enable_prefetch cfg) then mret None else
  r ← get_receiver;
  match local_cached_tensors r !! sharded_key with
  | Some (t, ready) => mret (if ready : bool then Some t else None)
  | None =>
      if local_cached_tensors_size r <? rc_cached_size_limit cfg then
        let '(t, st) := empty_cpu target_tensor in
        on_snd (PreRegisterMemory env pcfg st);;
        modify_receiver (fun r =>
          set_cached (<[sharded_key := (t, false)]> (local_cached_tensors r))
            (i64 (local_cached_tensors_size r + i64 (tensor_bytes t))) r);;
        mret None
      else mret None
  end.

Definition get_placed (seq_id : Z) (placed : list (Z * ShardedATensorTuple * ATensor)) : M unit :=
  for_each_M (fun p _ =>
    ok ← Get env pcfg seq_id (raw_key p.1.2) p.2;
    lift (throw_if (negb ok) "Failed to read tensor from remote for seq_id ")) placed ().

Definition ReadTensors (seq_id : Z) (sharded_key : ShardedKey) (target_tensor : T)
    (local_cache : bucket) : R (list (ShardedKey * T)) :=
  cached ← GetLocalPrefetchCachedTensor sharded_key target_tensor;
  match cached with
  | Some t => mret [(sharded_key, t)]
  | None =>
      target ← sr_lift (to_atensor target_tensor);
      shards ← GetRemoteTensorShards sharded_key seq_id target true;
      placed ← sr_lift (place_shards (itemsize env) blob_nbytes (bk_data local_cache)
                 (bk_bytes local_cache) 0 shards);
      before ← sr_get;
      on_snd (get_placed seq_id placed);;
      after ← sr_get;
      let m := memory_after remote_memory (actions_since before.2 after.2) memory in
      sr_lift (for_each (fun p acc =>
        t ← blob_view from_blob m (bk_data local_cache + p.1.1) (shard p.1.2);
        Ok (emplace_entry acc (adjusted_key p.1.2) t)) placed [])
  end.

(** The task of [SubmitTransferTask] on a bucket: the target after the copies. *)
Definition copy_task (seq_id : Z) (sharded_key : ShardedKey) (target_tensor : T) (local_cache : bucket)
    : R T :=
  tensors ← ReadTensors seq_id sharded_key target_tensor local_cache;
  sr_lift (copy_all tensor_size narrow_copy (visit tensors) sharded_key target_tensor).

Definition SubmitTransferTask (seq_id : Z) (sharded_key : ShardedKey) (target_tensor : T) : R T :=
  let cache_size_needed := u64 (tensor_bytes target_tensor * u64 (rc_tp_size cfg)) in
  if cache_size_needed <=? u64 (rc_copy_bucket cfg) then
    modify_receiver (fun r => set_counters (i32 (copy_task_counter r + 1)) (copy_large_task_counter r) r);;
    copy_task seq_id sharded_key target_tensor small_bucket
  else
    modify_receiver (fun r => set_counters (copy_task_counter r) (i32 (copy_large_task_counter r + 1)) r);;
    copy_task seq_id sharded_key target_tensor large_bucket.

Definition table_Get (seq_id : Z) (tensor_key : ShardedKey) (target_tensor : T) : R T :=
  rethrow (_ ← sr_lift (to_atensor target_tensor); SubmitTransferTask seq_id tensor_key target_tensor).

Definition table_GetTensor (seq_id : Z) (tensor_key : ShardedKey) (tensor_meta : TorchTensorMeta) : R T :=
  rethrow (let ret := zero_tensor tensor_meta in
           _ ← sr_lift (to_atensor ret); SubmitTransferTask seq_id tensor_key ret).

(** *** Compact reads of small tensors *)

(** The shards to ask for, in the order of their first use, and the targets of each. *)
Definition compact_plan (seq_id : Z) (small_tensors : list (ShardedKey * T))
    : R (list (ShardedKey * ATensor) * gmap ShardedKey (list ShardedKey)) :=
  sr_for_each (fun pair acc =>
    target ← sr_lift (to_atensor pair.2);
    candidates ← GetRemoteTensorShards pair.1 seq_id target false;
    mret (foldl (fun acc sh =>
            (emplace_entry acc.1 (raw_key sh) (shard sh),
             <[raw_key sh := default [] (acc.2 !! raw_key sh) ++ [pair.1]]> acc.2)) acc candidates))
    small_tensors ([], ∅).

(** The copies of one shard into its targets; the targets are in a list. *)
Definition copy_to_targets (shard_key : ShardedKey) (local_tensor : T) (keys : list ShardedKey)
    (targets : list (ShardedKey * T)) : result (list (ShardedKey * T)) :=
  for_each (fun tk targets =>
    map_result (fun kt : ShardedKey * T =>
      if decide (kt.1 = tk) then
        '(_, t') ← CopyTensorWithShardedKeysUnsafe tensor_size narrow_copy shard_key local_tensor tk kt.2;
        Ok (kt.1, t')
      else Ok kt) targets) keys targets.

(** The task of one compact info. *)
Definition compact_task (seq_id : Z) (target_map : gmap ShardedKey (list ShardedKey))
    (info : CompactTensorInfo) (targets : list (ShardedKey * T)) : R (list (ShardedKey * T)) :=
  dev ← sr_lift (TorchDeviceToATDevice (MkTorchDevice TorchDeviceType.CPU (-1)));
  before ← sr_get;
  ok ← on_snd (RawGet env pcfg seq_id (MkATStorage (bk_bytes small_bucket) dev (bk_data small_bucket))
                 (ci_node_info info) (ci_addr info) (ci_size info));
  sr_lift (throw_if (negb ok) "Failed to read tensor from remote for seq_id ");;
  after ← sr_get;
  let m := memory_after remote_memory (actions_since before.2 after.2) memory in
  sr_for_each (fun ka targets =>
    offset ← sr_lift (GetStorageByteOffset (itemsize env) (dtype ka.2) (storage_offset ka.2));
    local_tensor ← sr_lift (blob_view from_blob m (bk_data small_bucket + offset) ka.2);
    match target_map !! ka.1 with
    | None => sr_lift (Throw "unordered_map::at")
    | Some keys => sr_lift (copy_to_targets ka.1 local_tensor keys targets)
    end) (map_to_list (ci_atensors info)) targets.

Definition MultiGetCompactTensors (seq_id : Z) (small_tensors : list (ShardedKey * T))
    : R (bool * list (ShardedKey * T)) :=
  plan ← compact_plan seq_id small_tensors;
  r ← get_receiver;
  infos ← (if decide (compact_tensor_infos r = []) then
             infos ← on_snd (GetCompactTensorInfos env pcfg seq_id plan.1);
             modify_receiver (set_compact infos (list_to_map plan.1));; mret infos
           else mret (compact_tensor_infos r));
  targets ← sr_for_each (compact_task seq_id plan.2) infos small_tensors;
  mret (true, targets).

(** *** Batches *)

Definition UpdateReadingTensorsMeta (seq_id : Z) (tensor_key : ShardedKey) (tensor : T) : R unit :=
  if negb (seq_id =? -1) then mret tt else
  a ← sr_lift (to_atensor tensor);
  modify_receiver (fun r => set_reading (<[tensor_key := a]> (reading_tensors_meta r)) r).

(** A future: the exception of the task is thrown by [get]. *)
Definition submit {A} (m : R A) : R (result A) := fun s =>
  match m s with (Undef, s') => (Undef, s') | (r, s') => (Ok r, s') end.

(** The targets in the order given, after [shuffle]; the result pairs the keys
    with the targets that were written. *)
Definition table_MultiGet (seq_id : Z) (tensor_dict : list (ShardedKey * T))
    : R (bool * list (ShardedKey * T)) :=
  rethrow (
    parts ← sr_for_each (fun pair acc =>
      UpdateReadingTensorsMeta seq_id pair.1 pair.2;;
      if tensor_bytes pair.2 <=? u64 (rc_small_tensor_size cfg)
      then mret (emplace_entry acc.1 pair.1 pair.2, acc.2)
      else fut ← submit (SubmitTransferTask seq_id pair.1 pair.2);
           mret (acc.1, acc.2 ++ [(pair.1, fut)])) (visit tensor_dict) ([], []);
    small ← MultiGetCompactTensors seq_id parts.1;
    large ← sr_lift (map_result (fun kf : ShardedKey * result T => t ← kf.2; Ok (kf.1, t)) parts.2);
    mret (true, large ++ small.2)).

Definition table_MultiGetTensor (seq_id : Z) (tensor_meta_list : list (ShardedKey * TorchTensorMeta))
    : R (list (ShardedKey * T)) :=
  rethrow (
    futs ← sr_for_each (fun pair acc =>
      fut ← submit (SubmitTransferTask seq_id pair.1 (zero_tensor pair.2));
      mret (acc ++ [(pair.1, fut)])) tensor_meta_list [];
    sr_lift (map_result (fun kf : ShardedKey * result T => t ← kf.2; Ok (kf.1, t)) futs)).

Definition ScanTensorMeta (seq_id : Z) : R (list (string * TorchTensorMeta)) :=
  atensor_list ← on_snd (GetAllTensorShards env pcfg seq_id (fun _ => true));
  sr_lift (map_result (fun p : ShardedKey * ATensor =>
             m ← GetTorchTensorMeta p.2; Ok (key p.1, m)) atensor_list).

(** *** The end of a sequence *)

Definition clear_ready (m : gmap ShardedKey (T * bool)) : gmap ShardedKey (T * bool) :=
  fmap (fun e => (e.1, false)) m.

Definition table_Complete (fuel : nat) : R unit :=
  on_snd (Transfer.Complete env pcfg fuel);;
  modify_receiver (set_counters 0 0);;
  modify_receiver (fun r =>
    if rc_enable_prefetch cfg then set_cached (clear_ready (local_cached_tensors r)) (local_cached_tensors_size r) r
    else r).

(** *** Prefetching *)

Definition prefetch_list (r : receiver T) : list (ShardedKey * T) :=
  omap (fun e : ShardedKey * (T * bool) => if e.2.2 then None else Some (e.1, e.2.1))
    (map_to_list (local_cached_tensors r)).

(** The task of one cached tensor writes that tensor. *)
Definition prefetch_one (seq_id : Z) (pair : ShardedKey * T) : R (result unit) :=
  fut ← submit (SubmitTransferTask seq_id pair.1 pair.2);
  match fut with
  | Ok t =>
      modify_receiver (fun r =>
        set_cached (alter (fun e => (t, e.2)) pair.1 (local_cached_tensors r)) (local_cached_tensors_size r) r);;
      mret (Ok tt)
  | Throw e => mret (Throw e)
  | Undef => mret Undef
  end.

Definition mark_ready : R unit :=
  modify_receiver (fun r =>
    set_cached (fmap (fun e => (e.1, true)) (local_cached_tensors r)) (local_cached_tensors_size r) r).

Definition PrefetchCachedTensors (seq_id : Z) : R unit :=
  sr_catch (
    r ← get_receiver;
    futs ← sr_for_each (fun pair acc =>
             fut ← prefetch_one seq_id pair; mret (acc ++ [fut])) (prefetch_list r) [];
    sr_lift (map_result id futs);;
    mark_ready)
  (fun _ => mret tt).
End Receiver.

(** ** The prefetch cache *)

(** The prefetch thread marks tensors it never read.  It takes its list
    of cached tensors, reads them, and marks every tensor of the cache ready; a
    tensor that another thread has put into the cache in between is not in the
    list, has never been written, and is returned by the next read of its key. *)
Theorem prefetch_marks_unfilled env pcfg cfg {T : Type} (tensor_bytes : T -> Z) (empty_cpu : T -> T * ATStorage)
    k tgt tgt2 (r : receiver T) s st1 :
  rc_enable_prefetch cfg = true -> local_cached_tensors r !! k = None ->
  local_cached_tensors_size r < rc_cached_size_limit cfg ->
  GetLocalPrefetchCachedTensor env pcfg cfg tensor_bytes empty_cpu k tgt (r, s) = (Ok None, st1) ->
  (k ∉ (prefetch_list r).*1) /\
  exists st2, mark_ready st1 = (Ok (), st2) /\
    GetLocalPrefetchCachedTensor env pcfg cfg tensor_bytes empty_cpu k tgt2 st2 =
      (Ok (Some (empty_cpu tgt).1), st2).
Proof.
  intros Hen Hk Hsz H. split.
  - unfold prefetch_list. intros ([k' t] & -> & Hin)%list_elem_of_fmap.
    apply list_elem_of_omap in Hin as ([k'' [t' b]] & Hin & E). cbn in E. destruct b; [done|]. injection E as <- <-.
    apply elem_of_map_to_list in Hin. cbn in Hk. congruence.
  - unfold GetLocalPrefetchCachedTensor in *. rewrite Hen in *. cbn [negb] in *.
    unfold get_receiver, modify_receiver, mbind, SR_bind, sr_get, sr_modify, mret, SR_ret, on_snd in *. cbn [fst snd] in H.
    rewrite Hk, (proj2 (Z.ltb_lt _ _) Hsz) in H. destruct (empty_cpu tgt) as [t a] eqn:Et.
    destruct (PreRegisterMemory _ _ _ _) as [[b| |] s1]; [|discriminate H..].
    injection H as <-. eexists. split; [reflexivity|]. cbn.
    rewrite lookup_fmap, lookup_insert_eq. done.
Qed.

Definition demo_prefetch_config : receive_config := MkReceiveConfig true 4096 0 4096 4096 1.

Lemma prefetch_marks_unfilled_witness :
  let empty_cpu (t : fun_tensor) := ((t.1, fun _ => 99), MkATStorage 64 (MkATDevice ATDeviceType.CPU 0) 4096) in
  exists st1 st2,
    GetLocalPrefetchCachedTensor quiet_env (quiet_cfg demo_node []) demo_prefetch_config (fun _ => 64) empty_cpu
      demo_target ([2; 3], fun _ => 0) (new_receiver, pull_init true true) = (Ok None, st1) /\
    mark_ready st1 = (Ok (), st2) /\
    GetLocalPrefetchCachedTensor quiet_env (quiet_cfg demo_node []) demo_prefetch_config (fun _ => 64) empty_cpu
      demo_target ([2; 3], fun _ => 0) st2 = (Ok (Some ([2; 3], fun _ => 99)), st2).
Proof.
  intros empty_cpu. eexists.
  destruct (prefetch_marks_unfilled quiet_env (quiet_cfg demo_node []) demo_prefetch_config (fun _ => 64) empty_cpu
    demo_target ([2; 3], fun _ => 0) ([2; 3], fun _ => 0) new_receiver (pull_init true true) _ eq_refl eq_refl
    ltac:(reflexivity) ltac:(reflexivity)) as [_ (st2 & E1 & E2)].
  exists st2. split; [reflexivity|]. split; [exact E1|exact E2].
Defined.
