(* ===== verification/Convert.v ===== *)
(** * Torch tensors and ATensors

    The conversions of core/utils.h: a torch tensor to an [ATensor] that
    describes it, an [ATensor] to a new torch tensor with its elements, and the
    copy of the elements of one tensor into another.  Torch is an interface: a
    tensor is its metadata over a storage in memory, and allocation, copies and
    negation are operations on the memory, with laws.

    The theorems show that an [ATensor] describes its tensor, that converting
    there and back keeps every element, lazy conjugation and negation
    included, when a copy changes its destination, and that the blob of a read
    in RemoteRead.v is described as the conversion would describe it. *)

From S2P Require Import Prelude StateResult Tensor RemoteRead.
Local Open Scope Z_scope.

(** ** Torch *)

(** A tensor: its shape over a storage, and the bits of its lazy operations. *)
Record torch_tensor : Type := MkTorchTensor {
  tt_sizes : list Z;
  tt_strides : list Z;
  tt_offset : Z;
  tt_dtype : ScalarType.t;
  tt_device : TorchDevice;
  tt_conj : bool;
  tt_neg : bool;
  tt_grad : bool;
  tt_nbytes : Z; (* of the storage *)
  tt_data : Z; (* address of the storage *)
}.

Definition numel (t : torch_tensor) : Z := prod_list (tt_sizes t).

Definition set_storage_offset (offset : Z) (t : torch_tensor) : torch_tensor :=
  MkTorchTensor (tt_sizes t) (tt_strides t) offset (tt_dtype t) (tt_device t) (tt_conj t) (tt_neg t) (tt_grad t)
    (tt_nbytes t) (tt_data t).

Class Torch (W : Type) : Type := {
  zeros : list Z -> ScalarType.t -> TorchDevice -> SR W torch_tensor;
  from_blob : Z -> list Z -> list Z -> ScalarType.t -> TorchDevice -> result torch_tensor;
  copy_ : torch_tensor -> torch_tensor -> SR W unit;
  set_requires_grad : bool -> torch_tensor -> result torch_tensor;
  conj : torch_tensor -> torch_tensor;
  neg : torch_tensor -> SR W torch_tensor;
}.

(** The coordinates of a shape. *)
Definition coord (sizes c : list Z) : Prop := Forall2 (fun n x => 0 <= x < n) sizes c.

(** The same shape, type, device and gradient bit. *)
Definition same_kind (t u : torch_tensor) : Prop :=
  tt_sizes t = tt_sizes u /\ tt_dtype t = tt_dtype u /\ tt_device t = tt_device u /\ tt_grad t = tt_grad u.

(** [cell w p d i]: element [i] of the type [d] in the storage at [p].  [value]
    is the element a tensor shows at a coordinate. *)
Class TorchLaws (W V : Type) `{Torch W} : Type := {
  conj_value : V -> V;
  neg_value : V -> V;
  cell : W -> Z -> ScalarType.t -> Z -> V;
  allocated : W -> Z -> Prop;
  value (w : W) (t : torch_tensor) (c : list Z) : V :=
    let v := cell w (tt_data t) (tt_dtype t) (tt_offset t + dot (tt_strides t) c) in
    let v := if tt_conj t then conj_value v else v in if tt_neg t then neg_value v else v;
  zeros_law sizes d dev w t w' : zeros sizes d dev w = (Ok t, w') ->
    tt_sizes t = sizes /\ tt_dtype t = d /\ tt_device t = dev /\ tt_conj t = false /\ tt_neg t = false /\ tt_grad t = false /\
    forall p, allocated w p -> allocated w' p /\ (forall d i, cell w' p d i = cell w p d i) /\ (Forall (Z.lt 0) sizes -> tt_data t <> p);
  from_blob_law p sizes strides d dev t : from_blob p sizes strides d dev = Ok t ->
    exists nbytes, t = MkTorchTensor sizes strides 0 d dev false false false nbytes p;
  copy_law dst src w w' : copy_ dst src w = (Ok tt, w') -> tt_sizes src = tt_sizes dst -> tt_dtype src = tt_dtype dst ->
    (forall c, coord (tt_sizes dst) c -> value w' dst c = value w src c) /\
    forall p, allocated w p -> allocated w' p /\ (p <> tt_data dst -> forall d i, cell w' p d i = cell w p d i);
  grad_law b t t' : set_requires_grad b t = Ok t' ->
    t' = MkTorchTensor (tt_sizes t) (tt_strides t) (tt_offset t) (tt_dtype t) (tt_device t) (tt_conj t) (tt_neg t) b (tt_nbytes t) (tt_data t);
  conj_law w t : same_kind (conj t) t /\ tt_data (conj t) = tt_data t /\ forall c, value w (conj t) c = conj_value (value w t c);
  neg_law w t t' w' : neg t w = (Ok t', w') ->
    same_kind t' t /\ (forall c, coord (tt_sizes t) c -> value w' t' c = neg_value (value w t c)) /\
    forall p, allocated w p -> forall d i, cell w' p d i = cell w p d i;
}.

(** ** From torch *)

(** [catch (const std::exception& e) { throw std::runtime_error(message + e.what()); }] *)
Definition prefixed {A} (message : string) (r : result A) : result A :=
  match r with Throw e => Throw (message ++ e) | _ => r end.

Definition TensorStorageToATStorage (tensor : torch_tensor) : result ATStorage :=
  prefixed "Failed to convert tensor storage to ATStorage: " (
    atdevice ← TorchDeviceToATDevice (tt_device tensor);
    Ok (MkATStorage (tt_nbytes tensor) atdevice (tt_data tensor))).

(** [for (i < dim_num) array[i] = values[i]] *)
Definition fill_array (values array : list Z) (dim_num : Z) : result (list Z) :=
  for_each (fun i l => x ← index values i; index_set l i x) (seqZ 0 dim_num) array.

Definition TensorToATensor (tensor : torch_tensor) : result ATensor :=
  prefixed "Failed to convert torch::Tensor to ATensor: " (
    let sizes := tt_sizes tensor in
    let strides := tt_strides tensor in
    let dim_num := i32 (Z.of_nat (length sizes)) in
    atdtype ← TorchDtypeToATDtype (tt_dtype tensor);
    size_array ← fill_array sizes sizes dim_num;
    stride_array ← fill_array strides strides dim_num;
    storage ← TensorStorageToATStorage tensor;
    ATensor_new size_array stride_array (tt_offset tensor) dim_num atdtype (tt_conj tensor) (tt_neg tensor) storage
      (tt_grad tensor)).

Definition TensorsToATensors (tensors : list torch_tensor) : result (list ATensor) := map_result TensorToATensor tensors.

Definition GetTensorItemSize (itemsize : ScalarType.t -> Z) (tensor : torch_tensor) : Z := itemsize (tt_dtype tensor).

(** *** Python objects *)

(** An object given as a tensor. *)
Inductive pyobj (T : Type) : Type := PyTensor (x : T) | PyNone | NotATensor.
Arguments PyTensor {T} x.
Arguments PyNone {T}.
Arguments NotATensor {T}.

(** The pointer is cast without a look at the type of the object. *)
Definition PyObjectToTensor {T} (py_obj : pyobj T) : result T :=
  match py_obj with
  | PyTensor x => Ok x
  | PyNone => Throw "Failed to convert py::object to torch::Tensor: Cannot convert None to torch::Tensor"
  | NotATensor => Undef
  end.

Definition IsTensorObject {T} (py_obj : pyobj T) : result bool :=
  match py_obj with
  | PyNone => Ok false
  | _ => match PyObjectToTensor py_obj with Ok _ => Ok true | Throw _ => Ok false | Undef => Undef end
  end.

(** ** To torch *)

Section ToTorch.
  Context {W : Type} `{Torch W}.

Definition sr_prefixed {A} (message : string) (m : SR W A) : SR W A := fun w => let '(r, w') := m w in (prefixed message r, w').

Definition ATStorageToTensor (atstorage : ATStorage) (sizes strides : list Z) (storage_offset : Z) (dtype : ScalarType.t)
    (device : TorchDevice) : SR W torch_tensor :=
  sr_prefixed "Failed to convert ATStorage to tensor: " (
    tensor ← zeros sizes dtype device;
    tmp_tensor ← sr_lift (from_blob (data atstorage) sizes strides dtype device);
    _ ← copy_ tensor (set_storage_offset storage_offset tmp_tensor);
    mret tensor).

Definition ATensorToTensor (atensor : ATensor) : SR W torch_tensor :=
  sr_prefixed "Failed to convert ATensor to torch::Tensor: " (
    scalar_type ← sr_lift (ATDtypeToTorchDtype (dtype atensor));
    device ← sr_lift (ATDeviceToTorchDevice (device (storage atensor)));
    sizes ← sr_lift (dims_vector (at_size atensor) (dim_num atensor));
    strides ← sr_lift (dims_vector (at_stride atensor) (dim_num atensor));
    tensor ← ATStorageToTensor (storage atensor) sizes strides (storage_offset atensor) scalar_type device;
    tensor ← (if requires_grad atensor then sr_lift (set_requires_grad true tensor) else mret tensor);
    let tensor := if at_conj atensor then conj tensor else tensor in
    if at_neg atensor then neg tensor else mret tensor).

Fixpoint ATensorsToTensors (atensors : list ATensor) : SR W (list torch_tensor) :=
  match atensors with
  | [] => mret []
  | atensor :: rest => t ← ATensorToTensor atensor; ts ← ATensorsToTensors rest; mret (t :: ts)
  end.

(** The numbers in the messages are left out. *)
Definition CopyTensorStorage (source_tensor : torch_tensor) (dest_py_obj : pyobj torch_tensor) : SR W unit :=
  sr_prefixed "Failed to copy tensor storage: " (
    dest_tensor ← sr_lift (PyObjectToTensor dest_py_obj);
    _ ← sr_lift (throw_if (negb (numel source_tensor =? numel dest_tensor))
                   "Source and destination tensors must have the same number of elements. ");
    _ ← sr_lift (throw_if (negb (bool_decide (tt_dtype source_tensor = tt_dtype dest_tensor)))
                   "Source and destination tensors must have the same data type. ");
    copy_ dest_tensor source_tensor).
End ToTorch.

(** ** An ATensor describes its tensor *)

(** Shapes that fit a 32-bit count of dimensions. *)
Definition shaped (t : torch_tensor) : Prop :=
  length (tt_strides t) = length (tt_sizes t) /\ Z.of_nat (length (tt_sizes t)) < 2 ^ 31.

Lemma fill_array_id (l : list Z) n : length l = n -> fill_array l l (Z.of_nat n) = Ok l.
Proof. intros <-. unfold fill_array. rewrite overwrite_loop by done. by rewrite firstn_all, drop_all, app_nil_r. Qed.

Lemma copy_array_all (l : list Z) n : Z.of_nat (length l) = n -> copy_array l n = Ok l.
Proof. intros <-. unfold copy_array. rewrite Z.leb_refl, Nat2Z.id. by rewrite firstn_all. Qed.

Lemma device_back v v' : TorchDeviceToATDevice v = Ok v' -> ATDeviceToTorchDevice v' = Ok v.
Proof. destruct v as [[]]; by intros [= <-]. Qed.

(** The conversion of a tensor of a supported type on a supported device. *)
Lemma TensorToATensor_Ok t d dev : shaped t ->
  TorchDtypeToATDtype (tt_dtype t) = Ok d -> TorchDeviceToATDevice (tt_device t) = Ok dev ->
  TensorToATensor t = Ok (MkATensor (Some (tt_sizes t)) (Some (tt_strides t)) (tt_offset t) (Z.of_nat (length (tt_sizes t))) d
    (tt_conj t) (tt_neg t) (tt_grad t) (MkATStorage (tt_nbytes t) dev (tt_data t))).
Proof.
  intros [Hl Hn] Hd Hdev. unfold TensorToATensor. rewrite i32_small by (unfold in_i32; lia). rewrite Hd. cbn [mbind result_bind].
  rewrite !fill_array_id by done. cbn [mbind result_bind].
  unfold TensorStorageToATStorage. rewrite Hdev. cbn [mbind result_bind prefixed]. unfold ATensor_new.
  by rewrite !copy_array_all by (done || lia).
Qed.

(** An ATensor describes the tensor it was made of: it has its shape and its
    storage, finds every element at the same position of the storage, and the
    metadata from which a reader makes a tensor are the type, sizes and device
    of the tensor.  Only types and devices that have no counterpart are refused. *)
Theorem atensor_describes (t : torch_tensor) : shaped t ->
  match TorchDtypeToATDtype (tt_dtype t), TorchDeviceToATDevice (tt_device t) with
  | Ok d, Ok dev => exists a, TensorToATensor t = Ok a /\
      at_size a = Some (tt_sizes t) /\ dim_num a = Z.of_nat (length (tt_sizes t)) /\ dtype a = d /\
      storage a = MkATStorage (tt_nbytes t) dev (tt_data t) /\
      (forall c, elem_pos a c = tt_offset t + dot (tt_strides t) c) /\
      GetTorchTensorMeta a = Ok (MkTorchTensorMeta (tt_dtype t) (tt_sizes t) (tt_device t))
  | _, _ => exists e, TensorToATensor t = Throw e
  end.
Proof.
  intros Ht. destruct (TorchDtypeToATDtype (tt_dtype t)) as [d|e|] eqn:Hd.
  2: { exists ("Failed to convert torch::Tensor to ATensor: " ++ e)%string. unfold TensorToATensor. by rewrite Hd. }
  2: { by destruct (tt_dtype t). }
  destruct (TorchDeviceToATDevice (tt_device t)) as [dev|e|] eqn:Hdev.
  - eexists. split; [by apply TensorToATensor_Ok|]. do 4 (split; [done|]). split; [done|].
    unfold GetTorchTensorMeta. cbn [dtype at_size dim_num storage device]. rewrite (dtype_back _ _ Hd), (device_back _ _ Hdev).
    cbn [mbind result_bind dims_vector]. by rewrite copy_array_all.
  - destruct Ht as [Hl Hn]. eexists. unfold TensorToATensor. rewrite i32_small by (unfold in_i32; lia). rewrite Hd. cbn [mbind result_bind].
    rewrite !fill_array_id by done. cbn [mbind result_bind].
    unfold TensorStorageToATStorage. rewrite Hdev. reflexivity.
  - by destruct (tt_device t) as [[]].
Qed.

(** The description of the blob a shard is read into is the conversion of that
    blob, with the storage offset of the shard. *)
Theorem blob_is_converted (blob_nbytes : list Z -> list Z -> ScalarType.t -> Z) (ptr : Z) (t : ATensor) : dim_num t < 2 ^ 31 ->
  blob_atensor blob_nbytes ptr t =
  (sizes ← dims_vector (at_size t) (dim_num t);
   strides ← dims_vector (at_stride t) (dim_num t);
   d ← ATDtypeToTorchDtype (dtype t);
   a ← TensorToATensor (MkTorchTensor sizes strides 0 d (MkTorchDevice TorchDeviceType.CPU (-1)) false false false
         (blob_nbytes sizes strides d) ptr);
   Ok (MkATensor (at_size a) (at_stride a) (storage_offset t) (dim_num a) (dtype a) (at_conj a) (at_neg a) (requires_grad a) (storage a))).
Proof.
  intros Hn. unfold blob_atensor.
  destruct (dims_vector (at_size t) (dim_num t)) as [sizes| |] eqn:Es; [|done..]. cbn [mbind result_bind].
  destruct (dims_vector (at_stride t) (dim_num t)) as [strides| |] eqn:Est; [|done..]. cbn [mbind result_bind].
  destruct (ATDtypeToTorchDtype (dtype t)) as [d| |] eqn:Ed; [|done..]. cbn [mbind result_bind].
  assert (Hlen : forall p l, dims_vector p (dim_num t) = Ok l -> length l = Z.to_nat (dim_num t)).
  { unfold dims_vector, copy_array. intros [l'|] l; [|case_match; [intros [= <-]; cbn; lia|done]].
    case_match; [|done]. intros [= <-]. rewrite length_take. lia. }
  apply Hlen in Es. apply Hlen in Est. rewrite (dtype_forth _ _ Ed). cbn [mbind result_bind].
  rewrite (TensorToATensor_Ok _ (dtype t) (MkATDevice ATDeviceType.CPU (-1)));
    [|split; cbn; [congruence|lia]|by apply dtype_forth|done].
  cbn. by rewrite i32_small by (unfold in_i32; lia).
Qed.

(** ** There and back *)

Section RoundTrip.
  Context {W V : Type} `{TorchLaws W V}.

(** Torch makes tensors of the shape, type and device of [t], and does on tensors
    of its type what [t] needs. *)
Definition serves (t : torch_tensor) : Prop :=
  (exists x, from_blob (tt_data t) (tt_sizes t) (tt_strides t) (tt_dtype t) (tt_device t) = Ok x) /\
  (forall w, exists x w1, zeros (tt_sizes t) (tt_dtype t) (tt_device t) w = (Ok x, w1) /\
     forall src, tt_sizes src = tt_sizes x -> tt_dtype src = tt_dtype x -> exists w2, copy_ x src w1 = (Ok tt, w2)) /\
  (tt_grad t = true -> forall u, tt_dtype u = tt_dtype t -> exists u', set_requires_grad true u = Ok u') /\
  (tt_neg t = true -> forall u w, tt_sizes u = tt_sizes t -> tt_dtype u = tt_dtype t -> exists u' w', neg u w = (Ok u', w')).

(** A coordinate is only of shapes without an empty dimension. *)
Lemma coord_positive sizes c : coord sizes c -> Forall (Z.lt 0) sizes.
Proof. induction 1; constructor; [lia|done]. Qed.

(** The value under the lazy bits. *)
Definition plain (t : torch_tensor) : torch_tensor :=
  MkTorchTensor (tt_sizes t) (tt_strides t) (tt_offset t) (tt_dtype t) (tt_device t) false false false (tt_nbytes t) (tt_data t).

Lemma value_plain w t c : value w t c =
  (let v := if tt_conj t then conj_value (value w (plain t) c) else value w (plain t) c in if tt_neg t then neg_value v else v).
Proof. done. Qed.

Lemma ATStorageToTensor_copies (t : torch_tensor) (dev : ATDevice) (w : W) : serves t -> allocated w (tt_data t) ->
  exists x w', ATStorageToTensor (MkATStorage (tt_nbytes t) dev (tt_data t)) (tt_sizes t) (tt_strides t) (tt_offset t)
                 (tt_dtype t) (tt_device t) w = (Ok x, w') /\
    same_kind x (plain t) /\ tt_conj x = false /\ tt_neg x = false /\ allocated w' (tt_data t) /\
    forall c, coord (tt_sizes t) c -> value w' x c = value w (plain t) c /\
      forall d i, cell w' (tt_data t) d i = cell w (tt_data t) d i.
Proof.
  intros ([b Hb] & Hz & _) Ha. destruct (Hz w) as (x & w1 & Ez & Hcopy).
  apply from_blob_law in Hb as Hb'. destruct Hb' as [nbytes ->].
  pose proof (zeros_law _ _ _ _ _ _ Ez) as (Hs & Hd & Hdev & Hc & Hn & Hg & Hfr). destruct (Hfr _ Ha) as (Ha1 & Hcell & Hfresh).
  destruct (Hcopy (set_storage_offset (tt_offset t) (MkTorchTensor (tt_sizes t) (tt_strides t) 0 (tt_dtype t) (tt_device t)
    false false false nbytes (tt_data t)))) as [w2 Ec]; [by rewrite Hs|by rewrite Hd|].
  exists x, w2. split.
  - unfold ATStorageToTensor, sr_prefixed, mbind, SR_bind. rewrite Ez. cbn [sr_lift data]. rewrite Hb. cbn [sr_lift]. by rewrite Ec.
  - destruct (copy_law _ _ _ _ Ec) as [Hv Hw]; [by rewrite Hs|by rewrite Hd|]. destruct (Hw _ Ha1) as [Ha2 Hcell2].
    split; [split_and!; cbn; congruence|]. do 2 (split; [done|]). split; [done|]. intros c Hin.
    specialize (Hfresh (coord_positive _ _ Hin)). split.
    + rewrite Hv by (by rewrite Hs). unfold value. cbn. apply Hcell.
    + intros d i. rewrite Hcell2 by congruence. apply Hcell.
Qed.

(** What follows the copy: the gradient bit and the lazy operations. *)
Lemma grad_kind (t x : torch_tensor) (w : W) : serves t -> same_kind x (plain t) ->
  exists y, (if tt_grad t then sr_lift (set_requires_grad true x) else mret x) w = (Ok y, w) /\
    same_kind y t /\ forall w' c, value w' y c = value w' x c.
Proof.
  intros (_ & _ & Hg & _) (Hs & Hd & Hdev & Hgx). cbn in Hs, Hd, Hdev, Hgx. destruct (tt_grad t) eqn:Eg.
  - destruct (Hg eq_refl x Hd) as [y Hy]. exists y. split; [unfold sr_lift; by rewrite Hy|]. apply grad_law in Hy as ->.
    split; [split_and!; cbn; congruence|done].
  - exists x. split; [done|]. split; [split_and!; congruence|done].
Qed.

Lemma lazy_kind (t y : torch_tensor) (w : W) : serves t -> same_kind y t ->
  exists z w', (if tt_neg t then neg (if tt_conj t then conj y else y) else mret (if tt_conj t then conj y else y)) w = (Ok z, w') /\
    same_kind z t /\
    (forall c, coord (tt_sizes t) c -> value w' z c =
       let v := if tt_conj t then conj_value (value w y c) else value w y c in if tt_neg t then neg_value v else v) /\
    forall p, allocated w p -> forall d i, cell w' p d i = cell w p d i.
Proof.
  intros (_ & _ & _ & Hn) Hy. set (u := if tt_conj t then conj y else y).
  assert (same_kind u t /\ forall c, value w u c = if tt_conj t then conj_value (value w y c) else value w y c) as [Hu Hv].
  { unfold u. destruct (tt_conj t); [|done]. destruct (conj_law w y) as ((? & ? & ? & ?) & _ & Hv). destruct Hy as (? & ? & ? & ?).
    split; [split_and!; congruence|exact Hv]. }
  destruct (tt_neg t) eqn:En.
  - destruct (Hn eq_refl u w) as (z & w' & Ez); [by destruct Hu|by destruct Hu as (_ & ? & _)|]. exists z, w'. split; [exact Ez|].
    destruct (neg_law _ _ _ _ Ez) as ((? & ? & ? & ?) & Hvz & Hfr). destruct Hu as (Hs & ? & ? & ?).
    split; [split_and!; congruence|]. split; [|exact Hfr]. intros c Hc. rewrite Hvz by (by rewrite Hs). by rewrite Hv.
  - exists u, w. split; [done|]. split; [done|]. split; [|done]. intros c _. apply Hv.
Qed.
End RoundTrip.

(** C26: converting there and back.  For a tensor of a supported type and device, over
    a torch that can make such tensors, both conversions return; the new tensor
    has the shape, type, device and gradient bit of the first, every element has
    its value, lazy conjugation and negation included, and the first tensor is
    left as it was. *)
Theorem convert_roundtrip {W V} `{TorchLaws W V} (t : torch_tensor) (d : ATDtype.t) (dev : ATDevice) (w : W) : shaped t ->
  TorchDtypeToATDtype (tt_dtype t) = Ok d -> TorchDeviceToATDevice (tt_device t) = Ok dev ->
  serves t -> allocated w (tt_data t) ->
  exists a t' w', TensorToATensor t = Ok a /\ ATensorToTensor a w = (Ok t', w') /\ same_kind t' t /\
    forall c, coord (tt_sizes t) c -> value w' t' c = value w t c /\ value w' t c = value w t c.
Proof.
  intros Ht Hd Hdev Hs Ha.
  destruct (ATStorageToTensor_copies t dev w Hs Ha) as (x & w1 & Ex & Hk & _ & _ & Ha1 & Hx).
  destruct (grad_kind t x w1 Hs Hk) as (y & Ey & Hky & Hvy). destruct (lazy_kind t y w1 Hs Hky) as (z & w2 & Ez & Hkz & Hvz & Hfr).
  eexists _, z, w2. split; [by apply TensorToATensor_Ok|]. split; [|split; [exact Hkz|]].
  - unfold ATensorToTensor, sr_prefixed, mbind, SR_bind, sr_lift. cbn [dtype storage device at_size at_stride dim_num requires_grad at_conj at_neg storage_offset].
    rewrite (dtype_back _ _ Hd), (device_back _ _ Hdev). cbn [dims_vector]. rewrite !copy_array_all by (destruct Ht; lia).
    rewrite Ex. change (fun s => (set_requires_grad true x, s)) with (sr_lift (S := W) (set_requires_grad true x)). rewrite Ey. by rewrite Ez.
  - intros c Hc. destruct (Hx c Hc) as [Hxc Hcell]. split.
    + rewrite Hvz, Hvy, Hxc by done. by rewrite (value_plain w t).
    + unfold value. by rewrite Hfr, Hcell by done.
Qed.

(** A copy into the tensor of a Python object.  It changes nothing unless the
    object is a tensor with as many elements of the same type; then torch copies,
    and if the shapes are the same the tensor shows the elements of the source. *)
Theorem copy_storage_correct {W V} `{TorchLaws W V} (src : torch_tensor) (obj : pyobj torch_tensor) (w : W) :
  let r := CopyTensorStorage src obj w in
  match obj with
  | PyTensor dst =>
      if (numel src =? numel dst) && bool_decide (tt_dtype src = tt_dtype dst) then
        r.2 = (copy_ dst src w).2 /\
        (r.1 = Ok tt -> tt_sizes src = tt_sizes dst -> forall c, coord (tt_sizes dst) c -> value r.2 dst c = value w src c)
      else r.2 = w /\ exists e, r.1 = Throw e
  | PyNone => r.2 = w /\ exists e, r.1 = Throw e
  | NotATensor => r = (Undef, w)
  end.
Proof.
  intros r. subst r. unfold CopyTensorStorage, sr_prefixed, mbind, SR_bind, sr_lift.
  destruct obj as [dst| |]; cbn [PyObjectToTensor]; [|split; [done|by eexists]|done].
  destruct (numel src =? numel dst) eqn:En; cbn [negb andb throw_if]; [|split; [done|by eexists]].
  destruct (bool_decide _) eqn:Ed; cbn [negb throw_if]; [|split; [done|by eexists]]. apply bool_decide_eq_true in Ed.
  destruct (copy_ dst src w) as [[[]| |] w'] eqn:E; cbn; (split; [done|]); [|done..].
  intros _ Hs. by apply (copy_law _ _ _ _ E).
Qed.

(** ** Examples *)

(** A torch for tensors of one dimension of complex numbers. *)
Module FlatTorch.

Record memory : Type := MkMemory { next : Z; cells : Z -> ScalarType.t -> Z -> Z * Z }.

Definition conj_pair (v : Z * Z) : Z * Z := (v.1, - v.2).
Definition neg_pair (v : Z * Z) : Z * Z := (- v.1, - v.2).

Definition shown (w : memory) (t : torch_tensor) (c : list Z) : Z * Z :=
  let v := cells w (tt_data t) (tt_dtype t) (tt_offset t + dot (tt_strides t) c) in
  let v := if tt_conj t then conj_pair v else v in if tt_neg t then neg_pair v else v.

(** A storage of [n] elements from [from] on with the elements of [f]. *)
Definition write (p from n : Z) (f : Z -> Z * Z) (w : memory) : Z -> ScalarType.t -> Z -> Z * Z :=
  fun q d i => if (q =? p) && (from <=? i) && (i <? from + n) then f (i - from) else cells w q d i.

Definition alloc (n : Z) (d : ScalarType.t) (dev : TorchDevice) (grad : bool) (f : Z -> Z * Z) (w : memory) : torch_tensor * memory :=
  (MkTorchTensor [n] [1] 0 d dev false false grad (8 * n) (next w), MkMemory (next w + 1) (write (next w) 0 n f w)).

#[export] Instance torch : Torch memory := {|
  zeros sizes d dev w :=
    match sizes with [n] => let '(t, w') := alloc n d dev false (fun _ => (0, 0)) w in (Ok t, w') | _ => (Throw "not flat", w) end;
  from_blob p sizes strides d dev := Ok (MkTorchTensor sizes strides 0 d dev false false false 0 p);
  copy_ dst src w :=
    match tt_sizes dst, tt_strides dst, tt_sizes src, tt_conj dst || tt_neg dst with
    | [n], [1], [m], false =>
        if n =? m then (Ok tt, MkMemory (next w) (write (tt_data dst) (tt_offset dst) n (fun i => shown w src [i]) w)) else (Throw "sizes", w)
    | _, _, _, _ => (Throw "not flat", w)
    end;
  set_requires_grad b t := Ok (MkTorchTensor (tt_sizes t) (tt_strides t) (tt_offset t) (tt_dtype t) (tt_device t)
                                 (tt_conj t) (tt_neg t) b (tt_nbytes t) (tt_data t));
  conj t := MkTorchTensor (tt_sizes t) (tt_strides t) (tt_offset t) (tt_dtype t) (tt_device t)
              (negb (tt_conj t)) (tt_neg t) (tt_grad t) (tt_nbytes t) (tt_data t);
  neg t w :=
    match tt_sizes t with
    | [n] => let '(t', w') := alloc n (tt_dtype t) (tt_device t) (tt_grad t) (fun i => neg_pair (shown w t [i])) w in (Ok t', w')
    | _ => (Throw "not flat", w)
    end;
|}.

Lemma write_in p from n f w d i : from <= i < from + n -> write p from n f w p d i = f (i - from).
Proof. intros Hi. unfold write. by rewrite Z.eqb_refl, (proj2 (Z.leb_le _ _)), (proj2 (Z.ltb_lt _ _)) by lia. Qed.

Lemma write_out p from n f w q d i : q <> p -> write p from n f w q d i = cells w q d i.
Proof. intros Hq. unfold write. by rewrite (proj2 (Z.eqb_neq _ _) Hq). Qed.

Lemma coord_one n c : coord [n] c -> exists x, c = [x] /\ 0 <= x < n.
Proof. intros Hc. inversion Hc as [|? x ? l Hx Hl]; subst. inversion Hl; subst. by exists x. Qed.

#[export] Instance laws : TorchLaws memory (Z * Z).
Proof.
  refine {| conj_value := conj_pair; neg_value := neg_pair; cell := cells; allocated w p := 0 <= p < next w |}.
  - intros sizes d dev w t w' E. cbn in E. destruct sizes as [|n [|]]; [done| |done]. injection E as <- <-. do 6 (split; [done|]).
    intros p Hp. cbn. split; [lia|]. split; [intros d' i; apply write_out; lia|intros _; lia].
  - intros p sizes strides d dev t [= <-]. by exists 0.
  - intros dst src w w' E Hs Hd. cbn in E. destruct (tt_sizes dst) as [|n [|]] eqn:En; [done| |done].
    destruct (tt_strides dst) as [|st [|]] eqn:Est; [done| |by destruct st as [|[]|]]. rewrite Hs in E.
    destruct (decide (st = 1)) as [->|Hst]; [|destruct st as [|[]|]; done].
    destruct (tt_conj dst) eqn:Ec, (tt_neg dst) eqn:Eg; try done. cbn [orb] in E. rewrite Z.eqb_refl in E. injection E as <-.
    split; [|intros p Hp; split; [exact Hp|intros Hne d i; by apply write_out]].
    intros c (x & -> & Hx)%coord_one. cbn [cells dot]. rewrite write_in by lia.
    replace (tt_offset dst + (1 * x + 0) - tt_offset dst) with x by lia. done.
  - intros b t t' [= <-]. done.
  - intros w t. split; [done|]. split; [done|]. intros c. cbn. unfold conj_pair, neg_pair.
    destruct (cells w _ _ _) as [x y]. destruct (tt_conj t), (tt_neg t); cbn; f_equal; lia.
  - intros w t t' w' E. cbn in E. destruct (tt_sizes t) as [|n [|]] eqn:En; [done| |done]. injection E as <- <-.
    split; [done|]. split; [|intros p Hp d i; apply write_out; lia].
    intros c (x & -> & Hx)%coord_one. cbn [cells tt_data tt_dtype tt_offset tt_strides tt_conj tt_neg dot].
    rewrite write_in by lia. by replace (0 + (1 * x + 0) - 0) with x by lia.
Defined.

(** Every second element of a storage, conjugated and negated. *)
Definition view : torch_tensor :=
  MkTorchTensor [2] [2] 1 ScalarType.ComplexFloat (MkTorchDevice TorchDeviceType.CPU (-1)) true true true 48 0.
Definition start : memory := MkMemory 1 (fun _ _ i => (i, 10 + i)).

Lemma serves_view : serves view.
Proof.
  split; [by eexists|]. split; [|split; [by eexists|]].
  - intros w. do 2 eexists. split; [reflexivity|]. intros src Hs _. cbn. rewrite Hs. by eexists.
  - intros _ u w Hu _. cbn. rewrite Hu. do 2 eexists. reflexivity.
Qed.
End FlatTorch.

#[local] Existing Instances FlatTorch.torch FlatTorch.laws.

Lemma convert_roundtrip_witness :
  exists a t' w', TensorToATensor FlatTorch.view = Ok a /\ ATensorToTensor a FlatTorch.start = (Ok t', w') /\
    tt_conj t' = false /\ tt_neg t' = false /\ tt_grad t' = true /\ value w' t' [1] = (-3, 13).
Proof.
  destruct (convert_roundtrip FlatTorch.view ATDtype.ComplexFloat (MkATDevice ATDeviceType.CPU (-1)) FlatTorch.start)
    as (a & t' & w' & Ea & Et & Hk & Hv).
  - split; [reflexivity|]. cbn. lia.
  - reflexivity.
  - reflexivity.
  - exact FlatTorch.serves_view.
  - cbn. lia.
  - exists a, t', w'. split; [exact Ea|]. split; [exact Et|]. pose proof Et as Et'. injection Ea as <-. vm_compute in Et'. injection Et' as <- _.
    do 2 (split; [reflexivity|]). split; [reflexivity|].
    destruct (Hv [1]) as [-> _]; [constructor; [lia|constructor]|]. reflexivity.
Defined.

Lemma atensor_describes_witness :
  exists a, TensorToATensor FlatTorch.view = Ok a /\ elem_pos a [1] = 3 /\
    GetTorchTensorMeta a = Ok (MkTorchTensorMeta ScalarType.ComplexFloat [2] (MkTorchDevice TorchDeviceType.CPU (-1))).
Proof.
  destruct (atensor_describes FlatTorch.view) as (a & Ea & _ & _ & _ & _ & Hp & Hm); [split; [reflexivity|cbn; lia]|].
  exists a. split; [exact Ea|]. split; [rewrite Hp; reflexivity|exact Hm].
Defined.

Lemma blob_is_converted_witness :
  let t := MkATensor (Some [2]) (Some [1]) 5 1 ATDtype.Float false false false (MkATStorage 8 (MkATDevice ATDeviceType.CPU 0) 64) in
  exists a, blob_atensor (fun _ _ _ => 8) 4096 t = Ok a /\ storage_offset a = 5 /\ data (storage a) = 4096 /\ dim_num t < 2 ^ 31.
Proof.
  intros t. eexists. split; [rewrite (blob_is_converted (fun _ _ _ => 8) 4096 t) by (cbn; lia); reflexivity|]. split; [reflexivity|].
  split; [reflexivity|]. cbn. lia.
Defined.
