(* ===== verification/TableSetup.v ===== *)
(** * Opening and closing a remote table

    The constructor of [RemoteTensorTable], the tensors it allocates
    ([CreateZeroTensor]) and the destructor the compiler makes
    (core/remote_tensor_table.h/.cpp).  It puts together the options, the
    NUMA-aware allocator (Numa.v), the conversion of tensors (Convert.v) and the
    registration of memory with the transfer service (Transfer.v).

    The theorems show what an inference node has after the constructor: as many
    buckets of the configured sizes as threads, each registered with the
    transfer service, and room in a bucket for every compact group; which sizes
    are refused; and that the allocator is destroyed before the tensors that
    are freed through it. *)

From S2P Require Import Prelude StateResult StringUtils Options Numa Tensor Messages Transfer RemoteWrite RemoteRead Convert.
Local Open Scope Z_scope.

(** ** The members *)

(** A tensor, and the allocation its deleter gives back. *)
Record table_tensor : Type := MkTableTensor { tensor_of : torch_tensor; owner : option AllocationResult }.

Record table_options : Type := MkTableOptions {
  to_write_async : bool;
  to_read_async : bool;
  to_compact_cache_size : Z;
  to_small_tensor_size : Z;
  to_prefetch : bool;
  to_cached_limit : Z;
  to_numa : bool;
  to_training : GlobalParallelConfig;
  to_inference : GlobalParallelConfig;
  to_reshard_keys : gset string;
  to_copy_threads : Z;
  to_copy_bucket : Z;
  to_copy_large_bucket : Z;
  to_copy_large_threads : Z;
  to_perf : PerfMetricsController;
  to_log_meta : bool;
}.

Record remote_table : Type := MkRemoteTable {
  rt_options : table_options;
  rt_buckets : list table_tensor; (* of copy_thread_pool_ *)
  rt_large_buckets : list table_tensor; (* of copy_large_thread_pool_ *)
  rt_compact_cache : option table_tensor;
}.

(** What the constructor works with: the member [numa_allocator_] and whether it
    is alive, the memory, torch and the transfer service. *)
Record setup (W : Type) : Type := MkSetup {
  s_numa : NumaAwareAllocator; s_alive : bool; s_mem : mem; s_torch : W; s_pull : pull_state;
}.
Arguments MkSetup {W}.
Arguments s_numa {W}.
Arguments s_alive {W}.
Arguments s_mem {W}.
Arguments s_torch {W}.
Arguments s_pull {W}.

Section Setup.
  Context {W : Type} `{Torch W} `{NumaSystem} `{JsonLib} `{FloatLib}.
  Context (defs : OptionDefinition) (env : pull_env) (cfg : pull_config).

Abbreviation TS := (SR (setup W)).

Definition on_torch {A} (m : SR W A) : TS A := fun s =>
  let '(r, w) := m (s_torch s) in (r, MkSetup (s_numa s) (s_alive s) (s_mem s) w (s_pull s)).
Definition on_pull {A} (m : M A) : TS A := fun s =>
  let '(r, p) := m (s_pull s) in (r, MkSetup (s_numa s) (s_alive s) (s_mem s) (s_torch s) p).

(** *** Options *)

Definition option_long (options : Options) (name : string) : result Z :=
  a ← GetOptionValue defs Tint64 options name; match a with AInt64 z => Ok z | _ => Undef end.
Definition option_strings (options : Options) (name : string) : result (list string) :=
  a ← GetOptionValue defs Tstrings options name; match a with AStrings l => Ok l | _ => Undef end.

(** The initialisers, in the order of the declarations of the members, and the
    options read in the body. *)
Definition read_table_options (options : Options) : result table_options :=
  write_async ← GetOptionBool defs options "TRANSFER_ENGINE_ENABLE_WRITE_GPU_ASYNC_COPY";
  read_async ← GetOptionBool defs options "TRANSFER_ENGINE_ENABLE_READ_GPU_ASYNC_COPY";
  cache_size ← option_long options "TRANSFER_ENGINE_SMALL_TENSOR_COMPACT_CACHE_SIZE";
  small_size ← option_long options "TRANSFER_ENGINE_SMALL_TENSOR_SIZE";
  prefetch ← GetOptionBool defs options "TRANSFER_ENGINE_ENABLE_LOCAL_CACHE_PREFETCH";
  limit ← option_long options "TRANSFER_ENGINE_LOCAL_CACHE_TENSORS_SIZE";
  numa ← GetOptionBool defs options "TRANSFER_ENGINE_ENABLE_NUMA_ALLOCATION";
  _ ← GetOptionBool defs options "ASTATE_DEBUG_MODE";
  train ← option_strings options "TRANSFER_ENGINE_TRAINING_PARALLEL_CONFIG";
  infer ← option_strings options "TRANSFER_ENGINE_INFERENCE_PARALLEL_CONFIG";
  keys ← option_strings options "TRANSFER_ENGINE_TENSOR_RESHARDING_KEYS";
  let '(training, inference, reshard_keys) := UpdateGlobalParallelConfig train infer keys in
  threads ← GetOptionInt defs options "TRANSFER_ENGINE_COPY_THREAD_NUM";
  bucket ← option_long options "TRANSFER_ENGINE_COPY_BUCKET_MEM_SIZE";
  large_bucket ← option_long options "TRANSFER_ENGINE_COPY_LARGE_BUCKET_MEM_SIZE";
  large_threads ← GetOptionInt defs options "TRANSFER_ENGINE_COPY_LARGE_THREAD_NUM";
  _ ← GetOptionInt defs options "TRANSFER_ENGINE_COPY_SMALL_THREAD_NUM";
  perf ← new_PerfMetricsController defs options;
  log_meta ← GetOptionBool defs options "TRANSFER_ENGINE_LOG_TENSOR_META";
  Ok (MkTableOptions write_async read_async cache_size small_size prefetch limit numa training inference reshard_keys
        threads bucket large_bucket large_threads perf log_meta).

(** *** Tensors *)

(** [torch::Device(torch::DeviceType::CPU)] *)
Definition cpu : TorchDevice := MkTorchDevice TorchDeviceType.CPU (-1).

(** The strides of a contiguous tensor. *)
Fixpoint contiguous (sizes : list Z) : list Z :=
  match sizes with [] => [] | _ :: rest => prod_list rest :: contiguous rest end.

Definition total_bytes (sizes : list Z) (dtype : ScalarType.t) : Z :=
  u64 (fold_left (fun n size => u64 (n * u64 size)) sizes 1 * itemsize env dtype).

(** On the CPU, where pinned memory changes no content. *)
Definition CreateZeroTensor (enable_numa : bool) (sizes : list Z) (dtype : ScalarType.t) : TS table_tensor := fun s =>
  let default := (t ← on_torch (zeros sizes dtype cpu); mret (MkTableTensor t None)) in
  if enable_numa then
    match TryAllocateNearCurrentDevice (total_bytes sizes dtype) (s_numa s) (s_mem s) with
    | Ok (r, a', m') =>
        let s' := MkSetup a' (s_alive s) m' (s_torch s) (s_pull s) in
        if ar_success r then
          match from_blob (ar_ptr r) sizes (contiguous sizes) dtype cpu with
          | Ok t => (Ok (MkTableTensor t (Some r)), s')
          | Throw _ => default s'
          | Undef => (Undef, s')
          end
        else default s'
    | Throw _ => default s
    | Undef => (Undef, s)
    end
  else default s.

(** The resource creator of the copy pools. *)
Definition new_copy_bucket (enable_numa : bool) (mem_size : Z) : TS table_tensor :=
  tensor ← CreateZeroTensor enable_numa [mem_size] ScalarType.Byte;
  atensor_storage ← sr_lift (TensorStorageToATStorage (tensor_of tensor));
  _ ← on_pull (PreRegisterMemory env cfg atensor_storage);
  mret tensor.

(** One bucket for every thread of a pool. *)
Fixpoint new_copy_buckets (threads : nat) (enable_numa : bool) (mem_size : Z) : TS (list table_tensor) :=
  match threads with
  | O => mret []
  | S threads' => b ← new_copy_bucket enable_numa mem_size; bs ← new_copy_buckets threads' enable_numa mem_size; mret (b :: bs)
  end.

(** *** The constructor and the destructor *)

Definition initialize_numa : TS unit := fun s =>
  match Numa_Initialize [] (s_numa s) (s_mem s) with
  | Ok (_, a, m) => (Ok tt, MkSetup a (s_alive s) m (s_torch s) (s_pull s))
  | Throw e => (Throw e, s)
  | Undef => (Undef, s)
  end.

(** The streams of the pools are left out; the options are read before the
    allocator is initialised, which throws for none of them. *)
Definition new_RemoteTensorTable (options : Options) (is_inference : bool) : TS remote_table :=
  o ← sr_lift (read_table_options options);
  _ ← initialize_numa;
  _ ← sr_lift (throw_if (to_compact_cache_size o <? to_small_tensor_size o)
                 "illegal state: small_tensor_compact_cache_size_ < small_tensor_size_");
  _ ← sr_lift (throw_if (to_copy_bucket o <? to_compact_cache_size o)
                 "illegal state: small_tensor_compact_cache_size_ > copy_bucket_mem_size");
  if is_inference : bool then
    buckets ← new_copy_buckets (Z.to_nat (u64 (to_copy_threads o))) (to_numa o) (to_copy_bucket o);
    large ← new_copy_buckets (Z.to_nat (u64 (to_copy_large_threads o))) (to_numa o) (to_copy_large_bucket o);
    mret (MkRemoteTable o buckets large None)
  else
    cache ← CreateZeroTensor (to_numa o) [to_compact_cache_size o] ScalarType.Byte;
    mret (MkRemoteTable o [] [] (Some cache)).

(** The deleter of a tensor uses the allocator of the table. *)
Definition run_deleter (t : table_tensor) : TS unit := fun s =>
  match owner t with
  | None => (Ok tt, s)
  | Some r =>
      if s_alive s then
        match Deallocate (ar_ptr r) (ar_size r) (s_numa s) (s_mem s) with
        | Ok m => (Ok tt, MkSetup (s_numa s) (s_alive s) m (s_torch s) (s_pull s))
        | Throw e => (Throw e, s)
        | Undef => (Undef, s)
        end
      else (Undef, s)
  end.

(** Members are destroyed in the reverse order of their declarations:
    [numa_allocator_], the cache, the pools. *)
Definition destroy_RemoteTensorTable (t : remote_table) : TS unit :=
  _ ← sr_modify (fun s => MkSetup (s_numa s) false (s_mem s) (s_torch s) (s_pull s));
  sr_for_each (fun x _ => run_deleter x) (option_list (rt_compact_cache t) ++ rt_large_buckets t ++ rt_buckets t) tt.

(** The configurations of the operations (RemoteWrite.v, RemoteRead.v). *)
Definition send_config (o : table_options) : table_config :=
  MkTableConfig (to_compact_cache_size o) (to_small_tensor_size o) (to_copy_bucket o) (g_tp (to_inference o)) (to_reshard_keys o).
Definition receive_config_of (o : table_options) (tp : Z) : receive_config :=
  MkReceiveConfig (to_prefetch o) (to_cached_limit o) (to_small_tensor_size o) (to_copy_bucket o) (to_copy_large_bucket o) tp.
End Setup.

(** ** Opening a table *)

Lemma detected_nodes `{NumaSystem} (a : NumaAwareAllocator) : available_nodes (DetectCudaNumaTopology a) = available_nodes a.
Proof.
  unfold DetectCudaNumaTopology. destruct cuda_device_count as [n|]; [|done]. generalize (seqZ 0 n). intros l. revert a.
  induction l as [|i l IH]; intros a; cbn; [done|]. rewrite IH. unfold detect_device. by destruct (pci_bus_id i).
Qed.

Lemma new_allocator_initialized `{NumaSystem} (m : mem) :
  exists b a m', Numa_Initialize [] new_allocator m = Ok (b, a, m') /\ allocator_ok a.
Proof.
  unfold Numa_Initialize. cbn [allocator_initialized new_allocator]. destruct (numa_available <? 0); [by do 3 eexists|].
  cbn [mbind result_bind]. set (nodes := _ ++ usable_nodes). destruct nodes as [|n l]; [by do 3 eexists|].
  do 3 eexists. split; [reflexivity|]. intros _. unfold set_initialized. cbn [available_nodes current_node_index].
  destruct (cuda_available _); rewrite ?detected_nodes; cbn; lia.
Qed.

Section Opening.
  Context {W : Type} `{Torch W} `{NumaLaws} `{JsonLib} `{FloatLib}.
  Context (defs : OptionDefinition) (env : pull_env) (cfg : pull_config).

(** Torch allocates tensors of [n] bytes, and makes one of memory it is given. *)
Definition torch_allocates (n : Z) : Prop :=
  (forall w, exists t w', zeros [n] ScalarType.Byte cpu w = (Ok t, w') /\ tt_nbytes t = n /\ tt_device t = cpu) /\
  (forall p, exists t, from_blob p [n] [1] ScalarType.Byte cpu = Ok t /\ tt_nbytes t = n /\ tt_device t = cpu /\ tt_data t = p).

(** A bucket of [n] bytes that the transfer service has registered, or has failed to
    register where the option for tests passes over that. *)
Definition bucket_ok (s : setup W) (n : Z) (b : table_tensor) : Prop :=
  tt_nbytes (tensor_of b) = n /\ ActRegister (tt_data (tensor_of b)) n false (-1) ∈ io (s_pull s) /\
  (RegisterMemory env (tt_data (tensor_of b)) n false (-1) = Ok true \/
   skip_rdma_exception_for_test cfg = true).

(** A registration of [n] bytes that was asked for and failed. *)
Definition refused (s : setup W) (n : Z) : Prop :=
  exists p, ActRegister p n false (-1) ∈ io (s_pull s) /\ RegisterMemory env p n false (-1) <> Ok true.

(** How registering buckets of [n] bytes ends. *)
Definition registered_as {A} (s : setup W) (n : Z) (ok : A -> Prop) (r : result A) : Prop :=
  match r with
  | Ok a => ok a
  | Throw _ => refused s n /\ skip_rdma_exception_for_test cfg = false
  | Undef => exists p, RegisterMemory env p n false (-1) = Undef
  end.

(** Later states keep what was registered. *)
Definition extends (s s' : setup W) : Prop := exists l, io (s_pull s') = io (s_pull s) ++ l.

#[local] Instance extends_preorder : PreOrder extends.
Proof.
  split; [by exists []; rewrite app_nil_r|]. intros s1 s2 s3 [l1 E1] [l2 E2]. exists (l1 ++ l2). by rewrite E2, E1, app_assoc.
Qed.

Lemma bucket_ok_extends s s' n b : bucket_ok s n b -> extends s s' -> bucket_ok s' n b.
Proof. intros (Hn & Hi & Hr) [l E]. split; [done|]. split; [rewrite E; set_solver|done]. Qed.

(** A tensor of [n] bytes, whether libnuma has memory or not. *)
Lemma CreateZeroTensor_bytes enable_numa n s : torch_allocates n -> allocator_ok (s_numa s) ->
  exists t s', CreateZeroTensor env enable_numa [n] ScalarType.Byte s = (Ok t, s') /\ tt_nbytes (tensor_of t) = n /\
    tt_device (tensor_of t) = cpu /\ allocator_ok (s_numa s') /\ s_alive s' = s_alive s /\ s_pull s' = s_pull s /\
    (is_Some (owner t) -> enable_numa = true).
Proof.
  intros [Hz Hb] Ha.
  assert (Hdef : forall s, allocator_ok (s_numa s) -> exists t s',
    (t ← on_torch (zeros [n] ScalarType.Byte cpu); mret (MkTableTensor t None)) s = (Ok t, s') /\
    tt_nbytes (tensor_of t) = n /\ tt_device (tensor_of t) = cpu /\ allocator_ok (s_numa s') /\ s_alive s' = s_alive s /\
    s_pull s' = s_pull s /\ owner t = None).
  { intros s0 Ha0. destruct (Hz (s_torch s0)) as (t & w' & E & Hn & Hd). do 2 eexists. split.
    - unfold mbind, SR_bind, on_torch. rewrite E. reflexivity.
    - done. }
  unfold CreateZeroTensor. destruct enable_numa.
  - destruct (NearCurrentDevice_spec (total_bytes env [n] ScalarType.Byte) (s_numa s) (s_mem s) Ha) as (r & a' & m' & -> & _ & Hs).
    assert (allocator_ok a') as Ha' by apply Hs. destruct (ar_success r).
    + destruct (Hb (ar_ptr r)) as (t & E & Hn & Hd & _). cbn [contiguous prod_list]. rewrite E. do 2 eexists. split; [reflexivity|]. done.
    + destruct (Hdef (MkSetup a' (s_alive s) m' (s_torch s) (s_pull s)) Ha') as (t & s' & E & P1 & P2 & P3 & P4 & P5 & P6).
      exists t, s'. rewrite E. split_and!; try done.
  - destruct (Hdef s Ha) as (t & s' & E & P1 & P2 & P3 & P4 & P5 & P6). exists t, s'. rewrite E.
    split_and!; try done. rewrite P6. by intros [? ?].
Qed.

Lemma new_copy_bucket_ok enable_numa n s : torch_allocates n -> allocator_ok (s_numa s) ->
  exists r s', new_copy_bucket env cfg enable_numa n s = (r, s') /\ registered_as s' n (bucket_ok s' n) r /\
    allocator_ok (s_numa s') /\ extends s s'.
Proof.
  intros Ht Ha. destruct (CreateZeroTensor_bytes enable_numa n s Ht Ha) as (t & s1 & E & Hn & Hd & Ha1 & _ & Hp & _).
  unfold new_copy_bucket, mbind, SR_bind. rewrite E. unfold sr_lift, TensorStorageToATStorage. rewrite Hd.
  cbn [cpu td_type TorchDeviceToATDevice mbind result_bind prefixed td_index]. unfold on_pull, PreRegisterMemory, RegisterStorage.
  cbn [data storage_size device device_type device_index]. rewrite bool_decide_eq_false_2 by done. unfold RegisterMemoryOrThrow.
  rewrite Hn. unfold mbind, M_bind, modify, try_catch, lift. cbn [add_io].
  set (s2 := MkSetup (s_numa s1) (s_alive s1) (s_mem s1) (s_torch s1) (add_io (ActRegister (tt_data (tensor_of t)) n false (-1)) (s_pull s1))).
  assert (Hin : ActRegister (tt_data (tensor_of t)) n false (-1) ∈ io (s_pull s2)) by (cbn; set_solver).
  assert (Hx : extends s s2) by (eexists; cbn; by rewrite Hp).
  assert (Hfail : forall e, RegisterMemory env (tt_data (tensor_of t)) n false (-1) <> Ok true ->
    registered_as s2 n (bucket_ok s2 n) (if skip_rdma_exception_for_test cfg then Ok t else Throw e)).
  { intros e Hf. destruct (skip_rdma_exception_for_test cfg) eqn:Hs; cbn; [by unfold bucket_ok; auto|]. split; [by eexists|done]. }
  destruct (RegisterMemory env (tt_data (tensor_of t)) n false (-1)) as [[]|e|] eqn:Er; cbn [throw_if negb mret M_ret].
  - exists (Ok t), s2. split; [done|]. split; [|done]. split; [done|]. split; [done|by left].
  - eexists _, s2. split; [|split; [apply (Hfail "Failed to register memory"); congruence|done]].
    by destruct (skip_rdma_exception_for_test cfg).
  - eexists _, s2. split; [|split; [apply (Hfail e); congruence|done]]. by destruct (skip_rdma_exception_for_test cfg).
  - exists Undef, s2. split; [done|]. split; [by eexists|done].
Qed.

Lemma refused_extends s s' n : refused s n -> extends s s' -> refused s' n.
Proof. intros (q & Hq & Hf) [l E]. exists q. split; [rewrite E; set_solver|done]. Qed.

Lemma new_copy_buckets_ok enable_numa n threads : torch_allocates n -> forall s, allocator_ok (s_numa s) ->
  exists r s', new_copy_buckets env cfg threads enable_numa n s = (r, s') /\
    registered_as s' n (fun bs => length bs = threads /\ Forall (bucket_ok s' n) bs) r /\
    allocator_ok (s_numa s') /\ extends s s'.
Proof.
  intros Ht. induction threads as [|threads IH]; intros s Ha; cbn [new_copy_buckets].
  { exists (Ok []), s. by split_and!. }
  destruct (new_copy_bucket_ok enable_numa n s Ht Ha) as (r1 & s1 & E1 & Hb & Ha1 & Hx1).
  unfold mbind, SR_bind. rewrite E1. destruct r1 as [b|e|]; [|by eexists _, _..].
  destruct (IH s1 Ha1) as (r2 & s2 & E2 & Hbs & Ha2 & Hx2). rewrite E2.
  destruct r2 as [bs|e|]; (eexists _, s2; split; [reflexivity|]); (split; [|split; [done|by etransitivity]]); [|done..].
  destruct Hbs as [Hl Hbs]. split; [cbn; by rewrite Hl|]. constructor; [by eapply bucket_ok_extends|done].
Qed.
End Opening.

(** Up to the allocations, the constructor reads the options, initialises the
    allocator and checks the sizes. *)
Lemma constructor_starts {W} `{Torch W} `{NumaLaws} `{JsonLib} `{FloatLib} defs env cfg options is_inference o (s : setup W) :
  read_table_options defs options = Ok o -> s_numa s = new_allocator ->
  exists s1, allocator_ok (s_numa s1) /\ s_alive s1 = s_alive s /\
    new_RemoteTensorTable defs env cfg options is_inference s =
      if to_compact_cache_size o <? to_small_tensor_size o
      then (Throw "illegal state: small_tensor_compact_cache_size_ < small_tensor_size_", s1)
      else if to_copy_bucket o <? to_compact_cache_size o
      then (Throw "illegal state: small_tensor_compact_cache_size_ > copy_bucket_mem_size", s1)
      else (if is_inference : bool then
              buckets ← new_copy_buckets env cfg (Z.to_nat (u64 (to_copy_threads o))) (to_numa o) (to_copy_bucket o);
              large ← new_copy_buckets env cfg (Z.to_nat (u64 (to_copy_large_threads o))) (to_numa o) (to_copy_large_bucket o);
              mret (MkRemoteTable o buckets large None)
            else
              cache ← CreateZeroTensor env (to_numa o) [to_compact_cache_size o] ScalarType.Byte;
              mret (MkRemoteTable o [] [] (Some cache))) s1.
Proof.
  intros Ho Ha. destruct (new_allocator_initialized (s_mem s)) as (b & a & m & Ei & Hok).
  exists (MkSetup a (s_alive s) m (s_torch s) (s_pull s)). split; [exact Hok|]. split; [done|].
  unfold new_RemoteTensorTable, mbind at 1, SR_bind at 1, sr_lift at 1. rewrite Ho. unfold mbind at 1, SR_bind at 1, initialize_numa.
  rewrite Ha, Ei. unfold mbind at 1, SR_bind at 1, sr_lift at 1. destruct (to_compact_cache_size o <? to_small_tensor_size o); [done|].
  cbn [throw_if]. unfold mbind at 1, SR_bind at 1, sr_lift at 1. by destruct (to_copy_bucket o <? to_compact_cache_size o).
Qed.

(** C39: an inference node after the constructor, for every answer of libnuma and of
    the registration of memory, where torch allocates the buckets and the
    configured numbers of threads are not negative.  If the sizes do not fit each
    other the constructor throws; else, if it returns, there is one bucket for every
    thread of the two pools, of the configured sizes, and every bucket is registered
    with the transfer service, unless the option for tests passes over a failed
    registration; without that option it throws only when a registration failed. *)
Theorem inference_table_opened {W} `{Torch W} `{NumaLaws} `{JsonLib} `{FloatLib} (defs : OptionDefinition) (env : pull_env)
    (cfg : pull_config) (options : Options) (o : table_options) (s : setup W) :
  read_table_options defs options = Ok o -> s_numa s = new_allocator ->
  0 <= to_copy_threads o < 2 ^ 31 -> 0 <= to_copy_large_threads o < 2 ^ 31 ->
  torch_allocates (W := W) (to_copy_bucket o) -> torch_allocates (W := W) (to_copy_large_bucket o) ->
  let fits := (to_small_tensor_size o <=? to_compact_cache_size o) && (to_compact_cache_size o <=? to_copy_bucket o) in
  let '(r, s') := new_RemoteTensorTable defs env cfg options true s in
  if fits then
    match r with
    | Ok t => rt_options t = o /\
        Z.of_nat (length (rt_buckets t)) = to_copy_threads o /\ Forall (bucket_ok env cfg s' (to_copy_bucket o)) (rt_buckets t) /\
        Z.of_nat (length (rt_large_buckets t)) = to_copy_large_threads o /\
        Forall (bucket_ok env cfg s' (to_copy_large_bucket o)) (rt_large_buckets t)
    | Throw _ => skip_rdma_exception_for_test cfg = false /\
        (refused env s' (to_copy_bucket o) \/ refused env s' (to_copy_large_bucket o))
    | Undef => exists p n, RegisterMemory env p n false (-1) = Undef
    end
  else exists e, r = Throw e.
Proof.
  intros Ho Ha Ht Hlt Hb Hlb. cbv zeta. destruct (constructor_starts defs env cfg options true o s Ho Ha) as (s1 & Ha1 & _ & ->).
  destruct (Z.ltb_spec (to_compact_cache_size o) (to_small_tensor_size o)) as [H1'|H1'].
  { rewrite (proj2 (Z.leb_gt _ _)) by lia. by eexists. }
  rewrite (proj2 (Z.leb_le _ _)) by lia. destruct (Z.ltb_spec (to_copy_bucket o) (to_compact_cache_size o)) as [H2'|H2'].
  { rewrite (proj2 (Z.leb_gt _ _)) by lia. by eexists. }
  rewrite (proj2 (Z.leb_le _ _)) by lia. cbn [andb]. rewrite !u64_small by (unfold in_u64; lia).
  destruct (new_copy_buckets_ok env cfg (to_numa o) (to_copy_bucket o) (Z.to_nat (to_copy_threads o)) Hb s1 Ha1)
    as (r2 & s2 & E2 & Hr2 & Ha2 & Hx2).
  unfold mbind, SR_bind. rewrite E2. destruct r2 as [bs|e|]; [|by destruct Hr2; auto|by destruct Hr2; eauto].
  destruct (new_copy_buckets_ok env cfg (to_numa o) (to_copy_large_bucket o) (Z.to_nat (to_copy_large_threads o)) Hlb s2 Ha2)
    as (r3 & s3 & E3 & Hr3 & Ha3 & Hx3).
  rewrite E3. destruct r3 as [lbs|e|]; [|by destruct Hr3; auto|by destruct Hr3; eauto].
  destruct Hr2 as [Hl2 Hbs], Hr3 as [Hl3 Hlbs]. cbn. split; [done|].
  split; [lia|]. split; [eapply Forall_impl; [exact Hbs|]; intros x Hx; by eapply bucket_ok_extends|]. split; [lia|done].
Qed.

(** A training node after the constructor, and its end.  The compact cache has the
    configured size, and the operations of RemoteWrite.v start from it.  When the
    table is destroyed its allocator goes first: a cache that libnuma allocated is
    freed through a member that is no longer alive, which is undefined; a cache
    of torch is not affected. *)
Theorem cache_outlives_allocator {W} `{Torch W} `{NumaLaws} `{JsonLib} `{FloatLib} (defs : OptionDefinition) (env : pull_env)
    (cfg : pull_config) (options : Options) (o : table_options) (s : setup W) :
  read_table_options defs options = Ok o -> s_numa s = new_allocator ->
  to_small_tensor_size o <= to_compact_cache_size o -> to_compact_cache_size o <= to_copy_bucket o ->
  torch_allocates (W := W) (to_compact_cache_size o) ->
  exists t cache s', new_RemoteTensorTable defs env cfg options false s = (Ok t, s') /\ rt_compact_cache t = Some cache /\
    tt_nbytes (tensor_of cache) = to_compact_cache_size o /\ (exists x, new_sender (send_config o) = Ok x) /\
    (to_numa o = false -> owner cache = None) /\
    (destroy_RemoteTensorTable t s').1 = (match owner cache with Some _ => Undef | None => Ok tt end).
Proof.
  intros Ho Ha H1' H2' Ht. destruct (constructor_starts defs env cfg options false o s Ho Ha) as (s1 & Ha1 & _ & ->).
  destruct (CreateZeroTensor_bytes env (to_numa o) (to_compact_cache_size o) s1 Ht Ha1) as (c & s2 & E & Hn & _ & _ & _ & _ & How).
  rewrite (proj2 (Z.ltb_ge _ _)) by lia. rewrite (proj2 (Z.ltb_ge _ _)) by lia. unfold mbind, SR_bind. rewrite E.
  eexists _, c, s2. split; [reflexivity|]. split; [done|]. split; [done|]. split.
  { unfold new_sender, send_config. cbn. rewrite (proj2 (Z.ltb_ge _ _)) by lia. cbn. rewrite (proj2 (Z.ltb_ge _ _)) by lia. by eexists. }
  split.
  - intros Hf. destruct (owner c) as [r|] eqn:Er; [|done]. rewrite How in Hf by (by eexists). done.
  - unfold destroy_RemoteTensorTable, mbind, SR_bind, sr_modify. cbn. unfold run_deleter, mbind, SR_bind. by destruct (owner c).
Qed.

(** ** Examples *)

Module ByteTorch.
(** The next address. *)
#[export] Instance torch : Torch Z := {|
  zeros sizes d dev w := (Ok (MkTorchTensor sizes (contiguous sizes) 0 d dev false false false (prod_list sizes) w), w + 1);
  from_blob p sizes strides d dev := Ok (MkTorchTensor sizes strides 0 d dev false false false (prod_list sizes) p);
  copy_ dst src w := (Ok tt, w);
  set_requires_grad b t := Ok t;
  conj t := t;
  neg t w := (Ok t, w);
|}.
#[export] Instance floats : FloatLib := {| float := unit; float_zero := tt; stof _ := None; stod _ := None |}.

Definition env : pull_env := MkPullEnv (fun _ _ _ _ => Ok true) (fun _ _ _ _ _ => Ok true) (fun _ _ _ _ => Ok true) 0 (fun _ => 1) (fun _ s => s).
Definition cfg : pull_config := MkPullConfig 0 (MkNodeInfo "10.0.0.1" 1 2) [] 1000 false false 0 false false.
Definition start : setup Z :=
  MkSetup new_allocator true TwoNumaNodes.no_memory 4096 (MkPullState true true 0 0 false 0 ∅ ∅ ∅ ∅ ∅ []).
Definition options : Options :=
  <["TRANSFER_ENGINE_ENABLE_NUMA_ALLOCATION"%string := "true"%string]>
  (<["TRANSFER_ENGINE_COPY_THREAD_NUM"%string := "2"%string]> {["TRANSFER_ENGINE_COPY_LARGE_THREAD_NUM"%string := "1"%string]}).

Lemma allocates n : torch_allocates (W := Z) n.
Proof. split; [intros w|intros p]; repeat eexists; cbn; lia. Qed.
End ByteTorch.

#[local] Existing Instances ByteTorch.torch ByteTorch.floats TwoNumaNodes.numa TwoNumaNodes.numa_laws PlainJson.lib.

Definition demo_options : table_options :=
  match read_table_options option_definitions ByteTorch.options with
  | Ok o => o
  | _ => MkTableOptions false false 0 0 false 0 false no_parallel_config no_parallel_config ∅ 0 0 0 0
           {| enable_perf_metrics_ := false; perf_sample_rate_ := 0; perf_sample_step_ := 0; perf_read_count_ := 0 |} false
  end.

Lemma demo_options_read : read_table_options option_definitions ByteTorch.options = Ok demo_options.
Proof. vm_compute. reflexivity. Qed.

Lemma inference_table_opened_witness :
  exists t s', new_RemoteTensorTable option_definitions ByteTorch.env ByteTorch.cfg ByteTorch.options true ByteTorch.start = (Ok t, s') /\
    length (rt_buckets t) = 2%nat /\ length (rt_large_buckets t) = 1%nat /\
    Forall (bucket_ok ByteTorch.env ByteTorch.cfg s' (to_copy_bucket demo_options)) (rt_buckets t).
Proof.
  assert (0 <= to_copy_threads demo_options < 2 ^ 31) as Hthreads by (vm_compute; split; congruence).
  assert (0 <= to_copy_large_threads demo_options < 2 ^ 31) as Hlarge by (vm_compute; split; congruence).
  pose proof (inference_table_opened option_definitions ByteTorch.env ByteTorch.cfg ByteTorch.options demo_options ByteTorch.start
    demo_options_read eq_refl Hthreads Hlarge (ByteTorch.allocates _) (ByteTorch.allocates _)) as Hopen.
  cbv zeta in Hopen. replace ((to_small_tensor_size demo_options <=? to_compact_cache_size demo_options) &&
    (to_compact_cache_size demo_options <=? to_copy_bucket demo_options)) with true in Hopen by (vm_compute; reflexivity).
  destruct (new_RemoteTensorTable _ _ _ _ _ _) as [[t|e|] s']; [|by destruct Hopen as [_ [(q & _ & Hq)|(q & _ & Hq)]]
    |by destruct Hopen as (q & n & Hq)].
  destruct Hopen as (_ & Hl & Hbs & Hll & _). exists t, s'. split; [reflexivity|].
  replace (to_copy_threads demo_options) with 2 in Hl by (vm_compute; reflexivity).
  replace (to_copy_large_threads demo_options) with 1 in Hll by (vm_compute; reflexivity). split; [lia|]. split; [lia|exact Hbs].
Defined.

Lemma cache_outlives_allocator_witness :
  exists t s', new_RemoteTensorTable option_definitions ByteTorch.env ByteTorch.cfg ByteTorch.options false ByteTorch.start = (Ok t, s') /\
    (destroy_RemoteTensorTable t s').1 = Undef.
Proof.
  destruct (cache_outlives_allocator option_definitions ByteTorch.env ByteTorch.cfg ByteTorch.options demo_options ByteTorch.start
    demo_options_read eq_refl ltac:(vm_compute; congruence) ltac:(vm_compute; congruence) (ByteTorch.allocates _))
    as (t & cache & s' & E & Hc & _ & _ & _ & Hd).
  exists t, s'. split; [exact E|]. rewrite Hd.
  assert (is_Some (owner cache)) as [r ->]; [|reflexivity].
  apply (f_equal fst) in E. vm_compute in E. injection E as <-. injection Hc as <-. by eexists.
Defined.
