(* ===== verification/ReadCorrect.v ===== *)
(** * Reads of the remote tensor table

    The plan of a read, the layout in the copy bucket, the transfers and the
    copies put together: what a target holds after it has been read. *)

From S2P Require Import Prelude StateResult Tensor ShardedOps Messages Transfer Compact RemoteRead.
Local Open Scope Z_scope.

(** ** Dense tensors *)

(** The strides of a tensor stored row by row without gaps. *)
Definition dense (sz st : list Z) : Prop :=
  forall c, length c = length sz -> dot st c = row_major sz c.

Lemma row_major_tail sz sz' c : length sz = length sz' -> tail sz = tail sz' ->
  row_major sz c = row_major sz' c.
Proof. destruct sz, sz'; try done. cbn. intros _ ->. done. Qed.

Lemma dense_tail sz sz' st : dense sz st -> length sz = length sz' -> tail sz = tail sz' -> dense sz' st.
Proof. intros Hd Hl Ht c Hc. rewrite Hd by congruence. by apply row_major_tail. Qed.

Lemma row_major_range sz c : in_box (zeros sz) sz c -> 0 <= row_major sz c < prod_list sz.
Proof.
  revert c. induction sz as [|s sz IH]; cbn; intros c H.
  - apply in_box_nil in H as ->. cbn. lia.
  - apply in_box_cons in H as (x & cs & -> & Hx & Hcs). specialize (IH _ Hcs). cbn. nia.
Qed.

(** ** Boxes *)

Lemma in_box_lengths off sz c : in_box off sz c -> length off = length sz /\ length c = length sz.
Proof. intros H. induction H; cbn; lia. Qed.

Lemma local_zeros off sz c : in_box off sz c -> in_box (zeros sz) sz (zip_with Z.sub c off).
Proof. intros H. induction H; cbn; constructor; [lia|done]. Qed.

Lemma zip_sub_add c off : length off = length c -> zip_with Z.sub (zip_with Z.add c off) off = c.
Proof. revert off. induction c as [|x c IH]; intros [|o off] Hl; cbn in *; try done. f_equal; [lia|]. apply IH. lia. Qed.

Lemma zip_add_sub c off : length off = length c -> zip_with Z.add (zip_with Z.sub c off) off = c.
Proof. revert off. induction c as [|x c IH]; intros [|o off] Hl; cbn in *; try done. f_equal; [lia|]. apply IH. lia. Qed.

(** The shifted offset of a pruned shard, from its effect on coordinates. *)
Lemma shifted_offset (g g' co : list Z) : length g = length co ->
  (forall c, length c = length co -> zip_with Z.add c g' = zip_with Z.add (zip_with Z.add c co) g) ->
  length g' = length co -> g' = zip_with Z.add co g.
Proof.
  intros Hg Hc Hg'. specialize (Hc (zeros co) ltac:(unfold zeros; apply length_map)).
  assert (forall l : list Z, length l = length co -> zip_with Z.add (zeros co) l = l) as Hz.
  { clear. induction co as [|x co IH]; intros [|y l] Hl; cbn in *; try done. f_equal. apply IH. lia. }
  by rewrite !Hz in Hc.
Qed.

Lemma box_pos_shift gs g sz co cs : box_pos gs g sz ->
  Forall3 (fun o n s => 0 <= o /\ 0 < n /\ o + n <= s) co cs sz ->
  box_pos gs (zip_with Z.add co g) cs.
Proof.
  unfold box_pos. intros H. revert co cs. induction H; intros co cs H2; inversion H2; subst; cbn; constructor; [lia|auto].
Qed.

Lemma in_box_unshift g sz co cs c : in_box (zip_with Z.add co g) cs c ->
  Forall3 (fun o n s => 0 <= o /\ 0 < n /\ o + n <= s) co cs sz -> length g = length co ->
  in_box g sz c.
Proof.
  intros H H2. revert g c H. induction H2 as [|o n s co cs sz ? ? IH]; intros [|x g] c Hb Hl; cbn in *; try lia.
  - apply in_box_nil in Hb as ->. constructor.
  - apply in_box_cons in Hb as (y & c' & -> & ? & Hc). constructor; [lia|]. by apply IH; [|lia].
Qed.

Lemma shift_local c co g : length co = length c -> length g = length c ->
  zip_with Z.add (zip_with Z.sub c (zip_with Z.add co g)) co = zip_with Z.sub c g.
Proof.
  revert co g. induction c as [|x c IH]; intros [|o co] [|y g] H1 H2; cbn in *; try done.
  f_equal; [lia|]. apply IH; lia.
Qed.

(** The element a copy operation writes lies in the box it copies from. *)
Lemma copied_in_box to cs lt co c g : in_box to cs lt ->
  zip_with Z.add (zip_with Z.sub lt to) co = zip_with Z.sub c g ->
  length co = length cs -> length c = length cs -> length g = length cs ->
  in_box (zip_with Z.add co g) cs c.
Proof.
  intros H. revert co c g. induction H as [|t n x to cs lt Hx _ IH]; intros [|o co] [|y c] [|z g] He; cbn in *; try done.
  - intros. constructor.
  - intros. injection He as E He. constructor; [lia|]. apply IH; [done|lia..].
Qed.

(** Pruning moves the offset of a shard by the offset of the box. *)
Lemma pruned_offset t sz st k copy_shape copy_offset t' k' :
  dims_ok t sz st -> sz <> [] -> length (global_offset k) = length sz ->
  Forall3 (fun o n s => 0 <= o /\ 0 < n /\ o + n <= s) copy_offset copy_shape sz ->
  TryAdjustGlobalOffset t copy_shape copy_offset k = Ok (true, t', k') ->
  global_offset k' = zip_with Z.add copy_offset (global_offset k) /\
  dims_ok t' copy_shape st /\ tail copy_shape = tail sz /\ global_shape k' = global_shape k /\
  forall c, length c = length sz -> elem_pos t' c = elem_pos t (zip_with Z.add c copy_offset).
Proof.
  intros Hd Hne Hlg Hw Hadj. destruct (Forall3_lengths _ _ _ _ Hw) as [Hl1 Hl2].
  assert (Forall3 (fun o n s => 0 <= o /\ 0 <= n /\ o + n <= s) copy_offset copy_shape sz) as Hw'
    by (eapply Forall3_impl; [exact Hw|]; cbn; lia).
  pose proof (fun c Hc => try_adjust_elements t sz st k copy_shape copy_offset t' k' c
                Hd Hne Hlg Hw' Hadj Hc) as Hel.
  destruct (Hel (zeros sz) ltac:(apply length_map)) as (Hd' & Htl & _ & Hgs' & Hgl & _).
  split_and!; try done.
  - apply shifted_offset; [congruence|intros c Hc; apply (Hel c); congruence|congruence].
  - intros c Hc. apply (Hel c Hc).
Qed.

(** ** The plan *)

(** The operations name the candidates in order, each at most once. *)
Lemma find_loop_indices idx cands tk tt ops :
  FindCoveringCandidatesUnsafe_loop idx cands tk tt = Ok ops ->
  StronglySorted Z.lt (map candidate_index ops) /\
  Forall (fun op => idx <= candidate_index op) ops.
Proof.
  revert idx ops. induction cands as [|[ck ct] cands IH]; intros idx ops H; cbn in H.
  { injection H as <-. split; constructor. }
  ok_inv H. destruct a as [l|].
  - ok_inv H. ok_inv H. injection H as <-. destruct (IH _ _ E1) as [Hs Hb].
    unfold make_copy_op in E0. do 3 ok_inv E0. injection E0 as <-. cbn. split.
    + constructor; [done|]. apply Forall_map. eapply Forall_impl; [exact Hb|]. cbn. lia.
    + constructor; [cbn; lia|]. eapply Forall_impl; [exact Hb|]. cbn. lia.
  - destruct (IH _ _ H) as [Hs Hb]. split; [done|]. eapply Forall_impl; [exact Hb|]. cbn. lia.
Qed.

(** A tuple of the plan: its candidate, pruned to the box that is copied. *)
Definition tuple_of (prune : bool) (cands : list (ShardedKey * ATensor)) (op : CopyOperation)
    (sh : ShardedATensorTuple) : Prop :=
  exists t b, index cands (candidate_index op) = Ok (raw_key sh, t) /\
    (if prune then TryAdjustGlobalOffset t (copy_shape op) (src_offset op) (raw_key sh)
     else Ok (false, t, raw_key sh)) = Ok (b, shard sh, adjusted_key sh).

Lemma index_set_other {A} (l l' : list A) i j x : index_set l i x = Ok l' -> i <> j ->
  index l' j = index l j.
Proof.
  unfold index_set, index. intros H Hne. destruct (Z.ltb_spec i 0); [done|].
  destruct (_ <? _)%nat; [|done]. injection H as <-.
  destruct (Z.ltb_spec j 0); [done|]. by rewrite list_lookup_insert_ne by lia.
Qed.

Lemma collect_shards_spec prune cands cur ops shards :
  collect_shards prune cur ops = Ok shards -> StronglySorted Z.lt (map candidate_index ops) ->
  (forall op, op ∈ ops -> index cur (candidate_index op) = index cands (candidate_index op)) ->
  Forall2 (tuple_of prune cands) ops shards.
Proof.
  revert cur shards. induction ops as [|op ops IH]; intros cur shards H Hs Hcur; cbn in H.
  { injection H as <-. constructor. }
  ok_inv H. destruct a as [k t]. ok_inv H. destruct a as [[b t'] k']. do 2 ok_inv H. injection H as <-.
  apply StronglySorted_inv in Hs as [Hs Hlt]. constructor.
  - exists t, b. cbn. rewrite <-Hcur by left. done.
  - apply (IH _ _ E2 Hs). intros op' Hop'. rewrite <-Hcur by by right.
    apply (index_set_other _ _ _ _ _ E1). rewrite Forall_forall in Hlt.
    specialize (Hlt _ (list_elem_of_fmap_2 candidate_index _ _ Hop')). lia.
Qed.

(** ** The layout of a read *)

(** The placed shards from [offset] on: each in its own bytes of the bucket. *)
Fixpoint laid_out (f : ScalarType.t -> Z) (base total_size offset : Z)
    (placed : list (Z * ShardedATensorTuple * ATensor)) : Prop :=
  match placed with
  | [] => True
  | (off, sh, a) :: placed' =>
      exists n, GetTensorTotalByteSize f (shard sh) = Ok n /\ off = offset /\ 0 <= n /\
        offset + n <= total_size /\ data (storage a) = base + off /\
        at_size a = at_size (shard sh) /\ laid_out f base total_size (offset + n) placed'
  end.

Lemma dims_vector_Some p n l : dims_vector p n = Ok l -> 0 <= n ->
  (forall l', p = Some l' -> Z.of_nat (length l') = n) -> p <> None -> p = Some l.
Proof.
  unfold dims_vector, copy_array. destruct p as [l'|]; [|done]. intros H Hn Hl _.
  specialize (Hl l' eq_refl). destruct (_ <=? _); [|done]. injection H as <-. by rewrite firstn_all2 by lia.
Qed.

Lemma place_shards_layout f blob_nbytes base total_size offset shards placed :
  0 <= total_size < 2 ^ 63 ->
  Forall (fun sh => exists sz st, dims_ok (shard sh) sz st) shards ->
  (forall sh n, sh ∈ shards -> GetTensorTotalByteSize f (shard sh) = Ok n -> n < 2 ^ 63) ->
  0 <= offset <= total_size -> place_shards f blob_nbytes base total_size offset shards = Ok placed ->
  map (fun p => p.1.2) placed = shards /\ laid_out f base total_size offset placed.
Proof.
  intros Ht Hd Hn. revert offset placed. induction Hd as [|sh shards (sz & st & Hsz & Hst & Hdn & Hlen) _ IH]; intros offset placed Ho H; cbn in H.
  { by injection H as <-. }
  ok_inv H. ok_inv H. ok_inv H. ok_inv H. ok_inv H. injection H as <-.
  pose proof (byte_size_nonneg _ _ _ E) as Ha. pose proof (Hn sh a ltac:(left) E) as Ha'.
  rewrite i64_small in E0 by (unfold in_i64; lia). apply chk64_Ok in E0 as ->.
  apply throw_if_Ok, Z.ltb_ge in E1. rewrite u64_small in E1 by (unfold in_u64; lia).
  destruct (IH ltac:(intros; eapply Hn; [by right|done]) (offset + a) _ ltac:(lia) E3) as [<- Hl].
  split; [done|]. exists a. unfold blob_atensor in E2. repeat ok_inv E2. injection E2 as <-.
  split_and!; try done. cbn. rewrite Hsz in *. symmetry. apply (dims_vector_Some _ (dim_num (shard sh))); [done|lia| |done].
  by intros l' [= <-].
Qed.

(** ** The transfers of a read *)

(** The metas a read of sequence [q] uses: those of the sequence or, until the
    first read has moved them, those of the last completed one. *)
Definition reader_metas (q : Z) (s : pull_state) : option TransferTensorMeta :=
  match remote_tensor_cache s !! q with
  | Some metas => Some metas
  | None => if is_publish_meta s then remote_tensor_cache s !! last_completed_seq_id s else None
  end.

Definition offers (q : Z) (s : pull_state) (k : ShardedKey) (info : TensorRDMAInfo) : Prop :=
  exists metas infos, reader_metas q s = Some metas /\ metas !! k = Some infos /\ info ∈ infos.

(** A call to the transports that does not write the bytes from [lo] to [hi]. *)
Definition spares (lo hi : Z) (a : action) : Prop :=
  match a with ActReceive local_addr len _ _ _ => local_addr + u32 len <= lo \/ hi <= local_addr | _ => True end.

Definition grows (lo hi : Z) (s s' : pull_state) : Prop :=
  exists acts, io s' = io s ++ acts /\ Forall (spares lo hi) acts.

#[export] Instance grows_preorder lo hi : PreOrder (grows lo hi).
Proof.
  split; [intros s; exists []; by rewrite app_nil_r|].
  intros s1 s2 s3 (a & E & Ha) (b & E' & Hb). exists (a ++ b). split; [by rewrite E', E, app_assoc|by apply Forall_app].
Qed.

Section Transfers.
Context (env : pull_env) (cfg : pull_config) (q lo hi : Z) (serves : ShardedKey -> TensorRDMAInfo -> Prop).

(** Every info a read may use is one that [serves] its key. *)
Definition served (s : pull_state) : Prop := forall k info, offers q s k info -> serves k info.

(** The other threads offer nothing else, and write elsewhere. *)
Definition steady : Prop := forall i s, served s -> served (others env i s) /\ grows lo hi s (others env i s).

Lemma wait_steady cond max_ms interval_ms s b s' : steady -> served s ->
  WaitCondition (others env) cond max_ms interval_ms s = (Ok b, s') -> served s' /\ grows lo hi s s'.
Proof.
  intros Hst. unfold WaitCondition. generalize (S (wait_polls max_ms interval_ms)) as fuel. intros fuel.
  generalize 0%nat as i, 0 as w. revert s. induction fuel as [|fuel IH]; intros s i w Hs; cbn [wait_loop]; [done|].
  destruct (cond s); [by intros [= <- <-]|]. destruct (max_ms <? w); [by intros [= <- <-]|].
  destruct (Hst i s Hs) as [Hs1 Hg]. intros E. destruct (IH (others env i s) (S i) (w + interval_ms) Hs1) as [Hs' Hg'].
  - destruct (wait_loop _ _ _ _ _ _ _ _) as [[b1 s1]|]; [exact E|discriminate E].
  - split; [done|by etrans].
Qed.

Lemma move_cache_served s u s' : is_publish_meta s = true -> served s -> move_cache q s = (Ok u, s') ->
  served s' /\ io s' = io s.
Proof.
  unfold move_cache, mbind, M_bind, get_state. intros Hp Hs. destruct (remote_tensor_cache s !! q) as [m|] eqn:Eq.
  { by intros [= <- <-]. }
  destruct (remote_tensor_cache s !! last_completed_seq_id s) as [m|] eqn:El; [|done]. intros [= <- <-]. split; [|done].
  intros k info (metas & infos & E & Hk). apply Hs. exists metas, infos. split; [|done].
  unfold reader_metas in *. cbn in E. rewrite lookup_delete_ne in E by congruence. rewrite lookup_insert_eq in E.
  by rewrite Eq, Hp, El.
Qed.

Lemma register_adds st s u s' : RegisterStorage env cfg st s = (Ok u, s') ->
  exists cuda dev, s' = add_io (ActRegister (data st) (storage_size st) cuda dev) s.
Proof.
  unfold RegisterStorage, RegisterMemoryOrThrow, mbind, M_bind, modify, try_catch, lift. intros E.
  do 2 eexists. destruct (RegisterMemory _ _ _ _ _) as [b|e|]; [|by destruct (skip_rdma_exception_for_test cfg); [injection E as _ <-|]|done].
  destruct (throw_if _ _); [by injection E as _ <-| |done].
  by destruct (skip_rdma_exception_for_test cfg); [injection E as _ <-|].
Qed.

Lemma stats_keep_io n b s : io (UpdateThroughputStatistic env cfg n b s).2 = io s /\
  forall k info, offers q (UpdateThroughputStatistic env cfg n b s).2 k info -> offers q s k info.
Proof. unfold UpdateThroughputStatistic. destruct (negb _); [done|]. by destruct (_ =? 0). Qed.

Lemma read_tensor_transfers k a s s' : served s -> read_tensor env cfg q k a s = (Ok true, s') ->
  served s' /\ exists info off len, serves k info /\ remote_offset env a info = Ok off /\
    GetTensorTotalByteSize (itemsize env) a = Ok len /\
    io s' = io s ++ [ActReceive (data (storage a)) len (hostname_or_ip (ri_node_info info))
                       (rdma_port (ri_node_info info)) (u64 (ri_addr info + off))].
Proof.
  unfold read_tensor, mbind, M_bind, get_state, lift, modify, GetTensorRDMAInfoVector. intros Hs Hr.
  destruct (remote_tensor_cache s !! q) as [meta|] eqn:Hm; [|done].
  destruct (meta !! k) as [infos|] eqn:Hk; [|done]. destruct infos as [|i0 infos]; [done|]. set (l := i0 :: infos) in *.
  destruct (index l _) as [info| |] eqn:Hi; [|done..].
  assert (Hin : info ∈ l) by (apply index_Ok in Hi as [_ Hi]; by eapply list_elem_of_lookup_2).
  assert (serves k info) as Hserve.
  { apply Hs. exists meta, l. unfold reader_metas. by rewrite Hm. }
  destruct (remote_offset env a info) as [off| |] eqn:Ho; [|done..].
  destruct (GetTensorTotalByteSize _ _) as [len| |] eqn:Hl; [|done..]. destruct (throw_if _ _) as [u| |]; [|done..].
  destruct (Receive _ _ _ _ _ _) as [b| |]; [|done..].
  match type of Hr with context [UpdateThroughputStatistic ?e ?c ?n ?x ?s1] =>
    pose proof (stats_keep_io n x s1) as [Hio Hof]; destruct (UpdateThroughputStatistic e c n x s1) as [[] s2] end; [|done..].
  injection Hr as _ <-. cbn [snd] in *. split.
  - intros k' info' Hoff. apply Hs. exact (Hof _ _ Hoff).
  - exists info, off, len. done.
Qed.

(** A read that returns true has made one transfer, as its last call: of the bytes
    of the tensor, from the memory that one of the infos offered for its key names. *)
Lemma Get_transfers k a s s' : steady -> served s -> Get env cfg q k a s = (Ok true, s') ->
  served s' /\ exists acts info off len, Forall (spares lo hi) acts /\ serves k info /\
    remote_offset env a info = Ok off /\ GetTensorTotalByteSize (itemsize env) a = Ok len /\
    io s' = io s ++ acts ++ [ActReceive (data (storage a)) len (hostname_or_ip (ri_node_info info))
                               (rdma_port (ri_node_info info)) (u64 (ri_addr info + off))].
Proof.
  unfold Get. intros Hst Hs Hp. destruct (IsValid a); [|discriminate Hp]. cbn [negb] in Hp.
  M_inv Hp. injection E as <- <-. destruct (IsRunning s); [|discriminate Hp]. cbn [negb] in Hp.
  M_inv Hp. injection E as <- <-. M_open Hp as ok s1 E. destruct ok; [|discriminate Hp]. cbn [negb] in Hp.
  assert (served s1 /\ io s1 = io s) as [Hs1 Hio1].
  { unfold CheckAndUpdateCurrentSeqId, get_state, modify, mbind, M_bind in E. cbn in E.
    destruct (_ =? _); injection E; intros; by subst. }
  M_open Hp as u s2 E0. apply register_adds in E0 as (cuda & dev & ->). set (s2 := add_io _ s1) in *.
  assert (served s2) as Hs2 by exact Hs1. M_open Hp as ready s3 E1. destruct ready; [|discriminate Hp]. cbn [negb] in Hp.
  assert (served s3 /\ grows lo hi s2 s3) as [Hs3 (acts & Hio3 & Hacts)].
  { unfold WaitForTensorReady in E1. M_open E1 as x y E2. injection E2 as <- <-.
    destruct (is_publish_meta s2) eqn:Hpm; [|by eapply wait_steady].
    M_open E1 as u' s4 E2. destruct (move_cache_served _ _ _ Hpm Hs2 E2) as [Hs4 Hio4].
    destruct (wait_steady _ _ _ _ _ _ Hst Hs4 E1) as [? Hg]. split; [done|]. unfold grows in *. by rewrite Hio4 in Hg. }
  destruct (read_tensor_transfers _ _ _ _ Hs3 Hp) as (Hs' & info & off & len & Hserve & Ho & Hl & Hio).
  split; [done|]. exists (ActRegister (data (storage a)) (storage_size (storage a)) cuda dev :: acts), info, off, len.
  split; [by constructor|]. split_and!; try done.
  rewrite Hio, Hio3. cbn [s2 add_io io]. rewrite Hio1, <-!app_assoc. done.
Qed.
End Transfers.

(** ** The bytes of a read *)

Lemma memory_after_spares remote acts m lo hi x : Forall (spares lo hi) acts -> lo <= x < hi ->
  memory_after remote acts m x = m x.
Proof.
  intros Ha Hx. unfold memory_after. revert m. induction Ha as [|a acts Ha _ IH]; intros m; [done|]. cbn [foldl].
  rewrite IH. destruct a; try done. cbn in *. destruct (Z.leb_spec local_addr x), (Z.ltb_spec x (local_addr + u32 len)); [lia|done..].
Qed.

Lemma memory_after_app remote l1 l2 m :
  memory_after remote (l1 ++ l2) m = memory_after remote l2 (memory_after remote l1 m).
Proof. apply foldl_app. Qed.

Lemma u32_le x : 0 <= x -> 0 <= u32 x <= x.
Proof. intros Hx. pose proof (u32_range x) as [? ?]. unfold u32 in *. pose proof (Z.mod_le x (2 ^ 32)). lia. Qed.

Section Fill.
Context (env : pull_env) (cfg : pull_config) (q : Z) (remote : string -> Z -> Z -> Z)
  (serves : ShardedKey -> TensorRDMAInfo -> Prop) (base total_size : Z).

(** A placed shard whose bytes have come from a peer that serves it. *)
Definition filled (m : Z -> Z) (p : Z * ShardedATensorTuple * ATensor) : Prop :=
  exists info off len, serves (raw_key p.1.2) info /\ remote_offset env p.2 info = Ok off /\
    GetTensorTotalByteSize (itemsize env) p.2 = Ok len /\
    forall i, 0 <= i < u32 len -> m (base + p.1.1 + i) =
      remote (hostname_or_ip (ri_node_info info)) (rdma_port (ri_node_info info)) (u64 (ri_addr info + off) + i).

Definition same_bytes (p : Z * ShardedATensorTuple * ATensor) : Prop :=
  GetTensorTotalByteSize (itemsize env) p.2 = GetTensorTotalByteSize (itemsize env) (shard p.1.2).

(** The reads fill every placed shard, one after the other, and write no byte
    before the first. *)
Lemma get_placed_fills placed : steady env q base (base + total_size) serves -> Forall same_bytes placed ->
  forall offset s s' m, 0 <= offset -> laid_out (itemsize env) base total_size offset placed -> served q serves s ->
  get_placed env cfg q placed s = (Ok (), s') ->
  exists acts, io s' = io s ++ acts /\
    (forall x, base <= x < base + offset -> memory_after remote acts m x = m x) /\
    Forall (filled (memory_after remote acts m)) placed.
Proof.
  intros Hst Hsame. induction Hsame as [|[[off sh] a] placed Hp _ IH]; intros offset s s' m H0 Hl Hs E.
  { injection E as <-. exists []. by rewrite app_nil_r. }
  destruct Hl as (n & Hn & -> & Hn0 & Hfit & Hdata & _ & Hl). unfold get_placed in E. cbn [for_each_M] in E.
  M_open E as u s1 E1. M_open E1 as ok s0 E2. destruct ok; [|discriminate E1]. destruct u. injection E1; intros; subst s0. clear E1.
  destruct (Get_transfers env cfg q _ _ serves _ _ _ _ Hst Hs E2) as (Hs1 & acts & info & ro & len & Ha & Hserve & Hro & Hlen & Hio).
  cbn [fst snd] in *. assert (len = n) as -> by (unfold same_bytes in Hp; cbn in Hp; congruence).
  pose proof (u32_le n Hn0) as Hu. rewrite Hdata in Hio. set (recv := ActReceive _ _ _ _ _) in Hio.
  destruct (IH (offset + n) s1 s' (memory_after remote (acts ++ [recv]) m) ltac:(lia) Hl Hs1 E) as (acts' & Hio' & Hkeep & Hf).
  exists (acts ++ [recv] ++ acts'). split; [by rewrite Hio', Hio, <-!app_assoc|].
  rewrite app_assoc, memory_after_app. split.
  - intros x Hx. rewrite Hkeep by lia. rewrite memory_after_app. cbn.
    destruct (Z.leb_spec (base + offset) x); [lia|]. cbn. by apply (memory_after_spares remote acts m base (base + total_size)); [|lia].
  - constructor; [|done]. exists info, ro, n. split_and!; [done..|]. intros i Hi. cbn [fst snd]. rewrite Hkeep by lia.
    rewrite memory_after_app. cbn. destruct (Z.leb_spec (base + offset) (base + offset + i)); [|lia].
    destruct (Z.ltb_spec (base + offset + i) (base + offset + u32 n)); [|lia]. cbn. f_equal. lia.
Qed.
End Fill.

(** ** Views of memory *)

(** The bytes of an element. *)
Definition bytes_at (m : Z -> Z) (p n : Z) : list Z := map (fun i => m (p + i)) (seqZ 0 n).

Lemma bytes_at_ext m m' p p' n : (forall i, 0 <= i < n -> m (p + i) = m' (p' + i)) -> bytes_at m p n = bytes_at m' p' n.
Proof. intros Hm. apply map_ext_in. intros i Hi%list_elem_of_In%elem_of_seqZ. apply Hm. lia. Qed.

(** [torch::from_blob]: a tensor of the sizes given, whose element at a coordinate
    is what the bytes at its position decode to. *)
Definition from_blob_spec {T V} (f : ScalarType.t -> Z) (decode : ScalarType.t -> list Z -> V)
    (sizes : T -> list Z) (elem : T -> list Z -> V)
    (from_blob : (Z -> Z) -> Z -> list Z -> list Z -> ScalarType.t -> T) : Prop :=
  forall m ptr sz st d, length st = length sz -> sizes (from_blob m ptr sz st d) = sz /\
    forall c, in_box (zeros sz) sz c ->
      elem (from_blob m ptr sz st d) c = decode d (bytes_at m (ptr + f d * dot st c) (f d)).

Lemma dims_vector_all (l : list Z) n : Z.of_nat (length l) = n -> dims_vector (Some l) n = Ok l.
Proof. intros <-. cbn. unfold copy_array. rewrite Z.leb_refl, Nat2Z.id. by rewrite firstn_all. Qed.

Lemma blob_view_Ok {T} (from_blob : (Z -> Z) -> Z -> list Z -> list Z -> ScalarType.t -> T) m ptr t sz st d :
  dims_ok t sz st -> ATDtypeToTorchDtype (dtype t) = Ok d -> blob_view from_blob m ptr t = Ok (from_blob m ptr sz st d).
Proof.
  intros (E1 & E2 & E3 & E4) Ed. unfold blob_view. rewrite E1, E2, Ed.
  rewrite !dims_vector_all by congruence. done.
Qed.

(** The tensor the transfer is asked for describes the shard. *)
Lemma blob_atensor_Ok blob_nbytes ptr t a sz st : dims_ok t sz st -> in_i32 (dim_num t) ->
  blob_atensor blob_nbytes ptr t = Ok a ->
  dims_ok a sz st /\ dtype a = dtype t /\ storage_offset a = storage_offset t.
Proof.
  intros (E1 & E2 & E3 & E4) Hi H. unfold blob_atensor in H. rewrite E1, E2 in H.
  rewrite !dims_vector_all in H by congruence. cbn [mbind result_bind] in H. repeat ok_inv H. injection H as <-.
  split; [|split; [|done]]; cbn.
  - split_and!; try done. cbn. rewrite E3 in Hi. by rewrite i32_small.
  - apply dtype_forth in E. congruence.
Qed.

Lemma byte_size_eq f t a sz st : dims_ok t sz st -> dims_ok a sz st -> dtype a = dtype t ->
  GetTensorTotalByteSize f a = GetTensorTotalByteSize f t.
Proof.
  intros (E1 & _ & E3 & _) (E1' & _ & E3' & _) Ed. unfold GetTensorTotalByteSize, GetTensorTotalSize, size_at.
  by rewrite E1, E1', E3, E3', Ed.
Qed.

Lemma byte_size_Ok f t sz st d n : dims_ok t sz st -> ATDtypeToTorchDtype (dtype t) = Ok d ->
  0 <= prod_list sz * f d < 2 ^ 32 -> GetTensorTotalByteSize f t = Ok n -> n = prod_list sz * f d.
Proof.
  intros Hd Ed Hr H. unfold GetTensorTotalByteSize in H. ok_inv H. rewrite Ed in H. injection H as <-.
  rewrite (total_size_Ok _ _ _ _ Hd E). apply u64_small. unfold in_u64. lia.
Qed.

Lemma place_shards_blobs f blob_nbytes base total_size offset shards placed :
  place_shards f blob_nbytes base total_size offset shards = Ok placed ->
  Forall (fun p => blob_atensor blob_nbytes (base + p.1.1) (shard p.1.2) = Ok p.2) placed.
Proof.
  revert offset placed. induction shards as [|sh shards IH]; intros offset placed H; cbn in H; [by injection H as <-|].
  do 5 ok_inv H. injection H as <-. constructor; [done|by eapply IH].
Qed.

(** ** The tensors of a read *)

Section Read.
Context {T V : Type} (env : pull_env) (sizes : T -> list Z) (elem : T -> list Z -> V)
  (decode : ScalarType.t -> list Z -> V) (from_blob : (Z -> Z) -> Z -> list Z -> list Z -> ScalarType.t -> T)
  (remote : string -> Z -> Z -> Z).
Hypothesis Hitem : forall d, 0 < itemsize env d.
Hypothesis Hblob : from_blob_spec (itemsize env) decode sizes elem from_blob.

(** A published tensor: dense, of less than 4 GiB, and a box of the global shape. *)
Definition published (gs : list Z) (p : ShardedKey * ATensor) : Prop :=
  exists sz st d, dims_ok p.2 sz st /\ dense sz st /\ sz <> [] /\ in_i32 (dim_num p.2) /\
    ATDtypeToTorchDtype (dtype p.2) = Ok d /\ prod_list sz * itemsize env d < 2 ^ 32 /\ 0 <= storage_offset p.2 /\
    global_shape p.1 = gs /\ box_pos gs (global_offset p.1) sz.

(** The memory that an info names holds the box of a published tensor in the global
    tensor [G]: the tensor lies in it, at the storage offset that was published. *)
Definition holds_shard (G : list Z -> V) (p : ShardedKey * ATensor) (info : TensorRDMAInfo) : Prop :=
  storage_offset (ri_atensor info) = storage_offset p.2 /\ info_in_memory info /\
  forall sz d, at_size p.2 = Some sz -> ATDtypeToTorchDtype (dtype p.2) = Ok d ->
    (storage_offset p.2 + prod_list sz) * itemsize env d <= ri_size info /\
    forall c, in_box (global_offset p.1) sz c ->
      decode d (bytes_at (remote (hostname_or_ip (ri_node_info info)) (rdma_port (ri_node_info info)))
                  (ri_addr info + itemsize env d * elem_pos p.2 (local p.1 c)) (itemsize env d)) = G c.

Definition holds_shards (G : list Z -> V) (cands : list (ShardedKey * ATensor)) (k : ShardedKey)
    (info : TensorRDMAInfo) : Prop := forall p, p ∈ cands -> p.1 = k -> holds_shard G p info.

(** A tensor over the elements of a storage, by position, as a shard describes it. *)
Definition views (mem : Z -> V) (t : ATensor) (x : T) : Prop := forall sz st, dims_ok t sz st -> dense sz st ->
  sizes x = sz /\ forall c, in_box (zeros sz) sz c -> elem x c = mem (storage_offset t + dot st c).

Definition in_memory (mem : Z -> V) (G : list Z -> V) (p : ShardedKey * ATensor) : Prop :=
  forall sz c, at_size p.2 = Some sz -> in_box (global_offset p.1) sz c -> mem (elem_pos p.2 (local p.1 c)) = G c.

(** What a tuple of the plan is once it has been received. *)
Definition received (G : list Z -> V) (cands : list (ShardedKey * ATensor)) (sh : ShardedATensorTuple)
    (e : ShardedKey * T) : Prop :=
  e.1 = adjusted_key sh /\ exists mem, views mem (shard sh) e.2 /\
    forall p, p ∈ cands -> p.1 = raw_key sh -> in_memory mem G p.

Lemma dims_elem_pos t sz st c : dims_ok t sz st -> storage_offset t + dot st c = elem_pos t c.
Proof. intros (_ & Et & _). unfold elem_pos. by rewrite Et. Qed.

Lemma dims_unique t sz st sz' st' : dims_ok t sz st -> dims_ok t sz' st' -> sz' = sz /\ st' = st.
Proof. intros (E1 & E2 & _) (E1' & E2' & _). split; congruence. Qed.

Lemma box_prod_pos gs off sz : box_pos gs off sz -> 0 < prod_list sz.
Proof. intros H. induction H; cbn; [lia|]. nia. Qed.

Lemma op_prod_pos co cs sz : Forall3 (fun o n s => 0 <= o /\ 0 < n /\ o + n <= s) co cs sz -> 0 < prod_list sz.
Proof. intros H. induction H; cbn; [lia|]. nia. Qed.

(** A part of a tensor that was cut out of it without a copy. *)
Definition slice_of (ct t : ATensor) (d : ScalarType.t) (csz : list Z) : Prop :=
  exists sz st, dims_ok t sz st /\ dense sz st /\ in_i32 (dim_num t) /\
    ATDtypeToTorchDtype (dtype t) = Ok d /\ 0 <= prod_list sz <= prod_list csz /\
    storage_offset ct <= storage_offset t <= storage_offset ct + prod_list csz.

Lemma pruned_slice gs (prune : bool) ck ct csz st d op b t' k' :
  dims_ok ct csz st -> dense csz st -> csz <> [] -> in_i32 (dim_num ct) -> ATDtypeToTorchDtype (dtype ct) = Ok d ->
  box_pos gs (global_offset ck) csz ->
  Forall3 (fun o n s => 0 <= o /\ 0 < n /\ o + n <= s) (src_offset op) (copy_shape op) csz ->
  (if prune then TryAdjustGlobalOffset ct (copy_shape op) (src_offset op) ck else Ok (false, ct, ck)) = Ok (b, t', k') ->
  slice_of ct t' d csz.
Proof.
  intros Hd Hdense Hne Hi32 Hdt Hbox Hop Hadj. pose proof (box_prod_pos _ _ _ Hbox) as Hpos.
  assert (t' = ct -> slice_of ct t' d csz) as Hsame by (intros ->; exists csz, st; split_and!; try done; lia).
  destruct prune; [|apply Hsame; congruence]. destruct b.
  2: { apply Hsame. unfold TryAdjustGlobalOffset in Hadj. ok_inv Hadj. destruct a; [repeat ok_inv Hadj|]; congruence. }
  assert (length (global_offset ck) = length csz) as Hlg by (by apply Forall3_lengths in Hbox as [? ?]; congruence).
  destruct (pruned_offset ct csz st ck (copy_shape op) (src_offset op) t' k' Hd Hne Hlg Hop Hadj) as (_ & Hd' & Htl & _ & Hel).
  destruct (Forall3_lengths _ _ _ _ Hop) as [Hl1 Hl2].
  assert (dtype t' = dtype ct /\ dim_num t' = dim_num ct) as [E1 E2].
  { unfold TryAdjustGlobalOffset in Hadj. ok_inv Hadj. destruct a; [repeat ok_inv Hadj|discriminate Hadj]. by injection Hadj as <- _. }
  assert (in_box (zeros csz) csz (src_offset op)) as Hin.
  { clear -Hop. induction Hop; cbn; constructor; [lia|done]. }
  assert (storage_offset t' = storage_offset ct + dot st (src_offset op)) as Eso.
  { specialize (Hel (zeros csz) ltac:(apply length_map)). rewrite <-(dims_elem_pos _ _ _ _ Hd'), <-(dims_elem_pos _ _ _ _ Hd) in Hel.
    assert (forall l : list Z, length l = length csz -> zip_with Z.add (zeros csz) l = l) as Hz.
    { clear. induction csz as [|x csz IH]; intros [|y l] Hl; cbn in *; try done. f_equal. apply IH. lia. }
    rewrite Hz in Hel by congruence. assert (dot st (zeros csz) = 0); [|lia].
    clear. revert st. induction csz as [|x csz IH]; intros [|y st]; cbn; try done. rewrite IH. lia. }
  exists (copy_shape op), st. split; [done|]. split; [by apply (dense_tail csz); [|congruence|]|].
  rewrite E1, E2, Eso. split; [done|]. split; [done|].
  rewrite Hdense by (destruct (in_box_lengths _ _ _ Hin); lia). pose proof (row_major_range _ _ Hin). split; [|lia].
  destruct csz as [|s0 csz]; [done|]. inversion Hop as [|o n s co cs csz' Hh Ht Eo En]. rewrite <-En in Htl. cbn in Htl. subst. cbn [prod_list].
  assert (0 < prod_list csz) by by eapply op_prod_pos.
  nia.
Qed.

(** The place of a slice in the memory of the peer, when nothing wraps around. *)
Lemma slice_offset G p info ct_sz a t d off : holds_shard G p info -> at_size p.2 = Some ct_sz -> 0 <= storage_offset p.2 ->
  ATDtypeToTorchDtype (dtype p.2) = Ok d -> slice_of p.2 t d ct_sz -> dtype a = dtype t ->
  storage_offset a = storage_offset t -> remote_offset env a info = Ok off ->
  u64 (ri_addr info + off) = ri_addr info + storage_offset t * itemsize env d.
Proof.
  intros (Hso & (Ha0 & Has) & Hmem) Hsz H0 Hdt (sz & st & _ & _ & _ & Hdt' & _ & Hlo & Hhi) Ed Eso Ho.
  destruct (Hmem _ _ Hsz Hdt) as [Hfit _]. pose proof (Hitem d) as Hd.
  assert (0 <= storage_offset t * itemsize env d <= ri_size info) by nia.
  assert (off = storage_offset t * itemsize env d) as ->; [|apply u64_small; unfold in_u64; lia].
  assert (GetStorageByteOffset (itemsize env) (dtype a) (storage_offset t) = Ok (storage_offset t * itemsize env d)) as Hg.
  { unfold GetStorageByteOffset. rewrite Ed, Hdt'. cbn. rewrite u64_small by (unfold in_u64; lia). done. }
  unfold remote_offset in Ho. rewrite Eso, Hso in Ho.
  destruct (Z.eqb_spec (storage_offset t) (storage_offset p.2)) as [E|E], (Z.eqb_spec (storage_offset t) 0) as [E'|E']; cbn [negb andb] in Ho.
  - rewrite <-E, Hg in Ho. by injection Ho.
  - rewrite <-E, Hg in Ho. by injection Ho.
  - lia.
  - ok_inv Ho. rewrite Hg in Ho. by injection Ho.
Qed.

(** What [from_blob] sees of a shard that was filled. *)
Lemma filled_received G cands blob_nbytes base m off sh a ct d csz x :
  (raw_key sh, ct) ∈ cands -> at_size ct = Some csz -> 0 <= storage_offset ct -> ATDtypeToTorchDtype (dtype ct) = Ok d ->
  prod_list csz * itemsize env d < 2 ^ 32 -> slice_of ct (shard sh) d csz ->
  (forall p, p ∈ cands -> p.1 = raw_key sh -> p.2 = ct) ->
  blob_atensor blob_nbytes (base + off) (shard sh) = Ok a ->
  filled env remote (holds_shards G cands) base m (off, sh, a) ->
  blob_view from_blob m (base + off) (shard sh) = Ok x -> received G cands sh (adjusted_key sh, x).
Proof.
  intros Hin Hcsz H0 Hdt Hsmall Hsl Hone Hba (info & ro & len & Hserve & Hro & Hlen & Hm) Hx. cbn [fst snd] in *.
  pose proof Hsl as (sz & st & Hd & Hdense & Hi32 & Hdt' & Hprod & Hso). pose proof (Hitem d) as Hpos.
  destruct (blob_atensor_Ok _ _ _ _ _ _ Hd Hi32 Hba) as (Hda & Eda & Esa).
  pose proof (Hserve _ Hin eq_refl) as Hh.
  rewrite (slice_offset G _ _ csz _ _ _ _ Hh Hcsz H0 Hdt Hsl Eda Esa Hro) in Hm.
  assert (0 <= prod_list sz * itemsize env d < 2 ^ 32) as Hbytes.
  { split; [apply Z.mul_nonneg_nonneg; lia|]. eapply Z.le_lt_trans; [|exact Hsmall]. apply Z.mul_le_mono_nonneg_r; lia. }
  assert (u32 len = prod_list sz * itemsize env d) as Hlen'.
  { rewrite (byte_size_eq _ (shard sh) a sz st Hd Hda Eda) in Hlen.
    rewrite (byte_size_Ok _ _ _ _ _ _ Hd Hdt' Hbytes Hlen). by apply u32_small. }
  rewrite (blob_view_Ok _ _ _ _ _ _ _ Hd Hdt') in Hx. injection Hx as <-.
  split; [done|]. eexists (fun pos => decode d (bytes_at (remote (hostname_or_ip (ri_node_info info)) (rdma_port (ri_node_info info)))
    (ri_addr info + itemsize env d * pos) (itemsize env d))). split.
  - intros sz' st' Hd' _. destruct (dims_unique _ _ _ _ _ Hd Hd') as [-> ->]. cbn [snd].
    destruct (Hblob m (base + off) sz st d ltac:(apply Hd)) as [Hs Hel]. split; [done|]. intros c Hc. rewrite Hel by done.
    f_equal. apply bytes_at_ext. intros i Hi. destruct (in_box_lengths _ _ _ Hc) as [_ Hcl].
    pose proof (row_major_range _ _ Hc) as Hrm. rewrite <-Hdense in Hrm by done.
    replace (base + off + itemsize env d * dot st c + i) with (base + off + (itemsize env d * dot st c + i)) by lia.
    rewrite Hm by nia. f_equal. lia.
  - intros p Hp Ep. pose proof (Hone p Hp Ep) as E. destruct (Hserve p Hp Ep) as (_ & _ & Hmem).
    intros sz' c Hsz' Hc. apply (Hmem sz' d); [done|by rewrite E|done].
Qed.

(** A dense tensor whose storage agrees with [G] on its box is received as
    that part of the global tensor. *)
Lemma received_shard gs G mem k' t x sz st : views mem t x -> dims_ok t sz st -> dense sz st -> global_shape k' = gs ->
  box_pos gs (global_offset k') sz ->
  (forall c, in_box (global_offset k') sz c -> mem (elem_pos t (local k' c)) = G c) ->
  shard_of sizes elem gs G k' x.
Proof.
  intros Hv Hd Hdense Hgs Hbox HG. destruct (Hv sz st Hd Hdense) as [Hsz Hel].
  split; [done|]. rewrite Hsz. split; [done|]. intros c Hc.
  pose proof (local_zeros _ _ _ Hc) as Hz. unfold local. rewrite Hel, (dims_elem_pos t sz st) by done. by apply HG.
Qed.

Lemma tuple_received gs G mem (prune : bool) ck ct csz op b t' k' x : published gs (ck, ct) ->
  in_memory mem G (ck, ct) -> views mem t' x -> at_size ct = Some csz ->
  Forall3 (fun o n s => 0 <= o /\ 0 < n /\ o + n <= s) (src_offset op) (copy_shape op) csz ->
  (if prune then TryAdjustGlobalOffset ct (copy_shape op) (src_offset op) ck else Ok (false, ct, ck))
    = Ok (b, t', k') ->
  shard_of sizes elem gs G k' x /\
  forall tk c, op_copies op ck tk c -> in_shard ck ct c -> in_box (global_offset k') (sizes x) c.
Proof.
  intros (sz & st & d & Hd & Hdense & Hne & _ & _ & _ & _ & Hgs & Hbox) HG Hv Hcsz Hop Hadj. cbn [fst snd] in *.
  assert (sz = csz) as -> by (destruct Hd as (E & _); congruence). specialize (HG csz).
  destruct (decide (b = true)) as [->|Hb].
  2: { assert (t' = ct /\ k' = ck) as [-> ->].
       { destruct prune; [|by injection Hadj as _ <- <-]. unfold TryAdjustGlobalOffset in Hadj.
         ok_inv Hadj. destruct a; [repeat ok_inv Hadj; congruence|by injection Hadj as _ <- <-]. }
       split; [by eapply received_shard; eauto|]. intros tk c _ (sz & E & Hin).
       rewrite (proj1 (Hv csz st Hd Hdense)). congruence. }
  destruct prune; [|done].
  destruct (Forall3_lengths _ _ _ _ Hop) as [Hl1 Hl2].
  assert (length (global_offset ck) = length csz) as Hlg by (by apply Forall3_lengths in Hbox as [? ?]; congruence).
  destruct (pruned_offset ct csz st ck (copy_shape op) (src_offset op) t' k' Hd Hne Hlg Hop Hadj)
    as (Hgo & Hd' & Htl & Hgs' & Hel).
  assert (dense (copy_shape op) st) as Hdense' by (apply (dense_tail csz); [done|congruence|done]).
  split.
  - apply (received_shard gs G mem k' t' x (copy_shape op) st Hv Hd' Hdense').
    + congruence.
    + rewrite Hgo. by eapply box_pos_shift.
    + intros c Hc. rewrite Hgo in Hc. destruct (in_box_lengths _ _ _ Hc) as [_ Hcl].
      unfold local. rewrite Hel by (rewrite length_zip_with, Hgo, length_zip_with; lia).
      rewrite Hgo, shift_local by lia. apply HG; [done|]. cbn [fst]. eapply in_box_unshift; [exact Hc|exact Hop|lia].
  - intros tk c [Hb Heq] (sz & E & Hin). rewrite (proj1 (Hv _ st Hd' Hdense')), Hgo.
    destruct (in_box_lengths _ _ _ Hin) as [_ Hcl].
    eapply copied_in_box; [exact Hb|exact Heq|congruence..].
Qed.

Lemma published_shard gs p : published gs p -> shard_ok p.1 p.2.
Proof.
  intros (sz & st & d & (E & _) & _ & _ & _ & _ & _ & _ & <- & Hb). exists sz. split; [done|].
  eapply Forall3_impl; [exact Hb|]. cbn. lia.
Qed.

(** The operations behind a plan. *)
Lemma plan_inv gs metas tk tt prune shards : remote_shards metas tk tt prune = Ok shards ->
  Forall (published gs) (candidates_of metas tk) -> shard_ok tk tt ->
  exists ops, FindCoveringCandidatesUnsafe_loop 0 (candidates_of metas tk) tk tt = Ok ops /\
    CheckCandidatesCoverage (candidates_of metas tk) tk tt = Ok () /\
    Forall (cand_ok tk) (candidates_of metas tk) /\
    Forall2 (tuple_of prune (candidates_of metas tk)) ops shards /\
    NoDup (map candidate_index ops) /\
    forall op ck ct csz, op ∈ ops -> index (candidates_of metas tk) (candidate_index op) = Ok (ck, ct) ->
      at_size ct = Some csz ->
      Forall3 (fun o n s => 0 <= o /\ 0 < n /\ o + n <= s) (src_offset op) (copy_shape op) csz.
Proof.
  intros H Hpub Ht. unfold remote_shards in H. ok_inv H. set (cands := candidates_of metas tk) in *.
  unfold FindCoveringCandidates in E. ok_inv E. destruct a0. apply validate_Ok in E0 as [Hg Hcov].
  assert (Forall (cand_ok tk) cands) as Hok.
  { apply Forall_and. split; [|exact Hg]. eapply Forall_impl; [exact Hpub|]. intros p. apply published_shard. }
  destruct (find_loop_indices _ _ _ _ _ E) as [Hs _].
  exists a. split_and!; try done.
  - by apply (collect_shards_spec prune cands cands).
  - clear -Hs. induction Hs as [|x l _ IH Hx]; constructor; [|done].
    intros Hin. rewrite Forall_forall in Hx. specialize (Hx _ Hin). lia.
  - intros op ck ct csz Hop Hi Hcsz.
    destruct (find_loop_within _ _ _ _ _ Hok Ht E op Hop) as (j & ck' & ct' & csz' & tsz & Ej & Hj & Hcsz' & _ & (Hw & _) & _).
    rewrite Ej, Z.add_0_l, (index_nat _ _ _ Hj) in Hi. congruence.
Qed.

(** Every tuple of a plan is a slice of a candidate. *)
Lemma plan_slices gs metas tk tt prune shards : remote_shards metas tk tt prune = Ok shards ->
  Forall (published gs) (candidates_of metas tk) -> shard_ok tk tt ->
  Forall (fun sh => exists ct csz d, (raw_key sh, ct) ∈ candidates_of metas tk /\ at_size ct = Some csz /\
    0 <= storage_offset ct /\ ATDtypeToTorchDtype (dtype ct) = Ok d /\ prod_list csz * itemsize env d < 2 ^ 32 /\
    slice_of ct (shard sh) d csz) shards.
Proof.
  intros H Hpub Ht. destruct (plan_inv _ _ _ _ _ _ H Hpub Ht) as (ops & _ & _ & _ & Hf & _ & Hw).
  apply Forall_forall. intros sh Hsh. destruct (Forall2_elem_r _ _ _ _ Hf Hsh) as (op & Hop & t & b & Hi & Hadj).
  pose proof Hi as [_ Hl]%index_Ok.
  pose proof (proj1 (Forall_lookup _ _) Hpub _ _ Hl) as (csz & st & d & Hd & Hdense & Hne & Hi32 & Hdt & Hsm & H0 & Hgs & Hbox).
  cbn [fst snd] in *. pose proof Hd as (Ecsz & _).
  exists t, csz, d. split; [by eapply list_elem_of_lookup_2|]. split_and!; try done.
  exact (pruned_slice gs prune (raw_key sh) t csz st d op b _ _ Hd Hdense Hne Hi32 Hdt Hbox (Hw _ _ _ _ Hop Hi Ecsz) Hadj).
Qed.

(** What a plan reads: parts of the global tensor that cover the target. *)
Lemma plan_shards gs G metas tk tt prune shards entries : remote_shards metas tk tt prune = Ok shards ->
  Forall (published gs) (candidates_of metas tk) -> shard_ok tk tt ->
  Forall2 (received G (candidates_of metas tk)) shards entries ->
  Forall (fun p => shard_of sizes elem gs G p.1 p.2) entries /\
  forall c, in_shard tk tt c -> exists p, p ∈ entries /\ in_box (global_offset p.1) (sizes p.2) c.
Proof.
  intros H Hpub Ht Hrecv. destruct (plan_inv _ _ _ _ _ _ H Hpub Ht) as (ops & E & Hcov & Hok & Hf & _ & Hw).
  set (cands := candidates_of metas tk) in *.
  assert (forall op sh e, op ∈ ops -> tuple_of prune cands op sh -> received G cands sh e -> shard_of sizes elem gs G e.1 e.2 /\
    forall c ck ct, index cands (candidate_index op) = Ok (ck, ct) -> op_copies op ck tk c -> in_shard ck ct c ->
      in_box (global_offset e.1) (sizes e.2) c) as Htup.
  { intros op sh e Hop (t & b & Hi & Hadj) (Ee & mem & Hv & Hmem). pose proof Hi as [_ Hl]%index_Ok. rewrite Ee.
    assert (published gs (raw_key sh, t)) as Hp by (by eapply Forall_lookup in Hpub).
    pose proof Hp as (csz & _ & _ & (Hcsz & _) & _).
    assert ((raw_key sh, t) ∈ cands) as Hin by (by eapply list_elem_of_lookup_2).
    destruct (tuple_received gs G mem prune _ _ _ _ _ _ _ _ Hp (Hmem _ Hin eq_refl) Hv Hcsz (Hw _ _ _ _ Hop Hi Hcsz) Hadj) as [Hsh Hbx].
    split; [exact Hsh|]. intros c ck ct Hi'. rewrite Hi' in Hi. injection Hi as -> ->. apply Hbx. }
  split.
  - apply Forall_forall. intros e He. destruct (Forall2_elem_r _ _ _ _ Hrecv He) as (sh & Hsh & Hre).
    destruct (Forall2_elem_r _ _ _ _ Hf Hsh) as (op & Hop & Htu). by apply (Htup op sh e).
  - intros c Hc. destruct (coverage_sound _ _ _ _ _ Hok Ht Hcov Hc) as (j & ck & ct & Hj & Hcin).
    destruct (find_loop_copies _ _ _ _ _ Hok Ht E j ck ct c Hj Hcin Hc) as (op & Hop & Ej & Hcp).
    destruct (Forall2_elem_l _ _ _ _ Hf Hop) as (sh & Hsh & Htu).
    destruct (Forall2_elem_l _ _ _ _ Hrecv Hsh) as (e & He & Hre). exists e. split; [done|].
    apply (proj2 (Htup op sh e Hop Htu Hre) c ck ct); [|done..]. rewrite Ej. by apply index_nat.
Qed.

(** Candidates that share no element. *)
Definition apart (cands : list (ShardedKey * ATensor)) : Prop :=
  forall i j p q c, cands !! i = Some p -> cands !! j = Some q -> in_shard p.1 p.2 c ->
    in_shard q.1 q.2 c -> i = j.

Lemma corner_in_box gs off sz : box_pos gs off sz -> in_box off sz off.
Proof. intros H. induction H; constructor; [lia|done]. Qed.

(** The offset of a tuple is a coordinate of its candidate. *)
Lemma tuple_corner gs prune cands op sh : Forall (published gs) cands -> tuple_of prune cands op sh ->
  (forall ck ct csz, index cands (candidate_index op) = Ok (ck, ct) -> at_size ct = Some csz ->
     Forall3 (fun o n s => 0 <= o /\ 0 < n /\ o + n <= s) (src_offset op) (copy_shape op) csz) ->
  exists (i : nat) p, candidate_index op = Z.of_nat i /\ cands !! i = Some p /\
    in_shard p.1 p.2 (global_offset (adjusted_key sh)).
Proof.
  intros Hpub (t & b & Hi & Hadj) Hw. pose proof Hi as [Hi0 Hl]%index_Ok.
  exists (Z.to_nat (candidate_index op)), (raw_key sh, t). split; [lia|]. split; [done|]. cbn.
  pose proof (proj1 (Forall_lookup _ _) Hpub _ _ Hl) as (sz & st & d & Hd & Hdense & Hne & _ & _ & _ & _ & Hgs & Hbox). cbn [fst snd] in *.
  pose proof Hd as (Es & _). exists sz. split; [done|]. specialize (Hw _ _ _ Hi Es).
  destruct (Forall3_lengths _ _ _ _ Hw) as [Hl1 Hl2], (Forall3_lengths _ _ _ _ Hbox) as [Hl3 Hl4].
  destruct (decide (b = true /\ prune = true)) as [[-> ->]|Hno].
  - destruct (pruned_offset t sz st (raw_key sh) (copy_shape op) (src_offset op) _ _ Hd Hne
      ltac:(congruence) Hw Hadj) as [-> _].
    eapply in_box_unshift; [|exact Hw|congruence].
    eapply corner_in_box, box_pos_shift; [exact Hbox|exact Hw].
  - assert (adjusted_key sh = raw_key sh) as ->; [|by eapply corner_in_box].
    destruct prune; [|by injection Hadj as _ _ <-]. unfold TryAdjustGlobalOffset in Hadj.
    ok_inv Hadj. destruct a; [repeat ok_inv Hadj; naive_solver|by injection Hadj as _ _ <-].
Qed.

Lemma plan_keys_distinct gs metas tk tt prune shards : remote_shards metas tk tt prune = Ok shards ->
  Forall (published gs) (candidates_of metas tk) -> shard_ok tk tt -> apart (candidates_of metas tk) ->
  NoDup (map adjusted_key shards).
Proof.
  intros H Hpub Ht Hap. destruct (plan_inv _ _ _ _ _ _ H Hpub Ht) as (ops & _ & _ & _ & Hf & Hnd & Hw).
  assert (forall (i : nat) sh, shards !! i = Some sh -> exists op j p, ops !! i = Some op /\
    candidate_index op = Z.of_nat j /\ candidates_of metas tk !! j = Some p /\
    in_shard p.1 p.2 (global_offset (adjusted_key sh))) as Hc.
  { intros i sh Hi. destruct (Forall2_lookup_r _ _ _ _ _ Hf Hi) as (op & Hop & Htu).
    destruct (tuple_corner gs prune _ op sh Hpub Htu) as (j & p & ? & ? & ?); [|eauto 10].
    intros ck ct csz. apply Hw. by eapply list_elem_of_lookup_2. }
  apply NoDup_alt. intros i j k Hi Hj.
  apply list_lookup_fmap_Some in Hi as (shi & -> & Hi), Hj as (shj & Ek & Hj).
  destruct (Hc _ _ Hi) as (opi & i' & p & Hopi & Ei & Hp & Hinp), (Hc _ _ Hj) as (opj & j' & q & Hopj & Ej & Hq & Hinq).
  rewrite <-Ek in Hinq. pose proof (Hap _ _ _ _ _ Hp Hq Hinp Hinq) as ->.
  apply (proj1 (NoDup_alt _) Hnd i j (Z.of_nat j')); apply list_lookup_fmap_Some;
    [exists opi|exists opj]; split; congruence.
Qed.
Lemma Forall2_impl_l {A B} (P Q : A -> B -> Prop) l k : Forall2 P l k -> (forall x y, x ∈ l -> P x y -> Q x y) -> Forall2 Q l k.
Proof. intros H. induction H; intros HQ; constructor; [by apply HQ; [left|]|]. apply IHForall2. intros. apply HQ; [by right|done]. Qed.

(** Tensors that share no element have different keys. *)
Lemma apart_keys gs cands p p' : Forall (published gs) cands -> apart cands -> p ∈ cands -> p' ∈ cands ->
  p.1 = p'.1 -> p.2 = p'.2.
Proof.
  intros Hpub Hap Hp Hp' E. rewrite Forall_forall in Hpub.
  assert (forall p, p ∈ cands -> in_shard p.1 p.2 (global_offset p.1)) as Hc.
  { intros x Hx. destruct (Hpub x Hx) as (sz & st & d & (Es & _) & _ & _ & _ & _ & _ & _ & _ & Hb).
    exists sz. split; [done|]. by eapply corner_in_box. }
  pose proof (Hc p Hp) as H1. pose proof (Hc p' Hp') as H2. rewrite <-E in H2.
  apply list_elem_of_lookup_1 in Hp as [i Hi], Hp' as [j Hj].
  pose proof (Hap i j p p' _ Hi Hj H1 ltac:(by rewrite <-E)) as ->. congruence.
Qed.

(** The map of the tensors read, when no two of them have the same key. *)
Lemma emplace_views m base placed acc :
  NoDup (acc.*1 ++ map (fun p => adjusted_key p.1.2) placed) ->
  Forall (fun p => exists x, blob_view from_blob m (base + p.1.1) (shard p.1.2) = Ok x) placed ->
  exists entries,
    for_each (fun (p : Z * ShardedATensorTuple * ATensor) acc =>
      t ← blob_view from_blob m (base + p.1.1) (shard p.1.2);
      Ok (emplace_entry acc (adjusted_key p.1.2) t)) placed acc = Ok (acc ++ entries) /\
    Forall2 (fun p e => e.1 = adjusted_key p.1.2 /\ blob_view from_blob m (base + p.1.1) (shard p.1.2) = Ok e.2) placed entries.
Proof.
  intros Hnd Hok. revert acc Hnd. induction Hok as [|p placed (x & Hx) _ IH]; intros acc Hnd.
  { exists []. by rewrite app_nil_r. }
  assert (emplace_entry acc (adjusted_key p.1.2) x = acc ++ [(adjusted_key p.1.2, x)]) as Eacc.
  { apply decide_False. apply NoDup_app in Hnd as (_ & Hd & _). intros Hin. apply (Hd _ Hin). cbn. left. }
  cbn [for_each]. rewrite Hx. cbn [mbind result_bind]. rewrite Eacc.
  destruct (IH (acc ++ [(adjusted_key p.1.2, x)])) as (entries & -> & Hf); [by rewrite fmap_app, <-app_assoc|].
  exists ((adjusted_key p.1.2, x) :: entries). split; [by rewrite <-app_assoc|]. by constructor.
Qed.

(** The tensors over the bucket after the reads of a plan. *)
Lemma read_entries pcfg q gs G metas tk tt prune shards blob_nbytes bk placed s s' memory :
  remote_shards metas tk tt prune = Ok shards -> Forall (published gs) (candidates_of metas tk) ->
  apart (candidates_of metas tk) -> shard_ok tk tt -> 0 <= bk_bytes bk < 2 ^ 63 ->
  steady env q (bk_data bk) (bk_data bk + bk_bytes bk) (holds_shards G (candidates_of metas tk)) ->
  served q (holds_shards G (candidates_of metas tk)) s ->
  place_shards (itemsize env) blob_nbytes (bk_data bk) (bk_bytes bk) 0 shards = Ok placed ->
  get_placed env pcfg q placed s = (Ok (), s') ->
  exists entries,
    for_each (fun p acc =>
      t ← blob_view from_blob (memory_after remote (actions_since s s') memory) (bk_data bk + p.1.1) (shard p.1.2);
      Ok (emplace_entry acc (adjusted_key p.1.2) t)) placed [] = Ok entries /\
    Forall2 (received G (candidates_of metas tk)) shards entries.
Proof.
  intros Hplan Hpub Hap Ht Hbk Hst Hsv Hplace Hget. set (cands := candidates_of metas tk) in *.
  pose proof (plan_slices _ _ _ _ _ _ Hplan Hpub Ht) as Hsl. fold cands in Hsl.
  assert (Forall (fun sh => exists sz st d, dims_ok (shard sh) sz st /\ in_i32 (dim_num (shard sh)) /\
    ATDtypeToTorchDtype (dtype (shard sh)) = Ok d /\ 0 <= prod_list sz * itemsize env d < 2 ^ 32) shards) as Hgeo.
  { eapply Forall_impl; [exact Hsl|]. intros sh (ct & csz & d & _ & _ & _ & _ & Hsm & sz & st & Hd & _ & Hi & Hdt & Hp & _).
    exists sz, st, d. split_and!; try done; pose proof (Hitem d); nia. }
  destruct (place_shards_layout (itemsize env) blob_nbytes (bk_data bk) (bk_bytes bk) 0 shards placed) as [Hmap Hlay]; [done| | |lia|done|].
  { eapply Forall_impl; [exact Hgeo|]. intros sh (sz & st & d & Hd & _). eauto. }
  { intros sh n Hsh Hn. rewrite Forall_forall in Hgeo. destruct (Hgeo sh Hsh) as (sz & st & d & Hd & _ & Hdt & Hb).
    rewrite (byte_size_Ok _ _ _ _ _ _ Hd Hdt Hb Hn). lia. }
  pose proof (place_shards_blobs _ _ _ _ _ _ _ Hplace) as Hba.
  assert (Forall (same_bytes env) placed) as Hsame.
  { apply Forall_forall. intros p Hp. rewrite Forall_forall in Hba. rewrite Forall_forall in Hgeo.
    destruct (Hgeo p.1.2) as (sz & st & d & Hd & Hi & _); [rewrite <-Hmap; by apply (list_elem_of_fmap_2 (fun p => p.1.2))|].
    destruct (blob_atensor_Ok _ _ _ _ _ _ Hd Hi (Hba p Hp)) as (Hda & Ed & _). by apply (byte_size_eq _ _ _ sz st). }
  destruct (get_placed_fills env pcfg q remote _ _ _ placed Hst Hsame 0 s s' memory ltac:(lia) Hlay Hsv Hget) as (acts & Hio & _ & Hfill).
  assert (actions_since s s' = acts) as -> by (unfold actions_since; rewrite Hio; apply drop_app_length).
  set (m := memory_after remote acts memory) in *.
  destruct (emplace_views m (bk_data bk) placed []) as (entries & Hent & Hf).
  { cbn. rewrite <-(map_map (fun p : Z * ShardedATensorTuple * ATensor => p.1.2) adjusted_key), Hmap.
    exact (plan_keys_distinct _ _ _ _ _ _ Hplan Hpub Ht Hap). }
  { apply Forall_forall. intros p Hp. rewrite Forall_forall in Hgeo.
    destruct (Hgeo p.1.2) as (sz & st & d & Hd & _ & Hdt & _); [rewrite <-Hmap; by apply (list_elem_of_fmap_2 (fun p => p.1.2))|].
    rewrite (blob_view_Ok _ _ _ _ _ _ _ Hd Hdt). by eexists. }
  exists entries. split; [exact Hent|]. rewrite <-Hmap in Hsl |- *. apply Forall2_fmap_l.
  eapply Forall2_impl_l; [exact Hf|]. intros [[off sh] a] [k x] Hin [E1 E2]. cbn in E1, E2. subst k.
  rewrite Forall_forall in Hsl. rewrite Forall_forall in Hba. rewrite Forall_forall in Hfill.
  destruct (Hsl sh) as (ct & csz & d & Hct & Hcsz & H0 & Hdt & Hsm & Hslice).
  { by apply (list_elem_of_fmap_2 (fun p => p.1.2) placed (off, sh, a)). }
  eapply (filled_received G cands blob_nbytes (bk_data bk) m off sh a ct d csz); try done.
  - intros p Hp Ep. exact (apart_keys gs cands p (raw_key sh, ct) Hpub Hap Hp Hct Ep).
  - exact (Hba _ Hin).
  - exact (Hfill _ Hin).
Qed.

End Read.

(** ** Properties *)

(** C3: a read of the remote table restores the global tensor.  The planner covers, or
    has covered for an earlier read, the target with the published shards of its name, which are dense, share no element,
    have less than 4 GiB each, and lie in the memory that their nodes have announced,
    where they hold one global tensor; the shards fit the copy bucket, the prefetch cache
    is off, the transfers succeed, and the other threads neither write this bucket nor
    bring other metas.  Then the read returns, and every element of the target is the
    element of the global tensor at its coordinate: the pruning, the addresses on both
    sides, the places in the bucket, the copies out of it and their order are right. *)
Theorem remote_read_correct env pcfg cfg {T V : Type} tensor_size narrow_copy
    (to_atensor : T -> result ATensor) tensor_bytes empty_cpu blob_nbytes from_blob remote memory
    visit (sizes : T -> list Z) (elem : T -> list Z -> V) decode
    gs G metas tk tgt tt shards bk placed seq_id r s s' :
  size_spec tensor_size sizes -> narrow_copy_spec narrow_copy sizes elem ->
  (forall d, 0 < itemsize env d) -> from_blob_spec (itemsize env) decode sizes elem from_blob ->
  (forall l, Permutation (visit l) l) ->
  to_atensor tgt = Ok tt -> at_size tt = Some (sizes tgt) ->
  global_shape tk = gs -> box_pos gs (global_offset tk) (sizes tgt) -> prod gs <= max_i64 ->
  rc_enable_prefetch cfg = false -> tensor_meta_list r = Some metas ->
  shard_mapping r !! tk = None \/ shard_mapping r !! tk = Some shards ->
  Forall (published env gs) (candidates_of metas tk) -> apart (candidates_of metas tk) ->
  0 <= bk_bytes bk < 2 ^ 63 ->
  steady env seq_id (bk_data bk) (bk_data bk + bk_bytes bk) (holds_shards env decode remote G (candidates_of metas tk)) ->
  served seq_id (holds_shards env decode remote G (candidates_of metas tk)) s ->
  remote_shards metas tk tt true = Ok shards ->
  place_shards (itemsize env) blob_nbytes (bk_data bk) (bk_bytes bk) 0 shards = Ok placed ->
  get_placed env pcfg seq_id placed s = (Ok (), s') ->
  exists tgt' r', copy_task env pcfg cfg tensor_size narrow_copy to_atensor tensor_bytes empty_cpu
      blob_nbytes from_blob remote memory visit seq_id tk tgt bk (r, s) = (Ok tgt', (r', s')) /\
    forall c, in_box (global_offset tk) (sizes tgt) c -> elem tgt' (local tk c) = G c.
Proof.
  intros Hsize Hcopy Hitem Hblob Hvisit Hto Htt Hgs Hbox Hgp Hpf Hmetas Hmap Hpub Hap Hbk Hst Hsv Hplan Hplace Hget.
  assert (shard_ok tk tt) as Ht.
  { exists (sizes tgt). split; [done|]. rewrite Hgs. eapply Forall3_impl; [exact Hbox|]. cbn. lia. }
  destruct (read_entries env sizes elem decode from_blob remote Hitem Hblob pcfg seq_id gs G metas tk tt true shards
    blob_nbytes bk placed s s' memory Hplan Hpub Hap Ht Hbk Hst Hsv Hplace Hget) as (entries & Hent & Hrecv).
  destruct (plan_shards env sizes elem gs G metas tk tt true shards entries Hplan Hpub Ht Hrecv) as [Hsh Hcov].
  destruct (copy_all_spec tensor_size narrow_copy sizes elem Hsize Hcopy gs G (visit entries) tk tgt)
    as (tgt' & Hca & _ & Hel); [by rewrite Hvisit|done..|].
  assert (forall c, in_box (global_offset tk) (sizes tgt) c -> elem tgt' (local tk c) = G c) as Hgoal.
  { intros c Hc. apply (proj1 (Hel c Hc)). destruct (Hcov c) as (p & Hp & Hin); [by exists (sizes tgt)|].
    exists p. split; [|done]. by rewrite Hvisit. }
  unfold copy_task, ReadTensors, GetLocalPrefetchCachedTensor. rewrite Hpf. cbn [negb].
  unfold GetRemoteTensorShards, get_receiver, modify_receiver, mbind, SR_bind, sr_get, sr_lift, sr_modify, mret, SR_ret.
  cbn. rewrite Hto. unfold mbind in Hent.
  destruct Hmap as [Hmap|Hmap]; exists tgt'; eexists; (split; [|exact Hgoal]); rewrite Hmap;
    [rewrite Hmetas, Hplan; cbn; rewrite Hmap, lookup_insert_eq|]; cbn; rewrite Hplace;
    unfold on_snd; cbn; rewrite Hget; cbn [fst snd]; rewrite Hent, Hca; done.
Qed.

(** Shard [i] is published at address 4096 + 1024 i, in 128 bytes: rows of
    [demo_global] from the offset of the shard on, four bytes an element. *)
Definition demo_address (i : nat) : Z := 4096 + 1024 * Z.of_nat i.

Definition demo_remote_memory (cands : list (ShardedKey * ATensor)) (host : string) (port x : Z) : Z :=
  match cands !! Z.to_nat ((x - 4096) / 1024) with
  | Some p => let e := (x - 4096) mod 1024 / 4 in demo_global [default 0 (head (global_offset p.1)) + e / 4; e mod 4]
  | None => 0
  end.

Definition demo_decode (d : ScalarType.t) (bytes : list Z) : Z := default 0 (head bytes).

Definition demo_from_blob (m : Z -> Z) (ptr : Z) (sz st : list Z) (d : ScalarType.t) : fun_tensor :=
  (sz, fun c => demo_decode d (bytes_at m (ptr + 4 * dot st c) 4)).

Definition demo_info (i : nat) (p : ShardedKey * ATensor) : TensorRDMAInfo :=
  MkTensorRDMAInfo (demo_address i) 128 EmptyString demo_node p.2.

Definition demo_row_target : ShardedKey := MkShardedKey "w" [4; 4] [1; 0].

Definition demo_receive_config : receive_config := MkReceiveConfig false 0 0 4096 4096 1.

Definition demo_plan : result (list ShardedATensorTuple) :=
  remote_shards demo_cands demo_row_target (demo_tensor [2; 4]) true.

Definition pull_with (cands : list (ShardedKey * ATensor)) : pull_state :=
  set_cache {[7 := list_to_map (imap (fun i p => (p.1, [demo_info i p])) cands)]} (pull_init true true).

Definition demo_pull : pull_state := pull_with demo_cands.

(** The two transfers: the second row of the first shard, the first of the other. *)
Definition demo_pull_after : pull_state :=
  match demo_plan ≫= (fun shards => place_shards (itemsize quiet_env) (fun _ _ _ => 64) 65536 4096 0 shards) with
  | Ok placed => (get_placed quiet_env (quiet_cfg demo_node []) 7 placed demo_pull).2
  | _ => demo_pull
  end.

Definition demo_receiver : receiver fun_tensor := set_metas demo_cands new_receiver.

Definition demo_to_atensor (t : fun_tensor) : result ATensor := Ok (demo_tensor t.1).

Lemma demo_blob_spec f : (forall d, f d = 4) -> from_blob_spec f demo_decode fst snd demo_from_blob.
Proof. intros Hf m ptr sz st d _. split; [done|]. intros c _. cbn. by rewrite Hf. Qed.

Lemma demo_published g o n : 0 <= o -> 0 < n -> o + n <= g -> n < 100 ->
  published quiet_env [g; 4] (MkShardedKey "w" [g; 4] [o; 0], demo_tensor [n; 4]).
Proof.
  intros Ho Hn Hg Hb. exists [n; 4], [4; 1], ScalarType.Float. split; [by split_and!|].
  split; [intros [|x [|y [|]]] Hc; cbn in *; lia|].
  split; [done|]. split; [by split; vm_compute|]. split; [done|]. split; [cbn; lia|]. split; [done|]. split; [done|].
  repeat constructor; lia.
Qed.

(** The memory of the peers holds the shard [i]. *)
Lemma demo_holds cands i p g o n : (i < 2)%nat -> p = (MkShardedKey "w" [g; 4] [o; 0], demo_tensor [n; 4]) ->
  cands !! i = Some p -> 0 < n <= 8 ->
  holds_shard quiet_env demo_decode (demo_remote_memory cands) demo_global p (demo_info i p).
Proof.
  intros Hi -> Hc Hn. split; [done|]. split; [split; cbn; unfold demo_address; lia|].
  intros sz d [= <-] [= <-]. cbn [itemsize quiet_env ri_size demo_info snd]. split; [cbn; lia|].
  intros c Hb. cbn in Hb. apply in_box_cons in Hb as (x & cs & -> & Hx & Hb).
  apply in_box_cons in Hb as (y & cs' & -> & Hy & Hb). apply in_box_nil in Hb as ->. cbn [fst snd].
  assert (elem_pos (demo_tensor [n; 4]) (local (MkShardedKey "w" [g; 4] [o; 0]) [x; y]) = y + (x - o) * 4) as ->
    by (unfold elem_pos, local; cbn [dot]; simpl zip_with; cbn -[Z.mul]; lia).
  set (e := y + (x - o) * 4). assert (0 <= e < 32) by lia.
  change (demo_remote_memory cands "10.0.0.1" 8000 (demo_address i + 4 * e + 0) = demo_global [x; y]).
  unfold demo_remote_memory, demo_address.
  replace (4096 + 1024 * Z.of_nat i + 4 * e + 0 - 4096) with (4 * e + Z.of_nat i * 1024) by lia.
  rewrite Z.div_add, Z.mod_add, (Z.div_small (4 * e)), (Z.mod_small (4 * e)), Z.add_0_l, Nat2Z.id, Hc by lia.
  rewrite (Z.mul_comm 4 e), Z.div_mul by lia. cbn zeta. unfold e.
  rewrite Z.div_add, Z.mod_add, Z.div_small, Z.mod_small by lia. cbn. lia.
Qed.

Lemma demo_apart : apart demo_cands.
Proof.
  intros [|[|i]] [|[|j]] p q c Hp Hq (sz & Es & Hin) (sz' & Es' & Hin'); try done;
    cbn in Hp, Hq; injection Hp as <-; injection Hq as <-; cbn in *;
    injection Es as <-; injection Es' as <-; exfalso;
    apply in_box_cons in Hin as (x & cs & -> & Hx & _), Hin' as (x' & cs' & E & Hx' & _);
    injection E; lia.
Qed.

Lemma demo_served cands : NoDup cands.*1 ->
  (forall i p, cands !! i = Some p -> holds_shard quiet_env demo_decode (demo_remote_memory cands) demo_global p (demo_info i p)) ->
  served 7 (holds_shards quiet_env demo_decode (demo_remote_memory cands) demo_global cands) (pull_with cands).
Proof.
  intros Hnd Hh k info (metas & infos & Em & Ek & Hin) p Hp <-.
  cbn in Em. injection Em as <-. apply elem_of_list_to_map_2 in Ek.
  apply list_elem_of_lookup_1 in Ek as (i & Hi). rewrite list_lookup_imap in Hi.
  destruct (cands !! i) as [p'|] eqn:E; [|done]. cbn in Hi. injection Hi as Ek <-. apply list_elem_of_singleton in Hin as ->.
  apply list_elem_of_lookup_1 in Hp as [j Hj].
  assert (i = j) as ->.
  { apply (proj1 (NoDup_alt _) Hnd i j p.1); apply list_lookup_fmap_Some; eauto. }
  assert (p' = p) as -> by congruence. by apply Hh.
Qed.

Lemma quiet_steady q lo hi serves : steady quiet_env q lo hi serves.
Proof. intros i s Hs. by split. Qed.

Lemma remote_read_correct_witness :
  exists tgt' r', copy_task quiet_env (quiet_cfg demo_node []) demo_receive_config
      fun_size fun_narrow_copy demo_to_atensor (fun _ => 32)
      (fun t => (t, MkATStorage 32 (MkATDevice ATDeviceType.CPU 0) 0)) (fun _ _ _ => 64)
      demo_from_blob (demo_remote_memory demo_cands) (fun _ => -1) (@rev _) 7 demo_row_target ([2; 4], fun _ => 0)
      (MkBucket 65536 4096) (demo_receiver, demo_pull) = (Ok tgt', (r', demo_pull_after)) /\
    forall c, in_box [1; 0] [2; 4] c -> tgt'.2 (local demo_row_target c) = demo_global c.
Proof.
  eapply (remote_read_correct quiet_env (quiet_cfg demo_node []) demo_receive_config fun_size fun_narrow_copy
    demo_to_atensor (fun _ => 32) (fun t => (t, MkATStorage 32 (MkATDevice ATDeviceType.CPU 0) 0))
    (fun _ _ _ => 64) demo_from_blob (demo_remote_memory demo_cands) (fun _ => -1) (@rev _) fst snd demo_decode
    [4; 4] demo_global demo_cands demo_row_target ([2; 4], fun _ => 0)).
  - intros t i x H. by apply index_nat.
  - intros src tgt so to sh _ _. eexists. split; [reflexivity|]. by split.
  - intros d. reflexivity.
  - by apply demo_blob_spec.
  - intros l. symmetry. apply Permutation_rev.
  - reflexivity.
  - reflexivity.
  - reflexivity.
  - cbn. repeat constructor; lia.
  - vm_compute. discriminate.
  - reflexivity.
  - reflexivity.
  - left. reflexivity.
  - change (candidates_of demo_cands demo_row_target) with demo_cands.
    apply Forall_cons; split; [|apply Forall_cons; split; [|constructor]]; apply demo_published; lia.
  - exact demo_apart.
  - cbn. lia.
  - apply quiet_steady.
  - change (candidates_of demo_cands demo_row_target) with demo_cands. apply demo_served.
    + repeat constructor; set_solver.
    + intros [|[|i]] p E; [| |done]; injection E as <-; eapply demo_holds; try reflexivity; lia.
  - vm_compute. reflexivity.
  - vm_compute. reflexivity.
  - vm_compute. reflexivity.
Defined.

(** Two published shards that overlap: rows 0 to 4 and rows 2 to 7. *)
Definition overlapping_cands : list (ShardedKey * ATensor) :=
  [(MkShardedKey "w" [8; 4] [0; 0], demo_tensor [5; 4]);
   (MkShardedKey "w" [8; 4] [2; 0], demo_tensor [6; 4])].

Definition overlapping_target : ShardedKey := MkShardedKey "w" [8; 4] [4; 0].

(** The shards must not overlap: pruned to the target, two overlapping
    shards start at the same offset and get the same key, the map of the tensors
    that were read keeps only the first, and the read returns although rows of
    the target were never written. *)
Theorem overlapping_shard_lost :
  Forall (published quiet_env [8; 4]) overlapping_cands /\
  served 7 (holds_shards quiet_env demo_decode (demo_remote_memory overlapping_cands) demo_global overlapping_cands)
    (pull_with overlapping_cands) /\
  exists tgt',
    (copy_task quiet_env (quiet_cfg demo_node []) demo_receive_config fun_size fun_narrow_copy
      demo_to_atensor (fun _ => 64) (fun t => (t, MkATStorage 64 (MkATDevice ATDeviceType.CPU 0) 0))
      (fun _ _ _ => 64) demo_from_blob (demo_remote_memory overlapping_cands) (fun _ => -1) id 7 overlapping_target
      ([4; 4], fun _ => -1) (MkBucket 65536 4096)
      (set_metas overlapping_cands new_receiver, pull_with overlapping_cands)).1 = Ok tgt' /\
    tgt'.2 (local overlapping_target [4; 1]) = demo_global [4; 1] /\
    tgt'.2 (local overlapping_target [6; 1]) = -1.
Proof.
  split; [apply Forall_cons; split; [|apply Forall_cons; split; [|constructor]]; apply demo_published; lia|].
  split.
  { apply demo_served; [repeat constructor; set_solver|].
    intros [|[|i]] p E; [| |done]; injection E as <-; eapply demo_holds; try reflexivity; lia. }
  match goal with |- exists t, ?r = Ok t /\ _ =>
    assert (match r with Ok t => (t.2 (local overlapping_target [4; 1]), t.2 (local overlapping_target [6; 1]))
            | _ => (0, 0) end = (demo_global [4; 1], -1)) as E by (vm_compute; reflexivity);
    destruct r as [tgt'| |]; [exists tgt'|discriminate E..] end.
  injection E as -> ->. done.
Qed.

(** ** The layout of a read *)

(** C23: the shards of a read are laid out one after the other in the copy
    bucket, so that no transfer writes the bytes of another and none writes
    beyond the bucket; a read that does not fit throws before any transfer. *)
Theorem read_layout f blob_nbytes base total_size shards placed :
  0 <= total_size < 2 ^ 63 ->
  Forall (fun sh => exists sz st, dims_ok (shard sh) sz st) shards ->
  (forall sh n, sh ∈ shards -> GetTensorTotalByteSize f (shard sh) = Ok n -> n < 2 ^ 63) ->
  place_shards f blob_nbytes base total_size 0 shards = Ok placed ->
  map (fun p => p.1.2) placed = shards /\ laid_out f base total_size 0 placed.
Proof. intros Ht Hd Hn H. apply (place_shards_layout f blob_nbytes); [done..|lia|done]. Qed.

Definition demo_shards : list ShardedATensorTuple :=
  match demo_plan with Ok shards => shards | _ => [] end.

Lemma read_layout_witness : exists placed,
  place_shards (itemsize quiet_env) (fun _ _ _ => 64) 65536 4096 0 demo_shards = Ok placed /\
  length placed = 2%nat /\ laid_out (itemsize quiet_env) 65536 4096 0 placed.
Proof.
  eexists. split; [vm_compute; reflexivity|]. split; [done|].
  apply (read_layout (itemsize quiet_env) (fun _ _ _ => 64) 65536 4096 demo_shards); [lia| | |vm_compute; reflexivity].
  - apply Forall_forall. intros sh Hsh. exists [1; 4], [4; 1].
    apply elem_of_cons in Hsh as [->|[->|[]%not_elem_of_nil]%elem_of_cons]; by split_and!.
  - intros sh n [->|[->|[]%not_elem_of_nil]%elem_of_cons]%elem_of_cons H; vm_compute in H; by injection H as <-.
Defined.

(** ** The caches *)

(** Two small tensors, one shard each. *)
Definition small_cands : list (ShardedKey * ATensor) :=
  [(MkShardedKey "a" [2; 4] [0; 0], demo_tensor [2; 4]);
   (MkShardedKey "b" [2; 4] [0; 0], demo_tensor [2; 4])].

Definition small_a : ShardedKey := MkShardedKey "a" [2; 4] [0; 0].
Definition small_b : ShardedKey := MkShardedKey "b" [2; 4] [0; 0].

Definition read_small (small_tensors : list (ShardedKey * fun_tensor))
    : SR (receiver fun_tensor * pull_state) (bool * list (ShardedKey * fun_tensor)) :=
  MultiGetCompactTensors quiet_env (quiet_cfg demo_node []) fun_size fun_narrow_copy demo_to_atensor
    demo_from_blob (demo_remote_memory small_cands) (fun _ => -1) (MkBucket 65536 4096) 7 small_tensors.

(** What a batch returns, and the elements at [c] of its tensors. *)
Definition observe (c : list Z) (r : result (bool * list (ShardedKey * fun_tensor))) : option (bool * list Z) :=
  match r with Ok (b, l) => Some (b, map (fun p => p.2.2 c) l) | _ => None end.

(** The compact infos of the first batch are kept for ever: when a later
    batch adds a tensor, the table returns success and leaves that tensor
    unread, although the same batch reads it when it comes first. *)
Theorem compact_batch_stale :
  let blank : fun_tensor := ([2; 4], fun _ => -1) in
  let st0 := (set_metas small_cands new_receiver, pull_with small_cands) in
  observe [1; 2] (read_small [(small_a, blank); (small_b, blank)] st0).1 =
    Some (true, [demo_global [1; 2]; demo_global [1; 2]]) /\
  let '(r1, st1) := read_small [(small_a, blank)] st0 in
  observe [1; 2] r1 = Some (true, [demo_global [1; 2]]) /\
  observe [1; 2] (read_small [(small_a, blank); (small_b, blank)] st1).1 =
    Some (true, [demo_global [1; 2]; -1]).
Proof. vm_compute. auto. Qed.

(** ** Before a read *)

(** The table plans from what every writer has announced: the first plan of a table
    that is not empty was made when all writers were ready. *)
Theorem planned_when_ready env pcfg {T : Type} sharded_key seq_id target_tensor prune (r : receiver T) s shards st' :
  others env = (fun _ s => s) -> tensor_meta_list r = None -> shard_mapping r !! sharded_key = None ->
  GetRemoteTensorShards env pcfg sharded_key seq_id target_tensor prune (r, s) = (Ok shards, st') -> shards <> [] ->
  all_ready pcfg s = true.
Proof.
  intros Ha Hm Hk H Hne. unfold GetRemoteTensorShards, get_receiver, modify_receiver, on_snd, mbind, SR_bind, sr_get, mret, SR_ret, sr_modify, sr_lift in H.
  cbn in H. rewrite Hk, Hm in H. cbn in H.
  destruct (GetAllTensorShards env pcfg seq_id _ s) as [[metas| |] s1] eqn:E; [|done..]. cbn in H.
  unfold GetAllTensorShards in E. M_open E as ready s2 E1. unfold WaitForAllTensorReady in E1. rewrite Ha in E1.
  apply wait_alone in E1 as [-> Hr]. destruct ready; [by apply Hr|]. injection E as <- <-. exfalso.
  destruct (remote_shards [] sharded_key target_tensor prune) as [l| |] eqn:Ep; [|done..]. cbn in H.
  rewrite Hk, lookup_insert_eq in H. cbn in H. injection H as -> _. apply Hne.
  unfold remote_shards in Ep. change (candidates_of [] sharded_key) with (@nil (ShardedKey * ATensor)) in Ep. ok_inv Ep.
  unfold FindCoveringCandidates in E. ok_inv E. cbn in E.
  injection E as <-. by injection Ep as <-.
Qed.

(** No plan covers a target from no candidates. *)
Lemma no_plan_from_nothing k t prune shards : shard_pos k t -> remote_shards [] k t prune <> Ok shards.
Proof.
  intros Hp H. unfold remote_shards in H. change (candidates_of [] k) with (@nil (ShardedKey * ATensor)) in H. ok_inv H.
  unfold FindCoveringCandidates in E. ok_inv E. destruct a0. apply validate_Ok in E0 as [_ Hcov].
  pose proof Hp as (sz & Es & Hb). destruct (coverage_sound [] k t () (global_offset k)) as (j & ck & ct & Hj & _); [done|by apply shard_pos_ok|done| |done].
  exists sz. split; [done|]. by eapply corner_in_box.
Qed.

(** The plan from a list of metas that is empty does not return. *)
Lemma plan_of_nothing env pcfg {T : Type} k q t prune (r : receiver T) s l st' : shard_pos k t ->
  tensor_meta_list r = Some [] -> shard_mapping r !! k = None ->
  GetRemoteTensorShards env pcfg k q t prune (r, s) <> (Ok l, st').
Proof.
  intros Hp Hm Hk H. unfold GetRemoteTensorShards, get_receiver, mbind, SR_bind, sr_get, mret, SR_ret, sr_lift in H.
  cbn in H. rewrite Hk, Hm in H. cbn in H.
  destruct (remote_shards [] k t prune) as [x| |] eqn:Ep; [|done..]. by apply no_plan_from_nothing in Ep.
Qed.

(** A first read that times out breaks the table: when not all writers have announced
    the round within the timeout, the list of the published tensors that it gets is empty,
    the table keeps it, and no later read of any tensor is ever planned, whatever
    has been published by then. *)
Theorem timed_out_plan_kept env pcfg {T : Type} k q t prune (r : receiver T) s :
  others env = (fun _ s => s) -> tensor_meta_list r = None -> shard_mapping r = ∅ -> shard_pos k t ->
  all_ready pcfg s = false ->
  exists r', (forall l st', GetRemoteTensorShards env pcfg k q t prune (r, s) <> (Ok l, st')) /\
    (GetRemoteTensorShards env pcfg k q t prune (r, s)).2 = (r', s) /\
    forall env' k' q' t' prune' s' l st', shard_pos k' t' ->
      GetRemoteTensorShards env' pcfg k' q' t' prune' (r', s') <> (Ok l, st').
Proof.
  intros Ha Hm Hk Hp Hr. assert (GetAllTensorShards env pcfg q (fun _ => true) s = (Ok [], s)) as Hall.
  { unfold GetAllTensorShards, WaitForAllTensorReady, mbind, M_bind. rewrite Ha.
    by rewrite wait_alone_false by (lia || done). }
  assert (GetRemoteTensorShards env pcfg k q t prune (r, s) =
    GetRemoteTensorShards env pcfg k q t prune (set_metas [] r, s)) as E.
  { unfold GetRemoteTensorShards, get_receiver, modify_receiver, on_snd, mbind, SR_bind, sr_get, mret, SR_ret, sr_modify, sr_lift.
    cbn. rewrite Hk, lookup_empty, Hm. cbn. by rewrite Hall. }
  exists (set_metas [] r). rewrite E. split; [|split].
  - intros l st'. apply plan_of_nothing; [done..|]. cbn. by rewrite Hk.
  - unfold GetRemoteTensorShards, get_receiver, mbind, SR_bind, sr_get, mret, SR_ret, sr_lift. cbn. rewrite Hk, lookup_empty. cbn.
    destruct (remote_shards [] k t prune) as [x| |] eqn:Ep; [|done..]. by apply no_plan_from_nothing in Ep.
  - intros env' k' q' t' prune' s' l st' Hp'. apply plan_of_nothing; [done..|]. cbn. by rewrite Hk.
Qed.

Lemma timed_out_plan_kept_witness :
  exists r', (forall l st', GetRemoteTensorShards quiet_env (quiet_cfg demo_node [demo_node]) demo_row_target 7
      (demo_tensor [2; 4]) true (@new_receiver fun_tensor, demo_pull) <> (Ok l, st')) /\
    (GetRemoteTensorShards quiet_env (quiet_cfg demo_node [demo_node]) demo_row_target 7
      (demo_tensor [2; 4]) true (@new_receiver fun_tensor, demo_pull)).2 = (r', demo_pull) /\
    forall env' k' q' t' prune' s' l st', shard_pos k' t' ->
      GetRemoteTensorShards env' (quiet_cfg demo_node [demo_node]) k' q' t' prune' (r', s') <> (Ok l, st').
Proof.
  apply (timed_out_plan_kept quiet_env (quiet_cfg demo_node [demo_node]) demo_row_target 7 (demo_tensor [2; 4]) true new_receiver demo_pull);
    [reflexivity|reflexivity|reflexivity| |vm_compute; reflexivity].
  eexists. split; [reflexivity|]. cbn. repeat constructor; lia.
Defined.
