(* ===== verification/InMemory.v ===== *)
(** * The in-memory tensor table and the tensor storage

    core/in_memory_tensor_table.cpp: a table that keeps clones of the tensors
    put into it, and core/atensor_storage.h and .cpp: the registry of tables.
    A value of [T] is a torch tensor with its elements, as in ShardedOps.v; a
    Python object is the tensor it holds or the exception of the conversion. *)

From S2P Require Import Prelude StateResult Tensor ShardedOps Transfer RemoteRead ReadCorrect.
Local Open Scope Z_scope.

(** [table_data_]: the tensors of every sequence. *)
Abbreviation table_data T := (gmap Z (gmap ShardedKey T)).

(** ** The table *)

Section InMemoryTensorTable.
Context {T : Type} (tensor_size : T -> Z -> result Z)
  (narrow_copy : T -> T -> list Z -> list Z -> list Z -> result T)
  (scalar_type : T -> ScalarType.t) (meta_of : T -> TorchTensorMeta)
  (zeros : TorchTensorMeta -> T).

(** [visit] is the order in which a map is traversed. *)
Context (visit : gmap ShardedKey T -> list (ShardedKey * T)).

Definition im_Put (seq_id : Z) (tensor_key : ShardedKey) (py_tensor : result T) (t : table_data T)
    : result bool * table_data T :=
  match py_tensor with
  | Ok x => (Ok true, <[seq_id := <[tensor_key := x]> (default ∅ (t !! seq_id))]> t)
  | Throw _ => (Ok false, t)
  | Undef => (Undef, t)
  end.

(** The entries before one that throws stay in the table. *)
Fixpoint im_put_all (tensor_list : list (ShardedKey * result T)) (seq_data : gmap ShardedKey T)
    : result bool * gmap ShardedKey T :=
  match tensor_list with
  | [] => (Ok true, seq_data)
  | (k, Ok x) :: rest => im_put_all rest (<[k := x]> seq_data)
  | (_, Throw _) :: _ => (Ok false, seq_data)
  | (_, Undef) :: _ => (Undef, seq_data)
  end.

Definition im_MultiPut (seq_id : Z) (tensor_list : list (ShardedKey * result T)) (t : table_data T)
    : result bool * table_data T :=
  let '(r, seq_data) := im_put_all tensor_list (default ∅ (t !! seq_id)) in
  (r, <[seq_id := seq_data]> t).

Fixpoint matching_shards (sharded_key : ShardedKey) (d : ScalarType.t) (l : list (ShardedKey * T))
    : result (list (ShardedKey * T)) :=
  match l with
  | [] => Ok []
  | (k, x) :: l' =>
      _ ← throw_if (negb (bool_decide (scalar_type x = d))) "Tensor dtype mismatch for key ";
      rest ← matching_shards sharded_key d l';
      Ok (if decide (key k = key sharded_key) then (k, x) :: rest else rest)
  end.

Definition GetTensorShards (sharded_key : ShardedKey) (seq_id : Z) (target_tensor : T) (t : table_data T)
    : result (list (ShardedKey * T)) :=
  match t !! seq_id with
  | None => Ok []
  | Some seq_data => matching_shards sharded_key (scalar_type target_tensor) (visit seq_data)
  end.

(** The target after the call. *)
Definition im_Get (seq_id : Z) (tensor_key : ShardedKey) (py_tensor : result T) (t : table_data T)
    : result (bool * T) :=
  target_tensor ← py_tensor;
  tensor_shards ← GetTensorShards tensor_key seq_id target_tensor t;
  if decide (tensor_shards = []) then Ok (false, target_tensor) else
  target' ← copy_all tensor_size narrow_copy tensor_shards tensor_key target_tensor;
  Ok (true, target').

Definition im_GetTensor (seq_id : Z) (tensor_key : ShardedKey) (tensor_meta : TorchTensorMeta) (t : table_data T)
    : result (option T) :=
  let target_tensor := zeros tensor_meta in
  tensor_shards ← GetTensorShards tensor_key seq_id target_tensor t;
  if decide (tensor_shards = []) then Ok None else
  target' ← copy_all tensor_size narrow_copy tensor_shards tensor_key target_tensor;
  Ok (Some target').

(** The loop of [MultiGet]: it ends at the first tensor that is not found, and
    the targets read before it keep what was copied. *)
Fixpoint im_get_all (seq_id : Z) (tensor_list : list (ShardedKey * result T)) (t : table_data T)
    (found_any : bool) : result bool * list (ShardedKey * result T) :=
  match tensor_list with
  | [] => (Ok found_any, [])
  | (k, py) :: rest =>
      match im_Get seq_id k py t with
      | Ok (true, x) =>
          let '(r, rest') := im_get_all seq_id rest t true in (r, (k, Ok x) :: rest')
      | Ok (false, _) => (Ok false, tensor_list)
      | Throw _ => (Ok false, tensor_list)
      | Undef => (Undef, tensor_list)
      end
  end.

Definition im_MultiGet (seq_id : Z) (tensor_list : list (ShardedKey * result T)) (t : table_data T)
    : result bool * list (ShardedKey * result T) := im_get_all seq_id tensor_list t false.

Fixpoint im_MultiGetTensor (seq_id : Z) (tensor_meta_list : list (ShardedKey * TorchTensorMeta))
    (t : table_data T) : result (list (ShardedKey * T)) :=
  match tensor_meta_list with
  | [] => Ok []
  | (tensor_key, tensor_meta) :: rest =>
      tensor ← im_GetTensor seq_id tensor_key tensor_meta t;
      ret ← im_MultiGetTensor seq_id rest t;
      Ok (match tensor with Some x => (tensor_key, x) :: ret | None => ret end)
  end.

Definition im_ScanTensorMeta (seq_id : Z) (t : table_data T) : list (string * TorchTensorMeta) :=
  match t !! seq_id with
  | None => []
  | Some seq_data => map (fun p : ShardedKey * T => (key p.1, meta_of p.2)) (visit seq_data)
  end.
End InMemoryTensorTable.

(** ** The storage *)

Inductive TensorTableType : Type := IN_MEMORY | REMOTE.

#[export] Instance table_type_eq_dec : EqDecision TensorTableType.
Proof. solve_decision. Defined.

(** Tables by a number; [live] are those that still have an owner, so that the
    [lock] of their [weak_ptr] succeeds. *)
Record ATensorStorageImpl : Type := MkStorageImpl {
  registered_tables : gmap string nat;
  table_types : gmap nat TensorTableType;
  live : gset nat;
  next_table : nat;
  ctx_tensor_table : option nat;
}.

Definition new_storage : ATensorStorageImpl := MkStorageImpl ∅ ∅ ∅ 0 None.

Definition add_table (table_name : string) (ty : TensorTableType) (ctx : option nat) (st : ATensorStorageImpl)
    : ATensorStorageImpl :=
  MkStorageImpl (<[table_name := next_table st]> (registered_tables st))
    (<[next_table st := ty]> (table_types st)) ({[next_table st]} ∪ live st) (S (next_table st)) ctx.

Definition erase_table (table_name : string) (st : ATensorStorageImpl) : ATensorStorageImpl :=
  MkStorageImpl (delete table_name (registered_tables st)) (table_types st) (live st) (next_table st)
    (ctx_tensor_table st).

(** [remote] is the construction of a remote table, which may throw; a table
    that is built and not returned is destroyed again. *)
Definition create_table (remote : result unit) (table_type : TensorTableType) (table_name : string)
    : SR ATensorStorageImpl nat := fun st =>
  match table_type with
  | IN_MEMORY => (Ok (next_table st), add_table table_name IN_MEMORY (ctx_tensor_table st) st)
  | REMOTE =>
      match remote with
      | Ok _ =>
          match ctx_tensor_table st with
          | None => (Ok (next_table st), add_table table_name REMOTE (Some (next_table st)) st)
          | Some _ => (Throw "multi remote tensor tables are NOT supported yet!", st)
          end
      | Throw e => (Throw e, st)
      | Undef => (Undef, st)
      end
  end.

Definition CreateTable (remote : result unit) (table_type : TensorTableType) (table_name : string)
    : SR ATensorStorageImpl nat := fun st =>
  match registered_tables st !! table_name with
  | Some t =>
      if decide (t ∈ live st) then (Ok t, st)
      else create_table remote table_type table_name (erase_table table_name st)
  | None => create_table remote table_type table_name st
  end.

(** The last owner of a table drops it. *)
Definition drop_table (t : nat) (st : ATensorStorageImpl) : ATensorStorageImpl :=
  MkStorageImpl (registered_tables st) (table_types st) (live st ∖ {[t]}) (next_table st) (ctx_tensor_table st).

(** *** Start-up *)

(** [start] is what [TensorTransferPull::Start] returns. *)
Definition ctx_Init (service_type : string) (start : result bool) : result bool :=
  if String.eqb service_type "PULL" then start else Ok true.

(** [options] are those read from the environment; the instance is kept for
    the next call unless its initialisation fails. *)
Definition CreateATensorStorage (options : result string) (start : result bool)
    (ats_instance : option ATensorStorageImpl) : result (option ATensorStorageImpl) * option ATensorStorageImpl :=
  match ats_instance with
  | Some st => (Ok (Some st), Some st)
  | None =>
      match options ≫= (fun service_type => ctx_Init service_type start) with
      | Ok true => (Ok (Some new_storage), Some new_storage)
      | Ok false => (Ok None, None)
      | Throw e => (Throw e, Some new_storage)
      | Undef => (Undef, None)
      end
  end.

(** ** Lemmas *)

Section Lemmas.
Context {T V : Type} (tensor_size : T -> Z -> result Z)
  (narrow_copy : T -> T -> list Z -> list Z -> list Z -> result T)
  (scalar_type : T -> ScalarType.t) (visit : gmap ShardedKey T -> list (ShardedKey * T))
  (sizes : T -> list Z) (elem : T -> list Z -> V).

Lemma im_put_all_Ok (l : list (ShardedKey * T)) m : NoDup l.*1 -> (forall k, k ∈ l.*1 -> m !! k = None) ->
  im_put_all (map (fun p => (p.1, Ok p.2)) l) m = (Ok true, list_to_map l ∪ m).
Proof.
  revert m. induction l as [|[k x] l IH]; intros m Hnd Hm; cbn; [by rewrite map_empty_union|].
  apply NoDup_cons in Hnd as [Hk Hnd]. rewrite IH; [|done|].
  - f_equal. rewrite <-insert_union_l, insert_union_r; [done|]. by apply not_elem_of_list_to_map.
  - intros k' Hk'. rewrite lookup_insert_ne by (intros ->; done). apply Hm. by right.
Qed.

Lemma matching_shards_Ok sk d l : Forall (fun p => scalar_type p.2 = d) l ->
  matching_shards scalar_type sk d l = Ok (filter (fun p => key p.1 = key sk) l).
Proof.
  induction 1 as [|[k x] l Hd _ IH]; [done|]. cbn [snd] in Hd. cbn [matching_shards].
  rewrite bool_decide_true by done. cbn [throw_if negb mbind result_bind]. rewrite IH. cbn [mbind result_bind].
  rewrite filter_cons. cbn [fst]. by destruct (decide _).
Qed.

(** A read of a table whose shards of the name are parts of a global tensor
    that cover the target. *)
Lemma im_Get_elements gs G seq_id tk tgt (t : table_data T) data :
  size_spec tensor_size sizes -> narrow_copy_spec narrow_copy sizes elem ->
  (forall m, Permutation (visit m) (map_to_list m)) -> t !! seq_id = Some data ->
  (forall k x, data !! k = Some x -> scalar_type x = scalar_type tgt) ->
  (forall k x, data !! k = Some x -> key k = key tk -> shard_of sizes elem gs G k x) ->
  global_shape tk = gs -> box_pos gs (global_offset tk) (sizes tgt) -> prod gs <= max_i64 ->
  (exists k x, data !! k = Some x /\ key k = key tk) ->
  (forall c, in_box (global_offset tk) (sizes tgt) c ->
     exists k x, data !! k = Some x /\ key k = key tk /\ in_box (global_offset k) (sizes x) c) ->
  exists tgt', im_Get tensor_size narrow_copy scalar_type visit seq_id tk (Ok tgt) t = Ok (true, tgt') /\
    forall c, in_box (global_offset tk) (sizes tgt) c -> elem tgt' (local tk c) = G c.
Proof.
  intros Hsize Hcopy Hvisit Hdata Hty Hsh Hgs Hbox Hp (k0 & x0 & Hk0 & Ek0) Hcov.
  set (shards := filter (fun p : ShardedKey * T => key p.1 = key tk) (visit data)).
  assert (forall k x, (k, x) ∈ shards <-> key k = key tk /\ data !! k = Some x) as Hin.
  { intros k x. unfold shards. rewrite list_elem_of_filter. cbn. rewrite (Hvisit data).
    by rewrite elem_of_map_to_list. }
  destruct (copy_all_spec tensor_size narrow_copy sizes elem Hsize Hcopy gs G shards tk tgt) as (tgt' & E & _ & Hel);
    [|done..|].
  { apply Forall_forall. intros [k x] Hkx. apply Hin in Hkx as [? ?]. cbn. auto. }
  exists tgt'. unfold im_Get, GetTensorShards. cbn [mbind result_bind]. rewrite Hdata, matching_shards_Ok.
  2: { apply Forall_forall. intros [k x] Hkx. rewrite (Hvisit data), elem_of_map_to_list in Hkx. cbn. eauto. }
  cbn [mbind result_bind]. fold shards. rewrite decide_False.
  2: { intros Hnil. assert ((k0, x0) ∈ shards) as Hx by by apply Hin. rewrite Hnil in Hx. set_solver. }
  rewrite E. split; [done|]. intros c Hc. apply (proj1 (Hel c Hc)). destruct (Hcov c Hc) as (k & x & ? & ? & ?).
  exists (k, x). split; [by apply Hin|done].
Qed.
End Lemmas.

(** ** Properties *)

(** C28: what is put into the in-memory table is read back.  After a batch of
    shards of a global tensor, with distinct keys and with other tensors among
    them, all of the data type of the target, for a sequence that has no tensors
    yet, a read of a target they cover succeeds, and the target holds the elements
    of the global tensor. *)
Theorem in_memory_put_get {T V : Type} tensor_size narrow_copy scalar_type visit (sizes : T -> list Z)
    (elem : T -> list Z -> V) gs G seq_id tk tgt (t : table_data T) (shards : list (ShardedKey * T)) :
  size_spec tensor_size sizes -> narrow_copy_spec narrow_copy sizes elem ->
  (forall m, Permutation (visit m) (map_to_list m)) -> t !! seq_id = None -> NoDup shards.*1 ->
  (forall k x, (k, x) ∈ shards -> scalar_type x = scalar_type tgt) ->
  (forall k x, (k, x) ∈ shards -> key k = key tk -> shard_of sizes elem gs G k x) ->
  global_shape tk = gs -> box_pos gs (global_offset tk) (sizes tgt) -> prod gs <= max_i64 ->
  (forall c, in_box (global_offset tk) (sizes tgt) c ->
     exists k x, (k, x) ∈ shards /\ key k = key tk /\ in_box (global_offset k) (sizes x) c) ->
  exists t' tgt', im_MultiPut seq_id (map (fun p => (p.1, Ok p.2)) shards) t = (Ok true, t') /\
    im_Get tensor_size narrow_copy scalar_type visit seq_id tk (Ok tgt) t' = Ok (true, tgt') /\
    forall c, in_box (global_offset tk) (sizes tgt) c -> elem tgt' (local tk c) = G c.
Proof.
  intros Hsize Hcopy Hvisit Ht Hnd Hty Hsh Hgs Hbox Hp Hcov.
  unfold im_MultiPut. rewrite Ht. cbn [default]. rewrite im_put_all_Ok by done.
  rewrite map_union_empty. eexists.
  assert (forall k x, (list_to_map shards : gmap ShardedKey T) !! k = Some x <-> (k, x) ∈ shards) as Hl
    by (intros; by rewrite <-elem_of_list_to_map).
  destruct (im_Get_elements tensor_size narrow_copy scalar_type visit sizes elem gs G seq_id tk tgt
              (<[seq_id := list_to_map shards]> t) (list_to_map shards)) as (tgt' & E & Hel);
    [done..| | | |done|done|done| | |].
  - by rewrite lookup_insert_eq.
  - intros k x Hk. apply Hl in Hk. eauto.
  - intros k x Hk. apply Hl in Hk. eauto.
  - destruct (Hcov (global_offset tk) (corner_in_box _ _ _ Hbox)) as (k & x & ? & ? & _).
    exists k, x. by rewrite Hl.
  - intros c Hc. destruct (Hcov c Hc) as (k & x & ? & ? & ?). exists k, x. by rewrite Hl.
  - eauto.
Qed.

Definition demo_batch : list (ShardedKey * fun_tensor) :=
  [(MkShardedKey "w" [4; 4] [0; 0], ([2; 4], demo_global));
   (MkShardedKey "bias" [4] [0], ([4], fun _ => 5));
   (MkShardedKey "w" [4; 4] [2; 0], ([2; 4], fun c => demo_global (zip_with Z.add c [2; 0])))].

Lemma demo_batch_shards k x : (k, x) ∈ demo_batch -> key k = "w" -> shard_of fst snd [4; 4] demo_global k x.
Proof.
  intros Hin Hk. apply elem_of_cons in Hin as [[= -> ->]|[[= -> ->]|[[= -> ->]|[]%not_elem_of_nil]%elem_of_cons]%elem_of_cons];
    [|done|]; (split; [done|]); (split; [repeat constructor; lia|]); intros c H;
    apply in_box_cons in H as (x & cs & -> & Hx & H);
    apply in_box_cons in H as (y & cs' & -> & Hy & H); apply in_box_nil in H as ->; cbn; lia.
Qed.

Lemma demo_batch_covers c : in_box [1; 1] [2; 3] c ->
  exists k x, (k, x) ∈ demo_batch /\ key k = "w" /\ in_box (global_offset k) x.1 c.
Proof.
  intros H. apply in_box_cons in H as (x & cs & -> & Hx & H).
  apply in_box_cons in H as (y & cs' & -> & Hy & H). apply in_box_nil in H as ->.
  destruct (decide (x < 2)).
  + do 2 eexists. split; [left|]. split; [done|]. cbn. repeat constructor; lia.
  + do 2 eexists. split; [right; right; left|]. split; [done|]. cbn. repeat constructor; lia.
Qed.

Lemma in_memory_put_get_witness :
  exists t' tgt', im_MultiPut 3 (map (fun p => (p.1, Ok p.2)) demo_batch) ∅ = (Ok true, t') /\
    im_Get fun_size fun_narrow_copy (fun _ => ScalarType.Float) map_to_list 3 demo_target
      (Ok ([2; 3], fun _ => 0)) t' = Ok (true, tgt') /\
    forall c, in_box [1; 1] [2; 3] c -> tgt'.2 (local demo_target c) = demo_global c.
Proof.
  apply (in_memory_put_get fun_size fun_narrow_copy (fun _ => ScalarType.Float) map_to_list fst snd
    [4; 4] demo_global 3 demo_target ([2; 3], fun _ => 0) ∅ demo_batch).
  - intros t i x H. by apply index_nat.
  - intros src tgt so to sh _ _. eexists. split; [reflexivity|]. by split.
  - intros m. reflexivity.
  - reflexivity.
  - refine (bool_decide_eq_true_1 _ _). vm_compute. reflexivity.
  - reflexivity.
  - exact demo_batch_shards.
  - reflexivity.
  - cbn. repeat constructor; lia.
  - vm_compute. discriminate.
  - exact demo_batch_covers.
Defined.

(** A tensor of another data type anywhere in the sequence makes every read of
    the sequence throw, also of names that have nothing to do with it. *)
Theorem in_memory_dtype_mismatch {T : Type} tensor_size narrow_copy (scalar_type : T -> ScalarType.t) visit
    seq_id tk tgt (t : table_data T) data k x :
  (forall m, Permutation (visit m) (map_to_list m)) -> t !! seq_id = Some data -> data !! k = Some x ->
  scalar_type x <> scalar_type tgt ->
  im_Get tensor_size narrow_copy scalar_type visit seq_id tk (Ok tgt) t = Throw "Tensor dtype mismatch for key ".
Proof.
  intros Hvisit Ht Hk Hne. unfold im_Get, GetTensorShards. cbn [mbind result_bind]. rewrite Ht.
  assert ((k, x) ∈ visit data) as Hin by (by rewrite (Hvisit data), elem_of_map_to_list). clear -Hin Hne.
  assert (matching_shards scalar_type tk (scalar_type tgt) (visit data) = Throw "Tensor dtype mismatch for key ") as ->; [|done].
  induction (visit data) as [|[k' x'] l IH]; [by apply not_elem_of_nil in Hin|]. cbn [matching_shards].
  apply elem_of_cons in Hin as [[= <- <-]|Hin].
  - by rewrite bool_decide_false.
  - destruct (bool_decide _); [|done]. cbn [throw_if negb mbind result_bind]. by rewrite IH.
Qed.

(** *** The registry *)

(** What the storage is asked to do: a table, or the end of a table. *)
Inductive storage_op : Type :=
| OpCreate (remote : result unit) (ty : TensorTableType) (name : string)
| OpDrop (t : nat).

Definition storage_step (st : ATensorStorageImpl) (op : storage_op) : ATensorStorageImpl :=
  match op with
  | OpCreate remote ty name => (CreateTable remote ty name st).2
  | OpDrop t => drop_table t st
  end.

Record storage_ok (st : ATensorStorageImpl) : Prop := {
  so_names n1 n2 t : registered_tables st !! n1 = Some t -> registered_tables st !! n2 = Some t -> n1 = n2;
  so_old n t : registered_tables st !! n = Some t -> (t < next_table st)%nat;
  so_live t : t ∈ live st -> exists n, registered_tables st !! n = Some t;
  so_remote t : table_types st !! t = Some REMOTE -> ctx_tensor_table st = Some t;
  so_types t : is_Some (table_types st !! t) -> (t < next_table st)%nat;
}.

Lemma storage_ok_erase name t st : storage_ok st -> registered_tables st !! name = Some t -> t ∉ live st ->
  storage_ok (erase_table name st).
Proof.
  intros [Hn Ho Hl Hr Hty] Ht Hd. constructor; cbn; [| |intros t' Ht'|done|done].
  - intros n1 n2 t'. rewrite !lookup_delete_Some. intros [_ ?] [_ ?]. eauto.
  - intros n t'. rewrite lookup_delete_Some. intros [_ ?]. eauto.
  - destruct (Hl t' Ht') as [n E]. exists n. apply lookup_delete_Some. split; [|done]. intros ->. congruence.
Qed.

Lemma storage_ok_add name ty ctx st : storage_ok st -> registered_tables st !! name = None ->
  (ty = REMOTE -> ctx_tensor_table st = None /\ ctx = Some (next_table st)) ->
  (ty = IN_MEMORY -> ctx = ctx_tensor_table st) -> storage_ok (add_table name ty ctx st).
Proof.
  intros [Hn Ho Hl Hr Hty] Hnone H1 H2. constructor; cbn.
  - intros n1 n2 t. rewrite !lookup_insert_Some.
    intros [[<- <-]|[? E1]] [[<- E]|[? E2]]; [done|apply Ho in E2; lia|apply Ho in E1; lia|eauto].
  - intros n t. rewrite lookup_insert_Some. intros [[_ <-]|[_ E]]; [lia|]. apply Ho in E. lia.
  - intros t [->%elem_of_singleton|Ht]%elem_of_union; [exists name; by rewrite lookup_insert_eq|].
    destruct (Hl t Ht) as [n E]. exists n. rewrite lookup_insert_ne; [done|]. intros ->. congruence.
  - intros t. rewrite lookup_insert_Some. intros [[<- ->]|[? E]]; [by apply H1|].
    apply Hr in E. destruct ty; [by rewrite H2|]. destruct H1 as [? _]; congruence.
  - intros t. rewrite lookup_insert_is_Some. intros [<-|[_ E]]; [lia|]. apply Hty in E. lia.
Qed.

Lemma storage_ok_create remote ty name st : storage_ok st -> registered_tables st !! name = None ->
  storage_ok (create_table remote ty name st).2.
Proof.
  intros Hok Hn. unfold create_table. destruct ty; [by apply storage_ok_add|].
  destruct remote; [|done..]. destruct (ctx_tensor_table st) eqn:E; [done|]. by apply storage_ok_add.
Qed.

Lemma storage_ok_step op st : storage_ok st -> storage_ok (storage_step st op).
Proof.
  intros Hok. destruct op as [remote ty name|t]; cbn.
  - unfold CreateTable. destruct (registered_tables st !! name) as [t|] eqn:E; [|by apply storage_ok_create].
    destruct (decide (t ∈ live st)); [done|]. apply storage_ok_create; [by eapply storage_ok_erase|].
    cbn. apply lookup_delete_eq.
  - destruct Hok as [Hn Ho Hl Hr Hty]. constructor; cbn; [exact Hn|exact Ho| |exact Hr|exact Hty].
    intros t' [Ht' _]%elem_of_difference. auto.
Qed.

Lemma storage_ok_reachable ops : storage_ok (foldl storage_step new_storage ops).
Proof.
  assert (storage_ok new_storage) as Hok.
  { constructor; cbn; try done. intros t [x Hx]. done. }
  revert Hok. generalize new_storage. induction ops as [|op ops IH]; intros st Hok; cbn; [done|].
  by apply IH, storage_ok_step.
Qed.

(** The registry of tables, after any calls and any tables dropped: a name
    whose table is alive always gives that table, two names never share one, no
    two remote tables were ever registered, and every table alive can be found by
    its name. *)
Theorem storage_tables ops : let st := foldl storage_step new_storage ops in
  (forall remote ty name t, registered_tables st !! name = Some t -> t ∈ live st ->
     CreateTable remote ty name st = (Ok t, st)) /\
  (forall n1 n2 t, registered_tables st !! n1 = Some t -> registered_tables st !! n2 = Some t -> n1 = n2) /\
  (forall t1 t2, table_types st !! t1 = Some REMOTE -> table_types st !! t2 = Some REMOTE -> t1 = t2) /\
  (forall t, t ∈ live st -> exists n, registered_tables st !! n = Some t).
Proof.
  intros st. pose proof (storage_ok_reachable ops) as [Hn Ho Hl Hr Hty]. fold st in Hn, Ho, Hl, Hr, Hty.
  split_and!; [|exact Hn| |exact Hl].
  - intros remote ty name t E Ht. unfold CreateTable. by rewrite E, decide_True.
  - intros t1 t2 H1 H2. apply Hr in H1, H2. congruence.
Qed.

Lemma storage_ctx_kept ops t st : ctx_tensor_table st = Some t ->
  ctx_tensor_table (foldl storage_step st ops) = Some t.
Proof.
  revert st. induction ops as [|op ops IH]; intros st E; cbn; [done|]. apply IH.
  destruct op as [remote ty name|t']; cbn; [|done]. unfold CreateTable, create_table.
  destruct (registered_tables st !! name) as [t'|]; [destruct (decide _); [done|]|];
    destruct ty; try done; destruct remote; try done; cbn; by rewrite E.
Qed.

(** The place of the remote table is never freed: once a remote table has
    been registered, and even after it was dropped, no call ever registers
    another one; the context keeps the pointer to the dropped table. *)
Theorem remote_table_slot_stuck t st ops remote name : ctx_tensor_table st = Some t ->
  let st' := foldl storage_step (drop_table t st) ops in
  ctx_tensor_table st' = Some t /\
  ((forall t', registered_tables st' !! name = Some t' -> t' ∉ live st') ->
    forall t', (CreateTable remote REMOTE name st').1 <> Ok t').
Proof.
  intros E st'. assert (ctx_tensor_table st' = Some t) as E' by by apply storage_ctx_kept.
  split; [done|]. intros Hdead t'. unfold CreateTable, create_table.
  destruct (registered_tables st' !! name) as [t''|]; [rewrite decide_False by auto|];
    cbn; rewrite E'; by destruct remote.
Qed.

Lemma remote_table_slot_stuck_witness :
  let st := (CreateTable (Ok ()) REMOTE "table" new_storage).2 in
  let st' := foldl storage_step (drop_table 0 st) [] in
  ctx_tensor_table st' = Some 0%nat /\
  ((forall t', registered_tables st' !! "table"%string = Some t' -> t' ∉ live st') ->
    forall t', (CreateTable (Ok ()) REMOTE "table" st').1 <> Ok t').
Proof. apply (remote_table_slot_stuck 0 _ [] (Ok ()) "table"). vm_compute. reflexivity. Defined.
