(* ===== verification/LogSetup.v ===== *)
(** * Setting up the log of a process

    common/log_utils.h, spdlog_utils.h and glog_utils.h: the choice of a logging
    library by the options, the logger of spdlog with its sinks, the flags of
    glog, the sink for chosen source files, and the thread that flushes.  The
    libraries are not part of the sources: of spdlog the model has the logger and
    what writing a record does with its sinks, of glog the flags, the name
    and the sinks it is given; what gflags answers is a parameter.

    The theorems show that every storage that is created adds another file to the
    logger, so that a record is written as often as storages were asked for, and
    that the log options of the process play no part in it; what the sink of
    glog writes; and that flushes keep their interval and the thread ends. *)

From stdpp Require Import gmap strings.
From S2P Require Import Prelude StateResult StringUtils Options Retry InMemory.
Local Open Scope Z_scope.

(** ** spdlog *)

Inductive log_level : Type := level_debug | level_info | level_warn | level_err.

Inductive sink : Type :=
| stdout_sink
| daily_file_sink (base_name : string) (hour minute : Z) (truncate : bool) (max_files : Z).

(** A logger: its name, its sinks and the thread pool it was made with. *)
Record async_logger : Type := MkAsyncLogger { lg_name : string; lg_sinks : list sink; lg_pool : nat }.

(** The globals: [logger], whether it is the default logger, the level of the
    registry, and how many thread pools were made, of which the last one is the
    current one. *)
Record spd_state : Type := MkSpdState {
  logger : option async_logger;
  is_default : bool;
  global_level : log_level;
  pools : nat;
}.

Definition spd_init : spd_state := MkSpdState None false level_info 0.

Section Spdlog.
  Context `{FloatLib} (getpid : Z).

Definition GetLogLevel (options : Options) : result log_level :=
  log_level ← GetOptionString option_definitions options "ASTATE_LOG_LEVEL";
  Ok (if decide (log_level = "DEBUG"%string) then level_debug
      else if decide (log_level = "INFO"%string) then level_info
      else if decide (log_level = "WARNING"%string) then level_warn
      else if decide (log_level = "ERROR"%string) then level_err
      else level_info).

(** The sinks the options ask for. *)
Definition new_sinks (app_name : string) (options : Options) : result (list sink) :=
  to_console ← GetOptionBool option_definitions options "ASTATE_LOG_TO_CONSOLE";
  let sinks := if (to_console : bool) then [stdout_sink] else [] in
  to_file ← GetOptionBool option_definitions options "ASTATE_LOG_TO_FILE";
  if (to_file : bool) then
    log_dir ← GetOptionString option_definitions options "ASTATE_LOG_DIR";
    let log_name := (log_dir ++ "/" ++ app_name ++ "." ++ to_string getpid)%string in
    max_file_days ← GetOptionInt option_definitions options "ASTATE_LOG_MAX_FILE_DAYS";
    Ok (sinks ++ [daily_file_sink log_name 0 0 false max_file_days])
  else Ok sinks.

Definition InitSpdlog (app_name : string) (options : Options) : SR spd_state unit :=
  _ ← sr_modify (fun s => MkSpdState (logger s) (is_default s) (global_level s) (S (pools s)));
  _ ← sr_modify (fun s => match logger s with
                          | None => MkSpdState (Some (MkAsyncLogger app_name [] (pools s))) (is_default s) (global_level s) (pools s)
                          | Some _ => s
                          end);
  sinks ← sr_lift (new_sinks app_name options);
  _ ← sr_modify (fun s => MkSpdState ((fun l => MkAsyncLogger (lg_name l) (lg_sinks l ++ sinks) (lg_pool l)) <$> logger s)
                            true (global_level s) (pools s));
  level ← sr_lift (GetLogLevel options);
  sr_modify (fun s => MkSpdState (logger s) (is_default s) level (pools s)).

Definition severity (l : log_level) : Z :=
  match l with level_debug => 1 | level_info => 2 | level_warn => 3 | level_err => 4 end.

(** Writing a record through the default logger: the sinks it goes to, in order.
    [kept] says whether a thread pool lives on after another has replaced it;
    without its pool a logger writes nothing. *)
Definition written_to (kept : bool) (s : spd_state) (l : log_level) : list sink :=
  match logger s with
  | Some lg =>
      if is_default s && (severity (global_level s) <=? severity l) && (kept || (lg_pool lg =? pools s)%nat) then lg_sinks lg else []
  | None => []
  end.
End Spdlog.

(** ** glog *)

Record glog_flags : Type := MkGlogFlags {
  FLAGS_minloglevel : Z;
  FLAGS_log_dir : string;
  FLAGS_logtostderr : bool;
  FLAGS_stderrthreshold : Z;
  FLAGS_logbufsecs : Z;
}.

Definition GLOG_INFO : Z := 0.
Definition GLOG_WARNING : Z := 1.
Definition GLOG_ERROR : Z := 2.
Definition GLOG_FATAL : Z := 3.

(** A time as glog gives it: its members are those of [struct tm], and microseconds. *)
Record LogMessageTime : Type := MkLogMessageTime {
  t_month : Z; t_day : Z; t_hour : Z; t_min : Z; t_sec : Z; t_usec : Z;
}.

Record log_message : Type := MkLogMessage {
  m_severity : Z; m_full_filename : string; m_base_filename : string; m_line : Z; m_time : LogMessageTime; m_text : string;
}.

(** The sink for the source files that match a pattern: its path and the lines
    it has appended to its file; [None] if the file could not be opened. *)
Record AstateLogSink : Type := MkAstateLogSink {
  regex_pattern : string -> bool;
  special_log_path : string;
  ofs : option (list string);
}.

Definition SeverityName (log_severity : Z) : string :=
  if log_severity =? GLOG_INFO then "INFO"
  else if log_severity =? GLOG_WARNING then "WARN"
  else if log_severity =? GLOG_ERROR then "ERROR"
  else if log_severity =? GLOG_FATAL then "FATAL"
  else "UNKNOWN".

(** [std::setw(n) << std::setfill('0')] *)
Definition padded (n : nat) (z : Z) : string := fill_left "0" (n - String.length (to_string z)) (to_string z).

Definition FormatTime (t : LogMessageTime) : string :=
  (padded 2 (t_month t) ++ "-" ++ padded 2 (t_day t) ++ " " ++ padded 2 (t_hour t) ++ ":" ++ padded 2 (t_min t) ++ ":" ++
   padded 2 (t_sec t) ++ "." ++ padded 6 (t_usec t))%string.

Definition sink_line (m : log_message) : string :=
  ("[" ++ SeverityName (m_severity m) ++ "] [" ++ FormatTime (m_time m) ++ "] [" ++ m_base_filename m ++ ":" ++
   to_string (m_line m) ++ "] " ++ m_text m)%string.

Definition send (m : log_message) (s : AstateLogSink) : AstateLogSink :=
  if regex_pattern s (m_full_filename m)
  then MkAstateLogSink (regex_pattern s) (special_log_path s) ((fun lines => lines ++ [sink_line m]) <$> ofs s)
  else s.

(** [std::regex_search] with [master.*], ignoring case. *)
Definition matches_master (full_filename : string) : bool := contains "master" (ToLower full_filename).

Record glog_state : Type := MkGlogState {
  log_initialized : bool;
  flags : glog_flags;
  made_directories : gset string;
  cleaner_minutes : option Z;
  logging_name : option string;
  log_sinks : list AstateLogSink;
  flush_thread_running : bool;
}.

Definition DEFAULT_FLUSH_INTERVAL_SECONDS : Z := 10.
Definition DEFAUTL_LOG_CLEANER_DAYS : Z := 3.

Definition set_glog_flags (f : glog_flags -> glog_flags) (s : glog_state) : glog_state :=
  MkGlogState (log_initialized s) (f (flags s)) (made_directories s) (cleaner_minutes s) (logging_name s) (log_sinks s)
    (flush_thread_running s).

Section Glog.
  Context `{FloatLib} (getpid : Z).
  (** [google::GetCommandLineOption]: the value of a flag that is defined; and
      whether a file can be opened. *)
  Context (command_line : string -> option string) (opens : string -> bool).

(** The value asked for, or that of the option if the flag is not defined or empty. *)
Definition flag_or (name : string) (alternative : result string) : result string :=
  match command_line name with
  | Some value => if decide (value = EmptyString) then alternative else Ok value
  | None => alternative
  end.

Definition set_minloglevel (f : glog_flags) : glog_flags :=
  match command_line "minloglevel" with
  | None => MkGlogFlags GLOG_INFO (FLAGS_log_dir f) (FLAGS_logtostderr f) (FLAGS_stderrthreshold f) (FLAGS_logbufsecs f)
  | Some _ => f
  end.

Definition set_logtostderr (f : glog_flags) : glog_flags :=
  match command_line "logtostderr" with
  | Some v =>
      if bool_decide (v ∈ ["true"; "1"; "yes"]%string)
      then MkGlogFlags (FLAGS_minloglevel f) (FLAGS_log_dir f) false GLOG_INFO (FLAGS_logbufsecs f) else f
  | None => f
  end.

Definition set_logbufsecs (f : glog_flags) : glog_flags :=
  match command_line "logbufsecs" with
  | None => MkGlogFlags (FLAGS_minloglevel f) (FLAGS_log_dir f) (FLAGS_logtostderr f) (FLAGS_stderrthreshold f) 1
  | Some _ => f
  end.

Definition set_log_dir (log_dir : string) (f : glog_flags) : glog_flags :=
  MkGlogFlags (FLAGS_minloglevel f) log_dir (FLAGS_logtostderr f) (FLAGS_stderrthreshold f) (FLAGS_logbufsecs f).

Definition new_AstateLogSink (filename_pattern : string -> bool) (path : string) : AstateLogSink :=
  MkAstateLogSink filename_pattern path (if opens path then Some [] else None).

Definition StartAsyncFlushThread (s : glog_state) : glog_state :=
  MkGlogState (log_initialized s) (flags s) (made_directories s) (cleaner_minutes s) (logging_name s) (log_sinks s) true.

(** The flags of the command line were parsed before. *)
Definition InitGlog (options : Options) : SR glog_state unit :=
  s ← sr_get;
  if log_initialized s then mret tt
  else
    _ ← sr_modify (fun s => MkGlogState true (flags s) (made_directories s) (cleaner_minutes s) (logging_name s) (log_sinks s)
                              (flush_thread_running s));
    _ ← sr_modify (set_glog_flags set_minloglevel);
    log_dir ← sr_lift (flag_or "log_dir" (GetOptionString option_definitions options "ASTATE_LOG_DIR"));
    _ ← sr_modify (fun s => MkGlogState (log_initialized s) (set_logbufsecs (set_logtostderr (set_log_dir log_dir (flags s))))
           ({[log_dir]} ∪ made_directories s) (Some (DEFAUTL_LOG_CLEANER_DAYS * 24 * 60)) (logging_name s) (log_sinks s)
           (flush_thread_running s));
    app_name ← sr_lift (flag_or "app_name" (Ok "astate__storage"%string));
    _ ← sr_modify (fun s => MkGlogState (log_initialized s) (flags s) (made_directories s) (cleaner_minutes s) (Some app_name)
                              (log_sinks s) (flush_thread_running s));
    ext ← sr_lift (GetOptionBool option_definitions options "ASTATE_ENABLE_GLOG_EXT");
    _ ← (if (ext : bool) then
           dir ← sr_lift (GetOptionString option_definitions options "ASTATE_LOG_DIR");
           let log_path := (dir ++ "/astate." ++ to_string getpid ++ ".log")%string in
           sr_modify (fun s => MkGlogState (log_initialized s) (flags s) ({[dir]} ∪ made_directories s) (cleaner_minutes s)
                                 (logging_name s) (log_sinks s ++ [new_AstateLogSink matches_master log_path])
                                 (flush_thread_running s))
         else mret tt);
    sr_modify StartAsyncFlushThread.

(** ** The choice of the library *)

Definition ASTATE_APP_NAME : string := "astate_storage".

Definition InitAstateLog_args (options : Options) : SR (spd_state * glog_state) unit :=
  log_backend ← sr_lift (GetOptionString option_definitions options "ASTATE_LOG_BACKEND");
  if decide (log_backend = "GLOG"%string) then on_snd (InitGlog options)
  else if decide (log_backend = "SPDLOG"%string) then
    app_name ← sr_lift (flag_or "app_name" (Ok ASTATE_APP_NAME));
    on_fst (InitSpdlog getpid app_name options)
  else mret tt.

Definition InitAstateLog_name (app_name : string) (options : Options) : SR (spd_state * glog_state) unit :=
  log_backend ← sr_lift (GetOptionString option_definitions options "ASTATE_LOG_BACKEND");
  if decide (log_backend = "SPDLOG"%string) then on_fst (InitSpdlog getpid app_name options)
  else if decide (log_backend = "GLOG"%string) then on_snd (InitGlog options)
  else mret tt.

(** [CreateATensorStorage]: the log is set up, with no options, before the storage
    of InMemory.v is looked for. *)
Definition storage_call (options : result string) (start : result bool)
    : SR ((spd_state * glog_state) * option ATensorStorageImpl) (option ATensorStorageImpl) :=
  _ ← on_fst (InitAstateLog_args ∅);
  on_snd (CreateATensorStorage options start : SR (option ATensorStorageImpl) (option ATensorStorageImpl)).

(** The calls of a process, one after the other, whatever they return or throw. *)
Definition storage_calls (calls : list (result string * result bool))
    (s : (spd_state * glog_state) * option ATensorStorageImpl) : (spd_state * glog_state) * option ATensorStorageImpl :=
  foldl (fun s call => (storage_call call.1 call.2 s).2) s calls.
End Glog.

(** ** The flush thread *)

Section Flush.
  Context {W : Type} `{Clock W}.

(** The loop of the thread, from the poll of [flush_thread_running] on: the times of
    its flushes.  [running] are the values it polls; [None] is a loop that has
    not ended within the fuel. *)
Fixpoint flush_loop (fuel : nat) (interval : Z) (running : nat -> bool) (last_flush_time : Z) (w : W) : option (list Z * W) :=
  match fuel with
  | O => None
  | S fuel' =>
      if running O then
        let w := sleep_for (ms 500) w in
        let elapsed := (now w - last_flush_time) ÷ 1000000000 in
        if interval <=? elapsed then
          if running 1%nat then
            '(ts, w') ← flush_loop fuel' interval (fun k => running (S (S k))) (now w) w; Some (now w :: ts, w')
          else flush_loop fuel' interval (fun k => running (S (S k))) last_flush_time w
        else flush_loop fuel' interval (fun k => running (S k)) last_flush_time w
      else Some ([], w)
  end.

(** The wait of [StopAsyncFlushThread] for a thread that stays joinable until it
    is joined. *)
Fixpoint stop_wait (fuel : nat) (start_time : Z) (w : W) : option W :=
  match fuel with
  | O => None
  | S fuel' => if now w - start_time <? ms 1000 then stop_wait fuel' start_time (sleep_for (ms 100) w) else Some w
  end.

(** [joined]: the time the join takes once the flag is down. *)
Definition StopAsyncFlushThread (fuel : nat) (joined : Z) (s : glog_state) (w : W) : option (glog_state * W) :=
  if flush_thread_running s then
    w' ← stop_wait fuel (now w) w;
    Some (MkGlogState (log_initialized s) (flags s) (made_directories s) (cleaner_minutes s) (logging_name s) (log_sinks s) false,
          sleep_for joined w')
  else Some (s, w).

(** Times that are [d] apart from [a] on. *)
Fixpoint spaced (d a : Z) (ts : list Z) : Prop :=
  match ts with [] => True | t :: ts' => a + d <= t /\ spaced d t ts' end.
End Flush.

(** ** Theorems *)

Lemma flush_loop_ends {W} `{ClockLaws W} interval : 0 <= interval -> forall n fuel running last w,
  (forall k, (n <= k)%nat -> running k = false) -> (n < fuel)%nat -> last <= now w ->
  exists ts w', flush_loop fuel interval running last w = Some (ts, w') /\ spaced (interval * 1000000000) last ts /\ (length ts <= n)%nat.
Proof.
  intros Hint. induction n as [n IH] using lt_wf_ind. intros [|fuel] running last w Hr Hf Hl; [lia|]. cbn [flush_loop].
  destruct (running O) eqn:E0; [|exists [], w; split; [done|]; split; [done|cbn; lia]].
  assert (0 < n)%nat as Hn by (destruct n; [by rewrite Hr in E0 by lia|lia]).
  pose proof (sleep_now (ms 500) w) as Hs. change (ms 500) with 500000000 in *. set (w1 := sleep_for 500000000 w) in *.
  destruct (Z.leb_spec interval ((now w1 - last) ÷ 1000000000)) as [Hi|Hi].
  - rewrite Z.quot_div_nonneg in Hi by lia. destruct (running 1%nat) eqn:E1.
    + assert (1 < n)%nat by (destruct n as [|[|]]; [lia|by rewrite Hr in E1 by lia|lia]).
      destruct (IH (n - 2)%nat ltac:(lia) fuel (fun k => running (S (S k))) (now w1) w1) as (ts & w' & -> & Hsp & Hlen);
        [intros k Hk; apply Hr; lia|lia|lia|]. exists (now w1 :: ts), w'. split; [done|]. cbn.
      split; [split; [|done]|lia]. pose proof (Z.mul_div_le (now w1 - last) 1000000000). nia.
    + destruct (IH (n - 1)%nat ltac:(lia) fuel (fun k => running (S (S k))) last w1) as (ts & w' & -> & Hsp & Hlen);
        [intros k Hk; apply Hr; lia|lia|lia|]. exists ts, w'. split; [done|]. split; [done|lia].
  - destruct (IH (n - 1)%nat ltac:(lia) fuel (fun k => running (S k)) last w1) as (ts & w' & -> & Hsp & Hlen);
      [intros k Hk; apply Hr; lia|lia|lia|]. exists ts, w'. split; [done|]. split; [done|lia].
Qed.

Lemma stop_wait_ends {W} `{ClockLaws W} fuel : forall start_time (w : W), ms 1000 - (now w - start_time) <= ms 100 * Z.of_nat fuel ->
  exists w', stop_wait (S fuel) start_time w = Some w' /\ ms 1000 <= now w' - start_time.
Proof.
  induction fuel as [|fuel IH]; intros start_time w Hf; cbn [stop_wait];
    destruct (Z.ltb_spec (now w - start_time) (ms 1000)); try (exists w; split; [done|lia]).
  - lia.
  - pose proof (sleep_now (ms 100) w) as Hs. apply IH. unfold ms in *. lia.
Qed.

(** The flush thread.  Once [flush_thread_running] stays false the thread ends;
    until then two flushes are at least the interval apart.  Stopping it
    waits for a whole second, however soon the thread has ended: a thread is
    joinable until it is joined. *)
Theorem flush_thread_ends {W} `{ClockLaws W} (interval joined : Z) (n : nat) (running : nat -> bool) (s : glog_state) (w : W) :
  0 <= interval -> 0 <= joined -> (forall k, (n <= k)%nat -> running k = false) -> flush_thread_running s = true ->
  (exists ts w', flush_loop (S n) interval running (now w) w = Some (ts, w') /\ spaced (interval * 1000000000) (now w) ts) /\
  (exists s' w', StopAsyncFlushThread 11 joined s w = Some (s', w') /\ flush_thread_running s' = false /\ ms 1000 <= now w' - now w).
Proof.
  intros Hi Hj Hr Hs. split.
  - destruct (flush_loop_ends interval Hi n (S n) running (now w) w Hr) as (ts & w' & E & Hsp & _); [lia|lia|]. by exists ts, w'.
  - unfold StopAsyncFlushThread. rewrite Hs. destruct (stop_wait_ends 10 (now w) w) as (w' & -> & Hw); [unfold ms; lia|].
    eexists _, _. split; [reflexivity|]. split; [done|]. pose proof (sleep_now joined w'). lia.
Qed.

(** With no options: a file for a day under the default directory. *)
Section Defaults.
  Context `{FloatLib} (getpid : Z) (command_line : string -> option string) (opens : string -> bool).

Definition default_sink (app_name : string) : sink :=
  daily_file_sink ("/tmp/astate/" ++ app_name ++ "." ++ to_string getpid) 0 0 false 5.

Definition default_name : string :=
  match flag_or command_line "app_name" (Ok ASTATE_APP_NAME) with Ok name => name | _ => EmptyString end.

Lemma flag_or_name : flag_or command_line "app_name" (Ok ASTATE_APP_NAME) = Ok default_name.
Proof. unfold default_name, flag_or. destruct (command_line "app_name") as [v|]; [|done]. by destruct (decide (v = EmptyString)). Qed.

Lemma new_sinks_default app_name : new_sinks getpid app_name ∅ = Ok [default_sink app_name].
Proof. reflexivity. Qed.

(** What another set-up does to the log. *)
Definition set_up_again (s : spd_state) : spd_state :=
  MkSpdState (Some match logger s with
                   | Some lg => MkAsyncLogger (lg_name lg) (lg_sinks lg ++ [default_sink default_name]) (lg_pool lg)
                   | None => MkAsyncLogger default_name [default_sink default_name] (S (pools s))
                   end) true level_info (S (pools s)).

Lemma backend_default : GetOptionString option_definitions ∅ "ASTATE_LOG_BACKEND" = Ok "SPDLOG"%string.
Proof. vm_compute. reflexivity. Qed.

Lemma level_default : GetLogLevel ∅ = Ok level_info.
Proof. vm_compute. reflexivity. Qed.

Lemma InitAstateLog_default (s : spd_state) (g : glog_state) :
  InitAstateLog_args getpid command_line opens ∅ (s, g) = (Ok tt, (set_up_again s, g)).
Proof.
  unfold InitAstateLog_args. rewrite backend_default.
  unfold mbind, SR_bind, sr_lift. cbn [decide]. rewrite decide_False, decide_True by done. rewrite flag_or_name.
  unfold on_fst, InitSpdlog, sr_modify, mbind, SR_bind, sr_lift. cbn [fst snd]. rewrite new_sinks_default.
  rewrite level_default. unfold set_up_again. by destruct (logger s).
Qed.

Lemma storage_call_log o st s g i : exists i', (storage_call getpid command_line opens o st (s, g, i)).2 = (set_up_again s, g, i').
Proof.
  unfold storage_call, mbind, SR_bind, on_fst. cbn [fst snd]. rewrite InitAstateLog_default. unfold on_snd. cbn [fst snd].
  destruct (CreateATensorStorage o st i) as [r i']. by exists i'.
Qed.

Definition set_up_times (n : nat) : spd_state :=
  MkSpdState (Some (MkAsyncLogger default_name (replicate n (default_sink default_name)) 1)) true level_info n.

Lemma storage_calls_log (g : glog_state) calls : forall n i,
  (storage_calls getpid command_line opens calls (set_up_times (S n), g, i)).1 = (set_up_times (length calls + S n), g).
Proof.
  induction calls as [|[o st] calls IH]; intros n i; [done|]. unfold storage_calls in *. cbn [foldl fst snd].
  destruct (storage_call_log o st (set_up_times (S n)) g i) as (i' & ->).
  replace (set_up_again (set_up_times (S n))) with (set_up_times (S (S n))).
  - rewrite IH. cbn [length]. do 2 f_equal. lia.
  - unfold set_up_again, set_up_times. cbn [logger lg_name lg_sinks lg_pool pools]. by rewrite <- replicate_cons_app.
Qed.
End Defaults.

Definition TrivialFloats : FloatLib := {| float := unit; float_zero := tt; stof _ := None; stod _ := None |}.

(** The log of a process.  Every call of [CreateATensorStorage] sets up the log
    again, whatever the options of the process say, and whatever comes of the
    storage: with [n] calls the logger has the same daily file [n] times.  If
    spdlog keeps the thread pool of the logger when another one is set up, every
    record is written [n] times; if not, nothing is written after the second call. *)
Theorem storages_log `{FloatLib} (getpid : Z) (command_line : string -> option string) (opens : string -> bool)
    (calls : list (result string * result bool)) (g : glog_state) (i : option ATensorStorageImpl) (kept : bool) :
  calls <> [] ->
  let s := (storage_calls getpid command_line opens calls (spd_init, g, i)).1.1 in
  let file := default_sink getpid (default_name command_line) in
  lg_sinks <$> logger s = Some (replicate (length calls) file) /\
  written_to kept s level_info = (if kept || (length calls =? 1)%nat then replicate (length calls) file else []).
Proof.
  destruct calls as [|[o st] calls]; [done|]. intros _. cbv zeta.
  destruct (storage_call_log getpid command_line opens o st spd_init g i) as (i' & E).
  assert (storage_calls getpid command_line opens ((o, st) :: calls) (spd_init, g, i) =
    storage_calls getpid command_line opens calls (set_up_times getpid command_line 1, g, i')) as -> by (unfold storage_calls; cbn [foldl fst snd]; by rewrite E).
  rewrite storage_calls_log, Nat.add_1_r. cbn [length fst]. split; [done|].
  unfold written_to. cbn [set_up_times logger is_default global_level lg_pool lg_sinks pools]. by destruct kept, calls.
Qed.

Lemma storages_log_witness :
  written_to false (storage_calls (H := TrivialFloats) 4711 (fun _ => None) (fun _ => true)
    [(Ok "PULL"%string, Ok true); (Ok "PULL"%string, Ok true)]
    (spd_init, MkGlogState false (MkGlogFlags 0 EmptyString false 2 30) ∅ None None [] false, None)).1.1 level_info = [].
Proof.
  apply (storages_log (H := TrivialFloats) 4711 (fun _ => None) (fun _ => true) [(Ok "PULL"%string, Ok true); (Ok "PULL"%string, Ok true)]
    (MkGlogState false (MkGlogFlags 0 EmptyString false 2 30) ∅ None None [] false) None false). discriminate.
Defined.

(** The file of the sink has the messages of the source files that match, in their
    order, once each. *)
Theorem sink_selects (ms : list log_message) (s : AstateLogSink) (lines : list string) :
  ofs s = Some lines ->
  ofs (foldl (fun s m => send m s) s ms) =
    Some (lines ++ (sink_line <$> filter (fun m => regex_pattern s (m_full_filename m) = true) ms)).
Proof.
  revert s lines. induction ms as [|m ms IH]; intros s lines Hs; cbn [foldl]; [by rewrite app_nil_r|].
  rewrite filter_cons. unfold send at 2. destruct (regex_pattern s (m_full_filename m)) eqn:E.
  - rewrite decide_True by done. rewrite (IH _ (lines ++ [sink_line m])) by (cbn; by rewrite Hs). cbn. by rewrite <- app_assoc.
  - rewrite decide_False by done. by apply IH.
Qed.

Lemma sink_selects_witness :
  let m name := MkLogMessage 0 name name 7 (MkLogMessageTime 0 9 8 7 6 5) "ready" in
  ofs (foldl (fun s m => send m s) (MkAstateLogSink matches_master "/tmp/astate/astate.1.log" (Some []))
    [m "src/core/remote_tensor_table.cpp"; m "Master/main.cpp"]) =
    Some ["[INFO] [00-09 08:07:06.000005] [Master/main.cpp:7] ready"%string].
Proof.
  cbv zeta. rewrite (sink_selects _ _ []) by reflexivity. vm_compute. reflexivity.
Defined.

Lemma sr_lift_state {S A} (r : result A) (s s' : S) x : sr_lift r s = (x, s') -> s' = s.
Proof. unfold sr_lift. by intros [= _ <-]. Qed.

(** The flags of glog.  gflags finds every flag that glog defines, set or not, so
    that the defaults for the level and the flush interval are never assigned; and
    asking for logs on stderr turns them off there. *)
Theorem glog_defaults_unused `{FloatLib} (getpid : Z) (command_line : string -> option string) (opens : string -> bool)
    (options : Options) (s s' : glog_state) (u : unit) :
  is_Some (command_line "minloglevel"%string) -> is_Some (command_line "logbufsecs"%string) ->
  log_initialized s = false -> InitGlog getpid command_line opens options s = (Ok u, s') ->
  FLAGS_minloglevel (flags s') = FLAGS_minloglevel (flags s) /\ FLAGS_logbufsecs (flags s') = FLAGS_logbufsecs (flags s) /\
  (command_line "logtostderr"%string = Some "true"%string -> FLAGS_logtostderr (flags s') = false) /\
  flush_thread_running s' = true.
Proof.
  intros [v1 E1] [v2 E2] Hi E. unfold InitGlog in E. sr_open E s0 s1 F0. injection F0 as <- <-. rewrite Hi in E.
  sr_open E u1 s1 F1. injection F1 as _ <-. sr_open E u2 s2 F2. injection F2 as _ <-. sr_open E log_dir s3 F3. apply sr_lift_state in F3 as ->.
  sr_open E u4 s4 F4. injection F4 as _ <-. sr_open E app_name s5 F5. apply sr_lift_state in F5 as ->. sr_open E u6 s6 F6. injection F6 as _ <-.
  sr_open E ext s7 F7. apply sr_lift_state in F7 as ->. sr_open E u8 s8 F8. injection E as _ <-.
  assert (flags s8 = set_logbufsecs command_line (set_logtostderr command_line (set_log_dir log_dir (set_minloglevel command_line (flags s)))))
    as Hf.
  { destruct ext; [sr_open F8 dir s9 F9; apply sr_lift_state in F9 as ->|]; injection F8 as _ <-; reflexivity. }
  cbn [flags flush_thread_running StartAsyncFlushThread]. rewrite Hf. unfold set_logbufsecs, set_logtostderr, set_minloglevel, set_log_dir.
  rewrite E1, E2. split; [by repeat case_match|]. split; [by repeat case_match|]. split; [|done].
  intros ->. by rewrite bool_decide_true by (by left).
Qed.
