(* ===== verification/PyApi.v ===== *)
(** * The Python interface

    python/astate: parallel_config.py (the checked configuration),
    config_converter.py (its conversion to the C++ struct and back), table.py
    (the class [TensorTable] over a C++ table) and utils.py.  A C++ table is
    the interface [CoreTable]; the in-memory table of InMemory.v is an instance,
    and the storage of InMemory.v registers the tables.

    The theorems show which configurations survive the way to C++ and back, that
    a tensor put through the interface is read back through it, what is checked
    before the table is touched, that a batch read reports success whatever the
    table answers, and that a table may have another type than its owner says. *)

From S2P Require Import Prelude StateResult StringUtils Tensor ShardedOps Transfer RemoteRead ReadCorrect Convert InMemory.
Local Open Scope Z_scope.

(** ** Exceptions *)

Inductive exn : Type := ValueError | TypeError | RuntimeError | AttributeError | OtherError.

(** What a call returns or raises; [Crash] is undefined behaviour of the C++ code. *)
Inductive pyres (A : Type) : Type :=
| Ret (a : A)
| Raise (e : exn)
| Crash.
Arguments Ret {A} a.
Arguments Raise {A} e.
Arguments Crash {A}.

#[export] Instance pyres_ret : MRet pyres := fun A a => Ret a.
#[export] Instance pyres_bind : MBind pyres := fun A B f m =>
  match m with Ret a => f a | Raise e => Raise e | Crash => Crash end.

(** [try: m except e: h(e)] *)
Definition try_except {A} (m : pyres A) (h : exn -> exn) : pyres A :=
  match m with Raise e => Raise (h e) | _ => m end.

(** A C++ exception becomes a [RuntimeError]. *)
Definition from_cpp {A} (m : result A) : pyres A :=
  match m with Ok a => Ret a | Throw _ => Raise RuntimeError | Undef => Crash end.

(** The conversion of an argument to a C++ integer. *)
Definition cast_int64 (n : Z) : pyres Z := if bool_decide (in_i64 n) then Ret n else Raise TypeError.

(** ** parallel_config.py *)

Inductive Role : Type := ROLE_TRAINING | ROLE_INFERENCE.

Definition role_value (r : Role) : string :=
  match r with ROLE_TRAINING => "training"%string | ROLE_INFERENCE => "inference"%string end.

Record ParallelConfig : Type := MkParallelConfig {
  pc_role : Role;
  role_size : Z; role_rank : Z; dp_size : Z; dp_rank : Z; tp_size : Z; tp_rank : Z; pp_size : Z; pp_rank : Z;
  cp_size : Z; cp_rank : Z; ep_size : Z; ep_rank : Z; etp_size : Z; etp_rank : Z;
}.

Definition _validate_config (c : ParallelConfig) : pyres unit :=
  if existsb (fun rank => rank <? 0) [role_rank c; dp_rank c; tp_rank c; pp_rank c; ep_rank c; cp_rank c; etp_rank c]
  then Raise ValueError
  else if existsb (fun size => size <=? 0) [role_size c; dp_size c; tp_size c; pp_size c; ep_size c; cp_size c; etp_size c]
  then Raise ValueError
  else if role_size c <=? role_rank c then Raise ValueError
  else if dp_size c <=? dp_rank c then Raise ValueError
  else if tp_size c <=? tp_rank c then Raise ValueError
  else if pp_size c <=? pp_rank c then Raise ValueError
  else if ep_size c <=? ep_rank c then Raise ValueError
  else if cp_size c <=? cp_rank c then Raise ValueError
  else if etp_size c <=? etp_rank c then Raise ValueError
  else Ret tt.

(** [ParallelConfig(...)]: [__post_init__] validates. *)
Definition new_ParallelConfig (c : ParallelConfig) : pyres ParallelConfig :=
  _ ← _validate_config c; Ret c.

Definition is_training (c : ParallelConfig) : bool := match pc_role c with ROLE_TRAINING => true | _ => false end.
Definition is_inference (c : ParallelConfig) : bool := match pc_role c with ROLE_INFERENCE => true | _ => false end.

Definition create_training_config (role_size role_rank dp_size dp_rank tp_size tp_rank pp_size pp_rank cp_size cp_rank
    ep_size ep_rank etp_size etp_rank : Z) : pyres ParallelConfig :=
  new_ParallelConfig (MkParallelConfig ROLE_TRAINING role_size role_rank dp_size dp_rank tp_size tp_rank pp_size pp_rank
    cp_size cp_rank ep_size ep_rank etp_size etp_rank).

Definition create_inference_config (role_size role_rank dp_size dp_rank tp_size tp_rank pp_size pp_rank cp_size cp_rank
    ep_size ep_rank etp_size etp_rank : Z) : pyres ParallelConfig :=
  new_ParallelConfig (MkParallelConfig ROLE_INFERENCE role_size role_rank dp_size dp_rank tp_size tp_rank pp_size pp_rank
    cp_size cp_rank ep_size ep_rank etp_size etp_rank).

(** [__str__] *)
Definition rank_of (label : string) (rank size : Z) : string :=
  (label ++ "=" ++ to_string rank ++ "/" ++ to_string size)%string.

Definition config_str (c : ParallelConfig) : string :=
  ("ParallelConfig(role=" ++ role_value (pc_role c) ++ ", role_size=" ++ to_string (role_size c) ++
   ", role_rank=" ++ to_string (role_rank c) ++ ", " ++ rank_of "dp" (dp_rank c) (dp_size c) ++ ", " ++
   rank_of "tp" (tp_rank c) (tp_size c) ++ ", " ++ rank_of "pp" (pp_rank c) (pp_size c) ++ ", " ++
   rank_of "cp" (cp_rank c) (cp_size c) ++ ", " ++ rank_of "ep" (ep_rank c) (ep_size c) ++ ", " ++
   rank_of "etp" (etp_rank c) (etp_size c) ++ ")")%string.

(** ** config_converter.py *)

(** The C++ struct of config.h: fields of type [int32_t]. *)
Record AParallelConfig : Type := MkAParallelConfig {
  apc_role : ARole;
  a_role_size : Z; a_role_rank : Z; a_dp_size : Z; a_dp_rank : Z; a_tp_size : Z; a_tp_rank : Z; a_pp_size : Z; a_pp_rank : Z;
  a_cp_size : Z; a_cp_rank : Z; a_ep_size : Z; a_ep_rank : Z; a_etp_size : Z; a_etp_rank : Z;
}.

#[export] Instance aparallel_config_eq_dec : EqDecision AParallelConfig.
Proof. solve_decision. Defined.

Definition apc_numbers (c : AParallelConfig) : list Z :=
  [a_role_size c; a_role_rank c; a_dp_size c; a_dp_rank c; a_tp_size c; a_tp_rank c; a_pp_size c; a_pp_rank c;
   a_cp_size c; a_cp_rank c; a_ep_size c; a_ep_rank c; a_etp_size c; a_etp_rank c].

(** The constructor takes 32-bit integers; others are refused by the binding. *)
Definition new_AParallelConfig (c : AParallelConfig) : pyres AParallelConfig :=
  if decide (Forall in_i32 (apc_numbers c)) then Ret c else Raise TypeError.

Definition IsTraining (c : AParallelConfig) : bool := bool_decide (apc_role c = TRAINING).
Definition IsInference (c : AParallelConfig) : bool := bool_decide (apc_role c = INFERENCE).

Definition apc_ToString (c : AParallelConfig) : string :=
  ("AParallelConfig(role=" ++ RoleToString (apc_role c) ++ ", role_size=" ++ to_string (a_role_size c) ++
   ", role_rank=" ++ to_string (a_role_rank c) ++ ", " ++ rank_of "dp" (a_dp_rank c) (a_dp_size c) ++ ", " ++
   rank_of "tp" (a_tp_rank c) (a_tp_size c) ++ ", " ++ rank_of "pp" (a_pp_rank c) (a_pp_size c) ++ ", " ++
   rank_of "cp" (a_cp_rank c) (a_cp_size c) ++ ", " ++ rank_of "ep" (a_ep_rank c) (a_ep_size c) ++ ", " ++
   rank_of "etp" (a_etp_rank c) (a_etp_size c) ++ ")")%string.

(** An argument that should be a configuration: [None] is any other object. *)
Definition convert_parallel_config (config : option ParallelConfig) : pyres AParallelConfig :=
  match config with
  | None => Raise TypeError
  | Some c =>
      let cpp_role := match pc_role c with ROLE_TRAINING => TRAINING | ROLE_INFERENCE => INFERENCE end in
      new_AParallelConfig (MkAParallelConfig cpp_role (role_size c) (role_rank c) (dp_size c) (dp_rank c) (tp_size c) (tp_rank c)
        (pp_size c) (pp_rank c) (cp_size c) (cp_rank c) (ep_size c) (ep_rank c) (etp_size c) (etp_rank c))
  end.

Definition convert_cpp_parallel_config (cpp_config : option AParallelConfig) : pyres ParallelConfig :=
  match cpp_config with
  | None => Raise TypeError
  | Some c =>
      let py_role := match apc_role c with TRAINING => ROLE_TRAINING | INFERENCE => ROLE_INFERENCE end in
      new_ParallelConfig (MkParallelConfig py_role (a_role_size c) (a_role_rank c) (a_dp_size c) (a_dp_rank c) (a_tp_size c)
        (a_tp_rank c) (a_pp_size c) (a_pp_rank c) (a_cp_size c) (a_cp_rank c) (a_ep_size c) (a_ep_rank c) (a_etp_size c) (a_etp_rank c))
  end.

(** All fields are compared; a configuration that cannot be converted is not
    compatible. *)
Definition validate_compatibility (py_config : option ParallelConfig) (cpp_config : AParallelConfig) : pyres bool :=
  match convert_parallel_config py_config with
  | Ret converted => Ret (bool_decide (converted = cpp_config))
  | Raise (ValueError | TypeError) => Ret false
  | Raise e => Raise e
  | Crash => Crash
  end.

(** ** A C++ table *)

(** The methods of the binding on the world [W]; a Python object that is given
    as a tensor is the tensor it holds, or the exception of the conversion. *)
Class CoreTable (T W : Type) : Type := {
  core_put : Z -> ShardedKey -> result T -> W -> result bool * W;
  core_get : Z -> ShardedKey -> result T -> W -> result (bool * T);
  core_get_tensor : Z -> ShardedKey -> TorchTensorMeta -> W -> result (option T);
  core_multi_put : Z -> list (ShardedKey * result T) -> W -> result bool * W;
  core_multi_get : Z -> list (ShardedKey * result T) -> W -> result bool * list (ShardedKey * result T);
  core_multi_get_tensor : Z -> list (ShardedKey * TorchTensorMeta) -> W -> result (list (ShardedKey * T));
  core_complete : Z -> W -> result unit * W;
  core_scan_tensor_meta : Z -> W -> result (list (string * TorchTensorMeta));
}.

Definition cpp_pairs {T} (l : list (ShardedKey * pyobj T)) : list (ShardedKey * result T) := map (fun p => (p.1, PyObjectToTensor p.2)) l.

(** ** table.py: the operations *)

Section Operations.
  Context {T W : Type} `{CoreTable T W}.

(** [tensor.numel()], which may raise. *)
  Context (numel : T -> pyres Z).

(** The check of one tensor; an empty one raises [ValueError], which the
    inner handler does not catch. *)
Definition check_tensor (tensor : pyobj T) : pyres unit :=
  match tensor with
  | PyNone | NotATensor => Raise ValueError
  | PyTensor x =>
      match numel x with
      | Ret n => if n =? 0 then Raise ValueError else Ret tt
      | Raise (RuntimeError | AttributeError) => Raise ValueError
      | Raise e => Raise e
      | Crash => Crash
      end
  end.

(** [except (TypeError, ValueError): ValueError; except Exception: RuntimeError] *)
Definition value_or_runtime (e : exn) : exn := match e with TypeError | ValueError => ValueError | _ => RuntimeError end.
Definition all_runtime (e : exn) : exn := RuntimeError.

Definition py_put (seq_id : Z) (key : ShardedKey) (tensor : pyobj T) (w : W) : pyres bool * W :=
  match check_tensor tensor with
  | Ret _ =>
      match cast_int64 seq_id with
      | Ret seq => let '(r, w') := core_put seq key (PyObjectToTensor tensor) w in (try_except (from_cpp r) value_or_runtime, w')
      | Raise e => (Raise (value_or_runtime e), w)
      | Crash => (Crash, w)
      end
  | Raise e => (Raise e, w)
  | Crash => (Crash, w)
  end.

(** The tensor that is returned, and the one that was given after the call. *)
Definition py_get (seq_id : Z) (key : ShardedKey) (tensor : pyobj T) (w : W) : pyres (option T) * pyobj T :=
  match cast_int64 seq_id with
  | Ret seq =>
      match from_cpp (core_get seq key (PyObjectToTensor tensor) w) with
      | Ret (is_success, x) => (Ret (if is_success : bool then Some x else None), PyTensor x)
      | Raise e => (Raise (all_runtime e), tensor)
      | Crash => (Crash, tensor)
      end
  | Raise e => (Raise (all_runtime e), tensor)
  | Crash => (Crash, tensor)
  end.

(** The sizes are converted to a vector of [int64_t]. *)
Definition new_TorchTensorMeta (dtype : ScalarType.t) (size : list Z) (device : TorchDevice) : pyres TorchTensorMeta :=
  if decide (Forall in_i64 size) then Ret (MkTorchTensorMeta dtype size device) else Raise TypeError.

Definition get_tensor (seq_id : Z) (key : ShardedKey) (dtype : ScalarType.t) (size : list Z) (device : TorchDevice) (w : W)
    : pyres (option T) :=
  try_except (
    tensor_meta ← new_TorchTensorMeta dtype size device;
    seq ← cast_int64 seq_id;
    from_cpp (core_get_tensor seq key tensor_meta w)) all_runtime.

Fixpoint check_all (tensor_pairs : list (ShardedKey * pyobj T)) : pyres unit :=
  match tensor_pairs with
  | [] => Ret tt
  | (_, tensor) :: rest => _ ← check_tensor tensor; check_all rest
  end.

Definition py_multi_put (seq_id : Z) (tensor_pairs : list (ShardedKey * pyobj T)) (w : W) : pyres bool * W :=
  match tensor_pairs with
  | [] => (Ret true, w)
  | _ =>
      match (_ ← check_all tensor_pairs; cast_int64 seq_id) with
      | Ret seq => let '(r, w') := core_multi_put seq (cpp_pairs tensor_pairs) w in (try_except (from_cpp r) value_or_runtime, w')
      | Raise e => (Raise (value_or_runtime e), w)
      | Crash => (Crash, w)
      end
  end.

(** A tensor after a call that may have written to it. *)
Definition from_cpp_pairs (l : list (ShardedKey * result T)) : list (ShardedKey * pyobj T) :=
  map (fun p => (p.1, match p.2 with Ok x => PyTensor x | _ => NotATensor end)) l.

(** The pairs are returned with what was read into them; what the C++ method
    returned is not looked at. *)
Definition py_multi_get (seq_id : Z) (tensor_pairs : list (ShardedKey * pyobj T)) (w : W) : pyres (list (ShardedKey * pyobj T)) :=
  match tensor_pairs with
  | [] => Ret []
  | _ =>
      match (_ ← check_all tensor_pairs; cast_int64 seq_id) with
      | Ret seq =>
          let '(r, pairs) := core_multi_get seq (cpp_pairs tensor_pairs) w in
          try_except (_ ← from_cpp r; Ret (from_cpp_pairs pairs)) value_or_runtime
      | Raise e => Raise (value_or_runtime e)
      | Crash => Crash
      end
  end.

Fixpoint make_metas (l : list (ShardedKey * ScalarType.t * list Z * TorchDevice)) : pyres (list (ShardedKey * TorchTensorMeta)) :=
  match l with
  | [] => Ret []
  | (key, dtype, size, device) :: rest =>
      tensor_meta ← new_TorchTensorMeta dtype size device;
      metas ← make_metas rest;
      Ret ((key, tensor_meta) :: metas)
  end.

Definition multi_get_tensors (seq_id : Z) (tensor_pairs : list (ShardedKey * ScalarType.t * list Z * TorchDevice)) (w : W)
    : pyres (list (ShardedKey * T)) :=
  match tensor_pairs with
  | [] => Ret []
  | _ => try_except (
           metas ← make_metas tensor_pairs;
           seq ← cast_int64 seq_id;
           from_cpp (core_multi_get_tensor seq metas w)) all_runtime
  end.

Definition complete (seq_id : Z) (w : W) : pyres unit * W :=
  match cast_int64 seq_id with
  | Ret seq => let '(r, w') := core_complete seq w in (try_except (from_cpp r) all_runtime, w')
  | Raise e => (Raise (all_runtime e), w)
  | Crash => (Crash, w)
  end.

(** What the generator yields when it is run to its end. *)
Definition scan_tensor_meta (seq_id : Z) (w : W) : pyres (list (string * ScalarType.t * list Z)) :=
  try_except (
    seq ← cast_int64 seq_id;
    result_list ← from_cpp (core_scan_tensor_meta seq w);
    Ret (map (fun p : string * TorchTensorMeta => (p.1, tm_dtype p.2, tm_size p.2)) result_list)) all_runtime.

(** ** utils.py *)

Definition create_sharded_key (key : string) (global_shape global_offset : list Z) : pyres ShardedKey :=
  if decide (Forall in_i64 global_shape /\ Forall in_i64 global_offset) then Ret (MkShardedKey key global_shape global_offset)
  else Raise TypeError.

Definition validate_tensor (tensor : pyobj T) : pyres bool :=
  match tensor with
  | PyNone | NotATensor => Ret false
  | PyTensor x =>
      match numel x with
      | Ret n => Ret (0 <? n)
      | Raise (RuntimeError | AttributeError) => Ret false
      | Raise e => Raise e
      | Crash => Crash
      end
  end.

(** A dictionary as its items; [None] is a key that is no string. *)
Fixpoint validate_tensor_dict (items : list (option string * pyobj T)) : pyres bool :=
  match items with
  | [] => Ret true
  | (None, _) :: _ => Ret false
  | (Some _, tensor) :: rest => ok ← validate_tensor tensor; if (ok : bool) then validate_tensor_dict rest else Ret false
  end.

Definition get_memory_usage (element_size : T -> pyres Z) (tensor : pyobj T) : pyres Z :=
  match tensor with
  | PyNone | NotATensor => Raise ValueError
  | PyTensor x => try_except (n ← numel x; e ← element_size x; Ret (n * e)) all_runtime
  end.
End Operations.

(** ** table.py: opening a table *)

(** The type that is asked for: a name, a value of the enumeration, or another
    object. *)
Inductive type_arg : Type := TypeName (name : string) | TypeEnum (ty : TensorTableType) | TypeOther.

Definition type_mapping : list (string * TensorTableType) :=
  [("in_memory"%string, IN_MEMORY); ("memory"%string, IN_MEMORY); ("remote"%string, REMOTE)].

Definition resolve_type (table_type : type_arg) : pyres (TensorTableType * string) :=
  match table_type with
  | TypeName name =>
      match (list_to_map type_mapping : gmap string TensorTableType) !! name with
      | Some ty => Ret (ty, name)
      | None => Raise ValueError
      end
  | TypeEnum IN_MEMORY => Ret (IN_MEMORY, "in_memory"%string)
  | TypeEnum REMOTE => Ret (REMOTE, "remote"%string)
  | TypeOther => Raise ValueError
  end.

Record PyTensorTable : Type := MkPyTensorTable {
  pt_table : nat; pt_name : string; pt_type : TensorTableType; pt_type_str : string; pt_parallel_config : ParallelConfig;
}.

(** [TensorTable(name, parallel_config, table_type)]: [options] and [start] are
    those of [CreateATensorStorage], [remote] the construction of a remote table. *)
Definition new_TensorTable (options : AParallelConfig -> result string) (start : AParallelConfig -> result bool) (remote : result unit)
    (name : string) (parallel_config : option ParallelConfig) (table_type : type_arg) (ats : option ATensorStorageImpl)
    : pyres PyTensorTable * option ATensorStorageImpl :=
  match resolve_type table_type with
  | Ret (ty, type_str) =>
      match parallel_config with
      | None => (Raise TypeError, ats)
      | Some config =>
          match convert_parallel_config (Some config) with
          | Ret cpp =>
              match CreateATensorStorage (options cpp) (start cpp) ats with
              | (Ok (Some st), _) =>
                  let '(r, st') := CreateTable remote ty name st in
                  (match r with
                   | Ok t => Ret (MkPyTensorTable t name ty type_str config)
                   | Throw _ => Raise ValueError
                   | Undef => Crash
                   end, Some st')
              | (Undef, ats') => (Crash, ats')
              | (_, ats') => (Raise ValueError, ats')
              end
          | Raise _ => (Raise ValueError, ats)
          | Crash => (Crash, ats)
          end
      end
  | Raise e => (Raise e, ats)
  | Crash => (Crash, ats)
  end.

(** Only the Python object is changed. *)
Definition update_parallel_config (new_config : option ParallelConfig) (t : PyTensorTable) : pyres PyTensorTable :=
  match new_config with
  | None => Raise ValueError
  | Some c => Ret (MkPyTensorTable (pt_table t) (pt_name t) (pt_type t) (pt_type_str t) c)
  end.

(** ** The in-memory table *)

Section InMemoryCore.
Context {T : Type} (tensor_size : T -> Z -> result Z)
  (narrow_copy : T -> T -> list Z -> list Z -> list Z -> result T)
  (scalar_type : T -> ScalarType.t) (meta_of : T -> TorchTensorMeta)
  (zeros : TorchTensorMeta -> T) (visit : gmap ShardedKey T -> list (ShardedKey * T)).

(** [Complete] does nothing. *)
Definition in_memory_core : CoreTable T (table_data T) := {|
  core_put := im_Put;
  core_get := im_Get tensor_size narrow_copy scalar_type visit;
  core_get_tensor := im_GetTensor tensor_size narrow_copy scalar_type zeros visit;
  core_multi_put := im_MultiPut;
  core_multi_get := im_MultiGet tensor_size narrow_copy scalar_type visit;
  core_multi_get_tensor := im_MultiGetTensor tensor_size narrow_copy scalar_type zeros visit;
  core_complete _ t := (Ok tt, t);
  core_scan_tensor_meta seq_id t := Ok (im_ScanTensorMeta meta_of visit seq_id t);
|}.
End InMemoryCore.

(** ** Configurations *)

Definition config_sizes (c : ParallelConfig) : list Z :=
  [role_size c; dp_size c; tp_size c; pp_size c; cp_size c; ep_size c; etp_size c].
Definition config_ranks (c : ParallelConfig) : list Z :=
  [role_rank c; dp_rank c; tp_rank c; pp_rank c; cp_rank c; ep_rank c; etp_rank c].

(** The checks together: every rank is below its size. *)
Lemma validate_config_iff c : _validate_config c = Ret tt <-> Forall2 (fun rank size => 0 <= rank < size) (config_ranks c) (config_sizes c).
Proof.
  unfold _validate_config, config_ranks, config_sizes. cbn [existsb]. split.
  - intros Hv. repeat match type of Hv with (if ?b then _ else _) = _ => destruct b eqn:?; [discriminate Hv|] end.
    rewrite ?orb_false_iff, ?Z.ltb_ge, ?Z.leb_gt in *. repeat constructor; lia.
  - intros Hv. rewrite !Forall2_cons in Hv. destruct Hv as (H1 & H2 & H3 & H4 & H5 & H6 & H7 & _).
    repeat match goal with |- (if ?b then _ else _) = _ => replace b with false end; [done|..];
      symmetry; rewrite ?orb_false_iff, ?Z.ltb_ge, ?Z.leb_gt; lia.
Qed.

(** A configuration on the way to C++ and back.  One that was accepted by
    Python, with sizes that fit 32 bits, is converted and comes back unchanged,
    and is compatible with what it was converted to and with nothing else.  One
    with a larger size is not converted. *)
Theorem config_roundtrip (c : ParallelConfig) : new_ParallelConfig c = Ret c ->
  (Forall (fun n => n < 2 ^ 31) (config_sizes c) ->
   exists a, convert_parallel_config (Some c) = Ret a /\ convert_cpp_parallel_config (Some a) = Ret c /\
     forall b, validate_compatibility (Some c) b = Ret (bool_decide (b = a))) /\
  (~ Forall (fun n => n < 2 ^ 31) (config_sizes c) -> convert_parallel_config (Some c) = Raise TypeError).
Proof.
  intros Hc. assert (Hv : _validate_config c = Ret tt).
  { unfold new_ParallelConfig in Hc. by destruct (_validate_config c) as [[]| |]. }
  pose proof (proj1 (validate_config_iff c) Hv) as Hr. unfold config_sizes, config_ranks in *. rewrite !Forall2_cons in Hr.
  destruct Hr as (R1 & R2 & R3 & R4 & R5 & R6 & R7 & _). unfold convert_parallel_config, new_AParallelConfig.
  set (a := MkAParallelConfig _ _ _ _ _ _ _ _ _ _ _ _ _ _ _). split.
  - intros Hs. rewrite !Forall_cons in Hs. destruct Hs as (S1 & S2 & S3 & S4 & S5 & S6 & S7 & _).
    assert (Hi : Forall in_i32 (apc_numbers a)) by (unfold apc_numbers, in_i32; repeat constructor; cbn; lia).
    exists a. rewrite decide_True by done. split; [done|]. split.
    + unfold convert_cpp_parallel_config. cbn. replace (MkParallelConfig _ _ _ _ _ _ _ _ _ _ _ _ _ _ _) with c; [done|].
      by destruct c as [[] ? ? ? ? ? ? ? ? ? ? ? ? ? ?].
    + intros b. unfold validate_compatibility, convert_parallel_config, new_AParallelConfig. fold a. rewrite decide_True by done.
      f_equal. apply bool_decide_ext. split; congruence.
  - intros Hs. rewrite decide_False; [done|]. intros Hi. apply Hs. unfold apc_numbers in Hi. cbn in Hi.
    rewrite !Forall_cons in Hi. unfold in_i32 in Hi. rewrite !Forall_cons, Forall_nil. lia.
Qed.

Definition demo_config : ParallelConfig := MkParallelConfig ROLE_TRAINING 8 3 2 1 4 3 1 0 1 0 1 0 1 0.

Lemma config_roundtrip_witness :
  new_ParallelConfig demo_config = Ret demo_config /\
  exists a, convert_parallel_config (Some demo_config) = Ret a /\ convert_cpp_parallel_config (Some a) = Ret demo_config.
Proof.
  split; [reflexivity|]. destruct (config_roundtrip demo_config eq_refl) as [H _].
  destruct H as (a & E1 & E2 & _); [repeat constructor|]. exists a. split; [exact E1|exact E2].
Defined.

(** ** Tensors that are refused *)

Section Refused.
  Context {T W : Type} `{CoreTable T W} (numel : T -> pyres Z).

(** [numel] of a tensor with memory, or an error of PyTorch. *)
Definition numel_ok : Prop := forall x, match numel x with Ret n => 0 <= n | Raise e => e = RuntimeError \/ e = AttributeError | Crash => False end.

Lemma check_tensor_spec o : numel_ok ->
  (check_tensor numel o = Ret tt /\ validate_tensor numel o = Ret true) \/
  (check_tensor numel o = Raise ValueError /\ validate_tensor numel o = Ret false).
Proof.
  intros Hn. destruct o as [x| |]; [|by right..]. specialize (Hn x). cbn. destruct (numel x) as [n|e|]; [| |done].
  - destruct (Z.eqb_spec n 0) as [->|?]; [by right|left]. by rewrite (proj2 (Z.ltb_lt 0 n)) by lia.
  - right. by destruct Hn as [-> | ->].
Qed.

Lemma check_all_spec l : numel_ok ->
  check_all numel l = if forallb (fun p => match validate_tensor numel p.2 with Ret true => true | _ => false end) l
                      then Ret tt else Raise ValueError.
Proof.
  intros Hn. induction l as [|[k o] l IH]; [done|]. cbn [check_all forallb snd].
  destruct (check_tensor_spec o Hn) as [[-> ->]|[-> ->]]; [exact IH|done].
Qed.
End Refused.

(** What is not a tensor with elements does not reach the table.  For any C++
    table, [put] of an object that [validate_tensor] refuses, and a batch with
    such an object anywhere in it, raise [ValueError] and leave the table as it
    was; objects that it accepts are passed on. *)
Theorem refused_tensors {T W} `{CoreTable T W} (numel : T -> pyres Z) (seq_id : Z) (k : ShardedKey) (o : pyobj T)
    (pairs : list (ShardedKey * pyobj T)) (w : W) : numel_ok numel -> in_i64 seq_id ->
  py_put numel seq_id k o w =
    match validate_tensor numel o with
    | Ret true => let '(r, w') := core_put seq_id k (PyObjectToTensor o) w in (try_except (from_cpp r) value_or_runtime, w')
    | _ => (Raise ValueError, w)
    end /\
  ((exists p, p ∈ pairs /\ validate_tensor numel p.2 <> Ret true) ->
   py_multi_put numel seq_id pairs w = (Raise ValueError, w) /\ py_multi_get numel seq_id pairs w = Raise ValueError).
Proof.
  intros Hn Hs. split.
  - unfold py_put. destruct (check_tensor_spec numel o Hn) as [[-> Hv]|[-> Hv]]; rewrite Hv.
    + unfold cast_int64. by rewrite bool_decide_eq_true_2.
    + done.
  - intros (p & Hp & Hv). assert (E : check_all numel pairs = Raise ValueError).
    { rewrite check_all_spec by done. destruct (forallb _ pairs) eqn:Ef; [|done]. exfalso.
      rewrite forallb_forall in Ef. specialize (Ef p ltac:(by apply list_elem_of_In)).
      destruct (validate_tensor numel p.2) as [[]| |]; done. }
    destruct pairs as [|q pairs]; [by apply not_elem_of_nil in Hp|]. unfold py_multi_put, py_multi_get. by rewrite E.
Qed.

(** ** Reading back *)

Section ReadBack.
  Context {T : Type}.

Lemma check_all_tensors (numel : T -> pyres Z) (l : list (ShardedKey * T)) :
  Forall (fun p => exists n, numel p.2 = Ret n /\ n <> 0) l -> check_all numel (map (fun p => (p.1, PyTensor p.2)) l) = Ret tt.
Proof.
  induction 1 as [|[k x] l (n & E & Hn) _ IH]; [done|]. cbn in E |- *. rewrite E, (proj2 (Z.eqb_neq n 0) Hn). exact IH.
Qed.

Lemma cpp_pairs_tensors (l : list (ShardedKey * T)) :
  cpp_pairs (map (fun p => (p.1, PyTensor p.2)) l) = map (fun p => (p.1, Ok p.2)) l.
Proof. unfold cpp_pairs. rewrite map_map. done. Qed.
End ReadBack.

(** C15: what is put through the Python interface is read back through it.  After a
    batch of shards with elements and with distinct keys, parts of a global tensor
    and of the data type of the target, for a sequence that has no tensors yet, a read of
    a target that they cover returns the target, which then holds the elements of
    the global tensor. *)
Theorem python_put_get {T V : Type} tensor_size narrow_copy scalar_type meta_of zeros visit (numel : T -> pyres Z)
    (sizes : T -> list Z) (elem : T -> list Z -> V) gs G seq_id tk tgt (t : table_data T) (shards : list (ShardedKey * T)) :
  let core := in_memory_core tensor_size narrow_copy scalar_type meta_of zeros visit in
  in_i64 seq_id -> size_spec tensor_size sizes -> narrow_copy_spec narrow_copy sizes elem ->
  (forall m, Permutation (visit m) (map_to_list m)) -> t !! seq_id = None -> NoDup shards.*1 ->
  Forall (fun p => exists n, numel p.2 = Ret n /\ n <> 0) shards ->
  (forall k x, (k, x) ∈ shards -> scalar_type x = scalar_type tgt) ->
  (forall k x, (k, x) ∈ shards -> key k = key tk -> shard_of sizes elem gs G k x) ->
  global_shape tk = gs -> box_pos gs (global_offset tk) (sizes tgt) -> prod gs <= max_i64 ->
  (forall c, in_box (global_offset tk) (sizes tgt) c ->
     exists k x, (k, x) ∈ shards /\ key k = key tk /\ in_box (global_offset k) (sizes x) c) ->
  exists t' tgt',
    py_multi_put (H := core) numel seq_id (map (fun p => (p.1, PyTensor p.2)) shards) t = (Ret true, t') /\
    py_get (H := core) seq_id tk (PyTensor tgt) t' = (Ret (Some tgt'), PyTensor tgt') /\
    forall c, in_box (global_offset tk) (sizes tgt) c -> elem tgt' (local tk c) = G c.
Proof.
  intros core Hseq Hsize Hcopy Hvisit Ht Hnd Hnum Hty Hsh Hgs Hbox Hp Hcov.
  assert (forall k x, (list_to_map shards : gmap ShardedKey T) !! k = Some x <-> (k, x) ∈ shards) as Hl
    by (intros; by rewrite <-elem_of_list_to_map).
  destruct (Hcov (global_offset tk) (corner_in_box _ _ _ Hbox)) as (k0 & x0 & Hin0 & Hk0 & _).
  destruct (im_Get_elements tensor_size narrow_copy scalar_type visit sizes elem gs G seq_id tk tgt
              (<[seq_id := list_to_map shards]> t) (list_to_map shards)) as (tgt' & E & Hel); try done.
  - by rewrite lookup_insert_eq.
  - intros k x Hk. apply Hl in Hk. eauto.
  - intros k x Hk. apply Hl in Hk. eauto.
  - exists k0, x0. by rewrite Hl.
  - intros c Hc. destruct (Hcov c Hc) as (k & x & ? & ? & ?). exists k, x. by rewrite Hl.
  - exists (<[seq_id := list_to_map shards]> t), tgt'.
    assert (Hcast : cast_int64 seq_id = Ret seq_id) by (unfold cast_int64; by rewrite bool_decide_eq_true_2).
    split; [|split; [|done]].
    + unfold py_multi_put. destruct shards as [|p shards]; [by apply not_elem_of_nil in Hin0|]. cbv iota.
      rewrite (check_all_tensors numel (p :: shards) Hnum). cbn [mbind pyres_bind]. rewrite Hcast, cpp_pairs_tensors.
      cbn [core_multi_put core in_memory_core]. unfold im_MultiPut. rewrite Ht. cbn [default]. rewrite im_put_all_Ok by done.
      by rewrite map_union_empty.
    + unfold py_get. rewrite Hcast. cbn [core_get core in_memory_core PyObjectToTensor]. by rewrite E.
Qed.

(** A batch read does not report what is missing.  If a table has nothing of a
    sequence, the C++ method returns false and a single [get] returns [None],
    but [multi_get] returns the pairs it was given, as after a success. *)
Theorem multi_get_hides_failure {T : Type} tensor_size narrow_copy scalar_type meta_of zeros visit (numel : T -> pyres Z)
    (seq_id : Z) (pairs : list (ShardedKey * T)) (t : table_data T) :
  let core := in_memory_core tensor_size narrow_copy scalar_type meta_of zeros visit in
  in_i64 seq_id -> t !! seq_id = None -> pairs <> [] ->
  Forall (fun p => exists n, numel p.2 = Ret n /\ n <> 0) pairs ->
  (core_multi_get (CoreTable := core) seq_id (map (fun p => (p.1, Ok p.2)) pairs) t).1 = Ok false /\
  py_multi_get (H := core) numel seq_id (map (fun p => (p.1, PyTensor p.2)) pairs) t =
    Ret (map (fun p => (p.1, PyTensor p.2)) pairs) /\
  forall k x, (k, x) ∈ pairs -> py_get (H := core) seq_id k (PyTensor x) t = (Ret None, PyTensor x).
Proof.
  intros core Hseq Ht Hne Hnum.
  assert (Hcast : cast_int64 seq_id = Ret seq_id) by (unfold cast_int64; by rewrite bool_decide_eq_true_2).
  assert (Hget : forall k x, im_Get tensor_size narrow_copy scalar_type visit seq_id k (Ok x) t = Ok (false, x)).
  { intros k x. unfold im_Get, GetTensorShards. rewrite Ht. done. }
  assert (Hall : im_MultiGet tensor_size narrow_copy scalar_type visit seq_id (map (fun p => (p.1, Ok p.2)) pairs) t =
            (Ok false, map (fun p => (p.1, Ok p.2)) pairs)).
  { unfold im_MultiGet. destruct pairs as [|[k x] pairs]; [done|]. cbn [map im_get_all fst snd]. by rewrite Hget. }
  split; [cbn [core_multi_get core in_memory_core]; by rewrite Hall|]. split.
  - unfold py_multi_get. destruct pairs as [|p pairs]; [done|]. cbv iota. rewrite (check_all_tensors numel (p :: pairs) Hnum).
    cbn [mbind pyres_bind]. rewrite Hcast, cpp_pairs_tensors. cbn [core_multi_get core in_memory_core]. rewrite Hall.
    cbn [from_cpp mbind pyres_bind try_except]. f_equal. unfold from_cpp_pairs. by rewrite map_map.
  - intros k x _. unfold py_get. rewrite Hcast. cbn [core_get core in_memory_core PyObjectToTensor]. by rewrite Hget.
Qed.

(** ** The type of a table *)

(** A name that is in use decides.  Opening a table under a name that is
    registered gives the table that is there, whatever type and whatever
    configuration is asked for, and the Python object then reports the type
    that was asked for. *)
Theorem existing_table_type (options : AParallelConfig -> result string) (start : AParallelConfig -> result bool) (remote : result unit)
    (name type_str : string) (c : ParallelConfig) (arg : type_arg) (ty ty0 : TensorTableType) (st : ATensorStorageImpl) (t : nat)
    (a : AParallelConfig) :
  resolve_type arg = Ret (ty, type_str) -> convert_parallel_config (Some c) = Ret a ->
  registered_tables st !! name = Some t -> t ∈ live st -> table_types st !! t = Some ty0 ->
  exists p, new_TensorTable options start remote name (Some c) arg (Some st) = (Ret p, Some st) /\
    pt_table p = t /\ table_types st !! pt_table p = Some ty0 /\ pt_type p = ty /\ pt_type_str p = type_str.
Proof.
  intros Hty Hc Hreg Hlive Hty0. unfold new_TensorTable. rewrite Hty, Hc. cbn [CreateATensorStorage]. unfold CreateTable.
  rewrite Hreg, decide_True by done. by eexists.
Qed.

(** ** Examples *)

Definition fun_numel (t : fun_tensor) : pyres Z := Ret (fold_right (fun d n => Z.abs d * n) 1 t.1).
Definition fun_meta (t : fun_tensor) : TorchTensorMeta := MkTorchTensorMeta ScalarType.Float t.1 (MkTorchDevice TorchDeviceType.CPU 0).
Definition fun_zeros (m : TorchTensorMeta) : fun_tensor := (tm_size m, fun _ => 0).
Definition fun_core : CoreTable fun_tensor (table_data fun_tensor) :=
  in_memory_core fun_size fun_narrow_copy (fun _ => ScalarType.Float) fun_meta fun_zeros map_to_list.

Lemma fun_numel_ok : numel_ok fun_numel.
Proof. intros [l f]. cbn. induction l as [|d l IH]; cbn; lia. Qed.

Lemma refused_tensors_witness :
  validate_tensor fun_numel (PyTensor ([0; 4], fun _ => 0)) = Ret false /\
  py_multi_put (H := fun_core) fun_numel 3 [(demo_target, PyTensor ([2; 3], fun _ => 0)); (demo_target, PyTensor ([0; 4], fun _ => 0))] ∅ =
    (Raise ValueError, ∅).
Proof.
  split; [reflexivity|].
  apply (refused_tensors (H := fun_core) fun_numel 3 demo_target NotATensor
    [(demo_target, PyTensor ([2; 3], fun _ => 0)); (demo_target, PyTensor ([0; 4], fun _ => 0))] ∅).
  - exact fun_numel_ok.
  - done.
  - eexists. split; [right; left|]. done.
Defined.

Lemma python_put_get_witness :
  exists t' tgt', py_multi_put (H := fun_core) fun_numel 3 (map (fun p => (p.1, PyTensor p.2)) demo_batch) ∅ = (Ret true, t') /\
    py_get (H := fun_core) 3 demo_target (PyTensor ([2; 3], fun _ => 0)) t' = (Ret (Some tgt'), PyTensor tgt') /\
    forall c, in_box [1; 1] [2; 3] c -> tgt'.2 (local demo_target c) = demo_global c.
Proof.
  apply (python_put_get fun_size fun_narrow_copy (fun _ => ScalarType.Float) fun_meta fun_zeros map_to_list fun_numel fst snd
    [4; 4] demo_global 3 demo_target ([2; 3], fun _ => 0) ∅ demo_batch).
  - done.
  - intros t i x H. by apply index_nat.
  - intros src tgt so to sh _ _. eexists. split; [reflexivity|]. by split.
  - intros m. reflexivity.
  - reflexivity.
  - refine (bool_decide_eq_true_1 _ _). vm_compute. reflexivity.
  - repeat apply List.Forall_cons; try (eexists; split; [reflexivity|done]). constructor.
  - reflexivity.
  - exact demo_batch_shards.
  - reflexivity.
  - cbn. repeat constructor; lia.
  - vm_compute. discriminate.
  - exact demo_batch_covers.
Defined.

Lemma multi_get_hides_failure_witness :
  py_multi_get (H := fun_core) fun_numel 3 (map (fun p => (p.1, PyTensor p.2)) demo_batch) ∅ =
    Ret (map (fun p => (p.1, PyTensor p.2)) demo_batch) /\
  (forall k x, (k, x) ∈ demo_batch -> py_get (H := fun_core) 3 k (PyTensor x) ∅ = (Ret None, PyTensor x)).
Proof.
  apply (multi_get_hides_failure fun_size fun_narrow_copy (fun _ => ScalarType.Float) fun_meta fun_zeros map_to_list fun_numel 3 demo_batch ∅).
  - done.
  - reflexivity.
  - done.
  - repeat apply List.Forall_cons; try (eexists; split; [reflexivity|done]). constructor.
Defined.

Lemma existing_table_type_witness :
  let st := (CreateTable (Ok tt) IN_MEMORY "weights" new_storage).2 in
  table_types st !! 0%nat = Some IN_MEMORY /\
  exists p, new_TensorTable (fun _ => Ok EmptyString) (fun _ => Ok true) (Ok tt) "weights" (Some demo_config) (TypeName "remote") (Some st) =
    (Ret p, Some st) /\ pt_table p = 0%nat /\ pt_type p = REMOTE.
Proof.
  split; [reflexivity|].
  destruct (existing_table_type (fun _ => Ok EmptyString) (fun _ => Ok true) (Ok tt) "weights" "remote" demo_config (TypeName "remote")
    REMOTE IN_MEMORY (CreateTable (Ok tt) IN_MEMORY "weights" new_storage).2 0%nat
    (MkAParallelConfig TRAINING 8 3 2 1 4 3 1 0 1 0 1 0 1 0)) as (p & E & E1 & _ & E2 & _).
  - vm_compute. reflexivity.
  - vm_compute. reflexivity.
  - reflexivity.
  - vm_compute. reflexivity.
  - reflexivity.
  - exists p. split; [exact E|]. split; [exact E1|exact E2].
Defined.
