(* ===== verification/PullStart.v ===== *)
(** * Starting the pull transfer service

    [TensorTransferPull::Start], [Stop] and [RegisterHandlers] of
    transfer/tensor_transfer_pull.h/.cpp: the service puts together the data
    transport, the control transport (brpc, ControlTransport.v), the
    discovery of the other nodes and the handlers of Transfer.v.  The data
    transport and the discovery are interfaces; the RDMA transporter of
    RdmaTransport.v is an instance of the first.

    The theorems show what holds after a successful start, that a message one
    service sends has reached the state of the other when the send succeeds, what
    a start that fails leaves running, and that over the transfer library of this
    repository no start succeeds, down to the table a Python program asks for. *)

From S2P Require Import Prelude StateResult StringUtils Options Retry Topology MrSet Registry UtransSetup RdmaTransport Tensor.
From S2P Require Import InMemory PyApi Messages Discovery ControlTransport Transfer.
Local Open Scope Z_scope.

(** ** The parts of a service *)

(** A data transport with the state [D]. *)
Class DataTransport (D W : Type) : Type := {
  data_start : Options -> Z -> SR (D * W) bool;
  data_stop : D -> D;
  data_running : D -> bool;
  data_name : D -> string;
  data_port : D -> Z;
}.

Class DataLaws (D W : Type) `{DataTransport D W} : Prop := {
  data_start_running options rank s s' : data_start options rank s = (Ok true, s') -> data_running s'.1 = true;
  data_stop_running d : data_running (data_stop d) = false;
}.

(** The discovery: making a manager and starting it, registering this node
    (its result is not used), and finding all nodes. *)
Class PeerDiscovery (W : Type) : Type := {
  create_manager : Options -> Z -> ARole -> Z -> Z -> SR W unit;
  register_current_node : SR W bool;
  discover_all_nodes : SR W (list NodeEntry);
}.

(** The world has the state of a service that its handlers change. *)
Class PullWorld (W : Type) : Type := {
  pull_of : W -> pull_state;
  set_pull : pull_state -> W -> W;
  cfg_of : W -> pull_config;
}.

Class PullWorldLaws (W : Type) `{PullWorld W} : Prop := {
  pull_of_set s w : pull_of (set_pull s w) = s;
}.

(** ** Handlers *)

Section Handlers.
  Context {W : Type} `{JsonLib} `{PullWorld W}.

(** A handler of the service as one of the transport. *)
Definition pull_handler (handle : pull_config -> string -> M (bool * string)) : Handler W := fun request message w =>
  let '(r, s') := handle (cfg_of w) message (pull_of w) in
  (match r with Ok (ok, msg) => Ok (MkResponseStatus ok msg) | Throw e => Throw e | Undef => Undef end, set_pull s' w).

Definition RegisterHandlers (handlers : handler_map W) : handler_map W :=
  RegisterHandler
    (RegisterHandler
      (RegisterHandler handlers TENSOR_RDMA_META_REQUEST (pull_handler (fun _ => HandleTensorRDMAMeta)))
      WEIGHT_READY_REQUEST (pull_handler HandleWeightReady))
    WEIGHT_CONSUMED_REQUEST (pull_handler (fun _ => HandleWeightConsumed)).
End Handlers.

(** ** The service *)

Record pull_service : Type := MkPullService {
  svc_role : ARole;
  svc_role_rank : Z;
  svc_ready_timeout_ms : Z;
  svc_skip_rdma_exception : bool;
  svc_local_node : NodeInfo;
  svc_peer_hosts : list NodeInfo;
  svc_group_hosts : list NodeInfo;
  svc_log_tensor_meta : bool;
  svc_perf : option PerfMetricsController;
  svc_stats_interval_ms : Z;
  svc_prefetch : bool;
}.

Definition set_svc_role (r : ARole) (rank : Z) (v : pull_service) : pull_service :=
  MkPullService r rank (svc_ready_timeout_ms v) (svc_skip_rdma_exception v) (svc_local_node v) (svc_peer_hosts v)
    (svc_group_hosts v) (svc_log_tensor_meta v) (svc_perf v) (svc_stats_interval_ms v) (svc_prefetch v).
Definition set_svc_timeout (timeout : Z) (v : pull_service) : pull_service :=
  MkPullService (svc_role v) (svc_role_rank v) timeout (svc_skip_rdma_exception v) (svc_local_node v) (svc_peer_hosts v)
    (svc_group_hosts v) (svc_log_tensor_meta v) (svc_perf v) (svc_stats_interval_ms v) (svc_prefetch v).
Definition set_svc_skip (skip : bool) (v : pull_service) : pull_service :=
  MkPullService (svc_role v) (svc_role_rank v) (svc_ready_timeout_ms v) skip (svc_local_node v) (svc_peer_hosts v)
    (svc_group_hosts v) (svc_log_tensor_meta v) (svc_perf v) (svc_stats_interval_ms v) (svc_prefetch v).
Definition set_svc_local (n : NodeInfo) (v : pull_service) : pull_service :=
  MkPullService (svc_role v) (svc_role_rank v) (svc_ready_timeout_ms v) (svc_skip_rdma_exception v) n (svc_peer_hosts v)
    (svc_group_hosts v) (svc_log_tensor_meta v) (svc_perf v) (svc_stats_interval_ms v) (svc_prefetch v).
Definition set_svc_hosts (peers group : list NodeInfo) (v : pull_service) : pull_service :=
  MkPullService (svc_role v) (svc_role_rank v) (svc_ready_timeout_ms v) (svc_skip_rdma_exception v) (svc_local_node v) peers
    group (svc_log_tensor_meta v) (svc_perf v) (svc_stats_interval_ms v) (svc_prefetch v).
Definition set_svc_log (log : bool) (v : pull_service) : pull_service :=
  MkPullService (svc_role v) (svc_role_rank v) (svc_ready_timeout_ms v) (svc_skip_rdma_exception v) (svc_local_node v)
    (svc_peer_hosts v) (svc_group_hosts v) log (svc_perf v) (svc_stats_interval_ms v) (svc_prefetch v).
Definition set_svc_perf (perf : PerfMetricsController) (v : pull_service) : pull_service :=
  MkPullService (svc_role v) (svc_role_rank v) (svc_ready_timeout_ms v) (svc_skip_rdma_exception v) (svc_local_node v)
    (svc_peer_hosts v) (svc_group_hosts v) (svc_log_tensor_meta v) (Some perf) (svc_stats_interval_ms v) (svc_prefetch v).
Definition set_svc_interval (interval : Z) (v : pull_service) : pull_service :=
  MkPullService (svc_role v) (svc_role_rank v) (svc_ready_timeout_ms v) (svc_skip_rdma_exception v) (svc_local_node v)
    (svc_peer_hosts v) (svc_group_hosts v) (svc_log_tensor_meta v) (svc_perf v) interval (svc_prefetch v).
Definition set_svc_prefetch (prefetch : bool) (v : pull_service) : pull_service :=
  MkPullService (svc_role v) (svc_role_rank v) (svc_ready_timeout_ms v) (svc_skip_rdma_exception v) (svc_local_node v)
    (svc_peer_hosts v) (svc_group_hosts v) (svc_log_tensor_meta v) (svc_perf v) (svc_stats_interval_ms v) prefetch.

(** The configuration its operations in Transfer.v work with. *)
Definition config_of (v : pull_service) (has_table : bool) : pull_config :=
  MkPullConfig (svc_role_rank v) (svc_local_node v) (svc_peer_hosts v) (svc_ready_timeout_ms v) (svc_skip_rdma_exception v)
    (match svc_perf v with Some c => enable_perf_metrics_ c | None => false end) (svc_stats_interval_ms v) (svc_prefetch v) has_table.

Definition set_brpc_handlers {W} (hs : handler_map W) (t : BrpcTransport W) : BrpcTransport W :=
  MkBrpcTransport (brpc_running t) (bind_port t) (max_retries t) (timeout_ms t) hs (service_handlers t) (stub_cache t) (cleanup_running t).

Section Service.
  Context {D W : Type} `{DataTransport D W} `{PeerDiscovery W} `{JsonLib} `{PullWorld W} `{Clock W} `{FloatLib} `{BrpcLib W}.
  Context (defs : OptionDefinition).

(** The service, its data transport, its control transport and the world. *)
Abbreviation PS := (SR (pull_service * (D * (BrpcTransport W * W)))).

Definition modify_svc (f : pull_service -> pull_service) : PS unit := on_fst (sr_modify f).

(** [GetOptionValue<int64_t>] and [GetOptionValue<std::vector<std::string>>] *)
Definition GetOptionInt64 (options : Options) (name : string) : result Z :=
  a ← GetOptionValue defs Tint64 options name; match a with AInt64 n => Ok n | _ => Undef end.
Definition GetOptionStrings (options : Options) (name : string) : result (list string) :=
  a ← GetOptionValue defs Tstrings options name; match a with AStrings l => Ok l | _ => Undef end.

Definition start_data (options : Options) (role_rank : Z) : PS bool := fun '(v, (d, (b, w))) =>
  let '(r, (d', w')) := data_start options role_rank (d, w) in (r, (v, (d', (b, w')))).
Definition on_discovery {A} (m : SR W A) : PS A := on_snd (on_snd (on_snd m)).

(** A node of the other role is a peer, one of the same role of the group. *)
Definition add_node (v : pull_service) (node : NodeEntry) : pull_service :=
  if decide (role node <> svc_role v) then set_svc_hosts (svc_peer_hosts v ++ [node_info node]) (svc_group_hosts v) v
  else set_svc_hosts (svc_peer_hosts v) (svc_group_hosts v ++ [node_info node]) v.

Definition find_hosts (options : Options) (role_rank : Z) (r : ARole) : PS unit :=
  skip_discovery ← sr_lift (GetOptionBool defs options "TRANSFER_ENGINE_SERVICE_SKIP_DISCOVERY");
  if negb skip_discovery then
    st ← sr_get;
    _ ← on_discovery (create_manager options role_rank r (data_port st.2.1) (bind_port st.2.2.1));
    _ ← on_discovery register_current_node;
    nodes ← on_discovery discover_all_nodes;
    modify_svc (fun v => foldl add_node v nodes)
  else
    peers_host ← sr_lift (GetOptionStrings options "TRANSFER_ENGINE_PEERS_HOST");
    group_host ← sr_lift (GetOptionStrings options "TRANSFER_ENGINE_GROUP_HOST");
    peers ← sr_lift (GetNodeInfos peers_host);
    _ ← modify_svc (fun v => set_svc_hosts peers (svc_group_hosts v) v);
    group ← sr_lift (GetNodeInfos group_host);
    modify_svc (fun v => set_svc_hosts (svc_peer_hosts v) group v).

(** Both transports are started, whatever the first returns; the log lines and
    the thread pool are left out. *)
Definition start_transports (options : Options) (role_rank : Z) : PS bool :=
  data_ok ← start_data options role_rank;
  _ ← on_snd (on_snd (on_fst (sr_modify (fun b => set_brpc_handlers (RegisterHandlers (brpc_handlers b)) b))));
  ctrl_ok ← on_snd (on_snd (Brpc_Start defs options));
  let init_success := data_ok && ctrl_ok in
  _ ← (if init_success then
         st ← sr_get; modify_svc (set_svc_local (MkNodeInfo (data_name st.2.1) (data_port st.2.1) (bind_port st.2.2.1)))
       else mret tt);
  mret init_success.

Definition read_metrics (options : Options) : PS unit :=
  log ← sr_lift (GetOptionBool defs options "TRANSFER_ENGINE_LOG_TENSOR_META");
  _ ← modify_svc (set_svc_log log);
  perf ← sr_lift (new_PerfMetricsController defs options);
  _ ← modify_svc (set_svc_perf perf);
  interval ← sr_lift (GetOptionInt64 options "TRANSFER_ENGINE_PERF_STATS_INTERVAL_MS");
  _ ← modify_svc (set_svc_interval interval);
  prefetch ← sr_lift (GetOptionBool defs options "TRANSFER_ENGINE_ENABLE_LOCAL_CACHE_PREFETCH");
  modify_svc (set_svc_prefetch prefetch).

Definition start_body (options : Options) (role_rank : Z) (r : ARole) : PS bool :=
  _ ← modify_svc (set_svc_role r role_rank);
  timeout ← sr_lift (GetOptionInt defs options "TRANSFER_ENGINE_SERVICE_TENSOR_READY_TIMEOUT_MS");
  _ ← modify_svc (set_svc_timeout timeout);
  _ ← sr_lift (GetOptionInt defs options "TRANSFER_ENGINE_READ_THREAD_NUM");
  skip ← sr_lift (GetOptionBool defs options "TRANSFER_ENGINE_SKIP_RDMA_EXCEPTION");
  _ ← modify_svc (set_svc_skip skip);
  init_success ← start_transports options role_rank;
  _ ← find_hosts options role_rank r;
  _ ← read_metrics options;
  mret init_success.

(** Everything but the first option is in the [try]. *)
Definition Pull_Start (options : Options) (role_rank : Z) (r : ARole) : PS bool :=
  _ ← sr_lift (GetOptionBool defs options "ASTATE_DEBUG_MODE");
  sr_catch (start_body options role_rank r) (fun _ => mret false).

Definition Pull_Stop : PS unit :=
  _ ← on_snd (on_fst (sr_modify (fun d => if data_running d then data_stop d else d)));
  on_snd (on_snd Brpc_Stop).

Definition Pull_IsRunning (s : pull_service * (D * (BrpcTransport W * W))) : bool := data_running s.2.1 && brpc_running s.2.2.1.

(** The destructor: after its body, those of the transports, which stop what still runs. *)
Definition destroy_TensorTransferPull : PS unit :=
  s ← sr_get;
  _ ← (if Pull_IsRunning s then Pull_Stop else mret tt);
  _ ← on_snd (on_snd Brpc_Stop);
  on_snd (on_fst (sr_modify (fun d => if data_running d then data_stop d else d))).
End Service.

(** ** Lemmas *)

Section StartProofs.
  Context {D W : Type} `{DataLaws D W} `{PeerDiscovery W} `{JsonLib} `{PullWorld W} `{Clock W} `{FloatLib} `{BrpcLib W}.
  Context (defs : OptionDefinition).

Abbreviation pull_sys := (pull_service * (D * (BrpcTransport W * W)))%type.

Lemma register_all_handlers (t : BrpcTransport W) : service_handlers (register_all t) = brpc_handlers t ∪ service_handlers t.
Proof.
  unfold register_all. cbn. unfold service_RegisterHandler.
  apply (map_fold_weak_ind (fun r m => r = m ∪ service_handlers t)); [by rewrite map_empty_union|].
  intros name h m r Hm ->. by rewrite insert_union_l.
Qed.

(** A control transport that has started runs, and serves its handlers. *)
Lemma Brpc_Start_true options (s s' : BrpcTransport W * W) : Brpc_Start defs options s = (Ok true, s') ->
  brpc_running s'.1 = true /\
  (brpc_running s.1 = false -> service_handlers s'.1 = brpc_handlers s.1 ∪ service_handlers s.1).
Proof.
  destruct s as [t w]. unfold Brpc_Start. intros E. sr_open E t0 s1 E1. injection E1 as <- <-.
  cbn [fst] in *. destruct (brpc_running t) eqn:Er; [by injection E as <-|].
  sr_open E retries s2 E2. injection E2 as _ <-. sr_open E timeout s3 E3. injection E3 as _ <-.
  sr_open E u s4 E4. injection E4 as _ <-. sr_open E fixed s5 E5. injection E5 as _ <-. cbn [fst snd] in E.
  sr_open E bound s6 E6.
  assert (s6.1 = register_all (set_limits retries timeout t)) as Hs6.
  { destruct fixed.
    - sr_open E6 port s7 E7. injection E7 as _ <-. unfold brpc_world, on_snd in E6. cbn [fst snd] in E6.
      destruct (server_start _ _ w) as [o w1]. by injection E6 as _ <-.
    - sr_open E6 r s7 E7. unfold brpc_world, on_snd in E6, E7. cbn [fst snd] in E7. destruct (rand w) as [r' w1].
      injection E7 as _ <-. cbn [fst snd] in E6. destruct (server_start _ _ w1) as [o w2]. by injection E6 as _ <-. }
  destruct bound as [port|]; [|done]. sr_open E u8 s8 E8. injection E8 as _ <-. sr_open E u9 s9 E9. injection E9 as _ <-.
  injection E as <-. cbn [fst snd]. rewrite Hs6. split; [done|]. intros _. cbn [service_handlers set_brpc_running].
  by rewrite register_all_handlers.
Qed.

(** What reading the hosts and the metrics leaves alone. *)
Definition transports_are (d : D) (b : BrpcTransport W) (s : pull_sys) : Prop := s.2.1 = d /\ s.2.2.1 = b.

Lemma keeps_modify_svc d b f : sr_keeps (transports_are d b) (modify_svc (D := D) (W := W) f).
Proof. by intros [v [d' [b' w]]]. Qed.

Lemma keeps_on_discovery {A} d b (m : SR W A) : sr_keeps (transports_are d b) (on_discovery (D := D) m).
Proof. intros [v [d' [b' w]]] Hs. unfold on_discovery, on_snd. cbn. by destruct (m w). Qed.

Lemma keeps_sr_get {S} (P : S -> Prop) : sr_keeps P sr_get.
Proof. by intros s. Qed.

Ltac keep_transports := repeat first
  [ apply sr_keeps_bind; [|intros ?] | apply sr_keeps_ret | apply sr_keeps_lift | apply keeps_sr_get | apply keeps_on_discovery
  | apply keeps_modify_svc | case_match ].

Lemma keeps_find_hosts d b options rank r : sr_keeps (transports_are d b) (find_hosts defs options rank r).
Proof. unfold find_hosts. keep_transports. Qed.

Lemma keeps_read_metrics d b options : sr_keeps (transports_are d b) (read_metrics (D := D) (W := W) defs options).
Proof. unfold read_metrics. keep_transports. Qed.

(** The hosts and the address are not changed by the metrics. *)
Definition hosts_are (v : pull_service) (s : pull_sys) : Prop :=
  svc_local_node s.1 = svc_local_node v /\ svc_peer_hosts s.1 = svc_peer_hosts v /\ svc_group_hosts s.1 = svc_group_hosts v.

Lemma read_metrics_hosts v options : sr_keeps (hosts_are v) (read_metrics (D := D) (W := W) defs options).
Proof.
  unfold read_metrics. repeat first [apply sr_keeps_bind; [|intros ?] | apply sr_keeps_lift | by intros [? [? [? ?]]]].
Qed.

Lemma add_nodes_hosts nodes : forall v, let v' := foldl add_node v nodes in
  svc_role v' = svc_role v /\ svc_local_node v' = svc_local_node v /\
  svc_peer_hosts v' = svc_peer_hosts v ++ map node_info (filter (fun n => role n <> svc_role v) nodes) /\
  svc_group_hosts v' = svc_group_hosts v ++ map node_info (filter (fun n => role n = svc_role v) nodes).
Proof.
  induction nodes as [|n nodes IH]; intros v; cbn [foldl]; [cbn; by rewrite !app_nil_r|].
  destruct (IH (add_node v n)) as (E1 & E2 & E3 & E4). cbn zeta. rewrite E1, E2, E3, E4.
  rewrite !filter_cons. unfold add_node. destruct (decide (role n <> svc_role v)) as [Hr|Hr]; cbn.
  - rewrite (decide_False (P := role n = svc_role v)) by done. by rewrite <- app_assoc.
  - apply dec_stable in Hr. rewrite (decide_True (P := role n = svc_role v)) by done. by rewrite <- app_assoc.
Qed.

(** Both transports run after a start that returned true. *)
Lemma start_transports_true options rank v d b w (s' : pull_sys) : brpc_running b = false ->
  start_transports defs options rank (v, (d, (b, w))) = (Ok true, s') ->
  data_running s'.2.1 = true /\ brpc_running s'.2.2.1 = true /\
  service_handlers s'.2.2.1 = RegisterHandlers (brpc_handlers b) ∪ service_handlers b /\
  s'.1 = set_svc_local (MkNodeInfo (data_name s'.2.1) (data_port s'.2.1) (bind_port s'.2.2.1)) v.
Proof.
  intros Hb E. unfold start_transports in E. sr_open E data_ok s1 E1. unfold start_data in E1.
  destruct (data_start options rank (d, w)) as [r [d1 w1]] eqn:Ed. injection E1 as -> <-.
  sr_open E u s2 E2. injection E2 as _ <-. sr_open E ctrl_ok s3 E3. unfold on_snd in E3. cbn [fst snd] in E3.
  destruct (Brpc_Start defs options _) as [rb [b2 w2]] eqn:Eb. injection E3 as -> <-.
  sr_open E u4 s4 E4. injection E as Hok <-. destruct data_ok, ctrl_ok; try discriminate Hok. cbn [andb] in E4.
  sr_open E4 st s5 E5. injection E5 as <- <-. injection E4 as _ <-. cbn [fst snd].
  apply data_start_running in Ed. apply Brpc_Start_true in Eb as [Hrun Hs]. cbn [fst snd] in *.
  split; [done|]. split; [done|]. split; [|done]. by rewrite Hs.
Qed.
End StartProofs.

(** The start, with the manager that found the nodes. *)
Lemma pull_start_hosts {D W} `{DataLaws D W} `{PeerDiscovery W} `{JsonLib} `{PullWorld W} `{Clock W} `{FloatLib} `{BrpcLib W}
    (defs : OptionDefinition) (options : Options) (rank : Z) (r : ARole) (v : pull_service) (d : D) (w : W)
    (s' : pull_service * (D * (BrpcTransport W * W))) :
  GetOptionBool defs options "TRANSFER_ENGINE_SERVICE_SKIP_DISCOVERY" = Ok false ->
  Pull_Start defs options rank r (v, (d, (new_BrpcTransport, w))) = (Ok true, s') ->
  Pull_IsRunning s' = true /\ service_handlers s'.2.2.1 = RegisterHandlers ∅ /\
  svc_local_node s'.1 = MkNodeInfo (data_name s'.2.1) (data_port s'.2.1) (bind_port s'.2.2.1) /\
  exists nodes v1 s1 u b w1 w2 w3, start_transports defs options rank (v1, (d, (new_BrpcTransport, w))) = (Ok true, s1) /\
    s1.2.1 = s'.2.1 /\ s1.2.2.1 = s'.2.2.1 /\
    create_manager options rank r (data_port s1.2.1) (bind_port s1.2.2.1) s1.2.2.2 = (Ok u, w1) /\
    register_current_node w1 = (Ok b, w2) /\ discover_all_nodes w2 = (Ok nodes, w3) /\
    svc_peer_hosts s'.1 = svc_peer_hosts v ++ map node_info (filter (fun n => role n <> r) nodes) /\
    svc_group_hosts s'.1 = svc_group_hosts v ++ map node_info (filter (fun n => role n = r) nodes).
Proof.
  intros Hskip E. unfold Pull_Start in E. sr_open E debug s0 E0. injection E0 as _ <-. unfold sr_catch in E.
  destruct (start_body _ _ _ _ _) as [[ok|e|] s1] eqn:Eb; [|done..]. injection E as -> ->.
  unfold start_body in Eb. sr_open Eb u1 t1 E1. injection E1 as _ <-. sr_open Eb timeout t2 E2. injection E2 as _ <-.
  sr_open Eb u3 t3 E3. injection E3 as _ <-. sr_open Eb n t4 E4. injection E4 as _ <-. sr_open Eb skip t5 E5. injection E5 as _ <-.
  sr_open Eb u6 t6 E6. injection E6 as _ <-. sr_open Eb init t7 E7. sr_open Eb u8 t8 E8. sr_open Eb u9 t9 E9. injection Eb as -> ->.
  cbn [fst snd] in E7. pose proof E7 as Es. apply start_transports_true in E7 as (Hd & Hb & Hh & Hv); [|done].
  pose proof (keeps_find_hosts defs t7.2.1 t7.2.2.1 options rank r t7 (conj eq_refl eq_refl)) as K8. rewrite E8 in K8.
  pose proof (keeps_read_metrics defs t7.2.1 t7.2.2.1 options t8 K8) as K9. rewrite E9 in K9. destruct K9 as [K91 K92]. cbn [snd] in K91, K92.
  pose proof (read_metrics_hosts (D := D) (W := W) defs t8.1 options t8 (conj eq_refl (conj eq_refl eq_refl))) as Hm.
  rewrite E9 in Hm. destruct Hm as (Hl & Hp & Hg). cbn [snd fst] in Hl, Hp, Hg.
  split; [unfold Pull_IsRunning; by rewrite K91, K92, Hd, Hb|]. rewrite K91, K92, Hl, Hp, Hg.
  unfold find_hosts in E8. sr_open E8 sk t10 E10. rewrite Hskip in E10. injection E10 as <- <-. cbn [negb] in E8.
  sr_open E8 st t11 E11. injection E11 as <- <-. sr_open E8 u12 t12 E12. sr_open E8 u13 t13 E13. sr_open E8 nodes t14 E14.
  unfold on_discovery, on_snd in E12, E13, E14. cbn [fst snd] in *.
  destruct (create_manager _ _ _ _ _ _) as [r12 w12] eqn:Ecreate. injection E12 as -> <-. cbn [fst snd] in *.
  destruct (register_current_node w12) as [r13 w13] eqn:Ereg. injection E13 as -> <-. cbn [fst snd] in *.
  destruct (discover_all_nodes w13) as [r14 w14] eqn:Edisc. injection E14 as -> <-.
  unfold modify_svc, on_fst, sr_modify in E8. injection E8 as _ <-. cbn [fst snd].
  destruct (add_nodes_hosts nodes t7.1) as (_ & A2 & A3 & A4). cbn zeta in A2, A3, A4. rewrite A2, A3, A4, Hv. cbn.
  split; [rewrite Hh; exact (map_union_empty (RegisterHandlers ∅))|]. split; [done|]. exists nodes. by eexists _, t7, u12, u13, w12, w13, w14.
Qed.

(** A service that has started.  Both of its transports run; its control
    transport serves the three handlers and nothing else; its address is that of
    the transports; and the nodes that were discovered are its peers if they
    have the other role, and its group if they have the same, in their order. *)
Theorem pull_started {D W} `{DataLaws D W} `{PeerDiscovery W} `{JsonLib} `{PullWorld W} `{Clock W} `{FloatLib} `{BrpcLib W}
    (defs : OptionDefinition) (options : Options) (rank : Z) (r : ARole) (v : pull_service) (d : D) (w : W)
    (s' : pull_service * (D * (BrpcTransport W * W))) :
  GetOptionBool defs options "TRANSFER_ENGINE_SERVICE_SKIP_DISCOVERY" = Ok false ->
  Pull_Start defs options rank r (v, (d, (new_BrpcTransport, w))) = (Ok true, s') ->
  Pull_IsRunning s' = true /\ service_handlers s'.2.2.1 = RegisterHandlers ∅ /\
  svc_local_node s'.1 = MkNodeInfo (data_name s'.2.1) (data_port s'.2.1) (bind_port s'.2.2.1) /\
  exists nodes w1 w2, discover_all_nodes w1 = (Ok nodes, w2) /\
    svc_peer_hosts s'.1 = svc_peer_hosts v ++ map node_info (filter (fun n => role n <> r) nodes) /\
    svc_group_hosts s'.1 = svc_group_hosts v ++ map node_info (filter (fun n => role n = r) nodes).
Proof.
  intros Hskip E.
  destruct (pull_start_hosts defs options rank r v d w s' Hskip E) as (Hr & Hh & Hl & nodes & v1 & s1 & u & b & w1 & w2 & w3 & _ & _ & _ & _ & _ & Hd & Hp & Hg).
  split; [done|]. split; [done|]. split; [done|]. by exists nodes, w2, w3.
Qed.

(** ** Messages between services *)

Section Delivery.
  Context {W : Type} `{JsonLaws} `{PullWorldLaws W}.

(** The handlers under the names of their requests. *)
Lemma RegisterHandlers_lookup :
  RegisterHandlers (W := W) ∅ !! WEIGHT_READY_REQUEST = Some (pull_handler HandleWeightReady) /\
  RegisterHandlers (W := W) ∅ !! WEIGHT_CONSUMED_REQUEST = Some (pull_handler (fun _ => HandleWeightConsumed)) /\
  RegisterHandlers (W := W) ∅ !! TENSOR_RDMA_META_REQUEST = Some (pull_handler (fun _ => HandleTensorRDMAMeta)).
Proof.
  unfold RegisterHandlers, RegisterHandler. rewrite lookup_empty. rewrite (lookup_insert_ne _ _ WEIGHT_READY_REQUEST), lookup_empty by done.
  rewrite !(lookup_insert_ne _ _ WEIGHT_CONSUMED_REQUEST), lookup_empty by done.
  split_and!; [rewrite lookup_insert_ne by done|..|rewrite !lookup_insert_ne by done]; apply lookup_insert_eq.
Qed.

Lemma pull_handler_Ok handle request message (w w' : W) st : pull_handler handle request message w = (Ok st, w') ->
  exists msg, handle (cfg_of w) message (pull_of w) = (Ok (rs_success st, msg), pull_of w').
Proof.
  unfold pull_handler. destruct (handle (cfg_of w) message (pull_of w)) as [[[ok msg]| |] s'] eqn:E; [|done..].
  intros [= <- <-]. exists msg. by rewrite pull_of_set.
Qed.

Lemma ready_handled cfg seq n s msg s' : in_i64 seq -> node_ok n ->
  HandleWeightReady cfg (Serialize (ToJson_WeightReadyMessage (MkWeightReadyMessage seq n))) s = (Ok (true, msg), s') ->
  n ∈ ready_nodes s'.
Proof.
  intros Hseq Hn E. rewrite handle_ready in E by done. injection E as _ <-. case_match; cbn; set_solver.
Qed.

Lemma consumed_handled seq n s msg s' : in_i64 seq -> node_ok n ->
  HandleWeightConsumed (Serialize (ToJson_WeightConsumedMessage (MkWeightConsumedMessage seq n))) s = (Ok (true, msg), s') ->
  n ∈ consumed_nodes s' /\ current_seq_id s' <= seq.
Proof.
  intros Hseq Hn E. rewrite handle_consumed in E by done. destruct (Z.ltb_spec seq (current_seq_id s)); [done|].
  injection E as _ <-. cbn. split; [set_solver|lia].
Qed.
End Delivery.

(** C14: messages arrive in the state of the other service.  If a service sends that
    its weights are ready, or that it has read those of the peer, and the send
    returns true, then the peer has the node among those that are ready, or
    among those that have consumed a sequence that is not outdated. *)
Theorem messages_delivered {W} `{JsonLaws} `{PullWorldLaws W} `{Clock W} `{FloatLib} `{BrpcLaws W} (seq : Z) (n : NodeInfo)
    (host : string) (port : Z) (t t' : BrpcTransport W) (w w' : W) :
  in_i64 seq -> node_ok n -> serving (host ++ ":" ++ to_string port) = Some (RegisterHandlers ∅) ->
  (Brpc_Send WEIGHT_READY_REQUEST (Serialize (ToJson_WeightReadyMessage (MkWeightReadyMessage seq n))) host port (t, w) =
     (Ok true, (t', w')) -> n ∈ ready_nodes (pull_of w')) /\
  (Brpc_Send WEIGHT_CONSUMED_REQUEST (Serialize (ToJson_WeightConsumedMessage (MkWeightConsumedMessage seq n))) host port (t, w) =
     (Ok true, (t', w')) -> n ∈ consumed_nodes (pull_of w') /\ current_seq_id (pull_of w') <= seq).
Proof.
  intros Hseq Hn Hs. destruct (RegisterHandlers_lookup (W := W)) as (Lr & Lc & _). split; intros E.
  - apply (Brpc_Send_handled _ _ _ _ _ _ _ _ _ Hs) in E as (h & st & w1 & Hh & Hr & Hok). pose proof (eq_trans (eq_sym Lr) Hh) as [= <-].
    apply pull_handler_Ok in Hr as [msg Hr]. rewrite Hok in Hr. by eapply ready_handled.
  - apply (Brpc_Send_handled _ _ _ _ _ _ _ _ _ Hs) in E as (h & st & w1 & Hh & Hr & Hok). pose proof (eq_trans (eq_sym Lc) Hh) as [= <-].
    apply pull_handler_Ok in Hr as [msg Hr]. rewrite Hok in Hr. by eapply consumed_handled.
Qed.

(** ** Starts that fail *)

Section Stopped.
  Context {D W : Type} `{DataLaws D W} `{BrpcLib W}.

(** Neither transport runs. *)
Definition stopped (s : pull_service * (D * (BrpcTransport W * W))) : Prop :=
  data_running s.2.1 = false /\ brpc_running s.2.2.1 = false.

Lemma data_stopped (d : D) : data_running (if data_running d then data_stop d else d) = false.
Proof. destruct (data_running d) eqn:E; [apply data_stop_running|done]. Qed.

Lemma Brpc_Stop_stopped (b : BrpcTransport W) (w : W) : exists b', Brpc_Stop (b, w) = (Ok tt, (b', w)) /\ brpc_running b' = false.
Proof.
  destruct (brpc_running b) eqn:E; eexists; unfold Brpc_Stop, brpc_modify, on_fst, sr_modify; cbn [fst snd]; rewrite E; (split; [reflexivity|]); [done|exact E].
Qed.

Lemma Pull_Stop_stopped (s : pull_service * (D * (BrpcTransport W * W))) : stopped (Pull_Stop s).2.
Proof.
  destruct s as [v [d [b w]]]. unfold Pull_Stop, mbind, SR_bind, on_snd, on_fst, sr_modify. cbn [fst snd].
  destruct (Brpc_Stop_stopped b w) as (b' & -> & Hb). split; [apply data_stopped|exact Hb].
Qed.

Lemma destroy_stopped (s : pull_service * (D * (BrpcTransport W * W))) : stopped (destroy_TensorTransferPull s).2.
Proof.
  unfold destroy_TensorTransferPull, mbind, SR_bind, sr_get.
  assert (exists s1, (if Pull_IsRunning s then Pull_Stop else mret tt) s = (Ok tt, s1)) as [[v [d [b w]]] ->].
  { destruct (Pull_IsRunning s); [|by eexists]. destruct s as [v [d [b w]]]. unfold Pull_Stop, mbind, SR_bind, on_snd, on_fst, sr_modify.
    cbn [fst snd]. destruct (Brpc_Stop_stopped b w) as (b1 & -> & _). by eexists. }
  unfold on_snd, on_fst, sr_modify. cbn [fst snd]. destruct (Brpc_Stop_stopped b w) as (b2 & -> & Hb).
  split; [apply data_stopped|exact Hb].
Qed.
End Stopped.

(** A start that fails half-way.  If the data transport does not start but the
    control transport does, the start returns false (or throws) and the control
    transport keeps serving requests, while [IsRunning] says that the service does
    not run.  [Stop], which looks at each transport, and the destructor stop it. *)
Theorem half_started {D W} `{DataLaws D W} `{PeerDiscovery W} `{JsonLib} `{PullWorld W} `{Clock W} `{FloatLib} `{BrpcLib W}
    (defs : OptionDefinition) (options : Options) (rank : Z) (r : ARole) (v : pull_service) (d d1 : D) (w w1 w2 : W)
    (b2 : BrpcTransport W) (timeout threads : Z) (debug skip : bool) :
  GetOptionBool defs options "ASTATE_DEBUG_MODE" = Ok debug ->
  GetOptionInt defs options "TRANSFER_ENGINE_SERVICE_TENSOR_READY_TIMEOUT_MS" = Ok timeout ->
  GetOptionInt defs options "TRANSFER_ENGINE_READ_THREAD_NUM" = Ok threads ->
  GetOptionBool defs options "TRANSFER_ENGINE_SKIP_RDMA_EXCEPTION" = Ok skip ->
  data_start options rank (d, w) = (Ok false, (d1, w1)) -> data_running d1 = false ->
  Brpc_Start defs options (set_brpc_handlers (RegisterHandlers ∅) new_BrpcTransport, w1) = (Ok true, (b2, w2)) ->
  let res := Pull_Start defs options rank r (v, (d, (new_BrpcTransport, w))) in
  res.1 <> Ok true /\ brpc_running res.2.2.2.1 = true /\ Pull_IsRunning res.2 = false /\
  stopped (Pull_Stop res.2).2 /\ stopped (destroy_TensorTransferPull res.2).2.
Proof.
  intros Hdebug Htimeout Hthreads Hskip Hdata Hd1 Hctrl res.
  assert (Hrest : exists v1, start_body defs options rank r (v, (d, (new_BrpcTransport, w))) =
            (_ ← find_hosts defs options rank r; _ ← read_metrics defs options; mret false) (v1, (d1, (b2, w2)))).
  { eexists. unfold start_body, mbind, SR_bind, sr_lift, modify_svc, on_fst, sr_modify. cbn [fst snd].
    rewrite Htimeout, Hthreads, Hskip. cbn [fst snd]. unfold start_transports, start_data, mbind, SR_bind. rewrite Hdata.
    unfold on_snd, on_fst, sr_modify. cbn [fst snd brpc_handlers new_BrpcTransport]. rewrite Hctrl. reflexivity. }
  destruct Hrest as [v1 Hrest]. set (m := _ ← find_hosts _ _ _ _; _) in Hrest.
  assert (Hk : sr_keeps (transports_are d1 b2) m).
  { apply sr_keeps_bind; [apply keeps_find_hosts|intros _]. apply sr_keeps_bind; [apply keeps_read_metrics|intros _].
    apply sr_keeps_ret. }
  specialize (Hk (v1, (d1, (b2, w2))) (conj eq_refl eq_refl)).
  assert (Hno : (m (v1, (d1, (b2, w2)))).1 <> Ok true).
  { intros E. destruct (m (v1, (d1, (b2, w2)))) as [o s'] eqn:Em. cbn in E. subst o. unfold m in Em.
    sr_open Em u1 s1 E1. sr_open Em u2 s2 E2. discriminate Em. }
  apply Brpc_Start_true in Hctrl as [Hb _]. cbn [fst] in Hb.
  assert (Hres : res.1 <> Ok true /\ transports_are d1 b2 res.2).
  { unfold res, Pull_Start, mbind, SR_bind, sr_lift. rewrite Hdebug. unfold sr_catch. rewrite Hrest.
    destruct (m _) as [[o|e|] s'] eqn:Em; cbn [fst snd] in *; split; try done. }
  destruct Hres as [Hr [Ht1 Ht2]]. split; [done|]. split; [by rewrite Ht2|].
  split; [unfold Pull_IsRunning; by rewrite Ht1, Hd1|]. split; [apply Pull_Stop_stopped|apply destroy_stopped].
Qed.

(** *** Over the transfer library of this repository *)

Section Rdma.
  Context {T W : Type} `{RegionSet T} `{Clock W} `{FloatLib} `{Utrans W}.
  Context (defs : OptionDefinition) (empty_set : T) (idhm : Z -> Z -> bool) (listen : Z -> W -> bool * W)
    (numa_bind : Z -> W -> W) (env : rdma_env).

(** The RDMA transporter as a data transport. *)
Definition rdma_data : DataTransport (RDMATransporter T * GpuTopologyManager) W := {|
  data_start options rank := fun '((t, m), w) =>
    let '(r, s) := RDMA_Start defs empty_set idhm listen numa_bind env options rank (MkRdmaState t m w) in
    (r, ((self s, topology_manager s), world s));
  data_stop d := (stop_self d.1, d.2);
  data_running d := is_running d.1;
  data_name d := local_server_name d.1;
  data_port d := local_server_port d.1;
|}.

#[export] Instance rdma_data_laws : @DataLaws _ _ rdma_data.
Proof.
  constructor.
  - intros options rank [[t m] w] s'. cbn. destruct (RDMA_Start _ _ _ _ _ _ _ _ _) as [o s] eqn:E. intros [= -> <-]. cbn.
    unfold RDMA_Start in E. sr_open E u1 s1 E1. sr_open E conf s2 E2. sr_open E ok s3 E3. destruct ok; [|discriminate E].
    cbn [negb] in E. sr_open E ok s4 E4. destruct ok; [|discriminate E]. cbn [negb] in E.
    sr_open E u5 s5 E5. sr_open E u6 s6 E6. injection E6 as _ <-. sr_open E u7 s7 E7. injection E7 as _ <-. by injection E as <-.
  - intros [t m]. cbn. unfold stop_self. destruct (is_running t) eqn:Et; [done|exact Et].
Qed.
End Rdma.

(** A service does not start if its data transport does not. *)
Lemma Pull_Start_needs_data {D W} `{DataTransport D W} `{PeerDiscovery W} `{JsonLib} `{PullWorld W} `{Clock W} `{FloatLib} `{BrpcLib W}
    (defs : OptionDefinition) (options : Options) (rank : Z) (r : ARole) (v : pull_service) (d : D) (b : BrpcTransport W) (w : W) :
  (data_start options rank (d, w)).1 <> Ok true -> (Pull_Start defs options rank r (v, (d, (b, w)))).1 <> Ok true.
Proof.
  intros Hd E. destruct (Pull_Start _ _ _ _ _) as [o s'] eqn:Es. cbn in E. subst o. unfold Pull_Start in Es.
  sr_open Es debug s0 E0. injection E0 as _ <-. unfold sr_catch in Es.
  destruct (start_body _ _ _ _ _) as [[ok|e|] s1] eqn:Eb; [|done..]. injection Es as -> ->.
  unfold start_body in Eb. sr_open Eb u1 t1 E1. injection E1 as _ <-. sr_open Eb timeout t2 E2. injection E2 as _ <-.
  sr_open Eb u3 t3 E3. injection E3 as _ <-. sr_open Eb n t4 E4. injection E4 as _ <-. sr_open Eb skip t5 E5. injection E5 as _ <-.
  sr_open Eb u6 t6 E6. injection E6 as _ <-. sr_open Eb init t7 E7. sr_open Eb u8 t8 E8. sr_open Eb u9 t9 E9. injection Eb as -> ->.
  unfold start_transports in E7. sr_open E7 data_ok s2 Ed. unfold start_data in Ed. cbn [fst snd] in Ed.
  destruct (data_start options rank (d, w)) as [rd [d1 w1]]. injection Ed as -> _. cbn in Hd.
  sr_open E7 u10 t10 E10. sr_open E7 ctrl t11 E11. sr_open E7 u12 t12 E12. injection E7 as Hok _. by destruct data_ok.
Qed.

(** No table over the transfer library of this repository, in a build that uses it
    ([USE_ASTATE_RDMA_IMPL]; the default build links a packaged library instead), where
    [idhm_create] returns NULL.  Whatever the options, the environment and the
    network: the pull service, the default of [TENSOR_TRANSFER_SERVICE_TYPE], does
    not start, no storage is created, and the first [TensorTable] of a Python program,
    of either type, is not returned. *)
Theorem pull_never_starts {T W} `{RegionSet T} `{PeerDiscovery W} `{JsonLib} `{PullWorld W} `{Clock W} `{FloatLib} `{Utrans W}
    `{BrpcLib W} (defs : OptionDefinition) (empty_set : T) (listen : Z -> W -> bool * W) (numa_bind : Z -> W -> W) (env : rdma_env)
    (options : Options) (v : pull_service) (m : GpuTopologyManager) (b : BrpcTransport W) (w : W) :
  let start (a : AParallelConfig) :=
    (Pull_Start (H := rdma_data defs empty_set idhm_create listen numa_bind env) defs options (a_role_rank a) (apc_role a)
      (v, ((new_RDMATransporter, m), (b, w)))).1 in
  (forall a, start a <> Ok true) /\
  (forall a st, (CreateATensorStorage (Ok "PULL"%string) (start a) None).1 <> Ok (Some st)) /\
  (forall remote name config table_type table,
     (new_TensorTable (fun _ => Ok "PULL"%string) start remote name config table_type None).1 <> Ret table).
Proof.
  intros start. assert (Hstart : forall a, start a <> Ok true).
  { intros a. apply Pull_Start_needs_data. cbn.
    pose proof (RDMA_Start_idle defs empty_set listen numa_bind env options (a_role_rank a) (MkRdmaState new_RDMATransporter m w)
      (conj eq_refl eq_refl)) as [Hno _]. by destruct (RDMA_Start _ _ _ _ _ _ _ _ _) as [o s]. }
  assert (Hnone : forall a st, (CreateATensorStorage (Ok "PULL"%string) (start a) None).1 <> Ok (Some st)).
  { intros a st. specialize (Hstart a). cbn. by destruct (start a) as [[]| |]. }
  split; [exact Hstart|]. split; [exact Hnone|]. intros remote name config table_type table.
  unfold new_TensorTable. destruct (resolve_type table_type) as [[ty s]| |]; [|done..]. destruct config as [c|]; [|done].
  destruct (convert_parallel_config (Some c)) as [a| |]; [|done..]. specialize (Hnone a).
  destruct (CreateATensorStorage _ _ _) as [[[st|]| |] ats]; [by destruct (Hnone st)|done..].
Qed.

(** ** Examples *)

(** A node of a trainer whose data transport may fail, which discovers a trainer
    and two inference nodes. *)
Module TrainerNode.

Record node : Type := MkNode { time : Z; state : pull_state }.
Definition host (i : Z) (ports : Z) : NodeInfo := MkNodeInfo ("10.0.0." ++ to_string i)%string ports (ports + 1).
Definition cfg : pull_config := MkPullConfig 0 (host 1 51000) [host 2 51000; host 3 51000] 1000 false false 0 false false.

#[export] Instance clock : Clock node := {| now := time; sleep_for d w := MkNode (time w + Z.max 0 d) (state w) |}.
#[export] Instance floats : FloatLib := {| float := unit; float_zero := tt; stof _ := None; stod _ := None |}.
#[export] Instance world : PullWorld node := {| pull_of := state; set_pull s w := MkNode (time w) s; cfg_of _ := cfg |}.
#[export] Instance world_laws : PullWorldLaws node.
Proof. by constructor. Qed.

(** Whether it is able to start, and whether it runs. *)
#[export] Instance data : DataTransport (bool * bool) node := {|
  data_start options rank := fun '(d, w) => (Ok d.1, ((d.1, d.1), w));
  data_stop d := (d.1, false);
  data_running d := d.2;
  data_name _ := "10.0.0.1"%string;
  data_port _ := 51000;
|}.
#[export] Instance data_laws : DataLaws (bool * bool) node.
Proof. constructor; [|done]. intros options rank [d w] s' E. cbn in E. injection E as E <-. exact E. Qed.

#[export] Instance discovery : PeerDiscovery node := {|
  create_manager _ _ _ _ _ := fun w => (Ok tt, w);
  register_current_node := fun w => (Ok true, w);
  discover_all_nodes := fun w =>
    (Ok [MkNodeEntry 0 (host 1 51000) TRAINING; MkNodeEntry 0 (host 2 51000) INFERENCE; MkNodeEntry 1 (host 3 51000) INFERENCE], w);
|}.

#[export] Existing Instances PlainJson.lib PlainJson.laws.

#[export] Instance brpc : BrpcLib node := {|
  server_start first last w := (Some first, w);
  channel_init addr w := (true, w);
  rpc_send addr name data timeout w :=
    let '(r, w') := service_Send (RegisterHandlers ∅) name data w in (match r with Ok (c, m) => RpcReply c m | _ => RpcFailed 1 end, w');
  rand w := (7, w);
|}.
#[export] Instance brpc_laws : BrpcLaws node.
Proof.
  refine {| serving _ := Some (RegisterHandlers ∅) |}. intros addr name data timeout w c m w' Hr. cbn [rpc_send brpc] in Hr.
  destruct (service_Send (RegisterHandlers ∅) name data w) as [[[c' m']| |] w1] eqn:E; try discriminate Hr.
  injection Hr as <- <- <-. exists (RegisterHandlers ∅), w. exact (conj eq_refl E).
Defined.

Definition s0 : pull_state := MkPullState true true 0 4 false 0 ∅ ∅ ∅ ∅ ∅ [].
Definition w0 : node := MkNode 0 s0.
Definition v0 : pull_service := MkPullService TRAINING 0 0 false (MkNodeInfo EmptyString 0 0) [] [] false None 0 false.
End TrainerNode.

#[local] Existing Instances TrainerNode.clock TrainerNode.floats TrainerNode.world TrainerNode.world_laws TrainerNode.data
  TrainerNode.data_laws TrainerNode.discovery PlainJson.lib PlainJson.laws TrainerNode.brpc TrainerNode.brpc_laws.

Lemma pull_started_witness :
  let s' := (Pull_Start option_definitions ∅ 0 TRAINING
    (TrainerNode.v0, ((true, false), (new_BrpcTransport, TrainerNode.w0)))).2 in
  Pull_IsRunning s' = true /\ length (svc_peer_hosts s'.1) = 2%nat /\ length (svc_group_hosts s'.1) = 1%nat.
Proof.
  cbv zeta. destruct (Pull_Start _ _ _ _ _) as [o s'] eqn:E.
  assert (o = Ok true) as -> by (apply (f_equal fst) in E; vm_compute in E; by symmetry).
  destruct (pull_started option_definitions ∅ 0 TRAINING TrainerNode.v0 (true, false) TrainerNode.w0 s')
    as (Hr & _ & _ & nodes & w1 & w2 & Hn & Hp & Hg); [vm_compute; reflexivity|exact E|].
  cbn [snd]. injection Hn as <- _. rewrite Hp, Hg. split; [exact Hr|]. split; reflexivity.
Defined.

Lemma half_started_witness :
  let s' := (Pull_Start option_definitions ∅ 0 TRAINING
    (TrainerNode.v0, ((false, false), (new_BrpcTransport, TrainerNode.w0)))).2 in
  brpc_running s'.2.2.1 = true /\ Pull_IsRunning s' = false /\ brpc_running (Pull_Stop s').2.2.2.1 = false.
Proof.
  destruct (Brpc_Start option_definitions ∅ (set_brpc_handlers (RegisterHandlers ∅) new_BrpcTransport, TrainerNode.w0))
    as [o [b2 w2]] eqn:E.
  assert (o = Ok true) as -> by (apply (f_equal fst) in E; vm_compute in E; by symmetry).
  destruct (half_started option_definitions ∅ 0 TRAINING TrainerNode.v0 (false, false) (false, false) TrainerNode.w0 TrainerNode.w0 w2
    b2 1200000 32 false false) as (_ & Hb & Hr & [_ Hs] & _).
  1-4: vm_compute; reflexivity.
  1-2: reflexivity.
  - exact E.
  - split; [exact Hb|]. split; [exact Hr|exact Hs].
Defined.

(** A request that is answered is not repeated. *)
Lemma Brpc_Send_answered {W} `{Clock W} `{FloatLib} `{BrpcLib W} name data host port (t : BrpcTransport W) (w w' : W) c msg :
  (host ++ ":" ++ to_string port)%string ∈ stub_cache t -> 0 < max_retries t ->
  rpc_send (host ++ ":" ++ to_string port) name data (timeout_ms t) w = (RpcReply c msg, w') ->
  Brpc_Send name data host port (t, w) = (Ok (c =? 0), (t, w')).
Proof.
  intros Hstub Hmax Hr. unfold Brpc_Send, GetOrCreateStub, mbind, SR_bind, brpc_get, on_fst, sr_get. cbn [fst snd].
  rewrite decide_True by done. cbn. destruct (Z.to_nat (max_retries t)) as [|n] eqn:En; [lia|].
  cbn [brpc_send_loop]. unfold mbind, SR_bind, brpc_get, brpc_world, on_fst, on_snd, sr_get. cbn [fst snd]. by rewrite Hr.
Qed.

Lemma ready_served {W} `{JsonLaws} `{PullWorldLaws W} (seq : Z) (n : NodeInfo) (w : W) : in_i64 seq -> node_ok n ->
  exists s', service_Send (RegisterHandlers ∅) WEIGHT_READY_REQUEST
    (Serialize (ToJson_WeightReadyMessage (MkWeightReadyMessage seq n))) w = (Ok (0, "Success"%string), set_pull s' w).
Proof.
  intros Hseq Hn. unfold service_Send. rewrite (proj1 (RegisterHandlers_lookup (W := W))). unfold pull_handler.
  rewrite (handle_ready _ _ _ _ Hseq Hn). by eexists.
Qed.

Definition TrainerNode_address : string := "10.0.0.1:51001".
Definition TrainerNode_client : BrpcTransport TrainerNode.node := set_stubs {[TrainerNode_address]} new_BrpcTransport.

Lemma messages_delivered_witness :
  exists w', Brpc_Send WEIGHT_READY_REQUEST
      (Serialize (ToJson_WeightReadyMessage (MkWeightReadyMessage 4 (TrainerNode.host 2 51000)))) "10.0.0.1" 51001
      (TrainerNode_client, TrainerNode.w0) = (Ok true, (TrainerNode_client, w')) /\
    TrainerNode.host 2 51000 ∈ ready_nodes (TrainerNode.state w').
Proof.
  assert (node_ok (TrainerNode.host 2 51000)) as Hn by (split; [vm_compute; intuition lia|split; split; cbn; lia]).
  assert (in_i64 4) as H4 by (unfold in_i64; lia).
  destruct (ready_served 4 _ TrainerNode.w0 H4 Hn) as [s' Hs].
  assert (E := Brpc_Send_answered WEIGHT_READY_REQUEST
    (Serialize (ToJson_WeightReadyMessage (MkWeightReadyMessage 4 (TrainerNode.host 2 51000)))) "10.0.0.1" 51001
    TrainerNode_client TrainerNode.w0 (set_pull s' TrainerNode.w0) 0 "Success").
  specialize (E (proj2 (elem_of_singleton _ _) eq_refl) eq_refl). cbn [rpc_send TrainerNode.brpc] in E. rewrite Hs in E.
  specialize (E eq_refl). exists (set_pull s' TrainerNode.w0). split; [exact E|].
  exact (proj1 (messages_delivered 4 (TrainerNode.host 2 51000) "10.0.0.1" 51001 TrainerNode_client TrainerNode_client
    TrainerNode.w0 (set_pull s' TrainerNode.w0) H4 Hn eq_refl) E).
Defined.
