(* ===== verification/PullDiscovery.v ===== *)
(** * The discovery behind a pull service

    The factories, the constructor and the destructor of the discovery manager
    (discovery/discovery_manager.cpp) over the config centers of ConfigCenter.v
    and the service discovery of Discovery.v, its wait for all nodes, and the
    manager as the discovery that [TensorTransferPull::Start] of PullStart.v uses.

    The theorems compose the components: a service that has started has as its
    peers the nodes of the other role and as its group those of its own, each as it
    registered itself, for every config center and either way of discovery;
    the wait for all nodes only ever times out. *)

From stdpp Require Import gmap strings.
From S2P Require Import Prelude StateResult StringUtils Options Retry ConfigCenter Discovery Messages Transfer.
From S2P Require Import Topology Tensor ControlTransport PullStart.
Local Open Scope Z_scope.

Inductive DiscoveryType : Type := DiscoveryTCPStore.

(** A config center that was made, with its destructor. *)
Record made_center (W : Type) : Type := MkMadeCenter {
  center : ConfigCenter W;
  destroy_center : W -> W;
}.
Arguments MkMadeCenter {W} _ _.
Arguments center {W} _.
Arguments destroy_center {W} _ _.

(** What the config centers are made on: the files, and connecting to the store
    that holds the configuration, which is not the one of the service discovery. *)
Class ConfigWorld (W : Type) : Type := {
  files_of : W -> FileCenter.fsys;
  set_files : FileCenter.fsys -> W -> W;
  config_store : string -> Z -> SR W (TCPStore W);
  can_read_path : string -> bool;
  can_write_path : string -> bool;
  can_remove_path : string -> bool;
}.

(** A manager with its two owned members. *)
Record live_manager (W : Type) : Type := MkLive {
  live_state : DiscoveryManager;
  service_discovery_ : Impl;
  config_center_ : made_center W;
}.
Arguments MkLive {W} _ _ _.
Arguments live_state {W} _.
Arguments service_discovery_ {W} _.
Arguments config_center_ {W} _.

Section Create.
  Context {W : Type} `{Clock W} `{TCPStore W} `{StoreNet W} `{HttpCenter.HttpClient W} `{ConfigWorld W} `{FloatLib}.
  (** The environment and the network of the process. *)
  Context (env : Environment) (net : network).

Definition on_files {A} (m : SR FileCenter.fsys A) : SR W A := fun w =>
  let '(r, fs) := m (files_of w) in (r, set_files fs w).

Definition file_center (shared_path : string) : made_center W :=
  let c := FileCenter.FileConfigCenter can_read_path can_write_path can_remove_path shared_path in
  MkMadeCenter
    {| SetConfig key value := on_files (@SetConfig _ c key value);
       GetConfig key := on_files (@GetConfig _ c key);
       RemoveConfig key := on_files (@RemoveConfig _ c key);
       non_retryable_exception := @non_retryable_exception _ c |}
    (fun w => set_files (FileCenter.destroy_FileConfigCenter shared_path (files_of w)) w).

Definition CreateConfigCenterByType (type : ConfigCenterType) : SR W (made_center W) :=
  match type with
  | TypeTCPStore =>
      let '(addr, port) := TCPStoreCenter.TCP_LoadConfigFromEnv env in
      client ← config_store addr port;
      mret (MkMadeCenter (@TCPStoreCenter.TCPStoreConfigCenter W client) id)
  | TypeHTTP =>
      c ← sr_lift (HttpCenter.new_HttpConfigCenter env);
      mret (MkMadeCenter (HttpCenter.HttpConfigCenter_center c) id)
  | TypeFILE => fun w =>
      match FileCenter.new_FileConfigCenter env (files_of w) with
      | Ok (shared_path, fs) => (Ok (file_center shared_path), set_files fs w)
      | Throw e => (Throw e, w)
      | Undef => (Undef, w)
      end
  end.

(** The constructor of the service discovery; when it throws, its members are
    destroyed, the server of the store among them. *)
Definition CreateServiceDiscoveryByType (fuel : nat) (type : DiscoveryType) (m : DiscoveryManager) (role_size : Z)
    (mc : made_center W) : SR W Impl := fun w =>
  match type with
  | DiscoveryTCPStore =>
      let n := current_node_ m in
      match @new_Impl W _ _ _ (center mc) _ fuel (hostname_or_ip (node_info n)) (rank n) (role n) role_size true (options_ m) w with
      | (Ok _, (i, w')) => (Ok i, w')
      | (Throw e, (i, w')) => (Throw e, if Discovery.serving i then shut_down w' else w')
      | (Undef, (_, w')) => (Undef, w')
      end
  end.

(** The constructor: [make_unique] never gives the null pointers it checks for, and
    the discovery thread is not enabled.  When the service discovery throws, the
    config center that was made before it is destroyed. *)
Definition new_DiscoveryManager (fuel : nat) (config_type : ConfigCenterType) (discovery_type : DiscoveryType)
    (role_rank : Z) (r : ARole) (role_size rdma_port ctrl_port : Z) (options : Options) : SR W (live_manager W) :=
  local_addr_ip ← sr_lift (GetLocalHostnameOrIP env net);
  let m := new_manager options local_addr_ip role_rank r rdma_port ctrl_port in
  mc ← CreateConfigCenterByType config_type;
  i ← sr_catch (CreateServiceDiscoveryByType fuel discovery_type m role_size mc)
        (fun e => _ ← sr_modify (destroy_center mc); sr_lift (Throw e));
  mret (MkLive m i mc).

(** Every value of [DISCOVERY_TYPE] gives the one type there is. *)
Definition CreateFromOptions (fuel : nat) (options : Options) (role_rank : Z) (r : ARole) (role_size rdma_port ctrl_port : Z)
    : SR W (live_manager W) :=
  config_type ← sr_lift (config_center_type options);
  new_DiscoveryManager fuel config_type DiscoveryTCPStore role_rank r role_size rdma_port ctrl_port options.

(** The destructor: [Stop], and then the members in the reverse of their order;
    an exception of [~Impl] would end the process. *)
Definition destroy_DiscoveryManager (l : live_manager W) (w : W) : result unit * W :=
  let '(stopped, (_, (i, w1))) := Manager_Stop (live_state l, (service_discovery_ l, w)) in
  match stopped with
  | Ok _ =>
      match @destroy_Impl W _ _ (center (config_center_ l)) (i, w1) with
      | (Ok _, (_, w2)) => (Ok tt, destroy_center (config_center_ l) w2)
      | (_, (_, w2)) => (Undef, w2)
      end
  | _ => (Undef, w1)
  end.

(** [WaitForAllNodes]; the manager is what the other threads have made of it at
    each poll. [None] is a wait that has not ended within the fuel. *)
Fixpoint wait_nodes_loop (fuel : nat) (start_time timeout : Z) (polled : nat -> DiscoveryManager) (w : W) : option (bool * W) :=
  match fuel with
  | O => None
  | S fuel' =>
      if now w - start_time <? ms timeout then
        if all_nodes_ready_ (polled O) then Some (true, w)
        else wait_nodes_loop fuel' start_time timeout (fun k => polled (S k)) (sleep_for (ms kDiscoveryInterval) w)
      else Some (false, w)
  end.

Definition WaitForAllNodes (fuel : nat) (timeout : Z) (polled : nat -> DiscoveryManager) (w : W) : option (bool * W) :=
  wait_nodes_loop fuel (now w) timeout polled w.

(** ** The manager as the discovery of a service *)

(** The member [discovery_manager_], and the rest. *)
Definition owned : Type := option (live_manager W) * W.

(** A call through the pointer. *)
Definition on_manager {A} (m : SR (DiscoveryManager * (Impl * W)) A) : SR owned A := fun '(l, w) =>
  match l with
  | Some l =>
      let '(r, (m', (i', w'))) := m (live_state l, (service_discovery_ l, w)) in
      (r, (Some (MkLive m' i' (config_center_ l)), w'))
  | None => (Undef, (l, w))
  end.

(** The assignment to the member destroys the manager that was there. *)
Definition create_and_start (fuel : nat) (role_size : Z) (options : Options) (role_rank : Z) (r : ARole)
    (rdma_port ctrl_port : Z) : SR owned unit := fun '(l, w) =>
  match CreateFromOptions fuel options role_rank r role_size rdma_port ctrl_port w with
  | (Ok l', w') =>
      match match l with Some old => destroy_DiscoveryManager old w' | None => (Ok tt, w') end with
      | (Ok _, w'') => (_ ← on_manager Start; mret tt) (Some l', w'')
      | (r, w'') => (r, (Some l', w''))
      end
  | (Throw e, w') => (Throw e, (l, w'))
  | (Undef, w') => (Undef, (l, w'))
  end.

Definition manager_discovery (random_ms : W -> Z) (fuel : nat) (role_size : Z) : PeerDiscovery owned := {|
  create_manager := create_and_start fuel role_size;
  register_current_node := on_manager RegisterCurrentNode;
  discover_all_nodes := on_manager (DiscoverAllNodes random_ms fuel);
|}.

End Create.

(** ** A service discovery that was made *)

#[local] Opaque option_definitions.

(** A retry that returns does so by an attempt, in a state the attempts before it kept. *)
Lemma Retry_Returned {W P A} `{RetryPolicy W P} (func : W -> outcome A * W) (Q : W -> Prop) :
  (forall p w b p' w', Attempt p w = Ok (b, p', w') -> Q w -> Q w') -> (forall w, Q w -> Q (func w).2) ->
  forall fuel last p w a p' w', Q w -> Retry func fuel last p w = Some (Ok (Returned a, p', w')) ->
    exists w1, Q w1 /\ func w1 = (Done a, w').
Proof.
  intros Ha Hf fuel. induction fuel as [|fuel IH]; intros last p w a p' w' Hw E; [done|]. cbn [Retry] in E.
  destruct (Attempt p w) as [[[[] q] w1]| |] eqn:Ea; [|by destruct last|done..].
  pose proof (Ha _ _ _ _ _ Ea Hw) as H1. pose proof (Hf _ H1) as H2. destruct (func w1) as [[b|e|e] w2] eqn:Ef.
  - injection E as <- <- <-. by exists w1.
  - by apply (IH _ _ _ _ _ _ H2 E).
  - done.
Qed.

Section Made.
  Context {W : Type} `{Clock W} `{TCPStore W} `{StoreNet W} `{ConfigCenter W} `{FloatLib}.

(** What making the service discovery and registering keep. *)
Definition own_job (r : ARole) (n : Z) (i : Impl) : Prop :=
  discovered_nodes_cache i = ∅ /\ impl_role i = r /\ Discovery.world_size i r = n.

Lemma keeps_set_impl (Q : Impl -> Prop) f : (forall i, Q i -> Q (f i)) -> sr_keeps (fun s : Impl * W => Q s.1) (set_impl f).
Proof. intros Hf [i w] Hi. by apply Hf. Qed.

Lemma keeps_get_impl (Q : Impl -> Prop) : sr_keeps (fun s : Impl * W => Q s.1) get_impl.
Proof. by intros [i w] Hi. Qed.

Lemma keeps_impl_sleep (Q : Impl -> Prop) d : sr_keeps (fun s : Impl * W => Q s.1) (sleep d).
Proof. by intros [i w] Hi. Qed.

Lemma keeps_impl_on_snd {A} (Q : Impl -> Prop) (c : SR W A) : sr_keeps (fun s : Impl * W => Q s.1) (on_snd c).
Proof. intros [i w] Hi. unfold on_snd. cbn. by destruct (c w). Qed.

Ltac keep_impl lemma := repeat first
  [ lemma | apply sr_keeps_bind; [|intros ?] | apply sr_keeps_ret | apply sr_keeps_lift | apply sr_keeps_catch; [|intros ?]
  | apply keeps_get_impl | apply keeps_impl_sleep | apply keeps_impl_on_snd | apply keeps_set_impl; solve [auto]
  | match goal with |- sr_keeps _ (if ?b then _ else _) => destruct b end ].

Section Kept.
  Context (Q : Impl -> Prop).
  Hypothesis keeps_connected : forall i, Q i -> Q (set_connected i).

Lemma keeps_connect_loop tries : sr_keeps (fun s : Impl * W => Q s.1) (connect_loop tries).
Proof. induction tries as [|n IH]; cbn [connect_loop]; keep_impl ltac:(apply IH). Qed.

Lemma keeps_MakeSureConnect : sr_keeps (fun s : Impl * W => Q s.1) MakeSureConnect.
Proof. unfold MakeSureConnect. keep_impl ltac:(apply keeps_connect_loop). Qed.

Lemma keeps_RegisterNode entry : sr_keeps (fun s : Impl * W => Q s.1) (RegisterNode entry).
Proof. unfold RegisterNode. keep_impl ltac:(apply keeps_MakeSureConnect). Qed.

Hypothesis keeps_master : forall b c addr port i, Q i -> Q (set_master b c addr port i).

Lemma keeps_start_master_loop ports : sr_keeps (fun s : Impl * W => Q s.1) (start_master_loop ports).
Proof. induction ports as [|port ports IH]; cbn [start_master_loop]; unfold start_master_at; keep_impl ltac:(apply IH). Qed.

Lemma keeps_StartMasterService : sr_keeps (fun s : Impl * W => Q s.1) StartMasterService.
Proof. unfold StartMasterService. keep_impl ltac:(apply keeps_start_master_loop). Qed.

Lemma keeps_FetchMasterConfig fuel : sr_keeps (fun s : Impl * W => Q s.1) (FetchMasterConfig fuel).
Proof. intros [i w] Hi. unfold FetchMasterConfig. repeat case_match; cbn in *; auto. Qed.

Hypothesis keeps_sizes : forall i n, Q i -> Q (match impl_role i with
  | TRAINING => set_world_sizes (train_world_size i) n i | INFERENCE => set_world_sizes n (inference_world_size i) i end).

Lemma keeps_world_size_attempt : sr_keeps (fun s : Impl * W => Q s.1) world_size_attempt.
Proof. unfold world_size_attempt, check_registered. keep_impl ltac:(apply keeps_MakeSureConnect). Qed.
End Kept.

Lemma connect_loop_connected n : forall s s' : Impl * W, connect_loop (S n) s = (Ok tt, s') -> connected s'.1 = true.
Proof.
  induction n as [|n IH]; intros [i w] s' E; cbn [connect_loop] in E; sr_open E i1 s1 E1; injection E1 as <- <-;
    unfold sr_catch, mbind, SR_bind, on_snd, set_impl, sleep, sr_lift in E; cbn [fst snd] in E.
  all: destruct (connect _ _ w) as [[u|e|] w1]; cbn [fst snd] in E; try done.
  1,2: by injection E as <-.
  by apply IH in E.
Qed.

Lemma made_sure_connected (s s' : Impl * W) : MakeSureConnect s = (Ok tt, s') -> connected s'.1 = true.
Proof.
  unfold MakeSureConnect. intros E. sr_open E i s1 E1. injection E1 as <- <-.
  destruct (connected s.1) eqn:Ec; [by injection E as <-|]. by apply connect_loop_connected in E.
Qed.

Lemma keeps_run {S A} (P : S -> Prop) (m : SR S A) s r s' : sr_keeps P m -> m s = (r, s') -> P s -> P s'.
Proof. intros Hm E Hs. specialize (Hm s Hs). by rewrite E in Hm. Qed.

Definition is_connected (i : Impl) : Prop := connected i = true.

Lemma world_size_attempt_connected (s s' : Impl * W) : world_size_attempt s = (Ok tt, s') -> connected s'.1 = true.
Proof.
  unfold world_size_attempt. intros E. sr_open E u s1 E1. destruct u. apply made_sure_connected in E1.
  refine (keeps_run (fun s : Impl * W => is_connected s.1) _ _ _ _ _ E E1). unfold check_registered. keep_impl fail.
  apply (keeps_set_impl is_connected). intros i Hi. by destruct (impl_role i).
Qed.

Lemma own_job_sizes r n i k : own_job r n i -> own_job r n (match impl_role i with
  | TRAINING => set_world_sizes (train_world_size i) k i | INFERENCE => set_world_sizes k (inference_world_size i) i end).
Proof. intros (Hc & Hr & Hn). unfold own_job. rewrite Hr. by destruct r. Qed.

Lemma master_keeps r n (b : bool) fuel : sr_keeps (fun s : Impl * W => own_job r n s.1)
  (if b then init ← StartMasterService; if (init : bool) then mret tt else sr_lift (Throw "Failed to start master service")
   else FetchMasterConfig fuel).
Proof.
  destruct b; [|by apply keeps_FetchMasterConfig]. apply sr_keeps_bind; [by apply keeps_StartMasterService|].
  intros []; [apply sr_keeps_ret|apply sr_keeps_lift].
Qed.

Lemma attempt_keeps r n : sr_keeps (fun s : Impl * W => own_job r n s.1) world_size_attempt.
Proof. apply keeps_world_size_attempt; [done|apply own_job_sizes]. Qed.

Lemma sizes_retried r n fuel last p (s s' : Impl * W) u p' : own_job r n s.1 ->
  @Retry (Impl * W) _ _ CountingRetry_policy (Discovery.as_outcome world_size_attempt) fuel last p s = Some (Ok (Returned u, p', s')) ->
  connected s'.1 = true /\ own_job r n s'.1.
Proof.
  intros Hown Er.
  apply (Retry_Returned _ (fun s : Impl * W => own_job r n s.1)) in Er as (s3 & Hown3 & E3); [..|done].
  - unfold Discovery.as_outcome in E3. destruct (world_size_attempt s3) as [[[]| |] s4] eqn:Ea; try done. injection E3 as _ <-.
    split; [by apply world_size_attempt_connected in Ea|].
    exact (keeps_run (fun s : Impl * W => own_job r n s.1) _ _ _ _ (attempt_keeps r n) Ea Hown3).
  - intros q s1 b q' s3 Ea. cbn in Ea. destruct (CountingRetry_Attempt q) as [[]| |]; try done. by injection Ea as _ _ <-.
  - intros s1 Hs. pose proof (attempt_keeps r n s1 Hs) as Hk. unfold Discovery.as_outcome. by destruct (world_size_attempt s1) as [[]].
Qed.

Lemma sizes_made r n fuel (s s' : Impl * W) u : own_job r n s.1 ->
  RegisterAndFetchWorldSizes fuel s = (Ok u, s') -> connected s'.1 = true /\ own_job r n s'.1.
Proof.
  destruct s as [i w]. intros Hown E. unfold RegisterAndFetchWorldSizes in E.
  revert E. generalize (retry_count ← GetOptionInt option_definitions (impl_options i) DISCOVERY_WORLD_SIZE_RETRY_COUNT; new_CountingRetry retry_count).
  intros [p| |] E; [|done..].
  destruct (Retry _ _ _ _ _) as [[[[[u2|e|] p'] s2]| |]|] eqn:Er; try done. injection E as _ <-.
  by apply (sizes_retried r n) in Er.
Qed.

(** After its construction: it is connected, its cache is empty, and the world
    size of its own role is the one it was given. *)
Lemma new_Impl_made fuel addr rank r n control options (w : W) u s' :
  new_Impl fuel addr rank r n control options w = (Ok u, s') -> connected s'.1 = true /\ own_job r n s'.1.
Proof.
  unfold new_Impl. set (i := MkImpl _ _ _ _ _ _ _ _ _ _ _ _ _ _). assert (own_job r n (i, w).1) as Hi.
  { split; [done|]. by destruct r. }
  intros E. clearbody i. sr_open E u1 s1 E1. apply (sizes_made r n) in E; [done|].
  exact (keeps_run _ _ _ _ _ (master_keeps r n _ fuel) E1 Hi).
Qed.

(** Registering the node keeps both. *)
Lemma RegisterNode_made r n entry (s : Impl * W) b s' : connected s.1 = true /\ own_job r n s.1 ->
  RegisterNode entry s = (b, s') -> connected s'.1 = true /\ own_job r n s'.1.
Proof.
  intros Hs E. refine (keeps_run (fun s : Impl * W => connected s.1 = true /\ own_job r n s.1) _ _ _ _ _ E Hs).
  apply (keeps_RegisterNode (fun i => connected i = true /\ own_job r n i)). by intros i [].
Qed.
End Made.

(** ** The manager of a service *)

#[local] Opaque new_Impl.

Section Peers.
  Context {W : Type} `{ClockLaws W} `{TCPStoreLaws W} `{StoreNet W} `{HttpCenter.HttpClient W} `{ConfigWorld W} `{FloatLib}.
  Context (env : Environment) (net : network).

(** A manager as [Start] of the service has it. *)
Definition made (options : Options) (n : NodeEntry) (role_size : Z) (l : live_manager W) : Prop :=
  options_ (live_state l) = options /\ current_node_ (live_state l) = n /\
  connected (service_discovery_ l) = true /\ own_job (role n) role_size (service_discovery_ l).

Lemma CreateFromOptions_made fuel options rank r role_size rdma_port ctrl_port (w : W) l w' :
  CreateFromOptions env net fuel options rank r role_size rdma_port ctrl_port w = (Ok l, w') ->
  exists addr, GetLocalHostnameOrIP env net = Ok addr /\
    made options (MkNodeEntry rank (MkNodeInfo addr rdma_port ctrl_port) r) role_size l.
Proof.
  unfold CreateFromOptions, new_DiscoveryManager. intros E. sr_open E ty s1 E1. clear E1. sr_open E addr s2 E2.
  unfold sr_lift in E2. injection E2 as E2 <-. exists addr. split; [done|].
  sr_open E mc s3 E3. sr_open E i s4 E4. injection E as <- <-. unfold sr_catch in E4.
  destruct (CreateServiceDiscoveryByType _ _ _ _ _ _) as [[i'| |] w4] eqn:Ec; [|done..]. injection E4 as <- <-.
  unfold CreateServiceDiscoveryByType in Ec. destruct (new_Impl _ _ _ _ _ _ _ _) as [[u| |] [i2 w2]] eqn:Ei; [|done..].
  injection Ec as <- <-. destruct (new_Impl_made _ _ _ _ _ _ _ _ _ _ Ei). done.
Qed.

Lemma create_manager_made random_ms fuel role_size options rank r rdma_port ctrl_port (s s' : owned) u :
  @create_manager _ (manager_discovery env net random_ms fuel role_size) options rank r rdma_port ctrl_port s = (Ok u, s') ->
  exists l addr, s'.1 = Some l /\ GetLocalHostnameOrIP env net = Ok addr /\
    made options (MkNodeEntry rank (MkNodeInfo addr rdma_port ctrl_port) r) role_size l.
Proof.
  destruct s as [l0 w]. cbn [create_manager manager_discovery]. unfold create_and_start. intros E.
  destruct (CreateFromOptions _ _ _ _ _ _ _ _ _ _) as [[l| |] w1] eqn:Ec; [|done..].
  apply CreateFromOptions_made in Ec as (addr & Ha & Hm). destruct (match l0 with Some _ => _ | None => _ end) as [[]]; try done.
  injection E as _ <-. by eexists _, addr.
Qed.

Lemma RegisterNode_stores entry i (w : W) : connected i = true ->
  exists w', RegisterNode entry (i, w) = (Ok true, (i, w')) /\
    contents w' = <[NodeKey (rank entry) (role entry) := NodeToString entry]> (contents w).
Proof.
  intros Hc. destruct (set_stores (NodeKey (rank entry) (role entry)) (NodeToString entry) w) as (w' & Es & Hs).
  exists w'. split; [|done]. unfold RegisterNode, sr_catch, MakeSureConnect, get_impl, on_snd, mbind, SR_bind. cbn [fst snd].
  rewrite Hc. cbn. by rewrite Es.
Qed.

Lemma register_made random_ms fuel role_size options n (l : live_manager W) (w : W) b s' : made options n role_size l ->
  @register_current_node _ (manager_discovery env net random_ms fuel role_size) (Some l, w) = (b, s') ->
  exists l' w', s' = (Some l', w') /\ made options n role_size l' /\
    contents w' !! NodeKey (rank n) (role n) = Some (NodeToString n).
Proof.
  intros (Ho & Hn & Hc & Hj) E. destruct (RegisterNode_stores n (service_discovery_ l) w Hc) as (w1 & Er & Hs).
  cbn [register_current_node manager_discovery] in E. unfold on_manager, RegisterCurrentNode, get_manager, mbind, SR_bind in E.
  cbn [fst snd] in E. rewrite Hn in E. unfold on_snd in E. cbn [fst snd] in E. rewrite Er in E. cbn in E.
  injection E as _ <-. eexists _, w1. split; [done|]. split; [done|]. rewrite Hs. apply lookup_insert_eq.
Qed.

Lemma discover_made (quiet : forall d w, contents (sleep_for d w) = contents w) random_ms fuel role_size options n e use_batch
    (l : live_manager W) (w : W) nodes s' : made options n role_size l ->
  GetOptionBool option_definitions options DISCOVERY_USE_BATCH_API = Ok use_batch -> registered e (service_discovery_ l) w ->
  @discover_all_nodes _ (manager_discovery env net random_ms (S fuel) role_size) (Some l, w) = (Ok nodes, s') ->
  nodes = all_nodes e (service_discovery_ l).
Proof.
  intros (Ho & Hn & Hc & Hj) Hb R E. rewrite <- Ho in Hb.
  destruct (discover_all_peers quiet random_ms e fuel (live_state l) (service_discovery_ l) w use_batch Hb Hc R (proj1 Hj)) as (s1 & Ed).
  cbn [discover_all_nodes manager_discovery] in E. unfold on_manager in E. rewrite Ed in E.
  destruct s1 as [m1 [i1 w1]]. by injection E as <- _.
Qed.

Lemma hosts_of_role e i (w : W) r : registered e i w ->
  map node_info (filter (fun n => role n <> r) (all_nodes e i)) = node_info <$> nodes_of e i (other_role r) /\
  map node_info (filter (fun n => role n = r) (all_nodes e i)) = node_info <$> nodes_of e i r.
Proof.
  intros R. rewrite <- !(filter_all_nodes e i w) by done. split; [|done]. unfold fmap, list_fmap. f_equal.
  apply list_filter_iff. intros n. destruct (role n), r; cbn; naive_solver.
Qed.
End Peers.

(** The state in which a service that starts looks for the other nodes: its
    transports run, its manager is made and has registered the node. *)
Definition looking {W D} `{Clock W} `{TCPStore W} `{StoreNet W} `{HttpCenter.HttpClient W} `{ConfigWorld W} `{FloatLib}
    `{DataTransport D (@owned W)} `{JsonLib} `{PullWorld (@owned W)} `{Clock (@owned W)} `{BrpcLib (@owned W)}
    (env : Environment) (net : network) (fuel : nat) (options : Options) (rank role_size : Z) (r : ARole)
    (d : D) (w : @owned W) (l : live_manager W) (w2 : W) : Prop :=
  exists v1 s1 u b w1, start_transports option_definitions options rank (v1, (d, (new_BrpcTransport, w))) = (Ok true, s1) /\
    create_and_start env net fuel role_size options rank r (data_port s1.2.1) (bind_port s1.2.2.1) s1.2.2.2 = (Ok u, w1) /\
    on_manager RegisterCurrentNode w1 = (Ok b, (Some l, w2)).

(** C17: A service over the discovery of this repository.  If [Start] returns true, and
    all nodes of the job are registered when it looks for them, then the
    peers of the service are the nodes of the other role and its group those of
    its own, as many of them as the configuration says, each as it registered
    itself and in rank order, whichever config center and way of discovery
    the options choose; and it has registered itself under its rank and role,
    with the ports of its transports. *)
Theorem service_finds_job {W D} `{ClockLaws W} `{TCPStoreLaws W} `{StoreNet W} `{HttpCenter.HttpClient W} `{ConfigWorld W} `{FloatLib}
    `{DataLaws D (@owned W)} `{JsonLib} `{PullWorld (@owned W)} `{Clock (@owned W)} `{BrpcLib (@owned W)}
    (env : Environment) (net : network) (random_ms : W -> Z) (fuel : nat) (options : Options) (rank role_size : Z) (r : ARole)
    (use_batch : bool) (e : ARole -> Z -> NodeEntry) (v : pull_service) (d : D) (w : @owned W)
    (s' : pull_service * (D * (BrpcTransport owned * owned))) :
  (forall d w, contents (sleep_for d w) = contents w) ->
  GetOptionBool option_definitions options "TRANSFER_ENGINE_SERVICE_SKIP_DISCOVERY" = Ok false ->
  GetOptionBool option_definitions options DISCOVERY_USE_BATCH_API = Ok use_batch ->
  (forall l w2, looking env net (S fuel) options rank role_size r d w l w2 -> registered e (service_discovery_ l) w2) ->
  @Pull_Start D owned _ (manager_discovery env net random_ms (S fuel) role_size) _ _ _ _ _ option_definitions options rank r
    (v, (d, (new_BrpcTransport, w))) = (Ok true, s') ->
  exists addr l w2, looking env net (S fuel) options rank role_size r d w l w2 /\
    GetLocalHostnameOrIP env net = Ok addr /\ Discovery.world_size (service_discovery_ l) r = role_size /\
    contents w2 !! NodeKey rank r =
      Some (NodeToString (MkNodeEntry rank (MkNodeInfo addr (data_port s'.2.1) (bind_port s'.2.2.1)) r)) /\
    svc_peer_hosts s'.1 = svc_peer_hosts v ++ (node_info <$> nodes_of e (service_discovery_ l) (other_role r)) /\
    svc_group_hosts s'.1 = svc_group_hosts v ++ (node_info <$> nodes_of e (service_discovery_ l) r).
Proof.
  intros quiet Hskip Hb Hreg E.
  destruct (@pull_start_hosts D owned _ _ (manager_discovery env net random_ms (S fuel) role_size) _ _ _ _ _ option_definitions
    options rank r v d w s' Hskip E)
    as (_ & _ & _ & nodes & v1 & s1 & u & b & w1 & w2 & w3 & Hst & Hs1 & Hs2 & Hc & Hr & Hd & Hp & Hg).
  pose proof (create_manager_made env net random_ms _ _ _ _ _ _ _ _ _ _ Hc) as (l & addr & Hl & Ha & Hm).
  destruct w1 as [l1 w1]. cbn in Hl. subst l1.
  destruct (register_made env net random_ms _ _ _ _ _ _ _ _ Hm Hr) as (l' & w' & -> & Hm' & Hs).
  assert (looking env net (S fuel) options rank role_size r d w l' w') as Hlook by exact
    (ex_intro _ v1 (ex_intro _ s1 (ex_intro _ u (ex_intro _ b (ex_intro _ _ (conj Hst (conj Hc Hr))))))).
  pose proof (Hreg _ _ Hlook) as R. rewrite Hs1, Hs2 in Hs. clear Hreg E Hst Hc Hr Hskip.
  exists addr, l', w'. split; [exact Hlook|]. split; [exact Ha|]. split; [exact (proj2 (proj2 (proj2 (proj2 (proj2 Hm')))))|].
  split; [exact Hs|]. rewrite (discover_made env net quiet _ _ _ _ _ e _ _ _ _ _ Hm' Hb R Hd) in Hp, Hg.
  destruct (hosts_of_role e _ _ r R) as [<- <-]. exact (conj Hp Hg).
Qed.

(** ** An example *)

(** The first trainer of a job of two trainers and one inference node, which keeps
    its configuration in a store. *)
Module FirstTrainer.

#[export] Existing Instances Job.clock Job.clock_laws Job.store Job.store_laws Job.net TrainerNode.floats PlainJson.lib.

Abbreviation own := (@owned Job.world).

#[export] Instance http : HttpCenter.HttpClient Job.world := {|
  HttpCenter.http_send _ _ _ _ _ w := (HttpCenter.HttpException, w)
|}.
#[export] Instance config : ConfigWorld Job.world := {|
  files_of _ := FileCenter.FSys ∅ ∅; set_files _ w := w; config_store _ _ := mret Job.store;
  can_read_path _ := false; can_write_path _ := false; can_remove_path _ := false;
|}.
#[export] Instance clock : Clock own := {| now w := now w.2; sleep_for d w := (w.1, sleep_for d w.2) |}.
#[export] Instance data : DataTransport (bool * bool) own := {|
  data_start options rank := fun '(d, w) => (Ok d.1, ((d.1, d.1), w));
  data_stop d := (d.1, false);
  data_running d := d.2;
  data_name _ := "10.0.0.7"%string;
  data_port _ := 7000;
|}.
#[export] Instance data_laws : DataLaws (bool * bool) own.
Proof. constructor; [|done]. intros options rank [d w] s' E. cbn in E. injection E as E <-. exact E. Qed.
#[export] Instance world : PullWorld own := {| pull_of _ := TrainerNode.s0; set_pull _ w := w; cfg_of _ := TrainerNode.cfg |}.
#[export] Instance brpc : BrpcLib own := {|
  server_start first last w := (Some 8000, w);
  channel_init addr w := (true, w);
  rpc_send addr name data timeout w := (RpcFailed 1, w);
  rand w := (7, w);
|}.

Definition env (name : string) : option string := if decide (name = "POD_IP"%string) then Some "10.0.0.7"%string else None.
Definition net : network := {| route_address := None; interfaces := None |}.
Definition options : Options := {[DISCOVERY_CONFIG_CENTER_TYPE := "TCPStore"%string]}.

(** The other two nodes have registered, and the inference nodes their number. *)
Definition w0 : own := (None, (0, <[WorldSizeKey INFERENCE := "1"%string]>
  (<[NodeKey 1 TRAINING := NodeToString (Job.node TRAINING 1)]>
    (<[NodeKey 0 INFERENCE := NodeToString (Job.node INFERENCE 0)]> ∅)))).

(** The world once the transports have started, a second later, and what the node
    is when it looks for the others. *)
Definition w_started : own := (None, (1000000000, w0.2.2)).
Definition found : option (Impl * Job.world) :=
  let s := (on_manager RegisterCurrentNode (create_and_start env net 3 2 options 0 TRAINING 7000 8000 w_started).2).2 in
  match s.1 with Some l => Some (service_discovery_ l, s.2) | None => None end.

Lemma looking_found l w2 : looking env net 3 options 0 2 TRAINING (true, false) w0 l w2 -> found = Some (service_discovery_ l, w2).
Proof.
  intros (v1 & [v2 [d2 [b2 w3]]] & u & b & w1 & E1 & E2 & E3). cbn [fst snd] in E2.
  assert ((bind_port b2, w3) = (8000, w_started)) as [= Eb Ew].
  { transitivity (let x := start_transports option_definitions options 0 (v1, ((true, false), (new_BrpcTransport, w0))) in
      (bind_port x.2.2.2.1, x.2.2.2.2)); [rewrite E1; reflexivity|vm_compute; reflexivity]. }
  rewrite Eb, Ew in E2. unfold found. cbn [data_port data] in E2. rewrite E2. cbn [snd]. by rewrite E3.
Qed.

Lemma found_registered i w2 : found = Some (i, w2) -> registered Job.node i w2.
Proof.
  intros E. assert (match found with None => False | Some (i, w2) => train_world_size i = 2 /\ inference_world_size i = 1 /\
    w2.2 !! NodeKey 0 TRAINING = Some (NodeToString (Job.node TRAINING 0)) /\
    w2.2 !! NodeKey 1 TRAINING = Some (NodeToString (Job.node TRAINING 1)) /\
    w2.2 !! NodeKey 0 INFERENCE = Some (NodeToString (Job.node INFERENCE 0)) end) as Hf by (vm_compute; repeat split).
  rewrite E in Hf. destruct Hf as (Ht & Hi & H1 & H2 & H3). clear E. intros r n Hn. unfold Discovery.world_size in Hn.
  assert (r = TRAINING /\ n = 0 \/ r = TRAINING /\ n = 1 \/ r = INFERENCE /\ n = 0) as Hr.
  { destruct r; cbn iota in Hn; [|right; right; split; [done|lia]]. destruct (decide (n = 0)); [left|right; left]; (split; [done|lia]). }
  split; [lia|]. split; [apply Job.node_ok; lia|].
  destruct Hr as [[-> ->]|[[-> ->]|[-> ->]]]; (split; [reflexivity|]; split; [reflexivity|assumption]).
Qed.
End FirstTrainer.

Import FirstTrainer.

Lemma service_finds_job_witness :
  let s := @Pull_Start (bool * bool) own _ (manager_discovery env net (fun _ => 5) 3 2) _ _ _ _ _ option_definitions options 0 TRAINING
    (TrainerNode.v0, ((true, false), (new_BrpcTransport, w0))) in
  s.1 = Ok true /\ exists l : live_manager Job.world, svc_peer_hosts s.2.1 = node_info <$> nodes_of Job.node (service_discovery_ l) INFERENCE.
Proof.
  cbv zeta. destruct (Pull_Start _ _ _ _ _) as [o s'] eqn:E.
  assert (o = Ok true) as -> by (apply (f_equal fst) in E; vm_compute in E; by symmetry).
  destruct (service_finds_job env net (fun _ => 5) 2 options 0 2 TRAINING true Job.node TrainerNode.v0 (true, false) w0 s')
    as (addr & l & w2 & _ & _ & _ & _ & Hp & _).
  - reflexivity.
  - vm_compute. reflexivity.
  - vm_compute. reflexivity.
  - intros l w2 Hl. exact (found_registered _ _ (looking_found l w2 Hl)).
  - exact E.
  - split; [reflexivity|]. exists l. exact Hp.
Defined.

(** ** Waiting *)

Section Waiting.
  Context {W : Type} `{ClockLaws W}.

Lemma wait_nodes_loop_false fuel : forall start_time timeout polled (w : W), (forall k, all_nodes_ready_ (polled k) = false) ->
  start_time + ms timeout - now w <= ms kDiscoveryInterval * Z.of_nat fuel ->
  exists w', wait_nodes_loop (S fuel) start_time timeout polled w = Some (false, w') /\ ms timeout <= now w' - start_time.
Proof.
  induction fuel as [|fuel IH]; intros start_time timeout polled w Hp Hf; cbn [wait_nodes_loop];
    destruct (Z.ltb_spec (now w - start_time) (ms timeout)); try (exists w; split; [done|lia]).
  - lia.
  - rewrite (Hp O). pose proof (sleep_now (ms kDiscoveryInterval) w) as Hs.
    apply (IH start_time timeout (fun k => polled (S k)) (sleep_for (ms kDiscoveryInterval) w)); [intros k; apply Hp|].
    unfold ms, kDiscoveryInterval in *. lia.
Qed.
End Waiting.

(** Waiting for all nodes.  Whatever the threads of the process do with the
    manager, [WaitForAllNodes] returns false, once the timeout has passed. *)
Theorem wait_times_out {W} `{ClockLaws W} `{TCPStore W} `{StoreNet W} `{FloatLib} (random_ms : W -> Z)
    (options : Options) (addr : string) (role_rank : Z) (r : ARole) (rdma_port ctrl_port : Z) (i : Impl * W)
    (polled : nat -> DiscoveryManager * (Impl * W)) (timeout : Z) (fuel : nat) (w : W) :
  (forall k, rtc (manager_step random_ms) (new_manager options addr role_rank r rdma_port ctrl_port, i) (polled k)) ->
  timeout <= kDiscoveryInterval * Z.of_nat fuel ->
  exists w', WaitForAllNodes (S fuel) timeout (fun k => (polled k).1) w = Some (false, w') /\ ms timeout <= now w' - now w.
Proof.
  intros Hp Hf. apply wait_nodes_loop_false; [|unfold ms, kDiscoveryInterval in *; lia]. intros k.
  assert (no_cache (polled k).1) as (_ & _ & Hr); [|done].
  eapply (rtc_invariant _ (fun x => no_cache x.1)); [| |exact (Hp k)]; [|done]. intros a b Ha Hab. by eapply no_cache_step.
Qed.

Lemma wait_times_out_witness : exists w' : Job.world, WaitForAllNodes 4 3000 (fun _ => Job.manager) Job.start = Some (false, w').
Proof.
  destruct (wait_times_out (fun _ => 5) ∅ "10.0.0.7" 0 TRAINING 7000 8000 (Job.impl, Job.start)
    (fun _ => (Job.manager, (Job.impl, Job.start))) 3000 3 Job.start) as (w' & E & _).
  - intros _. apply rtc_refl.
  - vm_compute. discriminate.
  - exists w'. exact E.
Defined.
