(* ===== verification/Md5Verify.v ===== *)
(** * The check of a transfer

    python/example/verify_md5.py compares the digests that the example trainer
    and the example inference node write into a directory, one file for every
    iteration.  The file has the text operations of Python it uses, the format
    of the files, the comparison and the exit code of the script.

    Text is a sequence of characters below 256.  Log lines, the rates among
    them, are left out; the files of the directory can be read.

    The theorems show that a file is parsed into the entries it was written
    with, that the name of a file gives its iteration and sequence, and for
    which directories the script exits with 0. *)

From S2P Require Import Prelude StringUtils.
From stdpp Require Import sorting.
Local Open Scope Z_scope.

(** ** Text in Python *)

(** [c.isspace()] *)
Definition py_space (c : ascii) : bool :=
  let n := nat_of_ascii c in ((9 <=? n) && (n <=? 13) || (28 <=? n) && (n <=? 32) || (n =? 133) || (n =? 160))%nat.

Fixpoint lstrip (s : string) : string :=
  match s with String c s' => if py_space c then lstrip s' else s | EmptyString => EmptyString end.

Fixpoint rstrip (s : string) : string :=
  match s with
  | EmptyString => EmptyString
  | String c s' => match rstrip s' with
                   | EmptyString => if py_space c then EmptyString else String c EmptyString
                   | r => String c r
                   end
  end.

Definition strip (s : string) : string := rstrip (lstrip s).

(** [s.split(d)]; [cur] is the part that is being read. *)
Fixpoint py_split (d : ascii) (s cur : string) : list string :=
  match s with
  | EmptyString => [cur]
  | String c s' => if decide (c = d) then cur :: py_split d s' EmptyString else py_split d s' (push_back cur c)
  end.

Definition NEWLINE : ascii := "010".
Definition RETURN : ascii := "013".

(** The lines of a text file, without their ends. *)
Fixpoint py_lines (s cur : string) : list string :=
  match s with
  | EmptyString => match cur with EmptyString => [] | _ => [cur] end
  | String c s' =>
      if decide (c = NEWLINE) then cur :: py_lines s' EmptyString
      else if decide (c = RETURN) then
        cur :: match s' with
               | String d s'' => if decide (d = NEWLINE) then py_lines s'' EmptyString else py_lines s' EmptyString
               | EmptyString => []
               end
      else py_lines s' (push_back cur c)
  end.

Fixpoint all_digits (s : string) : bool :=
  match s with EmptyString => true | String c s' => is_digit c && all_digits s' end.

(** [int(s)] of a text without underscores; [None] for [ValueError]. *)
Definition py_int (s : string) : option Z :=
  let s := strip s in
  let '(neg, s) := match s with
                   | String c s' => if decide (c = "-"%char) then (true, s') else if decide (c = "+"%char) then (false, s') else (false, s)
                   | EmptyString => (false, s)
                   end in
  match s with
  | EmptyString => None
  | _ => if all_digits s then Some (if neg : bool then - read_digits 0 s else read_digits 0 s) else None
  end.

(** [s.replace('.txt', '')] *)
Fixpoint remove_txt (s : string) : string :=
  match s with
  | String "." (String "t" (String "x" (String "t" s'))) => remove_txt s'
  | String c s' => String c (remove_txt s')
  | EmptyString => EmptyString
  end.

(** [s[n:]] *)
Fixpoint skip (n : nat) (s : string) : string :=
  match n, s with S n', String _ s' => skip n' s' | _, _ => s end.

Fixpoint ends_with (p s : string) : bool :=
  bool_decide (s = p) || match s with String _ s' => ends_with p s' | EmptyString => false end.

(** ** The files *)

(** The digest, the shape and the type of a tensor. *)
Definition entry : Type := string * string * string.

(** [f.write(f"{key},{md5_hash},{shape_str},{dtype_str}\n")] *)
Definition entry_line (k : string) (e : entry) : string :=
  let '(md5_hash, shape, dtype) := e in
  (k ++ String COMMA (md5_hash ++ String COMMA (shape ++ String COMMA (dtype ++ String NEWLINE EmptyString))))%string.

(** The two lines before the entries; [who] is the word of the writer. *)
Definition file_header (who : string) (iteration seq_id : Z) : string :=
  ("# " ++ who ++ " MD5 values - Iteration " ++ to_string iteration ++ ", Seq ID " ++ to_string seq_id ++ String NEWLINE
   ("# Format: tensor_key,md5_hash,shape,dtype" ++ String NEWLINE EmptyString))%string.

(** [f"{prefix}_iter{iteration}_seq{seq_id}.txt"] *)
Definition file_name (prefix : string) (iteration seq_id : Z) : string :=
  (prefix ++ "_iter" ++ to_string iteration ++ "_seq" ++ to_string seq_id ++ ".txt")%string.

(** The loop over the lines. *)
Definition parse_line (line : string) (md5_data : gmap string entry) : gmap string entry :=
  let line := strip line in
  if has_prefix "#" line || bool_decide (line = EmptyString) then md5_data
  else match py_split COMMA line EmptyString with
       | [tensor_key; md5_hash; shape; dtype] => <[tensor_key := (md5_hash, shape, dtype)]> md5_data
       | _ => md5_data
       end.

Definition parse_md5_file (file : option string) : gmap string entry :=
  match file with
  | None => ∅
  | Some text => foldl (fun m line => parse_line line m) ∅ (py_lines text EmptyString)
  end.

(** ** The directory *)

(** A directory; a path of it stands for the name of the file. *)
Abbreviation directory := (gmap string string).

Definition find_md5_files (dir : option directory) (pattern_prefix : string) : list string :=
  match dir with
  | None => []
  | Some d => merge_sort String.le (filter (fun n => has_prefix pattern_prefix n && ends_with ".txt" n = true) (map_to_list d).*1)
  end.

(** The parts of the name, in their order; [None] for the exception of [int]. *)
Fixpoint read_parts (parts : list string) (acc : option Z * option Z) : option (option Z * option Z) :=
  match parts with
  | [] => Some acc
  | part :: rest =>
      if has_prefix "iter" part then
        match py_int (skip 4 part) with Some n => read_parts rest (Some n, acc.2) | None => None end
      else if has_prefix "seq" part then
        match py_int (skip 3 part) with Some n => read_parts rest (acc.1, Some n) | None => None end
      else read_parts rest acc
  end.

Definition extract_iteration_and_seq (filename : string) : Z * Z :=
  match read_parts (py_split "_" (remove_txt filename) EmptyString) (None, None) with
  | Some (Some i, Some s) => (i, s)
  | _ => (-1, -1)
  end.

(** [train_files_dict], [infer_files_dict] *)
Definition files_dict (files : list string) : gmap (Z * Z) string :=
  foldl (fun m file_path =>
    let '(iteration, seq_id) := extract_iteration_and_seq file_path in
    if (0 <=? iteration) && (0 <=? seq_id) then <[(iteration, seq_id) := file_path]> m else m) ∅ files.

(** ** The comparison *)

Record comparison : Type := MkComparison {
  matched : Z;
  mismatched : Z;
  train_only_keys : list string;
  infer_only_keys : list string;
}.

Definition compare_md5_data (train_data infer_data : gmap string entry) : comparison :=
  let train_keys := dom train_data in
  let infer_keys := dom infer_data in
  let same := fun k => train_data !! k = infer_data !! k in
  let common_keys := elements (train_keys ∩ infer_keys) in
  MkComparison (Z.of_nat (length (filter same common_keys))) (Z.of_nat (length (filter (fun k => ~ same k) common_keys)))
    (elements (train_keys ∖ infer_keys)) (elements (infer_keys ∖ train_keys)).

Definition perfect (r : comparison) : bool :=
  (mismatched r =? 0) && bool_decide (train_only_keys r = []) && bool_decide (infer_only_keys r = []).

(** ** The script *)

Definition pair_le (p q : Z * Z) : Prop := p.1 < q.1 \/ p.1 = q.1 /\ p.2 <= q.2.
#[export] Instance pair_le_dec : RelDecision pair_le.
Proof. intros p q. unfold pair_le. apply _. Defined.

Definition file_of (dir : option directory) (m : gmap (Z * Z) string) (p : Z * Z) : gmap string entry :=
  parse_md5_file (match dir, m !! p with Some d, Some name => d !! name | _, _ => None end).

(** One pair of files: the results so far and the two totals. *)
Definition check_pair (dir : option directory) (train infer : gmap (Z * Z) string) (acc : list comparison * Z * Z) (p : Z * Z)
    : list comparison * Z * Z :=
  let '(overall_results, total_matched, total_mismatched) := acc in
  let train_data := file_of dir train p in
  let infer_data := file_of dir infer p in
  if bool_decide (train_data = ∅) || bool_decide (infer_data = ∅) then acc
  else
    let result := compare_md5_data train_data infer_data in
    (overall_results ++ [result], total_matched + matched result, total_mismatched + mismatched result).

(** The exit code of [main] for [--iteration]. *)
Definition verify_main (dir : option directory) (iteration : option Z) : Z :=
  let train_files := find_md5_files dir "train_md5" in
  let infer_files := find_md5_files dir "infer_md5" in
  if bool_decide (train_files = []) || bool_decide (infer_files = []) then 1
  else
    let train := files_dict train_files in
    let infer := files_dict infer_files in
    let common := elements (dom train ∩ dom infer) in
    let common := match iteration with Some i => filter (fun p => p.1 = i) common | None => common end in
    if bool_decide (common = []) then 1
    else
      let '(overall_results, total_matched, total_mismatched) :=
        foldl (check_pair dir train infer) ([], 0, 0) (merge_sort pair_le common) in
      let perfect_iterations := filter (fun r => perfect r = true) overall_results in
      if bool_decide (length perfect_iterations = length overall_results) && (total_mismatched =? 0) then 0 else 1.

(** ** Writing and reading a file *)

(** Characters that a field of a line may have. *)
Definition clean (c : ascii) : Prop := c <> COMMA /\ py_space c = false.
Definition clean_entry (k : string) (e : entry) : Prop :=
  let '(m, s, d) := e in
  all_chars clean k /\ has_prefix "#" k = false /\ all_chars clean m /\ all_chars clean s /\ all_chars clean d /\ d <> EmptyString.

Lemma space_ends c : py_space c = false -> c <> NEWLINE /\ c <> RETURN.
Proof. intros Hc. split; intros ->; discriminate Hc. Qed.

Lemma string_nil_app t : (EmptyString ++ t)%string = t.
Proof. done. Qed.

(** Texts with their first characters in front. *)
Ltac text_norm := repeat (rewrite ?string_app_assoc, ?string_app_cons, ?string_nil_app; cbn iota beta).

Lemma py_lines_line s t cur : all_chars (fun c => c <> NEWLINE /\ c <> RETURN) s ->
  py_lines (s ++ String NEWLINE t) cur = (cur ++ s)%string :: py_lines t EmptyString.
Proof.
  revert cur. induction s as [|c s IH]; intros cur; text_norm; cbn [py_lines].
  - intros _. rewrite decide_True by done. by rewrite string_app_nil.
  - intros [[H1 H2] Hs]. rewrite decide_False, decide_False by done. rewrite IH by done. by rewrite push_back_app.
Qed.

Lemma py_split_part d s t cur : all_chars (fun c => c <> d) s ->
  py_split d (s ++ String d t) cur = (cur ++ s)%string :: py_split d t EmptyString.
Proof.
  revert cur. induction s as [|c s IH]; intros cur; text_norm; cbn [py_split].
  - intros _. rewrite decide_True by done. by rewrite string_app_nil.
  - intros [H1 Hs]. rewrite decide_False by done. rewrite IH by done. by rewrite push_back_app.
Qed.

Lemma py_split_last d s cur : all_chars (fun c => c <> d) s -> py_split d s cur = [(cur ++ s)%string].
Proof.
  revert cur. induction s as [|c s IH]; intros cur; cbn [py_split].
  - by rewrite string_app_nil.
  - intros [H1 Hs]. rewrite decide_False by done. rewrite IH by done. by rewrite push_back_app.
Qed.

Lemma lstrip_id s : (forall c r, s = String c r -> py_space c = false) -> lstrip s = s.
Proof. destruct s as [|c s]; [done|]. intros Hc. cbn. by rewrite (Hc c s eq_refl). Qed.

(** What ends in a character that is no space is kept. *)
Lemma rstrip_id s t : all_chars (fun c => py_space c = false) t -> t <> EmptyString -> rstrip (s ++ t) = (s ++ t)%string.
Proof.
  intros Ht Hne. assert (rstrip t = t) as Et.
  { clear Hne. induction t as [|c t IH]; [done|]. destruct Ht as [Hc Ht]. cbn. rewrite IH by done. destruct t; [by rewrite Hc|done]. }
  induction s as [|c s IH]; [exact Et|]. rewrite string_app_cons. cbn. rewrite IH. destruct (s ++ t)%string eqn:E; [|done].
  destruct s; [by destruct t|done].
Qed.

Lemma strip_id s t : all_chars (fun c => py_space c = false) t -> t <> EmptyString ->
  (forall c r, (s ++ t)%string = String c r -> py_space c = false) -> strip (s ++ t) = (s ++ t)%string.
Proof. intros Ht Hne Hc. unfold strip. rewrite lstrip_id by done. by apply rstrip_id. Qed.

Lemma all_clean_space s : all_chars clean s -> all_chars (fun c => py_space c = false) s.
Proof. apply all_chars_impl. by intros c []. Qed.

Lemma all_clean_comma s : all_chars clean s -> all_chars (fun c => c <> COMMA) s.
Proof. apply all_chars_impl. by intros c []. Qed.

Definition fields (k : string) (e : entry) : string :=
  let '(m, s, d) := e in (k ++ String COMMA (m ++ String COMMA (s ++ String COMMA d)))%string.

Lemma parse_fields k e acc : clean_entry k e -> parse_line (fields k e) acc = <[k := e]> acc.
Proof.
  destruct e as [[m s] d]. intros (Hk & Hp & Hm & Hs & Hd & Hne). cbn [fields]. unfold parse_line.
  assert (E : strip (k ++ String COMMA (m ++ String COMMA (s ++ String COMMA d)))%string =
              (k ++ String COMMA (m ++ String COMMA (s ++ String COMMA d)))%string).
  { replace (k ++ String COMMA (m ++ String COMMA (s ++ String COMMA d)))%string
      with ((k ++ String COMMA (m ++ String COMMA (s ++ String COMMA EmptyString))) ++ d)%string
      by (by text_norm).
    apply strip_id; [by apply all_clean_space|done|]. intros c r. destruct k as [|c' k]; [by intros [= <- _]|].
    intros [= <- _]. by destruct Hk as [[_ ?] _]. }
  rewrite E. assert (has_prefix "#" (k ++ String COMMA (m ++ String COMMA (s ++ String COMMA d))) = false) as ->.
  { destruct k as [|c k]; [done|]. rewrite string_app_cons. exact Hp. }
  rewrite bool_decide_eq_false_2 by (by destruct k). cbn [orb].
  rewrite !py_split_part, py_split_last by (by apply all_clean_comma). done.
Qed.

Lemma fields_line k e : entry_line k e = (fields k e ++ String NEWLINE EmptyString)%string.
Proof. destruct e as [[m s] d]. cbn. by text_norm. Qed.

Lemma fields_no_end k e : clean_entry k e -> all_chars (fun c => c <> NEWLINE /\ c <> RETURN) (fields k e).
Proof.
  destruct e as [[m s] d]. intros (Hk & _ & Hm & Hs & Hd & _).
  assert (forall x, all_chars clean x -> all_chars (fun c => c <> NEWLINE /\ c <> RETURN) x) as Hc.
  { intros x. apply all_chars_impl. intros c []. by apply space_ends. }
  cbn [fields]. repeat first [apply all_chars_app; [by apply Hc|]|split; [done|]]. by apply Hc.
Qed.

Fixpoint entry_lines (l : list (string * entry)) : string :=
  match l with [] => EmptyString | (k, e) :: l' => (entry_line k e ++ entry_lines l')%string end.

Lemma parse_lines l acc : Forall (fun p => clean_entry p.1 p.2) l ->
  foldl (fun m line => parse_line line m) acc (py_lines (entry_lines l) EmptyString) = foldl (fun m p => <[p.1 := p.2]> m) acc l.
Proof.
  revert acc. induction l as [|[k e] l IH]; intros acc Hl; [done|]. apply Forall_cons in Hl as [He Hl]. cbn [entry_lines].
  rewrite fields_line. text_norm. rewrite py_lines_line by (by apply fields_no_end).
  cbn [foldl fst snd]. rewrite string_nil_app, parse_fields by done. by apply IH.
Qed.

(** The header is skipped. *)
Lemma parse_header who i s t acc : all_chars (fun c => c <> NEWLINE /\ c <> RETURN) who ->
  foldl (fun m line => parse_line line m) acc (py_lines (file_header who i s ++ t) EmptyString) =
  foldl (fun m line => parse_line line m) acc (py_lines t EmptyString).
Proof.
  intros Hw. assert (forall z, all_chars (fun c => c <> NEWLINE /\ c <> RETURN) (to_string z)) as Hz.
  { intros z. destruct (to_string_chars z) as [Hc _]. revert Hc. apply all_chars_impl. intros c Hc. split; by apply (int_char_not c). }
  unfold file_header.
  set (a := ("# " ++ who ++ " MD5 values - Iteration " ++ to_string i ++ ", Seq ID " ++ to_string s)%string).
  set (b := "# Format: tensor_key,md5_hash,shape,dtype"%string).
  replace (("# " ++ who ++ " MD5 values - Iteration " ++ to_string i ++ ", Seq ID " ++ to_string s ++
      String NEWLINE (b ++ String NEWLINE EmptyString)) ++ t)%string
    with (a ++ String NEWLINE (b ++ String NEWLINE t))%string.
  2: { unfold a. by text_norm. }
  rewrite py_lines_line, py_lines_line.
  2: { unfold b. cbn. by repeat split. }
  2: { unfold a. repeat first [apply all_chars_app; [done || (cbn; by repeat split)|]]. done. }
  cbn [foldl]. rewrite !string_nil_app. f_equal. unfold parse_line at 1 2.
  assert (has_prefix "#" (strip b) = true) as -> by done. cbn [orb].
  assert (has_prefix "#" (strip a) = true) as ->; [|done].
  assert (exists r, strip a = String "#" r) as [r ->]; [|done].
  unfold a, strip. text_norm. cbn [lstrip]. change (py_space "#") with false. cbn iota. cbn [rstrip].
  destruct (rstrip _); by eexists.
Qed.

(** What is written is read. *)
Lemma parse_written (who : string) (iteration seq_id : Z) (l : list (string * entry)) :
  all_chars (fun c => c <> NEWLINE /\ c <> RETURN) who -> Forall (fun p => clean_entry p.1 p.2) l ->
  parse_md5_file (Some (file_header who iteration seq_id ++ entry_lines l)%string) = list_to_map (reverse l).
Proof.
  intros Hw Hl. cbn [parse_md5_file]. rewrite parse_header, parse_lines by done. clear Hl.
  rewrite <- (reverse_involutive l) at 1. induction (reverse l) as [|p l' IH]; [done|].
  rewrite reverse_cons, foldl_app. cbn [foldl]. rewrite IH. by destruct p.
Qed.

(** ** Names *)

Lemma digit_no_space c : is_digit c -> py_space c = false.
Proof.
  unfold is_digit, py_space. intros Hc%Is_true_true. apply andb_true_iff in Hc as [H1%Nat.leb_le H2%Nat.leb_le].
  apply orb_false_iff. split; [apply orb_false_iff; split; [apply orb_false_iff; split|]|]; rewrite ?andb_false_iff, ?Nat.leb_gt, ?Nat.eqb_neq; lia.
Qed.

Lemma py_int_digits s : all_chars (fun c => is_digit c) s -> s <> EmptyString ->
  py_int s = Some (read_digits 0 s) /\ py_int (String "-" s) = Some (- read_digits 0 s).
Proof.
  intros Hs Hne.
  assert (all_chars (fun c => py_space c = false) s) as Hsp by (eapply all_chars_impl; [apply digit_no_space|done]).
  assert (all_digits s = true) as Hd.
  { clear -Hs. induction s as [|c s IH]; [done|]. destruct Hs as [Hc Hs]. cbn. rewrite IH by done. by destruct (is_digit c). }
  pose proof (strip_id EmptyString s Hsp Hne) as E1. pose proof (strip_id "-" s Hsp Hne) as E2.
  rewrite string_nil_app in E1. change ("-" ++ s)%string with (String "-" s) in E2. unfold py_int.
  rewrite E2 by (by intros c r [= <- _]).
  rewrite E1 by (intros c r ->; apply Hsp). destruct s as [|c s]; [done|]. rewrite (decide_True (P := "-"%char = "-"%char)) by done.
  rewrite Hd. split; [|done]. rewrite !decide_False; [by rewrite Hd|..]; intros ->; destruct Hs as [Hc _]; vm_compute in Hc; exact Hc.
Qed.

Lemma py_int_to_string z : py_int (to_string z) = Some z.
Proof.
  unfold to_string. destruct z as [|p|p]; [reflexivity|..].
  - change (pretty (Z.pos p)) with (pretty (N.pos p)). destruct (pretty_N_spec (N.pos p)) as (H1 & H2 & H3).
    rewrite (proj1 (py_int_digits _ H1 H2)), H3. done.
  - change (pretty (Z.neg p)) with (String "-" (pretty (N.pos p))). destruct (pretty_N_spec (N.pos p)) as (H1 & H2 & H3).
    rewrite (proj2 (py_int_digits _ H1 H2)), H3. done.
Qed.

Lemma remove_txt_char c s : c <> "."%char -> remove_txt (String c s) = String c (remove_txt s).
Proof. destruct c as [[] [] [] [] [] [] [] []]; done. Qed.

Lemma remove_txt_name s : all_chars (fun c => c <> "."%char) s -> remove_txt (s ++ ".txt") = s.
Proof.
  induction s as [|c s IH]; [done|]. intros [Hc Hs]. rewrite string_app_cons, remove_txt_char by done. by rewrite IH.
Qed.

Lemma to_string_not z d : is_digit d = false -> d <> "-"%char -> all_chars (fun c => c <> d) (to_string z).
Proof. intros H1 H2. destruct (to_string_chars z) as [Hc _]. revert Hc. apply all_chars_impl. intros c Hc. by apply int_char_not. Qed.

Definition script_prefix (prefix : string) : Prop := prefix = "train_md5"%string \/ prefix = "infer_md5"%string.

(** The name of a file says which iteration and sequence it is of. *)
Lemma extract_file_name prefix i s : script_prefix prefix -> extract_iteration_and_seq (file_name prefix i s) = (i, s).
Proof.
  intros Hp. unfold extract_iteration_and_seq.
  assert (exists a, all_chars (fun c => c <> "."%char /\ c <> "_"%char) a /\ prefix = (a ++ "_md5")%string /\
            has_prefix "iter" a = false /\ has_prefix "seq" a = false) as (a & Ha & -> & Hi & Hs).
  { destruct Hp as [-> | ->]; [exists "train"%string|exists "infer"%string]; cbn; by repeat split. }
  unfold file_name. replace ((a ++ "_md5") ++ "_iter" ++ to_string i ++ "_seq" ++ to_string s ++ ".txt")%string
    with ((a ++ "_md5_iter" ++ to_string i ++ "_seq" ++ to_string s) ++ ".txt")%string by (by text_norm).
  rewrite remove_txt_name.
  2: { apply all_chars_app; [by eapply all_chars_impl; [|exact Ha]; intros c []|].
       repeat first [apply all_chars_app; [first [by apply to_string_not|cbn; by repeat split]|]]. by apply to_string_not. }
  change ("_md5_iter" ++ to_string i ++ "_seq" ++ to_string s)%string
    with (String "_" ("md5" ++ String "_" (("iter" ++ to_string i) ++ String "_" ("seq" ++ to_string s)))).
  rewrite py_split_part by (by eapply all_chars_impl; [|exact Ha]; intros c []).
  rewrite py_split_part by (cbn; by repeat split).
  rewrite py_split_part by (apply all_chars_app; [cbn; by repeat split|by apply to_string_not]).
  rewrite py_split_last by (apply all_chars_app; [cbn; by repeat split|by apply to_string_not]).
  rewrite !string_nil_app. cbn [read_parts]. rewrite Hi, Hs. change (has_prefix "iter" "md5") with false. change (has_prefix "seq" "md5") with false.
  cbn iota. change (has_prefix "iter" ("iter" ++ to_string i)) with true. change (skip 4 ("iter" ++ to_string i)) with (to_string i).
  cbn iota. rewrite py_int_to_string. change (has_prefix "iter" ("seq" ++ to_string s)) with false.
  change (has_prefix "seq" ("seq" ++ to_string s)) with true. change (skip 3 ("seq" ++ to_string s)) with (to_string s).
  cbn iota. by rewrite py_int_to_string.
Qed.

(** ** The exit code *)

Lemma files_dict_sound l p n : files_dict l !! p = Some n -> n ∈ l /\ extract_iteration_and_seq n = p.
Proof.
  unfold files_dict. rewrite <- (reverse_involutive l). induction (reverse l) as [|x l' IH]; [done|].
  rewrite reverse_cons, foldl_app. cbn [foldl]. destruct (extract_iteration_and_seq x) as [i s] eqn:E. intros Hp.
  rewrite elem_of_app. destruct ((0 <=? i) && (0 <=? s)).
  - apply lookup_insert_Some in Hp as [[<- <-]|[_ Hp]]; [split; [right; by left|done]|]. destruct (IH Hp). by split; [left|].
  - destruct (IH Hp). by split; [left|].
Qed.

Lemma files_dict_complete l n i s : n ∈ l -> extract_iteration_and_seq n = (i, s) -> 0 <= i -> 0 <= s -> is_Some (files_dict l !! (i, s)).
Proof.
  intros Hn E Hi Hs. unfold files_dict. rewrite <- (reverse_involutive l) in Hn |- *. induction (reverse l) as [|x l' IH].
  { by apply not_elem_of_nil in Hn. }
  rewrite reverse_cons in Hn |- *. rewrite foldl_app. cbn [foldl]. destruct (extract_iteration_and_seq x) as [i' s'] eqn:E'.
  apply elem_of_app in Hn as [Hn|Hn%list_elem_of_singleton].
  - destruct (_ && _); [|by apply IH]. destruct (decide ((i', s') = (i, s))) as [->|Hne]; [by rewrite lookup_insert_eq|].
    rewrite lookup_insert_ne by done. by apply IH.
  - subst. rewrite E in E'. injection E' as <- <-. rewrite !(proj2 (Z.leb_le _ _)) by done. cbn. by rewrite lookup_insert_eq.
Qed.

Lemma compare_perfect train infer : perfect (compare_md5_data train infer) = true <-> train = infer.
Proof.
  unfold perfect, compare_md5_data. cbn [mismatched train_only_keys infer_only_keys].
  rewrite !andb_true_iff, !bool_decide_eq_true, Z.eqb_eq. split.
  - intros [[Hm Ht] Hi]. apply map_eq. intros k.
    assert (dom train ⊆ dom infer) as Hs1 by (apply elements_empty_inv in Ht; set_solver).
    assert (dom infer ⊆ dom train) as Hs2 by (apply elements_empty_inv in Hi; set_solver).
    destruct (decide (train !! k = infer !! k)) as [|Hne]; [done|]. exfalso.
    assert (k ∈ dom train) as Hk.
    { destruct (train !! k) as [e|] eqn:E; [by apply elem_of_dom|]. apply Hs2, elem_of_dom. by destruct (infer !! k). }
    assert (k ∈ filter (fun k => ~ train !! k = infer !! k) (elements (dom train ∩ dom infer))) as Hin.
    { apply list_elem_of_filter. split; [done|]. set_solver. }
    destruct (filter _ _); [by apply not_elem_of_nil in Hin|]. cbn in Hm. lia.
  - intros <-. split; [split|].
    + rewrite filter_none; [done|]. apply Forall_true. intros k Hk. by apply Hk.
    + replace (dom train ∖ dom train) with (∅ : gset string) by set_solver. apply elements_empty.
    + replace (dom train ∖ dom train) with (∅ : gset string) by set_solver. apply elements_empty.
Qed.

Definition pair_ok (dir : option directory) (train infer : gmap (Z * Z) string) (p : Z * Z) : Prop :=
  file_of dir train p = ∅ \/ file_of dir infer p = ∅ \/ file_of dir train p = file_of dir infer p.

Lemma check_pairs dir train infer l : exists rs m mm, foldl (check_pair dir train infer) ([], 0, 0) l = (rs, m, mm) /\ 0 <= mm /\
  (Forall (fun r => perfect r = true) rs -> mm = 0) /\ (Forall (fun r => perfect r = true) rs <-> Forall (pair_ok dir train infer) l).
Proof.
  rewrite <- (reverse_involutive l). induction (reverse l) as [|p l' (rs & m & mm & E & Hm & Hz & Hiff)].
  { exists [], 0, 0. cbn. split_and!; [done|lia|done|]. by split; intros _. }
  rewrite reverse_cons, foldl_app, E. cbn [foldl check_pair].
  assert (Forall (pair_ok dir train infer) (reverse l' ++ [p]) <-> Forall (pair_ok dir train infer) (reverse l') /\ pair_ok dir train infer p)
    as HF by (by rewrite Forall_app, Forall_singleton).
  unfold pair_ok at 3 in HF.
  destruct (bool_decide (file_of dir train p = ∅)) eqn:E1; cbn [orb].
  { apply bool_decide_eq_true in E1. exists rs, m, mm. split_and!; [done..|]. tauto. }
  destruct (bool_decide (file_of dir infer p = ∅)) eqn:E2; cbn [orb].
  { apply bool_decide_eq_true in E2. exists rs, m, mm. split_and!; [done..|]. tauto. }
  apply bool_decide_eq_false in E1, E2. set (r := compare_md5_data _ _). do 3 eexists. split; [reflexivity|].
  assert (0 <= mismatched r) by (cbn; lia). split; [lia|].
  assert (Forall (fun r => perfect r = true) (rs ++ [r]) <-> Forall (fun r => perfect r = true) rs /\ perfect r = true)
    as Hr by (by rewrite Forall_app, Forall_singleton).
  assert (perfect r = true <-> file_of dir train p = file_of dir infer p) as Hc by apply compare_perfect.
  split; [|tauto]. rewrite Forall_app, Forall_singleton.
  clear Hr. intros [Hrs Hr]. rewrite Hz by done. unfold perfect in Hr. apply andb_true_iff in Hr as [Hr _]. apply andb_true_iff in Hr as [Hr _].
    apply Z.eqb_eq in Hr. lia.
Qed.

Lemma all_filtered {A} (f : A -> bool) l : length (filter (fun x => f x = true) l) = length l <-> Forall (fun x => f x = true) l.
Proof.
  split.
  - intros Hl. induction l as [|x l IH]; [done|]. rewrite filter_cons in Hl. case_decide; cbn in Hl.
    + constructor; [done|]. apply IH. lia.
    + pose proof (length_filter (fun x => f x = true) l). lia.
  - intros Hl. by rewrite filter_all.
Qed.

(** For which directories the script reports success.  It exits with 0 if and only
    if there is a pair of files with one iteration and sequence, the one that is
    asked for, and every such pair agrees on all tensors, unless one of its files
    has no entry: such a pair is skipped and does not count as a failure.  Files
    of one side only do not count either.  Else it exits with 1. *)
Theorem verify_exit (dir : option directory) (iteration : option Z) :
  let train := files_dict (find_md5_files dir "train_md5") in
  let infer := files_dict (find_md5_files dir "infer_md5") in
  let selected p := p ∈ dom train ∩ dom infer /\ match iteration with Some i => p.1 = i | None => True end in
  (verify_main dir iteration = 0 <-> (exists p, selected p) /\ (forall p, selected p -> pair_ok dir train infer p)) /\
  (verify_main dir iteration = 0 \/ verify_main dir iteration = 1).
Proof.
  intros train infer selected. unfold verify_main. fold train infer.
  set (common := match iteration with Some i => filter _ (elements (dom train ∩ dom infer)) | None => _ end).
  assert (forall p, p ∈ common <-> selected p) as Hc.
  { intros p. unfold common, selected. destruct iteration as [i|]; [rewrite list_elem_of_filter|]; rewrite elem_of_elements; tauto. }
  destruct (bool_decide (find_md5_files dir "train_md5" = []) || bool_decide (find_md5_files dir "infer_md5" = [])) eqn:Ee.
  { split; [|by right]. split; [done|]. intros [[p Hp] _]. apply Hc in Hp as Hp'. destruct Hp as [Hp _]. apply elem_of_intersection in Hp as [H1 H2].
    apply orb_true_iff in Ee as [Ee|Ee]; apply bool_decide_eq_true in Ee; unfold train, infer in *; rewrite Ee in *; set_solver. }
  destruct (bool_decide (common = [])) eqn:En.
  { apply bool_decide_eq_true in En. split; [|by right]. split; [done|]. intros [[p Hp] _]. apply Hc in Hp. rewrite En in Hp.
    by apply not_elem_of_nil in Hp. }
  apply bool_decide_eq_false in En. destruct (check_pairs dir train infer (merge_sort pair_le common)) as (rs & m & mm & -> & Hm & Hz & Hiff).
  assert (bool_decide (length (filter (fun r => perfect r = true) rs) = length rs) && (mm =? 0) = true <-> Forall (pair_ok dir train infer) common) as Hex.
  { assert (Forall (pair_ok dir train infer) (merge_sort pair_le common) <-> Forall (pair_ok dir train infer) common) as Hp
      by (by rewrite merge_sort_Permutation).
    rewrite andb_true_iff, bool_decide_eq_true, Z.eqb_eq, all_filtered. tauto. }
  split; [|destruct (_ && _); tauto]. transitivity (Forall (pair_ok dir train infer) common).
  - rewrite <- Hex. destruct (_ && _); split; (done || lia).
  - rewrite Forall_forall. split.
    + intros Hall. split; [|intros p Hp; by apply Hall, Hc]. destruct common as [|p l]; [done|]. exists p. apply Hc. left.
    + intros [_ Hall] p Hp. by apply Hall, Hc.
Qed.

(** ** Directories of written files *)

Lemma ends_with_app s p : ends_with p (s ++ p) = true.
Proof.
  induction s as [|c s IH]; [rewrite string_nil_app; destruct p; cbn; by rewrite bool_decide_eq_true_2|].
  rewrite string_app_cons. cbn [ends_with]. rewrite IH. apply orb_true_r.
Qed.

Lemma prefix_of_app p s : has_prefix p (p ++ s) = true.
Proof. induction p as [|c p IH]; [done|]. rewrite string_app_cons. cbn. by rewrite bool_decide_eq_true_2, IH. Qed.

Lemma elem_of_md5_files d prefix n : n ∈ find_md5_files (Some d) prefix <-> is_Some (d !! n) /\ has_prefix prefix n = true /\ ends_with ".txt" n = true.
Proof.
  cbn [find_md5_files]. rewrite merge_sort_Permutation, list_elem_of_filter, andb_true_iff, list_elem_of_fmap.
  split.
  - intros [Hp ([k t] & -> & Hin%elem_of_map_to_list)]. split; [by eexists|done].
  - intros [[t Ht] Hp]. split; [done|]. exists (n, t). split; [done|]. by apply elem_of_map_to_list.
Qed.

(** If the files with a prefix are those of a set of iterations and sequences, the
    dictionary finds them. *)
Lemma files_dict_names (d : directory) (prefix : string) (S : Z * Z -> Prop) : script_prefix prefix ->
  (forall n, is_Some (d !! n) -> has_prefix prefix n = true -> exists p, S p /\ n = file_name prefix p.1 p.2) ->
  (forall p, S p -> 0 <= p.1 /\ 0 <= p.2 /\ is_Some (d !! file_name prefix p.1 p.2)) ->
  forall p, S p <-> files_dict (find_md5_files (Some d) prefix) !! p = Some (file_name prefix p.1 p.2).
Proof.
  intros Hp Hn HS p. split.
  - intros Hs. destruct (HS p Hs) as (Hi & Hq & Hd).
    assert (file_name prefix p.1 p.2 ∈ find_md5_files (Some d) prefix) as Hin.
    { apply elem_of_md5_files. split; [done|]. split; [apply prefix_of_app|]. unfold file_name.
      replace (prefix ++ "_iter" ++ to_string p.1 ++ "_seq" ++ to_string p.2 ++ ".txt")%string
        with ((prefix ++ "_iter" ++ to_string p.1 ++ "_seq" ++ to_string p.2) ++ ".txt")%string by (by text_norm). apply ends_with_app. }
    destruct (files_dict_complete _ _ p.1 p.2 Hin) as [n Hl]; [by apply extract_file_name|done..|]. rewrite <- surjective_pairing in Hl.
    rewrite Hl. f_equal. apply files_dict_sound in Hl as [Hin' Ex]. apply elem_of_md5_files in Hin' as (Hn' & Hpre & _).
    destruct (Hn n Hn' Hpre) as (q & _ & ->). rewrite extract_file_name in Ex by done. by rewrite <- Ex.
  - intros Hl. apply files_dict_sound in Hl as [Hin _]. apply elem_of_md5_files in Hin as (Hn' & Hpre & _).
    destruct (Hn _ Hn' Hpre) as (q & Hq & E). apply (f_equal extract_iteration_and_seq) in E. rewrite !extract_file_name in E by done.
    rewrite <- !surjective_pairing in E. by rewrite E.
Qed.
