(* ===== verification/ExampleRuns.v ===== *)
(** * The example runs

    python/example/train.py puts a set of tensors again and again, python/example/infer.py
    reads it in shards, and both write digests that verify_md5.py compares
    (Md5Verify.v).  The file has the tensors, the shards, the digests and the
    loops of the two scripts on the Python interface of a table (PyApi.v).

    PyTorch, MD5 and the table are interfaces.  Times, sleeps and log lines are
    left out; the elapsed times by which the scripts divide are not zero.

    The theorem shows that the check is right: after a run of both scripts the
    comparison succeeds if and only if every element of every shard that was
    received is the element of the trainer. *)

From S2P Require Import Prelude StringUtils Tensor ShardedOps Convert PyApi Md5Verify.
Local Open Scope Z_scope.

(** ** PyTorch *)

Class PyTorch (T E : Type) : Type := {
  py_zeros : list Z -> pyres T; (* torch.zeros(h, w, dtype=torch.float32) *)
  py_zeros_as : list Z -> T -> pyres T; (* torch.zeros(shape, dtype=x.dtype, device=x.device) *)
  py_zero_ : T -> T;
  py_setitem : T -> list (Z * Z) -> T -> pyres T; (* x[slice(a, b), ...] = y *)
  py_shape : T -> list Z;
  py_dtype : T -> string; (* str(x.dtype) *)
  py_md5 : T -> pyres string; (* md5(x.detach().cpu().numpy().tobytes()).hexdigest() *)
  py_elem : T -> list Z -> E;
}.

Definition FLOAT32 : string := "torch.float32".
Definition shifted (c off : list Z) : list Z := zip_with Z.sub c off.

(** [slice(offset, offset + size)] for every dimension. *)
Definition slices (offset size : list Z) : list (Z * Z) := zip_with (fun o s => (o, o + s)) offset size.

Class PyTorchLaws (T E : Type) `{PyTorch T E} : Prop := {
  zeros_law s : Forall (fun d => 0 <= d) s -> exists x, py_zeros s = Ret x /\ py_shape x = s /\ py_dtype x = FLOAT32;
  zeros_as_law s x : Forall (fun d => 0 <= d) s -> exists y, py_zeros_as s x = Ret y /\ py_shape y = s /\ py_dtype y = py_dtype x;
  zero_law x : py_shape (py_zero_ x) = py_shape x /\ py_dtype (py_zero_ x) = py_dtype x;
  (* within the tensor, and without a conversion *)
  setitem_law x off y : Forall3 (fun g o s => 0 <= o /\ 0 <= s /\ o + s <= g) (py_shape x) off (py_shape y) -> py_dtype y = py_dtype x ->
    exists z, py_setitem x (slices off (py_shape y)) y = Ret z /\ py_shape z = py_shape x /\ py_dtype z = py_dtype x /\
      (forall c, in_box off (py_shape y) c -> py_elem z c = py_elem y (shifted c off)) /\
      (forall c, ~ in_box off (py_shape y) c -> py_elem z c = py_elem x c);
  md5_law x : py_dtype x = FLOAT32 -> exists m, py_md5 x = Ret m /\ all_chars clean m;
  md5_ext x y : py_shape x = py_shape y -> py_dtype x = py_dtype y ->
    (forall c, in_box (map (fun _ => 0) (py_shape x)) (py_shape x) c -> py_elem x c = py_elem y c) -> py_md5 x = py_md5 y;
}.

(** ** Tensors and shards *)

Record run_args : Type := MkRunArgs {
  a_iterations : Z;
  a_num_tensors : Z;
  a_height : Z;
  a_width : Z;
  a_seq_id : Z;
  a_md5_check : bool;
  a_shard_rows : Z;
  a_shard_cols : Z;
}.

Definition pad3 (s : string) : string :=
  match String.length s with 1%nat => ("00" ++ s)%string | 2%nat => ("0" ++ s)%string | _ => s end.

(** [f"tensor_{i:03d}"] *)
Definition tensor_key (i : Z) : string := ("tensor_" ++ pad3 (to_string i))%string.

Fixpoint py_map {A B} (f : A -> pyres B) (l : list A) : pyres (list B) :=
  match l with [] => Ret [] | x :: l' => y ← f x; ys ← py_map f l'; Ret (y :: ys) end.

(** The key and the sizes of a shard. *)
Definition shard_spec (a : run_args) (idx row col : Z) : ShardedKey * list Z :=
  let shard_height := a_height a / a_shard_rows a in
  let shard_width := a_width a / a_shard_cols a in
  let actual_height := if row <? a_shard_rows a - 1 then shard_height else a_height a - row * shard_height in
  let actual_width := if col <? a_shard_cols a - 1 then shard_width else a_width a - col * shard_width in
  (MkShardedKey (tensor_key idx) [a_height a; a_width a] [row * shard_height; col * shard_width], [actual_height; actual_width]).

(** The shards of one tensor, row by row. *)
Definition tensor_specs (a : run_args) (idx : Z) : list (ShardedKey * list Z) :=
  row ← seqZ 0 (a_shard_rows a); col ← seqZ 0 (a_shard_cols a); [shard_spec a idx row col].

Section Runs.
  Context {T E W : Type} `{PyTorch T E} `{CoreTable T W}.
  Context (numel : T -> pyres Z).

(** [rand i] is what the i-th [torch.randn] returns. *)
Definition create_test_tensors (rand : Z -> pyres T) (a : run_args) : pyres (list (ShardedKey * pyobj T)) :=
  py_map (fun i => x ← rand i; Ret (MkShardedKey (tensor_key i) [a_height a; a_width a] [0; 0], PyTensor x)) (seqZ 0 (a_num_tensors a)).

Definition create_empty_tensors (a : run_args) : pyres (list (ShardedKey * pyobj T)) :=
  if (a_shard_rows a =? 0) || (a_shard_cols a =? 0) then Raise OtherError (* ZeroDivisionError *)
  else py_map (fun spec : ShardedKey * list Z => x ← py_zeros spec.2; Ret (spec.1, PyTensor x))
         (idx ← seqZ 0 (a_num_tensors a); tensor_specs a idx).

(** An attribute of what should be a tensor. *)
Definition get_tensor_object (o : pyobj T) : pyres T := match o with PyTensor x => Ret x | _ => Raise AttributeError end.

Definition zero_tensors (l : list (ShardedKey * pyobj T)) : pyres (list (ShardedKey * pyobj T)) :=
  py_map (fun p : ShardedKey * pyobj T => x ← get_tensor_object p.2; Ret (p.1, PyTensor (py_zero_ x))) l.

(** ** The digests *)

(** ["x".join(map(str, shape))] *)
Definition shape_str (shape : list Z) : string := join "x" (map to_string shape).

(** Lines of a file, up to one that raises. *)
Fixpoint write_lines {A} (line : A -> pyres string) (l : list A) : string * pyres unit :=
  match l with
  | [] => (EmptyString, Ret tt)
  | x :: l' => match line x with
               | Ret s => let '(t, r) := write_lines line l' in ((s ++ t)%string, r)
               | Raise e => (EmptyString, Raise e)
               | Crash => (EmptyString, Crash)
               end
  end.

(** The trainer: a line for every tensor. *)
Definition train_line (p : ShardedKey * pyobj T) : pyres string :=
  x ← get_tensor_object p.2;
  md5_hash ← py_md5 x;
  Ret (entry_line (key p.1) (md5_hash, shape_str (py_shape x), py_dtype x)).

Definition train_write_md5 (l : list (ShardedKey * pyobj T)) (iteration seq_id : Z) (files : directory) : directory * pyres unit :=
  let '(text, r) := write_lines train_line l in
  (<[file_name "train_md5" iteration seq_id := (file_header "Trainer" iteration seq_id ++ text)%string]> files, r).

(** The inference node: the shards of a key are put together first. *)
Fixpoint add_group (p : ShardedKey * pyobj T) (groups : list (string * list (ShardedKey * pyobj T)))
    : list (string * list (ShardedKey * pyobj T)) :=
  match groups with
  | [] => [(key p.1, [p])]
  | (k, l) :: rest => if decide (k = key p.1) then (k, l ++ [p]) :: rest else (k, l) :: add_group p rest
  end.

Definition group_tensors (l : list (ShardedKey * pyobj T)) : list (string * list (ShardedKey * pyobj T)) :=
  foldl (fun g p => add_group p g) [] l.

Fixpoint place_shards_of (full : T) (l : list (ShardedKey * pyobj T)) : pyres T :=
  match l with
  | [] => Ret full
  | (k, o) :: l' =>
      x ← get_tensor_object o;
      full' ← py_setitem full (slices (global_offset k) (py_shape x)) x;
      place_shards_of full' l'
  end.

Definition reassemble (l : list (ShardedKey * pyobj T)) : pyres T :=
  match l with
  | [] => Raise OtherError (* IndexError *)
  | (k, o) :: _ => x ← get_tensor_object o; full ← py_zeros_as (global_shape k) x; place_shards_of full l
  end.

Definition infer_line (g : string * list (ShardedKey * pyobj T)) : pyres string :=
  full ← reassemble g.2;
  md5_hash ← py_md5 full;
  Ret (entry_line g.1 (md5_hash, shape_str (py_shape full), py_dtype full)).

Definition infer_write_md5 (l : list (ShardedKey * pyobj T)) (iteration seq_id : Z) (files : directory) : directory * pyres unit :=
  let '(text, r) := write_lines infer_line (group_tensors l) in
  (<[file_name "infer_md5" iteration seq_id := (file_header "Infer" iteration seq_id ++ text)%string]> files, r).

(** ** The loops *)

(** [for x in l]; [None] is a crash of the process. *)
Fixpoint iterate {A S : Type} (f : A -> S -> option S) (l : list A) (s : S) : option S :=
  match l with [] => Some s | x :: l' => s' ← f x s; iterate f l' s' end.

Record train_run : Type := MkTrainRun { tr_table : W; tr_files : directory; tr_successes : Z }.

(** One iteration; what is raised is caught and logged.  A success is counted
    after a line that divides by the number of tensors. *)
Definition train_iteration (a : run_args) (tensor_data : list (ShardedKey * pyobj T)) (iteration : Z) (s : train_run) : option train_run :=
  let seq := a_seq_id a + iteration in
  let '(files, written) := if a_md5_check a then train_write_md5 tensor_data iteration seq (tr_files s) else (tr_files s, Ret tt) in
  match written with
  | Crash => None
  | Raise _ => Some (MkTrainRun (tr_table s) files (tr_successes s))
  | Ret _ =>
      match py_multi_put numel seq tensor_data (tr_table s) with
      | (Crash, _) => None
      | (Raise _, w) => Some (MkTrainRun w files (tr_successes s))
      | (Ret success, w) =>
          match complete seq w with
          | (Crash, _) => None
          | (Raise _, w) => Some (MkTrainRun w files (tr_successes s))
          | (Ret _, w) => Some (MkTrainRun w files (tr_successes s + if success && negb (bool_decide (tensor_data = [])) then 1 else 0))
          end
      end
  end.

(** The exit code: no iteration at all is a division by zero. *)
Definition exit_code (successful_iterations num_iterations : Z) : Z :=
  if num_iterations =? 0 then 1 else if successful_iterations =? num_iterations then 0 else 1.

Definition train_main (table : pyres W) (rand : Z -> pyres T) (a : run_args) (files : directory) : option (Z * directory) :=
  match (w ← table; tensor_data ← create_test_tensors rand a; Ret (w, tensor_data)) with
  | Crash => None
  | Raise _ => Some (1, files)
  | Ret (w, tensor_data) =>
      s ← iterate (train_iteration a tensor_data) (seqZ 0 (a_iterations a)) (MkTrainRun w files 0);
      Some (exit_code (tr_successes s) (a_iterations a), tr_files s)
  end.

(** [ir_received]: what was read in the iterations in which [multi_get] returned. *)
Record infer_run : Type := MkInferRun {
  ir_table : W;
  ir_files : directory;
  ir_tensors : list (ShardedKey * pyobj T);
  ir_successes : Z;
  ir_received : list (Z * list (ShardedKey * pyobj T));
}.

(** A call of [multi_get] that raises may have written to the tensors; they are
    set to zero before they are looked at. *)
Definition infer_iteration (a : run_args) (iteration : Z) (s : infer_run) : option infer_run :=
  let seq := a_seq_id a + iteration in
  match zero_tensors (ir_tensors s) with
  | Crash => None
  | Raise _ => Some s
  | Ret zeroed =>
      match py_multi_get numel seq zeroed (ir_table s) with
      | Crash => None
      | Raise _ => Some (MkInferRun (ir_table s) (ir_files s) zeroed (ir_successes s) (ir_received s))
      | Ret tensor_data =>
          let received := ir_received s ++ [(iteration, tensor_data)] in
          let '(files, written) := if a_md5_check a then infer_write_md5 tensor_data iteration seq (ir_files s) else (ir_files s, Ret tt) in
          match written with
          | Crash => None
          | Raise _ => Some (MkInferRun (ir_table s) files tensor_data (ir_successes s) received)
          | Ret _ =>
              match complete seq (ir_table s) with
              | (Crash, _) => None
              | (Raise _, w) => Some (MkInferRun w files tensor_data (ir_successes s) received)
              | (Ret _, w) =>
                  Some (MkInferRun w files tensor_data (ir_successes s + if bool_decide (tensor_data = []) then 0 else 1) received)
              end
          end
      end
  end.

(** An exception outside the loop ends the process with 1. *)
Definition infer_main (table : pyres W) (a : run_args) (files : directory)
    : option (Z * directory * list (Z * list (ShardedKey * pyobj T))) :=
  match (w ← table; tensor_data ← create_empty_tensors a; Ret (w, tensor_data)) with
  | Crash => None
  | Raise _ => Some (1, files, [])
  | Ret (w, tensor_data) =>
      s ← iterate (infer_iteration a) (seqZ 0 (a_iterations a)) (MkInferRun w files tensor_data 0 []);
      match complete (a_seq_id a) (ir_table s) with
      | (Crash, _) => None
      | (Raise _, _) => Some (1, ir_files s, ir_received s)
      | (Ret _, _) => Some (exit_code (ir_successes s) (a_iterations a), ir_files s, ir_received s)
      end
  end.
End Runs.

(** ** The shards partition the tensor *)

(** One dimension: piece [i] of [k] pieces of [n]. *)
Definition piece (n k i : Z) : Z * Z := (i * (n / k), if i <? k - 1 then n / k else n - i * (n / k)).

Lemma piece_range n k i : 1 <= k -> 0 <= n -> 0 <= i < k ->
  0 <= (piece n k i).1 /\ 0 <= (piece n k i).2 /\ (piece n k i).1 + (piece n k i).2 <= n.
Proof.
  intros Hk Hn Hi. cbn. assert (0 <= n / k) by (apply Z.div_pos; lia). assert (k * (n / k) <= n) by (apply Z.mul_div_le; lia).
  case_cmp; nia.
Qed.

Lemma piece_total n k y : 1 <= k -> 0 <= y < n -> exists i, 0 <= i < k /\ (piece n k i).1 <= y < (piece n k i).1 + (piece n k i).2.
Proof.
  intros Hk Hy. cbn. assert (0 <= n / k) by (apply Z.div_pos; lia). destruct (decide (n / k = 0)) as [E|E].
  { exists (k - 1). rewrite E, Z.ltb_irrefl. lia. }
  assert (0 <= y / (n / k)) by (apply Z.div_pos; lia). assert (n / k * (y / (n / k)) <= y) by (apply Z.mul_div_le; lia).
  assert (y < n / k * Z.succ (y / (n / k))) by (apply Z.mul_succ_div_gt; lia).
  exists (Z.min (y / (n / k)) (k - 1)). split; [lia|]. destruct (Z.min_spec (y / (n / k)) (k - 1)) as [[Hm ->]|[Hm ->]].
  - rewrite (proj2 (Z.ltb_lt _ _)) by lia. nia.
  - rewrite Z.ltb_irrefl. nia.
Qed.

Lemma piece_unique n k y i j : 1 <= k -> 0 <= n -> 0 <= i < k -> 0 <= j < k ->
  (piece n k i).1 <= y < (piece n k i).1 + (piece n k i).2 -> (piece n k j).1 <= y < (piece n k j).1 + (piece n k j).2 -> i = j.
Proof.
  intros Hk Hn Hi Hj. cbn. assert (0 <= n / k) by (apply Z.div_pos; lia). intros H1 H2.
  destruct (Z.lt_trichotomy i j) as [Hij|[->|Hij]]; [exfalso|done|exfalso].
  - rewrite (proj2 (Z.ltb_lt i _)) in H1 by lia. nia.
  - rewrite (proj2 (Z.ltb_lt j _)) in H2 by lia. nia.
Qed.

(** Every shard has elements. *)
Definition grid_ok (a : run_args) : Prop := 1 <= a_shard_rows a <= a_height a /\ 1 <= a_shard_cols a <= a_width a.

Lemma in_box_2 o1 o2 s1 s2 c : in_box [o1; o2] [s1; s2] c <-> exists y x, c = [y; x] /\ o1 <= y < o1 + s1 /\ o2 <= x < o2 + s2.
Proof.
  split.
  - intros (y & c1 & -> & Hy & (x & c2 & -> & Hx & Hc)%in_box_cons)%in_box_cons. inversion Hc. eauto.
  - intros (y & x & -> & Hy & Hx). unfold in_box. do 2 (constructor; [done|]). constructor.
Qed.

Lemma elem_of_specs a idx p : p ∈ tensor_specs a idx <->
  exists row col, 0 <= row < a_shard_rows a /\ 0 <= col < a_shard_cols a /\ p = shard_spec a idx row col.
Proof.
  unfold tensor_specs. rewrite list_elem_of_bind. split.
  - intros (row & Hp & Hr). apply list_elem_of_bind in Hp as (col & Hp & Hc). apply list_elem_of_singleton in Hp.
    apply elem_of_seqZ_0 in Hr, Hc. eauto.
  - intros (row & col & Hr & Hc & ->). exists row. split; [|by apply elem_of_seqZ_0]. apply list_elem_of_bind. exists col.
    split; [by apply list_elem_of_singleton|by apply elem_of_seqZ_0].
Qed.

Lemma spec_box a idx row col c : in_box (global_offset (shard_spec a idx row col).1) (shard_spec a idx row col).2 c <-> exists y x, c = [y; x] /\
  (piece (a_height a) (a_shard_rows a) row).1 <= y < (piece (a_height a) (a_shard_rows a) row).1 + (piece (a_height a) (a_shard_rows a) row).2 /\
  (piece (a_width a) (a_shard_cols a) col).1 <= x < (piece (a_width a) (a_shard_cols a) col).1 + (piece (a_width a) (a_shard_cols a) col).2.
Proof. apply in_box_2. Qed.

(** Every shard lies in the tensor, every element is in a shard, and in one only. *)
Lemma specs_range a idx p : grid_ok a -> p ∈ tensor_specs a idx ->
  Forall3 (fun g o s => 0 <= o /\ 0 <= s /\ o + s <= g) [a_height a; a_width a] (global_offset p.1) p.2 /\ Forall (fun d => 0 <= d) p.2.
Proof.
  intros (Hr & Hc) (row & col & Hrow & Hcol & ->)%elem_of_specs.
  destruct (piece_range (a_height a) (a_shard_rows a) row) as (P1 & P2 & P3); [lia..|].
  destruct (piece_range (a_width a) (a_shard_cols a) col) as (Q1 & Q2 & Q3); [lia..|].
  split; [do 2 (constructor; [done|]); constructor|do 2 (constructor; [done|]); constructor].
Qed.

Lemma specs_total a idx c : grid_ok a -> in_box [0; 0] [a_height a; a_width a] c ->
  exists p, p ∈ tensor_specs a idx /\ in_box (global_offset p.1) p.2 c.
Proof.
  intros (Hr & Hc) (y & x & -> & Hy & Hx)%in_box_2.
  destruct (piece_total (a_height a) (a_shard_rows a) y ltac:(lia) ltac:(lia)) as (row & Hrow & Hy').
  destruct (piece_total (a_width a) (a_shard_cols a) x ltac:(lia) ltac:(lia)) as (col & Hcol & Hx').
  exists (shard_spec a idx row col). split; [apply elem_of_specs; eauto|]. apply spec_box. eauto 10.
Qed.

Lemma specs_unique a idx c p q : grid_ok a -> p ∈ tensor_specs a idx -> q ∈ tensor_specs a idx ->
  in_box (global_offset p.1) p.2 c -> in_box (global_offset q.1) q.2 c -> p = q.
Proof.
  intros (Hr & Hc) (row & col & Hrow & Hcol & ->)%elem_of_specs (row' & col' & Hrow' & Hcol' & ->)%elem_of_specs.
  intros (y & x & -> & Hy & Hx)%spec_box (y' & x' & [= <- <-] & Hy' & Hx')%spec_box.
  rewrite (piece_unique (a_height a) (a_shard_rows a) y row row'); [|lia..|done|done].
  by rewrite (piece_unique (a_width a) (a_shard_cols a) x col col'); [|lia..|done|done].
Qed.

Lemma spec_key_inj a idx row col row' col' : grid_ok a ->
  (shard_spec a idx row col).1 = (shard_spec a idx row' col').1 -> row = row' /\ col = col'.
Proof.
  intros (Hr & Hc) E. injection E as E1 E2. assert (0 < a_height a / a_shard_rows a) by (apply Z.div_str_pos; lia).
  assert (0 < a_width a / a_shard_cols a) by (apply Z.div_str_pos; lia). nia.
Qed.

Lemma specs_NoDup a idx : grid_ok a -> NoDup (tensor_specs a idx).*1.
Proof.
  intros Hg. apply NoDup_fmap_2_strong.
  - intros p q (row & col & _ & _ & ->)%elem_of_specs (row' & col' & _ & _ & ->)%elem_of_specs E. by destruct (spec_key_inj _ _ _ _ _ _ Hg E) as [-> ->].
  - unfold tensor_specs. apply NoDup_bind; [|intros row _; apply NoDup_bind; [|intros; apply NoDup_singleton|apply NoDup_seqZ]|apply NoDup_seqZ].
    + intros row row' p _ _ (col & ->%list_elem_of_singleton & _)%list_elem_of_bind (col' & E%list_elem_of_singleton & _)%list_elem_of_bind.
      apply (f_equal fst) in E. by destruct (spec_key_inj _ _ _ _ _ _ Hg E).
    + intros col col' p _ _ ->%list_elem_of_singleton E%list_elem_of_singleton. apply (f_equal fst) in E. by destruct (spec_key_inj _ _ _ _ _ _ Hg E).
Qed.

(** ** Names of tensors *)

Lemma read_digits_zero s : read_digits 0 (String "0" s) = read_digits 0 s.
Proof. reflexivity. Qed.

Lemma pad3_digits s : all_chars (fun c => is_digit c) s -> all_chars (fun c => is_digit c) (pad3 s) /\ read_digits 0 (pad3 s) = read_digits 0 s.
Proof.
  intros Hs. unfold pad3. destruct (String.length s) as [|[|[|n]]]; [done|..|done].
  - change ("00" ++ s)%string with (String "0" (String "0" s)). rewrite !read_digits_zero. by repeat split.
  - change ("0" ++ s)%string with (String "0" s). rewrite read_digits_zero. by repeat split.
Qed.

Lemma nonneg_digits z : 0 <= z -> all_chars (fun c => is_digit c) (to_string z) /\ read_digits 0 (to_string z) = z.
Proof.
  intros Hz. unfold to_string. destruct z as [|p|p]; [done| |lia]. change (pretty (Z.pos p)) with (pretty (N.pos p)).
  destruct (pretty_N_spec (N.pos p)) as (H1 & _ & H3). by rewrite H3.
Qed.

Lemma tensor_key_inj i j : 0 <= i -> 0 <= j -> tensor_key i = tensor_key j -> i = j.
Proof.
  intros Hi Hj E. unfold tensor_key in E. apply (inj (String.append "tensor_")) in E.
  destruct (nonneg_digits i Hi) as [Di <-]. destruct (nonneg_digits j Hj) as [Dj <-].
  rewrite <- (proj2 (pad3_digits _ Di)), <- (proj2 (pad3_digits _ Dj)). by rewrite E.
Qed.

Lemma clean_int c : int_char c -> clean c.
Proof. intros [Hc| ->]; [|done]. split; [by apply (int_char_not c); [left|..]|by apply digit_no_space]. Qed.

Lemma tensor_key_clean i : 0 <= i -> all_chars clean (tensor_key i) /\ has_prefix "#" (tensor_key i) = false.
Proof.
  intros Hi. split; [|done]. apply all_chars_app; [cbn; by repeat split|]. destruct (nonneg_digits i Hi) as [Di _].
  eapply all_chars_impl; [|apply (pad3_digits _ Di)]. intros c Hc. apply clean_int. by left.
Qed.

Lemma shape_str_clean l : all_chars clean (shape_str l).
Proof.
  unfold shape_str. induction l as [|z l IH]; [done|].
  assert (all_chars clean (to_string z)) as Hz by (eapply all_chars_impl; [apply clean_int|apply to_string_chars]).
  destruct l as [|z' l]; [done|]. cbn [map join] in IH |- *. apply all_chars_app; [done|]. by split; [done|].
Qed.

(** ** Groups *)

Section Groups.
  Context {T : Type}.
Implicit Types (l : list (ShardedKey * pyobj T)) (g : list (string * list (ShardedKey * pyobj T))).

Lemma add_group_app p g g' : key p.1 ∉ g.*1 -> add_group p (g ++ g') = g ++ add_group p g'.
Proof.
  induction g as [|[k l] g IH]; [done|]. rewrite fmap_cons, not_elem_of_cons. intros [Hk Hg]. cbn. rewrite decide_False by (by intros ->). by rewrite IH.
Qed.

Lemma group_more k l0 l g : k ∉ g.*1 -> Forall (fun p => key p.1 = k) l -> foldl (fun g p => add_group p g) (g ++ [(k, l0)]) l = g ++ [(k, l0 ++ l)].
Proof.
  intros Hk. revert l0. induction l as [|p l IH]; intros l0 Hl; [by rewrite app_nil_r|]. apply Forall_cons in Hl as [Hp Hl]. cbn [foldl].
  rewrite add_group_app by (by rewrite Hp). cbn. rewrite decide_True by done. rewrite IH by done. by rewrite <- app_assoc.
Qed.

Lemma group_chunks g chunks : NoDup (g.*1 ++ chunks.*1) ->
  Forall (fun ch => ch.2 <> [] /\ Forall (fun p : ShardedKey * pyobj T => key p.1 = ch.1) ch.2) chunks ->
  foldl (fun g p => add_group p g) g (concat chunks.*2) = g ++ chunks.
Proof.
  revert g. induction chunks as [|[k l] chunks IH]; intros g Hd Hc; [by rewrite app_nil_r|]. apply Forall_cons in Hc as [[Hne Hl] Hc].
  cbn in Hne, Hl. rewrite !fmap_cons. cbn [concat fst snd]. rewrite foldl_app. destruct l as [|p l]; [done|]. apply Forall_cons in Hl as [Hp Hl]. cbn [foldl].
  assert (k ∉ g.*1) as Hk.
  { rewrite fmap_cons in Hd. cbn in Hd. apply NoDup_app in Hd as (_ & Hd & _). intros Hg. apply (Hd k Hg). left. }
  rewrite <- (app_nil_r g) at 1. rewrite add_group_app by (by rewrite Hp). cbn [add_group]. rewrite Hp.
  rewrite (group_more k [p] l g Hk Hl). cbn [app]. rewrite IH; [by rewrite <- app_assoc| |done].
  rewrite fmap_app, <- app_assoc. cbn. by rewrite fmap_cons in Hd.
Qed.
End Groups.

(** ** Putting shards together *)

Section Reassemble.
  Context {T E : Type} `{PyTorchLaws T E}.

(** What a shard is when it has been received. *)
Definition is_shard (spec : ShardedKey * list Z) (p : ShardedKey * pyobj T) : Prop :=
  p.1 = spec.1 /\ exists x, p.2 = PyTensor x /\ py_shape x = spec.2 /\ py_dtype x = FLOAT32.

Lemma place_spec specs l full : Forall2 is_shard specs l -> NoDup specs.*1 -> py_dtype full = FLOAT32 ->
  Forall (fun p => Forall3 (fun g o s => 0 <= o /\ 0 <= s /\ o + s <= g) (py_shape full) (global_offset p.1) p.2) specs ->
  exists y, place_shards_of full l = Ret y /\ py_shape y = py_shape full /\ py_dtype y = FLOAT32 /\
    (forall c, (forall p, p ∈ specs -> ~ in_box (global_offset p.1) p.2 c) -> py_elem y c = py_elem full c) /\
    (forall k x c, (k, PyTensor x) ∈ l -> in_box (global_offset k) (py_shape x) c ->
       (forall p, p ∈ specs -> in_box (global_offset p.1) p.2 c -> p.1 = k) -> py_elem y c = py_elem x (shifted c (global_offset k))).
Proof.
  intros Hl. revert full. induction Hl as [|spec p specs l Hp Hl IH]; intros full Hd Hf Hr.
  { exists full. split_and!; [done..|]. intros k x c Hin. by apply not_elem_of_nil in Hin. }
  rewrite fmap_cons in Hd. apply NoDup_cons in Hd as [Hn Hd]. apply Forall_cons in Hr as [Hr Hrs]. destruct p as [k o].
  destruct Hp as (Ek & x & Eo & Es & Et). cbn in Ek, Eo. subst k o. cbn [place_shards_of get_tensor_object mbind pyres_bind].
  rewrite <- Es in Hr. destruct (setitem_law full (global_offset spec.1) x Hr ltac:(congruence)) as (z & -> & Zs & Zt & Zin & Zout).
  cbn [mbind pyres_bind]. destruct (IH z Hd ltac:(congruence)) as (y & -> & Ys & Yt & Yout & Yin); [by rewrite Zs|].
  exists y. split; [done|]. split; [congruence|]. split; [done|]. split.
  - intros c Hc. rewrite Yout by (intros q Hq; apply Hc; by right). apply Zout. rewrite Es. apply Hc. left.
  - intros k x' c Hin Hb Hu. apply elem_of_cons in Hin as [[= -> ->]|Hin].
    + rewrite Yout; [by apply Zin|]. intros q Hq Hqb. apply Hn. rewrite <- (Hu q) by (done || by right). by apply list_elem_of_fmap_2.
    + apply Yin; [done..|]. intros q Hq. apply Hu. by right.
Qed.

(** The tensor of the shards of one key: it holds their elements. *)
Definition reassembled (a : run_args) (l : list (ShardedKey * pyobj T)) (full : T) : Prop :=
  py_shape full = [a_height a; a_width a] /\ py_dtype full = FLOAT32 /\
  forall k x c, (k, PyTensor x) ∈ l -> in_box (global_offset k) (py_shape x) c -> py_elem full c = py_elem x (shifted c (global_offset k)).

Lemma specs_nonempty a idx : grid_ok a -> tensor_specs a idx <> [].
Proof.
  intros [Hr Hc] Hn. assert (shard_spec a idx 0 0 ∈ tensor_specs a idx) as Hin by (apply elem_of_specs; exists 0, 0; split_and!; lia || done).
  rewrite Hn in Hin. by apply not_elem_of_nil in Hin.
Qed.

Lemma shard_spec_of a idx l k o : Forall2 is_shard (tensor_specs a idx) l -> (k, o) ∈ l ->
  exists spec x, spec ∈ tensor_specs a idx /\ k = spec.1 /\ o = PyTensor x /\ py_shape x = spec.2 /\ py_dtype x = FLOAT32.
Proof.
  intros Hl Hin. destruct (Forall2_elem_r _ _ _ _ Hl Hin) as (spec & Hs & Hk & x & Ho & Hx). by exists spec, x.
Qed.

Lemma reassemble_spec a idx l : grid_ok a -> Forall2 is_shard (tensor_specs a idx) l ->
  exists full, reassemble l = Ret full /\ reassembled a l full.
Proof.
  intros Hg Hl. destruct l as [|[k o] l']; [by apply Forall2_nil_inv_r, specs_nonempty in Hl|].
  destruct (shard_spec_of a idx _ k o Hl ltac:(left)) as (spec & x & Hs & -> & -> & Hx & Ht).
  cbn [reassemble get_tensor_object mbind pyres_bind].
  assert (global_shape spec.1 = [a_height a; a_width a]) as -> by (apply elem_of_specs in Hs as (row & col & _ & _ & ->); done).
  destruct (zeros_as_law [a_height a; a_width a] x) as (z & -> & Zs & Zt).
  { destruct Hg. repeat constructor; lia. }
  cbn [mbind pyres_bind]. destruct (place_spec (tensor_specs a idx) ((spec.1, PyTensor x) :: l') z Hl) as (y & Ey & Ys & Yt & _ & Yin).
  - by apply specs_NoDup.
  - congruence.
  - apply Forall_forall. intros p Hp. rewrite Zs. by apply (specs_range a idx p Hg).
  - exists y. split; [exact Ey|]. split; [congruence|]. split; [done|]. intros k x' c Hin Hb. apply Yin; [done..|].
    destruct (shard_spec_of a idx _ k (PyTensor x') Hl Hin) as (spec' & x2 & Hs' & -> & [= <-] & Hx' & _). rewrite Hx' in Hb.
    intros p Hp Hpb. f_equal. by apply (specs_unique a idx c).
Qed.

(** The line of a key. *)
Lemma infer_line_spec a idx l : grid_ok a -> Forall2 is_shard (tensor_specs a idx) l ->
  exists full m, reassembled a l full /\ py_md5 full = Ret m /\ all_chars clean m /\
    infer_line (tensor_key idx, l) = Ret (entry_line (tensor_key idx) (m, shape_str [a_height a; a_width a], FLOAT32)).
Proof.
  intros Hg Hl. destruct (reassemble_spec a idx l Hg Hl) as (full & E1 & Hf). destruct Hf as (Hs & Ht & Hel) eqn:Ef.
  destruct (md5_law full Ht) as (m & E2 & Hm). exists full, m. split; [done|]. split; [done|]. split; [done|].
  unfold infer_line. cbn [fst snd]. rewrite E1. cbn [mbind pyres_bind]. rewrite E2. cbn [mbind pyres_bind]. by rewrite Hs, Ht.
Qed.

(** The chunk of every tensor, and its entry. *)
Definition chunk_entry (a : run_args) (idx : Z) (l : list (ShardedKey * pyobj T)) (p : string * entry) : Prop :=
  Forall2 is_shard (tensor_specs a idx) l /\ infer_line (tensor_key idx, l) = Ret (entry_line p.1 p.2) /\
  exists full m, reassembled a l full /\ py_md5 full = Ret m /\ all_chars clean m /\
    p = (tensor_key idx, (m, shape_str [a_height a; a_width a], FLOAT32)).

Lemma shard_chunks a idxs l : Forall2 is_shard (idxs ≫= tensor_specs a) l ->
  exists chunks, l = concat chunks /\ Forall2 (fun idx ch => Forall2 is_shard (tensor_specs a idx) ch) idxs chunks.
Proof.
  revert l. induction idxs as [|idx idxs IH]; intros l Hl.
  { apply Forall2_nil_inv_l in Hl as ->. by exists []. }
  cbn in Hl. apply Forall2_app_inv_l in Hl as (l1 & l2 & H1 & H2 & ->). destruct (IH l2 H2) as (chunks & -> & Hc).
  exists (l1 :: chunks). split; [done|]. by constructor.
Qed.

Lemma write_lines_ok {A} (line : A -> pyres string) (l : list A) (es : list (string * entry)) :
  Forall2 (fun x e => line x = Ret (entry_line e.1 e.2)) l es -> write_lines line l = (entry_lines es, Ret tt).
Proof. induction 1 as [|x [k e] l es Hx _ IH]; [done|]. cbn. rewrite Hx, IH. done. Qed.

Lemma group_all (idxs : list Z) (chunks : list (list (ShardedKey * pyobj T))) a : grid_ok a -> NoDup idxs -> Forall (fun i => 0 <= i) idxs ->
  Forall2 (fun idx ch => Forall2 is_shard (tensor_specs a idx) ch) idxs chunks ->
  group_tensors (concat chunks) = zip_with (fun idx ch => (tensor_key idx, ch)) idxs chunks.
Proof.
  intros Hg Hd Hi Hc. set (g := zip_with _ _ _).
  assert (g.*2 = chunks /\ g.*1 = tensor_key <$> idxs) as [E2 E1].
  { subst g. clear Hd Hi. induction Hc as [|idx ch idxs chunks _ _ [IH1 IH2]]; [done|]. cbn. by rewrite IH1, IH2. }
  rewrite <- E2 at 1. apply (group_chunks []); cbn [app fmap list_fmap].
  - rewrite E1. apply NoDup_fmap_2_strong; [|done]. rewrite Forall_forall in Hi. intros i j Hin Hjn. by apply tensor_key_inj; apply Hi.
  - subst g. clear E1 E2 Hd Hi. induction Hc as [|idx ch idxs chunks Hch _ IH]; [constructor|]. constructor; [|exact IH]. cbn [fst snd]. split.
    + intros ->. by apply Forall2_nil_inv_r, specs_nonempty in Hch.
    + apply Forall_forall. intros [k o] Hin. destruct (shard_spec_of a idx ch k o Hch Hin) as (spec & x & Hs & -> & _).
      apply elem_of_specs in Hs as (row & col & _ & _ & ->). done.
Qed.

(** What the inference node writes about the shards of all tensors. *)
Lemma infer_text a l : grid_ok a -> Forall2 is_shard (seqZ 0 (a_num_tensors a) ≫= tensor_specs a) l ->
  exists chunks es, l = concat chunks /\ Forall3 (chunk_entry a) (seqZ 0 (a_num_tensors a)) chunks es /\
    write_lines infer_line (group_tensors l) = (entry_lines es, Ret tt).
Proof.
  intros Hg Hl. destruct (shard_chunks a _ l Hl) as (chunks & -> & Hc). exists chunks.
  assert (exists es, Forall3 (chunk_entry a) (seqZ 0 (a_num_tensors a)) chunks es) as (es & Hes).
  { clear Hl. induction Hc as [|idx ch idxs chunks Hch _ IH]; [exists []; constructor|]. destruct IH as (es & Hes).
    destruct (infer_line_spec a idx ch Hg Hch) as (full & m & Hf & Hm & Hcl & Hline). eexists. constructor; [|exact Hes].
    split; [done|]. split; [|by exists full, m]. exact Hline. }
  exists es. split; [done|]. split; [done|]. rewrite (group_all (seqZ 0 (a_num_tensors a)) chunks a Hg (NoDup_seqZ _ _)); [| |done].
  - apply write_lines_ok. clear Hl Hc. induction Hes as [|idx ch e idxs chunks es He _ IH]; [constructor|]. constructor; [|exact IH]. apply He.
  - apply Forall_forall. intros i Hi%elem_of_seqZ_0. lia.
Qed.
End Reassemble.

(** ** The loops *)

Lemma file_name_inj prefix i s i' s' : script_prefix prefix -> file_name prefix i s = file_name prefix i' s' -> i = i' /\ s = s'.
Proof.
  intros Hp E. apply (f_equal extract_iteration_and_seq) in E. rewrite !extract_file_name in E by done. by injection E.
Qed.

Lemma py_map_ok {A B} (f : A -> pyres B) (R : A -> B -> Prop) l : (forall x, x ∈ l -> exists y, f x = Ret y /\ R x y) ->
  exists ys, py_map f l = Ret ys /\ Forall2 R l ys.
Proof.
  induction l as [|x l IH]; intros Hf; [by exists []|]. destruct (Hf x ltac:(left)) as (y & Ey & Hy).
  destruct IH as (ys & Eys & Hys); [intros z Hz; apply Hf; by right|]. exists (y :: ys). cbn. rewrite Ey. cbn. rewrite Eys. cbn. split; [done|]. by constructor.
Qed.

Section Loops.
  Context {T E W : Type} `{PyTorchLaws T E} `{CoreTable T W}.
  Context (numel : T -> pyres Z) (a : run_args).
  Context (Hmd5 : a_md5_check a = true).

Definition train_name (i : Z) : string := file_name "train_md5" i (a_seq_id a + i).
Definition infer_name (i : Z) : string := file_name "infer_md5" i (a_seq_id a + i).

(** The trainer writes its file first, whatever the table does then. *)
Lemma train_iteration_files td text i s s' : write_lines train_line td = (text, Ret tt) -> train_iteration numel a td i s = Some s' ->
  tr_files s' = <[train_name i := (file_header "Trainer" i (a_seq_id a + i) ++ text)%string]> (tr_files s).
Proof.
  intros Ht. unfold train_iteration. rewrite Hmd5. unfold train_write_md5. rewrite Ht. fold (train_name i).
  destruct (py_multi_put _ _ _ _) as [[ok|e|] w]; [|by intros [= <-]|done]. destruct (complete _ w) as [[u|e|] w']; [by intros [= <-]|by intros [= <-]|done].
Qed.

Lemma train_loop td text its s s' : write_lines train_line td = (text, Ret tt) -> iterate (train_iteration numel a td) its s = Some s' ->
  (forall i, i ∈ its -> tr_files s' !! train_name i = Some (file_header "Trainer" i (a_seq_id a + i) ++ text)%string) /\
  (forall name, (forall i, i ∈ its -> name <> train_name i) -> tr_files s' !! name = tr_files s !! name).
Proof.
  intros Ht. revert s. induction its as [|i its IH]; intros s E1.
  { injection E1 as <-. split; [|done]. intros i Hi. by apply not_elem_of_nil in Hi. }
  cbn in E1. destruct (train_iteration numel a td i s) as [s1|] eqn:E2; [|done]. cbn in E1.
  pose proof (train_iteration_files td text i s s1 Ht E2) as Ef. destruct (IH s1 E1) as [Hin Hout]. split.
  - intros j Hj. destruct (decide (j ∈ its)) as [Hj'|Hj']; [by apply Hin|]. apply elem_of_cons in Hj as [->|Hj]; [|done].
    rewrite Hout, Ef; [by rewrite lookup_insert_eq|]. intros k Hk En. apply file_name_inj in En as [-> _]; [done|by left].
  - intros name Hn. rewrite Hout by (intros k Hk; apply Hn; by right). rewrite Ef, lookup_insert_ne; [done|]. apply not_eq_sym, Hn. left.
Qed.

(** A read keeps the keys, the shapes and the types of the tensors. *)
Definition keeps_shapes : Prop := forall seq l (w : W) b l', core_multi_get seq l w = (Ok b, l') ->
  Forall2 (fun p q => q.1 = p.1 /\ forall x : T, p.2 = Ok x -> exists y, q.2 = Ok y /\ py_shape y = py_shape x /\ py_dtype y = py_dtype x) l l'.

Definition all_specs : list (ShardedKey * list Z) := seqZ 0 (a_num_tensors a) ≫= tensor_specs a.

Lemma zero_shards specs l : Forall2 is_shard specs l -> exists z, zero_tensors l = Ret z /\ Forall2 is_shard specs z.
Proof.
  intros Hl. induction Hl as [|spec [k o] specs l (Ek & x & Eo & Es & Et) _ IH]; [by exists []|]. destruct IH as (z & Ez & Hz).
  cbn in Ek, Eo. subst o. exists ((k, PyTensor (py_zero_ x)) :: z). unfold zero_tensors in *. cbn. rewrite Ez. cbn. split; [done|].
  constructor; [|done]. split; [done|]. exists (py_zero_ x). destruct (zero_law x) as [-> ->]. by rewrite Es, Et.
Qed.

Lemma multi_get_shards specs seq z w l : keeps_shapes -> Forall2 is_shard specs z -> py_multi_get numel seq z w = Ret l -> Forall2 is_shard specs l.
Proof.
  intros Hk Hz Eg. unfold py_multi_get in Eg. destruct z as [|p z]; [by injection Eg as <-|]. set (zs := p :: z) in *. clearbody zs.
  destruct (_ ≫= _) as [seq'| |]; [|done..]. destruct (core_multi_get seq' (cpp_pairs zs) w) as [r pairs] eqn:Ec.
  destruct r as [b| |]; cbn in Eg; [|done..]. injection Eg as <-. apply Hk in Ec. clear -Hz Ec. revert pairs Ec.
  induction Hz as [|spec [k o] specs zs (Ek & x & Eo & Es & Et) _ IH]; intros pairs Ec; cbn in Ec.
  - apply Forall2_nil_inv_l in Ec as ->. constructor.
  - apply Forall2_cons_inv_l in Ec as ([k' r] & pairs' & [Ek' Hr] & Hp & ->). cbn in Ek, Eo, Ek', Hr. subst o. constructor; [|by apply IH].
    destruct (Hr x eq_refl) as (y & -> & Ys & Yt). split; [cbn; congruence|]. exists y. split; [done|]. by rewrite Ys, Yt.
Qed.

Definition infer_file (i : Z) (l : list (ShardedKey * pyobj T)) : string :=
  (file_header "Infer" i (a_seq_id a + i) ++ (write_lines infer_line (group_tensors l)).1)%string.

(** An iteration reads nothing, or reads shards and writes their file. *)
Lemma infer_iteration_spec i s s' : grid_ok a -> keeps_shapes -> Forall2 is_shard all_specs (ir_tensors s) ->
  infer_iteration numel a i s = Some s' -> Forall2 is_shard all_specs (ir_tensors s') /\
  (ir_received s' = ir_received s /\ ir_files s' = ir_files s \/
   exists l, ir_received s' = ir_received s ++ [(i, l)] /\ Forall2 is_shard all_specs l /\ ir_files s' = <[infer_name i := infer_file i l]> (ir_files s)).
Proof.
  intros Hg Hk Hs. unfold infer_iteration. destruct (zero_shards _ _ Hs) as (z & -> & Hz).
  destruct (py_multi_get numel (a_seq_id a + i) z (ir_table s)) as [l|e|] eqn:Eg; [|intros [= <-]; cbn; tauto|done].
  pose proof (multi_get_shards _ _ _ _ _ Hk Hz Eg) as Hl. rewrite Hmd5. unfold infer_write_md5.
  destruct (write_lines infer_line (group_tensors l)) as [text r] eqn:Ew.
  assert (infer_file i l = (file_header "Infer" i (a_seq_id a + i) ++ text)%string) as Ef by (unfold infer_file; by rewrite Ew).
  fold (infer_name i). rewrite <- Ef.
  destruct r as [u|e|]; [|intros [= <-]; cbn; eauto 10|done].
  destruct (complete (a_seq_id a + i) (ir_table s)) as [[u'|e|] w]; [|intros [= <-]; cbn; eauto 10|done]. intros [= <-]; cbn; eauto 10.
Qed.

Lemma infer_loop its s s' : grid_ok a -> keeps_shapes -> NoDup its -> Forall2 is_shard all_specs (ir_tensors s) ->
  iterate (infer_iteration numel a) its s = Some s' ->
  exists rec, ir_received s' = ir_received s ++ rec /\ Forall (fun r => r.1 ∈ its /\ Forall2 is_shard all_specs r.2) rec /\ NoDup rec.*1 /\
    (forall i l, (i, l) ∈ rec -> ir_files s' !! infer_name i = Some (infer_file i l)) /\
    (forall name, (forall i, i ∈ rec.*1 -> name <> infer_name i) -> ir_files s' !! name = ir_files s !! name).
Proof.
  intros Hg Hk. revert s. induction its as [|i its IH]; intros s Hd Hs E1.
  { injection E1 as <-. exists []. rewrite app_nil_r. split_and!; [done|constructor|constructor| |done]. intros i l Hi. by apply not_elem_of_nil in Hi. }
  apply NoDup_cons in Hd as [Hi Hd]. cbn in E1. destruct (infer_iteration numel a i s) as [s1|] eqn:E2; [|done]. cbn in E1.
  destruct (infer_iteration_spec i s s1 Hg Hk Hs E2) as [Hs1 Hc]. destruct (IH s1 Hd Hs1 E1) as (rec & Er & Hr & Hn & Hin & Hout).
  assert (Forall (fun r => r.1 ∈ i :: its /\ Forall2 is_shard all_specs r.2) rec) as Hr'.
  { eapply Forall_impl; [exact Hr|]. intros r [? ?]. split; [by right|done]. }
  destruct Hc as [[E3 E4]|(l & E3 & Hl & E4)]; [exists rec; rewrite <- E3, <- E4; by split_and!|].
  assert (i ∉ rec.*1) as Hnew.
  { intros (r & -> & Hx)%list_elem_of_fmap. rewrite Forall_forall in Hr. by apply Hi, Hr. }
  exists ((i, l) :: rec). split; [by rewrite Er, E3, <- app_assoc|]. split; [constructor; [split; [left|done]|done]|].
  split; [by apply NoDup_cons|]. split.
  - intros j l' [[= -> ->]|Hj]%elem_of_cons; [|by apply Hin]. rewrite Hout, E4; [by rewrite lookup_insert_eq|].
    intros k Hk' En. apply file_name_inj in En as [-> _]; [done|by right].
  - intros name Hname. rewrite Hout by (intros k Hk'; apply Hname; by right). rewrite E4, lookup_insert_ne; [done|]. apply not_eq_sym, Hname. left.
Qed.
End Loops.

(** ** The check is right *)

Section Check.
  Context {T E W : Type} `{PyTorchLaws T E} `{CoreTable T W}.
  Context (numel : T -> pyres Z) (a : run_args) (G : Z -> T).

Definition trainer_entry (i : Z) (e : string * entry) : Prop :=
  exists m, py_md5 (G i) = Ret m /\ all_chars clean m /\ e = (tensor_key i, (m, shape_str [a_height a; a_width a], FLOAT32)).

(** The elements of the shards with the key of tensor [idx] are those of [full]. *)
Definition holds (l : list (ShardedKey * pyobj T)) (idx : Z) (full : T) : Prop :=
  py_shape full = [a_height a; a_width a] /\ py_dtype full = FLOAT32 /\
  forall k x c, (k, PyTensor x) ∈ l -> key k = tensor_key idx -> in_box (global_offset k) (py_shape x) c ->
    py_elem full c = py_elem x (shifted c (global_offset k)).

Definition tensors_ok : Prop := forall i, 0 <= i < a_num_tensors a -> py_shape (G i) = [a_height a; a_width a] /\ py_dtype (G i) = FLOAT32.

Lemma train_text : tensors_ok ->
  exists es, Forall2 trainer_entry (seqZ 0 (a_num_tensors a)) es /\
    write_lines train_line (map (fun i => (MkShardedKey (tensor_key i) [a_height a; a_width a] [0; 0], PyTensor (G i))) (seqZ 0 (a_num_tensors a))) =
      (entry_lines es, Ret tt).
Proof.
  intros Hok. assert (Forall (fun i => 0 <= i < a_num_tensors a) (seqZ 0 (a_num_tensors a))) as Hi by (apply Forall_forall; intros i; apply elem_of_seqZ_0).
  induction Hi as [|i idxs Hi _ (es & Hes & Ew)]; [by exists []|]. destruct (Hok i Hi) as [Hs Ht]. destruct (md5_law (G i) Ht) as (m & Em & Hm).
  eexists (_ :: es). split; [constructor; [by exists m|exact Hes]|]. cbn. rewrite Em. cbn. rewrite Ew. cbn. by rewrite Hs, Ht.
Qed.

(** Entries of both sides: their keys, and that they can be read back. *)
Lemma entries_clean (idxs : list Z) (es : list (string * entry)) : NoDup idxs -> Forall (fun i => 0 <= i) idxs ->
  Forall2 (fun i e => exists m, all_chars clean m /\ e = (tensor_key i, (m, shape_str [a_height a; a_width a], FLOAT32))) idxs es ->
  NoDup es.*1 /\ Forall (fun p => clean_entry p.1 p.2) es.
Proof.
  intros Hd Hi He. assert (es.*1 = tensor_key <$> idxs) as E1.
  { clear Hd Hi. induction He as [|i e idxs es (m & _ & ->) _ IH]; [done|]. cbn. by rewrite IH. }
  split.
  - rewrite E1. apply NoDup_fmap_2_strong; [|done]. rewrite Forall_forall in Hi. intros i j Hx Hy. by apply tensor_key_inj; apply Hi.
  - clear E1 Hd. induction He as [|i e idxs es (m & Hm & ->) _ IH]; [constructor|]. apply Forall_cons in Hi as [Hi0 Hi]. constructor; [|by apply IH].
    cbn. destruct (tensor_key_clean i Hi0). split_and!; try done. apply (shape_str_clean [a_height a; a_width a]).
Qed.

(** The parsed files of one iteration agree if and only if the digests do. *)
Lemma entries_agree (idxs : list Z) (et ei : list (string * entry)) : NoDup et.*1 -> NoDup ei.*1 ->
  Forall2 trainer_entry idxs et ->
  Forall2 (fun i e => exists m, e = (tensor_key i, (m, shape_str [a_height a; a_width a], FLOAT32))) idxs ei ->
  (list_to_map (reverse et) : gmap string entry) = list_to_map (reverse ei) <->
  Forall2 (fun i e => exists m, py_md5 (G i) = Ret m /\ e = (tensor_key i, (m, shape_str [a_height a; a_width a], FLOAT32))) idxs ei.
Proof.
  intros Hdt Hdi Ht Hi. split.
  - intros Em. assert (forall k e1 e2, (k, e1) ∈ et -> (k, e2) ∈ ei -> e1 = e2) as Hsame.
    { intros k e1 e2 H1' H2'.
      assert (forall es : list (string * entry), NoDup es.*1 -> forall e, (k, e) ∈ es -> (list_to_map (reverse es) : gmap string entry) !! k = Some e) as Hlk.
      { intros es Hd e He. apply elem_of_list_to_map_1; [by rewrite fmap_reverse, reverse_Permutation|by apply elem_of_reverse]. }
      pose proof (Hlk et Hdt e1 H1') as L1. pose proof (Hlk ei Hdi e2 H2') as L2. rewrite Em in L1. congruence. }
    clear Em Hdt Hdi. revert ei Hi Hsame. induction Ht as [|i e idxs et (m & Em & _ & ->) _ IH]; intros ei Hi Hsame.
    + apply Forall2_nil_inv_l in Hi as ->. constructor.
    + apply Forall2_cons_inv_l in Hi as (e & ei' & (m' & ->) & Hi & ->). constructor.
      * exists m'. split; [|done]. rewrite Em. do 2 f_equal.
        assert ((m, shape_str [a_height a; a_width a], FLOAT32) = (m', shape_str [a_height a; a_width a], FLOAT32)) as Ee by (apply (Hsame (tensor_key i)); left).
        congruence.
      * apply IH; [done|]. intros k e1 e2 H1' H2'. by apply (Hsame k e1 e2); right.
  - intros He. assert (et = ei) as ->; [|done]. clear Hdt Hdi Hi. revert ei He. induction Ht as [|i e idxs et (m & Em & _ & ->) _ IH]; intros ei He.
    + by apply Forall2_nil_inv_l in He as ->.
    + apply Forall2_cons_inv_l in He as (e & ei' & (m' & Em' & ->) & He & ->). rewrite (IH ei' He). rewrite Em in Em'. by injection Em' as ->.
Qed.

(** The directory after both runs: the files of the trainer for all iterations, and
    those of the inference node for the iterations in which it received. *)
Record run_files (et : list (string * entry)) (received : list (Z * list (ShardedKey * pyobj T))) (d : directory) : Prop := MkRunFiles {
  rf_train : forall i, 0 <= i < a_iterations a ->
    d !! train_name a i = Some (file_header "Trainer" i (a_seq_id a + i) ++ entry_lines et)%string;
  rf_infer : forall i l, (i, l) ∈ received -> 0 <= i < a_iterations a /\ Forall2 is_shard (all_specs a) l /\ d !! infer_name a i = Some (infer_file a i l);
  rf_only : forall n, is_Some (d !! n) -> (exists i, 0 <= i < a_iterations a /\ n = train_name a i) \/ (exists i l, (i, l) ∈ received /\ n = infer_name a i);
}.

Lemma train_infer_names i j : train_name a i <> infer_name a j.
Proof. discriminate. Qed.

Lemma create_test_tensors_ok rand : (forall i, 0 <= i < a_num_tensors a -> rand i = Ret (G i)) ->
  create_test_tensors rand a =
    Ret (map (fun i => (MkShardedKey (tensor_key i) [a_height a; a_width a] [0; 0], PyTensor (G i))) (seqZ 0 (a_num_tensors a))).
Proof.
  intros Hrand. unfold create_test_tensors.
  assert (forall i, i ∈ seqZ 0 (a_num_tensors a) -> rand i = Ret (G i)) as Hr by (intros i Hi%elem_of_seqZ_0; by apply Hrand).
  induction (seqZ 0 (a_num_tensors a)) as [|i l IH]; [done|]. cbn. rewrite Hr by left. cbn. rewrite IH; [done|]. intros j Hj. apply Hr. by right.
Qed.

Lemma create_empty_tensors_ok : grid_ok a -> exists td, create_empty_tensors a = Ret td /\ Forall2 is_shard (all_specs a) td.
Proof.
  intros Hg. unfold create_empty_tensors. destruct Hg as [Hg1 Hg2] eqn:Eg.
  rewrite (proj2 (Z.eqb_neq _ _)), (proj2 (Z.eqb_neq _ _)) by lia. cbn [orb]. apply py_map_ok.
  intros spec (idx & Hs & _)%list_elem_of_bind. destruct (specs_range a idx spec Hg Hs) as [_ Hn].
  destruct (zeros_law spec.2 Hn) as (x & -> & Hx & Ht). eexists. split; [reflexivity|]. split; [done|]. by exists x.
Qed.

Lemma both_runs rand wt wi code code' files files' received : a_md5_check a = true -> grid_ok a -> tensors_ok ->
  (forall i, 0 <= i < a_num_tensors a -> rand i = Ret (G i)) -> keeps_shapes (W := W) ->
  train_main numel (Ret wt) rand a ∅ = Some (code, files) -> infer_main numel (Ret wi) a files = Some (code', files', received) ->
  exists et, Forall2 trainer_entry (seqZ 0 (a_num_tensors a)) et /\ run_files et received files'.
Proof.
  intros Hm Hg Hok Hrand Hk Et Ei. destruct (train_text Hok) as (et & Het & Ew). exists et. split; [done|].
  unfold train_main in Et. rewrite (create_test_tensors_ok rand Hrand) in Et. cbn [mbind pyres_bind] in Et.
  destruct (iterate _ _ _) as [st|] eqn:El; [|done]. cbn in Et. injection Et as _ <-.
  destruct (train_loop numel a Hm _ _ _ _ _ Ew El) as [Hin Hout]. cbn [tr_files] in Hout.
  destruct (create_empty_tensors_ok Hg) as (td & Etd & Htd). unfold infer_main in Ei. rewrite Etd in Ei. cbn [mbind pyres_bind] in Ei.
  destruct (iterate _ _ (MkInferRun _ _ _ _ _)) as [si|] eqn:Eli; [|done]. cbn [mbind option_bind] in Ei.
  destruct (infer_loop numel a Hm _ (MkInferRun wi (tr_files st) td 0 []) _ Hg Hk (NoDup_seqZ _ _) Htd Eli) as (rec & Er & Hrec & _ & Hri & Hro).
  cbn in Er, Hro. assert (files' = ir_files si /\ received = rec) as [-> ->].
  { destruct (complete _ _) as [[u|e|] w]; try done; injection Ei as _ <- <-; done. }
  rewrite Forall_forall in Hrec. split.
  - intros i Hi. rewrite Hro by (intros j _; apply train_infer_names). apply Hin. by apply elem_of_seqZ_0.
  - intros i l Hl. destruct (Hrec _ Hl) as [Hi Hs]. split; [by apply elem_of_seqZ_0|]. split; [done|]. by apply Hri.
  - intros n Hn. destruct (decide (Exists (fun r => n = infer_name a r.1) rec)) as [He|He].
    { right. apply Exists_exists in He as ([i l] & Hr & ->). by exists i, l. }
    rewrite Hro in Hn by (intros i (r & -> & Hr)%list_elem_of_fmap ->; apply He, Exists_exists; by exists r).
    destruct (decide (Exists (fun i => n = train_name a i) (seqZ 0 (a_iterations a)))) as [Ht|Ht].
    { left. apply Exists_exists in Ht as (i & Hi & ->). exists i. split; [by apply elem_of_seqZ_0|done]. }
    rewrite Hout in Hn; [by destruct Hn|]. intros i Hi ->. apply Ht, Exists_exists. by exists i.
Qed.

(** The two dictionaries of the script. *)
Lemma run_dicts et received d : run_files et received d -> 0 <= a_seq_id a ->
  (forall p, 0 <= p.1 < a_iterations a /\ p.2 = a_seq_id a + p.1 <->
     files_dict (find_md5_files (Some d) "train_md5") !! p = Some (file_name "train_md5" p.1 p.2)) /\
  (forall p, p.1 ∈ received.*1 /\ p.2 = a_seq_id a + p.1 <->
     files_dict (find_md5_files (Some d) "infer_md5") !! p = Some (file_name "infer_md5" p.1 p.2)).
Proof.
  intros [Ht Hi Ho] Hs. split; apply files_dict_names; [by left| | |by right| |].
  - intros n Hn Hp. destruct (Ho n Hn) as [(i & Hr & ->)|(i & l & _ & ->)]; [|discriminate Hp]. by exists (i, a_seq_id a + i).
  - intros [i s] [Hr Es]. cbn in Hr, Es |- *. subst s. split; [lia|]. split; [lia|]. eexists. by apply Ht.
  - intros n Hn Hp. destruct (Ho n Hn) as [(i & _ & ->)|(i & l & Hl & ->)]; [discriminate Hp|]. exists (i, a_seq_id a + i).
    split; [|done]. split; [|done]. by apply (list_elem_of_fmap_2 fst _ (i, l)).
  - intros [i s] [([j l] & Ej & Hl)%list_elem_of_fmap Es]. cbn in Ej, Es |- *. subst j s. destruct (Hi i l Hl) as (Hr & _ & Hd).
    split; [lia|]. split; [lia|]. by eexists.
Qed.

(** The script compares what the two sides wrote in the iterations that were received. *)
Lemma verify_runs et received d : run_files et received d -> 0 <= a_seq_id a -> received <> [] ->
  verify_main (Some d) None = 0 <->
  forall i l, (i, l) ∈ received ->
    let t := parse_md5_file (Some (file_header "Trainer" i (a_seq_id a + i) ++ entry_lines et)%string) in
    let r := parse_md5_file (Some (infer_file a i l)) in t = ∅ \/ r = ∅ \/ t = r.
Proof.
  intros Hf Hs Hne. destruct (run_dicts et received d Hf Hs) as [Dt Di]. destruct Hf as [Ht Hi Ho].
  destruct (verify_exit (Some d) None) as [Hv _]. cbv zeta in Hv. rewrite Hv. clear Hv.
  set (train := files_dict (find_md5_files (Some d) "train_md5")) in *.
  set (infer := files_dict (find_md5_files (Some d) "infer_md5")) in *.
  assert (Hboth : forall i l, (i, l) ∈ received ->
    file_of (Some d) train (i, a_seq_id a + i) = parse_md5_file (Some (file_header "Trainer" i (a_seq_id a + i) ++ entry_lines et)%string) /\
    file_of (Some d) infer (i, a_seq_id a + i) = parse_md5_file (Some (infer_file a i l)) /\ (i, a_seq_id a + i) ∈ dom train ∩ dom infer).
  { intros i l Hl. destruct (Hi i l Hl) as (Hr & _ & Hd).
    assert (train !! (i, a_seq_id a + i) = Some (train_name a i)) as Lt by (by apply (Dt (i, a_seq_id a + i))).
    assert (infer !! (i, a_seq_id a + i) = Some (infer_name a i)) as Li.
    { apply (Di (i, a_seq_id a + i)). split; [|done]. by apply (list_elem_of_fmap_2 fst _ (i, l)). }
    unfold file_of. rewrite Lt, Li, Hd, (Ht i Hr). split; [done|]. split; [done|]. apply elem_of_intersection. split; apply elem_of_dom; by eexists. }
  split.
  - intros [_ Hall] i l Hl. destruct (Hboth i l Hl) as (<- & <- & Hin). by apply Hall.
  - intros Hall. split.
    + destruct received as [|[i l] received]; [done|]. exists (i, a_seq_id a + i). split; [|done]. apply (Hboth i l). left.
    + intros [i s] [[_ [n Hn]%elem_of_dom]%elem_of_intersection _].
      assert (exists l, (i, l) ∈ received /\ s = a_seq_id a + i) as (l & Hl & ->).
      { pose proof (files_dict_sound _ _ _ Hn) as [Hin Ex]. apply elem_of_md5_files in Hin as (Hsm & Hp & _).
        destruct (Ho n Hsm) as [(j & _ & ->)|(j & l & Hl & ->)]; [discriminate Hp|]. unfold infer_name in Ex.
        rewrite extract_file_name in Ex by (by right). injection Ex as -> <-. by exists l. }
      destruct (Hboth i l Hl) as (E1 & E2 & _). unfold pair_ok. rewrite E1, E2. by apply Hall.
Qed.

(** Every received shard has the elements of the trainer. *)
Definition transferred (l : list (ShardedKey * pyobj T)) : Prop :=
  forall idx k x c, 0 <= idx < a_num_tensors a -> (k, PyTensor x) ∈ l -> key k = tensor_key idx -> in_box (global_offset k) (py_shape x) c ->
    py_elem x (shifted c (global_offset k)) = py_elem (G idx) c.

(** The digest tells the tensor [idx] from what was received. *)
Definition no_collision (l : list (ShardedKey * pyobj T)) : Prop :=
  forall idx full, 0 <= idx < a_num_tensors a -> holds l idx full -> py_md5 full = py_md5 (G idx) ->
    forall c, in_box [0; 0] [a_height a; a_width a] c -> py_elem full c = py_elem (G idx) c.

(** The shards of a key are those of its chunk. *)
Lemma chunk_of_key idxs chunks es k o idx : Forall3 (chunk_entry a) idxs chunks es -> Forall (fun i => 0 <= i) idxs -> 0 <= idx ->
  (k, o) ∈ concat chunks -> key k = tensor_key idx ->
  exists n ch e, idxs !! n = Some idx /\ chunks !! n = Some ch /\ es !! n = Some e /\ chunk_entry a idx ch e /\ (k, o) ∈ ch.
Proof.
  intros Hc Hi Hidx Hin Hkey. induction Hc as [|i ch e idxs chunks es He _ IH]; [by apply not_elem_of_nil in Hin|].
  apply Forall_cons in Hi as [Hi0 Hi]. cbn in Hin. apply elem_of_app in Hin as [Hin|Hin].
  - exists 0%nat, ch, e. destruct He as [Hs He]. destruct (shard_spec_of a i ch k o Hs Hin) as (spec & x & Hspec & -> & _).
    apply elem_of_specs in Hspec as (row & col & _ & _ & ->). cbn in Hkey. apply tensor_key_inj in Hkey as ->; [|done..]. by split_and!.
  - destruct (IH Hi Hin) as (n & ch' & e' & ?). by exists (S n), ch', e'.
Qed.

Section OneIteration.
  Context (l : list (ShardedKey * pyobj T)) (chunks : list (list (ShardedKey * pyobj T))) (es : list (string * entry)).
  Context (Hl : l = concat chunks) (Hc : Forall3 (chunk_entry a) (seqZ 0 (a_num_tensors a)) chunks es).
  Context (Hg : grid_ok a) (Hok : tensors_ok).

Lemma indices_nonneg : Forall (fun i => 0 <= i) (seqZ 0 (a_num_tensors a)).
Proof. apply Forall_forall. intros i Hi%elem_of_seqZ_0. lia. Qed.

(** What the shards of a chunk hold is what all shards with its key hold. *)
Lemma chunk_holds n idx ch full : seqZ 0 (a_num_tensors a) !! n = Some idx -> chunks !! n = Some ch -> reassembled a ch full -> holds l idx full.
Proof.
  intros Hn Hch (Hs & Ht & Hel). split; [done|]. split; [done|]. intros k x c Hin Hkey Hb.
  assert (0 <= idx) by (apply list_elem_of_lookup_2, elem_of_seqZ_0 in Hn; lia). rewrite Hl in Hin.
  destruct (chunk_of_key _ _ _ _ _ idx Hc indices_nonneg ltac:(done) Hin Hkey) as (n' & ch' & e' & Hn' & Hch' & _ & _ & Hin').
  assert (n' = n) as -> by (eapply NoDup_lookup; [apply NoDup_seqZ|done|done]). rewrite Hch in Hch'. injection Hch' as <-. by apply Hel.
Qed.

(** An element of a shard is one of the tensor. *)
Lemma shard_inside idx ch k x c : Forall2 is_shard (tensor_specs a idx) ch -> (k, PyTensor x) ∈ ch -> in_box (global_offset k) (py_shape x) c ->
  in_box [0; 0] [a_height a; a_width a] c.
Proof.
  intros Hs Hin Hb. destruct (shard_spec_of a idx ch k _ Hs Hin) as (spec & y & Hspec & -> & [= <-] & Hx & _). rewrite Hx in Hb.
  apply elem_of_specs in Hspec as (row & col & Hrow & Hcol & ->). apply spec_box in Hb as (y & z & -> & Hy & Hz). destruct Hg as [Hr Hcl].
  pose proof (piece_range (a_height a) (a_shard_rows a) row ltac:(lia) ltac:(lia) Hrow).
  pose proof (piece_range (a_width a) (a_shard_cols a) col ltac:(lia) ltac:(lia) Hcol). apply in_box_2. exists y, z. split; [done|]. lia.
Qed.

Lemma digests_transferred : no_collision l ->
  Forall2 (fun i e => exists m, py_md5 (G i) = Ret m /\ e = (tensor_key i, (m, shape_str [a_height a; a_width a], FLOAT32)))
    (seqZ 0 (a_num_tensors a)) es <-> transferred l.
Proof.
  intros Hnc. split.
  - intros Hd idx k x c Hidx Hin Hkey Hb. rewrite Hl in Hin.
    destruct (chunk_of_key _ _ _ _ _ idx Hc indices_nonneg ltac:(lia) Hin Hkey) as (n & ch & e & Hn & Hch & He & (Hs & _ & full & m & Hf & Hm & _ & Ee) & Hin').
    destruct (Forall2_lookup_lr _ _ _ _ _ _ Hd Hn He) as (m' & Em' & Ee').
    assert (py_md5 full = py_md5 (G idx)) as Eq by congruence.
    rewrite <- (Hnc idx full Hidx (chunk_holds n idx ch full Hn Hch Hf) Eq c) by (by eapply shard_inside). symmetry. by apply Hf.
  - intros Ht. apply Forall2_same_length_lookup. split; [by eapply Forall3_length_lr|].
    intros n idx e Hn He. destruct (Forall3_lookup_l _ _ _ _ n idx Hc Hn) as (ch & e' & Hch & He' & (Hs & _ & full & m & Hf & Hm & _ & Ee)).
    pose proof (eq_trans (eq_sym He) He') as [= <-]. exists m. split; [|done]. rewrite <- Hm. pose proof (list_elem_of_lookup_2 _ _ _ Hn) as Hi%elem_of_seqZ_0.
    destruct (Hok idx Hi) as [Gs Gt]. destruct Hf as (Fs & Ft & Fel) eqn:Ef. symmetry. apply md5_ext; [congruence..|].
    rewrite Fs. cbn [map]. intros c Hb. destruct (specs_total a idx c Hg Hb) as (spec & Hspec & Hsb).
    destruct (Forall2_elem_l _ _ _ _ Hs Hspec) as ([k o] & Hin & Ek & x & Eo & Ex & _). cbn in Ek, Eo. subst k o.
    rewrite (Fel spec.1 x c Hin) by (by rewrite Ex). apply (Ht idx); [done| | |by rewrite Ex].
    + rewrite Hl. apply list_elem_of_In, in_concat. exists ch. split; apply list_elem_of_In; [by eapply list_elem_of_lookup_2|done].
    + by apply elem_of_specs in Hspec as (row & col & _ & _ & ->).
Qed.
End OneIteration.
End Check.

(** C29: the check of the example is right.  Whatever table the scripts use, as long as
    its reads keep the shapes of tensors: after a run of the trainer and a run
    of the inference node in which something was received, the script exits with
    0 if and only if in every iteration that was received every element of every
    shard is the element of the tensor of the trainer.  The digests have to tell
    the tensors of this run from each other.  Iterations in which nothing was
    received do not count. *)
Theorem md5_check_correct {T E W} `{PyTorchLaws T E} `{CoreTable T W} (numel : T -> pyres Z) (a : run_args) (G : Z -> T)
    (rand : Z -> pyres T) (wt wi : W) (code code' : Z) (files files' : directory) (received : list (Z * list (ShardedKey * pyobj T))) :
  a_md5_check a = true -> grid_ok a -> 1 <= a_num_tensors a -> 0 <= a_seq_id a -> tensors_ok a G ->
  (forall i, 0 <= i < a_num_tensors a -> rand i = Ret (G i)) -> keeps_shapes (W := W) ->
  train_main numel (Ret wt) rand a ∅ = Some (code, files) -> infer_main numel (Ret wi) a files = Some (code', files', received) ->
  received <> [] -> (forall i l, (i, l) ∈ received -> no_collision a G l) ->
  verify_main (Some files') None = 0 <-> forall i l, (i, l) ∈ received -> transferred a G l.
Proof.
  intros Hm Hg Hn Hs Hok Hrand Hk Et Ei Hne Hnc.
  destruct (both_runs numel a G rand wt wi code code' files files' received Hm Hg Hok Hrand Hk Et Ei) as (et & Het & Hf).
  rewrite (verify_runs a et received files' Hf Hs Hne). clear Et Ei.
  assert (Hi : Forall (fun i => 0 <= i) (seqZ 0 (a_num_tensors a))) by apply indices_nonneg.
  assert (Hct : NoDup et.*1 /\ Forall (fun p => clean_entry p.1 p.2) et).
  { apply (entries_clean a (seqZ 0 (a_num_tensors a))); [apply NoDup_seqZ|done|]. eapply Forall2_impl; [exact Het|]. intros i e (m & _ & Hm' & ->). eauto. }
  assert (forall es : list (string * entry), length es = length (seqZ 0 (a_num_tensors a)) -> (list_to_map (reverse es) : gmap string entry) <> ∅) as Hemp.
  { intros es Hlen Em. rewrite length_seqZ in Hlen. destruct es as [|[k e] es] using rev_ind; [cbn in Hlen; lia|]. rewrite reverse_snoc in Em.
    cbn in Em. by apply insert_non_empty in Em. }
  apply forall_proper; intros i. apply forall_proper; intros l. apply forall_proper; intros Hin. cbv zeta.
  destruct (rf_infer _ _ _ _ Hf i l Hin) as (_ & Hsh & _). destruct (infer_text a l Hg Hsh) as (chunks & es & Hl & Hc & Ew).
  assert (Hes : Forall2 (fun i e => exists m, all_chars clean m /\ e = (tensor_key i, (m, shape_str [a_height a; a_width a], FLOAT32))) (seqZ 0 (a_num_tensors a)) es).
  { clear -Hc. induction Hc as [|idx ch e idxs chunks es (_ & _ & full & m & _ & _ & Hm' & Ee) _ IH]; [constructor|]. constructor; [by exists m|exact IH]. }
  destruct (entries_clean a _ es (NoDup_seqZ _ _) Hi Hes) as [Hci1 Hci2]. destruct Hct as [Hct1 Hct2].
  unfold infer_file. rewrite Ew. cbn [fst]. rewrite !parse_written by done.
  rewrite <- (digests_transferred a G l chunks es Hl Hc Hg Hok (Hnc i l Hin)), <- (entries_agree a G _ et es Hct1 Hci1 Het).
  - pose proof (Hemp et ltac:(symmetry; by eapply Forall2_length)). pose proof (Hemp es ltac:(symmetry; by eapply Forall2_length)). tauto.
  - eapply Forall2_impl; [exact Hes|]. intros j e (m & _ & ->). by exists m.
Qed.

(** ** Examples *)

Module BitTorch.
(** Tensors of bits, whose digest is the text of all bits. *)
Definition tensor : Type := list Z * (list Z -> bool).

Fixpoint coords (shape : list Z) : list (list Z) :=
  match shape with [] => [[]] | d :: shape' => i ← seqZ 0 d; (cons i) <$> coords shape' end.

Fixpoint bits (l : list bool) : string :=
  match l with [] => EmptyString | b :: l' => String (if b : bool then "1" else "0")%char (bits l') end.

Fixpoint inside (sl : list (Z * Z)) (c : list Z) : bool :=
  match sl, c with
  | [], [] => true
  | (lo, hi) :: sl', x :: c' => (lo <=? x) && (x <? hi) && inside sl' c'
  | _, _ => false
  end.

#[export] Instance torch : PyTorch tensor bool := {|
  py_zeros s := Ret (s, fun _ => false);
  py_zeros_as s _ := Ret (s, fun _ => false);
  py_zero_ x := (x.1, fun _ => false);
  py_setitem x sl y := Ret (x.1, fun c => if inside sl c then y.2 (shifted c sl.*1) else x.2 c);
  py_shape x := x.1;
  py_dtype _ := FLOAT32;
  py_md5 x := Ret (bits (map x.2 (coords x.1)));
  py_elem x := x.2;
|}.

Lemma elem_of_coords s c : c ∈ coords s <-> in_box (map (fun _ => 0) s) s c.
Proof.
  revert c. induction s as [|d s IH]; intros c; cbn [coords map].
  - rewrite list_elem_of_singleton. split; [intros ->; constructor|by inversion 1].
  - rewrite list_elem_of_bind, in_box_cons. split.
    + intros (i & (c' & -> & Hc)%list_elem_of_fmap & Hi%elem_of_seqZ_0). exists i, c'. split; [done|]. split; [lia|]. by apply IH.
    + intros (i & c' & -> & Hi & Hc). exists i. split; [|apply elem_of_seqZ_0; lia]. apply list_elem_of_fmap. exists c'. split; [done|]. by apply IH.
Qed.

Lemma inside_box off s c : length off = length s -> inside (slices off s) c = true <-> in_box off s c.
Proof.
  unfold slices. revert off c. induction s as [|d s IH]; intros [|o off] c Hl; try done.
  - cbn. destruct c; [split; [constructor|done]|]. split; [done|by inversion 1].
  - cbn [zip_with inside]. rewrite in_box_cons. destruct c as [|x c].
    + split; [done|]. by intros (x & cs & ? & _).
    + rewrite !andb_true_iff, Z.leb_le, Z.ltb_lt, IH by (cbn in Hl; lia). split.
      * intros [? ?]. exists x, c. split; [done|]. split; [lia|done].
      * by intros (x' & cs & [= <- <-] & ? & ?).
Qed.

Lemma slices_offsets off s : length off = length s -> (slices off s).*1 = off.
Proof. unfold slices. revert off. induction s as [|d s IH]; intros [|o off] Hl; try done. cbn. f_equal. apply IH. by injection Hl. Qed.

#[export] Instance torch_laws : PyTorchLaws tensor bool.
Proof.
  split.
  - intros s _. by eexists.
  - intros s x _. by eexists.
  - done.
  - intros x off y Hr _. assert (length off = length y.1) as Hl by (pose proof (Forall3_length_lm _ _ _ _ Hr); pose proof (Forall3_length_lr _ _ _ _ Hr); cbn in *; congruence).
    eexists. split; [reflexivity|]. cbn. rewrite slices_offsets by done. split; [done|]. split; [done|]. split; intros c Hc.
    + by rewrite (proj2 (inside_box off y.1 c Hl) Hc).
    + destruct (inside _ c) eqn:Ei; [|done]. by apply inside_box in Ei.
  - intros x _. eexists. split; [reflexivity|]. generalize (map x.2 (coords x.1)). intros l. induction l as [|[] l IH]; [done|..]; by split.
  - intros x y Hs _ He. cbn in *. rewrite <- Hs. do 2 f_equal. apply map_ext_in. intros c Hc%list_elem_of_In. by apply He, elem_of_coords.
Qed.

Lemma bits_inj l l' : bits l = bits l' -> l = l'.
Proof. revert l'. induction l as [|[] l IH]; intros [|[] l'] [=]; f_equal; by apply IH. Qed.

Lemma md5_injective x y c : x.1 = y.1 -> py_md5 x = py_md5 y -> c ∈ coords x.1 -> x.2 c = y.2 c.
Proof.
  intros Hs [= Hm%bits_inj] Hc. rewrite <- Hs in Hm. revert Hm Hc. generalize (coords x.1). intros l. induction l as [|c' l IH]; intros Hm Hc.
  { by apply not_elem_of_nil in Hc. }
  injection Hm as H1 H2. apply elem_of_cons in Hc as [->|Hc]; [done|by apply IH].
Qed.

(** A table that has one tensor under every key. *)
Definition global (c : list Z) : bool := Z.odd (foldr Z.add 0 c).

#[export] Instance table : CoreTable tensor unit := {|
  core_put _ _ _ w := (Ok true, w);
  core_get _ _ x _ := y ← x; Ok (true, y);
  core_get_tensor _ _ _ _ := Ok None;
  core_multi_put _ _ w := (Ok true, w);
  core_multi_get _ l _ := (Ok true, map (fun p => (p.1, x ← p.2; Ok (x.1, fun c => global (zip_with Z.add c (global_offset p.1))))) l);
  core_multi_get_tensor _ _ _ := Ok [];
  core_complete _ w := (Ok tt, w);
  core_scan_tensor_meta _ _ := Ok [];
|}.

Lemma table_keeps_shapes : keeps_shapes (W := unit).
Proof.
  intros seq l w b l' [= _ <-]. induction l as [|[k r] l IH]; constructor; [|exact IH]. split; [done|]. intros x Hx. cbn in Hx. subst r. by eexists.
Qed.

(** Two tensors of 4 by 3, read in two rows of shards. *)
Definition args : run_args := MkRunArgs 2 2 4 3 5 true 2 1.
Definition source (_ : Z) : tensor := ([4; 3], global).
End BitTorch.

#[local] Existing Instances BitTorch.torch BitTorch.torch_laws BitTorch.table.

Definition bit_numel (x : BitTorch.tensor) : pyres Z := Ret (foldr Z.mul 1 x.1).

Lemma md5_check_correct_witness : exists code files code' files' received,
  train_main bit_numel (Ret tt) (fun i => Ret (BitTorch.source i)) BitTorch.args ∅ = Some (code, files) /\
  infer_main bit_numel (Ret tt) BitTorch.args files = Some (code', files', received) /\ length received = 2%nat /\
  verify_main (Some files') None = 0.
Proof.
  destruct (train_main bit_numel (Ret tt) (fun i => Ret (BitTorch.source i)) BitTorch.args ∅) as [[code files]|] eqn:Et; [|discriminate Et].
  destruct (infer_main bit_numel (Ret tt) BitTorch.args files) as [[[code' files'] received]|] eqn:Ei.
  2: { injection Et as _ <-. discriminate Ei. }
  exists code, files, code', files', received. split; [reflexivity|]. split; [exact Ei|].
  assert (exists l, received = [(0, l); (1, l)] /\ l = map (fun k => (k, PyTensor ([2; 3], fun c => BitTorch.global (zip_with Z.add c (global_offset k)))))
            [MkShardedKey "tensor_000" [4; 3] [0; 0]; MkShardedKey "tensor_000" [4; 3] [2; 0];
             MkShardedKey "tensor_001" [4; 3] [0; 0]; MkShardedKey "tensor_001" [4; 3] [2; 0]]) as (l & Er & El).
  { injection Et as _ <-. injection Ei as _ _ <-. eexists. split; reflexivity. }
  split; [by rewrite Er|].
  assert (Hin : forall i l', (i, l') ∈ received -> l' = l).
  { intros i l'. rewrite Er, !elem_of_cons. intros [[= _ ->]|[[= _ ->]|?%elem_of_nil]]; done. }
  apply (md5_check_correct bit_numel BitTorch.args BitTorch.source (fun i => Ret (BitTorch.source i)) tt tt code code' files files' received); try done.
  - exact BitTorch.table_keeps_shapes.
  - by rewrite Er.
  - intros i l' Hl idx full _ (Hs & _) Hm c Hc. apply BitTorch.md5_injective; [done|done|]. apply BitTorch.elem_of_coords. cbn in Hs. by rewrite Hs.
  - intros i l' ->%Hin idx k x c _ Hk _ Hb. subst l. apply list_elem_of_fmap in Hk as (k' & [= -> ->] & Hk).
    cbn [py_elem BitTorch.torch BitTorch.source fst snd py_shape] in Hb |- *. f_equal.
    rewrite !elem_of_cons in Hk. destruct Hk as [->|[->|[->|[->|?%elem_of_nil]]]]; try done;
      apply in_box_2 in Hb as (y & z & -> & _); cbn; (f_equal; [lia|f_equal; lia]).
Defined.
